(* ===== verification/_CoqProject ===== *)
-Q . S2P
Prelude.v
PyString.v
Json.v
CollectionLimits.v
EventStore.v
Outbox.v
EventWorker.v
SchemaContract.v
CatalogTables.v
CatalogPipeline.v
PortForwardFrames.v
PortForwardGateway.v
PortForwardRuns.v
PortForwardAgent.v
PortForwardAgentRuns.v
PortForwardTarget.v
PortForwardTunnel.v
PortForwardDelivery.v
PortForwardRelay.v
CommandLifecycle.v
CommandCatalog.v
CommandStore.v
CommandRuns.v
CommandSafety.v
CommandHandler.v
Uninstall.v
AgentOutbox.v
CommandEndpoints.v
AgentLoop.v
AgentDelivery.v
AgentScenarios.v
OperationEvents.v
CommandStream.v
CommandStreamRuns.v
CommandStreamScenarios.v
Transactions.v
AlertStore.v
AlertEvaluation.v
AlertRuns.v
AlertReference.v
AlertLife.v
AlertRouting.v
AlertService.v
AlertScenarios.v
Concurrent.v
RecoveryEvidence.v
RecoveryVerification.v
RecoveryPlans.v
RecoveryWorker.v
RecoveryRoutes.v
RecoveryOperator.v
RecoveryVerdicts.v
RecoveryRuns.v
RecoverySafety.v
RecoveryEnds.v
RecoveryScenarios.v
AgentPolicies.v
PolicyServer.v
PolicyUpgrade.v
AgentControl.v
PolicyRuns.v
PolicyRoutes.v
PolicySafety.v
PolicyEnds.v
PolicyReconcile.v
PolicyRebase.v
PolicyPlans.v
PolicyScenarios.v
