(* ===== verification/Prelude.v ===== *)
(** * Kyro: a verified model of the control plane's core

    Kyro watches Kubernetes clusters, finds the cause of an incident, proposes
    a repair and executes commands through agents.  Its services talk through
    a Postgres database and a broker, and with the agents over one websocket
    each.  This library models, from the Python sources (paths are relative to
    [src/src/], except where they start with [dags/]), the mechanisms whose
    promises do not show in any single function:

    - the event bus: a handler runs in one transaction with the idempotency
      ledger and the outbox, a relay publishes the outbox afterwards, failed
      deliveries are retried and end as dead letters;
    - the command store: commands with leased attempts, operation event
      streams and control requests, driven by the API gateway, the command
      worker, the agents and the janitor at the same time;
    - the data catalog: a daily batch that archives what each source reported,
      normalizes it and settles the status of the day;
    - port-forwarding: TCP connections from a desktop to a pod or service,
      multiplexed over the gateway's websocket to the agent, with credit windows
      and sequence numbers;
    - the agent's command loop: it polls, starts and executes commands over
      HTTP, keeps their results in a table on disk and reports them until the
      server answers, and removes itself when the server says so;
    - the live stream of a command: operation events are appended to a stream
      in Postgres, announced through Redis and read by browsers over SSE;
    - alerts: rules evaluated over measurements, their states and events, the
      requests to deliver them and the channels they go to;
    - recovery: a repair that was approved and merged is verified against the
      evidence of the cluster, window by window, until it held long enough, a
      check fails or the janitor finds it overdue; operators retry it;
    - agent policies: the server keeps one policy per cluster, which operators,
      integrations, registrations and upgrades change; the agent fetches it, stores
      it and brings the objects it names into their desired state.

    The evidence an agent ships is cut by shared collection limits.

    ** Files

    - [Prelude]: automation ([break], [bool_to_prop]), the error monad
      [result], ordered dictionaries ([odict]: a Python [dict] keeps insertion
      order), runs of a machine ([steps]) and their invariants.
    - [PyString]: the string methods the code uses; sorting by key.
    - [Json]: JSON values, [json.dumps] and its canonical form.
    - [CollectionLimits]: [services/target/cluster-agent/providers/collection_limits.py].
    - [EventStore]: [packages/contracts/event_bus/interfaces.py],
      [processing.py], [packages/storage/repositories/event.py], [dead_letter.py]
      and the retention statements; one definition per SQL statement.
    - [Outbox]: [packages/storage/repositories/outbox.py], [packages/runtime/relay.py].
    - [EventWorker]: [packages/runtime/worker.py], [dispatch.py],
      [packages/events/bus.py], [envelope.py]; one delivery from the claim to the
      acknowledgement, composed of the statements of the two files above.
    - [SchemaContract]: [domains/datacatalog/schema_contract.py].
    - [CatalogTables]: [domains/datacatalog/models.py] and the SQL statements of
      the pipeline, with a generic [upsert].
    - [CatalogPipeline]: [domains/datacatalog/pipeline.py], [FixtureSource] of
      [sources.py], the status vocabulary, and the tasks of
      [dags/catalog_reconciliation_daily.py].
    - [PortForwardFrames]: [packages/contracts/port_forward.py]: budgets,
      messages, the binary data frame.
    - [PortForwardGateway]: the sessions and the broker of
      [services/realtime/realtime-gateway/port_forward_sessions.py], and
      [agent_connections.py]; handlers return the new session and the effects.
    - [PortForwardRuns]: the step relation of the broker, the session invariant
      [session_wf], the history of a session.
    - [PortForwardAgent]: the controller of
      [services/target/cluster-agent/port_forward_stream.py] and the receive loop
      of [live_summary.py], in a state, output and exception monad.
    - [PortForwardAgentRuns]: the step relation of the agent, the logic [keeps]
      of handlers that keep an invariant even when they raise, the invariant
      [controller_ok], and sessions that can never be removed ([stale]).
    - [PortForwardTarget]: the resolver of the same module.
    - [PortForwardTunnel]: the gateway's session, the agent and the two queues
      between them as one machine; [wp], which runs a handler of the agent.
    - [PortForwardDelivery], [PortForwardRelay]: what each end does to a
      connection ([moves], [takes]; [relays], [heard]), the invariant [link] that
      ties the two ends to the messages on their way, the theorems on the whole.
    - [CommandLifecycle]: [domains/command/lifecycle.py].
    - [CommandCatalog]: [domains/command/actions.py], [builtin_actions.py],
      [policy.py], [packages/config/control.py], [environments.py].
    - [CommandStore]: [domains/command/repository.py], [models.py]; one
      transaction per method, writing to the tables of [EventStore] and [Outbox]
      where the code publishes in its transaction.
    - [CommandRuns]: the step relation of the store (any interleaving of its
      operations) and the invariant [wf] every run keeps.
    - [CommandSafety]: what runs guarantee.
    - [CommandHandler]: [domains/command/handler.py], [events.py],
      [domains/target/management_guard.py]; calls the store.
    - [OperationEvents]: the three brokers of
      [packages/runtime/operation_events.py].
    - [CommandStream]: the event stream of [domains/command/router.py] over the
      store of [CommandStore], with a broker as an interface.
    - [CommandStreamRuns], [CommandStreamScenarios]: readers, writers and a
      broker that loses and reorders announcements as one machine, its
      theorems, and runs of it.
    - [Uninstall]: [domains/target/uninstall.py] and the removal handlers of
      [services/target/cluster-agent/agent.py].
    - [AgentOutbox]: [cluster-agent/commands/outbox.py]: the table of results,
      its statements, its migration; a table as a map from keys to rows
      ([row_at]).
    - [CommandEndpoints]: the agent's routes of [domains/command/router.py] with
      the token guard and the registrations of [domains/identity]; [serve] is
      the next transaction of a request.
    - [AgentLoop]: [poll_commands] and the two tasks that flush the outbox
      ([cluster-agent/agent.py]), the network between them and the gateway, the
      rest of the management plane as any operation of [CommandRuns].
    - [AgentDelivery]: the invariant of these runs and its theorems.
    - [AgentScenarios]: a scheduler that executes runs, and the runs.
    - [Transactions]: programs of several transactions ([prog]) and their runs
      with other transactions in between ([runs]); inversion lemmas, stability.
    - [AlertStore]: [domains/alert/models.py] and [repository.py]; one
      transaction per method.
    - [AlertEvaluation]: [domains/alert/evaluation.py]; the engine as programs.
    - [AlertRuns]: the other writers of the alert tables and what they leave
      alone.
    - [AlertReference]: a specification of the engine without state, over the
      history of the samples; [AlertLife]: the engine implements it.
    - [AlertRouting]: [services/alert/alert-worker/app.py],
      [domains/alert/delivery.py], the channel routes of [router.py].
    - [AlertService]: [domains/alert/service.py], [incident_events.py], the
      event routes and the event stream of [router.py].
    - [AlertScenarios]: concrete runs of the alert components.
    - [Concurrent]: any number of programs in flight at once ([pool]); a
      rely-guarantee logic ([triple]) in which each is verified against what it
      and the others guarantee, and the theorem that lifts it to the pool.
    - [RecoveryEvidence]: the readers and checks of
      [domains/rca/recovery_verification.py]; [RecoveryVerification]: the
      lifecycle of a recovery and the verdict on a window.
    - [RecoveryPlans]: [domains/rca/models.py] and the recovery statements of
      [domains/rca/repository.py]; one transaction per method.
    - [RecoveryWorker], [RecoveryRoutes], [RecoveryOperator]: the writers of
      plans as programs: [services/ai/rca-feedback-worker/app.py], the pull
      request webhook of [domains/gitops/router.py], the selection and retry
      routes of [domains/rca/router.py], [services/ai/select-worker/app.py].
    - [RecoveryVerdicts]: what a sequence of windows leads to.
    - [RecoveryRuns]: all writers and the janitor
      ([services/projection/rca-timeline-janitor/app.py]) as one pool, the
      history of verdicts, the state machine of plans and the invariant.
    - [RecoverySafety]: every writer keeps it; the theorems on runs.
      [RecoveryEnds]: the end of overdue verifications, lost updates.
      [RecoveryScenarios]: concrete plans, windows and runs.
    - [AgentPolicies]: the policy models of
      [packages/contracts/gateway/requests.py], [policy_merge.py],
      [domains/target/management_guard.py], [evidence_policy.py].
    - [PolicyServer]: the policy tables of [domains/target/repository.py] and the
      routes of [domains/target/router.py] and
      [domains/integrations/prometheus.py] that write, serve or report policies.
    - [PolicyUpgrade]: [domains/target/policy_upgrade.py], [packages/contracts/target.py],
      the deployment of [install_manifest.py], candidates and transaction of
      [repository.py].
    - [AgentControl]: [services/target/cluster-agent/control/] and the policy methods
      of [agent.py]: the store, the synchronization, the reconciler, and the
      requests between them and the server.
    - [PolicyRuns]: the server, an agent with its two tasks, and the network as one
      machine; [PolicyRoutes]: what every route keeps; [PolicySafety]: the invariant
      of the whole, each task against what the others may do; [PolicyEnds]: the
      theorems on runs.
    - [PolicyReconcile]: passes of the reconciler. [PolicyRebase], [PolicyPlans]:
      plans of the upgrade. [PolicyScenarios]: a cluster from its registration
      through an upgrade.

    ** What the theorems show

    - Event bus: a business effect is applied exactly once per event and
      consumer ([EventWorker.exactly_once]), a message is acknowledged only
      when its outcome is durable ([ack_is_durable]), effect, ledger and outbox
      move together ([delivery_atomic]), retries end ([retries_exhaust]);
      an outbox row is published before it is marked and never lost
      ([Outbox.relay_no_loss]), two relays never hold one row
      ([relay_leases_exclusive]), a dead letter is replayed once, envelopes
      survive their encoding ([EventStore]).
    - Commands: an attempt is started once, its reports are fenced by the
      lease, statuses follow the transition table, the attempts stay in their
      budget, the event stream is gap free and closed iff the command is
      finished, completion and its notification commit together, a control
      request is applied once ([CommandSafety]); nothing is queued without
      every check of the policy, a request gets one verdict and a rejection
      closes its receipt ([CommandHandler]); the catalog and the transition
      table are consistent ([CommandCatalog], [CommandLifecycle]).
    - Data catalog: loading a day again changes nothing but clocks
      ([CatalogPipeline.rerun_idempotent]), a backfill replays the archive
      ([replay_deterministic]), the settled status is exactly what the recorded
      sources say ([dag_status_exact]), contracts are canonical and compared
      exactly ([SchemaContract]).
    - Port-forwarding: each end keeps its budgets in any run
      ([gateway_session_bounded], [agent_bounded]), a session is recorded and
      ended once ([session_recorded_once]), the frame is an exact codec
      ([frame_codec]), only the authorized resource is opened
      ([resolved_target_accepted]); end to end, a connection refines a byte pipe
      ([tunnel_refines_pipe]) and the two ends agree on its credit, so that the
      agent never reports a violation ([tunnel_credit_agrees]).
    - The agent: no attempt is executed twice ([executed_at_most_once]), a stored
      result is reported, given up after the configured failures or recorded by
      the server ([result_accounted_for]), the flusher ends ([flush_drains]), and
      the receipt of a removal is honest ([uninstall_receipt_honest]).
    - Live streams: a browser that reads the stream of a command receives every
      event once and in order ([stream_exact]) and catches up with the store
      whatever announcements are lost ([reader_catches_up]).
    - Alerts: the engine, whose state other services write too, announces
      exactly the edges of the stateless specification
      ([AlertLife.alerts_follow_reference]); a transition commits with the
      request to deliver it ([transition_staged_atomically]) and reaches only
      the channels it selects ([selected_channels_only]); an incident has one
      event ([incident_recorded_once]).
    - Recovery: a plan is completed only over consecutive healthy windows, each
      announced, that span the configured minimum
      ([RecoverySafety.completed_is_certified]), its incident is resolved once
      ([incident_resolved_once]), each transaction moves a plan along its state
      machine ([plans_follow_state_machine]); sweeps end every overdue
      verification together with its failure event
      ([RecoveryEnds.overdue_verifications_end]); a verdict is completed exactly
      for a long enough streak ([RecoveryVerdicts.completed_exactly]), and
      windows at the cadence complete it on time
      ([recovery_completes_on_time]).
    - Agent policies: the agent asks the API of its cluster only for objects of a
      policy that was stored for it, within the allowlist
      ([PolicyEnds.kubernetes_calls_authorized]), and a management cluster is never
      asked for anything ([management_cluster_untouched]); generations order the
      policies on both sides ([policy_generations]); the reconciler converges
      ([PolicyReconcile.reconcile_converges]), an upgrade is planned once
      ([PolicyPlans.upgrade_settles]) and what it plans the agents accept
      ([upgrade_plan_accepted]).
    - Limits: a payload ends within its budget or with nothing left to cut, and
      what was cut is reported ([CollectionLimits]).
    - Behaviour the code did not mean: [retried_command_swept] (the janitor's
      deadline ignores a retry), [lost_source_success] (a source whose
      extraction raises is not missed), [cluster_collision] (evidence
      identifiers leave out the cluster), [mislabelled_snapshot] (a second
      extraction on the same day gives the first file another digest),
      [lost_streams_exhaust_agent] (an agent whose socket broke eight times with
      connections open serves no session any more),
      [write_after_eof_ends_stream] (data after a half-close ends the agent's
      realtime stream), [close_during_send_ends_session] (closing one connection
      while its target sends ends the session), [removed_without_record] (an
      agent removes itself on a 404 that does not mean its receipt was stored),
      [racing_flush_ends_process] (two flushes of one receipt end the agent),
      [migration] (the oldest outbox table cannot be migrated),
      [terminal_after_gap_stays_open] and [snapshot_hides_first_event] (streams
      that stay open or begin too late), [resolved_incident_silences_rule]
      (resolving an incident silences the rule behind it),
      [cycle_stops_at_failure] (one failing rule keeps the later ones from being
      evaluated), [untested_url_enabled] (a channel is enabled with a URL that
      was never tested), [repeat_undoes_acknowledgement], [regression_erased]
      (of two windows judged at the same time one verdict is erased, and a plan
      completes over a regression), [retried_attempt_overwritten] (a judgement
      of an expired verification overwrites its retry),
      [registration_policy_unseen] (a new agent never sees the policy its
      registration stored).

    ** Conventions

    - A transaction is a function on the tables that returns new tables or an
      error and then leaves them alone; the database serializes the
      transactions that touch the same rows (row and advisory locks), so
      concurrency is the interleaving of transactions.  A method that uses
      several is a program ([Transactions.prog]) others interfere with.  What
      happens outside (a failing broker, a refused commit, a dying worker) is an
      input.
    - Times are integers in microseconds; the clock, [uuid4] draws and
      environment variables are arguments.  SHA-256, [uuid5], the ISO timestamp
      functions, [json] string escaping without [ensure_ascii] and file sizes
      are parameters: they are library code, and the theorems hold for any.
    - Strings hold code points below 256.  A JSON field the code converts with
      [str] must be a string; another type is an error of the model's own
      ([ForeignField]).
    - In the port-forward files a handler of an event loop is one step; the
      readers of the agent can be interrupted where they wait.  Messages on a
      websocket arrive in order or the socket breaks.  The outcomes of socket
      calls, the authorizer's verdict and the clock are inputs.
    - An HTTP request of the agent is served in any number of transactions with
      others in between, may be lost or fail in any stage, and may be answered
      after its client timed out.  Pydantic's reading of a body is a parameter,
      and so are the Kubernetes API and what an executed command returns.
    - Redis may lose, delay and reorder what is published.  The floats that
      rules compare are rationals.  Messages in Korean are parameters.  There is
      one replica of the alert worker, as in its chart.
    - A recovery handler is one READ COMMITTED transaction: its reads are steps
      of its program, its writes and events one step at the commit.  The
      lifecycle a plan keeps as JSON is a record with an option per key the code
      may leave out; measured values are rationals.  Approvals, digests and the
      preflight of actions are inputs.
    - A policy parses back from its JSON.  The presets of the telemetry queries, the
      compiler of queries and the URL of the realtime gateway are parameters
      (classes), the presets because they are a table: [upgrade_settles] assumes
      that the queries of a preset have names, all different.  The tasks of an
      agent are slots that hold one program at a time; a restart ends both and may
      lose the store, as the volume of its pod is emptied with the pod.  A
      registration changes outside the modelled routes, but a management cluster
      stays one.  [AgentPolicy.generation] fits the column.
    - Loops are structural, but for the round robin of [CollectionLimits],
      which has fuel [S max_items] (a pass selects an item or ends the loop),
      and its halving loop, whose fuel is one more than the number of list items
      (each round removes one at least).  The theorems show both are enough.
      [PolicyUpgrade.scan] has as fuel the pages one run may read, since others may
      register clusters while it reads; the theorems hold for any.  Retry
      and relay loops are one iteration of the code per step.

    ** Not modelled

    The rest of the repository is listed with its reasons in the manifest.  Read
    models and their routers, the inventory and its filters, the timeline and the
    dashboards have no state of their own beyond queries that are SQL; the GitOps and
    Helm services, the agent's collectors and its command executors are sequences of
    calls to external programs whose answers decide everything; the presets of the
    telemetry queries, the tool descriptions and the response schemas are data; the
    analysis of incidents and the recovery agent depend on language models and on
    large rule tables; accounts and sessions rest on cryptography.  Left out although
    they have state of their own, because the components above seemed to carry more of
    the program: the terminal sessions, the release flow's policy, the quality checks
    of the data catalog, evidence jobs, retention, keyset cursors, the in-memory bus. *)

From Stdlib Require Export ZArith Lia.
From stdpp Require Export base list option strings gmap.

Declare Scope kyro_scope.
Delimit Scope kyro_scope with kyro.
Open Scope kyro_scope.
#[global] Open Scope Z_scope.

(** ** Automation *)

(** [break] splits the innermost [match] or [if] of the goal or of a
    hypothesis and simplifies the equations this leaves. *)
Ltac break_inner e :=
  lazymatch e with
  | context [match ?x with _ => _ end] => break_inner x
  | _ => destruct e eqn:?
  end.

Ltac break :=
  match goal with
  | |- context [match ?x with _ => _ end] => break_inner x
  | H : context [match ?x with _ => _ end] |- _ => break_inner x
  end; simplify_eq/=.

(** [bool_to_prop] turns the boolean tests of the code into the
    propositions they decide. *)
Ltac bool_to_prop :=
  repeat match goal with
  | H : _ && _ = true |- _ => apply andb_true_iff in H as [? ?]
  | H : _ || _ = false |- _ => apply orb_false_iff in H as [? ?]
  | H : negb _ = true |- _ => apply negb_true_iff in H
  | H : negb _ = false |- _ => apply negb_false_iff in H
  | H : (_ <=? _) = true |- _ => apply Z.leb_le in H
  | H : (_ <=? _) = false |- _ => apply Z.leb_gt in H
  | H : (_ <? _) = true |- _ => apply Z.ltb_lt in H
  | H : (_ <? _) = false |- _ => apply Z.ltb_ge in H
  | H : (_ =? _) = true |- _ => apply Z.eqb_eq in H
  | H : (_ =? _) = false |- _ => apply Z.eqb_neq in H
  | H : (_ <=? _)%nat = true |- _ => apply Nat.leb_le in H
  | H : (_ <=? _)%nat = false |- _ => apply Nat.leb_gt in H
  | H : (_ <? _)%nat = true |- _ => apply Nat.ltb_lt in H
  | H : (_ <? _)%nat = false |- _ => apply Nat.ltb_ge in H
  | H : (_ =? _)%nat = true |- _ => apply Nat.eqb_eq in H
  | H : (_ =? _)%nat = false |- _ => apply Nat.eqb_neq in H
  | H : bool_decide _ = true |- _ => apply bool_decide_eq_true in H
  | H : bool_decide _ = false |- _ => apply bool_decide_eq_false in H
  | H : String.eqb _ _ = true |- _ => apply String.eqb_eq in H
  | H : String.eqb _ _ = false |- _ => apply String.eqb_neq in H
  end.

Create HintDb kyro discriminated.
Create Rewrite HintDb kyro_simpl.

(** ** Results: a Python call that may raise

    [Ok x] is a normal return, [Err e] an exception of kind [e]. *)
Inductive result (E A : Type) : Type :=
| Ok (x : A)
| Err (e : E).
Arguments Ok {E A} x.
Arguments Err {E A} e.

#[global] Instance result_ret {E} : MRet (result E) := fun A x => Ok x.
#[global] Instance result_bind {E} : MBind (result E) := fun A B f r =>
  match r with Ok x => f x | Err e => Err e end.
#[global] Instance result_fmap {E} : FMap (result E) := fun A B f r =>
  match r with Ok x => Ok (f x) | Err e => Err e end.

Lemma result_bind_ok {E A B} (f : A -> result E B) (x : A) : (Ok x ≫= f) = f x.
Proof. reflexivity. Qed.

Lemma result_bind_assoc {E A B C} (m : result E A) (f : A -> result E B) (g : B -> result E C) :
  (m ≫= f) ≫= g = m ≫= (fun x => f x ≫= g).
Proof. destruct m; reflexivity. Qed.

Lemma result_bind_inv {E A B} (m : result E A) (f : A -> result E B) (y : B) :
  m ≫= f = Ok y -> exists x, m = Ok x /\ f x = Ok y.
Proof. destruct m; [eauto | discriminate]. Qed.

Definition is_ok {E A} (r : result E A) : bool :=
  match r with Ok _ => true | Err _ => false end.

(** ** Ordered dictionaries

    A Python [dict] keeps insertion order: assignment to a present key
    replaces the value in place, to an absent key appends.  [odict V] is the
    list of its items; the code never builds one with a repeated key, which
    [dict_wf] states and every operation preserves. *)
Abbreviation odict V := (list (string * V)) (only parsing).

Section Odict.
Context {V : Type}.
Implicit Types (d : odict V) (k : string) (v : V).

Fixpoint dict_get k d : option V :=
  match d with
  | [] => None
  | (k', v) :: d' => if decide (k = k') then Some v else dict_get k d'
  end.

Fixpoint dict_set k v d : odict V :=
  match d with
  | [] => [(k, v)]
  | (k', v') :: d' => if decide (k = k') then (k', v) :: d' else (k', v') :: dict_set k v d'
  end.

Definition dict_pop k d : odict V := base.filter (fun e => e.1 <> k) d.

Definition dict_keys d : list string := d.*1.

(** [d.update(e)]. *)
Definition dict_update d (e : odict V) : odict V :=
  fold_left (fun acc kv => dict_set kv.1 kv.2 acc) e d.

Definition dict_wf d : Prop := NoDup (dict_keys d).

Lemma dict_get_set_eq k v d : dict_get k (dict_set k v d) = Some v.
Proof. induction d as [|[k' v'] d IH]; simpl; repeat case_decide; simpl; repeat case_decide; done. Qed.

Lemma dict_get_set_ne k k' v d : k <> k' -> dict_get k (dict_set k' v d) = dict_get k d.
Proof.
  intros Hne. induction d as [|[k2 v2] d IH]; simpl; repeat case_decide; simpl;
    repeat case_decide; simplify_eq; done.
Qed.

Lemma dict_get_set k k' v d :
  dict_get k (dict_set k' v d) = if decide (k = k') then Some v else dict_get k d.
Proof. case_decide; [subst; apply dict_get_set_eq | by apply dict_get_set_ne]. Qed.

Lemma dict_get_None k d : dict_get k d = None <-> k ∉ dict_keys d.
Proof.
  unfold dict_keys. induction d as [|[k' v'] d IH]; simpl; [split; [intros _ []%elem_of_nil|done]|].
  rewrite not_elem_of_cons. case_decide; naive_solver.
Qed.

Lemma dict_get_Some_elem k v d : dict_get k d = Some v -> (k, v) ∈ d.
Proof. induction d as [|[k' v'] d IH]; simpl; [done|]. case_decide; set_solver. Qed.

Lemma dict_elem_get k v d : dict_wf d -> (k, v) ∈ d -> dict_get k d = Some v.
Proof.
  unfold dict_wf, dict_keys. induction d as [|[k' v'] d IH]; simpl; [set_solver|].
  rewrite NoDup_cons. intros [Hni Hnd] [Heq|Hin]%elem_of_cons.
  - simplify_eq. by rewrite decide_True.
  - case_decide; [|by auto]. subst. destruct Hni. apply list_elem_of_fmap. by exists (k', v).
Qed.

Lemma dict_keys_set_in k v d : k ∈ dict_keys d -> dict_keys (dict_set k v d) = dict_keys d.
Proof.
  unfold dict_keys. induction d as [|[k' v'] d IH]; simpl; [set_solver|].
  intros Hin. case_decide; simpl; [done|]. f_equal. apply IH. set_solver.
Qed.

Lemma dict_keys_set_notin k v d :
  k ∉ dict_keys d -> dict_keys (dict_set k v d) = dict_keys d ++ [k].
Proof.
  unfold dict_keys. induction d as [|[k' v'] d IH]; simpl; [done|].
  intros Hin. case_decide; simpl; [set_solver|]. f_equal. apply IH. set_solver.
Qed.

Lemma dict_set_wf k v d : dict_wf d -> dict_wf (dict_set k v d).
Proof.
  unfold dict_wf. intros Hd. destruct (decide (k ∈ dict_keys d)).
  - by rewrite dict_keys_set_in.
  - rewrite dict_keys_set_notin by done. apply NoDup_app.
    split_and!; [done | set_solver | apply NoDup_singleton].
Qed.

Lemma dict_update_wf d e : dict_wf d -> dict_wf (dict_update d e).
Proof.
  unfold dict_update. revert d. induction e as [|[k v] e IH]; simpl; [done|].
  intros d Hd. by apply IH, dict_set_wf.
Qed.

Lemma dict_set_same k v d : dict_get k d = Some v -> dict_set k v d = d.
Proof.
  induction d as [|[k' w] d IH]; simpl; [done|]. case_decide; [by intros [= ->]; subst|].
  intros Hk. by rewrite IH.
Qed.

Lemma dict_set_set k v w d : dict_set k v (dict_set k w d) = dict_set k v d.
Proof.
  induction d as [|[k' u] d IH]; simpl; [by rewrite decide_True|].
  case_decide; simpl; [by rewrite decide_True|]. rewrite decide_False by done. by rewrite IH.
Qed.

Lemma dict_set_new k v d : k ∉ dict_keys d -> dict_set k v d = d ++ [(k, v)].
Proof.
  unfold dict_keys. induction d as [|[k' w] d IH]; simpl; [done|]. intros Hk.
  rewrite decide_False by set_solver. by rewrite IH by set_solver.
Qed.

Lemma dict_get_pop_ne k k' d : k <> k' -> dict_get k (dict_pop k' d) = dict_get k d.
Proof.
  intros Hk. unfold dict_pop. induction d as [|[k2 w] d IH]; [done|]. rewrite filter_cons.
  case_decide; simpl in *; [by rewrite IH|]. subst. by rewrite decide_False.
Qed.

Lemma dict_get_update_other k d (e : odict V) : dict_get k e = None -> dict_get k (dict_update d e) = dict_get k d.
Proof.
  unfold dict_update. revert d. induction e as [|[k' v] e IH]; simpl; [done|]. intros d. case_decide; [done|].
  intros He. rewrite IH by done. by apply dict_get_set_ne.
Qed.

Lemma dict_get_update k d e :
  dict_wf e -> dict_get k (dict_update d e) =
    match dict_get k e with Some v => Some v | None => dict_get k d end.
Proof.
  unfold dict_update. revert d. induction e as [|[k' v] e IH]; simpl; [done|].
  unfold dict_wf, dict_keys; csimpl. intros d [Hni Hnd]%NoDup_cons.
  rewrite IH by done. rewrite dict_get_set. case_decide; [|done]. subst.
  apply dict_get_None in Hni. by rewrite Hni.
Qed.
End Odict.

#[export] Hint Resolve dict_set_wf dict_update_wf : kyro.

Lemma filter_none {A} (P : A -> Prop) `{!forall x, Decision (P x)} (l : list A) :
  Forall (fun x => ~ P x) l -> filter P l = [].
Proof. induction 1; [done|]. by rewrite filter_cons_False. Qed.

(** ** Sums over the values of a map *)

Section MapSum.
Context `{Countable K} {A : Type} (f : A -> Z).
Implicit Types (m : gmap K A) (i : K) (x y : A).

Definition map_sum m : Z := map_fold (fun _ x n => f x + n) 0 m.

Lemma map_sum_empty : map_sum ∅ = 0.
Proof. apply map_fold_empty. Qed.

Lemma map_sum_insert m i x : m !! i = None -> map_sum (<[i := x]> m) = f x + map_sum m.
Proof.
  intros Hi. unfold map_sum. rewrite (map_fold_insert_L (fun _ x n => f x + n)); [done | intros; lia | done].
Qed.

Lemma map_sum_delete m i x : m !! i = Some x -> map_sum (delete i m) = map_sum m - f x.
Proof.
  intros Hi. rewrite <- (insert_delete_id m i x Hi) at 2.
  rewrite map_sum_insert by apply lookup_delete_eq. lia.
Qed.

Lemma map_sum_update m i x y : m !! i = Some x -> map_sum (<[i := y]> m) = map_sum m - f x + f y.
Proof.
  intros Hi. rewrite <- insert_delete_eq, map_sum_insert by apply lookup_delete_eq.
  rewrite (map_sum_delete m i x Hi). lia.
Qed.

Lemma map_sum_nonneg m : map_Forall (fun _ x => 0 <= f x) m -> 0 <= map_sum m.
Proof.
  induction m as [|i x m Hi IH] using map_ind; [by rewrite map_sum_empty|].
  rewrite map_sum_insert by done. intros [Hx Hm]%map_Forall_insert; [|done]. specialize (IH Hm). lia.
Qed.

Lemma map_sum_lookup_le m i x :
  map_Forall (fun _ x => 0 <= f x) m -> m !! i = Some x -> f x <= map_sum m.
Proof.
  intros Hm Hi. assert (0 <= map_sum (delete i m)) by (apply map_sum_nonneg; by apply map_Forall_delete).
  rewrite (map_sum_delete m i x Hi) in *. lia.
Qed.
End MapSum.

(** Transitive closure of a step function's relation: a run of a machine. *)
Inductive steps {S L : Type} (step : S -> L -> S -> Prop) : S -> list L -> S -> Prop :=
| steps_nil s : steps step s [] s
| steps_cons s1 l s2 ls s3 : step s1 l s2 -> steps step s2 ls s3 -> steps step s1 (l :: ls) s3.

(** An invariant of every step is an invariant of every run. *)
Lemma steps_invariant {S L} (step : S -> L -> S -> Prop) (I : S -> Prop) :
  (forall s l s', step s l s' -> I s -> I s') ->
  forall s ls s', steps step s ls s' -> I s -> I s'.
Proof. induction 2; eauto. Qed.

Lemma steps_app {S L} (step : S -> L -> S -> Prop) s1 ls1 s2 ls2 s3 :
  steps step s1 ls1 s2 -> steps step s2 ls2 s3 -> steps step s1 (ls1 ++ ls2) s3.
Proof. induction 1; simpl; eauto using steps. Qed.

#[export] Hint Constructors steps : kyro.
