(* ===== verification/PyString.v ===== *)
(** The string methods of Python the code uses.

    A string is a sequence of code points below 256, one Rocq character each;
    the methods agree with Python's on them, with one exception: the micro
    sign's [casefold] is a code point outside the range and is kept. *)

From S2P Require Import Prelude.
From Stdlib Require Import Ascii Sorting.Sorted.

(** [str.isspace] of one character. *)
Definition strip_space (c : Ascii.ascii) : bool :=
  let n := Ascii.N_of_ascii c in
  ((9 <=? n) && (n <=? 13) || (28 <=? n) && (n <=? 32) || (n =? 133) || (n =? 160))%N.

Fixpoint lstrip (s : string) : string :=
  match s with
  | String c s' => if strip_space c then lstrip s' else s
  | EmptyString => EmptyString
  end.

Fixpoint rstrip (s : string) : string :=
  match s with
  | EmptyString => EmptyString
  | String c s' =>
      match rstrip s' with
      | EmptyString => if strip_space c then EmptyString else String c EmptyString
      | s'' => String c s''
      end
  end.

(** [str.strip()]. *)
Definition strip (s : string) : string := rstrip (lstrip s).

(** [s.split(sep)] for a one-character separator: never empty. *)
Fixpoint split_on (sep : Ascii.ascii) (s : string) : list string :=
  match s with
  | EmptyString => [EmptyString]
  | String c s' =>
      if Ascii.eqb c sep then EmptyString :: split_on sep s'
      else match split_on sep s' with
           | part :: rest => String c part :: rest
           | [] => [String c EmptyString]
           end
  end.

Lemma rstrip_idem s : rstrip (rstrip s) = rstrip s.
Proof.
  induction s as [|c s IH]; [done|]. simpl. destruct (rstrip s) as [|c' s'] eqn:E.
  - destruct (strip_space c) eqn:Ec; [done|]. simpl. by rewrite Ec.
  - change (rstrip (String c (String c' s'))) with
      (match rstrip (String c' s') with EmptyString => if strip_space c then EmptyString else String c EmptyString | s'' => String c s'' end).
    by rewrite IH.
Qed.

Lemma strip_idem s : strip (strip s) = strip s.
Proof.
  unfold strip. assert (Hl : lstrip (rstrip (lstrip s)) = rstrip (lstrip s)); [|by rewrite Hl, rstrip_idem].
  induction s as [|c s IH]; [done|]. simpl. destruct (strip_space c) eqn:Ec; [exact IH|].
  simpl. destruct (rstrip s) as [|c' s']; simpl; by rewrite ?Ec; simpl; rewrite ?Ec.
Qed.

(** [{item.strip() for item in s.split(",") if item.strip()}], in order, with
    repetitions. *)
Definition csv_items (s : string) : list string :=
  filter (fun item => item <> "") (map strip (split_on "," s)).

(** [dict.fromkeys(items)]: the first occurrence of each. *)
Fixpoint dedup (l : list string) : list string :=
  match l with
  | [] => []
  | x :: l' => x :: filter (fun y => y <> x) (dedup l')
  end.

Definition fold_char (c : Ascii.ascii) : string :=
  let n := Ascii.N_of_ascii c in
  if ((65 <=? n) && (n <=? 90) || (192 <=? n) && (n <=? 222) && negb (n =? 215))%N
  then String (Ascii.ascii_of_N (n + 32)) EmptyString
  else if (n =? 223)%N then "ss"
  else String c EmptyString.

(** [str.casefold()]. *)
Fixpoint casefold (s : string) : string :=
  match s with
  | EmptyString => EmptyString
  | String c s' => fold_char c +:+ casefold s'
  end.

(** [str.lower()]. *)
Definition lower_char (c : Ascii.ascii) : Ascii.ascii :=
  let n := Ascii.N_of_ascii c in
  if ((65 <=? n) && (n <=? 90) || (192 <=? n) && (n <=? 222) && negb (n =? 215))%N
  then Ascii.ascii_of_N (n + 32) else c.

Fixpoint lower (s : string) : string :=
  match s with
  | EmptyString => EmptyString
  | String c s' => String (lower_char c) (lower s')
  end.

(** [str.upper()], but for the two characters below 256 whose capital lies
    above. *)
Definition upper_char (c : Ascii.ascii) : string :=
  let n := Ascii.N_of_ascii c in
  if ((97 <=? n) && (n <=? 122) || (224 <=? n) && (n <=? 254) && negb (n =? 247))%N
  then String (Ascii.ascii_of_N (n - 32)) EmptyString
  else if (n =? 223)%N then "SS"
  else String c EmptyString.

Fixpoint upper (s : string) : string :=
  match s with
  | EmptyString => EmptyString
  | String c s' => upper_char c +:+ upper s'
  end.

(** [s.replace(old, new)] for a non-empty [old]: scanning left to right,
    [skip] characters of the last match are still to be passed over. *)
Fixpoint replace_from (old new : string) (skip : nat) (s : string) : string :=
  match s with
  | EmptyString => EmptyString
  | String c s' =>
      match skip with
      | S skip => replace_from old new skip s'
      | O => if String.prefix old s then new +:+ replace_from old new (String.length old - 1) s'
             else String c (replace_from old new 0 s')
      end
  end.

Definition str_replace (old new s : string) : string := replace_from old new 0 s.

Lemma dedup_elem x l : x ∈ dedup l <-> x ∈ l.
Proof.
  induction l as [|y l IH]; simpl; [done|].
  rewrite !elem_of_cons, list_elem_of_filter, IH. destruct (decide (x = y)); naive_solver.
Qed.

Lemma dedup_NoDup l : NoDup (dedup l).
Proof.
  induction l as [|y l IH]; simpl; constructor.
  - rewrite list_elem_of_filter. naive_solver.
  - by apply NoDup_filter.
Qed.

Lemma ascii_compare_trans a b c :
  Ascii.compare a b <> Gt -> Ascii.compare b c <> Gt -> Ascii.compare a c <> Gt.
Proof. unfold Ascii.compare. rewrite !N.compare_le_iff. lia. Qed.

Lemma leb_cons a s b t :
  String.leb (String a s) (String b t) =
    match Ascii.compare a b with Eq => String.leb s t | Lt => true | Gt => false end.
Proof. unfold String.leb. simpl. by destruct (Ascii.compare a b). Qed.

Lemma leb_trans x y z : String.leb x y = true -> String.leb y z = true -> String.leb x z = true.
Proof.
  revert y z. induction x as [|a x IH]; intros [|b y] [|c z]; try done.
  rewrite !leb_cons. unfold Ascii.compare.
  destruct (N.compare_spec (Ascii.N_of_ascii a) (Ascii.N_of_ascii b)),
    (N.compare_spec (Ascii.N_of_ascii b) (Ascii.N_of_ascii c)),
    (N.compare_spec (Ascii.N_of_ascii a) (Ascii.N_of_ascii c)); try done; try lia; eauto.
Qed.

Lemma leb_false x y : String.leb x y = false -> String.leb y x = true.
Proof. intros H. destruct (String.leb_total x y); congruence. Qed.

(** ** Sorting by key

    [sorted] of items with distinct string keys: a stable insertion by the
    order of the code points. *)
Section Sorting.
Context {V : Type}.

Fixpoint insert_item (kv : string * V) (l : list (string * V)) : list (string * V) :=
  match l with
  | [] => [kv]
  | kv' :: l' => if String.leb kv.1 kv'.1 then kv :: l else kv' :: insert_item kv l'
  end.

Definition sort_items (l : list (string * V)) : list (string * V) := foldr insert_item [] l.

Lemma insert_item_comm (kv1 kv2 : string * V) l :
  kv1.1 <> kv2.1 -> insert_item kv1 (insert_item kv2 l) = insert_item kv2 (insert_item kv1 l).
Proof.
  intros Hne. assert (Hanti : String.leb kv1.1 kv2.1 = true -> String.leb kv2.1 kv1.1 = false).
  { intros H. apply not_true_is_false. intros H'. by destruct Hne; apply String.leb_antisym. }
  induction l as [|kv l IH]; simpl.
  - destruct (String.leb kv1.1 kv2.1) eqn:E; [by rewrite Hanti|]. by rewrite leb_false.
  - destruct (String.leb kv1.1 kv.1) eqn:E1, (String.leb kv2.1 kv.1) eqn:E2; simpl; rewrite ?E1, ?E2.
    + destruct (String.leb kv1.1 kv2.1) eqn:E; [by rewrite Hanti|]. by rewrite leb_false.
    + destruct (String.leb kv2.1 kv1.1) eqn:E; [|by rewrite ?E1, ?E2].
      pose proof (leb_trans _ _ _ E E1). congruence.
    + destruct (String.leb kv1.1 kv2.1) eqn:E; [|by rewrite ?E1, ?E2].
      pose proof (leb_trans _ _ _ E E2). congruence.
    + by rewrite IH.
Qed.

Lemma sort_items_permutation (l l' : list (string * V)) : NoDup l.*1 -> l ≡ₚ l' -> sort_items l = sort_items l'.
Proof.
  intros Hnd Hp. revert Hnd. induction Hp as [|kv l l' _ IH|kv1 kv2 l|l l' l'' Hp1 IH1 _ IH2];
    unfold sort_items in *; csimpl; [done| | |].
  - intros [_ Hnd]%NoDup_cons. by rewrite IH.
  - rewrite !NoDup_cons. intros [Hni _]. apply insert_item_comm. set_solver.
  - intros Hnd. rewrite IH1 by done. apply IH2. by rewrite <- Hp1.
Qed.

Lemma insert_item_perm (kv : string * V) l : insert_item kv l ≡ₚ kv :: l.
Proof.
  induction l as [|kv' l IH]; simpl; [done|]. destruct (String.leb kv.1 kv'.1); [done|].
  rewrite IH. apply perm_swap.
Qed.

Lemma sort_items_perm (l : list (string * V)) : sort_items l ≡ₚ l.
Proof. induction l as [|kv l IH]; simpl; [done|]. by rewrite insert_item_perm, IH. Qed.

Definition key_le (kv kv' : string * V) : Prop := String.leb kv.1 kv'.1 = true.

Lemma insert_item_sorted (kv : string * V) l :
  StronglySorted key_le l -> StronglySorted key_le (insert_item kv l).
Proof.
  induction 1 as [|kv' l Hl IH Hall]; simpl; [repeat constructor|].
  destruct (String.leb kv.1 kv'.1) eqn:E.
  - constructor; [by constructor|]. constructor; [done|].
    eapply Forall_impl; [exact Hall|]. intros kv2 H2. by eapply leb_trans.
  - constructor; [done|]. rewrite insert_item_perm. constructor; [by apply leb_false|done].
Qed.

Lemma sort_items_sorted (l : list (string * V)) : StronglySorted key_le (sort_items l).
Proof. induction l as [|kv l IH]; simpl; [constructor|]. by apply insert_item_sorted. Qed.
End Sorting.

Example csv_items_ex : csv_items " a, b,,a " = ["a"; "b"; "a"].
Proof. reflexivity. Qed.

Example casefold_ex : casefold "SandBox" = "sandbox".
Proof. reflexivity. Qed.

Example lower_ex : lower "WarNing" = "warning".
Proof. reflexivity. Qed.

Example upper_ex : upper "tCp" = "TCP".
Proof. reflexivity. Qed.

Example str_replace_ex : str_replace "+00:00" "Z" "2024-01-01T00:00:00+00:00" = "2024-01-01T00:00:00Z".
Proof. reflexivity. Qed.
