(* ===== verification/Json.v ===== *)
(** JSON values as the Python code holds them, and [json.dumps].

    A payload is a tree of [None], booleans, integers, floats, strings, lists
    and dicts.  Strings are sequences of code points below 256 (one Rocq
    character each).  A float is kept as the literal [repr] prints, since the
    code only ever serializes it.  A value that is no JSON value (a datetime)
    is serialized by [default=str], so it is the [JStr] of its [str]. *)

From S2P Require Import Prelude PyString.

From Stdlib Require Import Ascii.
From stdpp Require Import pretty.

#[warnings="-register-all"]
Inductive json : Type :=
| JNull
| JBool (b : bool)
| JInt (z : Z)
| JFloat (literal : string)
| JStr (s : string)
| JArr (items : list json)
| JObj (fields : odict json).

(** [json.dumps] with [ensure_ascii=True]: the two-character escapes, and
    [\u00XX] for everything outside the printable ASCII range. *)
Definition hex_digit (n : N) : string :=
  String.substring (N.to_nat n) 1 "0123456789abcdef".

Definition quote_char : string := String "034"%char EmptyString.
Definition backslash : string := String "092"%char EmptyString.

Definition escape_char (c : Ascii.ascii) : string :=
  let n := Ascii.N_of_ascii c in
  if (n =? 34)%N then backslash +:+ quote_char
  else if (n =? 92)%N then backslash +:+ backslash
  else if (n =? 10)%N then backslash +:+ "n"
  else if (n =? 13)%N then backslash +:+ "r"
  else if (n =? 9)%N then backslash +:+ "t"
  else if (n =? 8)%N then backslash +:+ "b"
  else if (n =? 12)%N then backslash +:+ "f"
  else if ((n <? 32) || (126 <? n))%N
       then backslash +:+ "u00" +:+ hex_digit (n / 16) +:+ hex_digit (n mod 16)
       else String c EmptyString.

Fixpoint escape (s : string) : string :=
  match s with
  | EmptyString => EmptyString
  | String c s' => escape_char c +:+ escape s'
  end.

Definition json_string (s : string) : string := quote_char +:+ escape s +:+ quote_char.

Section Dumps.
(** The two separators: [", "] and [": "] by default. *)
Context (item_separator key_separator : string).

Fixpoint dumps (v : json) : string :=
  match v with
  | JNull => "null"
  | JBool true => "true"
  | JBool false => "false"
  | JInt z => pretty z
  | JFloat literal => literal
  | JStr s => json_string s
  | JArr items => "[" +:+ String.concat item_separator (map dumps items) +:+ "]"
  | JObj fields =>
      "{" +:+ String.concat item_separator
                (map (fun kv => json_string kv.1 +:+ key_separator +:+ dumps kv.2) fields) +:+ "}"
  end.
End Dumps.

(** [json.dumps(..., ensure_ascii=False, sort_keys=True, separators=(",", ":"))]:
    keys are sorted by code point at every level.  [quote] is the string
    escaping of [ensure_ascii=False]. *)
Fixpoint canonical_dumps (quote : string -> string) (v : json) : string :=
  match v with
  | JStr s => quote s
  | JArr items => "[" +:+ String.concat "," (map (canonical_dumps quote) items) +:+ "]"
  | JObj fields =>
      "{" +:+ String.concat ","
        (map (fun kt => quote kt.1 +:+ ":" +:+ kt.2)
           (sort_items (map (fun kv => (kv.1, canonical_dumps quote kv.2)) fields))) +:+ "}"
  | v => dumps ", " ": " v
  end.

Definition json_dumps : json -> string := dumps ", " ": ".

Definition as_list (v : option json) : option (list json) :=
  match v with Some (JArr items) => Some items | _ => None end.

Definition as_obj (v : option json) : option (odict json) :=
  match v with Some (JObj fields) => Some fields | _ => None end.

Lemma canonical_dumps_permutation quote fields fields' :
  dict_wf fields -> fields ≡ₚ fields' ->
  canonical_dumps quote (JObj fields) = canonical_dumps quote (JObj fields').
Proof.
  intros Hwf Hp. cbn [canonical_dumps]. do 4 f_equal. apply sort_items_permutation.
  - rewrite <- list_fmap_compose. exact Hwf.
  - by apply Permutation_map.
Qed.

Example json_dumps_ex :
  json_dumps (JObj [("a", JArr [JInt (-12); JNull]); ("k", JStr "x")])
  = "{" +:+ json_string "a" +:+ ": [-12, null], " +:+ json_string "k" +:+ ": "
    +:+ json_string "x" +:+ "}".
Proof. vm_compute. reflexivity. Qed.
