(* ===== verification/CollectionLimits.v ===== *)
(** Evidence collection limits: the shared count and byte budgets that every
    evidence provider applies before it ships a payload
    ([services/target/cluster-agent/providers/collection_limits.py]).

    A payload and its [limits] record are ordered dictionaries; the functions
    that mutate them in Python take and return both here.  [max_items] is a
    [nat]: every caller passes a non-negative constant. *)

From S2P Require Import Prelude Json.

Definition COLLECTION_LIMITS_KEY : string := "collection_limits".
Definition MAX_EVIDENCE_PAYLOAD_BYTES : Z := 1048576.
Definition PROVIDER_PAYLOAD_BYTE_MARGIN : Z := 65536.
Definition MAX_PROVIDER_PAYLOAD_BYTES : Z :=
  MAX_EVIDENCE_PAYLOAD_BYTES - PROVIDER_PAYLOAD_BYTE_MARGIN.
Definition MIN_LIMITED_LIST_ITEMS : nat := 0.

(** ** Selecting items *)

Section RoundRobin.
Context {A : Type} (group_key : A -> string).

(** [buckets.setdefault(group_key(item), []).append(item)]. *)
Definition bucket_add (buckets : odict (list A)) (item : A) : odict (list A) :=
  let k := group_key item in
  dict_set k (default [] (dict_get k buckets) ++ [item]) buckets.

Definition make_buckets (items : list A) : odict (list A) :=
  fold_left bucket_add items [].

(** One [for key in list(buckets)] pass.  A bucket gives its first item; an
    emptied bucket is popped; reaching [max_items] breaks before the pop.
    Returns the buckets, the selection, and whether the loop broke. *)
Fixpoint rr_pass (max_items : nat) (buckets : odict (list A)) (selected : list A)
  : odict (list A) * list A * bool :=
  match buckets with
  | [] => ([], selected, false)
  | (key, []) :: rest => rr_pass max_items rest selected
  | (key, x :: bucket) :: rest =>
      let selected := selected ++ [x] in
      if (max_items <=? length selected)%nat then ((key, bucket) :: rest, selected, true)
      else
        let '(rest', selected', stop) := rr_pass max_items rest selected in
        (match bucket with [] => rest' | _ => (key, bucket) :: rest' end, selected', stop)
  end.

(** [while buckets and len(selected) < max_items]. *)
Fixpoint rr_loop (fuel max_items : nat) (buckets : odict (list A)) (selected : list A) : list A :=
  match fuel with
  | O => selected
  | S fuel =>
      match buckets with
      | [] => selected
      | _ =>
          if (length selected <? max_items)%nat then
            let '(buckets', selected', _) := rr_pass max_items buckets selected in
            rr_loop fuel max_items buckets' selected'
          else selected
      end
  end.

Definition round_robin_groups (items : list A) (max_items : nat) : list A :=
  rr_loop (S max_items) max_items (make_buckets items) [].
End RoundRobin.

Definition limit_list {A} (items : list A) (max_items : nat)
    (group_key : option (A -> string)) : list A :=
  if (length items <=? max_items)%nat then items
  else match group_key with
       | None => take max_items items
       | Some g => round_robin_groups g items max_items
       end.

(** ** Recording what was cut *)

Definition collection_limit (original_count : json) (returned_count : nat) : json :=
  JObj [("truncated", JBool true); ("original_count", original_count);
        ("returned_count", JInt (Z.of_nat returned_count))].

(** [isinstance(v, int)]: a Python [bool] is an [int]. *)
Definition is_int (v : json) : bool :=
  match v with JInt _ | JBool _ => true | _ => false end.

Definition original_count_for (limits : odict json) (key : string) (fallback : json) : json :=
  match as_obj (dict_get key limits) with
  | Some existing =>
      match dict_get "original_count" existing with
      | Some count => if is_int count then count else fallback
      | None => fallback
      end
  | None => fallback
  end.

Definition record_collection_limit (limits : odict json) (key : string)
    (original_count : json) (returned_count : nat) : odict json :=
  dict_set key (collection_limit (original_count_for limits key original_count) returned_count)
    limits.

Definition payload_size_bytes (v : json) : Z := Z.of_nat (String.length (json_dumps v)).

Definition limit_payload_list (payload : odict json) (key : string) (max_items : nat)
    (limits : odict json) (group_key : option (json -> string)) : odict json * odict json :=
  match as_list (dict_get key payload) with
  | None => (payload, limits)
  | Some value =>
      if (length value <=? max_items)%nat then (payload, limits)
      else
        let limited := limit_list value max_items group_key in
        (dict_set key (JArr limited) payload,
         record_collection_limit limits key (JInt (Z.of_nat (length value))) (length limited))
  end.

(** ** The byte budget *)

Definition shrink_candidates (payload : odict json) (keys : list string)
    : list (Z * (string * list json)) :=
  omap (fun key =>
    match as_list (dict_get key payload) with
    | Some value =>
        if (MIN_LIMITED_LIST_ITEMS <? length value)%nat
        then Some (payload_size_bytes (JArr value), (key, value)) else None
    | None => None
    end) keys.

(** [max(candidates, key=...)]: the first candidate of the largest size. *)
Definition first_max {B} (best : Z * B) (rest : list (Z * B)) : Z * B :=
  fold_left (fun best c => if best.1 <? c.1 then c else best) rest best.

Definition largest_shrinkable_list (payload : odict json) (keys : list string)
    : option (string * list json) :=
  match shrink_candidates payload keys with
  | [] => None
  | c :: rest => Some (first_max c rest).2
  end.

Definition shrink_step (group_keys : odict (json -> string)) (payload limits : odict json)
    (key : string) (value : list json) : odict json * odict json :=
  let target_count := Nat.max MIN_LIMITED_LIST_ITEMS (length value / 2) in
  let limited := limit_list value target_count (dict_get key group_keys) in
  (dict_set key (JArr limited) payload,
   record_collection_limit limits key
     (original_count_for limits key (JInt (Z.of_nat (length value)))) (length limited)).

(** The [while payload_size_bytes(payload) > max_bytes] loop. *)
Fixpoint limit_payload_size_loop (fuel : nat) (payload : odict json) (keys : list string)
    (limits : odict json) (max_bytes : Z) (group_keys : odict (json -> string))
    : odict json * odict json :=
  match fuel with
  | O => (payload, limits)
  | S fuel =>
      if payload_size_bytes (JObj payload) <=? max_bytes then (payload, limits)
      else match largest_shrinkable_list payload keys with
           | None => (payload, limits)
           | Some (key, value) =>
               let '(payload, limits) := shrink_step group_keys payload limits key value in
               limit_payload_size_loop fuel payload keys limits max_bytes group_keys
           end
  end.

(** Every pass halves one list, so the number of items bounds the passes. *)
Definition list_weight (v : json) : nat :=
  match v with JArr items => length items | _ => 0 end.
Definition total_items (payload : odict json) : nat :=
  list_sum (map (fun kv => list_weight kv.2) payload).

Definition limit_payload_size (payload : odict json) (list_keys : list string)
    (limits : odict json) (max_bytes : Z) (group_keys : odict (json -> string))
    : odict json * odict json :=
  limit_payload_size_loop (S (total_items payload)) payload list_keys limits max_bytes group_keys.

Definition attach_collection_limits (payload limits : odict json) : odict json :=
  match limits with
  | [] => payload
  | _ =>
      let lists :=
        match as_obj (dict_get COLLECTION_LIMITS_KEY payload) with
        | Some existing => default [] (as_obj (dict_get "lists" existing))
        | None => []
        end in
      dict_set COLLECTION_LIMITS_KEY
        (JObj [("truncated", JBool true); ("lists", JObj (dict_update (dict_update [] lists) limits))])
        payload
  end.

(** ** Fairness of the group selection *)

Section RoundRobinProofs.
Context {A : Type} (group_key : A -> string).

(** Items of group [k], and what the buckets still hold for [k]. *)
Definition of_group (k : string) (items : list A) : list A :=
  base.filter (fun x => group_key x = k) items.
Definition pending (k : string) (buckets : odict (list A)) : list A :=
  concat (base.filter (fun e => e.1 = k) buckets).*2.

Lemma of_group_app k l1 l2 : of_group k (l1 ++ l2) = of_group k l1 ++ of_group k l2.
Proof. apply filter_app. Qed.

Lemma of_group_snoc k l x :
  of_group k (l ++ [x]) = of_group k l ++ (if decide (group_key x = k) then [x] else []).
Proof. by rewrite of_group_app. Qed.

Lemma pending_app k b1 b2 : pending k (b1 ++ b2) = pending k b1 ++ pending k b2.
Proof. unfold pending. by rewrite filter_app, fmap_app, concat_app. Qed.

Lemma pending_cons k k' b bs :
  pending k ((k', b) :: bs) = (if decide (k' = k) then b else []) ++ pending k bs.
Proof. unfold pending. rewrite filter_cons. simpl. case_decide; done. Qed.

Lemma pending_notin k bs : k ∉ dict_keys bs -> pending k bs = [].
Proof.
  unfold dict_keys. induction bs as [|[k' b] bs IH]; [done|]. csimpl.
  intros [Hne Hk]%not_elem_of_cons. rewrite pending_cons, decide_False by done. by apply IH.
Qed.

(** Selected items and buckets partition [items] group by group. *)
Record rr_inv (items : list A) (bs : odict (list A)) (sel : list A) : Prop := {
  rr_nodup : dict_wf bs;
  rr_keyed : Forall (fun e => Forall (fun x => group_key x = e.1) e.2) bs;
  rr_split k : of_group k sel ++ pending k bs = of_group k items;
}.

(** Between passes no bucket is empty. *)
Definition no_empty (bs : odict (list A)) : Prop := Forall (fun e => e.2 <> []) bs.

Definition taken (k : string) (sel : list A) : nat := length (of_group k sel).

Lemma taken_snoc k sel x :
  taken k (sel ++ [x]) = (taken k sel + if decide (group_key x = k) then 1 else 0)%nat.
Proof. unfold taken. rewrite of_group_snoc, length_app. by case_decide. Qed.

(** Keys of [bs] have been served [r] times, the ones of [done] once more. *)
Record levels (r : nat) (done bs : odict (list A)) (sel : list A) : Prop := {
  level_max k : (taken k sel <= S r)%nat;
  level_rest k : k ∈ dict_keys bs -> taken k sel = r;
  level_done k : k ∈ dict_keys done -> taken k sel = S r;
}.

Lemma dict_keys_app (b1 b2 : odict (list A)) : dict_keys (b1 ++ b2) = dict_keys b1 ++ dict_keys b2.
Proof. apply fmap_app. Qed.

Lemma dict_wf_mid (done rest : odict (list A)) k b :
  dict_wf (done ++ (k, b) :: rest) <->
  dict_wf (done ++ rest) /\ (k ∉ dict_keys done) /\ (k ∉ dict_keys rest).
Proof.
  unfold dict_wf, dict_keys. rewrite !fmap_app. csimpl.
  rewrite <- Permutation_middle, NoDup_cons. set_solver.
Qed.

(** Serving one group moves its next item and preserves the invariant,
    whether its bucket stays or, emptied, is popped. *)
Lemma rr_serve items done k x b rest sel :
  rr_inv items (done ++ (k, x :: b) :: rest) sel ->
  group_key x = k /\
  rr_inv items (done ++ (k, b) :: rest) (sel ++ [x]) /\
  (b = [] -> rr_inv items (done ++ rest) (sel ++ [x])).
Proof.
  intros [Hwf Hok Hsplit].
  apply Forall_app in Hok as [Hd [Hx Hr]%Forall_cons]. simpl in *.
  apply Forall_cons in Hx as [Hx Hb]. split; [done|].
  assert (Hmove : forall k', of_group k' (sel ++ [x]) ++
            (pending k' done ++ ((if decide (k = k') then b else []) ++ pending k' rest))
            = of_group k' items).
  { intros k'. rewrite <- (Hsplit k'), pending_app, pending_cons, of_group_snoc, Hx.
    case_decide as Hk; [|by rewrite app_nil_r]. subst k'.
    apply dict_wf_mid in Hwf as (_ & Hnd & _).
    rewrite (pending_notin _ _ Hnd). simpl. by rewrite <- !app_assoc. }
  split.
  - split; [by apply dict_wf_mid in Hwf; apply dict_wf_mid| |].
    + apply Forall_app; split; [done|]. by constructor.
    + intros k'. rewrite pending_app, pending_cons. apply Hmove.
  - intros ->. split; [by apply dict_wf_mid in Hwf as [? _]|by apply Forall_app|].
    intros k'. rewrite pending_app. specialize (Hmove k'). by case_decide.
Qed.

Lemma taken_serve k k' sel x :
  group_key x = k ->
  taken k' (sel ++ [x]) = if decide (k' = k) then S (taken k' sel) else taken k' sel.
Proof. intros <-. rewrite taken_snoc. repeat case_decide; subst; try done; lia. Qed.

Lemma levels_serve r done k x b b' rest sel :
  dict_wf (done ++ (k, b) :: rest) -> group_key x = k -> levels r done ((k, b) :: rest) sel ->
  levels r done rest (sel ++ [x]) /\ levels r (done ++ [(k, b')]) rest (sel ++ [x]).
Proof.
  intros (_ & Hnd & Hnr)%dict_wf_mid Hx [Hmax Hrest Hdone].
  assert (taken k sel = r) as Hk by (apply Hrest; set_solver).
  split; split; intros k'; rewrite (taken_serve k) by done; case_decide; subst;
    rewrite ?dict_keys_app; try done; set_solver.
Qed.

(** A pass serves each remaining group once, in order, and stops exactly
    when the selection is full. *)
Lemma rr_pass_spec items max r bs : forall done sel bs' sel' stop,
  rr_inv items (done ++ bs) sel -> no_empty bs -> levels r done bs sel ->
  (length sel < max)%nat ->
  rr_pass max bs sel = (bs', sel', stop) ->
  rr_inv items (done ++ bs') sel' /\
  (forall k, taken k sel' <= S r)%nat /\
  (forall k, k ∈ dict_keys (done ++ bs') -> r <= taken k sel')%nat /\
  (bs <> [] -> length sel < length sel')%nat /\
  (if stop then length sel' = max
   else no_empty bs' /\ (length sel' < max)%nat /\ levels r (done ++ bs') [] sel').
Proof.
  induction bs as [|[k [|x b]] rest IH]; intros done sel bs' sel' stop Hinv Hne Hlev Hlen Hp;
    simpl in Hp.
  - simplify_eq. rewrite app_nil_r in *. destruct Hlev as [Hmax _ Hdone].
    split_and!; try done.
    + intros k Hk. rewrite (Hdone k Hk). lia.
    + split; [done|set_solver|done].
  - by apply Forall_cons in Hne as [? _].
  - apply Forall_cons in Hne as [_ Hne].
    destruct (rr_serve _ _ _ _ _ _ _ Hinv) as (Hx & Hkeep & Hdrop).
    destruct (levels_serve r done k x _ b rest sel (rr_nodup _ _ _ Hinv) Hx Hlev) as [L1 L2].
    rewrite length_app in Hp; simpl in Hp.
    destruct (max <=? length sel + 1)%nat eqn:Hfull; bool_to_prop.
    + injection Hp as <- <- <-. destruct L2 as [Hmax Hrest Hdone].
      split_and!; try done; rewrite ?length_app; simpl; try lia.
      intros k' Hk'.
      assert (k' ∈ dict_keys (done ++ [(k, b)]) \/ k' ∈ dict_keys rest) as [Hd|Hr]
        by (rewrite dict_keys_app in *; set_solver).
      * rewrite (Hdone _ Hd). lia.
      * rewrite (Hrest _ Hr). lia.
    + destruct (rr_pass max rest (sel ++ [x])) as [[rest' sel''] stop'] eqn:Hrec.
      assert (length (sel ++ [x]) < max)%nat as Hlen' by (rewrite length_app; simpl; lia).
      assert (length sel < length (sel ++ [x]))%nat as Hgrow by (rewrite length_app; simpl; lia).
      assert (Hmono : (rest <> [] -> length (sel ++ [x]) < length sel'')%nat ->
                      (length sel < length sel'')%nat).
      { intros Hm. destruct rest; [simpl in Hrec; simplify_eq; done|].
        specialize (Hm ltac:(done)). lia. }
      destruct b as [|y b].
      * injection Hp as <- <- <-. specialize (IH _ _ _ _ _ (Hdrop eq_refl) Hne L1 Hlen' Hrec).
        naive_solver.
      * injection Hp as <- <- <-. rewrite (cons_middle _ done) in Hkeep |- *.
        rewrite (app_assoc done) in Hkeep |- *.
        destruct (IH _ _ _ _ _ Hkeep Hne L2 Hlen' Hrec) as (I1 & I2 & I3 & I4 & I5).
        split_and!; [done|done|done|by auto|].
        destruct stop'; [done|]. destruct I5 as (?&?&?). split_and!; [by constructor|done|done].
Qed.
Lemma rr_loop_S fuel max (bs : odict (list A)) sel :
  bs <> [] ->
  rr_loop (S fuel) max bs sel =
    if (length sel <? max)%nat then
      let '(bs', sel', _) := rr_pass max bs sel in rr_loop fuel max bs' sel'
    else sel.
Proof. by destruct bs. Qed.

Lemma rr_loop_spec items max : forall fuel r bs sel,
  rr_inv items bs sel -> no_empty bs -> levels r [] bs sel ->
  (length sel <= max)%nat -> (max - length sel < fuel)%nat ->
  exists bs' r', let sel' := rr_loop fuel max bs sel in
    rr_inv items bs' sel' /\
    (forall k, taken k sel' <= S r')%nat /\
    (forall k, k ∈ dict_keys bs' -> r' <= taken k sel')%nat /\
    (length sel' <= max)%nat /\ (length sel' = max \/ bs' = []).
Proof.
  induction fuel as [|fuel IH]; intros r bs sel Hinv Hne Hlev Hlen Hf; [lia|].
  destruct (decide (bs = [])) as [->|Hbs].
  { exists [], r. destruct Hlev. simpl. split_and!; auto; set_solver. }
  rewrite rr_loop_S by done.
  destruct (length sel <? max)%nat eqn:Hfull; bool_to_prop.
  - destruct (rr_pass max bs sel) as [[bs1 sel1] stop] eqn:Hp.
    destruct (rr_pass_spec items max r bs [] sel bs1 sel1 stop Hinv Hne Hlev Hfull Hp)
      as (I1 & I2 & I3 & I4 & I5). simpl in *.
    specialize (I4 Hbs). destruct stop.
    + exists bs1, r. assert (rr_loop fuel max bs1 sel1 = sel1) as ->.
      { destruct fuel; [done|]. simpl. destruct bs1; [done|]. by rewrite I5, Nat.ltb_irrefl. }
      split_and!; auto. lia.
    + destruct I5 as (Hne1 & Hlen1 & [Hm _ Hd]).
      apply (IH (S r)); [done|done| |lia|lia]. split; [|done|set_solver].
      intros k. specialize (Hm k). lia.
  - exists bs, r. destruct Hlev. split_and!; auto; [|left; lia].
    intros k Hk. rewrite level_rest0 by done. lia.
Qed.

Lemma pending_get k bs : dict_wf bs -> default [] (dict_get k bs) = pending k bs.
Proof.
  induction bs as [|[k' b] bs IH]; [done|]. unfold dict_wf; csimpl.
  intros [Hni Hnd]%NoDup_cons. rewrite pending_cons. repeat case_decide; subst; try done.
  - simpl. by rewrite (pending_notin _ _ Hni), app_nil_r.
  - by apply IH.
Qed.

Lemma pending_set k k' b bs :
  dict_wf bs -> pending k (dict_set k' b bs) = if decide (k = k') then b else pending k bs.
Proof.
  intros Hwf. rewrite <- pending_get by eauto with kyro. rewrite dict_get_set.
  case_decide; [done|]. by apply pending_get.
Qed.

Lemma Forall_dict_set {V} (P : string * V -> Prop) k v (d : odict V) :
  P (k, v) -> Forall P d -> Forall P (dict_set k v d).
Proof.
  induction d as [|[k' v'] d IH]; intros Hkv Hd; simpl; [by constructor|].
  apply Forall_cons in Hd as [? ?]. case_decide; subst; constructor; auto.
Qed.

Lemma make_buckets_app l x :
  make_buckets group_key (l ++ [x]) = bucket_add group_key (make_buckets group_key l) x.
Proof. unfold make_buckets. by rewrite fold_left_app. Qed.

Lemma make_buckets_spec items :
  rr_inv items (make_buckets group_key items) [] /\ no_empty (make_buckets group_key items).
Proof.
  induction items as [|x items [[Hwf Hk Hs] Hne]] using rev_ind.
  { split; [split|]; constructor. }
  rewrite make_buckets_app. unfold bucket_add. rewrite pending_get by done. split; [split|].
  - by apply dict_set_wf.
  - apply Forall_dict_set; [|done]. apply Forall_app. split; [|by constructor].
    apply Forall_forall. intros y Hy. specialize (Hs (group_key x)). simpl in *.
    rewrite Hs in Hy. by apply list_elem_of_filter in Hy as [? _].
  - intros k. rewrite pending_set, of_group_snoc by done. specialize (Hs k). simpl in *.
    repeat case_decide; subst; rewrite ?Hs, ?app_nil_r; done.
  - apply Forall_dict_set; [|done]. simpl. by intros [_ [=]]%app_nil.
Qed.

(** Two lists with the same groups are permutations of each other. *)
Lemma of_group_perm l1 l2 : (forall k, of_group k l1 = of_group k l2) -> l1 ≡ₚ l2.
Proof.
  revert l2. induction l1 as [|x l1 IH]; intros l2 Heq.
  - destruct l2 as [|y l2]; [done|]. specialize (Heq (group_key y)).
    unfold of_group in Heq. by rewrite filter_nil, filter_cons_True in Heq.
  - pose proof (Heq (group_key x)) as Hx. unfold of_group in Hx at 1.
    rewrite filter_cons_True in Hx by done.
    destruct (head_filter_Some (fun y => group_key y = group_key x) l2 x)
      as (a & b & -> & Ha); [unfold of_group in Hx; by rewrite <- Hx|].
    rewrite <- Permutation_middle. f_equiv. apply IH. intros k. specialize (Heq k).
    revert Heq. rewrite !of_group_app. unfold of_group. rewrite !filter_cons.
    case_decide as Hk; [|done]. subst k. rewrite (filter_none _ a) by done. by intros [=].
Qed.
Lemma rr_final items max :
  exists bs r, let sel := round_robin_groups group_key items max in
    rr_inv items bs sel /\
    (forall k, taken k sel <= S r)%nat /\
    (forall k, k ∈ dict_keys bs -> r <= taken k sel)%nat /\
    (length sel <= max)%nat /\ (length sel = max \/ bs = []).
Proof.
  destruct (make_buckets_spec items) as [Hinv Hne].
  unfold round_robin_groups. apply (rr_loop_spec items max (S max) 0); simpl; try done; try lia.
  split; [by intros k; apply le_0_n|by intros|set_solver].
Qed.

Lemma rr_submseteq items bs sel : rr_inv items bs sel -> exists rest, sel ++ rest ≡ₚ items.
Proof.
  intros [_ Hk Hs]. exists (concat bs.*2). apply of_group_perm. intros k.
  rewrite of_group_app, <- Hs. f_equal. clear Hs.
  induction Hk as [|[k' b] bs Hb Hbs IH]; [done|]. csimpl.
  rewrite of_group_app, pending_cons, IH. f_equal. simpl in Hb. case_decide as Hk; subst.
  - unfold of_group. clear -Hb. induction Hb; [done|]. rewrite filter_cons_True; congruence.
  - apply filter_none. eapply Forall_impl; [apply Hb|]. simpl. congruence.
Qed.

Lemma round_robin_length items max :
  length (round_robin_groups group_key items max) = Nat.min max (length items).
Proof.
  destruct (rr_final items max) as (bs & r & Hinv & _ & _ & Hle & Hend).
  pose proof (rr_submseteq _ _ _ Hinv) as [rest Hp%Permutation_length].
  rewrite length_app in Hp. destruct Hend as [?| ->]; [lia|].
  destruct Hinv as [_ _ Hs]. assert (round_robin_groups group_key items max ≡ₚ items) as Hq.
  { apply of_group_perm. intros k. rewrite <- (Hs k). unfold pending. simpl.
    by rewrite app_nil_r. }
  apply Permutation_length in Hq. lia.
Qed.

Lemma round_robin_subset items max : exists rest,
  round_robin_groups group_key items max ++ rest ≡ₚ items.
Proof. destruct (rr_final items max) as (bs & r & Hinv & _). by eapply rr_submseteq. Qed.

Lemma taken_round_robin items max a :
  (taken a (round_robin_groups group_key items max) < taken a items)%nat ->
  forall b, (taken b (round_robin_groups group_key items max)
             <= S (taken a (round_robin_groups group_key items max)))%nat.
Proof.
  destruct (rr_final items max) as (bs & r & Hinv & Hmax & Hmin & _). intros Ha b.
  destruct (decide (a ∈ dict_keys bs)) as [Hin|Hni].
  - specialize (Hmin _ Hin). specialize (Hmax b). lia.
  - destruct Hinv as [_ _ Hs]. specialize (Hs a). rewrite (pending_notin _ _ Hni), app_nil_r in Hs.
    unfold taken in Ha. rewrite Hs in Ha. lia.
Qed.

Lemma round_robin_prefix items max k :
  of_group k (round_robin_groups group_key items max) `prefix_of` of_group k items.
Proof.
  destruct (rr_final items max) as (bs & r & [_ _ Hs] & _). exists (pending k bs). by rewrite Hs.
Qed.

(** [round_robin_groups] returns exactly [min max_items len(items)]
    items, a sub-multiset of the input; within a group it keeps the first
    ones in order; and it is fair: as soon as some item of group [a] was
    cut, no other group got more than one item more than [a]. *)
Theorem round_robin_fair items max :
  let selected := round_robin_groups group_key items max in
  length selected = Nat.min max (length items) /\
  (exists dropped, selected ++ dropped ≡ₚ items) /\
  (forall k, of_group k selected `prefix_of` of_group k items) /\
  (forall a b, (taken a selected < taken a items)%nat ->
               (taken b selected <= S (taken a selected))%nat).
Proof.
  split_and!; [apply round_robin_length|apply round_robin_subset|apply round_robin_prefix|].
  intros a b Ha. by apply taken_round_robin.
Qed.
End RoundRobinProofs.

(** ** The byte budget: termination and truthful truncation *)

Lemma limit_list_length {A} (items : list A) max g :
  length (limit_list items max g) = Nat.min max (length items).
Proof.
  unfold limit_list. destruct (length items <=? max)%nat eqn:H; bool_to_prop; [lia|].
  destruct g; [apply round_robin_length | apply length_take].
Qed.

Lemma limit_list_subset {A} (items : list A) max g :
  exists dropped, limit_list items max g ++ dropped ≡ₚ items.
Proof.
  unfold limit_list. destruct (length items <=? max)%nat; [exists []; by rewrite app_nil_r|].
  destruct g; [apply round_robin_subset | exists (drop max items); by rewrite take_drop].
Qed.

(** What one key may become: unchanged, or a list cut down to a sub-multiset
    whose [limits] record states the first known size and the new one. *)
Definition truthful_cut (payload payload' limits limits' : odict json) (key : string) : Prop :=
  (dict_get key payload' = dict_get key payload /\ dict_get key limits' = dict_get key limits) \/
  exists items kept dropped,
    dict_get key payload = Some (JArr items) /\ dict_get key payload' = Some (JArr kept) /\
    kept ++ dropped ≡ₚ items /\
    dict_get key limits' = Some (collection_limit
      (original_count_for limits key (JInt (Z.of_nat (length items)))) (length kept)).

Lemma original_count_is_int limits key z : is_int (original_count_for limits key (JInt z)) = true.
Proof. unfold original_count_for. repeat break; done. Qed.

Lemma original_count_recorded limits key c n fb :
  is_int c = true -> original_count_for (dict_set key (collection_limit c n) limits) key fb = c.
Proof. intros Hc. unfold original_count_for. rewrite dict_get_set_eq. simpl. by rewrite Hc. Qed.

Lemma original_count_twice limits key z fb :
  original_count_for limits key (original_count_for limits key (JInt z))
  = original_count_for limits key (JInt z) /\
  (forall c n, dict_get key limits = Some (collection_limit c n) -> is_int c = true ->
     original_count_for limits key fb = c).
Proof.
  split.
  - unfold original_count_for. repeat break; done.
  - intros c n Hk Hc. unfold original_count_for. rewrite Hk. simpl. by rewrite Hc.
Qed.

Lemma truthful_cut_refl p l key : truthful_cut p p l l key.
Proof. by left. Qed.

Lemma truthful_cut_trans p1 p2 p3 l1 l2 l3 key :
  truthful_cut p1 p2 l1 l2 key -> truthful_cut p2 p3 l2 l3 key -> truthful_cut p1 p3 l1 l3 key.
Proof.
  intros [[Hp Hl]|(i1 & k1 & d1 & Hi1 & Hk1 & Hd1 & Hl1)] [[Hp' Hl']|(i2 & k2 & d2 & Hi2 & Hk2 & Hd2 & Hl2)].
  - left. by rewrite Hp', Hl'.
  - right. exists i2, k2, d2. split_and!; [by rewrite <- Hp|done..|].
    rewrite Hl2. unfold original_count_for. by rewrite Hl.
  - right. exists i1, k1, d1. by rewrite Hp', Hl'.
  - right. rewrite Hk1 in Hi2. simplify_eq. exists i1, k2, (d2 ++ d1). split_and!; [done..| |].
    + by rewrite app_assoc, Hd2.
    + rewrite Hl2. do 2 f_equal. apply (proj2 (original_count_twice l2 key 0 _)) with (n := length i2).
      * done.
      * apply original_count_is_int.
Qed.

Lemma shrink_step_truthful groups p l key items p' l' k :
  dict_get key p = Some (JArr items) -> shrink_step groups p l key items = (p', l') ->
  truthful_cut p p' l l' k.
Proof.
  intros Hkey [= <- <-]. unfold truthful_cut, record_collection_limit.
  rewrite !dict_get_set. case_decide as Hk; [|by left]. subst k. right.
  destruct (limit_list_subset items (Nat.max MIN_LIMITED_LIST_ITEMS (length items / 2))
              (dict_get key groups)) as [dropped Hd].
  eexists items, _, dropped. split_and!; [done..|].
  by rewrite !(proj1 (original_count_twice l key _ JNull)).
Qed.

Lemma total_items_set key items limited p :
  dict_get key p = Some (JArr items) ->
  (total_items (dict_set key (JArr limited) p) + length items = total_items p + length limited)%nat.
Proof.
  unfold total_items. induction p as [|[k v] p IH]; simpl; [done|].
  case_decide; intros Hk; simplify_eq; simpl; [lia|]. specialize (IH Hk). lia.
Qed.

Lemma shrink_step_weight groups p l key items :
  dict_get key p = Some (JArr items) -> (0 < length items)%nat ->
  (total_items (shrink_step groups p l key items).1 < total_items p)%nat.
Proof.
  intros Hget Hlen. unfold shrink_step, MIN_LIMITED_LIST_ITEMS. cbn [fst].
  set (limited := limit_list _ _ _).
  pose proof (total_items_set key items limited p Hget) as Ht.
  assert (length limited <= length items / 2)%nat by (unfold limited; rewrite limit_list_length; lia).
  pose proof (Nat.div_lt (length items) 2 ltac:(lia) ltac:(lia)). lia.
Qed.

Lemma shrink_candidate_spec p keys c :
  c ∈ shrink_candidates p keys ->
  exists value, c.2 = (c.2.1, value) /\ c.2.1 ∈ keys /\ dict_get c.2.1 p = Some (JArr value) /\
    (0 < length value)%nat.
Proof.
  unfold shrink_candidates. rewrite list_elem_of_omap. intros (key & Hkey & Hc).
  destruct (as_list (dict_get key p)) as [value|] eqn:Hv; [|done].
  unfold MIN_LIMITED_LIST_ITEMS in Hc. destruct (0 <? length value)%nat eqn:Hlen; [|done].
  bool_to_prop. simplify_eq/=. exists value. split_and!; try done.
  unfold as_list in Hv. by repeat break.
Qed.

Lemma first_max_elem {B} (c : Z * B) rest : first_max c rest ∈ c :: rest.
Proof.
  unfold first_max. revert c. induction rest as [|d rest IH]; intros c; simpl; [by left|].
  specialize (IH (if c.1 <? d.1 then d else c)).
  apply elem_of_cons in IH as [IH|IH]; [rewrite IH; destruct (c.1 <? d.1)|]; set_solver.
Qed.

Lemma largest_shrinkable_spec p keys key value :
  largest_shrinkable_list p keys = Some (key, value) ->
  key ∈ keys /\ dict_get key p = Some (JArr value) /\ (0 < length value)%nat.
Proof.
  unfold largest_shrinkable_list. destruct (shrink_candidates p keys) as [|c rest] eqn:Hc; [done|].
  intros [= Heq]. pose proof (first_max_elem c rest) as Hin. rewrite <- Hc in Hin.
  destruct (shrink_candidate_spec _ _ _ Hin) as (v & E & Hk & Hv & Hlen).
  rewrite Heq in *. simpl in *. by simplify_eq.
Qed.

Lemma largest_shrinkable_None p keys key value :
  largest_shrinkable_list p keys = None -> key ∈ keys -> dict_get key p = Some (JArr value) ->
  value = [].
Proof.
  unfold largest_shrinkable_list. destruct (shrink_candidates p keys) as [|c rest] eqn:Hc; [|done].
  intros _ Hin Hv. destruct value as [|x value]; [done|].
  assert ((payload_size_bytes (JArr (x :: value)), (key, x :: value)) ∈ shrink_candidates p keys)
    as Hel; [|rewrite Hc in Hel; set_solver].
  unfold shrink_candidates. apply list_elem_of_omap. exists key. by rewrite Hv.
Qed.

(** The loop leaves through one of its two exits once the fuel exceeds the
    number of items, and every key it touched was cut truthfully. *)
Lemma limit_loop_spec keys max groups : forall fuel p l p' l',
  (total_items p < fuel)%nat ->
  limit_payload_size_loop fuel p keys l max groups = (p', l') ->
  (payload_size_bytes (JObj p') <= max \/ largest_shrinkable_list p' keys = None) /\
  (forall key, truthful_cut p p' l l' key) /\
  (forall key, key ∉ keys -> dict_get key p' = dict_get key p).
Proof.
  induction fuel as [|fuel IH]; intros p l p' l' Hf Hrun; [lia|].
  cbn [limit_payload_size_loop] in Hrun.
  destruct (payload_size_bytes (JObj p) <=? max) eqn:Hsize; bool_to_prop.
  { simplify_eq. split_and!; auto using truthful_cut_refl. }
  destruct (largest_shrinkable_list p keys) as [[key value]|] eqn:Hc.
  2: { simplify_eq. split_and!; auto using truthful_cut_refl. }
  destruct (shrink_step groups p l key value) as [p1 l1] eqn:Hstep in Hrun.
  destruct (largest_shrinkable_spec _ _ _ _ Hc) as (Hin & Hget & Hlen).
  destruct (IH p1 l1 p' l') as (I1 & I2 & I3); [|done|].
  - pose proof (shrink_step_weight groups p l key value Hget Hlen) as Hw.
    rewrite Hstep in Hw. simpl in Hw. lia.
  - split_and!; [done| |].
    + intros k. eapply truthful_cut_trans; [|apply I2]. by eapply shrink_step_truthful.
    + intros k Hk. rewrite I3 by done. replace p1 with (shrink_step groups p l key value).1 by (by rewrite Hstep).
      apply dict_get_set_ne. set_solver.
Qed.

(** C40. [limit_payload_size] always terminates, either within the byte budget
    or with every limited list already empty (nothing is left to cut).  It
    never touches another key, and every list it shortens is a sub-multiset of
    the original one, recorded with the first known original count and the
    number of items returned: no truncation is silent. *)
Theorem limit_payload_size_truthful payload list_keys limits max_bytes group_keys payload' limits' :
  limit_payload_size payload list_keys limits max_bytes group_keys = (payload', limits') ->
  (payload_size_bytes (JObj payload') <= max_bytes \/
   forall key items, key ∈ list_keys -> dict_get key payload' = Some (JArr items) -> items = []) /\
  (forall key, key ∉ list_keys -> dict_get key payload' = dict_get key payload) /\
  (forall key, truthful_cut payload payload' limits limits' key).
Proof.
  intros Hrun. destruct (limit_loop_spec list_keys max_bytes group_keys
    (S (total_items payload)) payload limits payload' limits' ltac:(lia) Hrun) as (I1 & I2 & I3).
  split_and!; [|done|done]. destruct I1 as [?|Hnone]; [by left|right].
  intros key items Hin Hget. by eapply largest_shrinkable_None.
Qed.

Lemma limit_payload_size_truthful_witness :
  exists payload' limits',
    limit_payload_size [("logs", JArr [JInt 1; JInt 2; JInt 3; JInt 4]); ("k", JInt 7)]
      ["logs"] [] 26 [] = (payload', limits') /\
    payload_size_bytes (JObj payload') <= 26 /\
    dict_get "logs" limits' = Some (collection_limit (JInt 4) 2) /\
    (forall key, truthful_cut [("logs", JArr [JInt 1; JInt 2; JInt 3; JInt 4]); ("k", JInt 7)]
                   payload' [] limits' key).
Proof.
  eexists _, _. split; [vm_compute; reflexivity|].
  split; [vm_compute; discriminate|]. split; [reflexivity|].
  eapply (limit_payload_size_truthful _ ["logs"] [] 26 []). vm_compute. reflexivity.
Defined.
