(* ===== verification/EventStore.v ===== *)
(** The event store: envelopes, the idempotency ledger, the outbox, the dead
    letters and the retention statements.

    [packages/contracts/event_bus/interfaces.py] and [processing.py] give the
    data, [packages/storage/repositories/event.py], [outbox.py] and
    [dead_letter.py] the statements; each definition is one SQL statement (or
    one transaction of them) as a function on the tables, [now] being the
    transaction's [now()].  Times are in microseconds.

    [created_at] and [occurred_at] columns hold ISO strings the database casts
    to timestamps: the cast is the parameter [timestamp_of] of the one
    statement that uses it. *)

From S2P Require Import Prelude PyString Json.

(** ** Envelopes *)

Definition ENVELOPE_SCHEMA_VERSION : Z := 1.

Record EventEnvelope : Type := {
  event_id : string;
  subject : string;
  source : string;
  correlation_id : string;
  causation_id : option string;
  created_at : string;
  payload : odict json;
  schema_version : Z;
  workspace_id : option string;
}.

Definition json_opt_str (o : option string) : json :=
  match o with Some s => JStr s | None => JNull end.

(** [EventEnvelope.to_dict]. *)
Definition to_dict (evt : EventEnvelope) : odict json :=
  [("event_id", JStr (event_id evt)); ("subject", JStr (subject evt));
   ("source", JStr (source evt)); ("correlation_id", JStr (correlation_id evt));
   ("causation_id", json_opt_str (causation_id evt)); ("created_at", JStr (created_at evt));
   ("payload", JObj (payload evt)); ("schema_version", JInt (schema_version evt));
   ("workspace_id", json_opt_str (workspace_id evt))].

(** [EventEnvelope.from_mapping]: unknown keys are dropped, a missing required
    field is the constructor's [TypeError], the two defaulted fields may be
    absent.  Python does not check types: a field of another type is outside
    the model and is reported as the error too. *)
Inductive decode_error : Type := MissingField (name : string) | ForeignType (name : string).

Definition required_str (raw : odict json) (name : string) : result decode_error string :=
  match dict_get name raw with
  | Some (JStr s) => Ok s
  | Some _ => Err (ForeignType name)
  | None => Err (MissingField name)
  end.

Definition as_opt_str (name : string) (v : json) : result decode_error (option string) :=
  match v with
  | JStr s => Ok (Some s)
  | JNull => Ok None
  | _ => Err (ForeignType name)
  end.

Definition from_mapping (raw : odict json) : result decode_error EventEnvelope :=
  event_id ← required_str raw "event_id";
  subject ← required_str raw "subject";
  source ← required_str raw "source";
  correlation_id ← required_str raw "correlation_id";
  causation_id ← match dict_get "causation_id" raw with
                 | Some v => as_opt_str "causation_id" v
                 | None => Err (MissingField "causation_id")
                 end;
  created_at ← required_str raw "created_at";
  payload ← match dict_get "payload" raw with
            | Some (JObj fields) => Ok fields
            | Some _ => Err (ForeignType "payload")
            | None => Err (MissingField "payload")
            end;
  schema_version ← match dict_get "schema_version" raw with
                   | Some (JInt z) => Ok z
                   | Some _ => Err (ForeignType "schema_version")
                   | None => Ok ENVELOPE_SCHEMA_VERSION
                   end;
  workspace_id ← match dict_get "workspace_id" raw with
                 | Some v => as_opt_str "workspace_id" v
                 | None => Ok None
                 end;
  Ok {| event_id := event_id; subject := subject; source := source;
        correlation_id := correlation_id; causation_id := causation_id;
        created_at := created_at; payload := payload;
        schema_version := schema_version; workspace_id := workspace_id |}.

(** ** Building an event ([packages/events/envelope.py], [context.py]) *)

(** [x or None] on strings. *)
Definition non_empty (s : string) : option string :=
  match s with EmptyString => None | _ => Some s end.

Definition normalized_workspace_id (w : option string) : option string :=
  match w with Some s => non_empty (strip s) | None => None end.

(** [event(...)]: the correlation falls back to the payload's, then to the
    event itself; the workspace to the current context's. *)
Definition make_event (fresh_id now_iso : string) (current_workspace : option string)
    (subject source : string) (payload : odict json)
    (correlation_id causation_id workspace_id : option string) : EventEnvelope :=
  let from_payload := match dict_get "correlation_id" payload with
                      | Some (JStr s) => non_empty s
                      | _ => None
                      end in
  let correlation :=
    match correlation_id ≫= non_empty with
    | Some c => c
    | None => default fresh_id from_payload
    end in
  {| event_id := fresh_id; subject := subject; source := source; correlation_id := correlation;
     causation_id := causation_id; created_at := now_iso; payload := payload;
     schema_version := ENVELOPE_SCHEMA_VERSION;
     workspace_id := match normalized_workspace_id workspace_id with
                     | Some w => Some w
                     | None => normalized_workspace_id current_workspace
                     end |}.

(** ** Statuses *)

Inductive EventProcessingStatus : Type := PROCESSING | PROCESSED | RETRYING | DEAD_LETTERED.

#[export] Instance status_eq_dec : EqDecision EventProcessingStatus.
Proof. solve_decision. Defined.

Definition TERMINAL_STATUSES : list EventProcessingStatus := [PROCESSED; DEAD_LETTERED].

(** The status of an [EventProcessingRecord]: a stored one, the derived
    [CLAIM_BLOCKED], or ["unknown"]. *)
Inductive record_status : Type := Stored (s : EventProcessingStatus) | CLAIM_BLOCKED | Unknown.

#[export] Instance record_status_eq_dec : EqDecision record_status.
Proof. solve_decision. Defined.

Record EventProcessingRecord : Type := { status : record_status; attempts : Z }.

(** ** Tables *)

Record event_row : Type := { e_envelope : EventEnvelope; e_created_at : Z }.

Record processing_row : Type := {
  p_subject : string;
  p_correlation_id : string;
  p_status : EventProcessingStatus;
  p_attempts : Z;
  p_duration_ms : option Z;
  p_last_error : option string;
  p_updated_at : Z;
}.

Record outbox_row : Type := {
  o_id : Z;
  o_event : EventEnvelope;
  o_lease_id : option string;
  o_leased_until : option Z;
  o_sent_at : option Z;
}.

Inductive dead_letter_status : Type := OPEN | REPLAYED | ARCHIVED.

#[export] Instance dead_letter_status_eq_dec : EqDecision dead_letter_status.
Proof. solve_decision. Defined.

Record dead_letter_row : Type := {
  d_id : Z;
  d_event_id : string;
  d_subject : string;
  d_consumer : string;
  d_correlation_id : string;
  d_attempts : Z;
  d_error : string;
  d_payload : odict json;
  d_status : dead_letter_status;
  d_replayed_at : option Z;
  d_replay_event_id : option string;
  d_created_at : Z;
}.

(** The tables, with the two id sequences.  [outbox] and [dead_letters] are in
    id order. *)
Record tables : Type := {
  events : gmap string event_row;
  processing : gmap (string * string) processing_row;
  outbox : list outbox_row;
  outbox_seq : Z;
  dead_letters : list dead_letter_row;
  dead_letter_seq : Z;
}.

Definition with_events (t : tables) e : tables :=
  {| events := e; processing := processing t; outbox := outbox t; outbox_seq := outbox_seq t;
     dead_letters := dead_letters t; dead_letter_seq := dead_letter_seq t |}.
Definition with_processing (t : tables) p : tables :=
  {| events := events t; processing := p; outbox := outbox t; outbox_seq := outbox_seq t;
     dead_letters := dead_letters t; dead_letter_seq := dead_letter_seq t |}.
Definition with_outbox (t : tables) o s : tables :=
  {| events := events t; processing := processing t; outbox := o; outbox_seq := s;
     dead_letters := dead_letters t; dead_letter_seq := dead_letter_seq t |}.
Definition with_dead_letters (t : tables) d s : tables :=
  {| events := events t; processing := processing t; outbox := outbox t; outbox_seq := outbox_seq t;
     dead_letters := d; dead_letter_seq := s |}.

Definition ERROR_MESSAGE_LIMIT : nat := 2000.
Definition compact_error (error : string) : string := String.substring 0 ERROR_MESSAGE_LIMIT error.

Definition SECOND : Z := 1000000.

(** ** The ledger ([EventRepository]) *)

Definition record_event (now : Z) (evt : EventEnvelope) (t : tables) : tables :=
  match events t !! event_id evt with
  | Some _ => t
  | None => with_events t (<[event_id evt := {| e_envelope := evt; e_created_at := now |}]> (events t))
  end.

Section Ledger.
(** [PROCESSING_STALE_SECONDS], read from the environment. *)
Context (stale_seconds : Z).

(** The [where] of the upsert: not terminal, and either not [PROCESSING] or
    a claim older than the freshness window. *)
Definition reclaimable (now : Z) (r : processing_row) : bool :=
  negb (bool_decide (p_status r ∈ TERMINAL_STATUSES)) &&
  (negb (bool_decide (p_status r = PROCESSING)) || (p_updated_at r <? now - stale_seconds * SECOND)).

Definition claim_event_processing (now : Z) (evt : EventEnvelope) (consumer : string) (t : tables)
    : tables * option EventProcessingRecord :=
  let key := (event_id evt, consumer) in
  match processing t !! key with
  | None =>
      let row := {| p_subject := subject evt; p_correlation_id := correlation_id evt;
                    p_status := PROCESSING; p_attempts := 1; p_duration_ms := None;
                    p_last_error := None; p_updated_at := now |} in
      (with_processing t (<[key := row]> (processing t)),
       Some {| status := Stored PROCESSING; attempts := 1 |})
  | Some r =>
      if reclaimable now r then
        let row := {| p_subject := p_subject r; p_correlation_id := p_correlation_id r;
                      p_status := PROCESSING; p_attempts := p_attempts r + 1;
                      p_duration_ms := p_duration_ms r; p_last_error := None;
                      p_updated_at := now |} in
        (with_processing t (<[key := row]> (processing t)),
         Some {| status := Stored PROCESSING; attempts := p_attempts r + 1 |})
      else (t, None)
  end.

Definition begin_event_processing (now : Z) (evt : EventEnvelope) (consumer : string) (t : tables)
    : tables * EventProcessingRecord :=
  match claim_event_processing now evt consumer t with
  | (t', Some r) => (t', r)
  | (t', None) =>
      match processing t' !! (event_id evt, consumer) with
      | Some existing =>
          (t', {| status := if decide (p_status existing = PROCESSING) then CLAIM_BLOCKED
                            else Stored (p_status existing);
                  attempts := p_attempts existing |})
      | None => (t', {| status := Unknown; attempts := 0 |})
      end
  end.

(** The [UPDATE] of [finish_event_processing] and [fail_event_processing]; the
    duration is left alone when absent. *)
Definition update_row (s : EventProcessingStatus) (error : option string) (duration_ms : option Z)
    (now : Z) (r : processing_row) : processing_row :=
  {| p_subject := p_subject r; p_correlation_id := p_correlation_id r; p_status := s;
     p_attempts := p_attempts r;
     p_duration_ms := match duration_ms with Some d => Some (Z.max 0 d) | None => p_duration_ms r end;
     p_last_error := error; p_updated_at := now |}.

Definition finish_event_processing (now : Z) (evt : EventEnvelope) (consumer : string)
    (duration_ms : option Z) (t : tables) : tables :=
  with_processing t
    (alter (update_row PROCESSED None duration_ms now) (event_id evt, consumer) (processing t)).

Definition fail_event_processing (now : Z) (evt : EventEnvelope) (consumer : string)
    (error : string) (s : EventProcessingStatus) (duration_ms : option Z) (t : tables) : tables :=
  with_processing t
    (alter (update_row s (Some (compact_error error)) duration_ms now)
       (event_id evt, consumer) (processing t)).

(** [Ledger.begin]: record the event, then claim it. *)
Definition ledger_begin (now : Z) (evt : EventEnvelope) (consumer : string) (t : tables)
    : tables * EventProcessingRecord :=
  begin_event_processing now evt consumer (record_event now evt t).
End Ledger.

Definition ledger_finish := finish_event_processing.
Definition ledger_retry now evt consumer error duration_ms t :=
  fail_event_processing now evt consumer error RETRYING duration_ms t.
Definition ledger_dead_letter now evt consumer error duration_ms t :=
  fail_event_processing now evt consumer error DEAD_LETTERED duration_ms t.

(** ** Dead letters ([DeadLetterRepository]) *)

Definition open_dead_letter (id : Z) (event_id subject consumer correlation_id : string)
    (attempts : Z) (error : string) (payload : odict json) (now : Z) : dead_letter_row :=
  {| d_id := id; d_event_id := event_id; d_subject := subject; d_consumer := consumer;
     d_correlation_id := correlation_id; d_attempts := attempts; d_error := error;
     d_payload := payload; d_status := OPEN; d_replayed_at := None; d_replay_event_id := None;
     d_created_at := now |}.

Definition insert_dead_letter (row : Z -> dead_letter_row) (t : tables) : tables :=
  with_dead_letters t (dead_letters t ++ [row (dead_letter_seq t)]) (dead_letter_seq t + 1).

Definition record_dead_letter (now : Z) (evt : EventEnvelope) (consumer error : string)
    (attempts : Z) (t : tables) : tables :=
  insert_dead_letter (fun id => open_dead_letter id (event_id evt) (subject evt) consumer
    (correlation_id evt) attempts (compact_error error) (payload evt) now) t.

Definition RAW_DEAD_LETTER_SUBJECT : string := "__decode_failed__".

(** [fresh_id] is the [uuid4] text; [raw_text] is [raw.decode(errors="replace")]. *)
Definition record_raw_dead_letter (now : Z) (fresh_id raw_text consumer error : string) (t : tables)
    : tables :=
  let original_event_id := "decode-failure:" +:+ fresh_id in
  insert_dead_letter (fun id => open_dead_letter id original_event_id RAW_DEAD_LETTER_SUBJECT
    consumer original_event_id 1 (compact_error error) [("raw", JStr raw_text)] now) t.

Definition replayable (id : Z) (r : dead_letter_row) : bool :=
  (d_id r =? id) && bool_decide (d_status r = OPEN).

Definition mark_replayed (now : Z) (replay_event_id : string) (r : dead_letter_row)
    : dead_letter_row :=
  {| d_id := d_id r; d_event_id := d_event_id r; d_subject := d_subject r;
     d_consumer := d_consumer r; d_correlation_id := d_correlation_id r;
     d_attempts := d_attempts r; d_error := d_error r; d_payload := d_payload r;
     d_status := REPLAYED; d_replayed_at := Some now; d_replay_event_id := Some replay_event_id;
     d_created_at := d_created_at r |}.

Definition mark_dead_letter_replayed (now id : Z) (replay_event_id : string) (t : tables)
    : tables * bool :=
  (with_dead_letters t
     (map (fun r => if replayable id r then mark_replayed now replay_event_id r else r)
        (dead_letters t)) (dead_letter_seq t),
   existsb (replayable id) (dead_letters t)).

Definition get_dead_letter (id : Z) (t : tables) : option dead_letter_row :=
  List.find (fun r => d_id r =? id) (dead_letters t).

Definition open_dead_letter_count (t : tables) : Z :=
  Z.of_nat (length (filter (fun r => d_status r = OPEN) (dead_letters t))).

(** ** Wire round trip and single replay *)

Lemma as_opt_str_opt name o : as_opt_str name (json_opt_str o) = Ok o.
Proof. by destruct o. Qed.

Lemma dict_get_app_l {V} k (d e : odict V) v : dict_get k d = Some v -> dict_get k (d ++ e) = Some v.
Proof. induction d as [|[k' v'] d IH]; simpl; [done|]. case_decide; auto. Qed.

(** An envelope survives the wire: decoding what [to_dict] encodes gives
    it back, also when a newer producer has added fields the consumer does not
    know; an older message without [schema_version] and [workspace_id] decodes
    to version 1 without a workspace. *)
Theorem envelope_roundtrip evt extra :
  from_mapping (to_dict evt ++ extra) = Ok evt /\
  from_mapping (base.filter (fun kv => kv.1 <> "schema_version" /\ kv.1 <> "workspace_id") (to_dict evt))
  = Ok {| event_id := event_id evt; subject := subject evt; source := source evt;
          correlation_id := correlation_id evt; causation_id := causation_id evt;
          created_at := created_at evt; payload := payload evt;
          schema_version := ENVELOPE_SCHEMA_VERSION; workspace_id := None |}.
Proof.
  destruct evt as [i s so c ca cr p sv w]. destruct ca, w; split; reflexivity.
Qed.

Lemma replayable_marked now id rid r :
  replayable id (if replayable id r then mark_replayed now rid r else r) = false.
Proof.
  destruct (replayable id r) eqn:E; [|done]. unfold replayable. simpl. by rewrite andb_false_r.
Qed.

(** A dead letter is replayed at most once: the first request succeeds
    exactly when the letter is open, every later one is refused and changes
    nothing, and no other letter is touched. *)
Theorem replay_once now1 now2 id rid1 rid2 t :
  let first := mark_dead_letter_replayed now1 id rid1 t in
  let second := mark_dead_letter_replayed now2 id rid2 first.1 in
  (first.2 = true <-> exists r, r ∈ dead_letters t /\ d_id r = id /\ d_status r = OPEN) /\
  second = (first.1, false) /\
  Forall2 (fun r r' => d_id r <> id -> r' = r) (dead_letters t) (dead_letters first.1).
Proof.
  intros first second. split_and!.
  - unfold first, mark_dead_letter_replayed. simpl. rewrite existsb_exists.
    split; intros (r & Hr & H).
    + apply list_elem_of_In in Hr. unfold replayable in H. bool_to_prop. eauto.
    + apply list_elem_of_In in Hr. exists r. split; [done|]. destruct H as [<- Hs].
      unfold replayable. rewrite Z.eqb_refl. simpl. by apply bool_decide_eq_true.
  - unfold second, first, mark_dead_letter_replayed. simpl. f_equal.
    + unfold with_dead_letters. simpl. f_equal. rewrite map_map. apply map_ext. intros r.
      by rewrite replayable_marked.
    + induction (dead_letters t) as [|r l IH]; [done|]. simpl. by rewrite replayable_marked.
  - unfold first, mark_dead_letter_replayed. simpl.
    induction (dead_letters t) as [|r l IH]; simpl; constructor; [|done].
    intros Hne. unfold replayable. by rewrite (proj2 (Z.eqb_neq _ _) Hne).
Qed.
