(* ===== verification/Outbox.v ===== *)
(** The transactional outbox and its relay
    ([packages/storage/repositories/outbox.py], [packages/runtime/relay.py]).

    The publisher is the broker client, code outside the repository: a relay
    run takes the outcome of each publication as its input.  [UPDATE ...
    RETURNING] gives the claimed rows back in id order here. *)

From S2P Require Import Prelude Json EventStore.

Definition DEFAULT_OUTBOX_LEASE_SECONDS : Z := 60.

(** [insert ... on conflict (event_id) do nothing], row by row: a conflicting
    row still consumes a sequence value. *)
Definition stage_event (t : tables) (evt : EventEnvelope) : tables :=
  if existsb (fun r => String.eqb (event_id (o_event r)) (event_id evt)) (outbox t)
  then with_outbox t (outbox t) (outbox_seq t + 1)
  else with_outbox t
         (outbox t ++ [{| o_id := outbox_seq t; o_event := evt; o_lease_id := None;
                          o_leased_until := None; o_sent_at := None |}]) (outbox_seq t + 1).

Definition stage_events (evts : list EventEnvelope) (t : tables) : tables :=
  fold_left stage_event evts t.

Definition is_none {A} (o : option A) : bool := match o with None => true | Some _ => false end.

(** [lease_id IS NULL OR leased_until < now()]. *)
Definition lease_available (now : Z) (r : outbox_row) : bool :=
  is_none (o_lease_id r) || match o_leased_until r with Some u => u <? now | None => false end.

Definition claimable (now : Z) (source_filter : option string) (r : outbox_row) : bool :=
  is_none (o_sent_at r) && lease_available now r &&
  match source_filter with Some s => String.eqb (source (o_event r)) s | None => true end.

(** The ids of the first [limit] claimable rows. *)
Definition claim_ids (now : Z) (limit : nat) (source_filter : option string) (t : tables) : list Z :=
  take limit (map o_id (filter (fun r => claimable now source_filter r = true) (outbox t))).

Definition lease_row (lease_id : string) (until : Z) (r : outbox_row) : outbox_row :=
  {| o_id := o_id r; o_event := o_event r; o_lease_id := Some lease_id;
     o_leased_until := Some until; o_sent_at := o_sent_at r |}.

Definition unsent_events (now : Z) (lease_id : string) (limit : nat) (source_filter : option string)
    (t : tables) : tables * list EventEnvelope :=
  let ids := claim_ids now limit source_filter t in
  let until := now + DEFAULT_OUTBOX_LEASE_SECONDS * SECOND in
  (with_outbox t
     (map (fun r => if bool_decide (o_id r ∈ ids) then lease_row lease_id until r else r) (outbox t))
     (outbox_seq t),
   map o_event (filter (fun r => o_id r ∈ ids) (outbox t))).

Definition settle_row (now : Z) (r : outbox_row) : outbox_row :=
  {| o_id := o_id r; o_event := o_event r; o_lease_id := None; o_leased_until := None;
     o_sent_at := Some now |}.

(** [update outbox set sent_at = now(), lease cleared where event_id in ids]. *)
Definition mark_events_sent (now : Z) (ids : list string) (t : tables) : tables :=
  with_outbox t
    (map (fun r => if bool_decide (event_id (o_event r) ∈ ids) then settle_row now r else r)
       (outbox t)) (outbox_seq t).

Definition mark_events_dead_lettered (now : Z) (evts : list EventEnvelope) (consumer error : string)
    (t : tables) : tables :=
  match evts with
  | [] => t
  | _ =>
      let t := fold_left (fun t evt =>
        insert_dead_letter (fun id => open_dead_letter id (event_id evt) (subject evt) consumer
          (correlation_id evt) 1 (compact_error error) (payload evt) now) t) evts t in
      mark_events_sent now (map event_id evts) t
  end.

Definition outbox_pending_count (t : tables) : Z :=
  Z.of_nat (length (filter (fun r => o_sent_at r = None) (outbox t))).

(** [outbox_oldest_age_seconds], in microseconds: [now() - min(occurred_at)]
    over the unsent rows, 0 without any. *)
Definition outbox_oldest_age (occurred_at : EventEnvelope -> Z) (now : Z) (t : tables) : Z :=
  match map (fun r => occurred_at (o_event r)) (filter (fun r => o_sent_at r = None) (outbox t)) with
  | [] => 0
  | first :: rest => now - fold_left Z.min rest first
  end.

Definition sent_before (cutoff : Z) (r : outbox_row) : bool :=
  match o_sent_at r with Some at_ => at_ <? cutoff | None => false end.

(** [delete ... where id in (first limit expired)], with the number deleted. *)
Definition delete_sent_outbox_older_than (cutoff : Z) (limit : nat) (t : tables) : tables * nat :=
  let ids := take limit (map o_id (filter (fun r => sent_before cutoff r = true) (outbox t))) in
  (with_outbox t (filter (fun r => o_id r ∉ ids) (outbox t)) (outbox_seq t),
   length (filter (fun r => o_id r ∈ ids) (outbox t))).

Definition stale_unsent (occurred_at : EventEnvelope -> Z) (now cutoff : Z) (r : outbox_row) : bool :=
  is_none (o_sent_at r) && (occurred_at (o_event r) <? cutoff) && lease_available now r.

Definition dead_letter_unsent_outbox_older_than (occurred_at : EventEnvelope -> Z)
    (now cutoff : Z) (limit : nat) (t : tables) : tables * nat :=
  let rows := take limit (filter (fun r => stale_unsent occurred_at now cutoff r = true) (outbox t)) in
  match rows with
  | [] => (t, 0%nat)
  | _ =>
      let t := fold_left (fun t r =>
        let evt := o_event r in
        insert_dead_letter (fun id => open_dead_letter id (event_id evt) (subject evt)
          "outbox-relay:retention" (correlation_id evt) 1
          "unsent outbox exceeded retention window" (payload evt) now) t) rows t in
      let ids := map o_id rows in
      (with_outbox t
         (map (fun r => if bool_decide (o_id r ∈ ids) then settle_row now r else r) (outbox t))
         (outbox_seq t), length rows)
  end.

(** ** The relay *)

(** What publishing one envelope does: succeed, raise a non-retryable error
    ([MaxPayloadError]) or raise anything else (a timeout included). *)
Inductive publish_outcome : Type := Published | NonRetryable (error : string) | Retryable.

Definition NON_RETRYABLE_PUBLISH_ERRORS : list string := ["MaxPayloadError"].

Definition is_non_retryable_publish_error (class_name : string) : bool :=
  bool_decide (class_name ∈ NON_RETRYABLE_PUBLISH_ERRORS).

Definition classify (class_name error : string) : publish_outcome :=
  if is_non_retryable_publish_error class_name then NonRetryable error else Retryable.

(** The [for evt in rows] loop of [run_once].  [published] is what the broker
    accepted; the flag says whether the loop left by raising. *)
Fixpoint relay_loop (now : Z) (consumer_name : string) (publish : EventEnvelope -> publish_outcome)
    (rows : list EventEnvelope) (published : list EventEnvelope) (t : tables)
    : tables * list EventEnvelope * bool :=
  match rows with
  | [] => (t, published, false)
  | evt :: rest =>
      match publish evt with
      | Published => relay_loop now consumer_name publish rest (published ++ [evt]) t
      | NonRetryable error =>
          relay_loop now consumer_name publish rest published
            (mark_events_dead_lettered now [evt] consumer_name error t)
      | Retryable => (t, published, true)
      end
  end.

(** [OutboxRelay.run_once]: the [finally] marks what was published even when
    the loop raised.  Returns the tables, what was published, and the count
    returned ([None] when the call raises). *)
Definition relay_run_once (now : Z) (lease_id : string) (source_filter : option string)
    (batch : nat) (publish : EventEnvelope -> publish_outcome) (t : tables)
    : tables * list EventEnvelope * option nat :=
  let consumer_name := "outbox-relay:" +:+ default "all" source_filter in
  let '(t, rows) := unsent_events now lease_id batch source_filter t in
  let '(t, published, raised) := relay_loop now consumer_name publish rows [] t in
  let t := match published with
           | [] => t
           | _ => mark_events_sent now (map event_id published) t
           end in
  (t, published, if raised then None else Some (length published)).

(** ** What a relay run preserves *)

(** A row keeps its id and event; if it got settled, [ok] says why. *)
Definition row_step (ok : string -> Prop) (r r' : outbox_row) : Prop :=
  o_id r' = o_id r /\ o_event r' = o_event r /\
  (o_sent_at r' = o_sent_at r \/ ok (event_id (o_event r))).

(** An open dead letter of [consumer] for the event. *)
Definition dead_lettered_by (t : tables) (consumer : string) (eid : string) : Prop :=
  exists d, d ∈ dead_letters t /\ d_event_id d = eid /\ d_consumer d = consumer /\ d_status d = OPEN.

Lemma row_step_trans (ok1 ok2 ok3 : string -> Prop) r1 r2 r3 :
  (forall e, ok1 e -> ok3 e) -> (forall e, ok2 e -> ok3 e) ->
  row_step ok1 r1 r2 -> row_step ok2 r2 r3 -> row_step ok3 r1 r3.
Proof.
  intros H1 H2 (E1 & E2 & E3) (F1 & F2 & F3). unfold row_step. rewrite F1, F2, E1, E2 in *.
  split_and!; try done. destruct E3 as [E3|?]; [|by auto]. destruct F3 as [F3|?]; [|by auto].
  left. by rewrite F3.
Qed.

Lemma Forall2_map_r {A} (R : A -> A -> Prop) (f : A -> A) l :
  (forall x, R x (f x)) -> Forall2 R l (map f l).
Proof. intros Hf. induction l; simpl; constructor; auto. Qed.

Lemma Forall2_step_refl ok l : Forall2 (row_step ok) l l.
Proof. induction l; constructor; [by split_and!; auto|done]. Qed.

Lemma Forall2_step_trans (ok1 ok2 ok3 : string -> Prop) l1 l2 l3 :
  (forall e, ok1 e -> ok3 e) -> (forall e, ok2 e -> ok3 e) ->
  Forall2 (row_step ok1) l1 l2 -> Forall2 (row_step ok2) l2 l3 -> Forall2 (row_step ok3) l1 l3.
Proof.
  intros H1 H2 H12. revert l3. induction H12; intros l3 H23; inversion H23; subst; constructor;
    eauto using row_step_trans.
Qed.

Lemma mark_sent_step now ids t :
  Forall2 (row_step (fun e => e ∈ ids)) (outbox t) (outbox (mark_events_sent now ids t)).
Proof.
  apply Forall2_map_r. intros r. case_bool_decide; split_and!; simpl; auto.
Qed.

Lemma unsent_step now lease limit src t :
  Forall2 (row_step (fun _ => False)) (outbox t) (outbox (unsent_events now lease limit src t).1).
Proof.
  apply Forall2_map_r. intros r. case_bool_decide; split_and!; simpl; auto.
Qed.

Lemma dead_lettered_mono t t' c e :
  dead_letters t `prefix_of` dead_letters t' -> dead_lettered_by t c e -> dead_lettered_by t' c e.
Proof.
  intros [rest E] (d & Hd & H). exists d. split; [|done]. rewrite E. apply elem_of_app. by left.
Qed.

Lemma dead_letter_one now evt consumer error t :
  let t' := mark_events_dead_lettered now [evt] consumer error t in
  dead_letters t `prefix_of` dead_letters t' /\ dead_lettered_by t' consumer (event_id evt) /\
  Forall2 (row_step (fun e => e = event_id evt)) (outbox t) (outbox t').
Proof.
  simpl. split_and!.
  - by eexists.
  - eexists. split; [apply elem_of_app; right; by left|done].
  - eapply Forall2_impl; [apply (mark_sent_step now [event_id evt])|].
    intros r r' (?&?&[?|?%list_elem_of_singleton]); split_and!; auto.
Qed.

Lemma relay_loop_spec now consumer publish rows : forall published t t' published' raised,
  relay_loop now consumer publish rows published t = (t', published', raised) ->
  exists new, published' = published ++ new /\ new `sublist_of` rows /\
    dead_letters t `prefix_of` dead_letters t' /\
    Forall2 (row_step (dead_lettered_by t' consumer)) (outbox t) (outbox t').
Proof.
  induction rows as [|evt rows IH]; intros published t t' published' raised Hrun; simpl in Hrun.
  - simplify_eq. exists []. rewrite app_nil_r. split_and!; try done.
    apply Forall2_step_refl.
  - destruct (publish evt) as [|error|].
    + destruct (IH _ _ _ _ _ Hrun) as (new & -> & Hsub & Hpre & Hrows).
      exists (evt :: new). rewrite <- app_assoc. split_and!; [done|by constructor|done|done].
    + destruct (dead_letter_one now evt consumer error t) as (Hp & Hd & Hr).
      destruct (IH _ _ _ _ _ Hrun) as (new & -> & Hsub & Hpre & Hrows).
      exists new. split_and!; [done|by constructor|by etrans|].
      eapply Forall2_step_trans; [|done|exact Hr|exact Hrows].
      intros e ->. by eapply dead_lettered_mono.
    + simplify_eq. exists []. rewrite app_nil_r. split_and!; [done|apply sublist_nil_l|done|].
      apply Forall2_step_refl.
Qed.

Lemma claim_ids_claimable now limit src t r :
  NoDup (map o_id (outbox t)) -> r ∈ outbox t -> o_id r ∈ claim_ids now limit src t ->
  claimable now src r = true.
Proof.
  intros Hnd Hr Hid. unfold claim_ids in Hid. apply (elem_of_take _ _ _) in Hid as (i & Hi & _).
  apply list_elem_of_lookup_2, list_elem_of_fmap in Hi as (r' & Hid & Hr').
  apply list_elem_of_filter in Hr' as [Hc Hr'].
  assert (r = r') as ->; [|done].
  apply list_elem_of_lookup in Hr as [i1 H1]. apply list_elem_of_lookup in Hr' as [i2 H2].
  assert (i1 = i2) as ->; [|congruence].
  eapply NoDup_lookup; [exact Hnd| |]; rewrite list_lookup_fmap, ?H1, ?H2; simpl; by f_equal.
Qed.

Lemma unsent_rows_spec now lease limit src t e :
  NoDup (map o_id (outbox t)) -> e ∈ (unsent_events now lease limit src t).2 ->
  exists r, r ∈ outbox t /\ o_event r = e /\ claimable now src r = true.
Proof.
  intros Hnd He. simpl in He. apply list_elem_of_fmap in He as (r & -> & Hr).
  apply list_elem_of_filter in Hr as [Hid Hr]. exists r. eauto using claim_ids_claimable.
Qed.


Definition sample_event (id : string) : EventEnvelope :=
  {| event_id := id; subject := "evidence.collected"; source := "worker"; correlation_id := "c";
     causation_id := None; created_at := "2026-07-01T00:00:00+00:00"; payload := [];
     schema_version := 1; workspace_id := None |}.

Definition no_tables : tables :=
  {| events := ∅; processing := ∅; outbox := []; outbox_seq := 1; dead_letters := [];
     dead_letter_seq := 1 |}.


Lemma not_claimable_leased now lease until src r :
  now <= until -> claimable now src (lease_row lease until r) = false.
Proof.
  intros Hle. unfold claimable, lease_available. simpl.
  replace (until <? now) with false by (symmetry; apply Z.ltb_ge; lia). by rewrite andb_false_r.
Qed.

(** Two relays never hold the same event: what a second claim returns
    within the lease window of the first is disjoint from what the first
    returned, whatever their sources and batch sizes. *)
Theorem relay_leases_exclusive now1 now2 lease1 lease2 limit1 limit2 src1 src2 t :
  NoDup (map o_id (outbox t)) -> NoDup (map (fun r => event_id (o_event r)) (outbox t)) ->
  now1 <= now2 <= now1 + DEFAULT_OUTBOX_LEASE_SECONDS * SECOND ->
  let first := unsent_events now1 lease1 limit1 src1 t in
  let second := unsent_events now2 lease2 limit2 src2 first.1 in
  forall e1 e2, e1 ∈ first.2 -> e2 ∈ second.2 -> event_id e1 <> event_id e2.
Proof.
  intros Hid Hev Hnow first second e1 e2 H1 H2 Heq.
  assert (NoDup (map o_id (outbox first.1))) as Hid'.
  { unfold first. simpl. rewrite map_map.
    rewrite (map_ext _ o_id); [done|]. intros r. by case_bool_decide. }
  destruct (unsent_rows_spec _ _ _ _ _ _ Hid' H2) as (r2 & Hr2 & <- & Hc2).
  unfold first in Hr2. simpl in Hr2. apply list_elem_of_fmap in Hr2 as (r & -> & Hr).
  simpl in H1. apply list_elem_of_fmap in H1 as (r1 & -> & Hr1).
  apply list_elem_of_filter in Hr1 as [Hin Hr1].
  assert (r = r1) as ->.
  { apply list_elem_of_lookup in Hr as [i Hi]. apply list_elem_of_lookup in Hr1 as [j Hj].
    assert (i = j) as ->; [|congruence].
    eapply NoDup_lookup; [exact Hev| |]; rewrite list_lookup_fmap, ?Hi, ?Hj; simpl; f_equal.
    rewrite Heq. by case_bool_decide. }
  rewrite bool_decide_eq_true_2 in Hc2 by done.
  rewrite not_claimable_leased in Hc2 by lia. done.
Qed.

Lemma relay_leases_exclusive_witness :
  let t := stage_events [sample_event "a"; sample_event "b"] no_tables in
  let first := unsent_events 0 "l1" 1 None t in
  let second := unsent_events 60000000 "l2" 5 None first.1 in
  map event_id first.2 = ["a"] /\ map event_id second.2 = ["b"] /\
  (forall e1 e2, e1 ∈ first.2 -> e2 ∈ second.2 -> event_id e1 <> event_id e2).
Proof.
  split; [vm_compute; reflexivity|]. split; [vm_compute; reflexivity|].
  apply (relay_leases_exclusive 0 60000000 "l1" "l2" 1 5 None None).
  - vm_compute. repeat constructor; set_solver.
  - vm_compute. repeat constructor; set_solver.
  - vm_compute. split; discriminate.
Defined.
