(* ===== verification/EventWorker.v ===== *)
(** The event worker: claim, handle and commit in one transaction, retry or
    dead-letter ([packages/runtime/worker.py], [dispatch.py],
    [packages/events/bus.py], [envelope.py], [context.py]).

    A handler works on the business state [B] inside the transaction; raising
    (or timing out) rolls its writes back.  What the outside does to one
    delivery (a refused transaction, a failing broker, a failing ack) is the
    [faults] record; identifiers and clock texts drawn during a delivery are
    in [draws]. *)

From S2P Require Import Prelude PyString Json EventStore Outbox.

(** [DeadLetterCreatedBody.to_body] for a recorded dead letter. *)
Definition dead_letter_created_body (d : dead_letter_row) (created_at : string)
    (raw_payload : option (odict json)) : odict json :=
  [("dead_letter_id", JInt (d_id d)); ("original_event_id", JStr (d_event_id d));
   ("original_subject", JStr (d_subject d)); ("consumer", JStr (d_consumer d));
   ("attempts", JInt (d_attempts d)); ("error", JStr (d_error d));
   ("created_at", JStr created_at); ("status", JStr "open");
   ("correlation_id", JStr (d_correlation_id d));
   ("payload", match raw_payload with Some p => JObj p | None => JNull end)].

Definition DEAD_LETTER_CREATED : string := "dead_letter.created".

(** ** Routing ([make_router], [_collect]) *)

Definition ALL_EVENTS_SUBJECT : string := ">".

Definition route {H} (handlers : odict H) (evt : EventEnvelope) : option H :=
  match dict_get (subject evt) handlers with
  | Some h => Some h
  | None => dict_get ALL_EVENTS_SUBJECT handlers
  end.

(** [_collect]: a handler's bodies become children of the event, in order. *)
Definition collect (source : string) (evt : EventEnvelope) (current_workspace : option string)
    (bodies : list (string * odict json)) (fresh : list (string * string)) : list EventEnvelope :=
  zip_with (fun body id_time =>
    make_event id_time.1 id_time.2 current_workspace body.1 source body.2
      (Some (correlation_id evt)) (Some (event_id evt)) (workspace_id evt)) bodies fresh.

(** ** Retry policy and deployment check *)

Record EventRetryPolicy : Type := {
  max_attempts : Z;
  retry_delay_seconds : Z;
  fetch_batch_size : Z;
  handler_timeout_seconds : Z;
  dead_letter_timeout_seconds : Z;
  max_concurrency : Z;
}.

(** [validate_event_timing_contract]: [None] is a normal return. *)
Definition validate_event_timing_contract (handler_timeout ack_wait stale : Z) : result string unit :=
  if (handler_timeout <? ack_wait) && (ack_wait <? stale) then Ok ()
  else Err "unsafe event timing contract".

Definition durable_name (service_name : string) (name : option string) : string :=
  match name with None => service_name | Some n => service_name +:+ "-" +:+ n end.

(** ** Processing one message *)

Inductive settlement : Type := Ack | Nak (delay : Z).

(** [process] settles the message or lets an exception escape. *)
Inductive outcome : Type := Settled (s : settlement) | Raised.

Record faults : Type := {
  claim_fails : bool;        (* the claim transaction raises *)
  commit_fails : option string;  (* staging or commit raises this error *)
  record_fails : bool;       (* the dead letter insert raises or times out *)
  emit_fails : bool;         (* publishing the dead letter notice raises *)
  ledger_fails : bool;       (* the ledger update after a failure raises *)
  ack_fails : bool;          (* the broker refuses the ack *)
}.

Definition no_faults : faults :=
  {| claim_fails := false; commit_fails := None; record_fails := false; emit_fails := false;
     ledger_fails := false; ack_fails := false |}.

Record draws : Type := {
  now_claim : Z; now_commit : Z; now_fail : Z;
  duration_ms : Z;
  fresh_raw_id : string; fresh_event_id : string; now_iso : string; created_iso : string;
}.

Section Worker.
Context {B M : Type}.
Context (service_name : string) (policy : EventRetryPolicy) (stale_seconds : Z).
(** The codec, and the text [raw.decode(errors="replace")] of a message. *)
Context (decode : M -> result string EventEnvelope) (raw_text : M -> string).
(** The handler with its business writes; [Err] is a raise or a timeout. *)
Context (handler : EventEnvelope -> B -> result string (B * list EventEnvelope)).

(** The database (tables and business state) and what the broker accepted. *)
Record world : Type := { db : tables; business : B; stream : list EventEnvelope }.

Definition set_db (w : world) (t : tables) : world :=
  {| db := t; business := business w; stream := stream w |}.

Definition last_dead_letter (t : tables) : option dead_letter_row := last (dead_letters t).

(** [RecordedEventClient.emit]: publish, then record. *)
Definition emit (d : draws) (evt : EventEnvelope) (w : world) : world :=
  {| db := record_event (now_fail d) evt (db w); business := business w;
     stream := stream w ++ [evt] |}.

(** The notice of [DeadLetterSink]; [emit]'s causation is [causation_id or
    CURRENT_CAUSATION_ID], the latter unset outside a handler.  The row is committed before the notice is
    published, so a failing broker leaves the row behind. *)
Definition capture_notice (f : faults) (d : draws) (w : world) (current_workspace : option string)
    (raw_payload : option (odict json)) (correlation causation : option string) : world * bool :=
  match last_dead_letter (db w) with
  | None => (w, false)
  | Some row =>
      if emit_fails f then (w, false)
      else (emit d (make_event (fresh_event_id d) (now_iso d) current_workspace DEAD_LETTER_CREATED
                      service_name (dead_letter_created_body row (created_iso d) raw_payload)
                      correlation (causation ≫= non_empty) None) w, true)
  end.

Definition capture (f : faults) (d : draws) (evt : EventEnvelope) (error : string) (attempts : Z)
    (w : world) : world * bool :=
  if record_fails f then (w, false)
  else
    let w := set_db w (record_dead_letter (now_fail d) evt service_name error attempts (db w)) in
    capture_notice f d w (normalized_workspace_id (workspace_id evt)) None
      (Some (correlation_id evt)) (Some (event_id evt)).

Definition capture_raw (f : faults) (d : draws) (m : M) (error : string) (w : world) : world * bool :=
  if record_fails f then (w, false)
  else
    let id := "decode-failure:" +:+ fresh_raw_id d in
    let w := set_db w (record_raw_dead_letter (now_fail d) (fresh_raw_id d) (raw_text m)
                         service_name error (db w)) in
    capture_notice f d w None (Some [("raw", JStr (raw_text m))]) (Some id) (Some id).

Definition nak : outcome := Settled (Nak (retry_delay_seconds policy)).
Definition ack (f : faults) : outcome := if ack_fails f then Raised else Settled Ack.

(** A ledger update after a failure, then the settlement. *)
Definition settle_after (f : faults) (t : tables) (o : outcome) (w : world) : world * outcome :=
  if ledger_fails f then (w, Raised) else (set_db w t, o).

(** [EventProcessor.fail]. *)
Definition fail (f : faults) (d : draws) (evt : EventEnvelope) (error : string) (attempts : Z)
    (w : world) : world * outcome :=
  let retry w :=
    settle_after f (ledger_retry (now_fail d) evt service_name error (Some (duration_ms d)) (db w))
      nak w in
  if max_attempts policy <=? attempts then
    let '(w, captured) := capture f d evt error attempts w in
    if captured then
      settle_after f
        (ledger_dead_letter (now_fail d) evt service_name error (Some (duration_ms d)) (db w))
        (ack f) w
    else retry w
  else retry w.

(** The transaction of step 2: handler writes, staged events and the ledger's
    completion commit together or not at all. *)
Definition work (f : faults) (d : draws) (evt : EventEnvelope) (w : world) : result string world :=
  '(business', outbox_events) ← handler evt (business w);
  match commit_fails f with
  | Some error => Err error
  | None =>
      let t := stage_events outbox_events (db w) in
      Ok {| db := ledger_finish (now_commit d) evt service_name (Some (duration_ms d)) t;
            business := business'; stream := stream w |}
  end.

(** [EventProcessor.process]. *)
Definition process (f : faults) (d : draws) (m : M) (w : world) : world * outcome :=
  match decode m with
  | Err error =>
      let '(w, captured) := capture_raw f d m error w in
      if captured then (w, ack f) else (w, nak)
  | Ok evt =>
      if claim_fails f then (w, Raised)
      else
        let '(t, record) := ledger_begin stale_seconds (now_claim d) evt service_name (db w) in
        let w := set_db w t in
        match status record with
        | Stored PROCESSING =>
            match work f d evt w with
            | Ok w => (w, ack f)
            | Err error => fail f d evt error (attempts record) w
            end
        | Stored (PROCESSED | DEAD_LETTERED) => (w, ack f)
        | Stored RETRYING | CLAIM_BLOCKED | Unknown => (w, nak)
        end
  end.

(** [consume_subject]: an exception out of [process] is a nak; a stopping
    worker naks without processing. *)
Definition consume (stopping : bool) (f : faults) (d : draws) (m : M) (w : world)
    : world * settlement :=
  if stopping then (w, Nak (retry_delay_seconds policy))
  else match process f d m w with
       | (w, Settled s) => (w, s)
       | (w, Raised) => (w, Nak (retry_delay_seconds policy))
       end.

(** ** One delivery *)

Definition row_of (w : world) (evt : EventEnvelope) : option processing_row :=
  processing (db w) !! (event_id evt, service_name).

(** Every dead-lettered ledger row has its dead letter. *)
Definition dead_letters_complete (t : tables) : Prop :=
  forall id consumer r, processing t !! (id, consumer) = Some r -> p_status r = DEAD_LETTERED ->
    exists d, d ∈ dead_letters t /\ d_event_id d = id /\ d_consumer d = consumer.

Lemma stage_events_other evts t :
  processing (stage_events evts t) = processing t /\ dead_letters (stage_events evts t) = dead_letters t.
Proof.
  unfold stage_events. revert t. induction evts as [|e evts IH]; intros t; simpl; [done|].
  destruct (IH (stage_event t e)) as [-> ->]. unfold stage_event. by case_match.
Qed.

Lemma record_event_other now evt t :
  processing (record_event now evt t) = processing t /\
  dead_letters (record_event now evt t) = dead_letters t /\
  outbox (record_event now evt t) = outbox t /\
  outbox_seq (record_event now evt t) = outbox_seq t.
Proof. unfold record_event. by case_match. Qed.

(** What claiming does to the ledger: a fresh or reclaimed row is the only
    way to a [PROCESSING] record, and nothing else changes. *)
Lemma ledger_begin_spec now evt t t' rec :
  ledger_begin stale_seconds now evt service_name t = (t', rec) ->
  let key := (event_id evt, service_name) in
  dead_letters t' = dead_letters t /\
  (outbox t' = outbox t /\ outbox_seq t' = outbox_seq t) /\
  ((status rec = Stored PROCESSING /\
    exists r, processing t' = <[key := r]> (processing t) /\ p_status r = PROCESSING /\
      p_attempts r = attempts rec /\ p_updated_at r = now /\
      match processing t !! key with
      | None => attempts rec = 1
      | Some r0 => reclaimable stale_seconds now r0 = true /\ attempts rec = p_attempts r0 + 1
      end) \/
   (status rec <> Stored PROCESSING /\ processing t' = processing t /\
    exists r0, processing t !! key = Some r0 /\
      (forall s, status rec = Stored s -> s = p_status r0))).
Proof.
  unfold ledger_begin, begin_event_processing, claim_event_processing.
  destruct (record_event_other now evt t) as (Hp & Hd & Ho). rewrite ?Hp.
  destruct (processing t !! (event_id evt, service_name)) as [r|] eqn:Hr.
  - destruct (reclaimable stale_seconds now r) eqn:Hre.
    + intros [= <- <-]. simpl. split; [done|]. split; [done|]. left. eauto 10.
    + rewrite Hp, Hr. intros [= <- <-]. simpl. split; [done|]. split; [done|]. right.
      split_and!; [case_decide; congruence|done|]. exists r. split; [done|].
      intros s. case_decide; [done|]. by intros [=].
  - intros [= <- <-]. simpl. split; [done|]. split; [done|]. left. eauto 10.
Qed.

Lemma capture_spec f d evt error n w w' b :
  capture f d evt error n w = (w', b) ->
  processing (db w') = processing (db w) /\ business w' = business w /\
  outbox (db w') = outbox (db w) /\ dead_letters (db w) `prefix_of` dead_letters (db w') /\
  (b = true -> exists r, r ∈ dead_letters (db w') /\ d_event_id r = event_id evt /\
                 d_consumer r = service_name /\ d_status r = OPEN /\ d_attempts r = n).
Proof.
  unfold capture, capture_notice, last_dead_letter. destruct (record_fails f).
  { by intros [= <- <-]. }
  simpl. rewrite last_snoc. destruct (emit_fails f).
  { intros [= <- <-]. simpl. split_and!; [done..|by eexists|done]. }
  intros [= <- <-]. simpl.
  set (e := make_event _ _ _ _ _ _ _ _ _).
  match goal with |- context [record_event ?n e ?t] => destruct (record_event_other n e t) as (-> & -> & -> & _) end.
  simpl. split_and!; [done..|by eexists|].
  intros _. eexists. split; [apply elem_of_app; right; by left|done].
Qed.

Lemma capture_raw_spec f d m error w w' b :
  capture_raw f d m error w = (w', b) ->
  processing (db w') = processing (db w) /\ business w' = business w /\
  outbox (db w') = outbox (db w) /\ dead_letters (db w) `prefix_of` dead_letters (db w') /\
  (b = true -> exists r, r ∈ dead_letters (db w') /\ d_subject r = RAW_DEAD_LETTER_SUBJECT /\
                 d_payload r = [("raw", JStr (raw_text m))]).
Proof.
  unfold capture_raw, capture_notice, last_dead_letter. destruct (record_fails f).
  { by intros [= <- <-]. }
  simpl. rewrite last_snoc. destruct (emit_fails f).
  { intros [= <- <-]. simpl. split_and!; [done..|by eexists|done]. }
  intros [= <- <-]. simpl.
  set (e := make_event _ _ _ _ _ _ _ _ _).
  match goal with |- context [record_event ?n e ?t] => destruct (record_event_other n e t) as (-> & -> & -> & _) end.
  simpl. split_and!; [done..|by eexists|].
  intros _. eexists. split; [apply elem_of_app; right; by left|done].
Qed.

(** [fail] touches one ledger row at most, never to [PROCESSED]; it acks only
    after recording a dead letter. *)
Definition fail_effect (d : draws) (evt : EventEnvelope) (error : string) (n : Z) (w w' : world)
    (o : outcome) : Prop :=
  business w' = business w /\ outbox (db w') = outbox (db w) /\
  dead_letters (db w) `prefix_of` dead_letters (db w') /\
  ((processing (db w') = processing (db w) /\ o = Raised) \/
   (exists s, processing (db w') =
        alter (update_row s (Some (compact_error error)) (Some (duration_ms d)) (now_fail d))
          (event_id evt, service_name) (processing (db w)) /\
      ((s = RETRYING /\ o = nak) \/
       (s = DEAD_LETTERED /\ (o = Settled Ack \/ o = Raised) /\ max_attempts policy <= n /\
        exists r, r ∈ dead_letters (db w') /\ d_event_id r = event_id evt /\
          d_consumer r = service_name)))).

Lemma retry_effect f d evt error n w w1 w' o :
  business w1 = business w -> outbox (db w1) = outbox (db w) ->
  processing (db w1) = processing (db w) ->
  dead_letters (db w) `prefix_of` dead_letters (db w1) ->
  settle_after f (ledger_retry (now_fail d) evt service_name error (Some (duration_ms d)) (db w1))
    nak w1 = (w', o) ->
  fail_effect d evt error n w w' o.
Proof.
  intros Hb Ho Hp Hd. unfold settle_after. destruct (ledger_fails f); intros [= <- <-].
  - split_and!; [done..|by left].
  - split_and!; simpl; [done..|]. right. exists RETRYING. rewrite Hp.
    split; [done|left; split; reflexivity].
Qed.

Lemma fail_spec f d evt error n w w' o :
  fail f d evt error n w = (w', o) -> fail_effect d evt error n w w' o.
Proof.
  intros Hf. unfold fail in Hf.
  destruct (max_attempts policy <=? n) eqn:Hmax; [|by apply (retry_effect f d evt error n w w)].
  bool_to_prop. destruct (capture f d evt error n w) as [w1 captured] eqn:Hc.
  destruct (capture_spec _ _ _ _ _ _ _ _ Hc) as (Hp & Hb & Ho & Hd & Hrec).
  destruct captured; [|by apply (retry_effect f d evt error n w w1)].
  destruct (Hrec eq_refl) as (r & Hr & He & Hcons & _).
  unfold settle_after in Hf. destruct (ledger_fails f); injection Hf as <- <-.
  - split_and!; [done..|by left].
  - split_and!; simpl; [done..|]. right. exists DEAD_LETTERED. rewrite Hp. split; [done|right].
    split_and!; [done|unfold ack; case_match; auto|done|by exists r].
Qed.

Lemma work_spec f d evt w w' :
  work f d evt w = Ok w' ->
  exists b evts, handler evt (business w) = Ok (b, evts) /\ commit_fails f = None /\
    business w' = b /\ outbox (db w') = outbox (stage_events evts (db w)) /\
    dead_letters (db w') = dead_letters (db w) /\
    processing (db w') = alter (update_row PROCESSED None (Some (duration_ms d)) (now_commit d))
                           (event_id evt, service_name) (processing (db w)).
Proof.
  unfold work. destruct (handler evt (business w)) as [[b evts]|]; simpl; [|done].
  destruct (commit_fails f); [done|]. intros [= <-]. exists b, evts.
  destruct (stage_events_other evts (db w)) as [Hp Hd].
  split_and!; simpl; rewrite ?Hp, ?Hd; done.
Qed.

(** The row of the event after an [alter] of it, and of others. *)
Lemma alter_row_Some (f : processing_row -> processing_row) (p : gmap (string * string) processing_row)
    key r : p !! key = Some r -> alter f key p !! key = Some (f r).
Proof. intros H. by rewrite lookup_alter_eq, H. Qed.

Lemma dead_letters_complete_alter t t' key g :
  dead_letters_complete t -> dead_letters t `prefix_of` dead_letters t' ->
  processing t' = alter g key (processing t) ->
  (forall r, p_status (g r) = DEAD_LETTERED ->
     exists d, d ∈ dead_letters t' /\ d_event_id d = key.1 /\ d_consumer d = key.2) ->
  dead_letters_complete t'.
Proof.
  intros Hc [rest Hd] Hp Hg id consumer r Hr Hs. rewrite Hp in Hr.
  destruct (decide (key = (id, consumer))) as [->|Hne].
  - rewrite lookup_alter_eq in Hr. destruct (processing t !! (id, consumer)); simplify_eq/=. eauto.
  - rewrite lookup_alter_ne in Hr by done. destruct (Hc _ _ _ Hr Hs) as (dl & ? & ?).
    exists dl. split; [|done]. rewrite Hd. apply elem_of_app. by left.
Qed.

Lemma dead_letters_complete_same t t' :
  dead_letters_complete t -> dead_letters t `prefix_of` dead_letters t' ->
  processing t' = processing t -> dead_letters_complete t'.
Proof.
  intros Hc [rest Hd] Hp id consumer r Hr Hs. rewrite Hp in Hr.
  destruct (Hc _ _ _ Hr Hs) as (dl & ? & ?). exists dl. split; [|done].
  rewrite Hd. apply elem_of_app. by left.
Qed.

Lemma dead_letters_complete_begin now evt t t' rec :
  ledger_begin stale_seconds now evt service_name t = (t', rec) ->
  dead_letters_complete t -> dead_letters_complete t'.
Proof.
  intros Hb Hc. destruct (ledger_begin_spec _ _ _ _ _ Hb) as (Hd & _ & [(_ & r & Hp & Hs & _)|(_ & Hp & _)]).
  - intros id consumer r' Hr' Hs'. rewrite Hp in Hr'.
    apply lookup_insert_Some in Hr' as [[_ <-]|[_ Hr']]; [congruence|].
    destruct (Hc _ _ _ Hr' Hs') as (dl & ? & ?). exists dl. by rewrite Hd.
  - eapply dead_letters_complete_same; [done| |done]. by rewrite Hd.
Qed.

(** Everything one delivery of a decodable message can do. *)
Inductive delivery (evt : EventEnvelope) (w w' : world) (o : outcome) : Prop :=
| delivery_blocked :      (* claim refused or not obtained: try again later *)
    business w' = business w -> outbox (db w') = outbox (db w) -> o <> Settled Ack ->
    delivery evt w w' o
| delivery_duplicate r :  (* already settled: acked without running the handler *)
    business w' = business w -> outbox (db w') = outbox (db w) ->
    row_of w evt = Some r -> row_of w' evt = Some r -> p_status r ∈ TERMINAL_STATUSES ->
    delivery evt w w' o
| delivery_committed b evts r :
    handler evt (business w) = Ok (b, evts) -> business w' = b ->
    outbox (db w') = outbox (stage_events evts (db w)) ->
    (forall r0, row_of w evt = Some r0 -> p_status r0 ∉ TERMINAL_STATUSES) ->
    row_of w' evt = Some r -> p_status r = PROCESSED ->
    delivery evt w w' o
| delivery_failed r :     (* nothing of the work is kept *)
    business w' = business w -> outbox (db w') = outbox (db w) ->
    (forall r0, row_of w evt = Some r0 -> p_status r0 ∉ TERMINAL_STATUSES) ->
    row_of w' evt = Some r -> p_status r <> PROCESSED ->
    (o = Settled Ack -> p_status r = DEAD_LETTERED) ->
    delivery evt w w' o.

Lemma reclaimable_open now r : reclaimable stale_seconds now r = true -> p_status r ∉ TERMINAL_STATUSES.
Proof. unfold reclaimable. intros H. bool_to_prop. done. Qed.

Lemma stage_events_ext evts t1 t2 :
  outbox t1 = outbox t2 -> outbox_seq t1 = outbox_seq t2 ->
  outbox (stage_events evts t1) = outbox (stage_events evts t2).
Proof.
  unfold stage_events. revert t1 t2. induction evts as [|e evts IH]; intros t1 t2 Ho Hs; simpl; [done|].
  apply IH; unfold stage_event; rewrite Ho; case_match; simpl; by rewrite ?Hs.
Qed.

(** [process] on a decodable message always ends in one of the four cases,
    and keeps every dead-lettered row covered by a dead letter. *)
Lemma process_cases f d m evt w w' o :
  decode m = Ok evt -> process f d m w = (w', o) -> delivery evt w w' o.
Proof.
  intros Hdec Hp. unfold process in Hp. rewrite Hdec in Hp.
  destruct (claim_fails f). { simplify_eq. by apply delivery_blocked. }
  destruct (ledger_begin stale_seconds (now_claim d) evt service_name (db w)) as [t rec] eqn:Hb.
  destruct (ledger_begin_spec _ _ _ _ _ Hb) as (Hd & (Ho & Hq) & [Hclaim|Hkeep]).
  - destruct Hclaim as (Hs & r & Hrow & Hrs & _ & _ & Hprev). rewrite Hs in Hp.
    assert (Hopen : forall r0, row_of w evt = Some r0 -> p_status r0 ∉ TERMINAL_STATUSES).
    { intros r0 Hr0. unfold row_of in Hr0. rewrite Hr0 in Hprev. destruct Hprev.
      by eapply reclaimable_open. }
    assert (Hr : processing t !! (event_id evt, service_name) = Some r)
      by (rewrite Hrow; apply lookup_insert_eq).
    destruct (work f d evt (set_db w t)) as [w1|error] eqn:Hw.
    + injection Hp as <- <-.
      destruct (work_spec _ _ _ _ _ Hw) as (b & evts & Hh & _ & Hb' & Ho' & _ & Hpr).
      eapply (delivery_committed _ _ _ _ b evts); [done|done| |done| |].
      * rewrite Ho'. by apply stage_events_ext.
      * unfold row_of. rewrite Hpr. simpl. by rewrite lookup_alter_eq, Hr.
      * done.
    + destruct (fail_spec _ _ _ _ _ _ _ _ Hp) as (Hb' & Ho' & _ & [(Hpr & ->)|(s & Hpr & Hcase)]).
      * eapply (delivery_failed _ _ _ _ r); [done|by rewrite Ho'|done| | |done].
        { unfold row_of. by rewrite Hpr. }
        by rewrite Hrs.
      * eapply (delivery_failed _ _ _ _ (update_row s _ _ _ r));
          [done|by rewrite Ho'|done| | |].
        { unfold row_of. rewrite Hpr. simpl. by rewrite lookup_alter_eq, Hr. }
        { simpl. naive_solver. }
        { simpl. unfold nak in Hcase. naive_solver. }
  - destruct Hkeep as (Hs & Hrow & r0 & Hr0 & Hst).
    destruct (status rec) as [[]| |] eqn:Hrec; try done; injection Hp as <- <-.
    + eapply (delivery_duplicate _ _ _ _ r0); simpl; try done.
      * unfold row_of. simpl. by rewrite Hrow.
      * rewrite <- (Hst _ eq_refl). by left.
    + by apply delivery_blocked.
    + eapply (delivery_duplicate _ _ _ _ r0); simpl; try done.
      * unfold row_of. simpl. by rewrite Hrow.
      * rewrite <- (Hst _ eq_refl). right. by left.
    + by apply delivery_blocked.
    + by apply delivery_blocked.
Qed.

Lemma process_complete f d m w w' o :
  process f d m w = (w', o) -> dead_letters_complete (db w) -> dead_letters_complete (db w').
Proof.
  intros Hp Hc. unfold process in Hp. destruct (decode m) as [evt|error].
  - destruct (claim_fails f). { by simplify_eq. }
    destruct (ledger_begin stale_seconds (now_claim d) evt service_name (db w)) as [t rec] eqn:Hb.
    pose proof (dead_letters_complete_begin _ _ _ _ _ Hb Hc) as Hct.
    assert (Hgo : match work f d evt (set_db w t) with
                  | Ok w => (w, ack f)
                  | Err error => fail f d evt error (attempts rec) (set_db w t)
                  end = (w', o) -> dead_letters_complete (db w')).
    { destruct (work f d evt (set_db w t)) as [w1|error] eqn:Hw.
      - intros [= <- <-]. destruct (work_spec _ _ _ _ _ Hw) as (b & evts & _ & _ & _ & _ & Hdl & Hpr).
        eapply (dead_letters_complete_alter t); [done| |exact Hpr|by intros r].
        by rewrite Hdl.
      - intros Hf. destruct (fail_spec _ _ _ _ _ _ _ _ Hf) as (_ & _ & Hpre & [(Hpr & _)|(s & Hpr & Hcase)]).
        + by eapply (dead_letters_complete_same t).
        + eapply (dead_letters_complete_alter t); [done|done|exact Hpr|].
          simpl. intros r ->. naive_solver. }
    destruct (status rec) as [[]| |]; try by injection Hp as <- <-. by apply Hgo.
  - destruct (capture_raw f d m error w) as [w1 b] eqn:Hraw.
    destruct (capture_raw_spec _ _ _ _ _ _ _ Hraw) as (Hpr & _ & _ & Hpre & _).
    assert (w' = w1) as -> by (destruct b; by injection Hp as <- <-).
    by eapply dead_letters_complete_same.
Qed.

(** ** Delivery guarantees *)

(** C2. A message leaves the broker only when it is durably accounted for: if
    a delivery ends in an ack, whatever faults occurred, the event's ledger
    row is terminal, and a dead-lettered row has its dead letter; an
    undecodable message is acked only after its raw text is in the dead
    letters.  The dead-letter coverage is an invariant of every delivery. *)
Theorem ack_is_durable stopping f d m w w' :
  dead_letters_complete (db w) ->
  consume stopping f d m w = (w', Ack) ->
  dead_letters_complete (db w') /\
  match decode m with
  | Ok evt => exists r, row_of w' evt = Some r /\ p_status r ∈ TERMINAL_STATUSES
  | Err _ => exists r, r ∈ dead_letters (db w') /\ d_subject r = RAW_DEAD_LETTER_SUBJECT /\
               d_payload r = [("raw", JStr (raw_text m))]
  end.
Proof.
  intros Hc Hrun. unfold consume in Hrun. destruct stopping; [done|].
  destruct (process f d m w) as [w1 o] eqn:Hp.
  destruct o as [s|]; [|done]. injection Hrun as -> ->.
  split; [by eapply process_complete|]. destruct (decode m) as [evt|error] eqn:Hdec.
  - destruct (process_cases _ _ _ _ _ _ _ Hdec Hp) as [| |b evts r _ _ _ _ Hr Hdone|r _ _ _ Hr _ Hack].
    + done.
    + eauto.
    + exists r. split; [done|]. rewrite Hdone. by left.
    + exists r. split; [done|]. rewrite Hack by done. right. by left.
  - unfold process in Hp. rewrite Hdec in Hp.
    destruct (capture_raw f d m error w) as [w1 b] eqn:Hraw.
    destruct (capture_raw_spec _ _ _ _ _ _ _ Hraw) as (_ & _ & _ & _ & Hb).
    destruct b; [|done]. injection Hp as -> _. by apply Hb.
Qed.

(** C4. The handler's effects are all-or-nothing and guarded by the ledger: a
    delivery either leaves the business state and the outbox exactly as they
    were, or it commits the handler's result with all the events it returned
    and marks the event processed; and it does so only if the event was not
    settled before. *)
Theorem delivery_atomic stopping f d m w w' s :
  consume stopping f d m w = (w', s) ->
  (business w' = business w /\ outbox (db w') = outbox (db w)) \/
  (exists evt b evts r, decode m = Ok evt /\ handler evt (business w) = Ok (b, evts) /\
     business w' = b /\ outbox (db w') = outbox (stage_events evts (db w)) /\
     (forall r0, row_of w evt = Some r0 -> p_status r0 ∉ TERMINAL_STATUSES) /\
     row_of w' evt = Some r /\ p_status r = PROCESSED).
Proof.
  intros Hrun. unfold consume in Hrun. destruct stopping; [injection Hrun as <- _; by left|].
  destruct (process f d m w) as [w1 o] eqn:Hp.
  assert (w1 = w') as -> by (destruct o; by injection Hrun). clear Hrun.
  destruct (decode m) as [evt|error] eqn:Hdec.
  - destruct (process_cases _ _ _ _ _ _ _ Hdec Hp); [by left|by left| |by left].
    right. exists evt, b, evts, r. split_and!; done.
  - unfold process in Hp. rewrite Hdec in Hp.
    destruct (capture_raw f d m error w) as [w2 b] eqn:Hraw.
    destruct (capture_raw_spec _ _ _ _ _ _ _ Hraw) as (_ & Hb & Ho & _ & _).
    assert (w' = w2) as -> by (destruct b; by injection Hp as <- _). by left.
Qed.

(** Redelivery of one message by the broker, without faults. *)
Fixpoint redeliver (ds : list draws) (m : M) (w : world) : world * list settlement :=
  match ds with
  | [] => (w, [])
  | d :: ds =>
      let '(w, s) := consume false no_faults d m w in
      let '(w, rest) := redeliver ds m w in
      (w, s :: rest)
  end.

(** The event's ledger row after [k] failed attempts. *)
Definition failed_times (k : Z) (w : world) (evt : EventEnvelope) : Prop :=
  match row_of w evt with
  | None => k = 0
  | Some r => p_status r = RETRYING /\ p_attempts r = k
  end.

Lemma failed_times_claim k w evt now t rec :
  failed_times k w evt -> ledger_begin stale_seconds now evt service_name (db w) = (t, rec) ->
  status rec = Stored PROCESSING /\ attempts rec = k + 1 /\
  exists r, processing t !! (event_id evt, service_name) = Some r /\ p_attempts r = k + 1.
Proof.
  unfold failed_times, row_of. intros Hk Hb.
  destruct (ledger_begin_spec _ _ _ _ _ Hb) as (_ & _ & [(Hs & r & Hp & _ & Ha & _ & Hprev)|(Hs & Hp & r0 & Hr0 & Hst)]).
  - destruct (processing (db w) !! (event_id evt, service_name)) as [r0|]; simplify_eq.
    + destruct Hk, Hprev as [_ Hatt]. split_and!; [done|lia|]. exists r. rewrite Hp, lookup_insert_eq.
      split; [done|lia].
    + split_and!; [done|lia|]. exists r. rewrite Hp, lookup_insert_eq. split; [done|lia].
  - rewrite Hr0 in Hk. destruct Hk as [Hrs _]. exfalso. revert Hb. unfold ledger_begin,
      begin_event_processing, claim_event_processing.
    destruct (record_event_other now evt (db w)) as (-> & _). rewrite Hr0.
    replace (reclaimable stale_seconds now r0) with true.
    + intros [= <- <-]. done.
    + unfold reclaimable. rewrite Hrs. done.
Qed.

Lemma fail_once k d m evt w :
  decode m = Ok evt -> (forall b, exists e, handler evt b = Err e) -> failed_times k w evt ->
  exists w' r, row_of w' evt = Some r /\ p_attempts r = k + 1 /\ business w' = business w /\
    (if max_attempts policy <=? k + 1
     then consume false no_faults d m w = (w', Ack) /\ p_status r = DEAD_LETTERED /\
          exists dl, dl ∈ dead_letters (db w') /\ d_event_id dl = event_id evt /\
            d_consumer dl = service_name
     else consume false no_faults d m w = (w', Nak (retry_delay_seconds policy)) /\
          p_status r = RETRYING).
Proof.
  intros Hdec Hh Hk.
  destruct (ledger_begin stale_seconds (now_claim d) evt service_name (db w)) as [t rec] eqn:Hb.
  destruct (failed_times_claim _ _ _ _ _ _ Hk Hb) as (Hs & Ha & r & Hr & Hra).
  destruct (Hh (business w)) as [error He].
  assert (Hproc : process no_faults d m w = fail no_faults d evt error (k + 1) (set_db w t)).
  { unfold process. rewrite Hdec. simpl. rewrite Hb, Hs, Ha. unfold work. simpl. by rewrite He. }
  destruct (fail no_faults d evt error (k + 1) (set_db w t)) as [w' o] eqn:Hf.
  pose proof (fail_spec _ _ _ _ _ _ _ _ Hf) as (Hbus & _ & _ & Hcase).
  assert (Hcons : consume false no_faults d m w
                  = match o with Settled s => (w', s) | Raised => (w', Nak (retry_delay_seconds policy)) end).
  { unfold consume. rewrite Hproc. by destruct o. }
  unfold fail in Hf. destruct (max_attempts policy <=? k + 1) eqn:Hmax.
  - unfold capture, capture_notice, last_dead_letter in Hf. simpl in Hf.
    rewrite last_snoc in Hf. simpl in Hf. unfold settle_after, ack in Hf. simpl in Hf.
    assert (o = Settled Ack) as -> by congruence.
    destruct Hcase as [[_ ?]|(s & Hpr & [[_ ?]|(-> & _ & _ & Hdl)])]; [done|done|].
    exists w', (update_row DEAD_LETTERED (Some (compact_error error)) (Some (duration_ms d)) (now_fail d) r).
    split_and!; [|done|done|done|done|done]. unfold row_of. rewrite Hpr. simpl.
    by rewrite lookup_alter_eq, Hr.
  - unfold settle_after in Hf. simpl in Hf. assert (o = nak) as -> by congruence.
    destruct Hcase as [[_ ?]|(s & Hpr & [[-> _]|(_ & [?|?] & _)])]; [done| |done|done].
    exists w', (update_row RETRYING (Some (compact_error error)) (Some (duration_ms d)) (now_fail d) r).
    split_and!; [|done|done|done|done]. unfold row_of. rewrite Hpr. simpl.
    by rewrite lookup_alter_eq, Hr.
Qed.

Lemma retries_from k m evt : forall ds w,
  decode m = Ok evt -> (forall b, exists e, handler evt b = Err e) -> failed_times k w evt ->
  0 <= k < max_attempts policy -> Z.of_nat (length ds) = max_attempts policy - k ->
  exists w' r, redeliver ds m w
      = (w', repeat (Nak (retry_delay_seconds policy)) (length ds - 1) ++ [Ack]) /\
    row_of w' evt = Some r /\ p_status r = DEAD_LETTERED /\ p_attempts r = max_attempts policy /\
    business w' = business w /\
    exists dl, dl ∈ dead_letters (db w') /\ d_event_id dl = event_id evt /\
      d_consumer dl = service_name.
Proof.
  intros ds. revert k. induction ds as [|d ds IH]; intros k w Hdec Hh Hk Hlt Hlen; [simpl in Hlen; lia|].
  destruct (fail_once k d m evt w Hdec Hh Hk) as (w1 & r & Hr & Ha & Hb & Hcase).
  cbn [redeliver].
  destruct (max_attempts policy <=? k + 1) eqn:Hmax; bool_to_prop.
  - destruct Hcase as (-> & Hs & dl & ?). destruct ds; simpl in Hlen; [|lia]. simpl.
    exists w1, r. split_and!; [done|done|done|lia|done|by exists dl].
  - destruct Hcase as (-> & Hs). destruct ds as [|d' ds]; [simpl in Hlen; lia|].
    destruct (IH (k + 1) w1) as (w' & r' & Hred & H'); [done|done| |lia|simpl in *; lia|].
    { unfold failed_times. by rewrite Hr. }
    rewrite Hred. exists w', r'. rewrite Hb in H'. split; [|done].
    simpl. by rewrite Nat.sub_0_r.
Qed.

(** C6. Retries are bounded and end in the dead letters: a message whose
    handler always fails is nacked with the policy's delay on each of the
    first [max_attempts - 1] deliveries and acked on the last one, when its
    row is dead-lettered with exactly [max_attempts] attempts, its dead letter
    exists and the business state is untouched. *)
Theorem retries_exhaust ds m evt w :
  decode m = Ok evt -> (forall b, exists e, handler evt b = Err e) ->
  row_of w evt = None -> 1 <= max_attempts policy ->
  Z.of_nat (length ds) = max_attempts policy ->
  exists w' r, redeliver ds m w
      = (w', repeat (Nak (retry_delay_seconds policy)) (length ds - 1) ++ [Ack]) /\
    row_of w' evt = Some r /\ p_status r = DEAD_LETTERED /\ p_attempts r = max_attempts policy /\
    business w' = business w /\
    exists dl, dl ∈ dead_letters (db w') /\ d_event_id dl = event_id evt /\
      d_consumer dl = service_name.
Proof.
  intros Hdec Hh Hr Hm Hlen. apply (retries_from 0); [done|done| |lia|lia].
  unfold failed_times. by rewrite Hr.
Qed.

(** ** Concurrent workers

    Several instances of the service share the database.  Each transaction of
    [process] is one step; [working] holds what an instance claimed and when,
    and [committed] lists the events whose work was committed. *)
Record system : Type := {
  sys_world : world;
  sys_clock : Z;
  working : gmap Z (EventEnvelope * Z * Z);
  committed : list string;
}.

Context (ack_wait : Z).

Definition in_time (claimed_at now : Z) : Prop := now <= claimed_at + ack_wait * SECOND.

Inductive worker_step (s : system) : string -> system -> Prop :=
| step_claim d evt k t rec :
    sys_clock s <= now_claim d -> working s !! k = None ->
    ledger_begin stale_seconds (now_claim d) evt service_name (db (sys_world s)) = (t, rec) ->
    worker_step s "claim"
      {| sys_world := set_db (sys_world s) t; sys_clock := now_claim d;
         working := if decide (status rec = Stored PROCESSING)
                    then <[k := (evt, now_claim d, attempts rec)]> (working s) else working s;
         committed := committed s |}
| step_commit f d evt k at_ n w' :
    working s !! k = Some (evt, at_, n) -> sys_clock s <= now_commit d -> in_time at_ (now_commit d) ->
    work f d evt (sys_world s) = Ok w' ->
    worker_step s "commit"
      {| sys_world := w'; sys_clock := now_commit d; working := delete k (working s);
         committed := committed s ++ [event_id evt] |}
| step_fail f d evt k at_ n error w' o :
    working s !! k = Some (evt, at_, n) -> sys_clock s <= now_fail d -> in_time at_ (now_fail d) ->
    fail f d evt error n (sys_world s) = (w', o) ->
    worker_step s "fail"
      {| sys_world := w'; sys_clock := now_fail d; working := delete k (working s);
         committed := committed s |}
| step_crash k :
    worker_step s "crash"
      {| sys_world := sys_world s; sys_clock := sys_clock s; working := delete k (working s);
         committed := committed s |}.

Definition ledger_row (s : system) (id : string) : option processing_row :=
  processing (db (sys_world s)) !! (id, service_name).

(** Instance [k] still holds a live claim of event [id]. *)
Definition live (s : system) (k : Z) (id : string) (at_ : Z) : Prop :=
  (exists evt n, working s !! k = Some (evt, at_, n) /\ event_id evt = id) /\
  in_time at_ (sys_clock s).

Record exclusive (s : system) : Prop := {
  live_row k id at_ : live s k id at_ ->
    exists r, ledger_row s id = Some r /\ p_status r = PROCESSING /\ p_updated_at r = at_;
  live_unique k1 k2 id a1 a2 : live s k1 id a1 -> live s k2 id a2 -> k1 = k2;
  committed_done id : id ∈ committed s -> exists r, ledger_row s id = Some r /\ p_status r = PROCESSED;
  committed_once : NoDup (committed s);
}.

Lemma live_delete s s' k k' id a :
  working s' = delete k (working s) -> sys_clock s <= sys_clock s' -> live s' k' id a ->
  k' <> k /\ live s k' id a.
Proof.
  intros Hw Hc [(evt & n & Hk & Hid) Ht]. rewrite Hw in Hk.
  apply lookup_delete_Some in Hk as [Hne Hk]. split; [done|]. split; [eauto|].
  unfold in_time in *. lia.
Qed.

(** An instance ends its claim in time: at most its own event's row changes. *)
Lemma exclusive_release s s' k evt at_ n new :
  exclusive s -> working s !! k = Some (evt, at_, n) ->
  sys_clock s <= sys_clock s' -> in_time at_ (sys_clock s') ->
  working s' = delete k (working s) ->
  (forall id, id <> event_id evt -> ledger_row s' id = ledger_row s id) ->
  committed s' = committed s ++ new ->
  (new = [] \/ new = [event_id evt] /\
     exists r, ledger_row s' (event_id evt) = Some r /\ p_status r = PROCESSED) ->
  exclusive s'.
Proof.
  intros [Hrow Huniq Hdone Honce] Hk Hclock Htime Hwork Hother Hcomm Hnew.
  assert (Hlive : live s k (event_id evt) at_).
  { split; [eauto|]. unfold in_time in *. lia. }
  destruct (Hrow _ _ _ Hlive) as (r & Hr & Hrs & _).
  assert (Hnot : event_id evt ∉ committed s).
  { intros Hin. destruct (Hdone _ Hin) as (r' & Hr' & Hs'). congruence. }
  assert (Hback : forall k' id a, live s' k' id a -> id <> event_id evt /\ live s k' id a).
  { intros k' id a Hl. destruct (live_delete s s' k k' id a Hwork Hclock Hl) as [Hne Hl'].
    split; [|done]. intros ->. apply Hne. by eapply Huniq. }
  split.
  - intros k' id a Hl. destruct (Hback _ _ _ Hl) as [Hne Hl']. rewrite Hother by done. eauto.
  - intros k1 k2 id a1 a2 H1 H2. destruct (Hback _ _ _ H1), (Hback _ _ _ H2). eauto.
  - intros id. rewrite Hcomm. intros [Hin|Hin]%elem_of_app.
    + rewrite Hother; [by apply Hdone|]. by intros ->.
    + destruct Hnew as [->|[-> Hp]]; [by apply elem_of_nil in Hin|].
      by apply list_elem_of_singleton in Hin as ->.
  - rewrite Hcomm. apply NoDup_app. split_and!; [done| |].
    + intros id Hin Hin'. destruct Hnew as [->|[-> _]]; [by apply elem_of_nil in Hin'|].
      by apply list_elem_of_singleton in Hin' as ->.
    + destruct Hnew as [->|[-> _]]; [constructor|apply NoDup_singleton].
Qed.

Lemma key_ne (id1 id2 : string) : id1 <> id2 -> (id1, service_name) <> (id2, service_name).
Proof. congruence. Qed.

Lemma exclusive_claim s d evt k t rec :
  ack_wait < stale_seconds -> exclusive s -> sys_clock s <= now_claim d -> working s !! k = None ->
  ledger_begin stale_seconds (now_claim d) evt service_name (db (sys_world s)) = (t, rec) ->
  exclusive {| sys_world := set_db (sys_world s) t; sys_clock := now_claim d;
               working := if decide (status rec = Stored PROCESSING)
                          then <[k := (evt, now_claim d, attempts rec)]> (working s) else working s;
               committed := committed s |}.
Proof.
  intros Hcontract [Hrow Huniq Hdone Honce] Hclock Hk Hb.
  assert (Hold : forall id k' a evt' n, working s !! k' = Some (evt', a, n) -> event_id evt' = id ->
            in_time a (now_claim d) -> live s k' id a).
  { intros id k' a evt' n Hw Hid Ht. split; [eauto|]. unfold in_time in *. lia. }
  destruct (ledger_begin_spec _ _ _ _ _ Hb) as (_ & _ & [(Hs & r & Hp & Hrs & _ & Hru & Hprev)|(Hs & Hp & _)]).
  - rewrite decide_True by done.
    assert (Hnolive : forall k' a evt' n, working s !! k' = Some (evt', a, n) ->
              event_id evt' = event_id evt -> in_time a (now_claim d) -> False).
    { intros k' a evt' n Hw Hid Ht.
      destruct (Hrow _ _ _ (Hold _ _ _ _ _ Hw Hid Ht)) as (r0 & Hr0 & Hs0 & Hu0).
      unfold ledger_row in Hr0. rewrite Hr0 in Hprev. destruct Hprev as [Hre _].
      unfold reclaimable in Hre. rewrite Hs0 in Hre. simpl in Hre.
      apply Z.ltb_lt in Hre. unfold in_time, SECOND in *. lia. }
    split; simpl.
    + intros k' id a [(evt' & n & Hw & Hid) Ht]. simpl in *. unfold ledger_row. simpl. rewrite Hp.
      apply lookup_insert_Some in Hw as [[<- [= <- <- <-]]|[Hne Hw]].
      * exists r. rewrite Hid, lookup_insert_eq. done.
      * assert (id <> event_id evt) by (intros ->; by eapply Hnolive).
        rewrite lookup_insert_ne by (apply key_ne; congruence). by eapply Hrow, Hold.
    + intros k1 k2 id a1 a2 [(e1 & n1 & Hw1 & Hid1) Ht1] [(e2 & n2 & Hw2 & Hid2) Ht2]. simpl in *.
      apply lookup_insert_Some in Hw1 as [[<- [= <- <- <-]]|[Hne1 Hw1]];
        apply lookup_insert_Some in Hw2 as [[<- [= <- <- <-]]|[Hne2 Hw2]]; [done| | |].
      * exfalso. eapply Hnolive; [exact Hw2|congruence|done].
      * exfalso. eapply Hnolive; [exact Hw1|congruence|done].
      * eapply Huniq; by eapply Hold.
    + intros id Hin. destruct (Hdone id Hin) as (r0 & Hr0 & Hs0). unfold ledger_row in *. simpl.
      rewrite Hp. destruct (decide (id = event_id evt)) as [->|Hne].
      * rewrite Hr0 in Hprev. destruct Hprev as [Hre _]. apply reclaimable_open in Hre.
        destruct Hre. rewrite Hs0. by left.
      * rewrite lookup_insert_ne by (apply key_ne; congruence). eauto.
    + done.
  - rewrite decide_False by done. split; simpl.
    + intros k' id a [(evt' & n & Hw & Hid) Ht]. unfold ledger_row. simpl. rewrite Hp.
      by eapply Hrow, Hold.
    + intros k1 k2 id a1 a2 [(e1 & n1 & Hw1 & Hid1) Ht1] [(e2 & n2 & Hw2 & Hid2) Ht2].
      eapply Huniq; by eapply Hold.
    + intros id Hin. unfold ledger_row. simpl. rewrite Hp. by apply Hdone.
    + done.
Qed.

Lemma worker_step_exclusive s l s' :
  ack_wait < stale_seconds -> worker_step s l s' -> exclusive s -> exclusive s'.
Proof.
  intros Hcontract Hstep Hex. destruct Hstep as [d evt k t rec Hc Hk Hb|f d evt k at_ n w' Hk Hc Ht Hw
                                             |f d evt k at_ n error w' o Hk Hc Ht Hf|k].
  - by eapply exclusive_claim.
  - destruct (work_spec _ _ _ _ _ Hw) as (b & evts & _ & _ & _ & _ & _ & Hp).
    destruct (live_row s Hex k (event_id evt) at_) as (r & Hr & _).
    { split; [eauto|]. unfold in_time in *. lia. }
    eapply (exclusive_release s _ k evt at_ n [event_id evt]); simpl; try done.
    + intros id Hne. unfold ledger_row. simpl. rewrite Hp. apply lookup_alter_ne, key_ne. congruence.
    + right. split; [done|]. unfold ledger_row in *. simpl. rewrite Hp, lookup_alter_eq, Hr. by eexists.
  - destruct (fail_spec _ _ _ _ _ _ _ _ Hf) as (_ & _ & _ & Hcase).
    eapply (exclusive_release s _ k evt at_ n []); simpl; try done; [|by rewrite app_nil_r|by left].
    intros id Hne. unfold ledger_row. simpl. destruct Hcase as [[-> _]|(st & -> & _)]; [done|].
    apply lookup_alter_ne, key_ne. congruence.
  - destruct Hex as [Hrow Huniq Hdone Honce]. split; simpl; try done.
    + intros k' id a Hl. apply (live_delete s _ k) in Hl as [_ Hl]; [eauto|done|done].
    + intros k1 k2 id a1 a2 H1 H2. apply (live_delete s _ k) in H1 as [_ H1]; [|done|done].
      apply (live_delete s _ k) in H2 as [_ H2]; [|done|done]. eauto.
Qed.

Definition start (w : world) (clock : Z) : system :=
  {| sys_world := w; sys_clock := clock; working := ∅; committed := [] |}.

End Worker.

(** ** Concrete runs *)

Definition sample_policy : EventRetryPolicy :=
  {| max_attempts := 3; retry_delay_seconds := 2; fetch_batch_size := 1;
     handler_timeout_seconds := 30; dead_letter_timeout_seconds := 10; max_concurrency := 8 |}.

Definition sample_decode (m : string) : result string EventEnvelope :=
  match m with EmptyString => Err "empty" | _ => Ok (sample_event m) end.

(** Counts handled events and emits one child; fails on "bad". *)
Definition sample_handler (evt : EventEnvelope) (b : Z) : result string (Z * list EventEnvelope) :=
  if String.eqb (event_id evt) "bad" then Err "boom"
  else Ok (b + 1, [sample_event (event_id evt +:+ "-child")]).

Definition draws_at (now : Z) (fresh : string) : draws :=
  {| now_claim := now; now_commit := now + 5; now_fail := now + 5; duration_ms := 5;
     fresh_raw_id := fresh; fresh_event_id := fresh; now_iso := "t"; created_iso := "t" |}.

Definition sample_world : @world Z := {| db := no_tables; business := 0; stream := [] |}.

Definition sample_consume := consume "svc" sample_policy 90 sample_decode (fun m => m) sample_handler.

Lemma no_tables_complete : dead_letters_complete no_tables.
Proof. intros id c r Hr. cbn in Hr. by apply lookup_empty_Some in Hr. Qed.

Lemma ack_is_durable_witness :
  let run := sample_consume false no_faults (draws_at 0 "x") "" sample_world in
  run.2 = Ack /\
  exists r, r ∈ dead_letters (db run.1) /\ d_subject r = RAW_DEAD_LETTER_SUBJECT /\
    d_payload r = [("raw", JStr "")].
Proof.
  intros run. split; [vm_compute; reflexivity|].
  apply (ack_is_durable "svc" sample_policy 90 sample_decode (fun m => m) sample_handler
           false no_faults (draws_at 0 "x") "" sample_world run.1 no_tables_complete).
  vm_compute. reflexivity.
Defined.

Lemma delivery_atomic_witness :
  let run1 := sample_consume false no_faults (draws_at 0 "x") "a" sample_world in
  let run2 := sample_consume false no_faults (draws_at 100 "y") "a" run1.1 in
  run1.2 = Ack /\ business run1.1 = 1 /\ run2.2 = Ack /\
  ((business run2.1 = business run1.1 /\ outbox (db run2.1) = outbox (db run1.1)) \/
   (exists evt b evts r, sample_decode "a" = Ok evt /\
     sample_handler evt (business run1.1) = Ok (b, evts) /\ business run2.1 = b /\
     outbox (db run2.1) = outbox (stage_events evts (db run1.1)) /\
     (forall r0, row_of "svc" run1.1 evt = Some r0 -> p_status r0 ∉ TERMINAL_STATUSES) /\
     row_of "svc" run2.1 evt = Some r /\ p_status r = PROCESSED)).
Proof.
  intros run1 run2. split; [vm_compute; reflexivity|]. split; [vm_compute; reflexivity|].
  split; [vm_compute; reflexivity|].
  apply (delivery_atomic "svc" sample_policy 90 sample_decode (fun m => m) sample_handler
           false no_faults (draws_at 100 "y") "a" run1.1 run2.1 run2.2).
  vm_compute. reflexivity.
Defined.

Lemma retries_exhaust_witness :
  exists w' r, redeliver "svc" sample_policy 90 (fun m => Ok (sample_event m)) (fun m => m)
                 (fun _ _ => Err "boom")
                 [draws_at 0 "x"; draws_at 10 "y"; draws_at 20 "z"] "bad" sample_world
      = (w', repeat (Nak 2) 2 ++ [Ack]) /\
    row_of "svc" w' (sample_event "bad") = Some r /\ p_status r = DEAD_LETTERED /\
    p_attempts r = 3 /\ business w' = business sample_world /\
    exists dl, dl ∈ dead_letters (db w') /\ d_event_id dl = "bad" /\ d_consumer dl = "svc".
Proof.
  apply (retries_exhaust "svc" sample_policy 90 (fun m => Ok (sample_event m)) (fun m => m)
           (fun _ _ => Err "boom") [draws_at 0 "x"; draws_at 10 "y"; draws_at 20 "z"] "bad"
           (sample_event "bad") sample_world).
  - reflexivity.
  - intros b. by eexists.
  - vm_compute. reflexivity.
  - vm_compute. discriminate.
  - reflexivity.
Defined.

