(* ===== verification/SchemaContract.v ===== *)
(** Field contracts of the data catalog ([domains/datacatalog/schema_contract.py]):
    the fields and types read off an observed payload, their hash and the
    two-way comparison with a registered contract.

    A contract is an ordered dictionary from field path to type name, [None]
    being a type that could not be told.  Payloads are JSON values. *)

From S2P Require Import Prelude PyString Json.
From Stdlib Require Import Sorting.Sorted.

Abbreviation contract := (odict (option string)) (only parsing).

Definition json_type_name (value : json) : option string :=
  match value with
  | JNull => None
  | JBool _ => Some "boolean"
  | JInt _ => Some "integer"
  | JFloat _ => Some "number"
  | JStr _ => Some "string"
  | JArr _ => Some "array"
  | JObj _ => Some "object"
  end.

(** [f"{prefix}.{key}" if prefix else str(key)]. *)
Definition field_path (prefix key : string) : string :=
  if decide (prefix = "") then key else prefix +:+ "." +:+ key.

Fixpoint flatten_fields (prefix : string) (payload : json) : contract :=
  match payload with
  | JObj fields =>
      flat_map (fun kv =>
        let path := field_path prefix kv.1 in
        match kv.2 with
        | JObj _ => flatten_fields path kv.2
        | JArr items =>
            (path, Some "array") ::
              match items with
              | v :: _ => flatten_fields (path +:+ "[]") v
              | [] => []
              end
        | value => [(path, json_type_name value)]
        end) fields
  | JArr (v :: _) => flatten_fields prefix v
  | _ => []
  end.

(** [if path not in seen or seen[path] is None: seen[path] = dtype]. *)
Definition keep_known (seen : contract) (field : string * option string) : contract :=
  match dict_get field.1 seen with
  | Some (Some _) => seen
  | _ => dict_set field.1 field.2 seen
  end.

Definition contract_from_payload (payload : json) : contract :=
  sort_items (fold_left keep_known (flatten_fields "" payload) []).

Section Hash.
Context (sha256_hex quote : string -> string).

(** The encoded value holds no dictionary, so [sort_keys=False] prints it
    like the canonical form does. *)
Definition schema_hash (c : contract) : string :=
  sha256_hex (canonical_dumps quote
    (JArr (map (fun field => JArr [JStr field.1; from_option JStr JNull field.2]) c))).
End Hash.

Inductive drift_type : Type := MISSING_FIELD | UNDECLARED_FIELD | TYPE_CHANGED.

#[export] Instance drift_type_eq_dec : EqDecision drift_type.
Proof. solve_decision. Defined.

Record finding := Finding {
  drift_path : string;
  drift_kind : drift_type;
  declared_type : option string;
  observed_type : option string }.

Definition compare_path (declared observed : contract) (path : string) : list finding :=
  match dict_get path observed, dict_get path declared with
  | None, Some d => [Finding path MISSING_FIELD d None]
  | Some o, None => [Finding path UNDECLARED_FIELD None o]
  | Some o, Some d => if decide (d <> o) then [Finding path TYPE_CHANGED d o] else []
  | None, None => []
  end.

(** [sorted(set(declared) | set(observed))]. *)
Definition all_paths (declared observed : contract) : list string :=
  (sort_items (map (fun k => (k, tt)) (dedup (dict_keys declared ++ dict_keys observed)))).*1.

Definition contract_diff (declared observed : contract) : list finding :=
  flat_map (compare_path declared observed) (all_paths declared observed).

Example flatten_ex :
  contract_from_payload (JObj [("b", JArr [JObj [("x", JNull)]]); ("a", JObj [("k", JInt 1)])])
  = [("a.k", Some "integer"); ("b", Some "array"); ("b[].x", None)].
Proof. reflexivity. Qed.

(** ** The merge of observed fields *)

(** The type a list of observations gives a field: the first one known. *)
Definition first_known (types : list (option string)) : option (option string) :=
  match types with
  | [] => None
  | _ => Some (head (omap id types))
  end.

Definition types_of (path : string) (fields : contract) : list (option string) :=
  (filter (fun f => f.1 = path) fields).*2.

Lemma keep_known_get path seen field :
  dict_get path (keep_known seen field) =
    if decide (field.1 = path) then
      match dict_get path seen with Some (Some t) => Some (Some t) | _ => Some field.2 end
    else dict_get path seen.
Proof.
  unfold keep_known. case_decide as Heq.
  - rewrite Heq. destruct (dict_get path seen) as [[t|]|] eqn:E; rewrite ?dict_get_set_eq; done.
  - destruct (dict_get field.1 seen) as [[t|]|]; rewrite ?dict_get_set_ne by done; done.
Qed.

Lemma keep_known_wf seen field : dict_wf seen -> dict_wf (keep_known seen field).
Proof. unfold keep_known. repeat case_match; eauto with kyro. Qed.

Lemma keep_known_fold_wf fields seen : dict_wf seen -> dict_wf (fold_left keep_known fields seen).
Proof. revert seen. induction fields; simpl; eauto using keep_known_wf. Qed.

Lemma keep_known_fold_get path fields seen :
  dict_get path (fold_left keep_known fields seen)
  = first_known (option_list (dict_get path seen) ++ types_of path fields).
Proof.
  revert seen. induction fields as [|f fields IH]; intros seen; simpl.
  - rewrite app_nil_r. by destruct (dict_get path seen) as [[]|].
  - rewrite IH, keep_known_get. unfold types_of. rewrite filter_cons.
    case_decide; [|done]. csimpl. destruct (dict_get path seen) as [[t|]|]; csimpl; [done|..];
      by destruct f.2.
Qed.

Lemma keep_known_fold_fresh fields seen :
  NoDup (dict_keys seen ++ fields.*1) -> fold_left keep_known fields seen = seen ++ fields.
Proof.
  unfold dict_keys. revert seen. induction fields as [|[k t] fields IH]; intros seen Hnd; csimpl.
  - by rewrite app_nil_r.
  - assert (Hk : k ∉ dict_keys seen).
    { unfold dict_keys. apply NoDup_app in Hnd as (_ & Hd & _). set_solver. }
    assert (E : keep_known seen (k, t) = seen ++ [(k, t)]).
    { unfold keep_known; simpl. rewrite (proj2 (dict_get_None _ _) Hk).
      clear -Hk. unfold dict_keys in Hk. induction seen as [|[k' t'] seen IH]; csimpl; [done|].
      rewrite decide_False by set_solver. f_equal. apply IH. set_solver. }
    rewrite E, IH; [by rewrite <- (assoc_L _)|]. by rewrite fmap_app, <- (assoc_L _).
Qed.

Lemma sort_items_get path (d : contract) : dict_wf d -> dict_get path (sort_items d) = dict_get path d.
Proof.
  intros Hwf. assert (Hwf' : dict_wf (sort_items d)).
  { unfold dict_wf, dict_keys. by rewrite sort_items_perm. }
  destruct (dict_get path d) as [t|] eqn:E.
  - apply dict_elem_get; [done|]. rewrite sort_items_perm. by apply dict_get_Some_elem.
  - apply dict_get_None. apply dict_get_None in E. unfold dict_keys. by rewrite sort_items_perm.
Qed.

Lemma contract_wf payload : dict_wf (contract_from_payload payload).
Proof.
  unfold dict_wf, dict_keys, contract_from_payload. rewrite sort_items_perm.
  by apply keep_known_fold_wf, NoDup_nil_2.
Qed.

Lemma contract_get path payload :
  dict_get path (contract_from_payload payload) = first_known (types_of path (flatten_fields "" payload)).
Proof.
  unfold contract_from_payload. rewrite sort_items_get by (by apply keep_known_fold_wf, NoDup_nil_2).
  by rewrite keep_known_fold_get.
Qed.

(** ** Payloads that differ in the order of their keys *)
Inductive reordered : json -> json -> Prop :=
| reordered_refl v : reordered v v
| reordered_trans v1 v2 v3 : reordered v1 v2 -> reordered v2 v3 -> reordered v1 v3
| reordered_keys fields fields' : fields ≡ₚ fields' -> reordered (JObj fields) (JObj fields')
| reordered_field k v v' before after :
    reordered v v' -> reordered (JObj (before ++ (k, v) :: after)) (JObj (before ++ (k, v') :: after))
| reordered_item v v' before after :
    reordered v v' -> reordered (JArr (before ++ v :: after)) (JArr (before ++ v' :: after)).

(** What one field of a dictionary contributes. *)
Definition flatten_field (path : string) (v : json) : contract :=
  match v with
  | JObj _ => flatten_fields path v
  | JArr items =>
      (path, Some "array") ::
        match items with v :: _ => flatten_fields (path +:+ "[]") v | [] => [] end
  | value => [(path, json_type_name value)]
  end.

Lemma flatten_obj prefix fields :
  flatten_fields prefix (JObj fields)
  = flat_map (fun kv => flatten_field (field_path prefix kv.1) kv.2) fields.
Proof.
  simpl. induction fields as [|[k []] fields IH]; simpl; [done|..]; try (rewrite IH; done).
Qed.

Lemma flat_map_perm {A B} (f : A -> list B) l l' : l ≡ₚ l' -> flat_map f l ≡ₚ flat_map f l'.
Proof.
  induction 1 as [|x l l' _ IH|x y l|l1 l2 l3 _ IH1 _ IH2]; simpl; [done| | |by rewrite IH1].
  - by rewrite IH.
  - rewrite !(assoc_L (++)). by rewrite (Permutation_app_comm (f y) (f x)).
Qed.

Lemma reordered_flatten v v' :
  reordered v v' -> forall path,
    flatten_fields path v ≡ₚ flatten_fields path v' /\ flatten_field path v ≡ₚ flatten_field path v'.
Proof.
  induction 1 as [v|v1 v2 v3 _ IH1 _ IH2|fields fields' Hp|k v v' before after _ IH|v v' before after _ IH];
    intros path.
  - done.
  - destruct (IH1 path), (IH2 path). split; by etrans.
  - cut (flatten_fields path (JObj fields) ≡ₚ flatten_fields path (JObj fields')); [done|].
    rewrite !flatten_obj. by apply flat_map_perm.
  - cut (flatten_fields path (JObj (before ++ (k, v) :: after))
         ≡ₚ flatten_fields path (JObj (before ++ (k, v') :: after))); [done|].
    rewrite !flatten_obj, !flat_map_app. simpl. by destruct (IH (field_path path k)) as [_ ->].
  - destruct before as [|u before]; simpl; [|done].
    split; [apply IH|]. constructor. apply IH.
Qed.

Lemma contract_reordered payload payload' :
  reordered payload payload' -> NoDup (flatten_fields "" payload).*1 ->
  contract_from_payload payload = contract_from_payload payload'.
Proof.
  intros Hr Hnd. destruct (reordered_flatten _ _ Hr "") as [Hp _]. unfold contract_from_payload.
  rewrite !keep_known_fold_fresh; simpl; [|by rewrite <- Hp|done].
  by apply sort_items_permutation.
Qed.

Lemma all_paths_elem declared observed path :
  path ∈ all_paths declared observed <-> path ∈ dict_keys declared \/ path ∈ dict_keys observed.
Proof.
  unfold all_paths. rewrite sort_items_perm, <- list_fmap_compose. simpl. 
  rewrite list_fmap_id, dedup_elem, elem_of_app. done.
Qed.

Lemma all_paths_NoDup declared observed : NoDup (all_paths declared observed).
Proof.
  unfold all_paths. rewrite sort_items_perm, <- list_fmap_compose. rewrite list_fmap_id. apply dedup_NoDup.
Qed.

Lemma contract_diff_elem declared observed f :
  f ∈ contract_diff declared observed <-> f ∈ compare_path declared observed f.(drift_path).
Proof.
  assert (Hpath : forall path g, g ∈ compare_path declared observed path -> g.(drift_path) = path).
  { intros path g. unfold compare_path. repeat case_match; rewrite ?list_elem_of_singleton;
      try (intros ->; done); by intros ?%elem_of_nil. }
  unfold contract_diff. rewrite list_elem_of_In, in_flat_map. setoid_rewrite <- list_elem_of_In. split.
  - intros (path & _ & Hin). by rewrite (Hpath _ _ Hin).
  - intros Hin. exists f.(drift_path). split; [|done]. apply all_paths_elem.
    destruct (decide (f.(drift_path) ∈ dict_keys declared)) as [|H1]; [by left|].
    destruct (decide (f.(drift_path) ∈ dict_keys observed)) as [|H2]; [by right|].
    apply dict_get_None in H1, H2. unfold compare_path in Hin. rewrite H1, H2 in Hin.
    by apply elem_of_nil in Hin.
Qed.

(** ** Properties *)

(** A contract depends on the shape of the payload alone: it is sorted by
    path, lists no path twice, gives each path the first type that could be
    told among its occurrences, and two payloads that differ only in the order
    of their keys, at any depth, have the same hash when no two of their
    fields share a path. *)
Theorem contract_determined sha256_hex quote payload payload' :
  StronglySorted key_le (contract_from_payload payload)
  /\ dict_wf (contract_from_payload payload)
  /\ (forall path, dict_get path (contract_from_payload payload)
                   = first_known (types_of path (flatten_fields "" payload)))
  /\ (reordered payload payload' -> NoDup (flatten_fields "" payload).*1 ->
      schema_hash sha256_hex quote (contract_from_payload payload)
      = schema_hash sha256_hex quote (contract_from_payload payload')).
Proof.
  split_and!.
  - apply sort_items_sorted.
  - apply contract_wf.
  - intros path. apply contract_get.
  - intros Hr Hnd. by rewrite (contract_reordered _ _ Hr Hnd).
Qed.

Example contract_determined_witness :
  schema_hash (fun s => s) json_string
    (contract_from_payload (JObj [("a", JObj [("x", JInt 1); ("y", JNull)]); ("b", JStr "s")]))
  = schema_hash (fun s => s) json_string
      (contract_from_payload (JObj [("b", JStr "s"); ("a", JObj [("y", JNull); ("x", JInt 1)])])).
Proof.
  refine (proj2 (proj2 (proj2 (contract_determined _ _ _ _))) _ _).
  - eapply reordered_trans; [apply reordered_keys, perm_swap|].
    exact (reordered_field "a" _ _ [("b", JStr "s")] [] (reordered_keys _ _ (perm_swap _ _ _))).
  - apply (bool_decide_unpack _). vm_compute. exact I.
Defined.

(** The comparison reports exactly the differences, in both directions: a
    finding for each path only one contract has or to which the two give
    different types (an unknown type differing from every known one), each
    path at most once; there is none iff the contracts agree. *)
Theorem contract_diff_exact (declared observed : contract) :
  (forall f, f ∈ contract_diff declared observed <->
     let d := dict_get f.(drift_path) declared in
     let o := dict_get f.(drift_path) observed in
     d <> o /\
     f.(drift_kind) = match d, o with
                      | Some _, None => MISSING_FIELD
                      | None, _ => UNDECLARED_FIELD
                      | Some _, Some _ => TYPE_CHANGED
                      end /\
     f.(declared_type) = mjoin d /\ f.(observed_type) = mjoin o)
  /\ NoDup (map drift_path (contract_diff declared observed))
  /\ (contract_diff declared observed = [] <->
      forall path, dict_get path declared = dict_get path observed).
Proof.
  split_and!.
  - intros [path kind dt ot]. rewrite contract_diff_elem. unfold compare_path; simpl.
    destruct (dict_get path observed) as [o|], (dict_get path declared) as [d|];
      [case_decide|..]; rewrite ?list_elem_of_singleton, ?elem_of_nil; simpl; naive_solver.
  - unfold contract_diff. pose proof (all_paths_NoDup declared observed) as Hnd.
    induction Hnd as [|path paths Hni _ IH]; simpl; [by apply NoDup_nil_2|].
    rewrite map_app. apply NoDup_app. split_and!; [|intros p Hp Hin|done].
    + unfold compare_path. repeat case_match; simpl; try apply NoDup_nil_2; apply NoDup_singleton.
    + apply Hni. assert (p = path) as ->.
      { revert Hp. unfold compare_path. repeat case_match; simpl; set_solver. }
      apply list_elem_of_In, in_map_iff in Hin as (f & <- & Hin).
      apply in_flat_map in Hin as (q & Hq & Hin). apply list_elem_of_In in Hq, Hin.
      assert (drift_path f = q) as ->; [|done].
      revert Hin. unfold compare_path. repeat case_match; set_solver.
  - split.
    + intros Hnil path. destruct (decide (dict_get path declared = dict_get path observed)) as [|Hne]; [done|].
      exfalso. assert (Hex : exists f, f ∈ compare_path declared observed path /\ drift_path f = path).
      { unfold compare_path. repeat case_match; try (by destruct Hne; f_equal; apply dec_stable);
          try done; eexists; (split; [by left|done]). }
      destruct Hex as (f & Hin & <-). apply contract_diff_elem in Hin. rewrite Hnil in Hin.
      by apply elem_of_nil in Hin.
    + intros Heq. destruct (contract_diff declared observed) as [|f fs] eqn:E; [done|].
      assert (Hin : f ∈ contract_diff declared observed) by (rewrite E; by left).
      apply contract_diff_elem in Hin. revert Hin. unfold compare_path. rewrite Heq.
      repeat case_match; try done; intros ?%elem_of_nil; done.
Qed.
