(* ===== verification/CatalogTables.v ===== *)
(** The tables of the data catalog ([domains/datacatalog/models.py]) and the
    statements the pipeline executes on them.

    A table is the list of its rows in insertion order; serial ids and the
    columns the pipeline neither reads nor writes are left out.  [upsert] is
    [INSERT ... ON CONFLICT (target) DO ...]: a row whose target is present is
    merged into the present one ([DO NOTHING] keeps it), any other row must
    respect the foreign key and the primary key and is appended.  A refused
    statement aborts its transaction. *)

From S2P Require Import Prelude Json.
From coqutil Require Import Datatypes.RecordSettersUsingExistingGetters.

Inductive catalog_error : Type :=
| ForeignKeyViolation (table : string)
| UniqueViolation (table : string)
| KeyError (key : string)
| ForeignField (key : string)
| UnsupportedArchive (uri : string)
| FileNotFound (path : string)
| FetchError (source_id : string)
| ExtractFailed (source_id : string)
| NoSourceOutput.

(** ** Upserts *)

Section Upsert.
Context {R K P : Type} `{EqDecision K, EqDecision P}.
Context (table : string) (target : R -> K) (primary : R -> P) (merge : R -> R -> R).

(** The present row [old] after a conflict with [row]. *)
Definition merge_row (row old : R) : R :=
  if decide (target old = target row) then merge old row else old.

Definition present (row : R) (rows : list R) : Prop := target row ∈ map target rows.

#[export] Instance present_dec row rows : Decision (present row rows).
Proof. unfold present. apply _. Defined.

Definition put (rows : list R) (row : R) : list R :=
  if decide (present row rows) then map (merge_row row) rows else rows ++ [row].

Definition upsert (references : bool) (rows : list R) (row : R) : result catalog_error (list R) :=
  if decide (present row rows) then Ok (map (merge_row row) rows)
  else if decide (primary row ∈ map primary rows) then Err (UniqueViolation table)
  else if references then Ok (rows ++ [row])
  else Err (ForeignKeyViolation table).
End Upsert.

(** [DO NOTHING]. *)
Definition keep_old {R} (old row : R) : R := old.

(** ** Rows *)

Record CatalogDagRun : Type := DagRun {
  d_dag_run_id : string;
  d_dag_id : string;
  d_logical_date : string;
  d_status : string;
  d_started_at : Z;
  d_finished_at : option Z }.

Record CatalogCollectionRun : Type := CollectionRun {
  c_run_id : string;
  c_dag_run_id : string;
  c_source_id : string;
  c_logical_date : string;
  c_status : string;
  c_attempt : Z;
  c_finished_at : option Z }.

Record CatalogDataAsset : Type := DataAsset {
  a_asset_id : string;
  current_schema_version : Z }.

Record CatalogSchemaObservation : Type := SchemaObservation {
  o_asset_id : string;
  o_schema_version : Z;
  o_schema_hash : string;
  first_seen_run_id : string;
  first_seen_at : Z }.

Record CatalogRawSnapshot : Type := RawSnapshot {
  snapshot_id : string;
  s_run_id : string;
  s_uri : string;
  s_content_hash : string;
  byte_size : Z;
  s_created_at : Z }.

Record CatalogLineageEdge : Type := LineageEdge {
  upstream_asset_id : string;
  downstream_asset_id : string;
  transformation : string;
  e_run_id : string }.

Record CatalogObservedRow : Type := ObservedRow {
  r_row_id : string;
  r_run_id : string;
  r_asset_id : string;
  r_row_key : string;
  r_observed_at : Z }.

Record CatalogObservedField : Type := ObservedField {
  f_row_id : string;
  f_run_id : string;
  f_asset_id : string;
  f_field_path : string;
  f_data_type : option string }.

Record CatalogNormalizedEvidence : Type := NormalizedEvidence {
  evidence_id : string;
  n_asset_id : string;
  n_run_id : string;
  n_cluster_id : string;
  n_source_id : string;
  n_resource_uid : string;
  n_collection_status : string;
  n_observed_at : Z;
  n_ingested_at : Z }.

Record CatalogLoad : Type := Load {
  l_logical_date : string;
  l_source_id : string;
  l_asset_id : string;
  l_row_count : Z;
  l_loaded_at : Z }.

Record tables : Type := Tables {
  dag_runs : list CatalogDagRun;
  collection_runs : list CatalogCollectionRun;
  data_sources : list string;
  data_assets : list CatalogDataAsset;
  schema_observations : list CatalogSchemaObservation;
  raw_snapshots : list CatalogRawSnapshot;
  lineage_edges : list CatalogLineageEdge;
  observed_rows : list CatalogObservedRow;
  observed_fields : list CatalogObservedField;
  normalized_evidence : list CatalogNormalizedEvidence;
  catalog_loads : list CatalogLoad }.

(** ** Conflict targets and [DO UPDATE] clauses *)

Definition run_scope (r : CatalogCollectionRun) := (r.(c_dag_run_id), r.(c_source_id)).
Definition schema_key (o : CatalogSchemaObservation) :=
  (o.(o_asset_id), o.(o_schema_version), o.(o_schema_hash)).
Definition snapshot_key (s : CatalogRawSnapshot) := (s.(s_run_id), s.(s_content_hash)).
Definition edge_key (e : CatalogLineageEdge) :=
  (e.(upstream_asset_id), e.(downstream_asset_id), e.(e_run_id)).
Definition observed_key (r : CatalogObservedRow) := (r.(r_run_id), r.(r_asset_id), r.(r_row_key)).
Definition field_key (f : CatalogObservedField) := (f.(f_row_id), f.(f_field_path)).
Definition evidence_key (n : CatalogNormalizedEvidence) :=
  (n.(n_cluster_id), n.(n_source_id), n.(n_resource_uid), n.(n_observed_at)).
Definition load_key (l : CatalogLoad) := (l.(l_logical_date), l.(l_source_id), l.(l_asset_id)).

Definition reopen_dag_run (old row : CatalogDagRun) : CatalogDagRun :=
  DagRun old.(d_dag_run_id) old.(d_dag_id) old.(d_logical_date) "INCOMPLETE" row.(d_started_at) None.

Definition retry_collection_run (old row : CatalogCollectionRun) : CatalogCollectionRun :=
  CollectionRun old.(c_run_id) old.(c_dag_run_id) old.(c_source_id) old.(c_logical_date)
    row.(c_status) (old.(c_attempt) + 1) row.(c_finished_at).

Definition reobserve_row (old row : CatalogObservedRow) : CatalogObservedRow :=
  ObservedRow old.(r_row_id) old.(r_run_id) old.(r_asset_id) old.(r_row_key) row.(r_observed_at).

Definition retype_field (old row : CatalogObservedField) : CatalogObservedField :=
  ObservedField old.(f_row_id) old.(f_run_id) old.(f_asset_id) old.(f_field_path) row.(f_data_type).

Definition reload (old row : CatalogLoad) : CatalogLoad :=
  Load old.(l_logical_date) old.(l_source_id) old.(l_asset_id) row.(l_row_count) row.(l_loaded_at).

(** ** Statements *)

Inductive statement : Type :=
| OpenDagRun (r : CatalogDagRun)
| RecordRun (r : CatalogCollectionRun)
| RecordSnapshot (s : CatalogRawSnapshot)
| ObserveRow (r : CatalogObservedRow)
| ObserveField (f : CatalogObservedField)
| AddEvidence (n : CatalogNormalizedEvidence)
| SeeSchema (o : CatalogSchemaObservation)
| AddLoad (l : CatalogLoad)
| AddEdge (e : CatalogLineageEdge)
| CloseDagRun (dag_run_id status : string) (finished_at : Z).

Definition known_asset (db : tables) (asset_id : string) : bool :=
  bool_decide (asset_id ∈ map a_asset_id db.(data_assets)).

Definition known_run (db : tables) (run_id : string) : bool :=
  bool_decide (run_id ∈ map c_run_id db.(collection_runs)).

Definition known_dag_run (db : tables) (dag_run_id : string) : bool :=
  bool_decide (dag_run_id ∈ map d_dag_run_id db.(dag_runs)).

Definition close_dag_run (dag_run_id status : string) (finished_at : Z) (r : CatalogDagRun)
    : CatalogDagRun :=
  if decide (r.(d_dag_run_id) = dag_run_id)
  then DagRun r.(d_dag_run_id) r.(d_dag_id) r.(d_logical_date) status r.(d_started_at) (Some finished_at)
  else r.

Definition upsert_dag_run := upsert "catalog_dag_runs" d_dag_run_id d_dag_run_id reopen_dag_run.
Definition upsert_run := upsert "catalog_collection_runs" run_scope c_run_id retry_collection_run.
Definition upsert_snapshot := upsert "catalog_raw_snapshots" snapshot_key snapshot_id keep_old.
Definition upsert_row := upsert "catalog_observed_rows" observed_key r_row_id reobserve_row.
Definition upsert_field := upsert "catalog_observed_fields" field_key field_key retype_field.
Definition upsert_evidence :=
  upsert "catalog_normalized_evidence" evidence_key evidence_id keep_old.
Definition upsert_schema := upsert "catalog_schema_observations" schema_key schema_key keep_old.
Definition upsert_load := upsert "catalog_loads" load_key load_key reload.
Definition upsert_edge := upsert "catalog_lineage_edges" edge_key edge_key keep_old.

Definition exec (s : statement) (db : tables) : result catalog_error tables :=
  match s with
  | OpenDagRun r =>
      rows ← upsert_dag_run true db.(dag_runs) r; Ok (db <| dag_runs := rows |>)
  | RecordRun r =>
      rows ← upsert_run
        (known_dag_run db r.(c_dag_run_id) && bool_decide (r.(c_source_id) ∈ db.(data_sources)))
        db.(collection_runs) r;
      Ok (db <| collection_runs := rows |>)
  | RecordSnapshot s =>
      rows ← upsert_snapshot (known_run db s.(s_run_id)) db.(raw_snapshots) s;
      Ok (db <| raw_snapshots := rows |>)
  | ObserveRow r =>
      rows ← upsert_row (known_asset db r.(r_asset_id)) db.(observed_rows) r;
      Ok (db <| observed_rows := rows |>)
  | ObserveField f =>
      rows ← upsert_field (bool_decide (f.(f_row_id) ∈ map r_row_id db.(observed_rows)))
        db.(observed_fields) f;
      Ok (db <| observed_fields := rows |>)
  | AddEvidence n =>
      rows ← upsert_evidence true db.(normalized_evidence) n;
      Ok (db <| normalized_evidence := rows |>)
  | SeeSchema o =>
      rows ← upsert_schema (known_asset db o.(o_asset_id)) db.(schema_observations) o;
      Ok (db <| schema_observations := rows |>)
  | AddLoad l => rows ← upsert_load true db.(catalog_loads) l; Ok (db <| catalog_loads := rows |>)
  | AddEdge e => rows ← upsert_edge true db.(lineage_edges) e; Ok (db <| lineage_edges := rows |>)
  | CloseDagRun dag_run_id status finished_at =>
      Ok (db <| dag_runs ::= map (close_dag_run dag_run_id status finished_at) |>)
  end.

Fixpoint exec_all (stmts : list statement) (db : tables) : result catalog_error tables :=
  match stmts with
  | [] => Ok db
  | s :: stmts => db ← exec s db; exec_all stmts db
  end.

(** ** What a committed upsert does to its table *)

Section UpsertLemmas.
Context {R K P : Type} `{EqDecision K, EqDecision P}.
Context (table : string) (target : R -> K) (primary : R -> P) (merge : R -> R -> R).

Let put := put target merge.
Let upsert := upsert table target primary merge.
Let present := present target.
Let merge_row := merge_row target merge.

Definition put_all (rows l : list R) : list R := fold_left put l rows.

Lemma upsert_ok references rows row rows' :
  upsert references rows row = Ok rows' -> rows' = put rows row.
Proof. unfold upsert, put, CatalogTables.upsert, CatalogTables.put. intros H. by repeat case_decide; simplify_eq/=; try destruct references; simplify_eq. Qed.

Lemma upsert_present references rows row :
  present row rows -> upsert references rows row = Ok (put rows row).
Proof. intros. unfold upsert, put, CatalogTables.upsert, CatalogTables.put. by rewrite !decide_True. Qed.

Context (merge_target : forall old row, target (merge old row) = target old).

Lemma merge_row_target row old : target (merge_row row old) = target old.
Proof. unfold merge_row, CatalogTables.merge_row. case_decide; auto. Qed.

Lemma put_targets rows row :
  map target (put rows row) = if decide (present row rows) then map target rows
                              else map target rows ++ [target row].
Proof.
  unfold put, CatalogTables.put. fold present. case_decide; [|apply map_app].
  rewrite map_map. apply map_ext. intros old. apply merge_row_target.
Qed.

Lemma put_present rows row row' : present row' rows -> present row' (put rows row).
Proof. unfold present, CatalogTables.present. rewrite put_targets. case_decide; set_solver. Qed.

Lemma put_makes_present rows row : present row (put rows row).
Proof. unfold present, CatalogTables.present. rewrite put_targets. case_decide; [done|set_solver]. Qed.

Lemma put_all_present rows l row : present row rows \/ row ∈ l -> present row (put_all rows l).
Proof.
  unfold put_all. revert rows. induction l as [|x l IH]; simpl; intros rows [H|H]; try done.
  - by apply elem_of_nil in H.
  - apply IH. left. by apply put_present.
  - apply IH. apply elem_of_cons in H as [->|H]; [left; apply put_makes_present | by right].
Qed.

(** Rows none of which is new and that change nothing leave the table as it
    is. *)
Lemma put_all_idle rows l :
  Forall (fun row => present row rows) l ->
  Forall (fun old => fold_left (fun o row => merge_row row o) l old = old) rows ->
  put_all rows l = rows.
Proof.
  intros Hl. cut (put_all rows l = map (fun old => fold_left (fun o row => merge_row row o) l old) rows).
  { intros -> Hrows. rewrite <- (map_id rows) at 2. apply map_ext_Forall.
    eapply Forall_impl; [exact Hrows|done]. }
  revert rows Hl. unfold put_all.
  induction l as [|row l IH]; simpl; intros rows Hl; [by rewrite map_id|].
  apply Forall_cons in Hl as [Hrow Hl]. rewrite IH.
  - unfold put, CatalogTables.put. rewrite decide_True by done. by rewrite map_map.
  - eapply Forall_impl; [exact Hl|]. intros x. apply put_present.
Qed.

Lemma put_all_keep rows l :
  (forall old row, merge old row = old) -> Forall (fun row => present row rows) l -> put_all rows l = rows.
Proof.
  intros Hkeep Hl. apply put_all_idle; [done|]. apply Forall_forall. intros old _.
  induction l as [|row l IH] using rev_ind; [done|]. rewrite fold_left_app; simpl.
  apply Forall_app in Hl as [Hl _]. rewrite IH by done.
  unfold merge_row, CatalogTables.merge_row. case_decide; auto.
Qed.

Context (merge_absorb : forall old row row', target row = target row' ->
           merge (merge old row) row' = merge old row').
Context (merge_self : forall row, merge row row = row).

(** The merges of the rows already put do not change a present row. *)
Definition settled (l : list R) (old : R) : Prop :=
  fold_left (fun o row => merge_row row o) l old = old.

Lemma merge_rows_last l old :
  fold_left (fun o row => merge_row row o) l old = old \/
  exists row, target row = target old /\ fold_left (fun o row => merge_row row o) l old = merge old row.
Proof.
  induction l as [|row l IH] using rev_ind; [by left|]. rewrite fold_left_app; simpl.
  unfold merge_row at 1 3, CatalogTables.merge_row.
  destruct IH as [->|(r & Hr & ->)]; [case_decide; [right; by exists row | by left]|].
  case_decide as Ht; right; [exists row | by exists r]. rewrite merge_target in Ht.
  split; [done|]. apply merge_absorb. congruence.
Qed.

Lemma settled_merge l row old :
  settled l old -> settled (l ++ [row]) (merge_row row old).
Proof.
  unfold settled. intros Hs. rewrite fold_left_app; simpl.
  unfold merge_row at 1 3 4, CatalogTables.merge_row.
  destruct (decide (target old = target row)) as [Ht|Ht].
  - destruct (merge_rows_last l (merge old row)) as [->|(r & Hr & ->)]; rewrite merge_target in *.
    + rewrite decide_True by done. by apply merge_absorb.
    + rewrite merge_target, decide_True by done. rewrite !merge_absorb by congruence. done.
  - rewrite Hs. by rewrite decide_False.
Qed.

Lemma settled_new l row : settled (l ++ [row]) row.
Proof.
  unfold settled. rewrite fold_left_app; simpl. unfold merge_row at 1, CatalogTables.merge_row.
  destruct (merge_rows_last l row) as [->|(r & Hr & ->)].
  - by rewrite decide_True.
  - rewrite merge_target, decide_True by done. by rewrite merge_absorb.
Qed.

Lemma put_all_settled rows l : Forall (settled []) rows -> Forall (settled l) (put_all rows l).
Proof.
  intros Hrows. induction l as [|row l IH] using rev_ind; [done|].
  unfold put_all. rewrite fold_left_app; simpl. fold (put_all rows l).
  unfold put at 1, CatalogTables.put. case_decide as Hp.
  - apply Forall_map. eapply Forall_impl; [exact IH|]. intros old. apply settled_merge.
  - apply Forall_app. split; [|constructor; [apply settled_new|constructor]].
    apply Forall_forall. intros old Hin. rewrite Forall_forall in IH. specialize (IH _ Hin).
    unfold settled. rewrite fold_left_app; simpl. rewrite IH. unfold merge_row at 1, CatalogTables.merge_row.
    case_decide as Ht; [|done]. destruct Hp. unfold present, CatalogTables.present.
    rewrite <- Ht. apply list_elem_of_fmap. by exists old.
Qed.

(** Putting the same rows a second time changes nothing. *)
Lemma put_all_twice rows l : put_all (put_all rows l) l = put_all rows l.
Proof.
  apply put_all_idle.
  - apply Forall_forall. intros row Hin. apply put_all_present. by right.
  - apply put_all_settled, Forall_true. done.
Qed.
End UpsertLemmas.

(** ** What a committed list of statements does to the tables *)

Definition put_row := put observed_key reobserve_row.
Definition put_field := put field_key retype_field.
Definition put_evidence := put evidence_key (@keep_old CatalogNormalizedEvidence).
Definition put_schema := put schema_key (@keep_old CatalogSchemaObservation).
Definition put_load := put load_key reload.
Definition put_edge := put edge_key (@keep_old CatalogLineageEdge).

(** The statements of the load: they leave the runs, the snapshots and the
    registrations alone. *)
Definition apply (s : statement) (db : tables) : tables :=
  match s with
  | ObserveRow r => db <| observed_rows ::= fun rows => put_row rows r |>
  | ObserveField f => db <| observed_fields ::= fun rows => put_field rows f |>
  | AddEvidence n => db <| normalized_evidence ::= fun rows => put_evidence rows n |>
  | SeeSchema o => db <| schema_observations ::= fun rows => put_schema rows o |>
  | AddLoad l => db <| catalog_loads ::= fun rows => put_load rows l |>
  | AddEdge e => db <| lineage_edges ::= fun rows => put_edge rows e |>
  | OpenDagRun _ | RecordRun _ | RecordSnapshot _ | CloseDagRun _ _ _ => db
  end.

Definition of_load (s : statement) : bool :=
  match s with
  | OpenDagRun _ | RecordRun _ | RecordSnapshot _ | CloseDagRun _ _ _ => false
  | _ => true
  end.

Definition apply_all (stmts : list statement) (db : tables) : tables :=
  fold_left (fun db s => apply s db) stmts db.

(** The row of a statement is in its table. *)
Definition in_table (db : tables) (s : statement) : Prop :=
  match s with
  | ObserveRow r => present observed_key r db.(observed_rows)
  | ObserveField f => present field_key f db.(observed_fields)
  | AddEvidence n => present evidence_key n db.(normalized_evidence)
  | SeeSchema o => present schema_key o db.(schema_observations)
  | AddLoad l => present load_key l db.(catalog_loads)
  | AddEdge e => present edge_key e db.(lineage_edges)
  | OpenDagRun _ | RecordRun _ | RecordSnapshot _ | CloseDagRun _ _ _ => False
  end.

Lemma exec_apply s db db' : of_load s = true -> exec s db = Ok db' -> db' = apply s db.
Proof.
  destruct s; simpl; try done; intros _ (rows & Hrows & Heq)%result_bind_inv; simplify_eq;
    apply upsert_ok in Hrows; by subst.
Qed.

Lemma exec_in_table s db : in_table db s -> exec s db = Ok (apply s db).
Proof.
  destruct s; simpl; try done; intros Hp;
    unfold upsert_row, upsert_field, upsert_evidence, upsert_schema, upsert_load, upsert_edge;
    rewrite upsert_present by done; done.
Qed.

Lemma in_table_apply s s' db : in_table db s' -> in_table (apply s db) s'.
Proof. destruct s; simpl; try done; destruct s'; simpl; try done; by apply put_present. Qed.

Lemma in_table_self s db : of_load s = true -> in_table (apply s db) s.
Proof. destruct s; simpl; try done; intros _; by apply put_makes_present. Qed.

Lemma exec_all_apply stmts db db' :
  forallb of_load stmts = true -> exec_all stmts db = Ok db' -> db' = apply_all stmts db.
Proof.
  revert db. induction stmts as [|s stmts IH]; simpl; intros db Hl; [by intros [= ->]|].
  bool_to_prop. intros (db1 & H1 & H2)%result_bind_inv.
  apply exec_apply in H1; [|done]. subst. by apply IH.
Qed.

Lemma exec_all_in_table stmts db :
  Forall (in_table db) stmts -> exec_all stmts db = Ok (apply_all stmts db).
Proof.
  revert db. induction stmts as [|s stmts IH]; simpl; intros db Hs; [done|].
  apply Forall_cons in Hs as [Hs1 Hs2]. rewrite exec_in_table by done. cbn.
  apply IH. eapply Forall_impl; [exact Hs2|]. intros s'. apply in_table_apply.
Qed.

Lemma in_table_apply_all s stmts db : in_table db s -> in_table (apply_all stmts db) s.
Proof.
  revert db. induction stmts as [|s' stmts IH]; simpl; intros db Hs; [done|].
  by apply IH, in_table_apply.
Qed.

Lemma apply_all_in_table stmts db :
  forallb of_load stmts = true -> Forall (in_table (apply_all stmts db)) stmts.
Proof.
  revert db. induction stmts as [|s stmts IH]; simpl; intros db Hl; [done|].
  bool_to_prop. constructor; [by apply in_table_apply_all, in_table_self | by apply IH].
Qed.

(** The rows a list of statements puts in each table. *)
Definition row_of (s : statement) := match s with ObserveRow r => Some r | _ => None end.
Definition field_of (s : statement) := match s with ObserveField f => Some f | _ => None end.
Definition evidence_of (s : statement) := match s with AddEvidence n => Some n | _ => None end.
Definition schema_of (s : statement) := match s with SeeSchema o => Some o | _ => None end.
Definition load_of (s : statement) := match s with AddLoad l => Some l | _ => None end.
Definition edge_of (s : statement) := match s with AddEdge e => Some e | _ => None end.

Lemma apply_all_tables stmts db :
  apply_all stmts db =
    Tables db.(dag_runs) db.(collection_runs) db.(data_sources) db.(data_assets)
      (put_all schema_key keep_old db.(schema_observations) (omap schema_of stmts))
      db.(raw_snapshots)
      (put_all edge_key keep_old db.(lineage_edges) (omap edge_of stmts))
      (put_all observed_key reobserve_row db.(observed_rows) (omap row_of stmts))
      (put_all field_key retype_field db.(observed_fields) (omap field_of stmts))
      (put_all evidence_key keep_old db.(normalized_evidence) (omap evidence_of stmts))
      (put_all load_key reload db.(catalog_loads) (omap load_of stmts)).
Proof.
  revert db. induction stmts as [|s stmts IH]; intros db; [by destruct db|].
  unfold apply_all in *; cbn [fold_left]. rewrite IH. destruct s; reflexivity.
Qed.

(** ** Executing the same load a second time *)

Definition unclock (l : CatalogLoad) : CatalogLoad := l <| l_loaded_at := 0 |>.

(** Everything but the life of the DAG runs and the time of the loads. *)
Definition content (db : tables) : tables :=
  Tables [] db.(collection_runs) db.(data_sources) db.(data_assets) db.(schema_observations)
    db.(raw_snapshots) db.(lineage_edges) db.(observed_rows) db.(observed_fields)
    db.(normalized_evidence) (map unclock db.(catalog_loads)).

(** Two statements that differ at most in a clock reading. *)
Definition same_but_clock (s s' : statement) : Prop :=
  match s, s' with
  | AddEvidence n, AddEvidence n' => evidence_key n = evidence_key n'
  | AddLoad l, AddLoad l' => unclock l = unclock l'
  | _, _ => s = s' /\ of_load s = true
  end.

Lemma same_but_clock_of_load stmts stmts' :
  Forall2 same_but_clock stmts stmts' -> forallb of_load stmts = true.
Proof. induction 1 as [|[] [] ? ? Hs _ IH]; simpl in *; try done; by destruct Hs. Qed.

Lemma unclock_key l : load_key (unclock l) = load_key l.
Proof. by destruct l. Qed.

Lemma load_keys_content loads : map load_key (map unclock loads) = map load_key loads.
Proof. rewrite map_map. apply map_ext. apply unclock_key. Qed.

Ltac split_same H :=
  match type of H with
  | _ /\ _ => first [by destruct H | destruct H as [[= <-] _]]
  | _ => idtac
  end.

Lemma in_table_same s s' db db' :
  same_but_clock s s' -> content db = content db' -> in_table db s -> in_table db' s'.
Proof.
  intros Hs Hc. assert (Hloads := f_equal catalog_loads Hc). apply (f_equal (map load_key)) in Hloads.
  cbn [content catalog_loads] in Hloads. unfold content in Hc. injection Hc as Hc1 Hc2 Hc3 Hc4 Hc5 Hc6 Hc7 Hc8 Hc9 Hc10.
  cbn in Hloads. rewrite !load_keys_content in Hloads.
  destruct s, s'; simpl in Hs; split_same Hs; simpl;
    unfold present; intros Hin; try congruence.
  apply (f_equal load_key) in Hs. rewrite !unclock_key in Hs. congruence.
Qed.

Lemma put_all_unclock rows l :
  map unclock (put_all load_key reload rows l) = put_all load_key reload (map unclock rows) (map unclock l).
Proof.
  unfold put_all. revert rows. induction l as [|x l IH]; simpl; intros rows; [done|].
  rewrite IH. f_equal. unfold put.
  assert (Hiff : present load_key (unclock x) (map unclock rows) <-> present load_key x rows).
  { unfold present. by rewrite load_keys_content, unclock_key. }
  rewrite (decide_ext _ _ _ _ Hiff). case_decide; [|by rewrite map_app]. rewrite !map_map. apply map_ext. intros old.
  unfold merge_row. rewrite !unclock_key. case_decide; [by destruct old, x|done].
Qed.

Lemma same_but_clock_rows stmts stmts' :
  Forall2 same_but_clock stmts stmts' ->
  omap row_of stmts = omap row_of stmts' /\ omap field_of stmts = omap field_of stmts'
  /\ map unclock (omap load_of stmts) = map unclock (omap load_of stmts').
Proof.
  induction 1 as [|s s' stmts stmts' Hs _ (IH1 & IH2 & IH3)]; [done|]. csimpl.
  destruct s, s'; simpl in Hs |- *; split_same Hs;
    rewrite ?IH1, ?IH2, ?IH3, ?Hs; done.
Qed.

Lemma omap_in_table {R} (pick : statement -> option R) (P : R -> Prop) db stmts :
  (forall s r, pick s = Some r -> in_table db s -> P r) ->
  Forall (in_table db) stmts -> Forall P (omap pick stmts).
Proof.
  intros Hpick. induction 1 as [|s stmts Hs _ IH]; csimpl; [constructor|].
  destruct (pick s) eqn:E; eauto.
Qed.

Lemma rerun_statements stmts stmts' db db' :
  Forall2 same_but_clock stmts stmts' -> content db' = content (apply_all stmts db) ->
  exists db'', exec_all stmts' db' = Ok db'' /\ content db'' = content db'.
Proof.
  intros Hs Hc. assert (Hin : Forall (in_table db') stmts').
  { pose proof (apply_all_in_table stmts db (same_but_clock_of_load _ _ Hs)) as Hin.
    revert Hin. generalize (apply_all stmts db) Hc. clear Hc. intros db0 Hc Hin.
    induction Hs; [constructor|]. apply Forall_cons in Hin as [H1 H2]. constructor; [|by apply IHHs].
    by eapply in_table_same. }
  exists (apply_all stmts' db'). split; [by apply exec_all_in_table|].
  destruct (same_but_clock_rows _ _ Hs) as (Hr & Hf & Hl).
  rewrite (apply_all_tables stmts db) in Hc. rewrite apply_all_tables.
  unfold content in *. injection Hc as Hc1 Hc2 Hc3 Hc4 Hc5 Hc6 Hc7 Hc8 Hc9 Hc10.
  cbn -[put_all omap map]. f_equal.
  - apply put_all_keep; [done..|]. eapply omap_in_table; [|exact Hin]. intros [] ?; simpl; naive_solver.
  - apply put_all_keep; [done..|]. eapply omap_in_table; [|exact Hin]. intros [] ?; simpl; naive_solver.
  - rewrite <- Hr, Hc7. apply put_all_twice; [done..|]. by intros [].
  - rewrite <- Hf, Hc8. apply put_all_twice; [done..|]. by intros [].
  - apply put_all_keep; [done..|]. eapply omap_in_table; [|exact Hin]. intros [] ?; simpl; naive_solver.
  - rewrite put_all_unclock, Hc10, put_all_unclock, <- Hl. apply put_all_twice; [done..|]. by intros [].
Qed.
