(* ===== verification/CatalogPipeline.v ===== *)
(** The batch pipeline of the data catalog ([domains/datacatalog/pipeline.py],
    [sources.py], [packages/contracts/catalog/vocabulary.py]) and the Airflow
    tasks that call it ([dags/catalog_reconciliation_daily.py]).

    A function that writes is the list of statements it executes: the
    transaction of a task executes them in order and commits all or nothing,
    so which of two failures comes first makes no difference.  The archive
    directory is a map from path to the payloads stored there ([json.loads]
    gives back what [json.dumps] wrote); a file written by a transaction that
    aborts stays.  [uuid5], SHA-256, the string escaping of
    [ensure_ascii=False], [str] of a timestamp and the size of a file are
    parameters.  Source order is the order of the code points. *)

From stdpp Require Import pretty.
From S2P Require Import Prelude PyString Json SchemaContract CatalogTables.
From coqutil Require Import Datatypes.RecordSettersUsingExistingGetters.
#[global] Open Scope Z_scope.

(** ** Vocabulary *)

Definition DAG_RUN_STATUSES : list string := ["SUCCESS"; "PARTIAL"; "FAILED"; "INCOMPLETE"].
Definition COLLECTION_RUN_STATUSES : list string := ["SUCCESS"; "NO_DATA"; "TRUNCATED"; "FAILED"].
Definition HEALTHY_COLLECTION_STATUSES : list string := ["SUCCESS"; "NO_DATA"].
Definition UNHEALTHY_COLLECTION_STATUSES : list string :=
  filter (fun s => s ∉ HEALTHY_COLLECTION_STATUSES) COLLECTION_RUN_STATUSES.

Definition DAG_ID : string := "catalog_reconciliation_daily".
Definition SOURCES : list string := ["kubernetes"; "prometheus"; "loki"; "tempo"].

Definition dag_run_id_for (dag_id logical_date : string) : string :=
  dag_id +:+ "__" +:+ logical_date.

Definition collection_run_id_for (dag_run_id source_id : string) : string :=
  dag_run_id +:+ "__" +:+ source_id.

(** ** Extraction *)

(** One observation of a source: a JSON object. *)
Abbreviation item := (odict json) (only parsing).
Abbreviation archive := (gmap string (list item)) (only parsing).

(** [item[key]] where the code needs a string. *)
Definition item_str (key : string) (it : item) : result catalog_error string :=
  match dict_get key it with
  | Some (JStr s) => Ok s
  | Some _ => Err (ForeignField key)
  | None => Err (KeyError key)
  end.

Definition item_payload (it : item) : result catalog_error json :=
  match dict_get "payload" it with Some v => Ok v | None => Err (KeyError "payload") end.

(** [item.get("cluster_id", "local")]. *)
Definition item_cluster (it : item) : result catalog_error string :=
  match dict_get "cluster_id" it with
  | Some (JStr s) => Ok s
  | Some _ => Err (ForeignField "cluster_id")
  | None => Ok "local"
  end.

Record ExtractOutcome : Type := Outcome {
  source_id : string;
  status : string;
  payloads : list item;
  s3_uri : option string;
  content_hash : option string }.

Definition ok (o : ExtractOutcome) : bool := bool_decide (o.(status) ∈ HEALTHY_COLLECTION_STATUSES).

(** [FixtureSource.fetch] over the files of its root directory. *)
Definition fixture_fetch (files : archive) (root source_id logical_date : string)
    : result catalog_error (list item) :=
  Ok (default [] (files !! (root +:+ "/" +:+ source_id +:+ ".json"))).

Definition archive_path (archive_root logical_date source_id : string) : string :=
  archive_root +:+ "/" +:+ logical_date +:+ "/" +:+ source_id +:+ ".json".

Definition fetched_status (payloads : list item) : string :=
  match payloads with [] => "NO_DATA" | _ => "SUCCESS" end.

(** [source.fetch(source_id, logical_date)]. *)
Abbreviation fetcher := (string -> string -> result catalog_error (list item)) (only parsing).

Fixpoint map_result {A B} (f : A -> result catalog_error B) (l : list A) : result catalog_error (list B) :=
  match l with
  | [] => Ok []
  | x :: l => y ← f x; ys ← map_result f l; Ok (y :: ys)
  end.

(** A loop whose body executes statements. *)
Definition for_each {A} (l : list A) (body : A -> result catalog_error (list statement))
    : result catalog_error (list statement) :=
  parts ← map_result body l; Ok (concat parts).

Section Pipeline.
Context (uuid5 sha256_hex quote : string -> string) (clock_text : Z -> string).
Context (file_size : list item -> Z) (archive_root : string).

Definition digest (payloads : list item) : string :=
  sha256_hex (canonical_dumps quote (JArr (map JObj payloads))).

Definition extract_source (source_id logical_date : string) (fetch : fetcher) (files : archive)
    (today : string) (fail_sources : list string) : result catalog_error ExtractOutcome :=
  if decide (source_id ∈ fail_sources) then Ok (Outcome source_id "FAILED" [] None None)
  else
    let path := archive_path archive_root logical_date source_id in
    match files !! path with
    | Some payloads =>
        if String.ltb logical_date today
        then Ok (Outcome source_id (fetched_status payloads) payloads
                   (Some ("file://" +:+ path)) (Some (digest payloads)))
        else payloads ← fetch source_id logical_date;
             Ok (Outcome source_id (fetched_status payloads) payloads None None)
    | None =>
        payloads ← fetch source_id logical_date;
        Ok (Outcome source_id (fetched_status payloads) payloads None None)
    end.

(** ** Reading the archived outcomes back *)

(** The newest snapshot of a run ([ORDER BY created_at DESC]): the earlier row
    of two created by the same transaction. *)
Definition newer (best : option CatalogRawSnapshot) (s : CatalogRawSnapshot) : option CatalogRawSnapshot :=
  match best with
  | Some b => if b.(s_created_at) <? s.(s_created_at) then Some s else best
  | None => Some s
  end.

Definition latest_snapshot (db : tables) (run_id : string) : option CatalogRawSnapshot :=
  fold_left newer (filter (fun s => s.(s_run_id) = run_id) db.(raw_snapshots)) None.

(** The file behind a snapshot; [None] is no snapshot. *)
Definition read_snapshot (files : archive) (s : CatalogRawSnapshot) : result catalog_error (list item) :=
  if decide (s.(s_uri) = "") then Ok []
  else if String.prefix "file://" s.(s_uri) then
    let path := String.substring 7 (String.length s.(s_uri)) s.(s_uri) in
    match files !! path with Some p => Ok p | None => Err (FileNotFound path) end
  else Err (UnsupportedArchive s.(s_uri)).

Definition truthy (s : string) : option string := if decide (s = "") then None else Some s.

Definition archived_outcome (files : archive) (db : tables) (r : CatalogCollectionRun)
    : result catalog_error ExtractOutcome :=
  match latest_snapshot db r.(c_run_id) with
  | None => Ok (Outcome r.(c_source_id) r.(c_status) [] None None)
  | Some s =>
      payloads ← read_snapshot files s;
      Ok (Outcome r.(c_source_id) r.(c_status) payloads (truthy s.(s_uri)) (truthy s.(s_content_hash)))
  end.

(** A run is unique in its DAG run and source, so [DISTINCT ON (source_id)]
    keeps each run once, with its newest snapshot. *)
Definition runs_of (db : tables) (dag_run_id : string) : list CatalogCollectionRun :=
  (sort_items (map (fun r => (r.(c_source_id), r))
    (filter (fun r => r.(c_dag_run_id) = dag_run_id) db.(collection_runs)))).*2.

Definition load_archived_outcomes (files : archive) (db : tables) (dag_run_id : string)
    : result catalog_error (list ExtractOutcome) :=
  map_result (archived_outcome files db) (runs_of db dag_run_id).

(** ** Archiving *)

(** The file an outcome leaves in the archive: an existing one is kept. *)
Definition archive_outcome (logical_date : string) (files : archive) (o : ExtractOutcome) : archive :=
  if ok o && negb (bool_decide (o.(payloads) = [])) then
    let path := archive_path archive_root logical_date o.(source_id) in
    match files !! path with Some _ => files | None => <[path := o.(payloads)]> files end
  else files.

Definition archived_digest (o : ExtractOutcome) : string :=
  match o.(content_hash) with
  | Some h => if decide (h = "") then digest o.(payloads) else h
  | None => digest o.(payloads)
  end.

(** The row of an outcome, [files] holding the archive after its write;
    [now] is the transaction's [now()]. *)
Definition snapshot_statements (dag_run_id logical_date : string) (now : Z) (files : archive)
    (o : ExtractOutcome) : list statement :=
  if ok o && negb (bool_decide (o.(payloads) = [])) then
    let path := archive_path archive_root logical_date o.(source_id) in
    let run_id := collection_run_id_for dag_run_id o.(source_id) in
    [RecordSnapshot (RawSnapshot ("snap-" +:+ uuid5 (run_id +:+ archived_digest o)) run_id
       ("file://" +:+ path) (archived_digest o) (file_size (default [] (files !! path))) now)]
  else [].

Fixpoint archive_raw_snapshot (dag_run_id logical_date : string) (now : Z)
    (outcomes : list ExtractOutcome) (files : archive) : archive * list statement :=
  match outcomes with
  | [] => (files, [])
  | o :: outcomes =>
      let files := archive_outcome logical_date files o in
      let rest := archive_raw_snapshot dag_run_id logical_date now outcomes files in
      (rest.1, snapshot_statements dag_run_id logical_date now files o ++ rest.2)
  end.

(** ** Normalization *)

(** The statements of one observation; [ingested_at] is the clock read for it. *)
Definition normalize_item (run_id : string) (o : ExtractOutcome) (observed_at ingested_at : Z)
    (it : item) : result catalog_error (list statement) :=
  asset_id ← item_str "asset_id" it;
  row_key ← item_str "row_key" it;
  payload ← item_payload it;
  cluster ← item_cluster it;
  let row_id := "row-" +:+ uuid5 (run_id +:+ "/" +:+ asset_id +:+ "/" +:+ row_key) in
  Ok (ObserveRow (ObservedRow row_id run_id asset_id row_key observed_at)
      :: map (fun field => ObserveField (ObservedField row_id run_id asset_id field.1 field.2))
           (contract_from_payload payload)
      ++ [AddEvidence (NormalizedEvidence
            ("ev-" +:+ uuid5 (asset_id +:+ "/" +:+ row_key +:+ "/" +:+ clock_text observed_at))
            asset_id run_id cluster o.(source_id) row_key o.(status) observed_at ingested_at)]).

(** [ingested] gives the clock reading for the n-th observation of a source. *)
Definition normalize_asset_schema (dag_run_id : string) (outcomes : list ExtractOutcome)
    (observed_at : Z) (ingested : string -> nat -> Z) : result catalog_error (list statement) :=
  for_each outcomes (fun o =>
    let run_id := collection_run_id_for dag_run_id o.(source_id) in
    for_each (imap pair o.(payloads)) (fun entry =>
      normalize_item run_id o observed_at (ingested o.(source_id) entry.1) entry.2)).

(** ** Schema history *)

(** The contract of each asset over all observations of a source. *)
Fixpoint merge_contracts (by_asset : odict (odict (option string))) (items : list item)
    : result catalog_error (odict (odict (option string))) :=
  match items with
  | [] => Ok by_asset
  | it :: items =>
      asset_id ← item_str "asset_id" it;
      payload ← item_payload it;
      let merged := default [] (dict_get asset_id by_asset) in
      merge_contracts
        (dict_set asset_id (fold_left keep_known (contract_from_payload payload) merged) by_asset) items
  end.

Definition schema_version (db : tables) (asset_id : string) : option Z :=
  current_schema_version <$> head (filter (fun a => a.(a_asset_id) = asset_id) db.(data_assets)).

Definition schema_statement (db : tables) (run_id : string) (observed_at : Z)
    (entry : string * odict (option string)) : list statement :=
  match schema_version db entry.1 with
  | None => []
  | Some version =>
      [SeeSchema (SchemaObservation entry.1 version (schema_hash sha256_hex quote (sort_items entry.2))
         run_id observed_at)]
  end.

Definition record_schema_observations (db : tables) (dag_run_id : string)
    (outcomes : list ExtractOutcome) (observed_at : Z) : result catalog_error (list statement) :=
  for_each outcomes (fun o =>
    by_asset ← merge_contracts [] o.(payloads);
    Ok (flat_map (schema_statement db (collection_run_id_for dag_run_id o.(source_id)) observed_at)
          by_asset)).

(** ** Loads and lineage *)

Definition count_asset (counts : odict Z) (asset_id : string) : odict Z :=
  dict_set asset_id (default 0 (dict_get asset_id counts) + 1) counts.

Definition load_catalog (logical_date : string) (outcomes : list ExtractOutcome) (loaded_at : Z)
    : result catalog_error (list statement) :=
  for_each outcomes (fun o =>
    assets ← map_result (item_str "asset_id") o.(payloads);
    Ok (map (fun c => AddLoad (Load logical_date o.(source_id) c.1 c.2 loaded_at))
          (fold_left count_asset assets []))).

(** The set of assets is iterated in the order of their first occurrence. *)
Definition record_lineage (dag_run_id : string) (outcomes : list ExtractOutcome)
    : result catalog_error (list statement) :=
  for_each outcomes (fun o =>
    if ok o then
      assets ← map_result (item_str "asset_id") o.(payloads);
      Ok (map (fun a => AddEdge (LineageEdge a "ops.normalized_evidence" "normalize_asset_schema"
                          (collection_run_id_for dag_run_id o.(source_id)))) (dedup assets))
    else Ok []).

(** ** Runs and their status *)

Definition upsert_collection_runs (dag_run_id logical_date : string)
    (outcomes : list ExtractOutcome) (finished_at : Z) : list statement :=
  map (fun o => RecordRun (CollectionRun (collection_run_id_for dag_run_id o.(source_id)) dag_run_id
         o.(source_id) logical_date o.(status) 1 (Some finished_at))) outcomes.

Definition dag_status (rows : list string) (downstream_complete : bool) : string :=
  if bool_decide (rows = []) then "FAILED"
  else if forallb (fun r => bool_decide (r = "FAILED")) rows then "FAILED"
  else if negb downstream_complete then "INCOMPLETE"
  else if existsb (fun r => bool_decide (r ∈ UNHEALTHY_COLLECTION_STATUSES)) rows then "PARTIAL"
  else "SUCCESS".

Definition run_statuses (db : tables) (dag_run_id : string) : list string :=
  map c_status (filter (fun r => r.(c_dag_run_id) = dag_run_id) db.(collection_runs)).

Definition resolve_dag_run_status (db : tables) (dag_run_id : string) (downstream_complete : bool)
    (finished_at : Z) : string * list statement :=
  let status := dag_status (run_statuses db dag_run_id) downstream_complete in
  (status, [CloseDagRun dag_run_id status finished_at]).

Definition open_dag_run (logical_date : string) (started_at : Z) : string * list statement :=
  let dag_run_id := dag_run_id_for DAG_ID logical_date in
  (dag_run_id, [OpenDagRun (DagRun dag_run_id DAG_ID logical_date "INCOMPLETE" started_at None)]).

(** ** The tasks of the DAG

    A task is a transaction on the tables next to the archive; it returns or
    raises, and may raise after its commit. *)

Record catalog : Type := Catalog { files : archive; db : tables }.

Definition extract (source_id run_date : string) (fetch : fetcher) (today : string) (now : Z)
    (c : catalog) : catalog * result catalog_error string :=
  match extract_source source_id run_date fetch c.(files) today [] with
  | Err e => (c, Err e)
  | Ok outcome =>
      let opened := open_dag_run run_date now in
      let runs := upsert_collection_runs opened.1 run_date [outcome] now in
      match exec_all (opened.2 ++ runs) c.(db) with
      | Err e => (c, Err e)
      | Ok db1 =>
          let archived := archive_raw_snapshot opened.1 run_date now [outcome] c.(files) in
          match exec_all archived.2 db1 with
          | Err e => (Catalog archived.1 c.(db), Err e)
          | Ok db2 =>
              (Catalog archived.1 db2,
               if decide (outcome.(status) = "FAILED") then Err (ExtractFailed source_id)
               else Ok outcome.(status))
          end
      end
  end.

Definition downstream (db : tables) (dag_run_id run_date : string) (outcomes : list ExtractOutcome)
    (observed_at now : Z) (ingested : string -> nat -> Z) : result catalog_error (list statement) :=
  rows ← normalize_asset_schema dag_run_id outcomes observed_at ingested;
  schemas ← record_schema_observations db dag_run_id outcomes observed_at;
  loads ← load_catalog run_date outcomes now;
  edges ← record_lineage dag_run_id outcomes;
  Ok (rows ++ schemas ++ loads ++ edges).

Definition archive_and_load (run_date : string) (observed_at now : Z) (ingested : string -> nat -> Z)
    (c : catalog) : catalog * result catalog_error string :=
  let opened := open_dag_run run_date now in
  let committed :=
    db1 ← exec_all opened.2 c.(db);
    outcomes ← load_archived_outcomes c.(files) db1 opened.1;
    if existsb ok outcomes then
      stmts ← downstream db1 opened.1 run_date outcomes observed_at now ingested;
      exec_all stmts db1
    else Err NoSourceOutput in
  match committed with
  | Ok db2 => (c <| db := db2 |>, Ok opened.1)
  | Err e => (c, Err e)
  end.

Definition resolve_status (dag_run_id : option string) (run_date : string) (now : Z) (c : catalog)
    : catalog * result catalog_error string :=
  let opened :=
    match dag_run_id with
    | Some id => (id, [])
    | None => open_dag_run run_date now
    end in
  let committed :=
    db1 ← exec_all opened.2 c.(db);
    let resolved := resolve_dag_run_status db1 opened.1 (bool_decide (is_Some dag_run_id)) now in
    db2 ← exec_all resolved.2 db1;
    Ok (resolved.1, db2) in
  match committed with
  | Ok (status, db2) => (c <| db := db2 |>, Ok status)
  | Err e => (c, Err e)
  end.

(** One run of the DAG: an extraction per source, then the load and the status
    whatever became of the tasks before them ([TriggerRule.ALL_DONE]). *)
Definition run_dag (run_date today : string) (fetch : fetcher) (observed_at now : Z)
    (ingested : string -> nat -> Z) (c : catalog) : catalog * result catalog_error string :=
  let extracted := fold_left (fun c s => (extract s run_date fetch today now c).1) SOURCES c in
  let loaded := archive_and_load run_date observed_at now ingested extracted in
  resolve_status (match loaded.2 with Ok id => Some id | Err _ => None end) run_date now loaded.1.
End Pipeline.

(** ** The statements of a load up to the clock *)

Lemma for_each_rel {A} (rel : statement -> statement -> Prop) (l : list A) f g stmts :
  (forall x part, f x = Ok part -> exists part', g x = Ok part' /\ Forall2 rel part part') ->
  for_each l f = Ok stmts -> exists stmts', for_each l g = Ok stmts' /\ Forall2 rel stmts stmts'.
Proof.
  intros Hfg. unfold for_each. revert stmts.
  induction l as [|x l IH]; simpl; intros stmts; [intros [= <-]; by exists []|].
  intros (parts & (part & Hf & (rest & Hrest & [= <-])%result_bind_inv)%result_bind_inv & [= <-])%result_bind_inv.
  apply Hfg in Hf as (part' & -> & Hrel).
  destruct (IH (concat rest)) as (rest' & Hg & Hrel'); [by rewrite Hrest|].
  apply result_bind_inv in Hg as (parts' & -> & [= <-]).
  exists (part' ++ concat parts'). split; [done|]. simpl. by apply Forall2_app.
Qed.

Lemma same_but_clock_refl stmts : forallb of_load stmts = true -> Forall2 same_but_clock stmts stmts.
Proof.
  induction stmts as [|s stmts IH]; simpl; [constructor|]. intros. bool_to_prop.
  constructor; [by destruct s|auto].
Qed.

Section Clock.
Context (uuid5 sha256_hex quote : string -> string) (clock_text : Z -> string).

Let normalize_item := normalize_item uuid5 clock_text.
Let downstream := downstream uuid5 sha256_hex quote clock_text.

Lemma normalize_item_clock run_id o observed_at t t' it stmts :
  normalize_item run_id o observed_at t it = Ok stmts ->
  exists stmts', normalize_item run_id o observed_at t' it = Ok stmts' /\ Forall2 same_but_clock stmts stmts'.
Proof.
  unfold normalize_item, CatalogPipeline.normalize_item.
  destruct (item_str "asset_id" it), (item_str "row_key" it), (item_payload it), (item_cluster it);
    try done; cbn -[contract_from_payload].
  intros [= <-]. eexists. split; [done|]. constructor; [done|]. apply Forall2_app; [|by repeat constructor].
  apply same_but_clock_refl. by induction (contract_from_payload x1).
Qed.

Definition clocked (m m' : result catalog_error (list statement)) : Prop :=
  forall stmts, m = Ok stmts -> exists stmts', m' = Ok stmts' /\ Forall2 same_but_clock stmts stmts'.

Lemma normalize_clock dag_run_id outcomes observed_at ingested ingested' :
  clocked (normalize_asset_schema uuid5 clock_text dag_run_id outcomes observed_at ingested)
    (normalize_asset_schema uuid5 clock_text dag_run_id outcomes observed_at ingested').
Proof.
  intros stmts. apply for_each_rel. intros o part. apply for_each_rel. intros e part'.
  apply normalize_item_clock.
Qed.

Lemma schemas_clock db db' dag_run_id outcomes observed_at :
  db.(data_assets) = db'.(data_assets) ->
  clocked (record_schema_observations sha256_hex quote db dag_run_id outcomes observed_at)
    (record_schema_observations sha256_hex quote db' dag_run_id outcomes observed_at).
Proof.
  intros Hassets stmts. apply for_each_rel. intros o part (by_asset & -> & [= <-])%result_bind_inv.
  eexists. split; [done|].
  assert (E : forall run e, schema_statement sha256_hex quote db' run observed_at e
                            = schema_statement sha256_hex quote db run observed_at e).
  { intros run e. unfold schema_statement, schema_version. by rewrite Hassets. }
  rewrite (flat_map_ext _ _ (E _)).
  apply same_but_clock_refl. induction by_asset as [|e by_asset IH]; simpl; [done|].
  rewrite forallb_app, IH. unfold schema_statement. by case_match.
Qed.

Lemma loads_clock logical_date outcomes now now' :
  clocked (load_catalog logical_date outcomes now) (load_catalog logical_date outcomes now').
Proof.
  intros stmts. apply for_each_rel. intros o part (assets & -> & [= <-])%result_bind_inv.
  eexists. split; [done|]. by induction (fold_left count_asset assets []); constructor.
Qed.

Lemma lineage_clock dag_run_id outcomes :
  clocked (record_lineage dag_run_id outcomes) (record_lineage dag_run_id outcomes).
Proof.
  intros stmts. apply for_each_rel. intros o part. destruct (ok o); [|intros [= <-]; by exists []].
  intros (assets & -> & [= <-])%result_bind_inv. eexists. split; [done|].
  by induction (dedup assets); constructor.
Qed.

Lemma downstream_clock db db' dag_run_id run_date outcomes observed_at now now' ingested ingested' :
  db.(data_assets) = db'.(data_assets) ->
  clocked (downstream db dag_run_id run_date outcomes observed_at now ingested)
    (downstream db' dag_run_id run_date outcomes observed_at now' ingested').
Proof.
  intros Hassets stmts. unfold downstream, CatalogPipeline.downstream.
  intros (rows & Hrows & (schemas & Hschemas & (loads & Hloads & (edges & Hedges & [= <-])
    %result_bind_inv)%result_bind_inv)%result_bind_inv)%result_bind_inv.
  destruct (normalize_clock _ _ _ _ ingested' _ Hrows) as (rows' & -> & Hr).
  destruct (schemas_clock _ _ _ _ _ Hassets _ Hschemas) as (schemas' & -> & Hs).
  destruct (loads_clock _ _ _ now' _ Hloads) as (loads' & -> & Hl).
  destruct (lineage_clock _ _ _ Hedges) as (edges' & -> & He).
  eexists. split; [done|]. by repeat apply Forall2_app.
Qed.
End Clock.

(** ** The tasks *)

Lemma open_dag_run_exec run_date t db :
  exists rows, dag_run_id_for DAG_ID run_date ∈ map d_dag_run_id rows
    /\ exec_all (open_dag_run run_date t).2 db = Ok (db <| dag_runs := rows |>).
Proof.
  simpl. unfold upsert_dag_run.
  set (row := DagRun _ _ _ _ _ _). exists (put d_dag_run_id reopen_dag_run (dag_runs db) row). split.
  - by apply (put_makes_present d_dag_run_id reopen_dag_run (fun _ _ => eq_refl) _ row).
  - unfold upsert, put. case_decide as H1; [done|]. by rewrite decide_False by exact H1.
Qed.

Lemma archived_outcomes_same files db db' dag_run_id :
  db.(collection_runs) = db'.(collection_runs) -> db.(raw_snapshots) = db'.(raw_snapshots) ->
  load_archived_outcomes files db dag_run_id = load_archived_outcomes files db' dag_run_id.
Proof.
  intros H1 H2. unfold load_archived_outcomes, runs_of. rewrite H1.
  induction (sort_items _).*2 as [|r runs IH]; simpl; [done|]. rewrite IH.
  unfold archived_outcome, latest_snapshot. by rewrite H2.
Qed.

Lemma content_dag_runs db rows : content (db <| dag_runs := rows |>) = content db.
Proof. reflexivity. Qed.

Section Tasks.
Context (uuid5 sha256_hex quote : string -> string) (clock_text : Z -> string).
Context (file_size : list item -> Z) (archive_root : string).

Let extract := extract uuid5 sha256_hex quote file_size archive_root.
Let archive_and_load := archive_and_load uuid5 sha256_hex quote clock_text.
Let extract_source := extract_source sha256_hex quote archive_root.

Lemma archive_and_load_inv run_date observed_at now ingested c c1 id :
  archive_and_load run_date observed_at now ingested c = (c1, Ok id) ->
  exists rows outcomes stmts db2,
    let db1 := c.(db) <| dag_runs := rows |> in
    id = dag_run_id_for DAG_ID run_date
    /\ load_archived_outcomes c.(files) db1 id = Ok outcomes /\ existsb ok outcomes = true
    /\ downstream uuid5 sha256_hex quote clock_text db1 id run_date outcomes observed_at now ingested = Ok stmts
    /\ exec_all stmts db1 = Ok db2 /\ c1 = Catalog c.(files) db2.
Proof.
  unfold archive_and_load, CatalogPipeline.archive_and_load.
  destruct (open_dag_run_exec run_date now (db c)) as (rows & _ & ->). cbn [mbind result_bind].
  destruct (load_archived_outcomes _ _ _) as [outcomes|] eqn:E1; cbn [mbind result_bind]; [|done].
  destruct (existsb ok outcomes) eqn:E2; [|done].
  destruct (downstream _ _ _ _ _ _ _ _ _ _ _) as [stmts|] eqn:E3; cbn [mbind result_bind]; [|done].
  destruct (exec_all stmts _) as [db2|] eqn:E4; [|done]. intros [= <- <-].
  exists rows, outcomes, stmts, db2. done.
Qed.

(** A task of any DAG run, on any day. *)
Inductive catalog_task : Type :=
| ExtractTask (source_id run_date : string) (fetch : fetcher) (today : string) (now : Z)
| LoadTask (run_date : string) (observed_at now : Z) (ingested : string -> nat -> Z)
| ResolveTask (dag_run_id : option string) (run_date : string) (now : Z).

Definition perform (c : catalog) (t : catalog_task) : catalog :=
  match t with
  | ExtractTask s d fetch today now => (extract s d fetch today now c).1
  | LoadTask d observed_at now ingested => (archive_and_load d observed_at now ingested c).1
  | ResolveTask id d now => (resolve_status id d now c).1
  end.

Lemma archive_outcome_keeps d fs o path p :
  fs !! path = Some p -> archive_outcome archive_root d fs o !! path = Some p.
Proof.
  intros Hp. unfold archive_outcome. case_match; [|done]. case_match; [done|].
  rewrite lookup_insert_ne; [done|]. intros Heq. congruence.
Qed.

(** Every way an extraction can end. *)
Lemma extract_files s d fetch today now c :
  files (extract s d fetch today now c).1 = files c \/
  exists o, extract_source s d fetch (files c) today [] = Ok o
    /\ files (extract s d fetch today now c).1 = archive_outcome archive_root d (files c) o.
Proof.
  unfold extract, CatalogPipeline.extract. fold (extract_source s d fetch (files c) today []).
  destruct (extract_source _ _ _ _ _ _) as [o|]; [|by left].
  destruct (exec_all _ _); [|by left]. destruct (exec_all _ _); right; by exists o.
Qed.

Lemma perform_keeps c t path p :
  files c !! path = Some p -> files (perform c t) !! path = Some p.
Proof.
  intros Hp. destruct t as [s d fetch today now|d observed_at now ingested|id d now]; simpl.
  - destruct (extract_files s d fetch today now c) as [->|(o & _ & ->)]; [done|].
    by apply archive_outcome_keeps.
  - unfold archive_and_load, CatalogPipeline.archive_and_load. cbv zeta.
    by match goal with |- context [match ?m with Ok _ => _ | Err _ => _ end] => destruct m end.
  - unfold resolve_status. cbv zeta.
    by match goal with |- context [match ?m with Ok _ => _ | Err _ => _ end] => destruct m as [[]|] end.
Qed.

Lemma perform_all_keeps tasks c path p :
  files c !! path = Some p -> files (fold_left perform tasks c) !! path = Some p.
Proof. revert c. induction tasks; simpl; eauto using perform_keeps. Qed.

Lemma extract_ok_inv s d fetch today now c c1 st :
  extract s d fetch today now c = (c1, Ok st) ->
  exists o, extract_source s d fetch (files c) today [] = Ok o /\ st = o.(status)
    /\ files c1 = archive_outcome archive_root d (files c) o.
Proof.
  unfold extract, CatalogPipeline.extract. fold (extract_source s d fetch (files c) today []).
  destruct (extract_source _ _ _ _ _ _) as [o|]; [|done].
  destruct (exec_all _ _); [|done]. destruct (exec_all _ _); [|done].
  case_decide; [done|]. intros [= <- <-]. by exists o.
Qed.

Lemma extract_source_shape s d fetch fs today o :
  extract_source s d fetch fs today [] = Ok o ->
  o.(source_id) = s /\ o.(status) = fetched_status o.(payloads)
  /\ (fs !! archive_path archive_root d s = None -> fetch s d = Ok o.(payloads)).
Proof.
  unfold extract_source, CatalogPipeline.extract_source. rewrite decide_False by apply not_elem_of_nil.
  destruct (fs !! _) as [p|]; [destruct (String.ltb d today); [by intros [= <-]|]|];
    by intros (q & Hq & [= <-])%result_bind_inv.
Qed.

(** C12. Loading a day again is idempotent: when a load has committed, the next
    one of the same day, whenever it runs and whatever became of the DAG run's
    status meanwhile, commits too and changes no observation, no field, no
    evidence, no schema observation, no lineage edge, no load count, no
    snapshot and no run: only the time of the load and the state of the DAG
    run move. *)
Theorem rerun_idempotent run_date observed_at now now' ingested ingested' c c1 c1' id :
  archive_and_load run_date observed_at now ingested c = (c1, Ok id) ->
  c1'.(files) = c1.(files) -> content c1'.(db) = content c1.(db) ->
  exists c2, archive_and_load run_date observed_at now' ingested' c1' = (c2, Ok id)
    /\ c2.(files) = c1.(files) /\ content c2.(db) = content c1.(db).
Proof.
  intros (rows & outcomes & stmts & db2 & -> & Hload & Hok & Hdown & Hexec & ->)%archive_and_load_inv Hfiles Hc.
  cbn [files db] in *.
  set (db1 := (db c) <| dag_runs := rows |>) in *. set (db0 := db c1') in *.
  unfold archive_and_load, CatalogPipeline.archive_and_load. fold db0.
  destruct (open_dag_run_exec run_date now' db0) as (rows' & _ & ->). cbn [mbind result_bind].
  set (db1' := db0 <| dag_runs := rows' |>).
  assert (Hc1 : content db1' = content db2) by exact Hc.
  destruct (downstream_clock _ _ _ _ _ db1 _ _ _ _ _ now _ ingested eq_refl _ Hdown) as (? & _ & Hself).
  assert (Hdb2 := exec_all_apply _ _ _ (same_but_clock_of_load _ _ Hself) Hexec).
  rewrite Hdb2 in Hc1. assert (Hc2 := Hc1). rewrite apply_all_tables in Hc2.
  injection Hc2 as Hruns Hsources Hassets _ Hsnaps _ _ _ _ _.
  destruct (downstream_clock _ _ _ _ _ db1' _ _ _ _ _ now' _ ingested' (eq_sym Hassets) _ Hdown)
    as (stmts' & Hdown' & Hrel).
  destruct (rerun_statements _ _ _ _ Hrel Hc1) as (db2' & Hexec' & Hc2').
  exists (c1' <| db := db2' |>). split_and!; [|done|].
  - cbn [open_dag_run fst]. rewrite (archived_outcomes_same _ _ db1) by done. rewrite Hfiles, Hload. cbn [mbind result_bind].
    rewrite Hok, Hdown'. cbn [mbind result_bind]. by rewrite Hexec'.
  - cbn [db]. change (content db2' = content db2). rewrite Hc2'. exact Hc.
Qed.

(** A backfill replays the archive: once the extraction of a source for a
    day has succeeded, whatever tasks run afterwards, extracting that day again
    on a later day yields the payloads archived first, with their digest,
    whichever source is asked and whatever it would answer now. *)
Theorem replay_deterministic s d fetch today now c c1 :
  files c !! archive_path archive_root d s <> Some [] ->
  extract s d fetch today now c = (c1, Ok "SUCCESS") ->
  exists p, p <> []
    /\ (files c !! archive_path archive_root d s = None -> fetch s d = Ok p)
    /\ forall tasks fetch' today', String.ltb d today' = true ->
         extract_source s d fetch' (files (fold_left perform tasks c1)) today' []
         = Ok (Outcome s "SUCCESS" p (Some ("file://" +:+ archive_path archive_root d s))
                 (Some (digest sha256_hex quote p))).
Proof.
  intros Hempty (o & Ho & Hst & Hfiles)%extract_ok_inv.
  destruct (extract_source_shape _ _ _ _ _ _ Ho) as (Hs & Hstatus & Hfetch).
  assert (Hne : o.(payloads) <> []). { intros E. rewrite Hstatus, E in Hst. done. }
  assert (Hok : ok o && negb (bool_decide (o.(payloads) = [])) = true).
  { unfold ok. rewrite <- Hst. by rewrite (bool_decide_false _ Hne). }
  assert (Hp : exists p, p <> [] /\ files c1 !! archive_path archive_root d s = Some p
                 /\ (files c !! archive_path archive_root d s = None -> p = o.(payloads))).
  { rewrite Hfiles. unfold archive_outcome. rewrite Hok, Hs.
    destruct (files c !! _) as [q|] eqn:E; [exists q | exists o.(payloads)]; split_and!; try done.
    - congruence.
    - apply lookup_insert_eq. }
  destruct Hp as (p & Hpne & Hlook & Hsame). exists p. split_and!; [done| |].
  - intros Hnone. rewrite (Hsame Hnone). auto.
  - intros tasks fetch' today' Hlt. unfold extract_source, CatalogPipeline.extract_source.
    rewrite decide_False by apply not_elem_of_nil.
    rewrite (perform_all_keeps tasks _ _ _ Hlook), Hlt. by destruct p.
Qed.
End Tasks.

Lemma dag_status_cases rows complete :
  (dag_status rows complete = "FAILED" <-> Forall (fun r => r = "FAILED") rows)
  /\ (dag_status rows complete = "INCOMPLETE" <->
        ~ Forall (fun r => r = "FAILED") rows /\ complete = false)
  /\ (dag_status rows complete = "PARTIAL" <->
        ~ Forall (fun r => r = "FAILED") rows /\ complete = true
        /\ Exists (fun r => r ∈ UNHEALTHY_COLLECTION_STATUSES) rows)
  /\ (dag_status rows complete = "SUCCESS" <->
        rows <> [] /\ complete = true /\ ~ Exists (fun r => r ∈ UNHEALTHY_COLLECTION_STATUSES) rows).
Proof.
  unfold dag_status.
  assert (Hall : forallb (fun r => bool_decide (r = "FAILED")) rows = true
                 <-> Forall (fun r => r = "FAILED") rows).
  { rewrite forallb_forall, Forall_forall. setoid_rewrite <- list_elem_of_In.
    by setoid_rewrite bool_decide_eq_true. }
  assert (Hex : existsb (fun r => bool_decide (r ∈ UNHEALTHY_COLLECTION_STATUSES)) rows = true
                <-> Exists (fun r => r ∈ UNHEALTHY_COLLECTION_STATUSES) rows).
  { rewrite existsb_exists, Exists_exists. setoid_rewrite <- list_elem_of_In.
    by setoid_rewrite bool_decide_eq_true. }
  destruct rows as [|r rows]; [simpl; split_and!; split; try done; naive_solver|].
  rewrite bool_decide_false by done.
  assert (Hfail : Forall (fun r => r = "FAILED") (r :: rows) ->
                  Exists (fun r => r ∈ UNHEALTHY_COLLECTION_STATUSES) (r :: rows)).
  { intros [-> _]%Forall_cons. left. by apply (bool_decide_unpack _). }
  revert Hall Hex. generalize (forallb (fun r => bool_decide (r = "FAILED")) (r :: rows)).
  generalize (existsb (fun r => bool_decide (r ∈ UNHEALTHY_COLLECTION_STATUSES)) (r :: rows)).
  set (some_bad := Exists _ (r :: rows)) in *. set (all_bad := Forall _ (r :: rows)) in *.
  clearbody some_bad all_bad.
  intros b1 b2 Hall Hex.
  assert (Hall' : if b2 then all_bad else ~ all_bad) by (destruct b2; naive_solver).
  assert (Hex' : if b1 then some_bad else ~ some_bad) by (destruct b1; naive_solver).
  clear Hall Hex. destruct b1, b2, complete; simpl in *; split_and!; split; intros; destruct_and?;
    try done; try tauto; by split_and!.
Qed.

(** The status of a DAG run is settled from what is recorded of it: FAILED
    iff every recorded source failed (or none is recorded), otherwise
    INCOMPLETE iff the load did not commit, otherwise PARTIAL iff some recorded
    source is not healthy, otherwise SUCCESS.  Settling never fails, and
    leaves the run finished with that status. *)
Theorem dag_status_exact (loaded : option string) run_date now c :
  let id := default (dag_run_id_for DAG_ID run_date) loaded in
  let rows := run_statuses c.(db) id in
  exists c' st, resolve_status loaded run_date now c = (c', Ok st)
    /\ (st = "FAILED" <-> Forall (fun r => r = "FAILED") rows)
    /\ (st = "INCOMPLETE" <-> ~ Forall (fun r => r = "FAILED") rows /\ loaded = None)
    /\ (st = "PARTIAL" <-> ~ Forall (fun r => r = "FAILED") rows /\ loaded <> None
                          /\ Exists (fun r => r ∈ UNHEALTHY_COLLECTION_STATUSES) rows)
    /\ (st = "SUCCESS" <-> rows <> [] /\ loaded <> None
                          /\ ~ Exists (fun r => r ∈ UNHEALTHY_COLLECTION_STATUSES) rows)
    /\ (forall r, r ∈ c'.(db).(dag_runs) -> r.(d_dag_run_id) = id ->
         r.(d_status) = st /\ r.(d_finished_at) = Some now)
    /\ (loaded = None -> id ∈ map d_dag_run_id c'.(db).(dag_runs)).
Proof.
  intros id rows.
  assert (Hopen : exists dag_runs1,
    (loaded = None -> id ∈ map d_dag_run_id dag_runs1) /\
    resolve_status loaded run_date now c
    = (c <| db := (db c) <| dag_runs := map (close_dag_run id (dag_status rows (bool_decide (is_Some loaded))) now)
                                         dag_runs1 |> |>,
       Ok (dag_status rows (bool_decide (is_Some loaded))))).
  { unfold resolve_status. destruct loaded as [id'|]; [by exists (dag_runs (db c))|].
    destruct (open_dag_run_exec run_date now (db c)) as (dag_runs1 & Hin & E).
    cbn [open_dag_run fst snd] in *. exists dag_runs1. rewrite E. split; [done|reflexivity]. }
  destruct Hopen as (dag_runs1 & Hin & ->). do 2 eexists. split; [done|].
  destruct (dag_status_cases rows (bool_decide (is_Some loaded))) as (H1 & H2 & H3 & H4).
  assert (Hl : bool_decide (is_Some loaded) = false <-> loaded = None).
  { rewrite bool_decide_eq_false. by rewrite eq_None_not_Some. }
  assert (Hl' : bool_decide (is_Some loaded) = true <-> loaded <> None).
  { rewrite bool_decide_eq_true. by rewrite not_eq_None_Some. }
  rewrite Hl in H2. rewrite Hl' in H3, H4. split_and!; [exact H1|exact H2|exact H3|exact H4|..].
  - cbn. intros r (r0 & -> & _)%list_elem_of_fmap. unfold close_dag_run. by case_decide.
  - cbn. intros Hn. apply Hin in Hn as (r & Hr & Hin')%list_elem_of_fmap. apply list_elem_of_fmap.
    eexists. split; [|by apply list_elem_of_fmap_2]. unfold close_dag_run. by case_decide.
Qed.

(** ** Two clusters in one batch *)

Lemma exec_all_app stmts1 stmts2 db :
  exec_all (stmts1 ++ stmts2) db = (exec_all stmts1 db ≫= exec_all stmts2).
Proof.
  revert db. induction stmts1 as [|s stmts1 IH]; intros db; [done|]. cbn.
  destruct (exec s db); cbn; auto.
Qed.

(** Statements that add no evidence leave the evidence as it is. *)
Lemma exec_all_evidence stmts db db' :
  Forall (fun s => evidence_of s = None) stmts ->
  exec_all stmts db = Ok db' -> db'.(normalized_evidence) = db.(normalized_evidence).
Proof.
  intros Hs. revert db. induction Hs as [|s stmts Hs _ IH]; cbn; intros db; [by intros [= ->]|].
  intros (db1 & H1 & H2)%result_bind_inv. rewrite (IH _ H2).
  destruct s; try done; cbn in H1; try (by apply result_bind_inv in H1 as (? & _ & [= <-])).
  by injection H1 as <-.
Qed.

Definition adds_no_evidence (s : statement) : Prop := evidence_of s = None.

Lemma exec_fresh_evidence n db db' :
  ~ present evidence_key n db.(normalized_evidence) -> exec (AddEvidence n) db = Ok db' ->
  (evidence_id n ∉ map evidence_id db.(normalized_evidence))
  /\ db'.(normalized_evidence) = db.(normalized_evidence) ++ [n].
Proof.
  intros Hn. cbn. unfold upsert_evidence, upsert. rewrite decide_False by exact Hn.
  case_decide; [done|]. by intros [= <-].
Qed.

(** Two pieces of evidence with one identifier and two conflict targets, none
    of them present, are not both added. *)
Lemma evidence_collision n1 n2 between before after db :
  Forall adds_no_evidence before -> Forall adds_no_evidence between ->
  evidence_id n1 = evidence_id n2 -> evidence_key n1 <> evidence_key n2 ->
  ~ present evidence_key n1 db.(normalized_evidence) ->
  ~ present evidence_key n2 db.(normalized_evidence) ->
  is_ok (exec_all (before ++ AddEvidence n1 :: between ++ AddEvidence n2 :: after) db) = false.
Proof.
  intros Hb1 Hb2 Hid Hkey H1 H2. apply not_true_is_false. intros Hok.
  destruct (exec_all _ db) as [db'|] eqn:E; [|done]. rewrite exec_all_app in E.
  apply result_bind_inv in E as (db1 & E1 & (db2 & E2 & E3)%result_bind_inv).
  rewrite exec_all_app in E3. apply result_bind_inv in E3 as (db3 & E3 & (db4 & E4 & _)%result_bind_inv).
  apply exec_all_evidence in E1; [|exact Hb1]. apply exec_all_evidence in E3; [|exact Hb2].
  rewrite <- E1 in H1, H2. apply exec_fresh_evidence in E2 as [_ E2]; [|done].
  assert (H4 : ~ present evidence_key n2 db3.(normalized_evidence)).
  { rewrite E3, E2. unfold present in *. rewrite map_app, elem_of_app. simpl.
    rewrite list_elem_of_singleton. naive_solver. }
  apply exec_fresh_evidence in E4 as [Hfresh _]; [|done]. apply Hfresh.
  rewrite E3, E2, map_app, elem_of_app. right. simpl. by rewrite Hid, list_elem_of_singleton.
Qed.

Section Collision.
Context (uuid5 : string -> string) (clock_text : Z -> string).

Lemma normalize_item_statements run_id o observed_at t it a k c v :
  item_str "asset_id" it = Ok a -> item_str "row_key" it = Ok k -> item_cluster it = Ok c ->
  item_payload it = Ok v ->
  exists before n, normalize_item uuid5 clock_text run_id o observed_at t it = Ok (before ++ [AddEvidence n])
    /\ Forall adds_no_evidence before
    /\ evidence_id n = "ev-" +:+ uuid5 (a +:+ "/" +:+ k +:+ "/" +:+ clock_text observed_at)
    /\ evidence_key n = (c, o.(source_id), k, observed_at).
Proof.
  intros Ha Hk Hc Hv. unfold normalize_item. rewrite Ha, Hk, Hv, Hc. cbn -[contract_from_payload].
  eexists (_ :: _), _. split; [done|]. split_and!; [|done..]. constructor; [done|].
  induction (contract_from_payload v); constructor; done.
Qed.

(** The identifier of a piece of evidence leaves out the cluster its
    conflict target includes: a first load of a source that reports the same
    resource key for two clusters is refused, and with it the whole batch. *)
Theorem cluster_collision dag_run_id o observed_at ingested it1 it2 rest a k c1 c2 v1 v2 stmts db :
  o.(payloads) = it1 :: it2 :: rest ->
  item_str "asset_id" it1 = Ok a -> item_str "row_key" it1 = Ok k ->
  item_cluster it1 = Ok c1 -> item_payload it1 = Ok v1 ->
  item_str "asset_id" it2 = Ok a -> item_str "row_key" it2 = Ok k ->
  item_cluster it2 = Ok c2 -> item_payload it2 = Ok v2 ->
  c1 <> c2 ->
  (forall n, n ∈ db.(normalized_evidence) ->
     (n.(n_source_id), n.(n_resource_uid), n.(n_observed_at)) <> (o.(source_id), k, observed_at)) ->
  normalize_asset_schema uuid5 clock_text dag_run_id [o] observed_at ingested = Ok stmts ->
  is_ok (exec_all stmts db) = false.
Proof.
  intros Hp Ha1 Hk1 Hc1 Hv1 Ha2 Hk2 Hc2 Hv2 Hc Hnew. unfold normalize_asset_schema, for_each.
  cbn. rewrite Hp. cbn.
  destruct (normalize_item_statements (collection_run_id_for dag_run_id (source_id o)) o observed_at
    (ingested (source_id o) 0%nat) it1 a k c1 v1) as (b1 & n1 & -> & Hb1 & Hid1 & Hkey1); [done..|].
  destruct (normalize_item_statements (collection_run_id_for dag_run_id (source_id o)) o observed_at
    (ingested (source_id o) 1%nat) it2 a k c2 v2) as (b2 & n2 & -> & Hb2 & Hid2 & Hkey2); [done..|].
  cbn. destruct (map_result _ _) as [parts|]; cbn; [|done]. intros [= <-].
  rewrite !app_nil_r, <- !(assoc_L (++)). cbn.
  assert (Hfresh : forall c n, evidence_key n = (c, source_id o, k, observed_at) ->
                     ~ present evidence_key n db.(normalized_evidence)).
  { intros c n Hn Hin. unfold present in Hin. rewrite Hn in Hin.
    apply list_elem_of_fmap in Hin as (m & Hm & Hin). apply (Hnew m Hin). by injection Hm as -> -> -> ->. }
  apply evidence_collision; eauto; congruence.
Qed.
End Collision.

(** ** A sample catalog *)

Module Sample.

Definition id_string (s : string) : string := s.
Definition clock_text (t : Z) : string := pretty t.
Definition file_size (items : list item) : Z := Z.of_nat (length items).
Definition day : string := "2026-07-30".
Definition today : string := "2026-07-31".
Definition ingested (source : string) (n : nat) : Z := 0.

Definition observation (asset cluster key : string) : item :=
  [("asset_id", JStr asset); ("row_key", JStr key); ("cluster_id", JStr cluster);
   ("payload", JObj [("name", JStr key)])].

Definition fetch (source logical_date : string) : result catalog_error (list item) :=
  Ok [observation source "local" "r0"; observation source "local" "r1"].

(** The same sources while the files of one cannot be read. *)
Definition broken_loki (source logical_date : string) : result catalog_error (list item) :=
  if decide (source = "loki") then Err (FetchError source) else fetch source logical_date.

Definition registered : catalog :=
  Catalog ∅ (Tables [] [] SOURCES (map (fun s => DataAsset s 1) SOURCES) [] [] [] [] [] [] []).

Definition extract := CatalogPipeline.extract id_string id_string json_string file_size "/archive".
Definition archive_and_load :=
  CatalogPipeline.archive_and_load id_string id_string json_string clock_text.
Definition run_dag :=
  CatalogPipeline.run_dag id_string id_string json_string clock_text file_size "/archive".

Definition extracted : catalog := (extract "kubernetes" day fetch today 1 registered).1.

Example full_run :
  let c := run_dag day today fetch 5 7 ingested registered in
  c.2 = Ok "SUCCESS" /\ length c.1.(db).(normalized_evidence) = 8%nat.
Proof. vm_compute. done. Qed.

Example rerun_idempotent_witness :
  exists c1 c2, archive_and_load day 5 7 ingested extracted = (c1, Ok (dag_run_id_for DAG_ID day))
    /\ archive_and_load day 5 9 ingested c1 = (c2, Ok (dag_run_id_for DAG_ID day))
    /\ files c2 = files c1 /\ content c2.(db) = content c1.(db).
Proof.
  assert (E : (archive_and_load day 5 7 ingested extracted).2 = Ok (dag_run_id_for DAG_ID day))
    by (vm_compute; reflexivity).
  destruct (archive_and_load day 5 7 ingested extracted) as [c1 r] eqn:E1. cbn in E. subst r.
  destruct (rerun_idempotent _ _ _ _ _ _ _ 9 _ ingested _ _ _ _ E1 eq_refl eq_refl) as (c2 & H & Hf & Hc).
  exists c1, c2. exact (conj eq_refl (conj H (conj Hf Hc))).
Defined.

Example replay_deterministic_witness :
  exists p, p <> [] /\
    CatalogPipeline.extract_source id_string json_string "/archive" "loki" day broken_loki
      (files (extract "loki" day fetch today 1 registered).1) today []
    = Ok (Outcome "loki" "SUCCESS" p (Some "file:///archive/2026-07-30/loki.json")
            (Some (digest id_string json_string p))).
Proof.
  assert (E : (extract "loki" day fetch today 1 registered).2 = Ok "SUCCESS")
    by (vm_compute; reflexivity).
  destruct (extract "loki" day fetch today 1 registered) as [c1 r] eqn:E1. cbn in E. subst r.
  assert (H0 : files registered !! archive_path "/archive" day "loki" <> Some []) by done.
  destruct (replay_deterministic id_string id_string json_string clock_text file_size "/archive"
    "loki" day fetch today 1 registered c1 H0 E1) as (p & Hp & _ & Hreplay).
  exists p. split; [exact Hp|]. exact (Hreplay [] broken_loki today eq_refl).
Defined.

(** Two clusters whose inventories hold the same resource without a uid. *)
Definition two_clusters : ExtractOutcome :=
  Outcome "kubernetes" "SUCCESS"
    [observation "kubernetes" "east" "None/node-1"; observation "kubernetes" "west" "None/node-1"]
    None None.

Example cluster_collision_witness :
  exists stmts, normalize_asset_schema id_string clock_text "d" [two_clusters] 5 ingested = Ok stmts
    /\ is_ok (exec_all stmts extracted.(db)) = false.
Proof.
  assert (E : is_ok (normalize_asset_schema id_string clock_text "d" [two_clusters] 5 ingested) = true)
    by (vm_compute; reflexivity).
  destruct (normalize_asset_schema id_string clock_text "d" [two_clusters] 5 ingested) as [stmts|] eqn:E1;
    [|discriminate]. exists stmts. split; [reflexivity|].
  refine (cluster_collision id_string clock_text "d" two_clusters 5 ingested _ _ [] "kubernetes" "None/node-1"
    "east" "west" _ _ stmts extracted.(db) eq_refl eq_refl eq_refl eq_refl eq_refl eq_refl eq_refl eq_refl
    eq_refl _ _ E1); [done|].
  assert (Hnone : normalized_evidence (db extracted) = []) by (vm_compute; reflexivity).
  rewrite Hnone. by intros n ?%elem_of_nil.
Defined.

(** A source whose extraction raises leaves no trace in the runs, and the
    status is settled from the runs alone: a DAG run that lost a source this
    way ends in SUCCESS, not in PARTIAL. *)
Theorem lost_source_success :
  (forall c, files c !! archive_path "/archive" day "loki" = None ->
     extract "loki" day broken_loki today 7 c = (c, Err (FetchError "loki")))
  /\ exists c, run_dag day today broken_loki 5 7 ingested registered = (c, Ok "SUCCESS")
       /\ run_statuses c.(db) (dag_run_id_for DAG_ID day) = ["SUCCESS"; "SUCCESS"; "SUCCESS"].
Proof.
  split.
  - intros c Hnone. unfold extract, CatalogPipeline.extract, extract_source.
    rewrite decide_False by apply not_elem_of_nil. cbn zeta. by rewrite Hnone.
  - exists (run_dag day today broken_loki 5 7 ingested registered).1.
    vm_compute. done.
Qed.

(** A second extraction on the day itself asks the source again but keeps the
    first file: the newest snapshot gives that file the digest of payloads it
    does not hold. *)
Definition later_fetch (source logical_date : string) : result catalog_error (list item) :=
  Ok [observation source "local" "r2"].

Lemma mislabelled_snapshot :
  let c1 := (extract "loki" day fetch day 1 registered).1 in
  let c2 := (extract "loki" day later_fetch day 2 c1).1 in
  exists o, load_archived_outcomes c2.(files) c2.(db) (dag_run_id_for DAG_ID day) = Ok [o]
    /\ fetch "loki" day = Ok o.(payloads)
    /\ o.(content_hash) <> Some (digest id_string json_string o.(payloads)).
Proof. eexists. split; [vm_compute; reflexivity|]. split; [reflexivity|]. vm_compute. discriminate. Qed.

End Sample.
