(* ===== verification/PortForwardFrames.v ===== *)
(** The port-forward contract ([packages/contracts/port_forward.py]): the
    budgets, the control messages and the binary data frame.

    A control message is a value of its Python class; the ranges its fields
    must lie in are the [_ok] predicates.  Reading the JSON text into such a
    value is the validation library's work. *)

From coqutil Require Import Word.LittleEndianList.
From S2P Require Import Prelude.
From Stdlib Require Import Strings.Byte.
#[global] Open Scope Z_scope.

Abbreviation byte := Init.Byte.byte (only parsing).

#[export] Instance byte_eq_dec : EqDecision byte := Byte.byte_eq_dec.

(** ** Budgets *)

(** In microseconds. *)
Definition SECOND : Z := 1000000.

Definition MAX_PORT_FORWARD_SESSION_SECONDS : Z := 60 * 60.
Definition MAX_PORT_FORWARD_IDLE_SECONDS : Z := 5 * 60.
Definition MAX_PORT_FORWARD_OPEN_SECONDS : Z := 15.
Definition MAX_PORT_FORWARD_SESSIONS_PER_USER : Z := 3.
Definition MAX_PORT_FORWARD_SESSIONS_PER_AGENT : Z := 8.
Definition MAX_PORT_FORWARD_CONNECTIONS_PER_SESSION : Z := 4.
Definition MAX_PORT_FORWARD_FRAME_BYTES : Z := 16 * 1024.
Definition PORT_FORWARD_CREDIT_WINDOW_BYTES : Z := 256 * 1024.
Definition MAX_PORT_FORWARD_BYTES_PER_DIRECTION : Z := 1024 * 1024 * 1024.

Inductive PortForwardDirection : Type := desktop_to_target | target_to_desktop.

#[export] Instance direction_eq_dec : EqDecision PortForwardDirection.
Proof. solve_decision. Defined.

Inductive PortForwardEndReason : Type :=
| closed_reason | idle_timeout | session_timeout | byte_limit | target_closed.

Inductive PortForwardErrorCode : Type :=
| agent_unavailable | audit_unavailable | credit_violation | invalid_target
| protocol_violation | session_limit | target_unavailable | timeout.

#[export] Instance error_code_eq_dec : EqDecision PortForwardErrorCode.
Proof. solve_decision. Defined.

(** ** Control messages *)

Record ResourceRef : Type := Resource {
  api_group : string;
  version : string;
  kind : string;
  namespace : option string;
  name : string;
  uid : string }.

Record PortForwardStart : Type := Start {
  st_capability_revision : string;
  st_resource : ResourceRef;
  st_remote_port : Z }.

Record PortForwardOpen : Type := Open {
  op_session_id : string;
  op_generation : Z;
  op_capability_revision : string;
  op_resource : ResourceRef;
  op_remote_port : Z;
  initial_credit_bytes : Z }.

Record PortForwardOpened : Type := Opened {
  target_kind : string;
  target_name : string;
  target_uid : string;
  target_port : Z }.

(** What the desktop asks on an open session. *)
Inductive desktop_request : Type :=
| ConnectionOpen (connection_id : Z)
| DesktopWindow (connection_id : Z) (direction : PortForwardDirection) (credit_bytes : Z)
| DesktopHalfClose (connection_id : Z) (direction : PortForwardDirection)
| ConnectionClose (connection_id : Z)
| Close.

(** What the agent reports about a session. *)
Inductive agent_event : Type :=
| TargetOpened (target : PortForwardOpened)
| ConnectionOpened (connection_id : Z)
| AgentWindow (connection_id : Z) (direction : PortForwardDirection) (credit_bytes : Z)
| AgentHalfClose (connection_id : Z) (direction : PortForwardDirection)
| ConnectionEnd (connection_id : Z) (reason : PortForwardEndReason)
    (desktop_to_target_bytes target_to_desktop_bytes : Z)
| End (reason : PortForwardEndReason) (desktop_to_target_bytes target_to_desktop_bytes : Z)
| Error (code : PortForwardErrorCode) (message : string) (retryable : bool).

Definition connection_id_ok (id : Z) : bool := (1 <=? id) && (id <=? 2 ^ 32 - 1).
Definition credit_ok (credit : Z) : bool :=
  (1 <=? credit) && (credit <=? PORT_FORWARD_CREDIT_WINDOW_BYTES).
Definition byte_count_ok (n : Z) : bool :=
  (0 <=? n) && (n <=? MAX_PORT_FORWARD_BYTES_PER_DIRECTION).

Definition desktop_request_ok (m : desktop_request) : bool :=
  match m with
  | ConnectionOpen id | DesktopHalfClose id _ | ConnectionClose id => connection_id_ok id
  | DesktopWindow id _ credit => connection_id_ok id && credit_ok credit
  | Close => true
  end.

Definition agent_event_ok (m : agent_event) : bool :=
  match m with
  | TargetOpened t => (1 <=? t.(target_port)) && (t.(target_port) <=? 65535)
  | ConnectionOpened id | AgentHalfClose id _ => connection_id_ok id
  | AgentWindow id _ credit => connection_id_ok id && credit_ok credit
  | ConnectionEnd id _ d t => connection_id_ok id && byte_count_ok d && byte_count_ok t
  | End _ d t => byte_count_ok d && byte_count_ok t
  | Error _ message _ =>
      (1 <=? String.length message)%nat && (String.length message <=? 240)%nat
  end.

(** ** The data frame *)

Record PortForwardDataFrame : Type := Frame {
  session_id : string;
  generation : Z;
  connection_id : Z;
  sequence : Z;
  direction : PortForwardDirection;
  payload : list byte }.

Definition session_char (c : Ascii.ascii) : bool :=
  let n := Ascii.N_of_ascii c in
  ((65 <=? n) && (n <=? 90) || (97 <=? n) && (n <=? 122) || (48 <=? n) && (n <=? 57)
   || (n =? 45) || (n =? 95))%N.

(** [_SESSION_PATTERN.fullmatch]. *)
Definition session_pattern (s : string) : bool :=
  (16 <=? String.length s)%nat && (String.length s <=? 64)%nat
  && forallb session_char (String.list_ascii_of_string s).

Definition payload_ok (payload : list byte) : bool :=
  (1 <=? Z.of_nat (length payload)) && (Z.of_nat (length payload) <=? MAX_PORT_FORWARD_FRAME_BYTES).

(** [PortForwardDataFrame.__post_init__]: whether the frame can be built. *)
Definition frame_ok (f : PortForwardDataFrame) : bool :=
  session_pattern f.(session_id) && (1 <=? f.(generation)) && connection_id_ok f.(connection_id)
  && (0 <=? f.(sequence)) && payload_ok f.(payload).

Definition make_frame (f : PortForwardDataFrame) : result string PortForwardDataFrame :=
  if negb (session_pattern f.(session_id)) then Err "invalid port-forward session id"
  else if f.(generation) <? 1 then Err "invalid port-forward generation"
  else if negb (connection_id_ok f.(connection_id)) then Err "invalid port-forward connection id"
  else if f.(sequence) <? 0 then Err "invalid port-forward sequence"
  else if negb (payload_ok f.(payload)) then Err "port-forward payload is outside the frame budget"
  else Ok f.

Definition FRAME_MAGIC : list byte := String.list_byte_of_string "OPF1".
Definition FRAME_VERSION : Z := 1.

Definition direction_code (d : PortForwardDirection) : Z :=
  match d with desktop_to_target => 1 | target_to_desktop => 2 end.

Definition code_direction (code : Z) : option PortForwardDirection :=
  if code =? 1 then Some desktop_to_target
  else if code =? 2 then Some target_to_desktop else None.

(** An unsigned big-endian integer of [n] bytes, as [struct] packs it. *)
Definition pack_int (n : nat) (z : Z) : list byte := rev (le_split n z).
Definition unpack_int (l : list byte) : Z := le_combine (rev l).
Definition fits (n : nat) (z : Z) : bool := (0 <=? z) && (z <? 2 ^ (8 * Z.of_nat n)).

(** [struct.Struct("!4sBBHQQII").size]. *)
Definition HEADER_SIZE : nat := 32.

(** [None]: [struct.error], an integer is out of the range of its field. *)
Definition encode_port_forward_data (f : PortForwardDataFrame) : option (list byte) :=
  let session := String.list_byte_of_string f.(session_id) in
  if fits 2 (Z.of_nat (length session)) && fits 8 f.(generation) && fits 8 f.(sequence)
     && fits 4 f.(connection_id) && fits 4 (Z.of_nat (length f.(payload)))
  then Some (FRAME_MAGIC ++ pack_int 1 FRAME_VERSION ++ pack_int 1 (direction_code f.(direction))
             ++ pack_int 2 (Z.of_nat (length session)) ++ pack_int 8 f.(generation)
             ++ pack_int 8 f.(sequence) ++ pack_int 4 f.(connection_id)
             ++ pack_int 4 (Z.of_nat (length f.(payload))) ++ session ++ f.(payload))
  else None.

Definition slice (first size : nat) (raw : list byte) : list byte := take size (drop first raw).

Definition is_ascii (b : byte) : bool := (Byte.to_N b <? 128)%N.

(** [Err]: [ValueError]. *)
Definition decode_port_forward_data (raw : list byte) : result string PortForwardDataFrame :=
  if (length raw <? HEADER_SIZE)%nat then Err "port-forward frame header is truncated"
  else
    let session_length := unpack_int (slice 6 2 raw) in
    let payload_length := unpack_int (slice 28 4 raw) in
    if negb (bool_decide (slice 0 4 raw = FRAME_MAGIC))
       || negb (unpack_int (slice 4 1 raw) =? FRAME_VERSION)
    then Err "unsupported port-forward frame"
    else
      match code_direction (unpack_int (slice 5 1 raw)) with
      | None => Err "invalid port-forward frame direction"
      | Some direction =>
          if negb ((16 <=? session_length) && (session_length <=? 64))
          then Err "invalid port-forward frame session length"
          else if negb ((1 <=? payload_length) && (payload_length <=? MAX_PORT_FORWARD_FRAME_BYTES))
          then Err "invalid port-forward frame payload length"
          else if negb (Z.of_nat (length raw) =? Z.of_nat HEADER_SIZE + session_length + payload_length)
          then Err "port-forward frame length is inconsistent"
          else
            let session := slice HEADER_SIZE (Z.to_nat session_length) raw in
            if negb (forallb is_ascii session) then Err "port-forward session id must be ASCII"
            else make_frame
                   (Frame (String.string_of_list_byte session) (unpack_int (slice 8 8 raw))
                      (unpack_int (slice 24 4 raw)) (unpack_int (slice 16 8 raw)) direction
                      (drop (HEADER_SIZE + Z.to_nat session_length) raw))
      end.

(** ** Packing *)

Lemma length_pack_int n z : length (pack_int n z) = n.
Proof. unfold pack_int. by rewrite length_rev, length_le_split. Qed.

Lemma unpack_pack n z : fits n z = true -> unpack_int (pack_int n z) = z.
Proof.
  unfold fits, unpack_int, pack_int. intros. bool_to_prop.
  rewrite rev_involutive, le_combine_split, Z.mod_small; [done|].
  by replace (Z.of_nat n * 8) with (8 * Z.of_nat n) by lia.
Qed.

Lemma pack_unpack l : pack_int (length l) (unpack_int l) = l.
Proof.
  unfold pack_int, unpack_int.
  rewrite <- (length_rev l), split_le_combine. apply rev_involutive.
Qed.

Lemma unpack_fits l : fits (length l) (unpack_int l) = true.
Proof.
  unfold fits, unpack_int. pose proof (le_combine_bound (rev l)) as H. rewrite length_rev in H.
  apply andb_true_iff. rewrite Z.leb_le, Z.ltb_lt. exact H.
Qed.

Lemma slice_part first size (a b c : list byte) :
  first = length a -> size = length b -> slice first size (a ++ b ++ c) = b.
Proof. intros -> ->. unfold slice. by rewrite drop_app_length, take_app_length. Qed.

Lemma drop_slice first size (raw : list byte) :
  drop first raw = slice first size raw ++ drop (first + size) raw.
Proof. unfold slice. by rewrite <- drop_drop, take_drop. Qed.

Lemma length_slice first size (raw : list byte) :
  (first + size <= length raw)%nat -> length (slice first size raw) = size.
Proof. intros. unfold slice. rewrite length_take, length_drop. lia. Qed.

Lemma pack_slice first size (raw : list byte) :
  (first + size <= length raw)%nat ->
  pack_int size (unpack_int (slice first size raw)) = slice first size raw
  /\ fits size (unpack_int (slice first size raw)) = true.
Proof.
  intros H. apply (length_slice first size) in H. split.
  - rewrite <- H at 1. apply pack_unpack.
  - rewrite <- H at 1. apply unpack_fits.
Qed.

Lemma make_frame_ok f : make_frame f = Ok f <-> frame_ok f = true.
Proof.
  unfold make_frame, frame_ok. rewrite !Z.ltb_antisym.
  destruct (session_pattern _), (1 <=? _), (connection_id_ok _), (0 <=? _), (payload_ok _); done.
Qed.

Lemma make_frame_inv f g : make_frame f = Ok g -> g = f /\ frame_ok f = true.
Proof.
  intros H. assert (g = f) as ->; [|by rewrite <- make_frame_ok].
  unfold make_frame in H. repeat case_match; congruence.
Qed.

Lemma code_direction_code d : code_direction (direction_code d) = Some d.
Proof. by destruct d. Qed.

Lemma direction_code_direction code d : code_direction code = Some d -> code = direction_code d.
Proof. unfold code_direction. repeat case_match; intros; simplify_eq; bool_to_prop; done. Qed.

Lemma session_char_ascii c : session_char c = true -> is_ascii (Ascii.byte_of_ascii c) = true.
Proof. destruct c as [[] [] [] [] [] [] [] []]; done. Qed.

Lemma session_bytes s :
  session_pattern s = true ->
  (16 <= length (String.list_byte_of_string s) <= 64)%nat
  /\ forallb is_ascii (String.list_byte_of_string s) = true.
Proof.
  unfold session_pattern. intros H. bool_to_prop.
  assert (Hlen : length (String.list_byte_of_string s) = String.length s).
  { clear. unfold String.list_byte_of_string. induction s; simpl; auto. }
  split; [lia|]. rewrite forallb_forall in H0 |- *. unfold String.list_byte_of_string.
  intros b (c & <- & Hc)%in_map_iff. apply session_char_ascii, H0, Hc.
Qed.

(** The fields of a packed header, read back at their offsets. *)
Lemma header_fields (m v d l g q c p rest : list byte) :
  length m = 4%nat -> length v = 1%nat -> length d = 1%nat -> length l = 2%nat ->
  length g = 8%nat -> length q = 8%nat -> length c = 4%nat -> length p = 4%nat ->
  let raw := m ++ v ++ d ++ l ++ g ++ q ++ c ++ p ++ rest in
  (slice 0 4 raw = m /\ slice 4 1 raw = v /\ slice 5 1 raw = d /\ slice 6 2 raw = l)
  /\ (slice 8 8 raw = g /\ slice 16 8 raw = q /\ slice 24 4 raw = c /\ slice 28 4 raw = p)
  /\ drop HEADER_SIZE raw = rest.
Proof.
  intros Hm Hv Hd Hl Hg Hq Hc Hp raw.
  assert (Hat : forall before field after, raw = before ++ field ++ after ->
    forall i n, i = length before -> n = length field -> slice i n raw = field)
    by (intros ? ? ? -> ? ? ? ?; by apply slice_part).
  split_and!.
  - by eapply (Hat []).
  - by eapply (Hat m).
  - eapply (Hat (m ++ v) d); [by unfold raw; rewrite <- !(assoc_L (++)) | rewrite !length_app; lia | done].
  - eapply (Hat (m ++ v ++ d) l);
      [by unfold raw; rewrite <- !(assoc_L (++)) | rewrite !length_app; lia | done].
  - eapply (Hat (m ++ v ++ d ++ l) g);
      [by unfold raw; rewrite <- !(assoc_L (++)) | rewrite !length_app; lia | done].
  - eapply (Hat (m ++ v ++ d ++ l ++ g) q);
      [by unfold raw; rewrite <- !(assoc_L (++)) | rewrite !length_app; lia | done].
  - eapply (Hat (m ++ v ++ d ++ l ++ g ++ q) c);
      [by unfold raw; rewrite <- !(assoc_L (++)) | rewrite !length_app; lia | done].
  - eapply (Hat (m ++ v ++ d ++ l ++ g ++ q ++ c) p);
      [by unfold raw; rewrite <- !(assoc_L (++)) | rewrite !length_app; lia | done].
  - unfold raw. rewrite !(assoc_L (++)). apply drop_app_length'. rewrite !length_app. unfold HEADER_SIZE. lia.
Qed.

Lemma decode_encode f raw :
  frame_ok f = true -> encode_port_forward_data f = Some raw -> decode_port_forward_data raw = Ok f.
Proof.
  intros Hok. unfold encode_port_forward_data. case_match eqn:Hfits; [|done]. intros <-%(inj Some).
  apply make_frame_ok in Hok as Hmake. unfold frame_ok, payload_ok in Hok. bool_to_prop.
  match goal with H : session_pattern _ = true |- _ => destruct (session_bytes _ H) as [Hlen Hascii] end.
  set (session := String.list_byte_of_string (session_id f)) in *.
  match goal with |- decode_port_forward_data ?r = _ => set (raw := r) end.
  destruct (header_fields FRAME_MAGIC (pack_int 1 FRAME_VERSION) (pack_int 1 (direction_code (direction f)))
    (pack_int 2 (Z.of_nat (length session))) (pack_int 8 (generation f)) (pack_int 8 (sequence f))
    (pack_int 4 (connection_id f)) (pack_int 4 (Z.of_nat (length (payload f)))) (session ++ payload f))
    as ((E0 & E4 & E5 & E6) & (E8 & E16 & E24 & E28) & Hdrop); rewrite ?length_pack_int; try done.
  change (slice 0 4 raw = FRAME_MAGIC) in E0. change (drop HEADER_SIZE raw = session ++ payload f) in Hdrop.
  unfold decode_port_forward_data. rewrite E0.
  replace (slice 4 1 raw) with (pack_int 1 FRAME_VERSION) by done.
  replace (slice 5 1 raw) with (pack_int 1 (direction_code (direction f))) by done.
  replace (slice 6 2 raw) with (pack_int 2 (Z.of_nat (length session))) by done.
  replace (slice 8 8 raw) with (pack_int 8 (generation f)) by done.
  replace (slice 16 8 raw) with (pack_int 8 (sequence f)) by done.
  replace (slice 24 4 raw) with (pack_int 4 (connection_id f)) by done.
  replace (slice 28 4 raw) with (pack_int 4 (Z.of_nat (length (payload f)))) by done.
  assert (Hraw : length raw = (HEADER_SIZE + length session + length (payload f))%nat).
  { unfold raw. rewrite !length_app, !length_pack_int. simpl. unfold HEADER_SIZE. lia. }
  assert (Hs : slice HEADER_SIZE (length session) raw = session).
  { unfold slice. by rewrite Hdrop, take_app_length. }
  assert (Hp : drop (HEADER_SIZE + length session) raw = payload f).
  { by rewrite <- drop_drop, Hdrop, drop_app_length. }
  rewrite !unpack_pack by (done || by destruct (direction f)).
  rewrite (proj2 (Nat.ltb_ge _ _)) by (rewrite Hraw; lia).
  rewrite bool_decide_true by done. cbn [negb orb]. rewrite Z.eqb_refl. cbn [negb].
  rewrite code_direction_code.
  rewrite (proj2 (Z.leb_le 16 _)), (proj2 (Z.leb_le _ 64)), (proj2 (Z.leb_le 1 _)), (proj2 (Z.leb_le _ MAX_PORT_FORWARD_FRAME_BYTES)) by lia.
  cbn [negb andb]. rewrite (proj2 (Z.eqb_eq _ _)) by (rewrite Hraw; lia). cbn [negb].
  rewrite Nat2Z.id, Hs, Hascii, Hp. cbn [negb].
  unfold session. rewrite String.string_of_list_byte_of_string. by destruct f.
Qed.

Lemma make_frame_payload f g : make_frame f = Ok g -> payload g = payload f.
Proof. intros [-> _]%make_frame_inv. done. Qed.

Lemma encode_decode f raw :
  decode_port_forward_data raw = Ok f ->
  frame_ok f = true /\ encode_port_forward_data f = Some raw.
Proof.
  unfold decode_port_forward_data.
  destruct (Nat.ltb_spec (length raw) HEADER_SIZE) as [|Hlen]; [done|].
  set (sl := unpack_int (slice 6 2 raw)). set (pl := unpack_int (slice 28 4 raw)).
  destruct (bool_decide_reflect (slice 0 4 raw = FRAME_MAGIC)) as [Hmagic|]; [|done].
  destruct (Z.eqb_spec (unpack_int (slice 4 1 raw)) FRAME_VERSION) as [Hversion|]; [|done].
  cbn [negb orb]. destruct (code_direction _) as [d|] eqn:Hd; [|done].
  destruct ((16 <=? sl) && (sl <=? 64)) eqn:Hsl; [|done].
  destruct ((1 <=? pl) && (pl <=? MAX_PORT_FORWARD_FRAME_BYTES)) eqn:Hpl; [|done].
  destruct (Z.eqb_spec (Z.of_nat (length raw)) (Z.of_nat HEADER_SIZE + sl + pl)) as [Hraw|]; [|done].
  cbn [negb]. set (session := slice HEADER_SIZE (Z.to_nat sl) raw).
  destruct (forallb is_ascii session); [|done]. cbn [negb].
  intros [-> Hok]%make_frame_inv. split; [done|]. apply direction_code_direction in Hd. bool_to_prop.
  unfold HEADER_SIZE in *.
  assert (Hsession : length session = Z.to_nat sl) by (apply length_slice; lia).
  assert (Hpayload : length (drop (32 + Z.to_nat sl) raw) = Z.to_nat pl) by (rewrite length_drop; lia).
  unfold encode_port_forward_data; cbn [session_id generation sequence connection_id payload direction].
  rewrite String.list_byte_of_string_of_list_byte, Hsession, Hpayload, !Z2Nat.id by lia.
  destruct (pack_slice 4 1 raw) as [P4 _], (pack_slice 5 1 raw) as [P5 _], (pack_slice 6 2 raw) as [P6 F6],
    (pack_slice 8 8 raw) as [P8 F8], (pack_slice 16 8 raw) as [P16 F16],
    (pack_slice 24 4 raw) as [P24 F24], (pack_slice 28 4 raw) as [P28 F28]; try lia.
  fold sl in P6, F6. fold pl in P28, F28. rewrite F6, F8, F16, F24, F28. cbn [andb].
  rewrite <- Hversion, <- Hd, P4, P5, P6, P8, P16, P24, P28, <- Hmagic. f_equal.
  rewrite <- (drop_0 raw) at 10.
  rewrite (drop_slice 0 4 raw), (drop_slice (0 + 4) 1 raw), (drop_slice (0 + 4 + 1) 1 raw),
    (drop_slice (0 + 4 + 1 + 1) 2 raw), (drop_slice (0 + 4 + 1 + 1 + 2) 8 raw),
    (drop_slice (0 + 4 + 1 + 1 + 2 + 8) 8 raw), (drop_slice (0 + 4 + 1 + 1 + 2 + 8 + 8) 4 raw),
    (drop_slice (0 + 4 + 1 + 1 + 2 + 8 + 8 + 4) 4 raw),
    (drop_slice (0 + 4 + 1 + 1 + 2 + 8 + 8 + 4 + 4) (Z.to_nat sl) raw).
  reflexivity.
Qed.

Lemma frame_fits f :
  frame_ok f = true ->
  fits 2 (Z.of_nat (length (String.list_byte_of_string f.(session_id)))) = true
  /\ fits 4 f.(connection_id) = true /\ fits 4 (Z.of_nat (length f.(payload))) = true
  /\ (fits 8 f.(generation) = true <-> f.(generation) < 2 ^ 64)
  /\ (fits 8 f.(sequence) = true <-> f.(sequence) < 2 ^ 64).
Proof.
  unfold frame_ok, payload_ok, connection_id_ok, MAX_PORT_FORWARD_FRAME_BYTES. intros H. bool_to_prop.
  match goal with H : session_pattern _ = true |- _ => destruct (session_bytes _ H) as [Hlen _] end.
  unfold fits. rewrite !andb_true_iff, !Z.leb_le, !Z.ltb_lt. simpl Z.of_nat in *. lia.
Qed.

(** ** Properties *)

(** C38. The binary frame is an exact codec: decoding what was encoded gives
    the frame back, every accepted byte string is the encoding of the frame it
    decodes to (so no two byte strings decode alike), a decoded frame respects
    every budget, and a frame that could be built is refused by the encoder
    only when its generation or sequence has outgrown 64 bits. *)
Theorem frame_codec f raw :
  (frame_ok f = true -> encode_port_forward_data f = Some raw -> decode_port_forward_data raw = Ok f)
  /\ (decode_port_forward_data raw = Ok f ->
      frame_ok f = true /\ encode_port_forward_data f = Some raw)
  /\ (frame_ok f = true ->
      encode_port_forward_data f = None <-> 2 ^ 64 <= f.(generation) \/ 2 ^ 64 <= f.(sequence)).
Proof.
  split_and!; [apply decode_encode | apply encode_decode |].
  intros Hok. destruct (frame_fits f Hok) as (F1 & F2 & F3 & F4 & F5).
  unfold encode_port_forward_data. rewrite F1, F2, F3.
  destruct (fits 8 (generation f)), (fits 8 (sequence f)); cbn [andb]; split; try done; intros;
    try lia; destruct (Z.lt_ge_cases (generation f) (2 ^ 64)), (Z.lt_ge_cases (sequence f) (2 ^ 64));
    intuition.
Qed.

Definition sample_frame : PortForwardDataFrame :=
  Frame "abcdefghijklmnop" 1 7 42 desktop_to_target [x01; xff].

Example frame_codec_witness :
  exists raw, encode_port_forward_data sample_frame = Some raw /\ length raw = 50%nat
    /\ decode_port_forward_data raw = Ok sample_frame.
Proof.
  destruct (encode_port_forward_data sample_frame) as [raw|] eqn:E; [|discriminate E].
  exists raw. split; [reflexivity|].
  split; [| exact (proj1 (frame_codec sample_frame raw) eq_refl E)].
  vm_compute in E. injection E as <-. reflexivity.
Defined.
