(* ===== verification/PortForwardGateway.v ===== *)
(** The gateway's port-forward sessions
    ([services/realtime/realtime-gateway/port_forward_sessions.py],
    [agent_connections.py]): the relay between a desktop's websocket and the
    agent's, with its credit windows, budgets and audit records.

    A handler is one step: it runs to its end unless the agent's socket pushes
    back, and the model interleaves no other handler at the sends it awaits.
    [self.sessions] holds the sessions whose [done] event is not set, since the
    two change together; a finished session lives on in its browser task, which
    is why the record is kept.  [receiving] says that this task waits for the
    desktop's next message: the loop does not look at [done] again before it
    handles it.

    Times are in microseconds.  [up] says whether the agent's socket takes a
    message.  Identifiers drawn with [secrets] are arguments, and so are the
    verdict of the authorizer and the success of the audit log. *)

From stdpp Require Import pretty.
From S2P Require Import Prelude PyString Json PortForwardFrames.
From coqutil Require Import Datatypes.RecordSettersUsingExistingGetters.
#[global] Open Scope Z_scope.

(** [max(8, connections * (window // frame + 4))]. *)
Definition PORT_FORWARD_BROWSER_QUEUE_MAX : Z :=
  Z.max 8 (MAX_PORT_FORWARD_CONNECTIONS_PER_SESSION
           * (PORT_FORWARD_CREDIT_WINDOW_BYTES / MAX_PORT_FORWARD_FRAME_BYTES + 4)).

Record PortForwardConnectionState : Type := ConnectionState {
  opened : bool;
  closed : bool;
  close_requested : bool;
  desktop_credit : Z;
  target_credit : Z;
  next_desktop_sequence : Z;
  next_target_sequence : Z;
  c_desktop_to_target_bytes : Z;
  c_target_to_desktop_bytes : Z }.

Definition new_connection : PortForwardConnectionState :=
  ConnectionState false false false 0 PORT_FORWARD_CREDIT_WINDOW_BYTES 0 0 0 0.

Inductive BrowserOutbound : Type :=
| OutBytes (raw : list byte)
| OutEvent (event : agent_event).

Record BrowserPortForwardSession : Type := Session {
  s_session_id : string;
  s_generation : Z;
  s_workspace_id : string;
  s_cluster_id : string;
  s_user_id : string;
  start : PortForwardStart;
  agent : nat;
  started_at : Z;
  last_activity_at : Z;
  done : bool;
  receiving : bool;
  outbound : list BrowserOutbound;
  connections : gmap Z PortForwardConnectionState;
  opened_target : option PortForwardOpened;
  desktop_to_target_bytes : Z;
  target_to_desktop_bytes : Z;
  connection_count : Z;
  terminal_recorded : bool }.

(** What a handler sends out. *)
Inductive effect : Type :=
| AgentOpen (m : PortForwardOpen)
| AgentRequest (session_id : string) (generation : Z) (m : desktop_request)
| AgentBytes (raw : list byte)
| Audit (subject workspace_id : string) (payload : odict json).

(** [send_json] suppressed or raising when the socket is gone. *)
Definition to_agent (up : bool) (e : effect) : list effect := if up then [e] else [].

(** ** Ending a session *)

(** [session.offer]. *)
Definition offer (s : BrowserPortForwardSession) (m : BrowserOutbound)
    : option BrowserPortForwardSession :=
  if Z.of_nat (length s.(outbound)) <? PORT_FORWARD_BROWSER_QUEUE_MAX
  then Some (s <| outbound := s.(outbound) ++ [m] |>) else None.

Definition end_reason_value (r : PortForwardEndReason) : string :=
  match r with
  | closed_reason => "closed" | idle_timeout => "idle_timeout"
  | session_timeout => "session_timeout" | byte_limit => "byte_limit"
  | target_closed => "target_closed"
  end.

Definition error_code_value (c : PortForwardErrorCode) : string :=
  match c with
  | agent_unavailable => "agent_unavailable" | audit_unavailable => "audit_unavailable"
  | credit_violation => "credit_violation" | invalid_target => "invalid_target"
  | protocol_violation => "protocol_violation" | session_limit => "session_limit"
  | target_unavailable => "target_unavailable" | timeout => "timeout"
  end.

Definition opt_json {A} (f : A -> json) (o : option A) : json := from_option f JNull o.

Definition session_facts (s : BrowserPortForwardSession) : odict json :=
  let resource := s.(start).(st_resource) in
  [("session_id", JStr s.(s_session_id)); ("generation", JInt s.(s_generation));
   ("cluster_id", JStr s.(s_cluster_id)); ("namespace", opt_json JStr resource.(namespace));
   ("resource_kind", JStr resource.(kind)); ("resource_name", JStr resource.(name));
   ("resource_uid", JStr resource.(uid)); ("remote_port", JInt s.(start).(st_remote_port));
   ("capability_revision", JStr s.(start).(st_capability_revision));
   ("requested_by", JStr s.(s_user_id))].

Definition audit_started (s : BrowserPortForwardSession) : effect :=
  Audit "port_forward.session.started" s.(s_workspace_id) (session_facts s).

Definition audit_finished (s : BrowserPortForwardSession) (now : Z) (reason : string)
    (error_code : option string) : effect :=
  let target := s.(opened_target) in
  Audit "port_forward.session.finished" s.(s_workspace_id)
    (session_facts s ++
     [("target_kind", opt_json JStr (target_kind <$> target));
      ("target_name", opt_json JStr (target_name <$> target));
      ("target_uid", opt_json JStr (target_uid <$> target));
      ("target_port", opt_json JInt (target_port <$> target));
      ("connections", JInt s.(connection_count));
      ("desktop_to_target_bytes", JInt s.(desktop_to_target_bytes));
      ("target_to_desktop_bytes", JInt s.(target_to_desktop_bytes));
      ("duration_ms", JInt ((now - s.(started_at)) / 1000));
      ("reason", JStr reason); ("error_code", opt_json JStr error_code)]).

Definition record_finished (s : BrowserPortForwardSession) (now : Z) (reason : string)
    (error_code : option string) : BrowserPortForwardSession * list effect :=
  if s.(terminal_recorded) then (s, [])
  else (s <| terminal_recorded := true |>, [audit_finished s now reason error_code]).

(** [message] is an [End] or an [Error]. *)
Definition finish (s : BrowserPortForwardSession) (message : agent_event) (now : Z)
    : BrowserPortForwardSession * list effect :=
  if s.(done) then (s, [])
  else
    let s := s <| outbound := [] |> in
    let s := default s (offer s (OutEvent message)) in
    let s := s <| done := true |> in
    match message with
    | Error code _ _ => record_finished s now "error" (Some (error_code_value code))
    | End reason _ _ => record_finished s now (end_reason_value reason) None
    | _ => record_finished s now "error" None
    end.

Definition error (s : BrowserPortForwardSession) (code : PortForwardErrorCode) (message : string)
    (retryable : bool) (now : Z) : BrowserPortForwardSession * list effect :=
  finish s (Error code message retryable) now.

Definition close_agent (up : bool) (s : BrowserPortForwardSession) : list effect :=
  to_agent up (AgentRequest s.(s_session_id) s.(s_generation) Close).

Definition protocol_error (up : bool) (s : BrowserPortForwardSession) (message : string) (now : Z)
    : BrowserPortForwardSession * list effect :=
  let ended := error s protocol_violation message false now in
  (ended.1, close_agent up s ++ ended.2).

Definition end_event (s : BrowserPortForwardSession) (reason : PortForwardEndReason) : agent_event :=
  End reason s.(desktop_to_target_bytes) s.(target_to_desktop_bytes).

Definition close_with_reason (up : bool) (s : BrowserPortForwardSession)
    (reason : PortForwardEndReason) (now : Z) : BrowserPortForwardSession * list effect :=
  let ended := finish s (end_event s reason) now in
  (ended.1, close_agent up s ++ ended.2).

Definition browser_closed (up : bool) (s : BrowserPortForwardSession) (now : Z)
    : BrowserPortForwardSession * list effect :=
  if s.(done) then (s, []) else close_with_reason up s closed_reason now.

(** ** Messages of the agent *)

Definition set_connection (s : BrowserPortForwardSession) (id : Z) (c : PortForwardConnectionState)
    : BrowserPortForwardSession := s <| connections ::= <[id := c]> |>.

(** Pass the message on to the desktop. *)
Definition deliver (up : bool) (s : BrowserPortForwardSession) (m : BrowserOutbound) (now : Z)
    : BrowserPortForwardSession * list effect :=
  match offer s m with
  | Some s => (s, [])
  | None => protocol_error up s "Desktop port-forward delivery queue is full." now
  end.

(** The receipt names the authorized target. *)
Definition receipt_matches (s : BrowserPortForwardSession) (t : PortForwardOpened) : bool :=
  let resource := s.(start).(st_resource) in
  bool_decide (s.(opened_target) = None)
  && String.eqb (casefold t.(target_kind)) (casefold resource.(kind))
  && String.eqb t.(target_name) resource.(name) && String.eqb t.(target_uid) resource.(uid)
  && (t.(target_port) =? s.(start).(st_remote_port)).

Definition handle_agent_event (up : bool) (s : BrowserPortForwardSession) (generation : option Z)
    (m : agent_event) (now : Z) : BrowserPortForwardSession * list effect :=
  if negb (bool_decide (generation = Some s.(s_generation)))
  then protocol_error up s "Port-forward generation is stale." now
  else
    let s := s <| last_activity_at := now |> in
    match m with
    | TargetOpened t =>
        if receipt_matches s t then deliver up (s <| opened_target := Some t |>) (OutEvent m) now
        else protocol_error up s "Port-forward target receipt does not match the authorized target." now
    | ConnectionOpened id =>
        match s.(connections) !! id with
        | Some c =>
            if c.(opened) || c.(closed)
            then protocol_error up s "Unknown port-forward connection was opened." now
            else deliver up (set_connection s id (c <| opened := true |>)) (OutEvent m) now
        | None => protocol_error up s "Unknown port-forward connection was opened." now
        end
    | AgentWindow id direction credit =>
        match s.(connections) !! id with
        | Some c =>
            if c.(closed) || negb (bool_decide (direction = desktop_to_target))
               || (PORT_FORWARD_CREDIT_WINDOW_BYTES <? c.(desktop_credit) + credit)
            then protocol_error up s "Invalid desktop-to-target credit window." now
            else deliver up (set_connection s id (c <| desktop_credit ::= fun d => d + credit |>))
                   (OutEvent m) now
        | None => protocol_error up s "Invalid desktop-to-target credit window." now
        end
    | AgentHalfClose id direction =>
        if bool_decide (is_Some (s.(connections) !! id)) && bool_decide (direction = target_to_desktop)
        then deliver up s (OutEvent m) now
        else protocol_error up s "Unknown port-forward half-close." now
    | ConnectionEnd id _ d t =>
        match s.(connections) !! id with
        | Some c =>
            if c.(closed) then protocol_error up s "Unknown port-forward connection ended." now
            else if (d =? c.(c_desktop_to_target_bytes)) && (t =? c.(c_target_to_desktop_bytes))
            then deliver up (s <| connections ::= delete id |>) (OutEvent m) now
            else protocol_error up s "Port-forward connection byte receipt is inconsistent." now
        | None => protocol_error up s "Unknown port-forward connection ended." now
        end
    | End _ d t =>
        if bool_decide (s.(connections) = ∅) && (d =? s.(desktop_to_target_bytes))
           && (t =? s.(target_to_desktop_bytes))
        then finish s m now
        else protocol_error up s "Port-forward byte receipt is inconsistent." now
    | Error _ _ _ => finish s m now
    end.

(** A data frame for this session, already decoded from [raw]. *)
Definition handle_agent_frame (up : bool) (s : BrowserPortForwardSession) (f : PortForwardDataFrame)
    (raw : list byte) (now : Z) : BrowserPortForwardSession * list effect :=
  let size := Z.of_nat (length f.(payload)) in
  match s.(connections) !! f.(connection_id) with
  | Some c =>
      if negb (f.(generation) =? s.(s_generation))
         || negb (bool_decide (f.(direction) = target_to_desktop))
         || negb c.(opened) || c.(closed)
         || negb (f.(sequence) =? c.(next_target_sequence)) || (c.(target_credit) <? size)
      then protocol_error up s "Invalid target-to-desktop data frame." now
      else
        let next_total := s.(target_to_desktop_bytes) + size in
        if MAX_PORT_FORWARD_BYTES_PER_DIRECTION <? next_total
        then finish s (end_event s byte_limit) now
        else
          let c := c <| next_target_sequence ::= Z.succ |>
                     <| target_credit ::= fun t => t - size |>
                     <| c_target_to_desktop_bytes ::= fun t => t + size |> in
          deliver up ((set_connection s f.(connection_id) c) <| target_to_desktop_bytes := next_total |>
                        <| last_activity_at := now |>) (OutBytes raw) now
  | None => protocol_error up s "Invalid target-to-desktop data frame." now
  end.

(** ** Messages of the desktop *)

(** The exception of a send outside [suppress]: [serve_browser] turns it into
    an error of the session. *)
Definition transport_failed (s : BrowserPortForwardSession) (now : Z)
    : BrowserPortForwardSession * list effect :=
  error s agent_unavailable "Port-forward transport failed." true now.

(** The result of a message: the loop goes on ([true]) or the task ends. *)
Definition outcome : Type := BrowserPortForwardSession * list effect * bool.

(** [await session.agent.send_json(message)], the last statement of the loop. *)
Definition forward (up : bool) (s : BrowserPortForwardSession) (m : desktop_request) (now : Z) : outcome :=
  if up then (s, [AgentRequest s.(s_session_id) s.(s_generation) m], true)
  else (transport_failed s now, false).

Definition browser_request (up : bool) (s : BrowserPortForwardSession) (session_id : string)
    (generation : Z) (m : desktop_request) (now : Z) : outcome :=
  if negb (String.eqb session_id s.(s_session_id) && (generation =? s.(s_generation)))
  then (protocol_error up s "Port-forward session ownership mismatch." now, false)
  else
    let s := s <| last_activity_at := now |> in
    match m with
    | ConnectionOpen id =>
        if bool_decide (s.(opened_target) = None) || bool_decide (is_Some (s.(connections) !! id))
           || (MAX_PORT_FORWARD_CONNECTIONS_PER_SESSION <=? Z.of_nat (size s.(connections)))
        then (protocol_error up s "Port-forward connection cannot be opened." now, false)
        else forward up ((set_connection s id new_connection) <| connection_count ::= Z.succ |>) m now
    | DesktopWindow id direction credit =>
        match s.(connections) !! id with
        | Some c =>
            if c.(closed) || negb (bool_decide (direction = target_to_desktop))
               || (PORT_FORWARD_CREDIT_WINDOW_BYTES <? c.(target_credit) + credit)
            then (protocol_error up s "Invalid target-to-desktop credit window." now, false)
            else forward up (set_connection s id (c <| target_credit ::= fun t => t + credit |>)) m now
        | None => (protocol_error up s "Invalid target-to-desktop credit window." now, false)
        end
    | DesktopHalfClose id direction =>
        if bool_decide (is_Some (s.(connections) !! id)) && bool_decide (direction = desktop_to_target)
        then forward up s m now
        else (protocol_error up s "Unknown port-forward half-close." now, false)
    | ConnectionClose id =>
        match s.(connections) !! id with
        | Some c =>
            if c.(closed) || c.(close_requested)
            then (protocol_error up s "Unknown port-forward connection close." now, false)
            else forward up (set_connection s id (c <| close_requested := true |>)) m now
        | None => (protocol_error up s "Unknown port-forward connection close." now, false)
        end
    | Close =>
        if up then
          let ended := finish s (end_event s closed_reason) now in
          (ended.1, AgentRequest s.(s_session_id) s.(s_generation) Close :: ended.2, false)
        else (transport_failed s now, false)
    end.

Definition browser_binary (up : bool) (s : BrowserPortForwardSession) (raw : list byte) (now : Z) : outcome :=
  match decode_port_forward_data raw with
  | Err _ => (protocol_error up s "Invalid desktop-to-target data frame." now, true)
  | Ok f =>
      let size := Z.of_nat (length f.(payload)) in
      match s.(connections) !! f.(connection_id) with
      | Some c =>
          if negb (String.eqb f.(session_id) s.(s_session_id))
             || negb (f.(generation) =? s.(s_generation))
             || negb (bool_decide (f.(direction) = desktop_to_target))
             || negb c.(opened) || c.(closed)
             || negb (f.(sequence) =? c.(next_desktop_sequence)) || (c.(desktop_credit) <? size)
          then (protocol_error up s "Invalid desktop-to-target data frame." now, true)
          else
            let next_total := s.(desktop_to_target_bytes) + size in
            if MAX_PORT_FORWARD_BYTES_PER_DIRECTION <? next_total
            then (close_with_reason up s byte_limit now, true)
            else
              let c := c <| next_desktop_sequence ::= Z.succ |>
                         <| desktop_credit ::= fun d => d - size |>
                         <| c_desktop_to_target_bytes ::= fun d => d + size |> in
              let s := (set_connection s f.(connection_id) c) <| desktop_to_target_bytes := next_total |>
                         <| last_activity_at := now |> in
              if up then (s, [AgentBytes raw], true) else (transport_failed s now, false)
      | None => (protocol_error up s "Invalid desktop-to-target data frame." now, true)
      end
  end.

(** What [session.browser.receive()] gives: [Text None] is text that does not
    parse, [TextStart] a second start request. *)
Inductive browser_message : Type :=
| Disconnect
| Bytes (raw : list byte)
| Text (request : option (string * Z * desktop_request))
| TextStart.

Definition handle_browser_message (up : bool) (s : BrowserPortForwardSession) (m : browser_message)
    (now : Z) : outcome :=
  match m with
  | Disconnect => (browser_closed up s now, false)
  | Bytes raw => browser_binary up s raw now
  | Text None => (protocol_error up s "Invalid desktop port-forward control frame." now, false)
  | TextStart => (protocol_error up s "Port-forward session ownership mismatch." now, false)
  | Text (Some (session_id, generation, request)) =>
      browser_request up s session_id generation request now
  end.

(** The head of the loop: whether the task waits for another message. *)
Definition loop_head (up : bool) (s : BrowserPortForwardSession) (now : Z)
    : BrowserPortForwardSession * list effect :=
  if s.(done) then (s <| receiving := false |>, [])
  else if s.(started_at) + MAX_PORT_FORWARD_SESSION_SECONDS * SECOND <=? now
  then let ended := close_with_reason up s session_timeout now in (ended.1 <| receiving := false |>, ended.2)
  else if MAX_PORT_FORWARD_IDLE_SECONDS * SECOND <=? now - s.(last_activity_at)
  then let ended := close_with_reason up s idle_timeout now in (ended.1 <| receiving := false |>, ended.2)
  else (s, []).

(** [_browser_receive_loop] for one message, or for the timeout ([None]). *)
Definition browser_receive (up : bool) (s : BrowserPortForwardSession) (m : option browser_message)
    (now : Z) : BrowserPortForwardSession * list effect :=
  match m with
  | None => loop_head up s now
  | Some m =>
      let '(s, effects, continue) := handle_browser_message up s m now in
      if continue then let next := loop_head up s now in (next.1, effects ++ next.2)
      else (s <| receiving := false |>, effects)
  end.

(** [_browser_sender]: the next message leaves the queue. *)
Definition browser_sender (s : BrowserPortForwardSession) : option (BrowserOutbound * BrowserPortForwardSession) :=
  match s.(outbound) with
  | m :: rest => Some (m, s <| outbound := rest |>)
  | [] => None
  end.

(** ** The broker *)

(** An admitted websocket, waiting for its start request. *)
Record admission : Type := Admission {
  ad_workspace_id : string;
  ad_cluster_id : string;
  ad_user_id : string;
  ad_agent : nat }.

(** [connections_current] is the registry of the agents' sockets, numbered in
    the order they connected. *)
Record broker : Type := Broker {
  sessions : gmap string BrowserPortForwardSession;
  connections_current : gmap string nat;
  next_agent : nat;
  admitted : list admission }.

(** [AgentConnectionRegistry.register]: the new connection replaces the current
    one, which is returned. *)
Definition register (b : broker) (cluster_id : string) : broker * nat * option nat :=
  (b <| connections_current ::= <[cluster_id := b.(next_agent)]> |> <| next_agent ::= S |>,
   b.(next_agent), b.(connections_current) !! cluster_id).

Definition unregister (b : broker) (cluster_id : string) (connection : nat) : broker * bool :=
  if bool_decide (b.(connections_current) !! cluster_id = Some connection)
  then (b <| connections_current ::= delete cluster_id |>, true) else (b, false).

(** [self.sessions.get(session_id)]. *)
Definition live_session (b : broker) (session_id : string) : option BrowserPortForwardSession :=
  match b.(sessions) !! session_id with
  | Some s => if s.(done) then None else Some s
  | None => None
  end.

Definition with_session (b : broker) (s : BrowserPortForwardSession) : broker :=
  b <| sessions ::= <[s.(s_session_id) := s]> |>.

Inductive agent_payload : Type :=
| ForeignPayload
| InvalidPayload (session_id : string) (generation : option Z)
| AgentMessage (session_id : string) (generation : option Z) (m : agent_event).

Definition handle_agent_payload (b : broker) (up : bool) (cluster_id : string) (connection : nat)
    (payload : agent_payload) (now : Z) : broker * list effect * option bool :=
  match payload with
  | ForeignPayload => (b, [], None)
  | InvalidPayload session_id generation =>
      match live_session b session_id with
      | Some s =>
          if bool_decide (generation = Some s.(s_generation)) then
            let r := protocol_error up s "Invalid agent port-forward control frame." now in
            (with_session b r.1, r.2, Some true)
          else (b, [], Some true)
      | None => (b, [], Some true)
      end
  | AgentMessage session_id generation m =>
      match live_session b session_id with
      | None => (b, [], Some true)
      | Some s =>
          if negb (String.eqb s.(s_cluster_id) cluster_id) then (b, [], Some false)
          else if negb (s.(agent) =? connection)%nat then (b, [], Some true)
          else let r := handle_agent_event up s generation m now in (with_session b r.1, r.2, Some true)
      end
  end.

Definition handle_agent_binary (b : broker) (up : bool) (cluster_id : string) (connection : nat)
    (raw : list byte) (now : Z) : broker * list effect * bool :=
  match decode_port_forward_data raw with
  | Err _ => (b, [], true)
  | Ok f =>
      match live_session b f.(session_id) with
      | None => (b, [], true)
      | Some s =>
          if negb (String.eqb s.(s_cluster_id) cluster_id) then (b, [], false)
          else if negb (s.(agent) =? connection)%nat then (b, [], true)
          else let r := handle_agent_frame up s f raw now in (with_session b r.1, r.2, true)
      end
  end.

(** The sessions of the lost connection fail, in no particular order. *)
Definition agent_disconnected (b : broker) (cluster_id : string) (connection : nat) (now : Z)
    : broker * list effect :=
  let affected := filter (fun s => s.(done) = false /\ s.(s_cluster_id) = cluster_id
                                   /\ s.(agent) = connection) (map_to_list b.(sessions)).*2 in
  fold_left (fun acc s =>
      let r := error s agent_unavailable "Target agent disconnected." true now in
      (with_session acc.1 r.1, acc.2 ++ r.2)) affected (b, []).

(** The agent's websocket opens: the sessions of the connection it replaces fail. *)
Definition agent_connects (b : broker) (cluster_id : string) (now : Z) : broker * list effect :=
  let '(b, _, previous) := register b cluster_id in
  match previous with
  | Some connection => agent_disconnected b cluster_id connection now
  | None => (b, [])
  end.

(** It closes. *)
Definition agent_leaves (b : broker) (cluster_id : string) (connection : nat) (now : Z)
    : broker * list effect :=
  let '(b, current) := unregister b cluster_id connection in
  if current then agent_disconnected b cluster_id connection now else (b, []).

(** ** Admission of a websocket *)

Inductive reply : Type :=
| CloseSocket (code : Z)
| UnboundError (code : PortForwardErrorCode) (message : string) (retryable : bool)
| Serving.

Definition CLOSE_BAD_REQUEST : Z := 4400.
Definition CLOSE_UNAUTHORIZED : Z := 4401.

Definition live_sessions (b : broker) : list BrowserPortForwardSession :=
  filter (fun s => s.(done) = false) (map_to_list b.(sessions)).*2.

Definition user_session_count (b : broker) (workspace_id user_id : string) : Z :=
  Z.of_nat (length (filter (fun s => s.(s_workspace_id) = workspace_id /\ s.(s_user_id) = user_id)
                      (live_sessions b))).

Definition agent_session_count (b : broker) (cluster_id : string) : Z :=
  Z.of_nat (length (filter (fun s => s.(s_cluster_id) = cluster_id) (live_sessions b))).

(** [serve_browser] up to the first [await]: [identity_workspace] and [user_id]
    are the values of the authenticated browser session. *)
Definition admit_browser (b : broker) (workspace_id cluster_id identity_workspace user_id : string)
    : broker * option reply :=
  if String.eqb workspace_id "" || String.eqb cluster_id "" then (b, Some (CloseSocket CLOSE_BAD_REQUEST))
  else if negb (String.eqb workspace_id identity_workspace) then (b, Some (CloseSocket CLOSE_UNAUTHORIZED))
  else if String.eqb user_id "" then (b, Some (CloseSocket CLOSE_UNAUTHORIZED))
  else if MAX_PORT_FORWARD_SESSIONS_PER_USER <=? user_session_count b workspace_id user_id
  then (b, Some (UnboundError session_limit "Port-forward limit reached." false))
  else if MAX_PORT_FORWARD_SESSIONS_PER_AGENT <=? agent_session_count b cluster_id
  then (b, Some (UnboundError session_limit "Agent port-forward limit reached." false))
  else
    match b.(connections_current) !! cluster_id with
    | None => (b, Some (UnboundError agent_unavailable "Target agent is offline." true))
    | Some connection =>
        (b <| admitted ::= cons (Admission workspace_id cluster_id user_id connection) |>, None)
    end.

Definition open_request (s : BrowserPortForwardSession) : PortForwardOpen :=
  Open s.(s_session_id) s.(s_generation) s.(start).(st_capability_revision) s.(start).(st_resource)
    s.(start).(st_remote_port) PORT_FORWARD_CREDIT_WINDOW_BYTES.

Definition new_session (a : admission) (start : PortForwardStart) (session_id : string) (now : Z)
    : BrowserPortForwardSession :=
  Session session_id 1 a.(ad_workspace_id) a.(ad_cluster_id) a.(ad_user_id) start a.(ad_agent) now now
    false true [] ∅ None 0 0 0 false.

(** The rest of [serve_browser] up to the receive loop, for the n-th admitted
    websocket; [None] is a first message that is no start request in time. *)
Definition serve (b : broker) (up : bool) (n : nat) (request : option PortForwardStart)
    (authorized audited : bool) (session_id : string) (now : Z) : broker * list effect * reply :=
  match b.(admitted) !! n with
  | None => (b, [], CloseSocket CLOSE_BAD_REQUEST)
  | Some a =>
      let b := b <| admitted ::= delete n |> in
      match request with
      | None => (b, [], CloseSocket CLOSE_BAD_REQUEST)
      | Some start =>
          if negb authorized then (b, [], CloseSocket CLOSE_UNAUTHORIZED)
          else
            let s := new_session a start session_id now in
            if negb audited then (b, [], UnboundError audit_unavailable "Audit record unavailable." true)
            else
              let opened := if up then loop_head up s now
                            else let r := transport_failed s now in (r.1 <| receiving := false |>, r.2) in
              (with_session b opened.1,
               audit_started s :: to_agent up (AgentOpen (open_request s)) ++ opened.2, Serving)
      end
  end.
