(* ===== verification/PortForwardRuns.v ===== *)
(** Runs of the gateway's port-forward broker: the events of the event loop in
    any order, the invariant of a session, and what every run guarantees. *)

From stdpp Require Import pretty.
From S2P Require Import Prelude PyString Json PortForwardFrames PortForwardGateway.
From coqutil Require Import Datatypes.RecordSettersUsingExistingGetters.
#[global] Open Scope Z_scope.

(** ** One session *)

(** A parsed message lies in the ranges of the contract. *)
Definition browser_message_ok (m : option browser_message) : bool :=
  match m with
  | Some (Text (Some (_, _, request))) => desktop_request_ok request
  | _ => true
  end.

Definition terminal (m : BrowserOutbound) : bool :=
  match m with OutEvent (End _ _ _) | OutEvent (Error _ _ _) => true | _ => false end.

(** ** The invariant *)

Record connection_wf (c : PortForwardConnectionState) : Prop := {
  cw_live : c.(closed) = false;
  cw_desktop_credit : 0 <= c.(desktop_credit) <= PORT_FORWARD_CREDIT_WINDOW_BYTES;
  cw_target_credit : 0 <= c.(target_credit) <= PORT_FORWARD_CREDIT_WINDOW_BYTES;
  cw_sequences : 0 <= c.(next_desktop_sequence) /\ 0 <= c.(next_target_sequence);
  cw_bytes : 0 <= c.(c_desktop_to_target_bytes) /\ 0 <= c.(c_target_to_desktop_bytes) }.

Record session_wf (s : BrowserPortForwardSession) : Prop := {
  sw_connections : map_Forall (fun _ => connection_wf) s.(connections);
  sw_count : Z.of_nat (size s.(connections)) <= MAX_PORT_FORWARD_CONNECTIONS_PER_SESSION;
  sw_desktop_bytes : map_sum c_desktop_to_target_bytes s.(connections) <= s.(desktop_to_target_bytes)
                     <= MAX_PORT_FORWARD_BYTES_PER_DIRECTION;
  sw_target_bytes : map_sum c_target_to_desktop_bytes s.(connections) <= s.(target_to_desktop_bytes)
                    <= MAX_PORT_FORWARD_BYTES_PER_DIRECTION;
  sw_queue : Z.of_nat (length s.(outbound)) <= PORT_FORWARD_BROWSER_QUEUE_MAX;
  sw_recorded : s.(terminal_recorded) = s.(done);
  sw_target : forall t, s.(opened_target) = Some t ->
    t.(target_name) = s.(start).(st_resource).(name) /\ t.(target_uid) = s.(start).(st_resource).(uid)
    /\ t.(target_port) = s.(start).(st_remote_port);
  sw_opened : s.(connections) <> ∅ -> is_Some s.(opened_target) }.

(** ** Progress of a session *)

(** The audit records of a session among the effects. *)
Definition audit_record (id : string) (e : effect) : bool :=
  match e with
  | Audit _ _ facts =>
      match dict_get "session_id" facts with Some (JStr named) => String.eqb named id | _ => false end
  | _ => false
  end.

Definition audit_records (id : string) (effects : list effect) : list effect :=
  filter (fun e => audit_record id e = true) effects.

(** What never changes in the life of a session. *)
Definition identity (s : BrowserPortForwardSession) :=
  (s.(s_session_id), s.(s_generation), s.(s_workspace_id), s.(s_cluster_id), s.(s_user_id),
   s.(start), s.(agent), s.(started_at)).

(** The record that a terminal message leaves. *)
Definition record_of (s : BrowserPortForwardSession) (m : BrowserOutbound) (now : Z) : effect :=
  match m with
  | OutEvent (Error code _ _) => audit_finished s now "error" (Some (error_code_value code))
  | OutEvent (End reason _ _) => audit_finished s now (end_reason_value reason) None
  | _ => audit_finished s now "error" None
  end.

(** A handler keeps the session and may queue messages, or ends it. *)
Inductive progress (s : BrowserPortForwardSession) : BrowserPortForwardSession -> list effect -> Prop :=
| progress_keeps s' effects queued :
    identity s' = identity s -> s'.(done) = s.(done) -> (s.(done) = true -> queued = []) ->
    Forall (fun m => terminal m = false) queued -> s'.(outbound) = s.(outbound) ++ queued ->
    (forall id, audit_records id effects = []) -> progress s s' effects
| progress_ends s' effects m at_end now :
    identity s' = identity s -> identity at_end = identity s ->
    s.(done) = false -> s'.(done) = true -> terminal m = true -> s'.(outbound) = [m] ->
    (forall id, audit_records id effects
                = if decide (id = s.(s_session_id)) then [record_of at_end m now] else []) ->
    progress s s' effects.

Lemma audit_records_app id e1 e2 :
  audit_records id (e1 ++ e2) = audit_records id e1 ++ audit_records id e2.
Proof. apply filter_app. Qed.

Lemma record_of_id s m now id :
  audit_records id [record_of s m now]
  = if decide (id = s.(s_session_id)) then [record_of s m now] else [].
Proof.
  unfold audit_records.
  assert (audit_record id (record_of s m now) = String.eqb s.(s_session_id) id) as E
    by (unfold record_of; repeat case_match; done).
  rewrite filter_cons, E. case_decide as H1; bool_to_prop; case_decide; simplify_eq; try done.
  by rewrite String.eqb_refl in H1.
Qed.

Lemma close_agent_quiet up s id : audit_records id (close_agent up s) = [].
Proof. by destruct up. Qed.

Lemma identity_id s s' : identity s' = identity s -> s'.(s_session_id) = s.(s_session_id).
Proof. unfold identity. congruence. Qed.

Lemma progress_trans s1 s2 s3 e1 e2 :
  progress s1 s2 e1 -> progress s2 s3 e2 -> progress s1 s3 (e1 ++ e2).
Proof.
  intros [s2' ef1 q1 I1 D1 Q1 F1 O1 E1|s2' ef1 m1 a1 n1 I1 A1 D1 D1' T1 O1 E1].
  - intros [s3' ef2 q2 I2 D2 Q2 F2 O2 E2|s3' ef2 m2 a2 n2 I2 A2 D2 D2' T2 O2 E2].
    + apply (progress_keeps _ _ _ (q1 ++ q2)); [congruence | congruence | | by apply Forall_app | |].
      * intros Hd. rewrite (Q1 Hd), Q2 by congruence. done.
      * by rewrite O2, O1, (assoc_L (++)).
      * intros id. by rewrite audit_records_app, E1, E2.
    + apply (progress_ends _ _ _ m2 a2 n2); try congruence.
      intros id. by rewrite audit_records_app, E1, E2, (identity_id _ _ I1).
  - intros [s3' ef2 q2 I2 D2 Q2 F2 O2 E2|]; [|congruence].
    rewrite (Q2 D1'), app_nil_r in O2.
    apply (progress_ends _ _ _ m1 a1 n1); try congruence.
    intros id. by rewrite audit_records_app, E1, E2, app_nil_r.
Qed.

Create HintDb port_forward discriminated.

(** ** Handlers *)

Definition good (s : BrowserPortForwardSession) (r : BrowserPortForwardSession * list effect) : Prop :=
  session_wf r.1 /\ progress s r.1 r.2.

(** [s0] is [s] with other counters. *)
Definition alike (s s0 : BrowserPortForwardSession) : Prop :=
  identity s0 = identity s /\ s0.(done) = s.(done) /\ s0.(outbound) = s.(outbound).

Definition quiet (effects : list effect) : Prop := forall id, audit_records id effects = [].

Lemma alike_refl s : alike s s.
Proof. done. Qed.

Lemma good_quiet s s0 effects :
  session_wf s0 -> alike s s0 -> quiet effects -> good s (s0, effects).
Proof.
  intros Hwf (I & D & O) Hq. split; [done|]. apply (progress_keeps _ _ _ []); simpl; try done.
  by rewrite app_nil_r.
Qed.

Lemma good_trans s1 r1 r2 : good s1 r1 -> good r1.1 r2 -> good s1 (r2.1, r1.2 ++ r2.2).
Proof. intros [W1 P1] [W2 P2]. split; [done|]. simpl. by eapply progress_trans. Qed.

Lemma good_prefix s r effects : quiet effects -> good s r -> good s (r.1, effects ++ r.2).
Proof.
  intros Hq [W P]. split; [done|]. simpl.
  eapply progress_trans; [|exact P]. apply (progress_keeps _ _ _ []); try done. by rewrite app_nil_r.
Qed.

Lemma finish_live s m now :
  s.(done) = false -> s.(terminal_recorded) = false ->
  finish s m now = (s <| outbound := [OutEvent m] |> <| done := true |> <| terminal_recorded := true |>,
                    [record_of s (OutEvent m) now]).
Proof.
  intros Hd Hr. unfold finish. rewrite Hd. unfold offer.
  change (Z.of_nat (length (s <| outbound := [] |>).(outbound)) <? PORT_FORWARD_BROWSER_QUEUE_MAX) with true.
  unfold record_finished. destruct s; simpl in *; subst. by destruct m.
Qed.

Lemma finish_good s s0 m now :
  session_wf s0 -> alike s s0 -> terminal (OutEvent m) = true -> good s (finish s0 m now).
Proof.
  intros Hwf Hs Hm. destruct s0.(done) eqn:Hd.
  - unfold finish. rewrite Hd. by apply good_quiet.
  - rewrite finish_live by (rewrite ?(sw_recorded _ Hwf); done). split.
    + destruct Hwf. constructor; simpl; done.
    + destruct Hs as (I & D & O). eapply (progress_ends _ _ _ (OutEvent m) s0 now); simpl; try done; [congruence|].
      intros id. rewrite <- (identity_id _ _ I). apply (record_of_id s0 (OutEvent m)).
Qed.

Lemma close_agent_good up s s0 r : good s r -> good s (r.1, close_agent up s0 ++ r.2).
Proof. apply good_prefix. intros id. apply close_agent_quiet. Qed.

Lemma protocol_error_good up s s0 message now :
  session_wf s0 -> alike s s0 -> good s (protocol_error up s0 message now).
Proof. intros. by apply close_agent_good, finish_good. Qed.

Lemma close_with_reason_good up s s0 reason now :
  session_wf s0 -> alike s s0 -> good s (close_with_reason up s0 reason now).
Proof. intros. by apply close_agent_good, finish_good. Qed.

Lemma transport_failed_good s s0 now :
  session_wf s0 -> alike s s0 -> good s (transport_failed s0 now).
Proof. intros. by apply finish_good. Qed.

Lemma deliver_good up s s0 m now :
  session_wf s0 -> alike s s0 -> s.(done) = false -> terminal m = false -> good s (deliver up s0 m now).
Proof.
  intros Hwf Hs Hd Hm. unfold deliver, offer. destruct (_ <? _) eqn:E; bool_to_prop;
    [|by apply protocol_error_good]. split.
  - destruct Hwf. constructor; simpl; try done.
    unfold const. rewrite length_app. simpl. lia.
  - destruct Hs as (I & D & O). apply (progress_keeps _ _ _ [m]); simpl; try done; [congruence | by constructor |].
    unfold const. by rewrite O.
Qed.

#[export] Hint Resolve alike_refl protocol_error_good close_with_reason_good transport_failed_good
  finish_good deliver_good good_quiet : port_forward.

(** [s'] is [s] with other connections and counters: what is left to show. *)
Lemma session_wf_change s s' :
  session_wf s ->
  map_Forall (fun _ => connection_wf) s'.(connections) ->
  Z.of_nat (size s'.(connections)) <= MAX_PORT_FORWARD_CONNECTIONS_PER_SESSION ->
  map_sum c_desktop_to_target_bytes s'.(connections) <= s'.(desktop_to_target_bytes)
    <= MAX_PORT_FORWARD_BYTES_PER_DIRECTION ->
  map_sum c_target_to_desktop_bytes s'.(connections) <= s'.(target_to_desktop_bytes)
    <= MAX_PORT_FORWARD_BYTES_PER_DIRECTION ->
  alike s s' -> s'.(terminal_recorded) = s.(terminal_recorded) ->
  s'.(opened_target) = s.(opened_target) -> (s'.(connections) <> ∅ -> is_Some s.(opened_target)) ->
  session_wf s'.
Proof.
  intros Hwf HC Hn Hd Ht (I & D & O) R T N. constructor; try done.
  - rewrite O. apply Hwf.
  - rewrite R, D. apply Hwf.
  - rewrite T. replace s'.(start) with s.(start) by (unfold identity in I; congruence). apply Hwf.
  - by rewrite T.
Qed.

(** One connection changes. *)
Lemma session_wf_update s s' id c c' :
  session_wf s -> s.(connections) !! id = Some c ->
  s'.(connections) = <[id := c']> s.(connections) -> connection_wf c' ->
  s'.(desktop_to_target_bytes)
    = s.(desktop_to_target_bytes) + (c'.(c_desktop_to_target_bytes) - c.(c_desktop_to_target_bytes)) ->
  s'.(desktop_to_target_bytes) <= MAX_PORT_FORWARD_BYTES_PER_DIRECTION ->
  s'.(target_to_desktop_bytes)
    = s.(target_to_desktop_bytes) + (c'.(c_target_to_desktop_bytes) - c.(c_target_to_desktop_bytes)) ->
  s'.(target_to_desktop_bytes) <= MAX_PORT_FORWARD_BYTES_PER_DIRECTION ->
  alike s s' -> s'.(terminal_recorded) = s.(terminal_recorded) ->
  s'.(opened_target) = s.(opened_target) -> session_wf s'.
Proof.
  intros Hwf Hc Hm Hc' Hd Hd' Ht Ht' Hs R T. apply (session_wf_change s); try done; rewrite Hm.
  - apply map_Forall_insert_2; [done | apply Hwf].
  - rewrite map_size_insert_Some by done. apply Hwf.
  - rewrite (map_sum_update _ _ _ _ _ Hc). destruct (sw_desktop_bytes s Hwf). lia.
  - rewrite (map_sum_update _ _ _ _ _ Hc). destruct (sw_target_bytes s Hwf). lia.
  - intros _. apply Hwf. intros E. by rewrite E, lookup_empty in Hc.
Qed.

Lemma session_wf_credit s id c c' :
  session_wf s -> s.(connections) !! id = Some c -> connection_wf c' ->
  c'.(c_desktop_to_target_bytes) = c.(c_desktop_to_target_bytes) ->
  c'.(c_target_to_desktop_bytes) = c.(c_target_to_desktop_bytes) ->
  session_wf (set_connection s id c').
Proof.
  intros Hwf Hc Hc' Hd Ht. pose proof (sw_desktop_bytes s Hwf). pose proof (sw_target_bytes s Hwf).
  eapply (session_wf_update s _ id c c'); simpl; try done; lia.
Qed.

Lemma session_wf_new s id :
  session_wf s -> s.(connections) !! id = None -> is_Some s.(opened_target) ->
  Z.of_nat (size s.(connections)) < MAX_PORT_FORWARD_CONNECTIONS_PER_SESSION ->
  session_wf ((set_connection s id new_connection) <| connection_count ::= Z.succ |>).
Proof.
  intros Hwf Hc Ht Hn. apply (session_wf_change s); simpl; try done.
  - apply map_Forall_insert_2; [|apply Hwf].
    constructor; unfold new_connection, PORT_FORWARD_CREDIT_WINDOW_BYTES; simpl; (done || lia).
  - rewrite map_size_insert_None by done. lia.
  - rewrite map_sum_insert by done. apply Hwf.
  - rewrite map_sum_insert by done. apply Hwf.
Qed.

Lemma session_wf_end s id c :
  session_wf s -> s.(connections) !! id = Some c -> session_wf (s <| connections ::= delete id |>).
Proof.
  intros Hwf Hc. destruct (sw_connections s Hwf _ _ Hc) as [_ _ _ _ [Hd Ht]].
  pose proof (sw_desktop_bytes s Hwf). pose proof (sw_target_bytes s Hwf).
  apply (session_wf_change s); simpl; try done.
  - by apply map_Forall_delete, Hwf.
  - rewrite map_size_delete_Some by done. pose proof (sw_count s Hwf). lia.
  - rewrite (map_sum_delete _ _ _ _ Hc). lia.
  - rewrite (map_sum_delete _ _ _ _ Hc). lia.
  - intros _. apply Hwf. intros E. by rewrite E, lookup_empty in Hc.
Qed.

Lemma session_wf_activity s now : session_wf s -> session_wf (s <| last_activity_at := now |>).
Proof. intros []. by constructor. Qed.

Lemma session_wf_receiving s b : session_wf s -> session_wf (s <| receiving := b |>).
Proof. intros []. by constructor. Qed.

#[export] Hint Resolve session_wf_activity session_wf_receiving session_wf_end session_wf_new : port_forward.

(** Read the guard of a handler off the tests it took. *)
Ltac read_guard := bool_to_prop; repeat match goal with
  | H : negb _ || _ = false |- _ => apply orb_false_iff in H as [? ?]
  end; bool_to_prop.

Lemma handle_agent_event_good up s generation m now :
  session_wf s -> s.(done) = false -> agent_event_ok m = true ->
  good s (handle_agent_event up s generation m now).
Proof.
  intros Hwf Hd Hm. unfold handle_agent_event. case_match; [auto with port_forward|].
  set (s1 := s <| last_activity_at := now |>).
  assert (Hwf1 : session_wf s1) by by apply session_wf_activity.
  assert (Hs : alike s s1) by done. change (connections s) with (connections s1).
  destruct m as [t|id|id dir credit|id dir|id reason d t|reason d t|code message retryable];
    simpl in Hm; bool_to_prop.
  - case_match eqn:E; [|auto with port_forward]. apply deliver_good; try done.
    unfold receipt_matches in E. bool_to_prop. destruct Hwf1. constructor; try done.
    intros t' [= <-]. done.
  - case_match eqn:E; [|auto with port_forward]. case_match; [auto with port_forward|]. apply deliver_good; try done.
    pose proof (sw_connections s1 Hwf1 _ _ E) as [].
    by apply (session_wf_credit s1 id _ _ Hwf1 E).
  - case_match eqn:E; [|auto with port_forward]. case_match; read_guard; [auto with port_forward|].
    apply deliver_good; try done. unfold credit_ok in *. read_guard.
    pose proof (sw_connections s1 Hwf1 _ _ E) as [].
    apply (session_wf_credit s1 id _ _ Hwf1 E); try done. constructor; simpl; try done; lia.
  - case_match; auto with port_forward.
  - case_match eqn:E; [|auto with port_forward]. repeat case_match; try solve [auto with port_forward].
    apply deliver_good; try done. by eapply session_wf_end.
  - case_match; auto with port_forward.
  - auto with port_forward.
Qed.

Lemma handle_agent_frame_good up s f raw now :
  session_wf s -> s.(done) = false -> frame_ok f = true ->
  good s (handle_agent_frame up s f raw now).
Proof.
  intros Hwf Hd Hf. unfold handle_agent_frame. case_match eqn:E; [|auto with port_forward].
  case_match; [auto with port_forward|]. case_match; [by apply finish_good|]. read_guard.
  apply deliver_good; try done. unfold frame_ok, payload_ok in Hf. bool_to_prop.
  pose proof (sw_connections s Hwf _ _ E) as []. pose proof (sw_desktop_bytes s Hwf).
  eapply (session_wf_update s _ _ _ _ Hwf E); [reflexivity | | simpl; unfold const; try done; lia ..].
  constructor; simpl; try done; lia.
Qed.

Lemma forward_good up s s0 m now :
  session_wf s0 -> alike s s0 -> good s (forward up s0 m now).1.
Proof. intros Hwf Hs. destruct up; simpl; [by apply good_quiet | by apply transport_failed_good]. Qed.

#[export] Hint Resolve forward_good : port_forward.


Lemma browser_request_good up s id generation m now :
  session_wf s -> desktop_request_ok m = true -> good s (browser_request up s id generation m now).1.
Proof.
  intros Hwf Hm. unfold browser_request. case_match; [by apply protocol_error_good|].
  set (s1 := s <| last_activity_at := now |>).
  assert (Hwf1 : session_wf s1) by by apply session_wf_activity.
  assert (Hs : alike s s1) by done. change (connections s) with (connections s1).
  change (opened_target s) with (opened_target s1).
  destruct m as [id'|id' dir credit|id' dir|id'|]; simpl in Hm; bool_to_prop.
  - case_match eqn:E; [by apply protocol_error_good|]. read_guard.
    apply forward_good; [|done]. apply session_wf_new; try done.
    + by apply eq_None_not_Some.
    + by apply not_eq_None_Some.
  - case_match eqn:E; [|by apply protocol_error_good]. case_match; [by apply protocol_error_good|].
    read_guard. unfold credit_ok in *. bool_to_prop. pose proof (sw_connections s1 Hwf1 _ _ E) as [].
    apply forward_good; [|done].
    apply (session_wf_credit s1 id' _ _ Hwf1 E); try done. constructor; simpl; try done; lia.
  - case_match; [by apply forward_good | by apply protocol_error_good].
  - case_match eqn:E; [|by apply protocol_error_good]. case_match; [by apply protocol_error_good|].
    pose proof (sw_connections s1 Hwf1 _ _ E) as [].
    apply forward_good; [|done]. by apply (session_wf_credit s1 id' _ _ Hwf1 E).
  - destruct up; [|by apply transport_failed_good]. simpl.
    apply (good_prefix s (finish s1 _ now) [_]); [done | by apply finish_good].
Qed.

Lemma browser_binary_good up s raw now : session_wf s -> good s (browser_binary up s raw now).1.
Proof.
  intros Hwf. unfold browser_binary. case_match eqn:Hf; [|by apply protocol_error_good].
  apply encode_decode in Hf as [Hf _]. unfold frame_ok, payload_ok in Hf. bool_to_prop.
  case_match eqn:E; [|by apply protocol_error_good].
  case_match; [by apply protocol_error_good|]. case_match; [by apply close_with_reason_good|]. read_guard.
  pose proof (sw_connections s Hwf _ _ E) as []. pose proof (sw_target_bytes s Hwf).
  match goal with |- context [if up then (?x, _, _) else _] => assert (session_wf x) end.
  { eapply (session_wf_update s _ _ _ _ Hwf E); [reflexivity | | simpl; unfold const; try done; lia ..].
    constructor; simpl; try done; lia. }
  destruct up; [by apply good_quiet | by apply transport_failed_good].
Qed.

Lemma handle_browser_message_good up s m now :
  session_wf s -> browser_message_ok (Some m) = true -> good s (handle_browser_message up s m now).1.
Proof.
  intros Hwf Hm. destruct m as [|raw|[[[id generation] request]|]|]; simpl;
    try by apply protocol_error_good.
  - unfold browser_closed. case_match; [by apply good_quiet | by apply close_with_reason_good].
  - by apply browser_binary_good.
  - by apply browser_request_good.
Qed.

Lemma good_not_receiving s r : good s r -> good s (r.1 <| receiving := false |>, r.2).
Proof.
  intros [Hwf Hp]. split; [by apply session_wf_receiving|]. simpl.
  rewrite <- (app_nil_r r.2). eapply progress_trans; [exact Hp|].
  apply (progress_keeps _ _ _ []); try done. simpl. by rewrite app_nil_r.
Qed.

Lemma loop_head_good up s now : session_wf s -> good s (loop_head up s now).
Proof.
  intros Hwf. unfold loop_head. repeat case_match.
  - apply (good_not_receiving s (s, [])). by apply good_quiet.
  - by apply (good_not_receiving s (close_with_reason up s session_timeout now)), close_with_reason_good.
  - by apply (good_not_receiving s (close_with_reason up s idle_timeout now)), close_with_reason_good.
  - by apply good_quiet.
Qed.

Lemma browser_receive_good up s m now :
  session_wf s -> browser_message_ok m = true -> good s (browser_receive up s m now).
Proof.
  intros Hwf Hm. destruct m as [m|]; simpl; [|by apply loop_head_good].
  pose proof (handle_browser_message_good up s m now Hwf Hm) as Hg.
  destruct (handle_browser_message _ _ _ _) as [[s' effects] []]; simpl in Hg |- *.
  - apply (good_trans _ (s', effects)); [done | by apply loop_head_good, Hg].
  - by apply (good_not_receiving s (s', effects)).
Qed.

Lemma browser_sender_keeps s m s' :
  browser_sender s = Some (m, s') -> session_wf s ->
  identity s' = identity s /\ session_wf s' /\ s'.(connections) = s.(connections).
Proof.
  unfold browser_sender. destruct (outbound s) eqn:Ho; [done|]. intros Hs [].
  apply (inj Some), pair_equal_spec in Hs as [_ <-]. split_and!; try done.
  constructor; simpl; try done. rewrite Ho in sw_queue0. unfold const. cbn [length] in *. lia.
Qed.

(** ** The history of a session

    [taken] is what the desktop was sent, [records] the audit records. *)
Definition history (s : BrowserPortForwardSession) (taken : list BrowserOutbound)
    (records : list effect) : Prop :=
  if s.(done) then
    exists before m at_end now,
      taken ++ s.(outbound) = before ++ [m] /\ Forall (fun m => terminal m = false) before
      /\ terminal m = true /\ identity at_end = identity s
      /\ records = [audit_started s; record_of at_end m now]
  else Forall (fun m => terminal m = false) (taken ++ s.(outbound)) /\ records = [audit_started s].

Lemma audit_started_identity s s' : identity s' = identity s -> audit_started s' = audit_started s.
Proof.
  unfold identity. intros H. injection H as E1 E2 E3 E4 E5 E6 E7 E8.
  unfold audit_started, session_facts. by rewrite E1, E2, E3, E4, E5, E6.
Qed.

Lemma history_progress s s' effects taken records :
  history s taken records -> progress s s' effects ->
  history s' taken (records ++ audit_records s.(s_session_id) effects).
Proof.
  unfold history.
  intros Hs [s1 ef queued I D Q F O E|s1 ef m at_end now I A D D' T O E].
  - rewrite E, app_nil_r, D, O. destruct (done s) eqn:Hd.
    + rewrite (Q eq_refl), app_nil_r. destruct Hs as (before & m & at_end & now & H1 & H2 & H3 & H4 & ->).
      exists before, m, at_end, now. rewrite (audit_started_identity _ _ I). split_and!; try done. congruence.
    + destruct Hs as [H1 ->]. rewrite (audit_started_identity _ _ I). split; [|done].
      rewrite (assoc_L (++)). by apply Forall_app.
  - rewrite D in Hs. destruct Hs as [[H1 _]%Forall_app ->]. rewrite D', O, E, decide_True by done.
    exists taken, m, at_end, now. rewrite (audit_started_identity _ _ I). split_and!; try done. congruence.
Qed.

Lemma history_taken s s' m taken records :
  history s taken records -> browser_sender s = Some (m, s') -> history s' (taken ++ [m]) records.
Proof.
  unfold history, browser_sender. intros Hs. destruct (outbound s) as [|m1 rest] eqn:O; [done|].
  intros H%(inj Some). injection H as <- <-.
  rewrite <- (assoc_L (++)). exact Hs.
Qed.

(** ** The broker *)

Inductive broker_event : Type :=
| AgentConnects (cluster_id : string)
| AgentLeaves (cluster_id : string) (connection : nat)
| AgentText (cluster_id : string) (connection : nat) (payload : agent_payload)
| AgentBinary (cluster_id : string) (connection : nat) (raw : list byte)
| BrowserAdmitted (workspace_id cluster_id user_id : string)
| BrowserServed (session_id : string)
| BrowserSpeaks (session_id : string) (m : option browser_message)
| BrowserReceives (session_id : string) (m : BrowserOutbound).

Definition agent_payload_ok (payload : agent_payload) : bool :=
  match payload with AgentMessage _ _ m => agent_event_ok m | _ => true end.

(** [session_id] is a fresh draw of [secrets.token_urlsafe]. *)
Inductive broker_step : broker -> broker_event * list effect -> broker -> Prop :=
| step_connects b cluster_id now :
    let r := agent_connects b cluster_id now in
    broker_step b (AgentConnects cluster_id, r.2) r.1
| step_leaves b cluster_id connection now :
    let r := agent_leaves b cluster_id connection now in
    broker_step b (AgentLeaves cluster_id connection, r.2) r.1
| step_text up now b cluster_id connection payload :
    agent_payload_ok payload = true ->
    let r := handle_agent_payload b up cluster_id connection payload now in
    broker_step b (AgentText cluster_id connection payload, r.1.2) r.1.1
| step_binary up now b cluster_id connection raw :
    let r := handle_agent_binary b up cluster_id connection raw now in
    broker_step b (AgentBinary cluster_id connection raw, r.1.2) r.1.1
| step_admitted b workspace_id cluster_id identity_workspace user_id :
    let r := admit_browser b workspace_id cluster_id identity_workspace user_id in
    broker_step b (BrowserAdmitted workspace_id cluster_id user_id, []) r.1
| step_served up now b n request authorized audited session_id :
    b.(sessions) !! session_id = None ->
    let r := serve b up n request authorized audited session_id now in
    broker_step b (BrowserServed session_id, r.1.2) r.1.1
| step_speaks up now b session_id s m :
    b.(sessions) !! session_id = Some s -> s.(receiving) = true -> browser_message_ok m = true ->
    let r := browser_receive up s m now in
    broker_step b (BrowserSpeaks session_id m, r.2) (with_session b r.1)
| step_receives b session_id s m s' :
    b.(sessions) !! session_id = Some s -> browser_sender s = Some (m, s') ->
    broker_step b (BrowserReceives session_id m, []) (with_session b s').

Definition empty_broker : broker := Broker ∅ ∅ 0 [].

(** What the desktop of a session was sent. *)
Definition taken_by (id : string) (e : broker_event) : list BrowserOutbound :=
  match e with BrowserReceives id' m => if decide (id' = id) then [m] else [] | _ => [] end.

Definition taken (id : string) (trace : list (broker_event * list effect)) : list BrowserOutbound :=
  trace ≫= fun l => taken_by id l.1.

Definition recorded (id : string) (trace : list (broker_event * list effect)) : list effect :=
  trace ≫= fun l => audit_records id l.2.

(** ** Every run of the broker runs each session *)

(** What a run has done so far for one key of [sessions]. *)
Definition session_kept (id : string) (b : broker) (sent : list BrowserOutbound) (records : list effect)
    : Prop :=
  match b.(sessions) !! id with
  | Some s => s.(s_session_id) = id /\ session_wf s /\ history s sent records
  | None => sent = [] /\ records = []
  end.

Definition kept (b : broker) (sent : string -> list BrowserOutbound) (records : string -> list effect)
    : Prop := forall id, session_kept id b (sent id) (records id).

(** A handler of session [s] of the broker. *)
Lemma kept_good b s r sent records :
  kept b sent records -> b.(sessions) !! s.(s_session_id) = Some s -> good s r ->
  kept (with_session b r.1) sent (fun id => records id ++ audit_records id r.2).
Proof.
  intros Hk Hs [Hwf Hp] id. specialize (Hk id). unfold session_kept in *. simpl.
  assert (Hid : r.1.(s_session_id) = s.(s_session_id)) by (destruct Hp; by apply identity_id).
  rewrite Hid. destruct (decide (id = s.(s_session_id))) as [->|Hne].
  - rewrite lookup_insert_eq. rewrite Hs in Hk. destruct Hk as (_ & _ & Hh). split_and!; try done.
    by eapply history_progress.
  - rewrite lookup_insert_ne by done.
    assert (audit_records id r.2 = []) as ->.
    { destruct Hp as [? ? ? ? ? ? ? ? E|? ? ? ? ? ? ? ? ? ? ? E]; rewrite E; [done|]. by rewrite decide_False. }
    by rewrite app_nil_r.
Qed.

Lemma kept_session b sent records id s :
  kept b sent records -> b.(sessions) !! id = Some s ->
  s.(s_session_id) = id /\ session_wf s /\ b.(sessions) !! s.(s_session_id) = Some s.
Proof. intros Hk Hs. specialize (Hk id). unfold session_kept in Hk. rewrite Hs in Hk. destruct Hk as (-> & ? & _). done. Qed.

Lemma kept_same b b' sent records :
  b'.(sessions) = b.(sessions) -> kept b sent records -> kept b' sent records.
Proof. intros E Hk id. unfold session_kept. rewrite E. apply Hk. Qed.

Lemma kept_nil b sent records :
  kept b sent records -> kept b sent (fun id => records id ++ audit_records id []).
Proof. intros Hk id. simpl. rewrite app_nil_r. apply Hk. Qed.

Lemma kept_each_disconnected l now b effects sent records :
  kept b sent (fun id => records id ++ audit_records id effects) ->
  NoDup (s_session_id <$> l) ->
  Forall (fun s => b.(sessions) !! s.(s_session_id) = Some s /\ session_wf s) l ->
  let r := fold_left (fun acc s =>
      let r := error s agent_unavailable "Target agent disconnected." true now in
      (with_session acc.1 r.1, acc.2 ++ r.2)) l (b, effects) in
  kept r.1 sent (fun id => records id ++ audit_records id r.2).
Proof.
  revert b effects. induction l as [|s l IH]; intros b effects Hk Hnd Hl; [done|]. csimpl in Hnd.
  apply NoDup_cons in Hnd as [Hni Hnd]. apply Forall_cons in Hl as [[Hs Hwf] Hl]. cbn [fold_left fst snd].
  assert (Hg : good s (error s agent_unavailable "Target agent disconnected." true now)) by by apply finish_good.
  apply IH; [|done|].
  - pose proof (kept_good b s _ sent _ Hk Hs Hg) as Hk'. intros id. specialize (Hk' id).
    by rewrite audit_records_app, (assoc_L (++)).
  - rewrite Forall_forall in Hl |- *. intros s' Hin. destruct (Hl s' Hin) as [Hs' Hwf']. split; [|done].
    simpl. destruct Hg as [_ Hp].
    assert (I : identity (error s agent_unavailable "Target agent disconnected." true now).1 = identity s)
      by by destruct Hp.
    rewrite (identity_id _ _ I), lookup_insert_ne; [done|].
    intros E. apply Hni. rewrite E. by apply list_elem_of_fmap_2.
Qed.

Lemma kept_disconnected b cluster_id connection now sent records :
  kept b sent records ->
  let r := agent_disconnected b cluster_id connection now in
  kept r.1 sent (fun id => records id ++ audit_records id r.2).
Proof.
  intros Hk. unfold agent_disconnected. apply kept_each_disconnected; [by apply kept_nil| |].
  - eapply sublist_NoDup; [|apply fmap_sublist, sublist_filter].
    rewrite <- list_fmap_compose.
    rewrite (list_fmap_ext _ fst); [apply NoDup_fst_map_to_list|].
    intros i [id s] Hi%list_elem_of_lookup_2%elem_of_map_to_list. simpl.
    by destruct (kept_session _ _ _ _ _ Hk Hi).
  - apply Forall_forall. intros s [_ ([id s'] & -> & Hi%elem_of_map_to_list)%list_elem_of_fmap]%list_elem_of_filter.
    simpl. by destruct (kept_session _ _ _ _ _ Hk Hi) as (_ & ? & ?).
Qed.

Lemma live_session_kept b sent records id s :
  kept b sent records -> live_session b id = Some s ->
  b.(sessions) !! s.(s_session_id) = Some s /\ session_wf s /\ s.(done) = false.
Proof.
  intros Hk Hs. unfold live_session in Hs. destruct (sessions b !! id) as [s1|] eqn:E; [|done].
  destruct (done s1) eqn:Hd; [done|]. apply (inj Some) in Hs as ->.
  by destruct (kept_session _ _ _ _ _ Hk E) as (? & ? & ?).
Qed.

Lemma kept_payload b up cluster_id connection payload now sent records :
  kept b sent records -> agent_payload_ok payload = true ->
  let r := handle_agent_payload b up cluster_id connection payload now in
  kept r.1.1 sent (fun id => records id ++ audit_records id r.1.2).
Proof.
  intros Hk Hok. destruct payload as [|id generation|id generation m]; simpl; [by apply kept_nil|..].
  - destruct (live_session b id) as [s|] eqn:E; [|by apply kept_nil]. case_match; [|by apply kept_nil].
    destruct (live_session_kept _ _ _ _ _ Hk E) as (Hs & Hwf & Hd).
    exact (kept_good b s (protocol_error up s _ now) _ _ Hk Hs
             (protocol_error_good up s s _ now Hwf (alike_refl s))).
  - destruct (live_session b id) as [s|] eqn:E; [|by apply kept_nil].
    repeat (case_match; [by apply kept_nil|]).
    destruct (live_session_kept _ _ _ _ _ Hk E) as (Hs & Hwf & Hd).
    exact (kept_good b s (handle_agent_event up s generation m now) _ _ Hk Hs
             (handle_agent_event_good up s generation m now Hwf Hd Hok)).
Qed.

Lemma kept_binary b up cluster_id connection raw now sent records :
  kept b sent records ->
  let r := handle_agent_binary b up cluster_id connection raw now in
  kept r.1.1 sent (fun id => records id ++ audit_records id r.1.2).
Proof.
  intros Hk. unfold handle_agent_binary. destruct (decode_port_forward_data raw) as [f|] eqn:Hf;
    [|by apply kept_nil].
  destruct (live_session b (session_id f)) as [s|] eqn:E; [|by apply kept_nil].
  repeat (case_match; [by apply kept_nil|]).
  destruct (live_session_kept _ _ _ _ _ Hk E) as (Hs & Hwf & Hd). apply encode_decode in Hf as [Hf _].
  exact (kept_good b s (handle_agent_frame up s f raw now) _ _ Hk Hs
           (handle_agent_frame_good up s f raw now Hwf Hd Hf)).
Qed.

Lemma admit_sessions b w c i u : (admit_browser b w c i u).1.(sessions) = b.(sessions).
Proof. unfold admit_browser. by repeat case_match. Qed.

Lemma new_session_wf a st id now : session_wf (new_session a st id now).
Proof. constructor; simpl; try done; apply map_Forall_empty. Qed.

Lemma new_session_history a st id now :
  history (new_session a st id now) [] [audit_started (new_session a st id now)].
Proof. done. Qed.

Lemma kept_served b up n request authorized audited id now sent records :
  kept b sent records -> b.(sessions) !! id = None ->
  let r := serve b up n request authorized audited id now in
  kept r.1.1 sent (fun id => records id ++ audit_records id r.1.2).
Proof.
  intros Hk Hid. unfold serve.
  assert (Hsame : forall a, kept (b <| admitted := a |>) sent (fun id => records id ++ audit_records id []))
    by (intros a; apply kept_nil; by eapply kept_same).
  destruct (admitted b !! n) as [a|]; [|by apply kept_nil].
  destruct request as [st|]; [|apply Hsame]. destruct authorized; [|apply Hsame].
  destruct audited; [|apply Hsame]. clear Hsame.
  cbn [fst snd negb]. set (s := new_session a st id now).
  set (opened := if up then _ else _).
  assert (Hg : good s opened).
  { unfold opened. destruct up; [apply loop_head_good, new_session_wf|].
    apply (good_not_receiving s (transport_failed s now)), transport_failed_good; [|done].
    apply new_session_wf. }
  destruct Hg as [Hwf Hp]. assert (I : identity opened.1 = identity s) by by destruct Hp.
  intros id'. specialize (Hk id'). unfold session_kept in *. simpl.
  rewrite (identity_id _ _ I). change (s_session_id s) with id.
  destruct (decide (id' = id)) as [->|Hne].
  - rewrite lookup_insert_eq. rewrite Hid in Hk. destruct Hk as [-> ->].
    split_and!; [by apply identity_id in I | done |].
    pose proof (history_progress _ _ _ _ _ (new_session_history _ _ _ _ : history s [] _) Hp) as Hh.
    change (s_session_id s) with id in Hh.
    assert (audit_records id (audit_started s :: to_agent up (AgentOpen (open_request s)) ++ opened.2)
            = [audit_started s] ++ audit_records id opened.2) as E; [|by rewrite E].
    change (audit_started s :: ?l) with ([audit_started s] ++ l). rewrite !audit_records_app.
    assert (audit_records id [audit_started s] = [audit_started s]) as ->.
    { unfold audit_records. rewrite filter_cons_True; [done|]. simpl. apply String.eqb_refl. }
    by destruct up.
  - rewrite lookup_insert_ne by done.
    assert (audit_records id' (audit_started s :: to_agent up (AgentOpen (open_request s)) ++ opened.2) = []) as ->;
      [|by rewrite app_nil_r].
    change (audit_started s :: ?l) with ([audit_started s] ++ l). rewrite !audit_records_app.
    assert (audit_records id' [audit_started s] = []) as ->.
    { unfold audit_records. rewrite filter_cons_False; [done|]. simpl. by intros ->%String.eqb_eq. }
    assert (audit_records id' opened.2 = []) as ->; [|by destruct up].
    destruct Hp as [? ? ? ? ? ? ? ? E|? ? ? ? ? ? ? ? ? ? ? E]; rewrite E; [done|]. by rewrite decide_False.
Qed.

Lemma broker_step_kept b e effects b' sent records :
  broker_step b (e, effects) b' -> kept b sent records ->
  kept b' (fun id => sent id ++ taken_by id e) (fun id => records id ++ audit_records id effects).
Proof.
  intros Hstep Hk.
  assert (Hnil : forall b' r, kept b' sent r -> (forall id, taken_by id e = []) ->
                 kept b' (fun id => sent id ++ taken_by id e) r).
  { intros b0 r H0 He id. rewrite He, app_nil_r. apply H0. }
  inversion Hstep; subst; clear Hstep; try (apply Hnil; [|done]).
  - unfold r, agent_connects, register. case_match; [|by apply kept_nil]. by apply kept_disconnected.
  - unfold r, agent_leaves, unregister. repeat case_match; simplify_eq;
      [by apply kept_disconnected | by apply kept_nil].
  - by apply kept_payload.
  - by apply kept_binary.
  - apply kept_nil. eapply kept_same; [apply admit_sessions | done].
  - by apply kept_served.
  - match goal with H : sessions b !! _ = Some _ |- _ => destruct (kept_session _ _ _ _ _ Hk H) as (Hid & Hwf & Hs) end.
    apply (kept_good b s); [done | done | by apply browser_receive_good].
  - match goal with H : sessions b !! _ = Some _ |- _ => rename H into Hs end.
    pose proof (kept_session _ _ _ _ _ Hk Hs) as (<- & Hwf & _).
    match goal with H : browser_sender _ = _ |- _ => rename H into Ht end.
    intros id. specialize (Hk id) as Hid. unfold session_kept in *. simpl. rewrite app_nil_r.
    destruct (browser_sender_keeps _ _ _ Ht Hwf) as (I & Hwf' & _). pose proof (identity_id _ _ I) as E.
    rewrite E. destruct (decide (s_session_id s = id)) as [<-|Hne].
    + rewrite lookup_insert_eq. rewrite Hs in Hid. destruct Hid as (_ & _ & Hh).
      split_and!; try done. by eapply history_taken.
    + by rewrite lookup_insert_ne, app_nil_r by done.
Qed.

Lemma broker_run_kept trace b :
  steps broker_step empty_broker trace b -> kept b (fun id => taken id trace) (fun id => recorded id trace).
Proof.
  assert (Hgen : forall b1 ls b2, steps broker_step b1 ls b2 -> forall sent records,
    kept b1 sent records -> kept b2 (fun id => sent id ++ taken id ls) (fun id => records id ++ recorded id ls)).
  { induction 1 as [b1|b1 [e effects] b2 ls b3 Hstep _ IH]; intros sent records Hk id.
    - unfold taken, recorded. simpl. rewrite !app_nil_r. apply Hk.
    - pose proof (IH _ _ (broker_step_kept _ _ _ _ _ _ Hstep Hk) id) as Hid.
      unfold taken, recorded in *. simpl. by rewrite !(assoc_L (++)). }
  intros Hrun id. apply (Hgen _ _ _ Hrun (fun _ => []) (fun _ => [])). by intros ?.
Qed.

(** ** Properties *)

(** C23. In every run of the broker, whatever the agents and the desktops send
    and in any order, a session keeps its budgets: each connection's credit
    lies between nothing and the window in both directions, at most four
    connections are open and only on a target whose receipt names the
    authorized resource and port, no direction carries more than a gibibyte,
    the open connections never account for more than the session, and the
    delivery queue keeps its bound. *)
Theorem gateway_session_bounded trace b id s :
  steps broker_step empty_broker trace b -> b.(sessions) !! id = Some s ->
  (forall i c, s.(connections) !! i = Some c ->
     0 <= c.(desktop_credit) <= PORT_FORWARD_CREDIT_WINDOW_BYTES
     /\ 0 <= c.(target_credit) <= PORT_FORWARD_CREDIT_WINDOW_BYTES
     /\ exists t, s.(opened_target) = Some t
          /\ t.(target_name) = s.(start).(st_resource).(name)
          /\ t.(target_uid) = s.(start).(st_resource).(uid)
          /\ t.(target_port) = s.(start).(st_remote_port))
  /\ Z.of_nat (size s.(connections)) <= MAX_PORT_FORWARD_CONNECTIONS_PER_SESSION
  /\ map_sum c_desktop_to_target_bytes s.(connections) <= s.(desktop_to_target_bytes)
       <= MAX_PORT_FORWARD_BYTES_PER_DIRECTION
  /\ map_sum c_target_to_desktop_bytes s.(connections) <= s.(target_to_desktop_bytes)
       <= MAX_PORT_FORWARD_BYTES_PER_DIRECTION
  /\ Z.of_nat (length s.(outbound)) <= PORT_FORWARD_BROWSER_QUEUE_MAX.
Proof.
  intros Hrun Hs. destruct (kept_session _ _ _ _ _ (broker_run_kept _ _ Hrun) Hs) as (_ & Hwf & _).
  split_and!; try apply Hwf. intros i c Hc. destruct (sw_connections s Hwf _ _ Hc). split_and!; try lia.
  destruct (sw_opened s Hwf) as [t Ht]; [intros E; by rewrite E, lookup_empty in Hc|].
  exists t. destruct (sw_target s Hwf t Ht) as (? & ? & ?). done.
Qed.

(** In every run the audit log holds exactly one start record of a session
    and, once it has ended, exactly one finish record, whose reason is the one
    the desktop is told; the desktop gets one terminal message, as the last
    message of the session, and none before the end; of a session that was
    never registered there is no trace. *)
Theorem session_recorded_once trace b id :
  steps broker_step empty_broker trace b ->
  match b.(sessions) !! id with
  | Some s =>
      if s.(done) then
        exists before m at_end now,
          taken id trace ++ s.(outbound) = before ++ [m] /\ Forall (fun m => terminal m = false) before
          /\ terminal m = true /\ identity at_end = identity s
          /\ recorded id trace = [audit_started s; record_of at_end m now]
      else Forall (fun m => terminal m = false) (taken id trace ++ s.(outbound))
           /\ recorded id trace = [audit_started s]
  | None => taken id trace = [] /\ recorded id trace = []
  end.
Proof.
  intros Hrun. pose proof (broker_run_kept _ _ Hrun id) as Hk. unfold session_kept in Hk.
  case_match; [apply Hk | done].
Qed.

(** A session that is served, gets its target, opens a connection and is closed
    by the desktop. *)
Definition sample_id : string := "sample-session-0001".

Definition sample_start : PortForwardStart :=
  Start "rev-1" (Resource "" "v1" "Service" (Some "shop") "checkout" "uid-1") 8080.

Definition sample_served : broker :=
  (serve (admit_browser (agent_connects empty_broker "c1" 0).1 "w1" "c1" "w1" "u1").1 true 0
     (Some sample_start) true true sample_id 1).1.1.

Definition sample_targeted : broker :=
  (handle_agent_payload sample_served true "c1" 0
     (AgentMessage sample_id (Some 1) (TargetOpened (Opened "Service" "checkout" "uid-1" 8080))) 2).1.1.

Definition sample_asks (b : broker) (m : desktop_request) : broker :=
  match b.(sessions) !! sample_id with
  | Some s => with_session b (browser_receive true s (Some (Text (Some (sample_id, 1, m)))) 3).1
  | None => b
  end.

Definition sample_connected : broker := sample_asks sample_targeted (ConnectionOpen 7).
Definition sample_closed : broker := sample_asks sample_connected Close.

Lemma sample_asks_step b m :
  match b.(sessions) !! sample_id with Some s => s.(receiving) | None => false end = true ->
  desktop_request_ok m = true -> exists e, broker_step b e (sample_asks b m).
Proof.
  unfold sample_asks. destruct (sessions b !! sample_id) as [s|] eqn:E; [|done]. intros. eexists.
  by apply (step_speaks true 3 b sample_id s (Some (Text (Some (sample_id, 1, m))))).
Qed.

Lemma sample_targeted_run : exists trace, steps broker_step empty_broker trace sample_targeted.
Proof.
  eexists. eapply steps_cons; [apply (step_connects _ "c1" 0)|].
  eapply steps_cons; [apply (step_admitted _ "w1" "c1" "w1" "u1")|].
  eapply steps_cons; [apply (step_served true 1 _ 0 (Some sample_start) true true sample_id); reflexivity|].
  eapply steps_cons; [|apply steps_nil].
  by apply (step_text true 2 _ "c1" 0
    (AgentMessage sample_id (Some 1) (TargetOpened (Opened "Service" "checkout" "uid-1" 8080)))).
Qed.

Lemma sample_connected_run : exists trace, steps broker_step empty_broker trace sample_connected.
Proof.
  destruct sample_targeted_run as [trace Hrun].
  destruct (sample_asks_step sample_targeted (ConnectionOpen 7)) as [e He]; [by vm_compute | done |].
  exists (trace ++ [e]). eapply steps_app; [exact Hrun|]. eapply steps_cons; [exact He | apply steps_nil].
Qed.

Lemma sample_closed_run : exists trace, steps broker_step empty_broker trace sample_closed.
Proof.
  destruct sample_connected_run as [trace Hrun].
  destruct (sample_asks_step sample_connected Close) as [e He]; [by vm_compute | done |].
  exists (trace ++ [e]). eapply steps_app; [exact Hrun|]. eapply steps_cons; [exact He | apply steps_nil].
Qed.

Example gateway_session_bounded_witness :
  exists s c, sample_connected.(sessions) !! sample_id = Some s /\ s.(connections) !! 7 = Some c
    /\ c.(target_credit) = PORT_FORWARD_CREDIT_WINDOW_BYTES
    /\ Z.of_nat (size s.(connections)) <= MAX_PORT_FORWARD_CONNECTIONS_PER_SESSION.
Proof.
  destruct (sample_connected.(sessions) !! sample_id) as [s|] eqn:E; [|discriminate E].
  destruct (s.(connections) !! 7) as [c|] eqn:Ec; [|vm_compute in E; injection E as <-; discriminate Ec].
  exists s, c. split; [reflexivity|]. split; [exact Ec|].
  split; [vm_compute in E; injection E as <-; vm_compute in Ec; injection Ec as <-; reflexivity|].
  destruct sample_connected_run as [trace Hrun].
  exact (proj1 (proj2 (gateway_session_bounded trace _ _ s Hrun E))).
Defined.

Example session_recorded_once_witness :
  exists trace s, sample_closed.(sessions) !! sample_id = Some s /\ s.(done) = true
    /\ length (recorded sample_id trace) = 2%nat.
Proof.
  destruct sample_closed_run as [trace Hrun].
  destruct (sample_closed.(sessions) !! sample_id) as [s|] eqn:E; [|discriminate E].
  exists trace, s. pose proof (session_recorded_once trace _ sample_id Hrun) as H. rewrite E in H.
  assert (Hd : s.(done) = true) by (vm_compute in E; injection E as <-; reflexivity).
  rewrite Hd in H. split; [reflexivity|]. split; [exact Hd|].
  destruct H as (before & m & at_end & now & _ & _ & _ & _ & ->). reflexivity.
Defined.
