(* ===== verification/PortForwardAgent.v ===== *)
(** The agent's side of a port-forward
    ([services/target/cluster-agent/port_forward_stream.py], and the receive
    loop of [live_summary.py] that drives it): the controller that owns the
    target's TCP sockets.

    Handlers run in a monad over the controller that can raise: a send raises
    when the session's realtime socket takes no more messages ([sendable] says
    how many the current one still takes, [None] any number; a session keeps
    the socket it was opened on), and what was changed before stays changed.  A handler is
    one step; so is each turn of a connection's reader task, which can be
    cancelled between taking the data and sending it ([Emitting]).  The socket
    calls of [asyncio] are inputs: the outcome of connecting, what a read
    gives, whether draining fails.  Closing a socket takes no time.

    Times are in microseconds. *)

From S2P Require Import Prelude PortForwardFrames.
From coqutil Require Import Datatypes.RecordSettersUsingExistingGetters.
#[global] Open Scope Z_scope.

Record ResolvedTcpTarget : Type := Target {
  tg_kind : string;
  tg_name : string;
  tg_uid : string;
  tg_host : string;
  tg_port : Z }.

(** Where a connection's [reader_task] is: about to reserve credit, in
    [reader.read], holding a frame it has yet to send, returned, or ended by an
    exception. *)
Inductive reader_state : Type :=
| Waiting
| Reading (allowance : Z)
| Emitting (raw : list byte)
| Stopped
| Crashed.

(** [received] is what the target's socket was given.  A connection that is
    [done] is no longer in the session. *)
Record AgentTcpConnection : Type := Tcp {
  input_credit : Z;
  output_credit : Z;
  expected_input_sequence : Z;
  output_sequence : Z;
  t_desktop_to_target_bytes : Z;
  t_target_to_desktop_bytes : Z;
  desktop_half_closed : bool;
  target_half_closed : bool;
  reader : reader_state;
  received : list byte }.

Record AgentPortForwardSession : Type := AgentSession {
  request : PortForwardOpen;
  target : ResolvedTcpTarget;
  a_stream : nat;
  a_started_at : Z;
  last_activity : Z;
  a_connections : gmap Z AgentTcpConnection;
  a_desktop_to_target_bytes : Z;
  a_target_to_desktop_bytes : Z;
  a_done : bool }.

(** What goes out on the realtime socket; an event names its session. *)
Inductive emission : Type :=
| EmitEvent (session : option (string * Z)) (m : agent_event)
| EmitData (raw : list byte).

(** ** The monad *)

(** [stream] numbers the realtime sockets in the order they were opened. *)
Record PortForwardController : Type := Controller {
  a_sessions : gmap string AgentPortForwardSession;
  stream : nat;
  sendable : option nat }.

(** [None]: an exception. *)
Definition M (A : Type) : Type := PortForwardController -> option A * PortForwardController * list emission.

#[global] Instance M_ret : MRet M := fun A x w => (Some x, w, []).
#[global] Instance M_bind : MBind M := fun A B f m w =>
  let '(r, w1, out1) := m w in
  match r with
  | Some x => let '(r2, w2, out2) := f x w1 in (r2, w2, out1 ++ out2)
  | None => (None, w1, out1)
  end.

Definition raise {A} : M A := fun w => (None, w, []).

(** [try: m except Exception: handler]. *)
Definition catch {A} (m handler : M A) : M A := fun w =>
  let '(r, w1, out1) := m w in
  match r with
  | Some x => (Some x, w1, out1)
  | None => let '(r2, w2, out2) := handler w1 in (r2, w2, out1 ++ out2)
  end.

Fixpoint for_each {A} (f : A -> M unit) (l : list A) : M unit :=
  match l with [] => mret tt | x :: l => _ ← f x; for_each f l end.

Definition emit_on (n : nat) (e : emission) : M unit := fun w =>
  if (n =? w.(stream))%nat then
    match w.(sendable) with
    | Some O => (None, w, [])
    | Some (S k) => (Some tt, w <| sendable := Some k |>, [e])
    | None => (Some tt, w, [e])
    end
  else (None, w, []).

Definition emit (e : emission) : M unit := fun w => emit_on w.(stream) e w.

Definition get_session (id : string) : M (option AgentPortForwardSession) :=
  fun w => (Some (w.(a_sessions) !! id), w, []).

Definition register_session (id : string) (s : AgentPortForwardSession) : M unit :=
  fun w => (Some tt, w <| a_sessions ::= <[id := s]> |>, []).

(** Assignments to the fields of the session. *)
Definition put_session (id : string) (s : AgentPortForwardSession) : M unit :=
  fun w => (Some tt, w <| a_sessions ::= alter (fun _ => s) id |>, []).

Definition pop_session (id : string) : M unit :=
  fun w => (Some tt, w <| a_sessions ::= delete id |>, []).

(** The object [session] of a handler: the one of the table. *)
Definition on_session (id : string) (f : AgentPortForwardSession -> M unit) : M unit :=
  s ← get_session id; match s with Some s => f s | None => mret tt end.

Definition on_connection (id : string) (cid : Z)
    (f : AgentPortForwardSession -> AgentTcpConnection -> M unit) : M unit :=
  on_session id (fun s => match s.(a_connections) !! cid with Some c => f s c | None => mret tt end).

Definition set_tcp (s : AgentPortForwardSession) (cid : Z) (c : AgentTcpConnection)
    : AgentPortForwardSession := s <| a_connections ::= <[cid := c]> |>.

Definition emit_event (s : AgentPortForwardSession) (m : agent_event) : M unit :=
  emit_on s.(a_stream) (EmitEvent (Some (s.(request).(op_session_id), s.(request).(op_generation))) m).

(** ** Ending *)

Definition finish_connection (id : string) (cid : Z) (reason : PortForwardEndReason) : M unit :=
  on_connection id cid (fun s c =>
    let s := s <| a_connections ::= delete cid |> in
    _ ← put_session id s;
    (* [await connection.reader_task] after its cancellation *)
    _ ← match c.(reader) with Crashed => raise | _ => mret tt end;
    let s := s <| a_desktop_to_target_bytes ::= fun n => n + c.(t_desktop_to_target_bytes) |>
               <| a_target_to_desktop_bytes ::= fun n => n + c.(t_target_to_desktop_bytes) |> in
    _ ← put_session id s;
    emit_event s (ConnectionEnd cid reason c.(t_desktop_to_target_bytes) c.(t_target_to_desktop_bytes))).

Definition fail_connection (id : string) (cid : Z) (code : PortForwardErrorCode) : M unit :=
  _ ← on_session id (fun s =>
        emit_event s (Error code "Port-forward connection failed."
                        (negb (bool_decide (code = protocol_violation)))));
  finish_connection id cid closed_reason.

Definition finish_session (id : string) (reason : PortForwardEndReason) : M unit :=
  on_session id (fun s =>
    if s.(a_done) then mret tt
    else
      _ ← put_session id (s <| a_done := true |>);
      _ ← for_each (fun cid => finish_connection id cid reason) (map_to_list s.(a_connections)).*1;
      on_session id (fun s =>
        _ ← pop_session id;
        emit_event s (End reason s.(a_desktop_to_target_bytes) s.(a_target_to_desktop_bytes)))).

(** The sessions in no particular order. *)
Definition close_all : M unit := fun w =>
  for_each (fun id => finish_session id closed_reason) (map_to_list w.(a_sessions)).*1 w.

(** One turn of [_watch], a second after the last. *)
Definition watch (id : string) (now : Z) : M unit :=
  on_session id (fun s =>
    if s.(a_done) then mret tt
    else if MAX_PORT_FORWARD_SESSION_SECONDS * SECOND <=? now - s.(a_started_at)
    then finish_session id session_timeout
    else if MAX_PORT_FORWARD_IDLE_SECONDS * SECOND <=? now - s.(last_activity)
    then finish_session id idle_timeout
    else mret tt).

(** ** Opening *)

Inductive resolution : Type :=
| Resolved (t : ResolvedTcpTarget)
| ResolveTimeout
| ResolveFailed.

Definition error_of (r : PortForwardOpen) (code : PortForwardErrorCode) (message : string)
    (retryable : bool) : emission :=
  EmitEvent (Some (r.(op_session_id), r.(op_generation))) (Error code message retryable).

Definition open_session (r : PortForwardOpen) (resolved : resolution) (now : Z) : M unit := fun w =>
  let id := r.(op_session_id) in
  (if bool_decide (is_Some (w.(a_sessions) !! id))
   then emit (error_of r protocol_violation "Session already exists." false)
   else if MAX_PORT_FORWARD_SESSIONS_PER_AGENT <=? Z.of_nat (size w.(a_sessions))
   then emit (error_of r session_limit "Agent session limit reached." false)
   else
     match resolved with
     | ResolveTimeout => emit (error_of r timeout "Target validation timed out." true)
     | ResolveFailed => emit (error_of r invalid_target "Target validation failed." false)
     | Resolved t =>
         let s := AgentSession r t w.(stream) now now ∅ 0 0 false in
         _ ← register_session id s;
         emit_event s (TargetOpened (Opened t.(tg_kind) t.(tg_name) t.(tg_uid) t.(tg_port)))
     end) w.

Definition new_tcp (credit : Z) : AgentTcpConnection :=
  Tcp credit credit 0 0 0 0 false false Waiting [].

Definition open_connection (id : string) (cid : Z) (connected : bool) (now : Z) : M unit :=
  on_session id (fun s =>
    if bool_decide (is_Some (s.(a_connections) !! cid)) then mret tt
    else if MAX_PORT_FORWARD_CONNECTIONS_PER_SESSION <=? Z.of_nat (size s.(a_connections))
    then emit_on s.(a_stream) (error_of s.(request) session_limit "Port-forward connection limit reached." false)
    else if negb connected
    then emit_on s.(a_stream) (error_of s.(request) target_unavailable "Target TCP connection failed." true)
    else
      let credit := s.(request).(initial_credit_bytes) in
      _ ← put_session id ((set_tcp s cid (new_tcp credit)) <| last_activity := now |>);
      _ ← emit_event s (ConnectionOpened cid);
      emit_event s (AgentWindow cid desktop_to_target credit)).

(** ** From the desktop *)

Definition grant_output_credit (id : string) (cid : Z) (direction : PortForwardDirection) (credit : Z) : M unit :=
  on_connection id cid (fun s c =>
    if negb (bool_decide (direction = target_to_desktop)) then mret tt
    else if PORT_FORWARD_CREDIT_WINDOW_BYTES <? c.(output_credit) + credit
    then fail_connection id cid credit_violation
    else put_session id (set_tcp s cid (c <| output_credit ::= fun n => n + credit |>))).

(** The transports of [asyncio.open_connection] can write EOF. *)
Definition half_close (id : string) (cid : Z) (direction : PortForwardDirection) : M unit :=
  on_connection id cid (fun s c =>
    if negb (bool_decide (direction = desktop_to_target)) then fail_connection id cid protocol_violation
    else
      _ ← put_session id (set_tcp s cid (c <| desktop_half_closed := true |>));
      if c.(target_half_closed) then finish_connection id cid target_closed else mret tt).

(** The bytes of a session in one direction, the open connections included. *)
Definition session_bytes (f : AgentTcpConnection -> Z) (closed_bytes : Z) (s : AgentPortForwardSession)
    (cid : Z) (next_total : Z) : Z :=
  closed_bytes + map_sum f (delete cid s.(a_connections)) + next_total.

(** [drained]: whether [writer.drain] returns.  [writer.write] raises once EOF
    was written. *)
Definition write_target (id : string) (s : AgentPortForwardSession) (cid : Z) (c : AgentTcpConnection)
    (data : list byte) (drained : bool) (now : Z) : M unit :=
  let size := Z.of_nat (length data) in
  let c := c <| expected_input_sequence ::= Z.succ |> <| input_credit ::= fun n => n - size |> in
  _ ← put_session id (set_tcp s cid c);
  if c.(desktop_half_closed) then raise
  else
    let c := c <| received ::= fun l => l ++ data |> in
    _ ← put_session id (set_tcp s cid c);
    if negb drained then fail_connection id cid target_unavailable
    else
      let c := c <| t_desktop_to_target_bytes ::= fun n => n + size |>
                 <| input_credit ::= fun n => n + size |> in
      _ ← put_session id ((set_tcp s cid c) <| last_activity := now |>);
      emit_event s (AgentWindow cid desktop_to_target size).

Definition handle_data (raw : list byte) (drained : bool) (now : Z) : M bool :=
  match decode_port_forward_data raw with
  | Err _ => mret false
  | Ok f =>
      let id := f.(session_id) in
      let cid := f.(connection_id) in
      _ ← on_connection id cid (fun s c =>
            if negb (f.(generation) =? s.(request).(op_generation)) then mret tt
            else if negb (bool_decide (f.(direction) = desktop_to_target))
            then fail_connection id cid protocol_violation
            else if negb (f.(sequence) =? c.(expected_input_sequence))
            then fail_connection id cid protocol_violation
            else if c.(input_credit) <? Z.of_nat (length f.(payload))
            then fail_connection id cid credit_violation
            else if MAX_PORT_FORWARD_BYTES_PER_DIRECTION
                    <? session_bytes t_desktop_to_target_bytes s.(a_desktop_to_target_bytes) s cid
                         (c.(t_desktop_to_target_bytes) + Z.of_nat (length f.(payload)))
            then finish_connection id cid byte_limit
            else write_target id s cid c f.(payload) drained now);
      mret true
  end.

(** ** From the target: the turns of [_read_target] *)

Definition set_reader (id : string) (cid : Z) (r : reader_state) : M unit :=
  on_connection id cid (fun s c => put_session id (set_tcp s cid (c <| reader := r |>))).

(** [except Exception] of the reader, and the exception that is left. *)
Definition reader_turn (id : string) (cid : Z) (body : M unit) : M unit :=
  catch (catch body (fail_connection id cid target_unavailable)) (set_reader id cid Crashed).

Definition reserve_output_credit (id : string) (cid : Z) : M unit :=
  on_connection id cid (fun s c =>
    match c.(reader) with
    | Waiting =>
        if c.(output_credit) =? 0 then mret tt
        else
          let amount := Z.min c.(output_credit) MAX_PORT_FORWARD_FRAME_BYTES in
          put_session id (set_tcp s cid (c <| output_credit ::= fun n => n - amount |>
                                           <| reader := Reading amount |>))
    | _ => mret tt
    end).

Definition restored (c : AgentTcpConnection) (amount : Z) : AgentTcpConnection :=
  c <| output_credit ::= fun n => Z.min PORT_FORWARD_CREDIT_WINDOW_BYTES (n + amount) |>.

Inductive target_read : Type :=
| ReadBytes (data : list byte)
| ReadEof
| ReadError.

Definition read_eof (id : string) (s : AgentPortForwardSession) (cid : Z) (c : AgentTcpConnection) : M unit :=
  _ ← put_session id (set_tcp s cid (c <| target_half_closed := true |> <| reader := Stopped |>));
  _ ← emit_event s (AgentHalfClose cid target_to_desktop);
  if c.(desktop_half_closed) then finish_connection id cid target_closed else mret tt.

Definition read_bytes (id : string) (s : AgentPortForwardSession) (cid : Z) (c : AgentTcpConnection)
    (data : list byte) (now : Z) : M unit :=
  let next_total := c.(t_target_to_desktop_bytes) + Z.of_nat (length data) in
  let c := c <| reader := Waiting |> in
  _ ← put_session id (set_tcp s cid c);
  if MAX_PORT_FORWARD_BYTES_PER_DIRECTION
     <? session_bytes t_target_to_desktop_bytes s.(a_target_to_desktop_bytes) s cid next_total
  then finish_connection id cid byte_limit
  else
    match make_frame (Frame s.(request).(op_session_id) s.(request).(op_generation) cid
                        c.(output_sequence) target_to_desktop data) with
    | Err _ => raise
    | Ok frame =>
        let c := c <| output_sequence ::= Z.succ |> <| t_target_to_desktop_bytes := next_total |> in
        _ ← put_session id ((set_tcp s cid c) <| last_activity := now |>);
        match encode_port_forward_data frame with
        | None => raise
        | Some raw =>
            put_session id ((set_tcp s cid (c <| reader := Emitting raw |>)) <| last_activity := now |>)
        end
    end.

(** [reader.read] returns; it gives no more than it was asked for. *)
Definition read_target (id : string) (cid : Z) (r : target_read) (now : Z) : M unit :=
  on_connection id cid (fun s c =>
    match c.(reader) with
    | Reading allowance =>
        reader_turn id cid
          match r with
          | ReadError => raise
          | ReadEof => read_eof id s cid (restored c allowance)
          | ReadBytes data =>
              let size := Z.of_nat (length data) in
              read_bytes id s cid (if size <? allowance then restored c (allowance - size) else c) data now
          end
    | _ => mret tt
    end).

(** The frame leaves. *)
Definition send_frame (id : string) (cid : Z) : M unit :=
  on_connection id cid (fun s c =>
    match c.(reader) with
    | Emitting raw =>
        reader_turn id cid (_ ← emit_on s.(a_stream) (EmitData raw); set_reader id cid Waiting)
    | _ => mret tt
    end).

(** ** The receive loop *)

Inductive agent_control : Type :=
| ForeignControl
| InvalidControl
| OpenRequest (r : PortForwardOpen)
| SessionRequest (session_id : string) (generation : Z) (m : desktop_request).

Definition handle_control (payload : agent_control) (resolved : resolution) (connected : bool) (now : Z)
    : M bool :=
  match payload with
  | ForeignControl => mret false
  | InvalidControl =>
      _ ← emit (EmitEvent None (Error protocol_violation "Invalid port-forward control frame." false));
      mret true
  | OpenRequest r => _ ← open_session r resolved now; mret true
  | SessionRequest id generation m =>
      _ ← on_session id (fun s =>
            if negb (generation =? s.(request).(op_generation)) then mret tt
            else
              match m with
              | ConnectionOpen cid => open_connection id cid connected now
              | DesktopWindow cid direction credit => grant_output_credit id cid direction credit
              | DesktopHalfClose cid direction => half_close id cid direction
              | ConnectionClose cid => finish_connection id cid closed_reason
              | Close => finish_session id closed_reason
              end);
      mret true
  end.

Inductive stream_input : Type :=
| Binary (raw : list byte) (drained : bool)
| Control (payload : agent_control) (resolved : resolution) (connected : bool).

(** A turn of the loop of [LiveSummaryPublisher._stream]: [false] when it
    raised, which ends the stream. *)
Definition stream_turn (m : stream_input) (now : Z) : M unit :=
  match m with
  | Binary raw drained =>
      handled ← handle_data raw drained now;
      if (handled : bool) then mret tt else raise
  | Control payload resolved connected => _ ← handle_control payload resolved connected now; mret tt
  end.

Definition no_sessions : PortForwardController := Controller ∅ 0 (Some O).

(** The next realtime socket. *)
Definition reconnected (w : PortForwardController) (n : option nat) : PortForwardController :=
  w <| stream ::= S |> <| sendable := n |>.
