(* ===== verification/PortForwardAgentRuns.v ===== *)
(** Runs of the agent's port-forward controller: what every handler keeps,
    whatever the gateway and the targets do and wherever the realtime socket
    breaks, and what a broken socket leaves behind. *)

From S2P Require Import Prelude PortForwardFrames PortForwardAgent.
From coqutil Require Import Datatypes.RecordSettersUsingExistingGetters.
#[global] Open Scope Z_scope.

(** ** Handlers that keep an invariant

    [keeps I E m]: [m] keeps [I], also where it raises, and sends only what
    satisfies [E]. *)

Section Keeps.
Context (I : PortForwardController -> Prop) (E : emission -> Prop).

Definition keeps {A} (m : M A) : Prop := forall w, I w -> I (m w).1.2 /\ Forall E (m w).2.

Lemma keeps_ret {A} (x : A) : keeps (mret x).
Proof. intros w Hw. by split. Qed.

Lemma keeps_raise {A} : keeps (raise : M A).
Proof. intros w Hw. by split. Qed.

Lemma keeps_bind {A B} (m : M A) (f : A -> M B) :
  keeps m -> (forall x, keeps (f x)) -> keeps (m ≫= f).
Proof.
  intros Hm Hf w Hw. unfold mbind, M_bind. specialize (Hm w Hw).
  destruct (m w) as [[[x|] w1] out1]; [|done]. destruct Hm as [Hw1 Ho].
  specialize (Hf x w1 Hw1). destruct (f x w1) as [[r w2] out2].
  split; [apply Hf | apply Forall_app; by split; [|apply Hf]].
Qed.

Lemma keeps_catch {A} (m handler : M A) : keeps m -> keeps handler -> keeps (catch m handler).
Proof.
  intros Hm Hh w Hw. unfold catch. specialize (Hm w Hw).
  destruct (m w) as [[[x|] w1] out1]; [done|]. destruct Hm as [Hw1 Ho].
  specialize (Hh w1 Hw1). destruct (handler w1) as [[r w2] out2].
  split; [apply Hh | apply Forall_app; by split; [|apply Hh]].
Qed.

Lemma keeps_for_each {A} (f : A -> M unit) l : (forall x, keeps (f x)) -> keeps (for_each f l).
Proof. intros Hf. induction l; simpl; [apply keeps_ret | by apply keeps_bind]. Qed.

Lemma keeps_emit_on n e :
  (forall w k, I w -> I (w <| sendable := k |>)) -> E e -> keeps (emit_on n e).
Proof. intros HI He w Hw. unfold emit_on. repeat case_match; (split; [by simpl; auto|]); by repeat constructor. Qed.
End Keeps.

(** ** The invariant of the controller *)

Definition request_ok (r : PortForwardOpen) : bool :=
  session_pattern r.(op_session_id) && (1 <=? r.(op_generation))
  && (1 <=? r.(op_remote_port)) && (r.(op_remote_port) <=? 65535)
  && (MAX_PORT_FORWARD_FRAME_BYTES <=? r.(initial_credit_bytes))
  && (r.(initial_credit_bytes) <=? PORT_FORWARD_CREDIT_WINDOW_BYTES).

(** A frame of connection [cid] of [r] on its way to the desktop. *)
Definition frame_of (r : PortForwardOpen) (cid : Z) (raw : list byte) : Prop :=
  exists f, decode_port_forward_data raw = Ok f /\ f.(session_id) = r.(op_session_id)
    /\ f.(generation) = r.(op_generation) /\ f.(connection_id) = cid
    /\ f.(direction) = target_to_desktop.

Record tcp_ok (r : PortForwardOpen) (cid : Z) (c : AgentTcpConnection) : Prop := {
  to_id : connection_id_ok cid = true;
  to_input : 0 <= c.(input_credit) <= PORT_FORWARD_CREDIT_WINDOW_BYTES;
  to_output : 0 <= c.(output_credit) <= PORT_FORWARD_CREDIT_WINDOW_BYTES;
  to_allowance : match c.(reader) with
                 | Reading allowance => 1 <= allowance <= MAX_PORT_FORWARD_FRAME_BYTES
                 | Emitting raw => frame_of r cid raw
                 | _ => True
                 end;
  to_desktop_bytes : 0 <= c.(t_desktop_to_target_bytes);
  to_sequence : 0 <= c.(output_sequence) <= c.(t_target_to_desktop_bytes) }.

Record agent_session_ok (id : string) (s : AgentPortForwardSession) : Prop := {
  so_id : s.(request).(op_session_id) = id;
  so_request : request_ok s.(request) = true;
  so_connections : map_Forall (tcp_ok s.(request)) s.(a_connections);
  so_count : Z.of_nat (size s.(a_connections)) <= MAX_PORT_FORWARD_CONNECTIONS_PER_SESSION;
  so_desktop_bytes : 0 <= s.(a_desktop_to_target_bytes)
    /\ s.(a_desktop_to_target_bytes) + map_sum t_desktop_to_target_bytes s.(a_connections)
       <= MAX_PORT_FORWARD_BYTES_PER_DIRECTION;
  so_target_bytes : 0 <= s.(a_target_to_desktop_bytes)
    /\ s.(a_target_to_desktop_bytes) + map_sum t_target_to_desktop_bytes s.(a_connections)
       <= MAX_PORT_FORWARD_BYTES_PER_DIRECTION }.

Definition controller_ok (w : PortForwardController) : Prop :=
  map_Forall agent_session_ok w.(a_sessions)
  /\ Z.of_nat (size w.(a_sessions)) <= MAX_PORT_FORWARD_SESSIONS_PER_AGENT.

(** What the gateway can parse. *)
Definition emission_ok (e : emission) : Prop :=
  match e with
  | EmitEvent session m =>
      agent_event_ok m = true
      /\ match session with
         | Some (id, generation) => session_pattern id = true /\ 1 <= generation
         | None => True
         end
  | EmitData raw => exists f, decode_port_forward_data raw = Ok f /\ f.(direction) = target_to_desktop
  end.

Abbreviation safe := (keeps controller_ok emission_ok).

Create HintDb agent discriminated.

Lemma safe_put_session id s : agent_session_ok id s -> safe (put_session id s).
Proof.
  intros Hs w [Hw Hn]. split; [|done]. split; simpl.
  - intros i s' Hi. apply lookup_alter_Some in Hi as [(-> & ? & _ & ->)|[_ Hi]]; [done | by apply Hw].
  - rewrite <- size_dom, dom_alter_L, size_dom. done.
Qed.

Lemma safe_pop_session id : safe (pop_session id).
Proof.
  intros w [Hw Hn]. split; [|done]. split; simpl; [by apply map_Forall_delete|].
  destruct (a_sessions w !! id) eqn:E.
  - rewrite map_size_delete_Some by done. lia.
  - by rewrite delete_id.
Qed.

Lemma safe_emit_on n e : emission_ok e -> safe (emit_on n e).
Proof. apply keeps_emit_on. done. Qed.

Lemma safe_emit e : emission_ok e -> safe (emit e).
Proof. intros He w Hw. by apply safe_emit_on. Qed.

Lemma safe_on_session id f :
  (forall s, agent_session_ok id s -> safe (f s)) -> safe (on_session id f).
Proof.
  intros Hf w [Hw Hn]. unfold on_session, mbind, M_bind, get_session.
  destruct (a_sessions w !! id) as [s|] eqn:E; [|done].
  pose proof (Hf s (Hw _ _ E) w (conj Hw Hn)) as H. by destruct (f s w) as [[r w2] out2].
Qed.

Lemma safe_on_connection id cid f :
  (forall s c, agent_session_ok id s -> s.(a_connections) !! cid = Some c -> tcp_ok s.(request) cid c ->
     safe (f s c)) ->
  safe (on_connection id cid f).
Proof.
  intros Hf. apply safe_on_session. intros s Hs. case_match eqn:E; [|apply keeps_ret].
  apply Hf; try done. by apply Hs.
Qed.

Lemma safe_emit_event id s m : agent_session_ok id s -> agent_event_ok m = true -> safe (emit_event s m).
Proof.
  intros Hs Hm. apply safe_emit_on. split; [done|]. pose proof (so_request _ _ Hs) as Hr.
  unfold request_ok in Hr. bool_to_prop. done.
Qed.

#[export] Hint Resolve keeps_ret keeps_raise keeps_bind keeps_catch keeps_for_each safe_put_session
  safe_pop_session safe_emit_on safe_emit safe_emit_event : agent.

(** ** Sessions that stay well-formed *)

Lemma session_bytes_same f closed s cid c :
  s.(a_connections) !! cid = Some c -> session_bytes f closed s cid (f c) = closed + map_sum f s.(a_connections).
Proof. intros Hc. unfold session_bytes. rewrite (map_sum_delete _ _ _ _ Hc). lia. Qed.

Lemma session_ok_set id s cid c :
  agent_session_ok id s -> tcp_ok s.(request) cid c ->
  is_Some (s.(a_connections) !! cid)
  \/ Z.of_nat (size s.(a_connections)) < MAX_PORT_FORWARD_CONNECTIONS_PER_SESSION ->
  session_bytes t_desktop_to_target_bytes s.(a_desktop_to_target_bytes) s cid c.(t_desktop_to_target_bytes)
    <= MAX_PORT_FORWARD_BYTES_PER_DIRECTION ->
  session_bytes t_target_to_desktop_bytes s.(a_target_to_desktop_bytes) s cid c.(t_target_to_desktop_bytes)
    <= MAX_PORT_FORWARD_BYTES_PER_DIRECTION ->
  agent_session_ok id (set_tcp s cid c).
Proof.
  intros [] Hc Hn Hd Ht. unfold session_bytes in *.
  assert (Hsum : forall f, map_sum f (<[cid := c]> (a_connections s)) = f c + map_sum f (delete cid (a_connections s))).
  { intros f. by rewrite <- insert_delete_eq, map_sum_insert by apply lookup_delete_eq. }
  constructor; simpl; try done.
  - by apply map_Forall_insert_2.
  - destruct (a_connections s !! cid) eqn:E.
    + by rewrite map_size_insert_Some.
    + rewrite map_size_insert_None by done. destruct Hn as [[? ?]|]; [done | lia].
  - rewrite Hsum. lia.
  - rewrite Hsum. lia.
Qed.

(** The counted bytes of connection [cid] do not change. *)
Lemma session_ok_update id s cid c c' :
  agent_session_ok id s -> s.(a_connections) !! cid = Some c -> tcp_ok s.(request) cid c' ->
  c'.(t_desktop_to_target_bytes) = c.(t_desktop_to_target_bytes) ->
  c'.(t_target_to_desktop_bytes) = c.(t_target_to_desktop_bytes) ->
  agent_session_ok id (set_tcp s cid c').
Proof.
  intros Hs Hc Hc' Hd Ht. apply session_ok_set; try done; [by left; eexists|..].
  - rewrite Hd, (session_bytes_same t_desktop_to_target_bytes _ _ _ _ Hc). apply Hs.
  - rewrite Ht, (session_bytes_same t_target_to_desktop_bytes _ _ _ _ Hc). apply Hs.
Qed.

Lemma session_ok_activity id s now : agent_session_ok id s -> agent_session_ok id (s <| last_activity := now |>).
Proof. intros []. by constructor. Qed.

Lemma session_ok_done id s : agent_session_ok id s -> agent_session_ok id (s <| a_done := true |>).
Proof. intros []. by constructor. Qed.

Lemma tcp_ok_bytes r (m : gmap Z AgentTcpConnection) :
  map_Forall (tcp_ok r) m ->
  map_Forall (fun _ c => 0 <= c.(t_desktop_to_target_bytes)) m
  /\ map_Forall (fun _ c => 0 <= c.(t_target_to_desktop_bytes)) m.
Proof. intros H. split; intros i c Hc; destruct (H i c Hc); lia. Qed.

(** A connection leaves: its bytes move to the session. *)
Lemma session_ok_leave id s cid c :
  agent_session_ok id s -> s.(a_connections) !! cid = Some c ->
  let s1 := s <| a_connections ::= delete cid |> in
  agent_session_ok id s1
  /\ agent_session_ok id (s1 <| a_desktop_to_target_bytes ::= fun n => n + c.(t_desktop_to_target_bytes) |>
                            <| a_target_to_desktop_bytes ::= fun n => n + c.(t_target_to_desktop_bytes) |>)
  /\ byte_count_ok c.(t_desktop_to_target_bytes) = true /\ byte_count_ok c.(t_target_to_desktop_bytes) = true.
Proof.
  intros [Hid Hr Hm Hn Hd Ht] Hc s1. destruct (tcp_ok_bytes _ _ Hm) as [Pd Pt].
  pose proof (map_sum_lookup_le _ _ _ _ Pd Hc) as Ld. pose proof (map_sum_lookup_le _ _ _ _ Pt Hc) as Lt.
  pose proof (map_sum_nonneg _ _ Pd). pose proof (map_sum_nonneg _ _ Pt).
  pose proof (Pd _ _ Hc) as Bd. pose proof (Pt _ _ Hc) as Bt. simpl in Bd, Bt, Ld, Lt.
  assert (size (delete cid (a_connections s)) <= size (a_connections s))%nat
    by (rewrite map_size_delete_Some by done; lia).
  split_and!.
  - constructor; simpl; try done; [by apply map_Forall_delete | lia | |];
      rewrite (map_sum_delete _ _ _ _ Hc); lia.
  - constructor; simpl; try done; [by apply map_Forall_delete | lia | |];
      rewrite (map_sum_delete _ _ _ _ Hc); lia.
  - unfold byte_count_ok. apply andb_true_iff. rewrite !Z.leb_le. lia.
  - unfold byte_count_ok. apply andb_true_iff. rewrite !Z.leb_le. lia.
Qed.

#[export] Hint Resolve session_ok_activity session_ok_done : agent.

(** ** Every handler is safe *)

Lemma safe_finish_connection id cid reason : safe (finish_connection id cid reason).
Proof.
  apply safe_on_connection. intros s c Hs Hc Ht.
  destruct (session_ok_leave _ _ _ _ Hs Hc) as (H1 & H2 & Bd & Bt).
  apply keeps_bind; [by apply safe_put_session|]. intros _.
  apply keeps_bind; [by case_match; auto with agent|]. intros _.
  apply keeps_bind; [by apply safe_put_session|]. intros _.
  apply (safe_emit_event id); [done|]. simpl. by rewrite (to_id _ _ _ Ht), Bd, Bt.
Qed.

#[export] Hint Resolve safe_finish_connection : agent.

Lemma safe_fail_connection id cid code : safe (fail_connection id cid code).
Proof.
  apply keeps_bind; [|auto with agent]. apply safe_on_session. intros s Hs. by apply (safe_emit_event id).
Qed.

#[export] Hint Resolve safe_fail_connection : agent.

Lemma safe_finish_session id reason : safe (finish_session id reason).
Proof.
  apply safe_on_session. intros s Hs. case_match; [auto with agent|].
  apply keeps_bind; [auto with agent|]. intros _.
  apply keeps_bind; [auto with agent|]. intros _.
  apply safe_on_session. intros s' Hs'. apply keeps_bind; [auto with agent|]. intros _.
  apply (safe_emit_event id); [done|]. simpl.
  destruct (tcp_ok_bytes _ _ (so_connections _ _ Hs')) as [Pd Pt].
  pose proof (map_sum_nonneg _ _ Pd). pose proof (map_sum_nonneg _ _ Pt).
  destruct (so_desktop_bytes _ _ Hs'), (so_target_bytes _ _ Hs').
  unfold byte_count_ok. rewrite !andb_true_iff, !Z.leb_le. lia.
Qed.

#[export] Hint Resolve safe_finish_session : agent.

Lemma safe_close_all : safe close_all.
Proof. intros w Hw. apply keeps_for_each; [|done]. auto with agent. Qed.

Lemma safe_watch id now : safe (watch id now).
Proof. apply safe_on_session. intros s Hs. repeat case_match; auto with agent. Qed.

Definition resolution_ok (r : resolution) : bool :=
  match r with Resolved t => (1 <=? t.(tg_port)) && (t.(tg_port) <=? 65535) | _ => true end.

Lemma error_of_ok r code message retryable :
  request_ok r = true -> (1 <=? String.length message)%nat && (String.length message <=? 240)%nat = true ->
  emission_ok (error_of r code message retryable).
Proof. unfold request_ok. intros Hr Hm. split; [exact Hm|]. clear Hm. by bool_to_prop. Qed.

Lemma safe_open_session r resolved now :
  request_ok r = true -> resolution_ok resolved = true -> safe (open_session r resolved now).
Proof.
  intros Hr Ht w [Hw Hn]. unfold open_session.
  case_match eqn:E1; [by apply safe_emit; [apply error_of_ok|]|]. bool_to_prop. apply eq_None_not_Some in E1.
  case_match eqn:E2; [by apply safe_emit; [apply error_of_ok|]|]. bool_to_prop.
  destruct resolved as [t| |]; [|by apply safe_emit; [apply error_of_ok|]..].
  set (s := AgentSession _ _ _ _ _ _ _ _ _).
  assert (Hs : agent_session_ok (op_session_id r) s).
  { constructor; simpl; try done; apply map_Forall_empty. }
  set (w1 := w <| a_sessions ::= <[op_session_id r := s]> |>).
  assert (Hw1 : controller_ok w1).
  { split; simpl; [by apply map_Forall_insert_2|]. rewrite map_size_insert_None by done. lia. }
  pose proof (safe_emit_event _ s (TargetOpened (Opened (tg_kind t) (tg_name t) (tg_uid t) (tg_port t))) Hs Ht w1 Hw1) as H.
  unfold mbind, M_bind, register_session. fold w1. by destruct (emit_event s _ w1) as [[? ?] ?].
Qed.

Lemma new_tcp_ok id s cid :
  agent_session_ok id s -> connection_id_ok cid = true ->
  tcp_ok s.(request) cid (new_tcp s.(request).(initial_credit_bytes)).
Proof.
  intros Hs Hid. pose proof (so_request _ _ Hs) as Hr. unfold request_ok in Hr.
  unfold MAX_PORT_FORWARD_FRAME_BYTES in Hr. bool_to_prop. constructor; simpl; try done; lia.
Qed.

Lemma safe_open_connection id cid connected now :
  connection_id_ok cid = true -> safe (open_connection id cid connected now).
Proof.
  intros Hid. apply safe_on_session. intros s Hs. pose proof (so_request _ _ Hs) as Hr.
  case_match eqn:E1; [auto with agent|]. case_match eqn:E2; [by apply safe_emit_on, error_of_ok|].
  case_match eqn:E3; [by apply safe_emit_on, error_of_ok|]. bool_to_prop. apply eq_None_not_Some in E1.
  pose proof (new_tcp_ok id s cid Hs Hid) as Ht.
  destruct (so_desktop_bytes _ _ Hs), (so_target_bytes _ _ Hs).
  apply keeps_bind.
  { apply safe_put_session, session_ok_activity, session_ok_set; try done; [by right|..];
      unfold session_bytes; rewrite delete_id by done; simpl; lia. }
  intros _. apply keeps_bind; [by apply (safe_emit_event id)|]. intros _. apply (safe_emit_event id); [done|].
  unfold request_ok, MAX_PORT_FORWARD_FRAME_BYTES in Hr. bool_to_prop. simpl. rewrite Hid. unfold credit_ok. simpl.
  apply andb_true_iff. rewrite !Z.leb_le. lia.
Qed.

Lemma safe_grant_output_credit id cid direction credit :
  credit_ok credit = true -> safe (grant_output_credit id cid direction credit).
Proof.
  intros Hcr. apply safe_on_connection. intros s c Hs Hc Ht.
  case_match; [auto with agent|]. case_match eqn:E; [auto with agent|]. unfold credit_ok in Hcr. bool_to_prop.
  apply safe_put_session, (session_ok_update _ _ _ c); try done.
  destruct Ht. constructor; simpl; try done. lia.
Qed.

Lemma safe_half_close id cid direction : safe (half_close id cid direction).
Proof.
  apply safe_on_connection. intros s c Hs Hc Ht.
  case_match; [auto with agent|]. apply keeps_bind; [|intros _; case_match; auto with agent].
  apply safe_put_session, (session_ok_update _ _ _ c); try done. by destruct Ht.
Qed.

Lemma safe_write_target id s cid c data drained now :
  agent_session_ok id s -> s.(a_connections) !! cid = Some c -> tcp_ok s.(request) cid c ->
  payload_ok data = true -> Z.of_nat (length data) <= c.(input_credit) ->
  session_bytes t_desktop_to_target_bytes s.(a_desktop_to_target_bytes) s cid
    (c.(t_desktop_to_target_bytes) + Z.of_nat (length data)) <= MAX_PORT_FORWARD_BYTES_PER_DIRECTION ->
  safe (write_target id s cid c data drained now).
Proof.
  intros Hs Hc Ht Hp Hcredit Hbytes. unfold payload_ok in Hp. bool_to_prop.
  assert (Hunchanged : forall c', tcp_ok (request s) cid c' ->
            t_desktop_to_target_bytes c' = t_desktop_to_target_bytes c ->
            t_target_to_desktop_bytes c' = t_target_to_desktop_bytes c ->
            safe (put_session id (set_tcp s cid c'))).
  { intros. by eapply safe_put_session, session_ok_update. }
  unfold write_target. apply keeps_bind; [apply Hunchanged; try done; destruct Ht; constructor; simpl; try done; lia|]. intros _.
  case_match; [auto with agent|].
  apply keeps_bind; [apply Hunchanged; try done; destruct Ht; constructor; simpl; try done; lia|]. intros _.
  case_match; [auto with agent|].
  apply keeps_bind.
  - apply safe_put_session, session_ok_activity, session_ok_set; try done; [| by left; eexists |].
    + destruct Ht. constructor; simpl; try done; lia.
    + simpl. rewrite (session_bytes_same t_target_to_desktop_bytes _ _ _ _ Hc). apply Hs.
  - intros _. apply (safe_emit_event id); [done|]. simpl. rewrite (to_id _ _ _ Ht). unfold credit_ok. simpl.
    apply andb_true_iff. rewrite !Z.leb_le. unfold MAX_PORT_FORWARD_FRAME_BYTES in *.
    unfold PORT_FORWARD_CREDIT_WINDOW_BYTES. lia.
Qed.

Lemma safe_handle_data raw drained now : safe (handle_data raw drained now).
Proof.
  unfold handle_data. case_match eqn:Hf; [|auto with agent].
  apply encode_decode in Hf as [Hf _]. unfold frame_ok in Hf. bool_to_prop.
  apply keeps_bind; [|auto with agent]. apply safe_on_connection. intros s c Hs Hc Ht.
  repeat (case_match; [auto with agent|]). bool_to_prop. by apply safe_write_target.
Qed.

(** ** The reader *)

Lemma safe_set_reader id cid r : match r with Waiting | Stopped | Crashed => True | _ => False end ->
  safe (set_reader id cid r).
Proof.
  intros Hr. apply safe_on_connection. intros s c Hs Hc Ht.
  apply safe_put_session, (session_ok_update _ _ _ c); try done.
  destruct Ht. constructor; simpl; try done. by destruct r.
Qed.

Lemma safe_reader_turn id cid body : safe body -> safe (reader_turn id cid body).
Proof. intros Hb. apply keeps_catch; [auto with agent | by apply safe_set_reader]. Qed.

Lemma safe_reserve id cid : safe (reserve_output_credit id cid).
Proof.
  apply safe_on_connection. intros s c Hs Hc Ht. destruct (reader c) eqn:Hr; auto with agent.
  case_match; [auto with agent|]. bool_to_prop. apply safe_put_session, (session_ok_update _ _ _ c); try done.
  destruct Ht. unfold MAX_PORT_FORWARD_FRAME_BYTES. constructor; simpl; unfold const; simpl; try done;
    unfold MAX_PORT_FORWARD_FRAME_BYTES; lia.
Qed.

Lemma restored_ok r cid c amount reader' :
  tcp_ok r cid c -> 0 <= amount -> match reader' with Waiting | Stopped | Crashed => True | _ => False end ->
  tcp_ok r cid ((restored c amount) <| reader := reader' |>).
Proof.
  intros [] Ha Hr. unfold PORT_FORWARD_CREDIT_WINDOW_BYTES in *.
  constructor; simpl; unfold const, PORT_FORWARD_CREDIT_WINDOW_BYTES; simpl; try done; [lia | by destruct reader'].
Qed.

Lemma safe_read_eof id s cid c allowance :
  agent_session_ok id s -> s.(a_connections) !! cid = Some c -> tcp_ok s.(request) cid c -> 0 <= allowance ->
  safe (read_eof id s cid (restored c allowance)).
Proof.
  intros Hs Hc Ht Ha. unfold read_eof.
  apply keeps_bind; [|intros _; apply keeps_bind; [|intros _; case_match; auto with agent]].
  - apply safe_put_session, (session_ok_update _ _ _ c); try done.
    pose proof (restored_ok _ _ _ allowance Stopped Ht Ha I) as []. by constructor.
  - apply (safe_emit_event id); [done|]. apply Ht.
Qed.

Lemma safe_read_bytes id s cid c c' data now :
  agent_session_ok id s -> s.(a_connections) !! cid = Some c ->
  tcp_ok s.(request) cid (c' <| reader := Waiting |>) ->
  c'.(t_desktop_to_target_bytes) = c.(t_desktop_to_target_bytes) ->
  c'.(t_target_to_desktop_bytes) = c.(t_target_to_desktop_bytes) ->
  safe (read_bytes id s cid c' data now).
Proof.
  intros Hs Hc Ht Hd Hb. unfold read_bytes.
  apply keeps_bind; [by apply safe_put_session, (session_ok_update _ _ _ c)|]. intros _.
  destruct (_ <? _) eqn:E; [auto with agent|]. apply Z.ltb_ge in E.
  destruct (make_frame _) as [frame|] eqn:Hf; [|auto with agent].
  apply make_frame_inv in Hf as [-> Hf].
  assert (Hlen : 1 <= Z.of_nat (length data)).
  { unfold frame_ok, payload_ok in Hf. simpl in Hf. by bool_to_prop. }
  set (c1 := _ <| t_target_to_desktop_bytes := _ |>).
  assert (Hput : forall r, match r with Emitting raw => frame_of (request s) cid raw | Waiting => True | _ => False end ->
    safe (put_session id ((set_tcp s cid (c1 <| reader := r |>)) <| last_activity := now |>))).
  { intros r Hr. apply safe_put_session, session_ok_activity, session_ok_set; try done; [| by left; eexists |].
    - destruct Ht. simpl in *. constructor; simpl; unfold const; try done; [by destruct r | lia].
    - simpl. rewrite Hd, (session_bytes_same t_desktop_to_target_bytes _ _ _ _ Hc). apply Hs. }
  apply keeps_bind.
  { specialize (Hput Waiting Logic.I). exact Hput. }
  intros _. destruct (encode_port_forward_data _) as [raw|] eqn:He; [|auto with agent].
  apply Hput. eexists. split; [by eapply decode_encode|]. done.
Qed.

Lemma safe_read_target id cid r now : safe (read_target id cid r now).
Proof.
  apply safe_on_connection. intros s c Hs Hc Ht. destruct (reader c) eqn:Hr; auto with agent.
  pose proof (to_allowance _ _ _ Ht) as Ha. rewrite Hr in Ha.
  apply safe_reader_turn. destruct r as [data| |]; [|apply (safe_read_eof _ _ _ c); try done; lia | auto with agent].
  apply (safe_read_bytes _ _ _ c); try done; [|by case_match..].
  case_match; bool_to_prop.
  - apply restored_ok; [done | lia | done].
  - destruct Ht. by constructor.
Qed.

Lemma safe_send_frame id cid : safe (send_frame id cid).
Proof.
  apply safe_on_connection. intros s c Hs Hc Ht. destruct (reader c) eqn:Hr; auto with agent.
  pose proof (to_allowance _ _ _ Ht) as Ha. rewrite Hr in Ha.
  apply safe_reader_turn. apply keeps_bind; [|by intros _; apply safe_set_reader].
  apply safe_emit_on. destruct Ha as (f & ? & ? & ? & ? & ?). by exists f.
Qed.

(** ** The receive loop and the runs of the agent *)

Definition agent_control_ok (payload : agent_control) : bool :=
  match payload with
  | OpenRequest r => request_ok r
  | SessionRequest _ _ m => desktop_request_ok m
  | _ => true
  end.

Lemma safe_handle_control payload resolved connected now :
  agent_control_ok payload = true -> resolution_ok resolved = true ->
  safe (handle_control payload resolved connected now).
Proof.
  intros Hp Hr. destruct payload as [| |r|id generation m]; simpl in *; [auto with agent|..].
  - apply keeps_bind; [|auto with agent]. by apply safe_emit.
  - apply keeps_bind; [by apply safe_open_session | auto with agent].
  - apply keeps_bind; [|auto with agent]. apply safe_on_session. intros s Hs. case_match; [auto with agent|].
    destruct m; simpl in *; bool_to_prop; auto with agent;
      [by apply safe_open_connection | by apply safe_grant_output_credit | apply safe_half_close].
Qed.

Inductive agent_input : Type :=
| StreamTurn (m : stream_input)
| CloseAll
| WatchTurn (id : string)
| Reconnect
| ReserveTurn (id : string) (cid : Z)
| ReadTurn (id : string) (cid : Z) (r : target_read)
| SendTurn (id : string) (cid : Z).

Definition stream_input_ok (m : stream_input) : bool :=
  match m with
  | Binary _ _ => true
  | Control payload resolved _ => agent_control_ok payload && resolution_ok resolved
  end.

(** The events of the agent in any order; the realtime socket of a step takes
    as many messages as it likes before it breaks ([Reconnect]). *)
Inductive agent_step : PortForwardController -> agent_input * list emission -> PortForwardController -> Prop :=
| step_stream now m w : stream_input_ok m = true ->
    let r := stream_turn m now w in agent_step w (StreamTurn m, r.2) r.1.2
| step_close_all w : let r := close_all w in agent_step w (CloseAll, r.2) r.1.2
| step_watch now id w : let r := watch id now w in agent_step w (WatchTurn id, r.2) r.1.2
| step_reconnect n w : agent_step w (Reconnect, []) (reconnected w n)
| step_reserve id cid w :
    let r := reserve_output_credit id cid w in agent_step w (ReserveTurn id cid, r.2) r.1.2
| step_read now id cid read w :
    let r := read_target id cid read now w in agent_step w (ReadTurn id cid read, r.2) r.1.2
| step_send id cid w : let r := send_frame id cid w in agent_step w (SendTurn id cid, r.2) r.1.2.

Lemma safe_stream_turn m now : stream_input_ok m = true -> safe (stream_turn m now).
Proof.
  intros Hm. destruct m; simpl in *; bool_to_prop.
  - apply keeps_bind; [apply safe_handle_data|]. intros []; auto with agent.
  - apply keeps_bind; [by apply safe_handle_control | auto with agent].
Qed.

Lemma agent_step_ok w e out w' :
  agent_step w (e, out) w' -> controller_ok w -> controller_ok w' /\ Forall emission_ok out.
Proof.
  inversion 1; subst; intros Hw.
  - by apply safe_stream_turn.
  - by apply safe_close_all.
  - by apply safe_watch.
  - by split.
  - by apply safe_reserve.
  - by apply safe_read_target.
  - by apply safe_send_frame.
Qed.

(** ** Sessions that outlive their end

    [_finish_session] marks the session before it emits anything, and returns
    at once for a marked one: a marked session that is still registered stays. *)

Definition stale (id : string) (w : PortForwardController) : Prop :=
  exists s, w.(a_sessions) !! id = Some s /\ s.(a_done) = true.

Section Stale.
Context (id : string).

Abbreviation stays := (keeps (stale id) (fun _ => True)).

Lemma stays_put_session i s : (i = id -> s.(a_done) = true) -> stays (put_session i s).
Proof.
  intros Hs w (s0 & H0 & Hd). split; [|done]. unfold stale. simpl.
  destruct (decide (i = id)) as [->|Hne].
  - exists s. rewrite lookup_alter_eq, H0. by auto.
  - exists s0. by rewrite lookup_alter_ne.
Qed.

Lemma stays_on_session i f :
  (forall s, (i = id -> s.(a_done) = true) -> stays (f s)) -> stays (on_session i f).
Proof.
  intros Hf w Hw. unfold on_session, mbind, M_bind, get_session.
  destruct (a_sessions w !! i) as [s|] eqn:E; [|done].
  assert (Hs : i = id -> s.(a_done) = true) by (destruct Hw as (? & ? & ?); naive_solver).
  pose proof (Hf s Hs w Hw) as H. by destruct (f s w) as [[r w2] out2].
Qed.

Lemma stays_emit_on n e : stays (emit_on n e).
Proof. by apply keeps_emit_on. Qed.

Lemma stays_emit e : stays (emit e).
Proof. intros w Hw. by apply stays_emit_on. Qed.

Lemma stays_pop_session i : i <> id -> stays (pop_session i).
Proof.
  intros Hne w (s & Hs & Hd). split; [|done]. exists s. simpl. by rewrite lookup_delete_ne.
Qed.

Create HintDb stale discriminated.

(** Walk through a handler. *)
Ltac walk :=
  repeat first
    [ lazymatch goal with |- forall _, _ => intros ? end | solve [eauto with stale]
    | apply stays_on_session | apply stays_put_session; simpl; by auto | apply stays_pop_session; assumption
    | apply keeps_ret | apply keeps_raise | apply keeps_bind | apply keeps_catch | apply keeps_for_each
    | apply stays_emit_on | apply stays_emit | case_match ].

Lemma stays_finish_connection i cid reason : stays (finish_connection i cid reason).
Proof. unfold finish_connection, on_connection, emit_event. walk. Qed.

Hint Resolve stays_finish_connection : stale.

Lemma stays_fail_connection i cid code : stays (fail_connection i cid code).
Proof. unfold fail_connection, emit_event. walk. Qed.

Hint Resolve stays_fail_connection : stale.

Lemma stays_finish_session i reason : stays (finish_session i reason).
Proof.
  apply stays_on_session. intros s Hs. destruct (decide (i = id)) as [->|Hne].
  - rewrite (Hs eq_refl). apply keeps_ret.
  - case_match; [walk|]. unfold emit_event. walk.
Qed.

Hint Resolve stays_finish_session : stale.

Lemma stays_open_session r resolved now : stays (open_session r resolved now).
Proof.
  intros w Hw. unfold open_session. case_match eqn:E; [by apply stays_emit|].
  case_match; [by apply stays_emit|]. destruct resolved as [t| |]; [|by apply stays_emit..].
  assert (Hne : op_session_id r <> id).
  { intros <-. destruct Hw as (s & Hs & _). rewrite Hs in E. bool_to_prop. by destruct E. }
  set (s := AgentSession _ _ _ _ _ _ _ _ _).
  assert (Hw1 : stale id (w <| a_sessions ::= <[op_session_id r := s]> |>)).
  { destruct Hw as (s0 & H0 & Hd). exists s0. simpl. by rewrite lookup_insert_ne. }
  pose proof (stays_emit_on s.(a_stream)
    (EmitEvent (Some (op_session_id r, op_generation r))
       (TargetOpened (Opened (tg_kind t) (tg_name t) (tg_uid t) (tg_port t)))) _ Hw1) as Hout.
  unfold mbind, M_bind, register_session, emit_event. fold s. cbn [request s].
  by destruct (emit_on _ _ _) as [[? ?] ?].
Qed.

Hint Resolve stays_open_session : stale.

Lemma stays_half_close i cid direction : stays (half_close i cid direction).
Proof. unfold half_close, on_connection. walk. Qed.

Hint Resolve stays_half_close : stale.

Lemma stays_handle_data raw drained now : stays (handle_data raw drained now).
Proof. unfold handle_data, on_connection, write_target, emit_event. walk. Qed.

Lemma stays_handle_control payload resolved connected now :
  stays (handle_control payload resolved connected now).
Proof.
  unfold handle_control, open_connection, grant_output_credit, on_connection, emit_event. walk.
Qed.

Hint Resolve stays_handle_data stays_handle_control : stale.

Lemma stays_stream_turn m now : stays (stream_turn m now).
Proof. unfold stream_turn. walk. Qed.

Lemma stays_close_all : stays close_all.
Proof. intros w Hw. refine ((_ : stays (for_each _ _)) w Hw). walk. Qed.

Lemma stays_watch i now : stays (watch i now).
Proof. unfold watch. walk. Qed.

Lemma stays_reserve i cid : stays (reserve_output_credit i cid).
Proof. unfold reserve_output_credit, on_connection. walk. Qed.

Lemma stays_read_target i cid r now : stays (read_target i cid r now).
Proof. unfold read_target, reader_turn, set_reader, on_connection, read_eof, read_bytes, emit_event. walk. Qed.

Lemma stays_send_frame i cid : stays (send_frame i cid).
Proof. unfold send_frame, reader_turn, set_reader, on_connection. walk. Qed.

Lemma stale_step w e w' : agent_step w e w' -> stale id w -> stale id w'.
Proof.
  inversion 1; subst; intros Hw.
  - by apply stays_stream_turn.
  - by apply stays_close_all.
  - by apply stays_watch.
  - exact Hw.
  - by apply stays_reserve.
  - by apply stays_read_target.
  - by apply stays_send_frame.
Qed.
End Stale.

Lemma stale_run id w trace w' : steps agent_step w trace w' -> stale id w -> stale id w'.
Proof. apply (steps_invariant agent_step (stale id)). intros. by eapply stale_step. Qed.

(** A controller whose sessions are all stale opens no other. *)
Lemma stale_sessions_refuse ids w r resolved now :
  NoDup ids -> Z.of_nat (length ids) = MAX_PORT_FORWARD_SESSIONS_PER_AGENT ->
  Forall (fun id => stale id w) ids ->
  (open_session r resolved now w).1.2.(a_sessions) = w.(a_sessions)
  /\ forall t, ~ EmitEvent (Some (r.(op_session_id), r.(op_generation))) (TargetOpened t)
                 ∈ (open_session r resolved now w).2.
Proof.
  intros Hnd Hlen Hstale.
  assert (Hsize : (length ids <= size (a_sessions w))%nat).
  { rewrite <- size_dom, <- (size_list_to_set (C:=gset string) ids) by done. apply subseteq_size.
    intros id Hid%elem_of_list_to_set. rewrite Forall_forall in Hstale.
    destruct (Hstale id Hid) as (s & Hs & _). by apply elem_of_dom_2 in Hs. }
  assert (Herr : forall code message,
    (emit (error_of r code message false) w).1.2.(a_sessions) = w.(a_sessions)
    /\ forall t, ~ EmitEvent (Some (r.(op_session_id), r.(op_generation))) (TargetOpened t)
                   ∈ (emit (error_of r code message false) w).2).
  { intros. unfold emit, emit_on. rewrite Nat.eqb_refl. repeat case_match; simpl; split; try done; unfold error_of;
      intros t; rewrite ?elem_of_nil, ?list_elem_of_singleton; naive_solver. }
  unfold open_session. case_match; [apply Herr|]. rewrite (proj2 (Z.leb_le _ _)) by lia. apply Herr.
Qed.

(** A socket that breaks right after a connection was opened on it: the
    controller closes the session, whose first message raises. *)
Definition sample_request (id : string) : PortForwardOpen :=
  Open id 1 "rev-1" (Resource "" "v1" "Pod" (Some "shop") "checkout-0" "uid-1") 8080
    PORT_FORWARD_CREDIT_WINDOW_BYTES.

Definition sample_target : resolution := Resolved (Target "Pod" "checkout-0" "uid-1" "10.0.0.7" 8080).

Definition opened_on_lost_stream (w : PortForwardController) (id : string) : PortForwardController :=
  let w := reconnected w (Some 3%nat) in
  let w := (stream_turn (Control (OpenRequest (sample_request id)) sample_target true) 0 w).1.2 in
  let w := (stream_turn (Control (SessionRequest id 1 (ConnectionOpen 1)) sample_target true) 0 w).1.2 in
  (close_all w).1.2.

Lemma opened_on_lost_stream_run w id :
  session_pattern id = true -> exists trace, steps agent_step w trace (opened_on_lost_stream w id).
Proof.
  intros Hid. eexists. unfold opened_on_lost_stream.
  eapply steps_cons; [apply (step_reconnect (Some 3%nat))|].
  eapply steps_cons; [apply (step_stream 0 (Control (OpenRequest (sample_request id)) sample_target true))|].
  { simpl. unfold request_ok. simpl. by rewrite Hid. }
  eapply steps_cons; [by apply (step_stream 0 (Control (SessionRequest id 1 (ConnectionOpen 1)) sample_target true))|].
  eapply steps_cons; [apply step_close_all | apply steps_nil].
Qed.

Definition sample_ids : list string :=
  ["agent-session-001"; "agent-session-002"; "agent-session-003"; "agent-session-004";
   "agent-session-005"; "agent-session-006"; "agent-session-007"; "agent-session-008"].

Definition stale_agent : PortForwardController := fold_left opened_on_lost_stream sample_ids no_sessions.

Lemma stale_agent_run : exists trace, steps agent_step no_sessions trace stale_agent.
Proof.
  unfold stale_agent. assert (Hids : Forall (fun id => session_pattern id = true) sample_ids) by by repeat constructor.
  revert Hids. generalize no_sessions. induction sample_ids as [|id ids IH]; intros w Hids; simpl.
  - exists []. constructor.
  - apply Forall_cons in Hids as [Hid Hids]. destruct (opened_on_lost_stream_run w id Hid) as [t1 H1].
    destruct (IH (opened_on_lost_stream w id) Hids) as [t2 H2]. exists (t1 ++ t2). by eapply steps_app.
Qed.

Lemma stale_agent_stale : Forall (fun id => stale id stale_agent) sample_ids.
Proof.
  assert (H : forallb (fun id => match a_sessions stale_agent !! id with Some s => s.(a_done) | None => false end)
                sample_ids = true) by (vm_compute; reflexivity).
  rewrite forallb_forall in H. apply Forall_forall. intros id Hin%list_elem_of_In. apply H in Hin.
  unfold stale. case_match; [eauto | done].
Qed.

(** ** Properties *)


(** A session whose realtime socket breaks while a connection is open is
    never forgotten: closing it raises before it is removed, and it counts
    against the limit of eight ever after.  The agent reaches a state from
    which, whatever happens next and over whichever new socket, it never opens
    a session again. *)
Theorem lost_streams_exhaust_agent :
  exists trace w, steps agent_step no_sessions trace w
    /\ forall later w', steps agent_step w later w' -> forall r resolved now,
         (open_session r resolved now w').1.2.(a_sessions) = w'.(a_sessions)
         /\ forall t, ~ EmitEvent (Some (r.(op_session_id), r.(op_generation))) (TargetOpened t)
                        ∈ (open_session r resolved now w').2.
Proof.
  destruct stale_agent_run as [trace Hrun]. exists trace, stale_agent. split; [done|].
  intros later w' Hlater r resolved now. apply (stale_sessions_refuse sample_ids); [|done|].
  - apply (bool_decide_unpack _). vm_compute. exact Logic.I.
  - eapply Forall_impl; [exact stale_agent_stale|]. intros id. exact (stale_run id _ _ _ Hlater).
Qed.

