(* ===== verification/PortForwardTarget.v ===== *)
(** The agent's target resolver ([KubernetesTcpTargetResolver],
    [_resolve_pod], [_resolve_service] of
    [services/target/cluster-agent/port_forward_stream.py]), and why the
    gateway accepts what it resolves.

    The answer of the Kubernetes API is an input; the parser of IP addresses
    and the comparison of a float with an integer are parameters.  A field the
    code converts with [str] must be a string. *)

From stdpp Require Import pretty.
From S2P Require Import Prelude PyString Json PortForwardFrames PortForwardGateway PortForwardAgent.
From coqutil Require Import Datatypes.RecordSettersUsingExistingGetters.
#[global] Open Scope Z_scope.

Inductive resolve_error : Type :=
| PortForwardTargetError (message : string)
| HTTPStatusError
| TypeError
| ForeignField (key : string).

(** What [ipaddress] says of an address. *)
Record ip_address : Type := IpAddress {
  is_unspecified : bool;
  is_loopback : bool;
  is_multicast : bool }.

Section Resolver.
Context (parse_ip : string -> option ip_address) (float_equals : string -> Z -> bool).

Abbreviation R := (result resolve_error).

Definition fail_target {A} (message : string) : R A := Err (PortForwardTargetError message).

(** [str(d.get(key) or default)]. *)
Definition str_field (key default : string) (d : odict json) : R string :=
  match dict_get key d with
  | None | Some JNull => Ok default
  | Some (JStr s) => Ok (if String.eqb s "" then default else s)
  | Some _ => Err (ForeignField key)
  end.

(** [v == n]: a Python boolean is an integer. *)
Definition json_equals (v : option json) (n : Z) : bool :=
  match v with
  | Some (JInt z) => z =? n
  | Some (JBool b) => Z.b2z b =? n
  | Some (JFloat literal) => float_equals literal n
  | _ => false
  end.

(** One declared port: [number] is [containerPort] or [port]. *)
Definition port_declared (number : string) (remote_port : Z) (port : json) : R bool :=
  match port with
  | JObj port =>
      if json_equals (dict_get number port) remote_port
      then protocol ← str_field "protocol" "TCP" port; mret (String.eqb (upper protocol) "TCP")
      else mret false
  | _ => mret false
  end.

(** [any(...)] stops at the first hit. *)
Fixpoint any_item (f : json -> R bool) (items : list json) : R bool :=
  match items with
  | [] => mret false
  | item :: items => hit ← f item; if (hit : bool) then mret true else any_item f items
  end.

(** [any(f(item) for item in d.get(key, []) if isinstance(d.get(key), list))]:
    what cannot be iterated raises, what is no list gives nothing. *)
Definition any_of (f : json -> R bool) (key : string) (d : odict json) : R bool :=
  match dict_get key d with
  | None | Some (JObj _) | Some (JStr _) => mret false
  | Some (JArr items) => any_item f items
  | Some _ => Err TypeError
  end.

Definition resolve_pod (body : odict json) (remote_port : Z) : R ResolvedTcpTarget :=
  match dict_get "metadata" body, dict_get "spec" body, dict_get "status" body with
  | Some (JObj metadata), Some (JObj spec), Some (JObj status) =>
      phase ← str_field "phase" "" status;
      if negb (String.eqb (casefold phase) "running") then fail_target "Pod target is not running"
      else
        let container_declares container :=
          match container with
          | JObj container => any_of (port_declared "containerPort" remote_port) "ports" container
          | _ => mret false
          end in
        declared ← any_of container_declares "containers" spec;
        if negb declared then fail_target "Pod TCP port is no longer declared"
        else
          host ← str_field "podIP" "" status;
          match parse_ip host with
          | None => fail_target "Pod address is unavailable"
          | Some address =>
              if address.(is_unspecified) || address.(is_loopback) || address.(is_multicast)
              then fail_target "Pod address is invalid"
              else
                name ← str_field "name" "" metadata;
                uid ← str_field "uid" "" metadata;
                mret (Target "Pod" name uid host remote_port)
          end
  | _, _, _ => fail_target "Pod target is incomplete"
  end.

Definition resolve_service (body : odict json) (remote_port : Z) : R ResolvedTcpTarget :=
  match dict_get "metadata" body, dict_get "spec" body with
  | Some (JObj metadata), Some (JObj spec) =>
      kind ← str_field "type" "" spec;
      if String.eqb (casefold kind) "externalname" then fail_target "ExternalName services are forbidden"
      else
        declared ← any_of (port_declared "port" remote_port) "ports" spec;
        if negb declared then fail_target "Service TCP port is no longer declared"
        else
          name ← str_field "name" "" metadata;
          namespace ← str_field "namespace" "" metadata;
          uid ← str_field "uid" "" metadata;
          mret (Target "Service" name uid (name +:+ "." +:+ namespace +:+ ".svc") remote_port)
  | _, _ => fail_target "Service target is incomplete"
  end.

(** The resolver's [__call__]: [configured] says whether the base URL and the
    token are there, [status] and [body] are the response. *)
Definition resolve_target (configured : bool) (resource : ResourceRef) (remote_port status : Z) (body : json)
    : R ResolvedTcpTarget :=
  let namespace := default "" resource.(namespace) in
  let kind := casefold resource.(kind) in
  if negb configured || String.eqb namespace ""
  then fail_target "Kubernetes target identity is unavailable"
  else if negb (String.eqb kind "pod") && negb (String.eqb kind "service")
  then fail_target "Unsupported port-forward target kind"
  else if status =? 404 then fail_target "Port-forward target no longer exists"
  else if negb ((200 <=? status) && (status <=? 299)) then Err HTTPStatusError
  else
    match body with
    | JObj body =>
        match dict_get "metadata" body with
        | Some (JObj metadata) =>
            namespace' ← str_field "namespace" "" metadata;
            name' ← str_field "name" "" metadata;
            uid' ← str_field "uid" "" metadata;
            if negb (String.eqb namespace' namespace && String.eqb name' resource.(name)
                     && String.eqb uid' resource.(uid))
            then fail_target "Port-forward target identity changed"
            else if String.eqb kind "pod" then resolve_pod body remote_port
            else resolve_service body remote_port
        | _ => fail_target "Port-forward target identity changed"
        end
    | _ => fail_target "Port-forward target response is invalid"
    end.

Lemma str_field_metadata key d v v' : str_field key "" d = Ok v -> str_field key "" d = Ok v' -> v = v'.
Proof. congruence. Qed.

Lemma resolve_pod_inv body remote_port t :
  resolve_pod body remote_port = Ok t ->
  t.(tg_kind) = "Pod" /\ t.(tg_port) = remote_port
  /\ (exists a, parse_ip t.(tg_host) = Some a
        /\ a.(is_unspecified) = false /\ a.(is_loopback) = false /\ a.(is_multicast) = false)
  /\ exists metadata, dict_get "metadata" body = Some (JObj metadata)
       /\ str_field "name" "" metadata = Ok t.(tg_name) /\ str_field "uid" "" metadata = Ok t.(tg_uid).
Proof.
  unfold resolve_pod. destruct (dict_get "metadata" body) as [[| | | | | |metadata]|]; try done.
  destruct (dict_get "spec" body) as [[| | | | | |spec]|]; try done.
  destruct (dict_get "status" body) as [[| | | | | |status]|]; try done.
  intros (phase & _ & H)%result_bind_inv. destruct (negb _) in H; [done|].
  apply result_bind_inv in H as (declared & _ & H). destruct (negb _) in H; [done|].
  apply result_bind_inv in H as (host & _ & H). destruct (parse_ip host) as [a|] eqn:Ha; [|done].
  destruct (_ || _) eqn:Hbad in H; [done|]. bool_to_prop.
  apply result_bind_inv in H as (name & Hn & H). apply result_bind_inv in H as (uid & Hu & H).
  injection H as <-. simpl. split_and!; eauto 10.
Qed.

Lemma resolve_service_inv body remote_port t :
  resolve_service body remote_port = Ok t ->
  t.(tg_kind) = "Service" /\ t.(tg_port) = remote_port
  /\ exists metadata namespace, dict_get "metadata" body = Some (JObj metadata)
       /\ str_field "name" "" metadata = Ok t.(tg_name) /\ str_field "uid" "" metadata = Ok t.(tg_uid)
       /\ str_field "namespace" "" metadata = Ok namespace
       /\ t.(tg_host) = t.(tg_name) +:+ "." +:+ namespace +:+ ".svc".
Proof.
  unfold resolve_service. destruct (dict_get "metadata" body) as [[| | | | | |metadata]|]; try done.
  destruct (dict_get "spec" body) as [[| | | | | |spec]|]; try done.
  intros (kind & _ & H)%result_bind_inv. destruct (String.eqb _ _) in H; [done|].
  apply result_bind_inv in H as (declared & _ & H). destruct (negb _) in H; [done|].
  apply result_bind_inv in H as (name & Hn & H). apply result_bind_inv in H as (namespace & Hns & H).
  apply result_bind_inv in H as (uid & Hu & H). injection H as <-. simpl. split_and!; eauto 10.
Qed.

(** The agent only opens the very resource the gateway authorized: what
    the resolver returns has its kind, name, UID and port, a pod's address is
    none of the forbidden ones and a service is reached under its own name;
    so the gateway accepts the receipt of every session whose target was
    resolved. *)
Theorem resolved_target_accepted s configured status body t :
  s.(opened_target) = None ->
  resolve_target configured s.(start).(st_resource) s.(start).(st_remote_port) status body = Ok t ->
  receipt_matches s (Opened t.(tg_kind) t.(tg_name) t.(tg_uid) t.(tg_port)) = true
  /\ (t.(tg_kind) = "Pod" -> exists a, parse_ip t.(tg_host) = Some a
        /\ a.(is_unspecified) = false /\ a.(is_loopback) = false /\ a.(is_multicast) = false)
  /\ (t.(tg_kind) = "Service" ->
        t.(tg_host) = s.(start).(st_resource).(name) +:+ "."
                      +:+ default "" s.(start).(st_resource).(namespace) +:+ ".svc").
Proof.
  intros Hnone. set (resource := st_resource (start s)). set (port := st_remote_port (start s)).
  unfold resolve_target. destruct (negb configured || _); [done|].
  destruct (String.eqb (casefold (kind resource)) "pod") eqn:Hpod,
    (String.eqb (casefold (kind resource)) "service") eqn:Hsvc; try done; cbn [negb andb].
  all: destruct (status =? 404); [done|]; destruct (negb _); [done|].
  all: destruct body as [| | | | | |body]; try done.
  all: destruct (dict_get "metadata" body) as [[| | | | | |metadata]|] eqn:Hm; try done.
  all: intros (ns & Hns & H)%result_bind_inv; apply result_bind_inv in H as (nm & Hnm & H);
       apply result_bind_inv in H as (ui & Hui & H); destruct (negb _) eqn:Hid in H; [done|]; bool_to_prop; subst ns nm ui.
  - congruence.
  - apply resolve_pod_inv in H as (Hk & Hp & Hip & m & Hm' & Hn' & Hu').
    rewrite Hm in Hm'. injection Hm' as <-. unfold receipt_matches. simpl. fold resource port.
    rewrite Hk, Hp, Z.eqb_refl, (str_field_metadata _ _ _ _ Hn' Hnm), (str_field_metadata _ _ _ _ Hu' Hui), Hpod.
    rewrite !String.eqb_refl, bool_decide_true by done. split_and!; [done | by eauto | done].
  - apply resolve_service_inv in H as (Hk & Hp & m & ns' & Hm' & Hn' & Hu' & Hns' & Hhost).
    rewrite Hm in Hm'. injection Hm' as <-. unfold receipt_matches. simpl. fold resource port.
    rewrite Hk, Hp, Z.eqb_refl, (str_field_metadata _ _ _ _ Hn' Hnm), (str_field_metadata _ _ _ _ Hu' Hui), Hsvc.
    rewrite !String.eqb_refl, bool_decide_true by done. split_and!; try done.
    intros _. by rewrite Hhost, (str_field_metadata _ _ _ _ Hn' Hnm), (str_field_metadata _ _ _ _ Hns' Hns).
Qed.
End Resolver.

(** A service of the cluster, resolved and accepted. *)
Definition sample_session : BrowserPortForwardSession :=
  new_session (Admission "w1" "c1" "u1" 0)
    (Start "rev-1" (Resource "" "v1" "Service" (Some "shop") "checkout" "uid-1") 8080)
    "sample-session-0001" 0.

Definition sample_body : json :=
  JObj [("metadata", JObj [("namespace", JStr "shop"); ("name", JStr "checkout"); ("uid", JStr "uid-1")]);
        ("spec", JObj [("type", JStr "ClusterIP");
                       ("ports", JArr [JObj [("port", JInt 443)]; JObj [("port", JInt 8080); ("protocol", JStr "tcp")]])])].

Example resolved_target_accepted_witness :
  exists t, resolve_target (fun _ => None) (fun _ _ => false) true sample_session.(start).(st_resource) 8080 200
              sample_body = Ok t
    /\ t.(tg_host) = "checkout.shop.svc"
    /\ receipt_matches sample_session (Opened t.(tg_kind) t.(tg_name) t.(tg_uid) t.(tg_port)) = true.
Proof.
  exists (Target "Service" "checkout" "uid-1" "checkout.shop.svc" 8080).
  split; [reflexivity|]. split; [reflexivity|].
  exact (proj1 (resolved_target_accepted (fun _ => None) (fun _ _ => false) sample_session true 200 sample_body
                  (Target "Service" "checkout" "uid-1" "checkout.shop.svc" 8080) eq_refl eq_refl)).
Defined.
