(* ===== verification/PortForwardTunnel.v ===== *)
(** One port-forward session end to end: the gateway's session, the agent's
    controller and the two directions of the realtime socket between them, each
    a queue.

    The socket holds: when it breaks, or when the agent's receive loop raises,
    both ends give the session up ([PortForwardRuns], [PortForwardAgentRuns]).
    The session is alone on its agent; the sessions of a controller only share
    their number.  Every other event comes in any order: the desktop's
    messages, the agent's handling of what arrived, its readers, its watcher
    and the delivery to the desktop. *)

From stdpp Require Import pretty.
From S2P Require Import Prelude PyString Json PortForwardFrames PortForwardGateway PortForwardRuns.
From S2P Require Import PortForwardAgent PortForwardAgentRuns.
From coqutil Require Import Datatypes.RecordSettersUsingExistingGetters.
#[global] Open Scope Z_scope.

Record tunnel : Type := Tunnel {
  gateway : BrowserPortForwardSession;
  agent_side : option AgentPortForwardSession;
  down : list effect;
  up : list emission }.

(** The controller with this session only, on a socket that holds. *)
Definition world (id : string) (s : option AgentPortForwardSession) : PortForwardController :=
  Controller (match s with Some s => {[id := s]} | None => ∅ end) 0 None.

(** What the gateway put on the socket, as the agent reads it. *)
Definition on_socket (e : effect) : bool := match e with Audit _ _ _ => false | _ => true end.

Definition to_input (e : effect) (resolved : resolution) (connected drained : bool) : stream_input :=
  match e with
  | AgentOpen r => Control (OpenRequest r) resolved connected
  | AgentRequest id generation m => Control (SessionRequest id generation m) resolved connected
  | AgentBytes raw => Binary raw drained
  | Audit _ _ _ => Control ForeignControl resolved connected
  end.

(** The gateway hears the agent while the session is registered. *)
Definition gateway_hears (s : BrowserPortForwardSession) (e : emission) (now : Z)
    : BrowserPortForwardSession * list effect :=
  if s.(done) then (s, [])
  else
    match e with
    | EmitEvent (Some (id, generation)) m =>
        if String.eqb id s.(s_session_id) then handle_agent_event true s (Some generation) m now else (s, [])
    | EmitEvent None _ => (s, [])
    | EmitData raw =>
        match decode_port_forward_data raw with
        | Ok f => if String.eqb f.(session_id) s.(s_session_id)
                  then handle_agent_frame true s f raw now else (s, [])
        | Err _ => (s, [])
        end
    end.

(** What an observer of the agent's socket to the gateway sees of a step. *)
Inductive tunnel_event : Type :=
| DesktopAsks (m : option browser_message)
| DesktopTakes
| AgentTakes (e : effect)
| AgentMoves (i : agent_input)
| GatewayTakes (e : emission).

Definition read_fits (s : AgentPortForwardSession) (cid : Z) (r : target_read) : Prop :=
  match r with
  | ReadBytes data =>
      forall c allowance, s.(a_connections) !! cid = Some c -> c.(reader) = Reading allowance ->
        Z.of_nat (length data) <= allowance
  | _ => True
  end.

(** A label carries what the step put on the two queues. *)
Inductive tunnel_step : tunnel -> tunnel_event * (list effect * list emission) -> tunnel -> Prop :=
| tunnel_desktop now t m :
    t.(gateway).(receiving) = true -> browser_message_ok m = true ->
    let r := browser_receive true t.(gateway) m now in
    tunnel_step t (DesktopAsks m, (filter on_socket r.2, []))
      (Tunnel r.1 t.(agent_side) (t.(down) ++ filter on_socket r.2) t.(up))
| tunnel_delivers t m s' :
    browser_sender t.(gateway) = Some (m, s') ->
    tunnel_step t (DesktopTakes, ([], [])) (Tunnel s' t.(agent_side) t.(down) t.(up))
| tunnel_up now t e rest :
    t.(up) = e :: rest ->
    let r := gateway_hears t.(gateway) e now in
    tunnel_step t (GatewayTakes e, (filter on_socket r.2, []))
      (Tunnel r.1 t.(agent_side) (t.(down) ++ filter on_socket r.2) rest)
| tunnel_down now t e rest resolved connected drained w out :
    t.(down) = e :: rest -> resolution_ok resolved = true ->
    stream_turn (to_input e resolved connected drained) now
      (world t.(gateway).(s_session_id) t.(agent_side)) = (Some tt, w, out) ->
    tunnel_step t (AgentTakes e, ([], out))
      (Tunnel t.(gateway) (w.(a_sessions) !! t.(gateway).(s_session_id)) rest (t.(up) ++ out))
| tunnel_agent t i m w out :
    let id := t.(gateway).(s_session_id) in
    match i with
    | WatchTurn id' => id' = id /\ exists now, m = watch id now
    | ReserveTurn id' cid => id' = id /\ m = reserve_output_credit id cid
    | ReadTurn id' cid r => id' = id /\ (exists now, m = read_target id cid r now)
                            /\ forall s, t.(agent_side) = Some s -> read_fits s cid r
    | SendTurn id' cid => id' = id /\ m = send_frame id cid
    | _ => False
    end ->
    m (world id t.(agent_side)) = (Some tt, w, out) ->
    tunnel_step t (AgentMoves i, ([], out))
      (Tunnel t.(gateway) (w.(a_sessions) !! id) t.(down) (t.(up) ++ out)).

(** A session right after the gateway asked for it ([serve]). *)
Definition opening (a : admission) (start : PortForwardStart) (id : string) (now : Z) : tunnel :=
  let s := new_session a start id now in Tunnel s None [AgentOpen (open_request s)] [].

(** ** The messages of one connection *)

Inductive down_item : Type :=
| DOpen
| DWindow (credit : Z)
| DData (sequence : Z) (data : list byte)
| DOther.

(** The connection a message of the gateway is about. *)
Definition concern (e : effect) : option (Z * down_item) :=
  match e with
  | AgentRequest _ _ (ConnectionOpen cid) => Some (cid, DOpen)
  | AgentRequest _ _ (DesktopWindow cid _ credit) => Some (cid, DWindow credit)
  | AgentRequest _ _ (DesktopHalfClose cid _) | AgentRequest _ _ (ConnectionClose cid) => Some (cid, DOther)
  | AgentBytes raw =>
      match decode_port_forward_data raw with
      | Ok f => Some (f.(connection_id), DData f.(sequence) f.(payload))
      | Err _ => None
      end
  | _ => None
  end.

Definition down_item_of (cid : Z) (e : effect) : list down_item :=
  match concern e with Some (i, item) => if decide (i = cid) then [item] else [] | None => [] end.

Definition down_items (cid : Z) (l : list effect) : list down_item := l ≫= down_item_of cid.

Inductive up_item : Type :=
| UEnd
| UData (size : Z)
| UOther.

Definition up_item_of (cid : Z) (e : emission) : list up_item :=
  match e with
  | EmitEvent _ (ConnectionEnd i _ _ _) => if decide (i = cid) then [UEnd] else []
  | EmitEvent _ (ConnectionOpened i) | EmitEvent _ (AgentWindow i _ _) | EmitEvent _ (AgentHalfClose i _) =>
      if decide (i = cid) then [UOther] else []
  | EmitData raw =>
      match decode_port_forward_data raw with
      | Ok f => if decide (f.(connection_id) = cid) then [UData (Z.of_nat (length f.(payload)))] else []
      | Err _ => []
      end
  | _ => []
  end.

Definition up_items (cid : Z) (l : list emission) : list up_item := l ≫= up_item_of cid.

(** The bytes the desktop sent on the connection since it was last opened, and
    those still on their way. *)
Definition sent_item (acc : list byte) (i : down_item) : list byte :=
  match i with DOpen => [] | DData _ data => acc ++ data | _ => acc end.

Definition sent_bytes (acc : list byte) (l : list down_item) : list byte := fold_left sent_item l acc.

Definition in_flight (l : list down_item) : list byte :=
  l ≫= fun i => match i with DData _ data => data | _ => [] end.

Definition windows (l : list down_item) : Z :=
  foldr (fun i n => match i with DWindow credit => credit + n | _ => n end) 0 l.

Definition up_bytes (l : list up_item) : Z :=
  foldr (fun i n => match i with UData size => size + n | _ => n end) 0 l.

(** The data frames of [l] are numbered from [first] to [next]. *)
Fixpoint numbered (first : Z) (l : list down_item) (next : Z) : Prop :=
  match l with
  | [] => first = next
  | DData q _ :: l => q = first /\ numbered (first + 1) l next
  | _ :: l => numbered first l next
  end.

(** ** Running the agent's handlers in [world] *)

Section Wp.
Context (id : string).

Definition wp {A} (m : M A)
    (Q : option A -> option AgentPortForwardSession -> list emission -> Prop)
    (s : option AgentPortForwardSession) : Prop :=
  exists r s' out, m (world id s) = (r, world id s', out) /\ Q r s' out.

Lemma wp_ret {A} (x : A) Q s : Q (Some x) s [] -> wp (mret x) Q s.
Proof. intros. by exists (Some x), s, []. Qed.

Lemma wp_raise {A} Q s : Q None s [] -> wp (raise : M A) Q s.
Proof. intros. by exists None, s, []. Qed.

Lemma wp_mono {A} (m : M A) (Q Q' : _ -> _ -> _ -> Prop) s :
  wp m Q s -> (forall r s' out, Q r s' out -> Q' r s' out) -> wp m Q' s.
Proof. intros (r & s' & out & E & H) HQ. exists r, s', out. auto. Qed.

Lemma wp_bind {A B} (m : M A) (f : A -> M B) Q s :
  wp m (fun r s1 out1 =>
    match r with
    | Some x => wp (f x) (fun r2 s2 out2 => Q r2 s2 (out1 ++ out2)) s1
    | None => Q None s1 out1
    end) s -> wp (m ≫= f) Q s.
Proof.
  intros (r & s1 & out1 & E & H). unfold wp, mbind, M_bind. rewrite E. destruct r as [x|].
  - destruct H as (r2 & s2 & out2 & E2 & H2). rewrite E2. by exists r2, s2, (out1 ++ out2).
  - by exists None, s1, out1.
Qed.

Lemma wp_catch {A} (m handler : M A) Q s :
  wp m (fun r s1 out1 =>
    match r with
    | Some x => Q (Some x) s1 out1
    | None => wp handler (fun r2 s2 out2 => Q r2 s2 (out1 ++ out2)) s1
    end) s -> wp (catch m handler) Q s.
Proof.
  intros (r & s1 & out1 & E & H). unfold wp, catch. rewrite E. destruct r as [x|].
  - by exists (Some x), s1, out1.
  - destruct H as (r2 & s2 & out2 & E2 & H2). rewrite E2. by exists r2, s2, (out1 ++ out2).
Qed.

Lemma lookup_world s : (world id s).(a_sessions) !! id = s.
Proof. destruct s; simpl; [apply lookup_singleton_eq | apply lookup_empty]. Qed.

Lemma wp_on_session s f Q : wp (f s) Q (Some s) -> wp (on_session id f) Q (Some s).
Proof.
  intros H. apply wp_bind. exists (Some (Some s)), (Some s), []. split.
  - unfold get_session. by rewrite lookup_world.
  - exact H.
Qed.

Lemma wp_on_session_none f Q : Q (Some tt) None [] -> wp (on_session id f) Q None.
Proof. intros H. by exists (Some tt), None, []. Qed.

Lemma wp_on_connection s cid c f Q :
  s.(a_connections) !! cid = Some c -> wp (f s c) Q (Some s) -> wp (on_connection id cid f) Q (Some s).
Proof. intros Hc H. apply wp_on_session. by rewrite Hc. Qed.

Lemma wp_on_connection_none s cid f Q :
  s.(a_connections) !! cid = None -> Q (Some tt) (Some s) [] -> wp (on_connection id cid f) Q (Some s).
Proof. intros Hc H. apply wp_on_session. rewrite Hc. by apply wp_ret. Qed.

Lemma wp_put_session s s' Q : Q (Some tt) (Some s') [] -> wp (put_session id s') Q (Some s).
Proof.
  intros H. exists (Some tt), (Some s'), []. split; [|done].
  transitivity (Some tt, Controller (alter (fun _ => s') id {[id := s]}) 0 None, [] : list emission); [done|].
  by rewrite alter_singleton_eq.
Qed.

Lemma wp_pop_session s Q : Q (Some tt) None [] -> wp (pop_session id) Q (Some s).
Proof.
  intros H. exists (Some tt), None, []. split; [|done].
  transitivity (Some tt, Controller (delete id {[id := s]}) 0 None, [] : list emission); [done|].
  by rewrite delete_singleton_eq.
Qed.

Lemma wp_emit_on s e Q : Q (Some tt) s [e] -> wp (emit_on 0 e) Q s.
Proof. intros H. by exists (Some tt), s, [e]. Qed.

(** The handlers are functions: what [wp] finds is what happens. *)
Lemma wp_det {A} (m : M A) Q s r w out :
  wp m Q s -> m (world id s) = (r, w, out) -> exists s', w = world id s' /\ Q r s' out.
Proof. intros (r' & s' & out' & E & H) E'. rewrite E in E'. simplify_eq. by exists s'. Qed.
End Wp.
