(* ===== verification/PortForwardDelivery.v ===== *)
(** The tunnel delivers: the invariant that ties the gateway's view of a
    connection to the agent's over the messages on their way, and what follows.
    The agent never finds a fault in what the gateway relays, and what a target
    receives is what its desktop sent. *)

From stdpp Require Import pretty.
From S2P Require Import Prelude PyString Json PortForwardFrames PortForwardGateway PortForwardRuns.
From S2P Require Import PortForwardAgent PortForwardAgentRuns PortForwardTunnel.
From coqutil Require Import Datatypes.RecordSettersUsingExistingGetters.
#[global] Open Scope Z_scope.

(** ** What an agent's step does to its connections *)

Definition conn (s : option AgentPortForwardSession) (cid : Z) : option AgentTcpConnection :=
  s ≫= fun s => s.(a_connections) !! cid.

(** The credit an agent's connection holds: free, reserved by its reader, or in
    a frame that is about to leave. *)
Definition held (c : AgentTcpConnection) : Z :=
  c.(output_credit)
  + match c.(reader) with
    | Reading allowance => allowance
    | Emitting raw =>
        match decode_port_forward_data raw with Ok f => Z.of_nat (length f.(payload)) | Err _ => 0 end
    | _ => 0
    end.

Definition no_end (us : list up_item) : Prop := UEnd ∉ us.

(** Same input side. *)
Definition same_input (c c' : AgentTcpConnection) : Prop :=
  c'.(received) = c.(received) /\ c'.(expected_input_sequence) = c.(expected_input_sequence)
  /\ c'.(input_credit) = c.(input_credit).

(** A step that takes nothing from the gateway for this connection. *)
Inductive moves : option AgentTcpConnection -> option AgentTcpConnection -> list up_item -> Prop :=
| moves_none : moves None None []
| moves_on c c' us :
    no_end us -> same_input c c' -> held c' + up_bytes us <= held c -> c'.(reader) <> Crashed ->
    moves (Some c) (Some c') us
| moves_end c us : no_end us -> moves (Some c) None (us ++ [UEnd]).

(** No complaint about the gateway. *)
Definition no_violation (e : emission) : Prop :=
  match e with
  | EmitEvent _ (Error code _ _) => code <> protocol_violation /\ code <> credit_violation
  | _ => True
  end.

Record moved (s : AgentPortForwardSession) (s' : option AgentPortForwardSession) (out : list emission)
    : Prop := {
  mv_same : match s' with
            | Some s' => s'.(request) = s.(request) /\ s'.(a_stream) = s.(a_stream)
            | None => True
            end;
  mv_quiet : Forall no_violation out;
  mv_conn : forall cid, moves (s.(a_connections) !! cid) (conn s' cid) (up_items cid out) }.

Definition running (s : AgentPortForwardSession) : Prop :=
  s.(a_stream) = 0%nat /\ map_Forall (fun _ c => c.(reader) <> Crashed) s.(a_connections).

Lemma up_items_app cid l1 l2 : up_items cid (l1 ++ l2) = up_items cid l1 ++ up_items cid l2.
Proof. apply bind_app. Qed.

Lemma up_bytes_app l1 l2 : up_bytes (l1 ++ l2) = up_bytes l1 + up_bytes l2.
Proof. induction l1 as [|[] l1 IH]; simpl; lia. Qed.

Lemma no_end_app l1 l2 : no_end (l1 ++ l2) <-> no_end l1 /\ no_end l2.
Proof. unfold no_end. rewrite elem_of_app. tauto. Qed.

Lemma no_end_nil : no_end [].
Proof. by intros ?%elem_of_nil. Qed.

Lemma no_end_one u : u <> UEnd -> no_end [u].
Proof. unfold no_end. rewrite list_elem_of_singleton. congruence. Qed.

Lemma moves_refl c : (forall c0, c = Some c0 -> c0.(reader) <> Crashed) -> moves c c [].
Proof.
  intros Hc. destruct c as [c|]; [|constructor]. constructor; [apply no_end_nil | done | simpl; lia | by apply Hc].
Qed.

Lemma moves_trans a b c us vs : moves a b us -> moves b c vs -> moves a c (us ++ vs).
Proof.
  intros [|c1 c2 us' Hn (R & E & I) Hh Hr|c1 us' Hn] Hbc; inversion Hbc; subst; [by constructor | | |].
  - match goal with H : same_input c2 _ |- _ => destruct H as (R' & E' & I') end.
    constructor; [by apply no_end_app | split_and!; congruence | rewrite up_bytes_app; lia | done].
  - rewrite (assoc_L (++)). constructor. by apply no_end_app.
  - rewrite app_nil_r. by constructor.
Qed.

Lemma moved_refl s : running s -> moved s (Some s) [].
Proof. intros [_ H]. constructor; [done | constructor |]. intros cid. apply moves_refl. intros. by eapply H. Qed.

Lemma moved_running s s' out : running s -> moved s (Some s') out -> running s'.
Proof.
  intros [Hs _] [[_ E] _ Hm]. split; [congruence|]. intros cid c Hc. specialize (Hm cid). simpl in Hm.
  rewrite Hc in Hm. by inversion Hm.
Qed.

Lemma moved_trans s s1 s2 out1 out2 :
  moved s (Some s1) out1 -> moved s1 s2 out2 -> moved s s2 (out1 ++ out2).
Proof.
  intros [[R1 S1] Q1 M1] [H2 Q2 M2]. constructor.
  - destruct s2; [|done]. destruct H2. split; congruence.
  - by apply Forall_app.
  - intros cid. rewrite up_items_app. eapply moves_trans; [apply M1 | apply M2].
Qed.

Lemma moved_gone s out1 out2 :
  moved s None out1 -> Forall no_violation out2 -> (forall cid, up_items cid out2 = []) ->
  moved s None (out1 ++ out2).
Proof.
  intros [_ Q1 M1] Q2 U2. constructor; [done | by apply Forall_app |].
  intros cid. rewrite up_items_app, U2, app_nil_r. apply M1.
Qed.

(** Only connection [cid] is concerned. *)
Lemma moved_one s s' cid out :
  running s -> s'.(request) = s.(request) -> s'.(a_stream) = s.(a_stream) -> Forall no_violation out ->
  (forall i, i <> cid -> s'.(a_connections) !! i = s.(a_connections) !! i) ->
  (forall i, i <> cid -> up_items i out = []) ->
  moves (s.(a_connections) !! cid) (s'.(a_connections) !! cid) (up_items cid out) ->
  moved s (Some s') out.
Proof.
  intros [_ Hr] R S Q C U Hm. constructor; [done | done |]. intros i.
  destruct (decide (i = cid)) as [->|Hne]; [done|]. simpl. rewrite C, U by done. apply moves_refl.
  intros. by eapply Hr.
Qed.

(** ** The agent's handlers *)

Section Handlers.
Context (id : string).

Definition turns (m : M unit) (s : AgentPortForwardSession) : Prop :=
  wp id m (fun r s' out => r = Some tt /\ moved s s' out) (Some s).

Lemma wp_then {A B} (m : M A) (f : A -> M B) Q s :
  wp id m (fun r s1 out1 => exists x, r = Some x
    /\ wp id (f x) (fun r2 s2 out2 => Q r2 s2 (out1 ++ out2)) s1) s -> wp id (m ≫= f) Q s.
Proof. intros H. apply wp_bind. eapply wp_mono; [exact H|]. intros r s1 out (x & -> & H1). exact H1. Qed.

Lemma wp_put_then {B} s s1 (f : unit -> M B) Q :
  wp id (f tt) Q (Some s1) -> wp id (put_session id s1 ≫= f) Q (Some s).
Proof. intros H. apply wp_bind, wp_put_session. exact H. Qed.

Lemma wp_emit_then {B} e s (f : unit -> M B) Q :
  wp id (f tt) (fun r s' out => Q r s' (e :: out)) s -> wp id (emit_on 0 e ≫= f) Q s.
Proof. intros H. apply wp_bind, wp_emit_on. exact H. Qed.

Lemma decide_same {A} (x : A) `{!EqDecision A} {B} (a b : B) : (if decide (x = x) then a else b) = a.
Proof. by rewrite decide_True. Qed.

Lemma wp_finish_connection s cid reason :
  running s ->
  wp id (finish_connection id cid reason) (fun r s' out => r = Some tt /\ moved s s' out
    /\ exists s1, s' = Some s1 /\ s1.(a_connections) = delete cid s.(a_connections)) (Some s).
Proof.
  intros Hr. destruct (s.(a_connections) !! cid) as [c|] eqn:Hc.
  - apply (wp_on_connection id s cid c); [done|]. apply wp_put_then.
    assert (Hreader : reader c <> Crashed) by (by eapply Hr).
    apply wp_bind. destruct (reader c); try done; apply wp_ret; apply wp_put_then; unfold emit_event; simpl;
      rewrite (proj1 Hr); apply wp_emit_on; (split; [done|]); (split; [|by eexists]);
      (apply (moved_one _ _ cid); simpl; try done;
        [by repeat constructor | by intros; rewrite lookup_delete_ne
        | by intros; unfold up_items; simpl; rewrite decide_False
        | rewrite Hc, lookup_delete_eq; unfold up_items; simpl; rewrite decide_same;
          apply (moves_end _ []), no_end_nil ]).
  - apply wp_on_connection_none; [done|]. split; [done|]. split; [by apply moved_refl|].
    exists s. by rewrite delete_id.
Qed.

Lemma turns_finish_connection s cid reason : running s -> turns (finish_connection id cid reason) s.
Proof.
  intros Hr. eapply wp_mono; [by apply wp_finish_connection|]. intros r s' out (-> & Hm & _). done.
Qed.

(** An event that concerns no connection and is no complaint. *)
Lemma moved_say s e : running s -> no_violation e -> (forall cid, up_items cid [e] = []) -> moved s (Some s) [e].
Proof.
  intros Hr He Hu. constructor; [done | by repeat constructor |]. intros cid. rewrite Hu. apply moves_refl.
  intros. by eapply Hr.
Qed.

Lemma turns_trans m s s1 out1 Q :
  moved s (Some s1) out1 -> turns m s1 ->
  (forall s' out, moved s s' (out1 ++ out) -> Q (Some tt) s' out) -> wp id m Q (Some s1).
Proof.
  intros Hm Ht HQ. eapply wp_mono; [exact Ht|]. intros r s' out [-> Hm']. apply HQ. by eapply moved_trans.
Qed.

Lemma turns_fail_connection s cid code :
  running s -> code <> protocol_violation -> code <> credit_violation -> turns (fail_connection id cid code) s.
Proof.
  intros Hr H1 H2. apply wp_bind, wp_on_session. unfold emit_event. rewrite (proj1 Hr). apply wp_emit_on.
  set (e := EmitEvent _ _).
  apply (turns_trans _ s s [e]); [by apply moved_say | by apply turns_finish_connection|]. done.
Qed.

Lemma wp_finish_each l : forall s reason, running s ->
  wp id (for_each (fun cid => finish_connection id cid reason) l)
    (fun r s' out => r = Some tt /\ moved s s' out
      /\ exists s1, s' = Some s1 /\ forall cid, cid ∈ l -> s1.(a_connections) !! cid = None) (Some s).
Proof.
  induction l as [|cid l IH]; intros s reason Hr; simpl.
  - apply wp_ret. split; [done|]. split; [by apply moved_refl|]. exists s. split; [done|].
    by intros ? ?%elem_of_nil.
  - apply wp_then. eapply wp_mono; [by apply wp_finish_connection|].
    intros r s1 out1 (-> & Hm1 & s1' & -> & Hd). exists tt. split; [done|].
    eapply wp_mono; [apply IH; by eapply moved_running|].
    intros r s2 out2 (-> & Hm2 & s2' & -> & Hl). split; [done|]. split; [by eapply moved_trans|].
    exists s2'. split; [done|]. intros i [->|Hi]%elem_of_cons; [|by apply Hl].
    pose proof (mv_conn _ _ _ Hm2 cid) as Hi. rewrite Hd, lookup_delete_eq in Hi. simpl in Hi. by inversion Hi.
Qed.

Lemma turns_finish_session s reason : running s -> turns (finish_session id reason) s.
Proof.
  intros Hr. apply wp_on_session. destruct (a_done s); [apply wp_ret; by split; [|apply moved_refl]|].
  apply wp_put_then. set (s0 := s <| a_done := true |>).
  assert (Hm0 : moved s (Some s0) []) by (by apply (moved_one _ _ 0); try done; apply moves_refl; intros; eapply Hr).
  apply wp_then. eapply wp_mono; [apply (wp_finish_each _ s0 reason); exact Hr|].
  intros r s1 out1 (-> & Hm1 & s1' & -> & Hl). exists tt. split; [done|].
  assert (Hgone : moved s None out1).
  { constructor; [done | apply Hm1 |]. intros cid. pose proof (mv_conn _ _ _ Hm1 cid) as Hc. simpl in Hc |- *.
    destruct (a_connections s1' !! cid) as [c|] eqn:E; [|exact Hc]. rewrite Hl in E; [done|].
    apply list_elem_of_fmap. inversion Hc as [|c0 c1 us|]; subst.
    exists (cid, c0). split; [done|]. by apply elem_of_map_to_list. }
  apply wp_on_session, wp_bind, wp_pop_session.
  unfold emit_event. rewrite (proj1 (moved_running _ _ _ Hr (moved_trans _ _ _ _ _ Hm0 Hm1))).
  apply wp_emit_on. split; [done|]. simpl. apply moved_gone; [done | by repeat constructor | done].
Qed.

Lemma turns_watch s now : running s -> turns (watch id now) s.
Proof.
  intros Hr. apply wp_on_session.
  repeat case_match; try (apply wp_ret; by split; [|apply moved_refl]); by apply turns_finish_session.
Qed.
(** An assignment to one connection. *)
Lemma moved_set s cid c c' out :
  running s -> s.(a_connections) !! cid = Some c -> Forall no_violation out ->
  (forall i, i <> cid -> up_items i out = []) -> moves (Some c) (Some c') (up_items cid out) ->
  moved s (Some (set_tcp s cid c')) out
  /\ forall now, moved s (Some ((set_tcp s cid c') <| last_activity := now |>)) out.
Proof.
  intros Hr Hc Hq Hu Hm. split; [|intros now]; apply (moved_one _ _ cid); simpl; try done;
    solve [by intros; rewrite lookup_insert_ne | by rewrite Hc, lookup_insert_eq].
Qed.

Lemma turns_reserve s cid : running s -> turns (reserve_output_credit id cid) s.
Proof.
  intros Hr. destruct (s.(a_connections) !! cid) as [c|] eqn:Hc;
    [|apply wp_on_connection_none; [done|]; split; [done | by apply moved_refl]].
  apply (wp_on_connection _ _ _ c); [done|].
  destruct (reader c) eqn:Hreader; try (apply wp_ret; by split; [|apply moved_refl]).
  case_match; [apply wp_ret; by split; [|apply moved_refl]|].
  apply wp_put_session. split; [done|]. eapply moved_set; try done.
  constructor; [apply no_end_nil | done | | done]. unfold held. rewrite Hreader. simpl. unfold const. lia.
Qed.

Lemma turns_reader_turn s cid body :
  wp id body (fun r s' out => moved s s' out /\ (r = None -> is_Some s')) (Some s) -> running s ->
  turns (reader_turn id cid body) s.
Proof.
  intros Hb Hr. apply wp_catch, wp_catch. eapply wp_mono; [exact Hb|]. intros [[]|] s1 out1 [Hm Hs1]; [done|].
  destruct (Hs1 eq_refl) as [s1' ->].
  eapply wp_mono; [apply turns_fail_connection; [by eapply moved_running | done | done]|].
  intros r s2 out2 [-> Hm2]. split; [done|]. by eapply moved_trans.
Qed.

Lemma turns_read_eof s cid c allowance :
  running s -> s.(a_connections) !! cid = Some c -> c.(reader) = Reading allowance ->
  turns (read_eof id s cid (restored c allowance)) s.
Proof.
  intros Hr Hc Hreader. unfold read_eof, emit_event. apply wp_put_then. rewrite (proj1 Hr).
  apply wp_emit_then. set (s1 := set_tcp _ _ _). set (e := EmitEvent _ _).
  assert (Hm : moved s (Some s1) [e]).
  { eapply moved_set; try done; [by repeat constructor | by intros; unfold up_items; simpl; rewrite decide_False |].
    unfold up_items. simpl. rewrite decide_same. apply moves_on; [by apply no_end_one | done | | done].
    unfold held. rewrite Hreader. simpl. lia. }
  case_match.
  - eapply (turns_trans _ s s1 [e]); [done | apply turns_finish_connection; by eapply moved_running | done].
  - apply wp_ret. by split.
Qed.

Lemma turns_read_bytes s cid c c1 data now :
  running s -> s.(a_connections) !! cid = Some c -> agent_session_ok id s ->
  same_input c c1 -> c1.(output_credit) + Z.of_nat (length data) <= held c ->
  c1.(t_desktop_to_target_bytes) = c.(t_desktop_to_target_bytes) ->
  wp id (read_bytes id s cid c1 data now) (fun r s' out => moved s s' out /\ (r = None -> is_Some s')) (Some s).
Proof.
  intros Hr Hc Hok Hs Hh Hd. unfold read_bytes. apply wp_put_then.
  set (c2 := c1 <| reader := Waiting |>). set (s1 := set_tcp s cid c2).
  assert (Hset : forall c', same_input c c' -> held c' <= held c -> c'.(reader) <> Crashed ->
    moved s (Some (set_tcp s cid c')) []
    /\ forall now, moved s (Some ((set_tcp s cid c') <| last_activity := now |>)) []).
  { intros c' H1 H2 H3. eapply moved_set; try done. constructor; [apply no_end_nil | done | simpl; lia | done]. }
  assert (Hm : moved s (Some s1) []) by (apply Hset; [done | unfold held at 1; simpl; lia | done]).
  destruct (_ <? _).
  - eapply (turns_trans _ s s1 []); [done | apply turns_finish_connection; by eapply moved_running | by split].
  - destruct (make_frame _) as [frame|] eqn:Hf; [|apply wp_raise; by split; [|eauto]].
    apply make_frame_inv in Hf as [-> Hf]. apply wp_put_then.
    destruct (encode_port_forward_data _) as [raw|] eqn:Hraw.
    + apply wp_put_session. split; [|done]. apply Hset; [done | | done].
      unfold held at 1. simpl. unfold const. rewrite (decode_encode _ _ Hf Hraw). simpl. lia.
    + apply wp_raise. split; [|eauto]. apply Hset; [done | unfold held at 1; simpl; lia | done].
Qed.

Lemma turns_read_target s cid r now :
  running s -> agent_session_ok id s -> read_fits s cid r -> turns (read_target id cid r now) s.
Proof.
  intros Hr Hok Hfits. destruct (s.(a_connections) !! cid) as [c|] eqn:Hc;
    [|apply wp_on_connection_none; [done|]; split; [done | by apply moved_refl]].
  apply (wp_on_connection _ _ _ c); [done|].
  destruct (reader c) as [|allowance| | |] eqn:Hreader; try (apply wp_ret; by split; [|apply moved_refl]).
  apply turns_reader_turn; [|done]. destruct r as [data| |].
  - specialize (Hfits c allowance Hc Hreader). apply (turns_read_bytes _ _ c); try done; [by case_match| |by case_match].
    unfold held. rewrite Hreader. case_match; bool_to_prop; simpl; lia.
  - eapply wp_mono; [by apply (turns_read_eof _ _ c)|]. intros r s' out [-> Hm]. by split.
  - apply wp_raise. split; [by apply moved_refl | eauto].
Qed.

Lemma turns_send_frame s cid : running s -> agent_session_ok id s -> turns (send_frame id cid) s.
Proof.
  intros Hr Hok. destruct (s.(a_connections) !! cid) as [c|] eqn:Hc;
    [|apply wp_on_connection_none; [done|]; split; [done | by apply moved_refl]].
  apply (wp_on_connection _ _ _ c); [done|].
  destruct (reader c) as [| |raw| |] eqn:Hreader; try (apply wp_ret; by split; [|apply moved_refl]).
  apply turns_reader_turn; [|done]. rewrite (proj1 Hr). apply wp_emit_then.
  apply (wp_on_connection _ _ _ c); [done|]. apply wp_put_session. split; [|done].
  pose proof (to_allowance _ _ _ (so_connections _ _ Hok _ _ Hc)) as Hraw. rewrite Hreader in Hraw.
  destruct Hraw as (f & Hf & _ & _ & <- & _).
  eapply moved_set; try done; [by repeat constructor | | ].
  - intros i Hi. unfold up_items. simpl. by rewrite Hf, decide_False.
  - unfold up_items. simpl. rewrite Hf, decide_same.
    apply moves_on; [by apply no_end_one | done | | done].
    unfold held. rewrite Hreader, Hf. simpl. lia.
Qed.
(** *** What arrives from the gateway *)

(** The message finds the connection as the gateway thinks it is. *)
Definition welcome (i : down_item) (a : option AgentTcpConnection) : Prop :=
  match i, a with
  | DOpen, a => a = None
  | DWindow credit, Some c => c.(output_credit) + credit <= PORT_FORWARD_CREDIT_WINDOW_BYTES
  | DData q data, Some c => q = c.(expected_input_sequence) /\ Z.of_nat (length data) <= c.(input_credit)
  | _, _ => True
  end.

Inductive takes (credit : Z) : down_item -> option AgentTcpConnection -> option AgentTcpConnection ->
    list up_item -> Prop :=
| takes_refused i : takes credit i None None []
| takes_open us : no_end us -> up_bytes us = 0 -> takes credit DOpen None (Some (new_tcp credit)) us
| takes_window c c' granted :
    same_input c c' -> held c' <= held c + granted -> c'.(reader) <> Crashed ->
    takes credit (DWindow granted) (Some c) (Some c') []
| takes_data c c' q data us :
    c'.(received) = c.(received) ++ data ->
    c'.(expected_input_sequence) = c.(expected_input_sequence) + 1 ->
    c'.(input_credit) = c.(input_credit) -> held c' = held c -> c'.(reader) <> Crashed ->
    no_end us -> up_bytes us = 0 -> takes credit (DData q data) (Some c) (Some c') us
| takes_data_end c q data us : no_end us -> takes credit (DData q data) (Some c) None (us ++ [UEnd])
| takes_other c a' us : moves (Some c) a' us -> takes credit DOther (Some c) a' us.

Record took (s : AgentPortForwardSession) (cid : Z) (i : down_item) (s' : option AgentPortForwardSession)
    (out : list emission) : Prop := {
  tk_same : match s' with
            | Some s' => s'.(request) = s.(request) /\ s'.(a_stream) = s.(a_stream)
            | None => True
            end;
  tk_quiet : Forall no_violation out;
  tk_others : forall j, j <> cid -> moves (s.(a_connections) !! j) (conn s' j) (up_items j out);
  tk_conn : takes s.(request).(initial_credit_bytes) i (s.(a_connections) !! cid) (conn s' cid)
              (up_items cid out) }.

Lemma took_one s s' cid i out :
  running s -> s'.(request) = s.(request) -> s'.(a_stream) = s.(a_stream) -> Forall no_violation out ->
  (forall j, j <> cid -> s'.(a_connections) !! j = s.(a_connections) !! j) ->
  (forall j, j <> cid -> up_items j out = []) ->
  takes s.(request).(initial_credit_bytes) i (s.(a_connections) !! cid) (s'.(a_connections) !! cid)
    (up_items cid out) ->
  took s cid i (Some s') out.
Proof.
  intros [_ Hr] R S Q C U Ht. constructor; [done | done | | done]. intros j Hne. simpl. rewrite C, U by done.
  apply moves_refl. intros. by eapply Hr.
Qed.

Lemma took_nothing s cid i out :
  running s -> s.(a_connections) !! cid = None -> Forall no_violation out -> (forall j, up_items j out = []) ->
  took s cid i (Some s) out.
Proof. intros Hr Hc Q U. apply took_one; try done. rewrite Hc, U. constructor. Qed.

Lemma quiet_one e : no_violation e -> Forall no_violation [e].
Proof. by constructor. Qed.

Lemma took_other s cid s' out :
  is_Some (s.(a_connections) !! cid) -> moved s s' out -> took s cid DOther s' out.
Proof.
  intros [c Hc] [H1 H2 H3]. constructor; try done. rewrite Hc. constructor. rewrite <- Hc. apply H3.
Qed.

Abbreviation takes_turn cid i m s := (wp id m (fun r s' out => r = Some tt -> took s cid i s' out) (Some s)).

Lemma takes_open_connection s cid connected now :
  running s -> s.(a_connections) !! cid = None -> takes_turn cid DOpen (open_connection id cid connected now) s.
Proof.
  intros Hr Hc. apply wp_on_session. rewrite bool_decide_false by (rewrite Hc; by intros []).
  case_match; [rewrite (proj1 Hr); apply wp_emit_on; intros _; apply took_nothing; [done | done | by apply quiet_one | done]|].
  case_match; [rewrite (proj1 Hr); apply wp_emit_on; intros _; apply took_nothing; [done | done | by apply quiet_one | done]|].
  apply wp_put_then. unfold emit_event. rewrite (proj1 Hr). apply wp_emit_then, wp_emit_on. intros _.
  apply took_one; simpl; try done.
  - by repeat constructor.
  - intros. by rewrite lookup_insert_ne.
  - intros. unfold up_items. simpl. by rewrite !decide_False.
  - rewrite Hc, lookup_insert_eq. unfold up_items. simpl. rewrite !decide_same.
    constructor; [|done]. unfold no_end. simpl. set_solver.
Qed.

Lemma takes_grant s cid credit :
  running s -> welcome (DWindow credit) (s.(a_connections) !! cid) ->
  takes_turn cid (DWindow credit) (grant_output_credit id cid target_to_desktop credit) s.
Proof.
  intros Hr Hw. destruct (s.(a_connections) !! cid) as [c|] eqn:Hc; simpl in Hw;
    [|apply wp_on_connection_none; [done|]; intros _; by apply took_nothing].
  apply (wp_on_connection _ _ _ c); [done|]. simpl.
  rewrite (proj2 (Z.ltb_ge _ _)) by lia. apply wp_put_session. intros _.
  apply took_one; simpl; try done.
  - intros. by rewrite lookup_insert_ne.
  - rewrite Hc, lookup_insert_eq. apply takes_window; [done | unfold held; simpl; lia | exact (proj2 Hr cid c Hc)].
Qed.

Lemma takes_half_close s cid :
  running s -> takes_turn cid DOther (half_close id cid desktop_to_target) s.
Proof.
  intros Hr. destruct (s.(a_connections) !! cid) as [c|] eqn:Hc;
    [|apply wp_on_connection_none; [done|]; intros _; by apply took_nothing].
  apply (wp_on_connection _ _ _ c); [done|]. simpl. apply wp_put_then. set (s1 := set_tcp _ _ _).
  assert (Hm : moved s (Some s1) []).
  { eapply moved_set; try done. apply moves_on; [apply no_end_nil | done | | exact (proj2 Hr cid c Hc)].
    unfold held. simpl. lia. }
  case_match.
  - eapply (turns_trans _ s s1 []); [done | apply turns_finish_connection; by eapply moved_running |].
    intros s' out Hm' _. by apply took_other.
  - apply wp_ret. intros _. by apply took_other.
Qed.

Lemma takes_close s cid : running s -> takes_turn cid DOther (finish_connection id cid closed_reason) s.
Proof.
  intros Hr. destruct (s.(a_connections) !! cid) as [c|] eqn:Hc;
    [|apply wp_on_connection_none; [done|]; intros _; by apply took_nothing].
  eapply wp_mono; [by apply turns_finish_connection|]. intros r s' out [_ Hm] _. by apply took_other.
Qed.

(** The connection ends while its data arrives. *)
Lemma took_data_end s cid c q data s' out :
  s.(a_connections) !! cid = Some c -> moved s s' out -> conn s' cid = None -> took s cid (DData q data) s' out.
Proof.
  intros Hc [H1 H2 H3] Hn. constructor; try done. specialize (H3 cid). rewrite Hc, Hn in H3 |- *.
  inversion H3; subst. by constructor.
Qed.

Lemma takes_write_target s cid c data drained now :
  running s -> s.(a_connections) !! cid = Some c ->
  takes_turn cid (DData c.(expected_input_sequence) data) (write_target id s cid c data drained now) s.
Proof.
  intros Hr Hc. unfold write_target. apply wp_put_then. case_match; [by apply wp_raise|].
  apply wp_put_then. match goal with |- wp _ _ _ (Some ?x) => set (s2 := x) end. case_match.
  - (* the write failed: the connection ends *)
    assert (Hr2 : running s2).
    { split; [apply Hr|]. apply map_Forall_insert_2; [exact (proj2 Hr cid c Hc) | apply Hr]. }
    apply wp_bind, wp_on_session. unfold emit_event. simpl. rewrite (proj1 Hr). apply wp_emit_on.
    eapply wp_mono; [by apply wp_finish_connection|].
    intros r s' out (_ & Hm & s3 & -> & Hd) _.
    apply (took_data_end _ _ c); [done | | by simpl; rewrite Hd; apply lookup_delete_eq].
    destruct Hm as [[R S] Q M]. constructor; [done | by constructor |]. intros j. specialize (M j). simpl in M |- *.
    destruct (decide (j = cid)) as [->|Hne].
    + rewrite Hd, lookup_delete_eq in M |- *. rewrite lookup_insert_eq in M. rewrite Hc. inversion M; subst.
      change (up_items cid (?e :: out)) with (up_items cid [e] ++ up_items cid out). simpl.
      by constructor.
    + by rewrite lookup_insert_ne in M.
  - apply wp_put_then. unfold emit_event. rewrite (proj1 Hr). apply wp_emit_on. intros _.
    apply took_one; simpl; try done.
    + by repeat constructor.
    + intros. by rewrite !lookup_insert_ne.
    + intros. unfold up_items. simpl. by rewrite decide_False.
    + rewrite Hc, lookup_insert_eq. unfold up_items. simpl. rewrite decide_same.
      constructor; simpl; try done; [lia | exact (proj2 Hr cid c Hc) | by apply no_end_one].
Qed.
Lemma takes_handle_data s raw f drained now :
  running s -> decode_port_forward_data raw = Ok f -> f.(session_id) = id ->
  f.(generation) = s.(request).(op_generation) -> f.(direction) = desktop_to_target ->
  welcome (DData f.(sequence) f.(payload)) (s.(a_connections) !! f.(connection_id)) ->
  wp id (handle_data raw drained now) (fun r s' out => (r = Some true \/ r = None) /\ (is_Some r ->
    took s f.(connection_id) (DData f.(sequence) f.(payload)) s' out)) (Some s).
Proof.
  intros Hr Hf Hid Hg Hdir Hw. unfold handle_data. rewrite Hf, Hid. apply wp_bind.
    destruct (s.(a_connections) !! f.(connection_id)) as [c|] eqn:Hc;
      [|apply wp_on_connection_none; [done|]; apply wp_ret; split; [by left|]; intros _; by apply took_nothing].
    apply (wp_on_connection _ _ _ c); [done|]. destruct Hw as [Hseq Hcredit].
    rewrite Hg, Z.eqb_refl, Hdir, Hseq, Z.eqb_refl, (proj2 (Z.ltb_ge _ _)) by lia. cbn [negb bool_decide].
    rewrite bool_decide_true by done. cbn [negb].
    destruct (_ <? _).
    - eapply wp_mono; [by apply wp_finish_connection|]. intros r s' out (-> & Hm & s1 & -> & Hd).
      apply wp_ret. split; [by left|]. intros _. rewrite app_nil_r.
      apply (took_data_end _ _ c); [done | done |]. simpl. rewrite Hd. apply lookup_delete_eq.
    - eapply wp_mono; [by apply (takes_write_target s _ c)|]. intros [[]|] s' out Ht; simpl in Ht |- *.
      + apply wp_ret. split; [by left|]. intros _. rewrite app_nil_r. by apply Ht.
      + split; [by right|]. by intros [].
Qed.

(** A message of this session's gateway. *)
Definition addressed (generation' : Z) (e : effect) : Prop :=
  match e with
  | AgentRequest id' g m =>
      id' = id /\ g = generation' /\ desktop_request_ok m = true
      /\ match m with
         | DesktopWindow _ direction _ => direction = target_to_desktop
         | DesktopHalfClose _ direction => direction = desktop_to_target
         | _ => True
         end
  | AgentBytes raw =>
      exists f, decode_port_forward_data raw = Ok f /\ f.(session_id) = id
        /\ f.(generation) = generation' /\ f.(direction) = desktop_to_target
  | _ => False
  end.

Lemma agent_takes s e resolved connected drained now :
  running s -> addressed s.(request).(op_generation) e ->
  (forall cid i, concern e = Some (cid, i) -> welcome i (s.(a_connections) !! cid)) ->
  wp id (stream_turn (to_input e resolved connected drained) now)
    (fun r s' out => r = Some tt ->
       match concern e with Some (cid, i) => took s cid i s' out | None => moved s s' out end) (Some s).
Proof.
  intros Hr He Hw. destruct e as [?|id' g m|raw|]; try done; simpl in He.
  - destruct He as (-> & -> & Hok & Hdir). apply wp_bind, wp_bind, wp_on_session. simpl. rewrite Z.eqb_refl.
    cbn [negb].
    eapply (wp_mono _ _ (fun r s' out => r = Some tt ->
      match concern (AgentRequest id (op_generation (request s)) m) with
      | Some (cid, i) => took s cid i s' out | None => moved s s' out end)).
    + destruct m; simpl in *; subst.
      * apply takes_open_connection; [done | by apply (Hw _ DOpen)].
      * apply takes_grant; [done | by apply Hw].
      * by apply takes_half_close.
      * by apply takes_close.
      * eapply wp_mono; [by apply turns_finish_session|]. by intros r s' out [_ Hm].
    + intros [[]|] s' out H; [|done]. apply wp_ret, wp_ret. intros _. rewrite !app_nil_r. by apply H.
  - destruct He as (f & Hf & Hid & Hg & Hdir). simpl in Hw |- *. rewrite Hf in Hw |- *.
    apply wp_bind. eapply wp_mono; [apply (takes_handle_data s raw f drained now Hr Hf Hid Hg Hdir), Hw; done|].
    intros r s' out [[->| ->] H]; [|done]. apply wp_ret. intros _. rewrite app_nil_r. apply H. eauto.
Qed.

(** Without the session the agent does nothing. *)
Lemma agent_ignores generation' e resolved connected drained now :
  addressed generation' e ->
  wp id (stream_turn (to_input e resolved connected drained) now)
    (fun r s' out => s' = None /\ out = []) None.
Proof.
  intros He. destruct e as [?|id' g m|raw|]; try done; simpl in He.
  - destruct He as (-> & -> & _). apply wp_bind, wp_bind, wp_on_session_none. by apply wp_ret, wp_ret.
  - destruct He as (f & Hf & Hid & _). apply wp_bind. unfold handle_data. rewrite Hf, Hid.
    apply wp_bind, wp_on_session_none, wp_ret. by apply wp_ret.
Qed.

Lemma agent_opens r resolved connected drained now :
  r.(op_session_id) = id ->
  wp id (stream_turn (to_input (AgentOpen r) resolved connected drained) now)
    (fun _ s' out => Forall no_violation out /\ (forall cid, up_items cid out = [])
       /\ match s' with
          | Some s' => s'.(request) = r /\ s'.(a_stream) = 0%nat /\ s'.(a_connections) = ∅
          | None => True
          end) None.
Proof.
  intros Hid. apply wp_bind, wp_bind.
  assert (Hsay : forall e, no_violation e -> (forall cid, up_items cid [e] = []) ->
    wp id (emit e) (fun _ s' out => Forall no_violation out /\ (forall cid, up_items cid out = []) /\ s' = None) None).
  { intros e He Hu. exists (Some tt), None, [e]. split_and!; try done. by apply quiet_one. }
  eapply (wp_mono _ _ (fun _ s' out => Forall no_violation out /\ (forall cid, up_items cid out = [])
       /\ match s' with
          | Some s' => s'.(request) = r /\ s'.(a_stream) = 0%nat /\ s'.(a_connections) = ∅
          | None => True
          end)).
  - destruct resolved as [t| |].
    + unfold open_session, wp. simpl. rewrite Hid. eexists _, (Some (AgentSession r t 0 now now ∅ 0 0 false)), _.
      split; [reflexivity|]. split_and!; try done. by apply quiet_one.
    + destruct (Hsay (error_of r timeout "Target validation timed out." true)) as (x & s' & out & E & H1 & H2 & ->);
        [done..|]. exists x, None, out. split; [|done]. exact E.
    + destruct (Hsay (error_of r invalid_target "Target validation failed." false)) as (x & s' & out & E & H1 & H2 & ->);
        [done..|]. exists x, None, out. split; [|done]. exact E.
  - intros [[]|] s' out H; [|exact H]. apply wp_ret, wp_ret. by rewrite !app_nil_r.
Qed.
End Handlers.
