(* ===== verification/PortForwardRelay.v ===== *)
(** The tunnel end to end: what the gateway relays, the link invariant between
    the two ends of a connection, and the theorems about runs. *)

From stdpp Require Import pretty.
From S2P Require Import Prelude PyString Json PortForwardFrames PortForwardGateway PortForwardRuns.
From S2P Require Import PortForwardAgent PortForwardAgentRuns PortForwardTunnel PortForwardDelivery.
From coqutil Require Import Datatypes.RecordSettersUsingExistingGetters.
#[global] Open Scope Z_scope.

(** ** What the gateway relays *)

(** One step of the gateway on one connection, and what it sends about it. *)
Inductive relays : option PortForwardConnectionState -> option PortForwardConnectionState ->
    list down_item -> Prop :=
| relays_same c : relays c c []
| relays_open : relays None (Some new_connection) [DOpen]
| relays_window c c' credit :
    0 <= credit -> c'.(target_credit) = c.(target_credit) + credit ->
    c'.(next_desktop_sequence) = c.(next_desktop_sequence) ->
    relays (Some c) (Some c') [DWindow credit]
| relays_data c c' data :
    Z.of_nat (length data) <= MAX_PORT_FORWARD_FRAME_BYTES -> c'.(target_credit) = c.(target_credit) ->
    c'.(next_desktop_sequence) = c.(next_desktop_sequence) + 1 ->
    relays (Some c) (Some c') [DData c.(next_desktop_sequence) data]
| relays_other c c' :
    c'.(target_credit) = c.(target_credit) -> c'.(next_desktop_sequence) = c.(next_desktop_sequence) ->
    relays (Some c) (Some c') [DOther].

(** What one message of the agent does to the gateway's side. *)
Inductive heard : option PortForwardConnectionState -> option PortForwardConnectionState ->
    list up_item -> Prop :=
| heard_same c us : heard c c us
| heard_change c c' us :
    c'.(next_desktop_sequence) = c.(next_desktop_sequence) ->
    c'.(target_credit) + up_bytes us = c.(target_credit) -> heard (Some c) (Some c') us
| heard_end c : heard (Some c) None [UEnd].

(** Nothing but a [Close] goes out. *)
Definition hushed (s : BrowserPortForwardSession) (effects : list effect) : Prop :=
  Forall (fun e => e = AgentRequest s.(s_session_id) s.(s_generation) Close) (filter on_socket effects).

Definition sockets (effects : list effect) : list effect := filter on_socket effects.

Lemma down_items_app cid l1 l2 : down_items cid (l1 ++ l2) = down_items cid l1 ++ down_items cid l2.
Proof. apply bind_app. Qed.

Lemma hushed_items s effects cid : hushed s effects -> down_items cid (sockets effects) = [].
Proof.
  unfold hushed, sockets. induction 1 as [|e l -> _ IH]; [done|]. unfold down_items in *. simpl. exact IH.
Qed.

Lemma hushed_addressed s effects :
  hushed s effects -> Forall (addressed s.(s_session_id) s.(s_generation)) (sockets effects).
Proof. intros H. eapply Forall_impl; [exact H|]. by intros e ->. Qed.

Lemma sockets_app l1 l2 : sockets (l1 ++ l2) = sockets l1 ++ sockets l2.
Proof. apply filter_app. Qed.

Lemma hushed_app s l1 l2 : hushed s l1 -> hushed s l2 -> hushed s (l1 ++ l2).
Proof. unfold hushed. rewrite filter_app. apply Forall_app_2. Qed.

Lemma hushed_identity s s0 l : identity s0 = identity s -> hushed s0 l -> hushed s l.
Proof. unfold hushed, identity. intros I. by replace s.(s_session_id) with s0.(s_session_id) by congruence;
  replace s.(s_generation) with s0.(s_generation) by congruence. Qed.

(** The connections stay as they are. *)
Definition ended (s : BrowserPortForwardSession) (r : BrowserPortForwardSession * list effect) : Prop :=
  r.1.(connections) = s.(connections) /\ hushed s r.2.

Lemma record_of_hushed s s' m now : hushed s [record_of s' m now].
Proof. unfold hushed, record_of. repeat case_match; constructor. Qed.

Lemma finish_ended s m now : ended s (finish s m now).
Proof.
  unfold finish. case_match; [by repeat constructor|].
  unfold offer. case_match; simpl; unfold record_finished; simpl;
    destruct m; case_match; (split; [done|]); constructor.
Qed.

Lemma close_agent_hushed s : hushed s (close_agent true s).
Proof. by repeat constructor. Qed.

Lemma protocol_error_ended s message now : ended s (protocol_error true s message now).
Proof.
  destruct (finish_ended s (Error protocol_violation message false) now) as [C H].
  split; [done|]. by apply (hushed_app s (close_agent true s)); [apply close_agent_hushed|].
Qed.

Lemma close_with_reason_ended s reason now : ended s (close_with_reason true s reason now).
Proof.
  destruct (finish_ended s (end_event s reason) now) as [C H].
  split; [done|]. by apply (hushed_app s (close_agent true s)); [apply close_agent_hushed|].
Qed.

Lemma deliver_ended s m now : ended s (deliver true s m now).
Proof.
  unfold deliver, offer. destruct (_ <? _); [by repeat constructor | by apply protocol_error_ended].
Qed.

Lemma loop_head_ended s now : ended s (loop_head true s now).
Proof.
  unfold loop_head. repeat case_match; [by repeat constructor | | | by repeat constructor].
  - apply (close_with_reason_ended s session_timeout now).
  - apply (close_with_reason_ended s idle_timeout now).
Qed.

(** *** Messages of the agent *)

Definition hears (s : BrowserPortForwardSession) (e : emission) (r : BrowserPortForwardSession * list effect)
    : Prop :=
  (forall cid, heard (s.(connections) !! cid) (r.1.(connections) !! cid) (up_item_of cid e))
  /\ hushed s r.2.

Lemma hears_ended s s0 e r : ended s0 r -> s0.(connections) = s.(connections) -> identity s0 = identity s -> hears s e r.
Proof. intros [C H] E I. split; [intros cid; rewrite C, E; constructor | by eapply hushed_identity]. Qed.

(** One connection changes and the message is passed on. *)
Lemma hears_change s e r id c c' (C : r.1.(connections) = <[id := c']> s.(connections)) :
  s.(connections) !! id = Some c -> c'.(next_desktop_sequence) = c.(next_desktop_sequence) ->
  c'.(target_credit) + up_bytes (up_item_of id e) = c.(target_credit) -> hushed s r.2 -> hears s e r.
Proof.
  intros Hc Hn Ht Hh. split; [|done]. intros cid. rewrite C. destruct (decide (cid = id)) as [->|Hne].
  - rewrite Hc, lookup_insert_eq. by constructor.
  - rewrite lookup_insert_ne by done. constructor.
Qed.

Lemma handle_agent_event_hears s session m now :
  hears s (EmitEvent session m) (handle_agent_event true s (Some s.(s_generation)) m now).
Proof.
  unfold handle_agent_event. rewrite bool_decide_true by done. cbn [negb].
  set (s1 := s <| last_activity_at := now |>).
  assert (Hbad : forall message, hears s (EmitEvent session m) (protocol_error true s1 message now))
    by (intros; by apply (hears_ended s s1); [apply protocol_error_ended|..]).
  assert (Hsame : forall s2, s2.(connections) = s.(connections) -> identity s2 = identity s ->
    hears s (EmitEvent session m) (deliver true s2 (OutEvent m) now))
    by (intros; by eapply hears_ended; [apply deliver_ended|..]).
  assert (Hfinish : hears s (EmitEvent session m) (finish s1 m now))
    by (by apply (hears_ended s s1); [apply finish_ended|..]).
  change (connections s) with (connections s1).
  destruct m as [t|id|id dir credit|id dir|id reason d t|reason d t|code message retryable].
  - case_match; [by apply Hsame | done].
  - destruct (connections s1 !! id) as [c|] eqn:E; [|done]. case_match; [done|].
    destruct (deliver_ended (set_connection s1 id (c <| opened := true |>)) (OutEvent (ConnectionOpened id)) now) as [C Hh].
    eapply hears_change; [exact C | done | done | | done]. unfold up_item_of. rewrite decide_same. simpl. lia.
  - destruct (connections s1 !! id) as [c|] eqn:E; [|done]. case_match; [done|].
    destruct (deliver_ended (set_connection s1 id (c <| desktop_credit ::= fun d => d + credit |>))
                (OutEvent (AgentWindow id dir credit)) now) as [C Hh].
    eapply hears_change; [exact C | done | done | | done]. unfold up_item_of. rewrite decide_same. simpl. lia.
  - case_match; [by apply Hsame | done].
  - destruct (connections s1 !! id) as [c|] eqn:E; [|done]. case_match; [done|]. case_match; [|done].
    set (s2 := s1 <| connections ::= delete id |>).
    destruct (deliver_ended s2 (OutEvent (ConnectionEnd id reason d t)) now) as [C Hh].
    split; [|exact Hh]. intros cid. rewrite C. simpl. unfold up_item_of. destruct (decide (id = cid)) as [<-|Hne].
    + rewrite lookup_delete_eq. change (connections s) with (connections s1). rewrite E. constructor.
    + rewrite lookup_delete_ne by done. constructor.
  - case_match; [done | done].
  - done.
Qed.

Lemma handle_agent_frame_hears s f raw now :
  decode_port_forward_data raw = Ok f -> hears s (EmitData raw) (handle_agent_frame true s f raw now).
Proof.
  intros Hf. unfold handle_agent_frame.
  assert (Hbad : forall message, hears s (EmitData raw) (protocol_error true s message now))
    by (intros; by apply (hears_ended s s); [apply protocol_error_ended|..]).
  destruct (connections s !! connection_id f) as [c|] eqn:E; [|done]. case_match; [done|].
  case_match; [by apply (hears_ended s s); [apply finish_ended|..]|].
  match goal with |- hears _ _ (deliver _ ?x _ _) => destruct (deliver_ended x (OutBytes raw) now) as [C Hh] end.
  eapply hears_change; [exact C | done | done | | exact Hh].
  unfold up_item_of. rewrite Hf, decide_same. simpl. lia.
Qed.

Lemma gateway_hears_hears s e now : hears s e (gateway_hears s e now).
Proof.
  assert (Hnone : hears s e (s, [])) by (split; [constructor | constructor]).
  unfold gateway_hears. case_match; [done|]. destruct e as [[[id generation]|] m|raw]; try done.
  - case_match; [|done]. destruct (decide (generation = s.(s_generation))) as [->|Hne];
      [apply handle_agent_event_hears|].
    unfold handle_agent_event. rewrite bool_decide_false by congruence.
    by apply (hears_ended s s); [apply protocol_error_ended|..].
  - destruct (decode_port_forward_data raw) as [f|] eqn:Hf; [|done]. case_match; [|done].
    by apply handle_agent_frame_hears.
Qed.

(** *** Messages of the desktop *)

Definition relayed (s : BrowserPortForwardSession) (r : BrowserPortForwardSession * list effect) : Prop :=
  (forall cid, relays (s.(connections) !! cid) (r.1.(connections) !! cid) (down_items cid (sockets r.2)))
  /\ Forall (addressed s.(s_session_id) s.(s_generation)) (sockets r.2).

Lemma relayed_ended s s0 r : ended s0 r -> s0.(connections) = s.(connections) -> identity s0 = identity s -> relayed s r.
Proof.
  intros [C H] E I. apply (hushed_identity _ _ _ I) in H.
  split; [|by apply hushed_addressed]. intros cid. rewrite C, E, (hushed_items s) by done. constructor.
Qed.

(** A request about connection [id] is passed on. *)
Lemma relayed_forward s r id item :
  sockets r.2 = [AgentRequest s.(s_session_id) s.(s_generation) item] ->
  addressed s.(s_session_id) s.(s_generation) (AgentRequest s.(s_session_id) s.(s_generation) item) ->
  (exists c i, r.1.(connections) = <[id := c]> s.(connections)
     /\ concern (AgentRequest s.(s_session_id) s.(s_generation) item) = Some (id, i)
     /\ relays (s.(connections) !! id) (Some c) [i]) -> relayed s r.
Proof.
  intros E Ha (c & i & C & Hi & Hrel). split; [|rewrite E; by constructor; [|constructor]].
  intros cid. rewrite E, C. unfold down_items. simpl. unfold down_item_of. rewrite Hi.
  destruct (decide (id = cid)) as [<-|Hne].
  - by rewrite lookup_insert_eq.
  - rewrite lookup_insert_ne by done. constructor.
Qed.

Lemma browser_request_relayed s id generation m now :
  session_wf s -> desktop_request_ok m = true -> relayed s (browser_request true s id generation m now).1.
Proof.
  intros Hwf Hm. unfold browser_request.
  case_match; [by apply (relayed_ended s s); [apply protocol_error_ended|..]|].
  set (s1 := s <| last_activity_at := now |>).
  assert (Hbad : forall message, relayed s (protocol_error true s1 message now))
    by (intros; by apply (relayed_ended s s1); [apply protocol_error_ended|..]).
  change (opened_target s) with (opened_target s1).
  change (connections s1) with (connections s).
  pose proof Hm as Hok. destruct m as [cid|cid dir credit|cid dir|cid|]; simpl in Hm; bool_to_prop.
  - case_match eqn:E; [apply Hbad|]. read_guard.
    eapply (relayed_forward _ _ cid); [done | done |]. eexists _, _. split; [reflexivity|]. split; [done|].
    match goal with H : ~ is_Some _ |- _ => apply eq_None_not_Some in H; rewrite H end. constructor.
  - destruct (connections s !! cid) as [c|] eqn:E; [|apply Hbad]. case_match; [apply Hbad|]. read_guard.
    unfold credit_ok in *. bool_to_prop.
    eapply (relayed_forward _ _ cid); [done | done |]. eexists _, _. split; [reflexivity|]. split; [done|].
    rewrite E. constructor; simpl; try done; lia.
  - case_match; [|apply Hbad]. bool_to_prop.
    match goal with H : is_Some _ |- _ => destruct H as [c E] end.
    eapply (relayed_forward _ _ cid); [done | done |]. exists c, DOther. split; [by rewrite insert_id|]. split; [done|].
    rewrite E. by constructor.
  - destruct (connections s !! cid) as [c|] eqn:E; [|apply Hbad]. case_match; [apply Hbad|].
    eapply (relayed_forward _ _ cid); [done | done |]. eexists _, _. split; [reflexivity|]. split; [done|].
    rewrite E. by constructor.
  - simpl. destruct (finish_ended s1 (end_event s1 closed_reason) now) as [C Hh].
    apply (relayed_ended s s1); [|done..]. split; [exact C|].
    by apply (hushed_app s1 [_]); [repeat constructor|].
Qed.

Lemma browser_binary_relayed s raw now : relayed s (browser_binary true s raw now).1.
Proof.
  unfold browser_binary.
  assert (Hbad : forall message, relayed s (protocol_error true s message now))
    by (intros; by apply (relayed_ended s s); [apply protocol_error_ended|..]).
  destruct (decode_port_forward_data raw) as [f|] eqn:Hf; [|apply Hbad].
  destruct (connections s !! connection_id f) as [c|] eqn:E; [|apply Hbad]. case_match; [apply Hbad|]. read_guard.
  case_match; [by apply (relayed_ended s s); [apply close_with_reason_ended|..]|].
  apply encode_decode in Hf as Hok. destruct Hok as [Hok _]. unfold frame_ok, payload_ok in Hok. bool_to_prop.
  split; simpl.
  - intros cid. unfold sockets, down_items. simpl. unfold down_item_of. simpl. rewrite Hf.
    destruct (decide (connection_id f = cid)) as [<-|Hne].
    + rewrite lookup_insert_eq, E. simpl.
      match goal with H : sequence f = _ |- _ => rewrite H end. constructor; simpl; try done; lia.
    + rewrite lookup_insert_ne by done. constructor.
  - constructor; [|constructor]. exists f. split_and!; try done.
Qed.

Lemma relayed_quiet s r1 r2 : relayed s r1 -> identity r1.1 = identity s -> ended r1.1 r2 -> relayed s (r2.1, r1.2 ++ r2.2).
Proof.
  intros [H1 A1] I [C H2]. apply (hushed_identity _ _ _ I) in H2. split; simpl.
  - intros cid. by rewrite sockets_app, down_items_app, (hushed_items _ _ _ H2), app_nil_r, C.
  - rewrite sockets_app. apply Forall_app. split; [done | by apply hushed_addressed].
Qed.

Lemma browser_receive_relayed s m now :
  session_wf s -> browser_message_ok m = true -> relayed s (browser_receive true s m now).
Proof.
  intros Hwf Hm. destruct m as [m|]; simpl; [|by apply (relayed_ended s s); [apply loop_head_ended|..]].
  assert (Hr : relayed s (handle_browser_message true s m now).1).
  { destruct m as [|raw|[[[id generation] request]|]|]; simpl.
    - unfold browser_closed. case_match; [by apply (relayed_ended s s); [by repeat constructor|..]|].
      by apply (relayed_ended s s); [apply close_with_reason_ended|..].
    - apply browser_binary_relayed.
    - by apply browser_request_relayed.
    - by apply (relayed_ended s s); [apply protocol_error_ended|..].
    - by apply (relayed_ended s s); [apply protocol_error_ended|..]. }
  pose proof (handle_browser_message_good true s m now Hwf Hm) as [_ Hp].
  destruct (handle_browser_message _ _ _ _) as [[s' effects] []]; simpl in Hr, Hp |- *; [|exact Hr].
  apply (relayed_quiet s (s', effects)); [done | by destruct Hp | by apply loop_head_ended].
Qed.

(** ** The link of a connection

    The gateway's view, the messages on their way down, the agent's view, the
    messages on their way up, and what the desktop sent. *)

(** Messages the gateway lets through. *)
Definition sized (i : down_item) : Prop :=
  match i with
  | DWindow credit => 0 <= credit
  | DData _ data => Z.of_nat (length data) <= MAX_PORT_FORWARD_FRAME_BYTES
  | _ => True
  end.

Definition ends_last (us : list up_item) : Prop :=
  no_end us \/ exists us', us = us' ++ [UEnd] /\ no_end us'.

Inductive link : option PortForwardConnectionState -> list down_item -> option AgentTcpConnection ->
    list up_item -> list byte -> Prop :=
| link_none ds sent : DOpen ∉ ds -> link None ds None [] sent
| link_opening c before after sent :
    (DOpen ∉ before) -> (DOpen ∉ after) -> Forall sized after ->
    numbered 0 after c.(next_desktop_sequence) ->
    PORT_FORWARD_CREDIT_WINDOW_BYTES + windows after <= c.(target_credit) -> sent = in_flight after ->
    link (Some c) (before ++ DOpen :: after) None [] sent
| link_open c ds a us sent :
    (DOpen ∉ ds) -> no_end us -> Forall sized ds ->
    numbered a.(expected_input_sequence) ds c.(next_desktop_sequence) ->
    held a + up_bytes us + windows ds <= c.(target_credit) ->
    a.(input_credit) = PORT_FORWARD_CREDIT_WINDOW_BYTES -> sent = a.(received) ++ in_flight ds ->
    link (Some c) ds (Some a) us sent
| link_dead c ds us sent : (DOpen ∉ ds) -> ends_last us -> link (Some c) ds None us sent.

Lemma windows_app l1 l2 : windows (l1 ++ l2) = windows l1 + windows l2.
Proof. induction l1 as [|[] l1 IH]; simpl; lia. Qed.

Lemma windows_nonneg l : Forall sized l -> 0 <= windows l.
Proof. induction 1 as [|[] l H _ IH]; simpl in *; lia. Qed.

Lemma in_flight_app l1 l2 : in_flight (l1 ++ l2) = in_flight l1 ++ in_flight l2.
Proof. apply bind_app. Qed.

Lemma numbered_app n l1 m l2 k : numbered n l1 m -> numbered m l2 k -> numbered n (l1 ++ l2) k.
Proof.
  revert n. induction l1 as [|[] l1 IH]; simpl; intros n H1 H2; [by subst|..]; try by apply IH.
  destruct H1. split; [done|]. by apply IH.
Qed.

Lemma sent_bytes_app acc l1 l2 : sent_bytes acc (l1 ++ l2) = sent_bytes (sent_bytes acc l1) l2.
Proof. apply fold_left_app. Qed.

Lemma up_bytes_items cid l : 0 <= up_bytes (up_items cid l).
Proof.
  induction l as [|e l IH]; [done|]. change (up_items cid (e :: l)) with (up_item_of cid e ++ up_items cid l).
  rewrite up_bytes_app. assert (0 <= up_bytes (up_item_of cid e)); [|lia].
  unfold up_item_of. repeat case_match; simpl; lia.
Qed.

Lemma not_in_app (x : down_item) l1 l2 : (x ∉ l1 ++ l2) <-> (x ∉ l1) /\ (x ∉ l2).
Proof. rewrite elem_of_app. tauto. Qed.

Lemma not_in_one (x y : down_item) : x <> y -> x ∉ [y].
Proof. rewrite list_elem_of_singleton. done. Qed.

Lemma link_relays c ds a us sent c' new :
  link c ds a us sent -> relays c c' new -> link c' (ds ++ new) a us (sent_bytes sent new).
Proof.
  assert (Hopen : forall c c' ds a us sent item,
    link (Some c) ds a us sent -> item <> DOpen -> sized item ->
    (forall n, numbered n ds c.(next_desktop_sequence) -> numbered n (ds ++ [item]) c'.(next_desktop_sequence)) ->
    (forall n after, numbered n after c.(next_desktop_sequence) -> numbered n (after ++ [item]) c'.(next_desktop_sequence)) ->
    c'.(target_credit) = c.(target_credit) + windows [item] ->
    link (Some c') (ds ++ [item]) a us (sent ++ in_flight [item])).
  { intros c0 c1 ds0 a0 us0 sent0 item Hl Hi Hs Hn Hn' Ht. inversion Hl; subst; clear Hl.
    - rewrite <- (assoc_L (++)). simpl. constructor; try done.
      + apply not_in_app. split; [done | by apply not_in_one].
      + by apply Forall_app; split; [|repeat constructor].
      + by apply Hn'.
      + rewrite windows_app. lia.
      + by rewrite in_flight_app.
    - constructor; try done.
      + apply not_in_app. split; [done | by apply not_in_one].
      + by apply Forall_app; split; [|repeat constructor].
      + by apply Hn.
      + rewrite windows_app. lia.
      + by rewrite in_flight_app, (assoc_L (++)).
    - constructor; [|done]. apply not_in_app. split; [done | by apply not_in_one]. }
  intros Hl Hr. inversion Hr; subst; clear Hr.
  - by rewrite app_nil_r.
  - inversion Hl; subst. apply (link_opening _ _ [] _); simpl; try done; by intros ?%elem_of_nil.
  - change (sent_bytes sent [DWindow credit]) with sent. rewrite <- (app_nil_r sent).
    eapply (Hopen _ _ _ _ _ _ (DWindow credit)); [exact Hl | done | done | | | simpl; lia];
      intros; rewrite H1; eapply numbered_app; done.
  - change (sent_bytes sent [DData _ data]) with (sent ++ data). rewrite <- (app_nil_r data) at 2.
    eapply (Hopen _ _ _ _ _ _ (DData _ data)); [exact Hl | done | done | | | simpl; lia];
      intros; eapply numbered_app; done.
  - change (sent_bytes sent [DOther]) with sent. rewrite <- (app_nil_r sent).
    eapply (Hopen _ _ _ _ _ _ DOther); [exact Hl | done | done | | | simpl; lia];
      intros; rewrite H0; eapply numbered_app; done.
Qed.

Lemma link_heard c ds a u us sent c' :
  link c ds a (u ++ us) sent -> 0 <= up_bytes u -> (length u <= 1)%nat -> heard c c' u -> link c' ds a us sent.
Proof.
  intros Hl Hu Hlen Hh. remember (u ++ us) as uus eqn:Hus.
  destruct Hl as [ds sent Hd|c before after sent Hb Ha Hs Hn Hw Hsent|c ds a uus sent Hd Hn Hs Hnum Hw Hi Hsent|c ds uus sent Hd He].
  - symmetry in Hus. apply app_nil in Hus as [-> ->]. inversion Hh; subst. by constructor.
  - symmetry in Hus. apply app_nil in Hus as [-> ->]. inversion Hh; subst; [by constructor|].
    simpl in *. constructor; try done; congruence || lia.
  - subst uus. apply no_end_app in Hn as [Hn1 Hn2]. rewrite up_bytes_app in Hw. inversion Hh; subst.
    + constructor; try done. lia.
    + constructor; try done; [congruence | lia].
    + exfalso. apply Hn1. apply list_elem_of_here.
  - subst uus. assert (Hus : ends_last us).
    { destruct He as [Hn|(us' & E & Hn)]; [left; by apply no_end_app in Hn as [_ ?]|].
      destruct u as [|x [|]]; simpl in *; try lia; [right; eauto|].
      destruct us' as [|y us']; simpl in E; [injection E as _ E; subst us; left; apply no_end_nil|].
      injection E as E1 E2. subst us. right. exists us'. split; [done|]. unfold no_end in *. set_solver. }
    inversion Hh; subst; [by constructor | by constructor |].
    destruct He as [Hn|(us' & E & Hn)]; [exfalso; apply Hn; apply list_elem_of_here|].
    destruct us' as [|y us']; simpl in E; [injection E as ->; by constructor|].
    injection E as <- E. exfalso. apply Hn. apply list_elem_of_here.
Qed.

Lemma link_moves c ds a us sent a' new :
  link c ds a us sent -> moves a a' new -> link c ds a' (us ++ new) sent.
Proof.
  intros Hl Hm. destruct Hl as [ds sent Hd|c before after sent Hb Ha Hs Hn Hw Hsent|c ds a us sent Hd Hn Hs Hnum Hw Hi Hsent|c ds us sent Hd He].
  - inversion Hm; subst. by constructor.
  - inversion Hm; subst. by constructor.
  - inversion Hm as [|a0 a1 us0 Hn0 (R & X & I) Hh Hr|a0 us0 Hn0]; subst.
    + constructor; try done; [by apply no_end_app | congruence | rewrite up_bytes_app; lia | congruence | congruence].
    + constructor; [done|]. right. exists (us ++ us0). split; [by rewrite (assoc_L (++)) | by apply no_end_app].
  - inversion Hm; subst. rewrite app_nil_r. by constructor.
Qed.

Lemma link_takes c i ds a us sent a' new :
  link c (i :: ds) a us sent -> takes PORT_FORWARD_CREDIT_WINDOW_BYTES i a a' new ->
  link c ds a' (us ++ new) sent.
Proof.
  intros Hl Ht. remember (i :: ds) as ids eqn:Hids.
  destruct Hl as [ids sent Hd|c before after sent Hb Ha Hs Hn Hw Hsent|c ids a us sent Hd Hn Hs Hnum Hw Hi Hsent|c ids us sent Hd He].
  - subst ids. apply not_elem_of_cons in Hd as [Hne Hd]. inversion Ht; subst; [by constructor | done].
  - destruct before as [|b before]; simpl in Hids; injection Hids as <- <-.
    + inversion Ht; subst; simpl; [constructor; [done | left; apply no_end_nil]|].
      constructor; try done. unfold held. simpl.
      match goal with H : up_bytes _ = 0 |- _ => rewrite H end. lia.
    + apply not_elem_of_cons in Hb as [Hne Hb]. inversion Ht; subst; [by constructor | done].
  - subst ids. apply not_elem_of_cons in Hd as [Hne Hd]. apply Forall_cons in Hs as [Hi0 Hs].
    inversion Ht as [| |a0 a1 credit (R & X & I) Hh Hr|a0 a1 q data us0 R X I Hh Hr Hn0 Hu|a0 q data us0 Hn0|a0 a1 us0 Hm]; subst.
    + simpl in *. rewrite app_nil_r. constructor; try done; [congruence | lia | congruence | by rewrite R].
    + simpl in Hnum, Hw. destruct Hnum as [-> Hnum]. constructor; try done;
        [by apply no_end_app | by rewrite X | rewrite up_bytes_app; lia | congruence |].
      rewrite R. simpl. by rewrite (assoc_L (++)).
    + constructor; [done|]. right. exists (us ++ us0). split; [by rewrite (assoc_L (++)) | by apply no_end_app].
    + eapply link_moves; [|exact Hm]. by constructor.
  - subst ids. apply not_elem_of_cons in Hd as [Hne Hd].
    inversion Ht; subst; [rewrite app_nil_r; by constructor | done].
Qed.

Lemma held_output r cid a : tcp_ok r cid a -> a.(output_credit) <= held a.
Proof.
  intros [_ _ _ Ha _ _]. unfold held. destruct (reader a); try lia. case_match; lia.
Qed.

Lemma link_welcome c i ds a cid l sent r :
  link c (i :: ds) a (up_items cid l) sent -> (forall a0, a = Some a0 -> tcp_ok r cid a0) ->
  (forall c0, c = Some c0 -> c0.(target_credit) <= PORT_FORWARD_CREDIT_WINDOW_BYTES) -> welcome i a.
Proof.
  intros Hl Ha Hc. pose proof (up_bytes_items cid l) as Hu. remember (i :: ds) as ids eqn:Hids.
  destruct Hl as [ids sent Hd|c before after sent Hb Haf Hs Hn Hw Hsent|c ids a us sent Hd Hn Hs Hnum Hw Hi Hsent|c ids us sent Hd He].
  - subst ids. by destruct i.
  - by destruct i.
  - subst ids. apply not_elem_of_cons in Hd as [Hne Hd]. apply Forall_cons in Hs as [Hi0 Hs].
    pose proof (held_output _ _ _ (Ha a eq_refl)). specialize (Hc c eq_refl). pose proof (windows_nonneg _ Hs).
    destruct i; simpl in *; try done; [lia|]. destruct Hnum as [-> _]. split; [done|].
    rewrite Hi. unfold MAX_PORT_FORWARD_FRAME_BYTES, PORT_FORWARD_CREDIT_WINDOW_BYTES in *. lia.
  - by destruct i.
Qed.

(** ** Runs of the tunnel *)

Definition agent_ok (gw : BrowserPortForwardSession) (s : option AgentPortForwardSession) : Prop :=
  match s with
  | Some s => agent_session_ok gw.(s_session_id) s /\ running s /\ s.(request) = open_request gw
  | None => True
  end.

Record tunnel_ok (sent : Z -> list byte) (t : tunnel) : Prop := {
  ok_gateway : session_wf t.(gateway);
  ok_request : request_ok (open_request t.(gateway)) = true;
  ok_agent : agent_ok t.(gateway) t.(agent_side);
  ok_up : Forall emission_ok t.(up);
  ok_down : exists first rest, t.(down) = first ++ rest
    /\ (first = [] \/ first = [AgentOpen (open_request t.(gateway))] /\ t.(agent_side) = None)
    /\ Forall (addressed t.(gateway).(s_session_id) t.(gateway).(s_generation)) rest;
  ok_link : forall cid, link (t.(gateway).(connections) !! cid) (down_items cid t.(down))
    (conn t.(agent_side) cid) (up_items cid t.(up)) (sent cid) }.

Lemma open_request_identity s s' : identity s' = identity s -> open_request s' = open_request s.
Proof. unfold identity, open_request. intros H. injection H as E1 E2 _ _ _ E6 _ _. by rewrite E1, E2, E6. Qed.

Lemma identity_generation s s' : identity s' = identity s -> s'.(s_generation) = s.(s_generation).
Proof. unfold identity. congruence. Qed.

(** A step of the gateway, and what it puts on the socket. *)
Lemma gateway_step_ok sent sent' t gw' effects up' :
  tunnel_ok sent t -> good t.(gateway) (gw', effects) ->
  Forall (addressed t.(gateway).(s_session_id) t.(gateway).(s_generation)) (sockets effects) ->
  Forall emission_ok up' ->
  (forall cid, link (gw'.(connections) !! cid) (down_items cid (t.(down) ++ sockets effects))
     (conn t.(agent_side) cid) (up_items cid up') (sent' cid)) ->
  tunnel_ok sent' (Tunnel gw' t.(agent_side) (t.(down) ++ sockets effects) up').
Proof.
  intros [Hwf Hreq Ha Hup (first & rest & Hd & Hf & Hr) Hl] [Hwf' Hp] Haddr Hup' Hlink.
  assert (I : identity gw' = identity t.(gateway)) by (clear -Hp; simpl in Hp; by destruct Hp).
  pose proof (identity_id _ _ I) as Eid. pose proof (identity_generation _ _ I) as Egen.
  pose proof (open_request_identity _ _ I) as Ereq.
  constructor; simpl; rewrite ?Ereq, ?Eid, ?Egen; try done.
  - unfold agent_ok. rewrite Eid, Ereq. exact Ha.
  - exists first, (rest ++ sockets effects). rewrite Hd, (assoc_L (++)). split_and!; try done.
    by apply Forall_app.
Qed.

Lemma desktop_step_ok sent t m now :
  tunnel_ok sent t -> browser_message_ok m = true ->
  let r := browser_receive true t.(gateway) m now in
  tunnel_ok (fun cid => sent_bytes (sent cid) (down_items cid (sockets r.2)))
    (Tunnel r.1 t.(agent_side) (t.(down) ++ sockets r.2) t.(up)).
Proof.
  intros Ht Hm r. pose proof (ok_gateway _ _ Ht) as Hwf.
  destruct (browser_receive_relayed _ m now Hwf Hm) as [Hrel Haddr].
  apply (gateway_step_ok sent); [done | | done | apply Ht |].
  - rewrite <- surjective_pairing. by apply browser_receive_good.
  - intros cid. rewrite down_items_app. eapply link_relays; [apply (ok_link _ _ Ht)|]. apply Hrel.
Qed.

Lemma gateway_hears_good s e now :
  session_wf s -> emission_ok e -> good s (gateway_hears s e now).
Proof.
  intros Hwf He. unfold gateway_hears. case_match eqn:Hd; [by apply good_quiet|].
  destruct e as [[[id generation]|] m|raw]; simpl in He; [| by apply good_quiet |].
  - case_match; [|by apply good_quiet]. destruct He as [He _]. by apply handle_agent_event_good.
  - destruct (decode_port_forward_data raw) as [f|] eqn:Hf; [|by apply good_quiet].
    case_match; [|by apply good_quiet]. apply encode_decode in Hf as [Hf _]. by apply handle_agent_frame_good.
Qed.

Lemma up_item_one cid e : 0 <= up_bytes (up_item_of cid e) /\ (length (up_item_of cid e) <= 1)%nat.
Proof. unfold up_item_of. repeat case_match; simpl; lia. Qed.

Lemma up_step_ok sent t e rest now :
  tunnel_ok sent t -> t.(up) = e :: rest ->
  let r := gateway_hears t.(gateway) e now in
  tunnel_ok sent (Tunnel r.1 t.(agent_side) (t.(down) ++ sockets r.2) rest)
  /\ forall cid, down_items cid (sockets r.2) = [].
Proof.
  intros Ht Hup r. pose proof (ok_gateway _ _ Ht) as Hwf.
  pose proof (ok_up _ _ Ht) as He. rewrite Hup in He. apply Forall_cons in He as [He Hrest].
  destruct (gateway_hears_hears t.(gateway) e now) as [Hh Hq].
  assert (Hnone : forall cid, down_items cid (sockets r.2) = []) by (intros; by apply (hushed_items t.(gateway))).
  split; [|done]. apply (gateway_step_ok sent); [done | | by apply hushed_addressed | done |].
  - rewrite <- surjective_pairing. by apply gateway_hears_good.
  - intros cid. rewrite down_items_app, Hnone, app_nil_r. destruct (up_item_one cid e) as [H1 H2].
    eapply link_heard; [|exact H1 | exact H2 | apply Hh].
    pose proof (ok_link _ _ Ht cid) as Hl. rewrite Hup in Hl. exact Hl.
Qed.

(** A step of the agent. *)
Lemma controller_ok_world id s :
  match s with Some s => agent_session_ok id s | None => True end -> controller_ok (world id s).
Proof.
  intros Hs. split; destruct s as [s|]; simpl; try done.
  - by apply map_Forall_singleton.
  - by rewrite map_size_singleton.
Qed.

Lemma agent_safe gw s (m : M unit) r w out :
  agent_ok gw s -> safe m -> m (world gw.(s_session_id) s) = (r, w, out) ->
  controller_ok w /\ Forall emission_ok out.
Proof.
  intros Ha Hm E.
  destruct (Hm (world gw.(s_session_id) s)) as [H1 H2];
    [apply controller_ok_world; destruct s; [apply Ha | done]|].
  by rewrite E in H1, H2.
Qed.

Lemma agent_ok_world gw s s' out :
  agent_ok gw (Some s) -> controller_ok (world gw.(s_session_id) s') -> moved s s' out -> agent_ok gw s'.
Proof.
  intros (_ & Hr & Hreq) [Hw _] Hm. destruct s' as [s'|]; [|done]. split_and!.
  - apply (Hw _ s'), lookup_singleton_eq.
  - by eapply moved_running.
  - destruct Hm as [[R _] _ _]. congruence.
Qed.

Lemma agent_step_result sent t s' out down' :
  tunnel_ok sent t -> agent_ok t.(gateway) s' -> Forall emission_ok out ->
  (exists rest, down' = rest /\ Forall (addressed t.(gateway).(s_session_id) t.(gateway).(s_generation)) rest)
  \/ (down' = t.(down) /\ (t.(agent_side) = None -> s' = None)) ->
  (forall cid, link (t.(gateway).(connections) !! cid) (down_items cid down') (conn s' cid)
     (up_items cid t.(up) ++ up_items cid out) (sent cid)) ->
  tunnel_ok sent (Tunnel t.(gateway) s' down' (t.(up) ++ out)).
Proof.
  intros [Hwf Hreq Ha Hup (first & rest & Hd & Hf & Hr) Hl] Ha' Hout Hdown Hlink. constructor; simpl; try done.
  - by apply Forall_app.
  - destruct Hdown as [(rest' & -> & Hrest)|[-> Hn]].
    + exists [], rest'. split_and!; [done | by left | done].
    + exists first, rest. split_and!; try done. destruct Hf as [->|[-> E]]; [by left | right; auto].
  - intros cid. rewrite up_items_app. apply Hlink.
Qed.

Lemma agent_move_ok sent t (m : M unit) w out :
  tunnel_ok sent t -> safe m ->
  (forall s, t.(agent_side) = Some s -> running s -> agent_session_ok t.(gateway).(s_session_id) s ->
     turns t.(gateway).(s_session_id) m s) ->
  (forall Q, Q (Some tt) None [] -> wp t.(gateway).(s_session_id) m Q None) ->
  m (world t.(gateway).(s_session_id) t.(agent_side)) = (Some tt, w, out) ->
  tunnel_ok sent (Tunnel t.(gateway) (w.(a_sessions) !! t.(gateway).(s_session_id)) t.(down) (t.(up) ++ out))
  /\ Forall no_violation out.
Proof.
  intros Ht Hsafe Hturn Hnone E. pose proof (ok_agent _ _ Ht) as Ha.
  destruct (agent_safe _ _ _ _ _ _ Ha Hsafe E) as [Hw Hout].
  pose proof (ok_link _ _ Ht) as Hl. destruct (agent_side t) as [s|] eqn:Hs.
  - pose proof Ha as (Hok & Hr & _). specialize (Hturn s eq_refl Hr Hok).
    destruct (wp_det _ _ _ _ _ _ _ Hturn E) as (s' & -> & _ & Hm). rewrite lookup_world.
    split; [|apply Hm]. apply agent_step_result; [done | | done | right; by rewrite Hs |].
    + by eapply agent_ok_world.
    + intros cid. eapply link_moves; [apply Hl | apply Hm].
  - assert (Hq : wp (s_session_id (gateway t)) m (fun _ s' out => s' = None /\ out = []) None) by by apply Hnone.
    destruct (wp_det _ _ _ _ _ _ _ Hq E) as (s' & -> & -> & ->). rewrite lookup_world.
    split; [|constructor]. apply agent_step_result; [done | done | done | by right |].
    intros cid. rewrite app_nil_r. apply Hl.
Qed.

Lemma down_items_cons cid e l : down_items cid (e :: l) = down_item_of cid e ++ down_items cid l.
Proof. done. Qed.

Lemma addressed_safe id generation e resolved connected drained now :
  addressed id generation e -> resolution_ok resolved = true ->
  safe (stream_turn (to_input e resolved connected drained) now).
Proof.
  intros He Hr. apply safe_stream_turn. destruct e as [?|id' g m|raw|]; try done; simpl in *.
  destruct He as (_ & _ & -> & _). done.
Qed.

(** The connections, after the agent took [e]. *)
Lemma link_taken gw s s' out e rest l sent :
  agent_ok gw (Some s) -> session_wf gw ->
  (forall cid, link (gw.(connections) !! cid) (down_items cid (e :: rest)) (s.(a_connections) !! cid)
     (up_items cid l) (sent cid)) ->
  match concern e with Some (cid, i) => took s cid i s' out | None => moved s s' out end ->
  forall cid, link (gw.(connections) !! cid) (down_items cid rest) (conn s' cid)
    (up_items cid l ++ up_items cid out) (sent cid).
Proof.
  intros (Hok & _ & Hreq) Hwf Hl Ht cid. specialize (Hl cid). rewrite down_items_cons in Hl. unfold down_item_of in Hl.
  destruct (concern e) as [[id i]|]; [|eapply link_moves; [exact Hl | apply Ht]].
  destruct Ht as [_ _ Hothers Hconn]. destruct (decide (id = cid)) as [<-|Hne].
  - eapply link_takes; [exact Hl|]. rewrite Hreq in Hconn. exact Hconn.
  - eapply link_moves; [exact Hl|]. apply Hothers. congruence.
Qed.

(** A message to the session the agent serves. *)
Lemma down_served_ok sent t s e rest resolved connected drained now w out :
  tunnel_ok sent t -> t.(down) = e :: rest -> t.(agent_side) = Some s ->
  addressed t.(gateway).(s_session_id) t.(gateway).(s_generation) e ->
  Forall (addressed t.(gateway).(s_session_id) t.(gateway).(s_generation)) rest ->
  resolution_ok resolved = true ->
  stream_turn (to_input e resolved connected drained) now
    (world t.(gateway).(s_session_id) t.(agent_side)) = (Some tt, w, out) ->
  tunnel_ok sent (Tunnel t.(gateway) (w.(a_sessions) !! t.(gateway).(s_session_id)) rest (t.(up) ++ out))
  /\ Forall no_violation out.
Proof.
  intros Ht Hd Hs He Hrest Hres E. pose proof (ok_agent _ _ Ht) as Ha. pose proof (ok_link _ _ Ht) as Hl.
  pose proof (ok_gateway _ _ Ht) as Hwf. rewrite Hd in Hl.
  set (id := s_session_id (gateway t)) in *. rewrite Hs in *.
  destruct (agent_safe _ _ _ _ _ _ Ha (addressed_safe _ _ _ _ connected drained now He Hres) E) as [Hw Hout].
  destruct Ha as (Hok & Hrun & Hreq).
  assert (He' : addressed id s.(request).(op_generation) e) by by rewrite Hreq.
  assert (Hwel : forall cid i, concern e = Some (cid, i) -> welcome i (s.(a_connections) !! cid)).
  { intros cid i Hc. specialize (Hl cid). rewrite down_items_cons in Hl. unfold down_item_of in Hl.
    rewrite Hc, decide_True in Hl by done.
    eapply link_welcome; [exact Hl | |]; intros x Hx; [by apply (so_connections _ _ Hok)|].
    by apply (sw_connections _ Hwf _ _ Hx). }
  destruct (wp_det _ _ _ _ _ _ _ (agent_takes id s e resolved connected drained now Hrun He' Hwel) E)
    as (s' & -> & Hpost). specialize (Hpost eq_refl). rewrite lookup_world.
  assert (Hm : match s' with Some s' => s'.(request) = s.(request) /\ running s' | None => True end
               /\ Forall no_violation out).
  { destruct (concern e) as [[cid i]|].
    - destruct Hpost as [H1 H2 H3 H4]. split; [|done]. destruct s' as [s'|]; [|done].
      destruct H1 as [R S]. split; [done|]. split; [rewrite S; apply Hrun|].
      intros j c Hc. destruct (decide (j = cid)) as [->|Hne].
      + simpl in H4. rewrite Hc in H4. inversion H4; subst; try done.
        match goal with H : moves _ _ _ |- _ => by inversion H end.
      + specialize (H3 j Hne). simpl in H3. rewrite Hc in H3. by inversion H3.
    - split; [|apply Hpost]. destruct s' as [s'|]; [|done]. split; [apply Hpost | by eapply moved_running]. }
  split; [|apply Hm]. apply agent_step_result; [done | | done | left; eauto |].
  * destruct s' as [s'|]; [|done]. split_and!; [apply (proj1 Hw _ s'), lookup_singleton_eq | apply Hm |].
    destruct Hm as [[R _] _]. congruence.
  * eapply (link_taken (gateway t) s); done.
Qed.

(** A message to a session the agent does not have. *)
Lemma down_ignored_ok sent t e rest resolved connected drained now w out :
  tunnel_ok sent t -> t.(down) = e :: rest -> t.(agent_side) = None ->
  addressed t.(gateway).(s_session_id) t.(gateway).(s_generation) e ->
  Forall (addressed t.(gateway).(s_session_id) t.(gateway).(s_generation)) rest ->
  resolution_ok resolved = true ->
  stream_turn (to_input e resolved connected drained) now
    (world t.(gateway).(s_session_id) t.(agent_side)) = (Some tt, w, out) ->
  tunnel_ok sent (Tunnel t.(gateway) (w.(a_sessions) !! t.(gateway).(s_session_id)) rest (t.(up) ++ out))
  /\ Forall no_violation out.
Proof.
  intros Ht Hd Hs He Hrest Hres E. pose proof (ok_agent _ _ Ht) as Ha. pose proof (ok_link _ _ Ht) as Hl.
  pose proof (ok_gateway _ _ Ht) as Hwf. rewrite Hd in Hl.
  set (id := s_session_id (gateway t)) in *. rewrite Hs in *.
  destruct (agent_safe _ _ _ _ _ _ Ha (addressed_safe _ _ _ _ connected drained now He Hres) E) as [Hw Hout].
  destruct (wp_det _ _ _ _ _ _ _ (agent_ignores id _ e resolved connected drained now He) E) as (s' & -> & -> & ->).
  rewrite lookup_world. split; [|constructor].
  apply agent_step_result; [done | done | done | left; eauto |].
  intros cid. specialize (Hl cid). rewrite down_items_cons in Hl. simpl in *. unfold down_item_of in Hl.
  rewrite app_nil_r. destruct (concern e) as [[j i]|]; [|done]. case_decide; [|done].
  rewrite <- (app_nil_r (up_items cid _)). eapply link_takes; [exact Hl | constructor].
Qed.

(** The message that opens the session. *)
Lemma down_opened_ok sent t rest resolved connected drained now w out :
  tunnel_ok sent t -> t.(down) = AgentOpen (open_request t.(gateway)) :: rest -> t.(agent_side) = None ->
  Forall (addressed t.(gateway).(s_session_id) t.(gateway).(s_generation)) rest ->
  resolution_ok resolved = true ->
  stream_turn (to_input (AgentOpen (open_request t.(gateway))) resolved connected drained) now
    (world t.(gateway).(s_session_id) t.(agent_side)) = (Some tt, w, out) ->
  tunnel_ok sent (Tunnel t.(gateway) (w.(a_sessions) !! t.(gateway).(s_session_id)) rest (t.(up) ++ out))
  /\ Forall no_violation out.
Proof.
  intros Ht Hd Hnone Hr Hres E. pose proof (ok_agent _ _ Ht) as Ha. pose proof (ok_link _ _ Ht) as Hl.
  rewrite Hd in Hl. set (id := s_session_id (gateway t)) in *. rewrite Hnone in *.
  assert (Hsafe : safe (stream_turn (to_input (AgentOpen (open_request (gateway t))) resolved connected drained) now)).
  { apply safe_stream_turn. simpl. by rewrite (ok_request _ _ Ht), Hres. }
  destruct (agent_safe _ _ _ _ _ _ Ha Hsafe E) as [Hw Hout].
  destruct (wp_det _ _ _ _ _ _ _ (agent_opens id (open_request (gateway t)) resolved connected drained now eq_refl) E)
    as (s' & -> & Hq & Hu & Hs'). rewrite lookup_world.
  split; [|done]. apply agent_step_result; [done | | done | left; eauto |].
  + destruct s' as [s'|]; [|done]. destruct Hs' as (R & S & C). split_and!; [| | done].
    * apply (proj1 Hw _ s'), lookup_singleton_eq.
    * split; [done|]. rewrite C. apply map_Forall_empty.
  + intros cid. rewrite Hu, app_nil_r. specialize (Hl cid). rewrite down_items_cons in Hl. simpl in Hl.
    replace (conn s' cid) with (None : option AgentTcpConnection); [done|].
    destruct s' as [s'|]; [|done]. simpl. destruct Hs' as (_ & _ & ->). by rewrite lookup_empty.
Qed.

Lemma down_step_ok sent t e rest resolved connected drained now w out :
  tunnel_ok sent t -> t.(down) = e :: rest -> resolution_ok resolved = true ->
  stream_turn (to_input e resolved connected drained) now
    (world t.(gateway).(s_session_id) t.(agent_side)) = (Some tt, w, out) ->
  tunnel_ok sent (Tunnel t.(gateway) (w.(a_sessions) !! t.(gateway).(s_session_id)) rest (t.(up) ++ out))
  /\ Forall no_violation out.
Proof.
  intros Ht Hd Hres E. destruct (ok_down _ _ Ht) as (first & rest' & Hd' & Hf & Hr).
  rewrite Hd in Hd'.
  destruct Hf as [->|[-> Hnone]]; simpl in Hd'.
  - subst rest'. apply Forall_cons in Hr as [He Hrest].
    destruct (agent_side t) as [s|] eqn:Hs; [eapply down_served_ok|eapply down_ignored_ok]; rewrite ?Hs; eauto.
  - injection Hd' as -> ->. eapply down_opened_ok; rewrite ?Hnone; eauto. by rewrite Hnone in E.
Qed.

Lemma tunnel_ok_ext sent sent' t : (forall cid, sent cid = sent' cid) -> tunnel_ok sent t -> tunnel_ok sent' t.
Proof. intros H []. constructor; try done. intros cid. by rewrite <- H. Qed.

Lemma tunnel_step_ok sent t l t' :
  tunnel_step t l t' -> tunnel_ok sent t ->
  tunnel_ok (fun cid => sent_bytes (sent cid) (down_items cid l.2.1)) t' /\ Forall no_violation l.2.2.
Proof.
  intros Hstep Ht. inversion Hstep; subst; clear Hstep; cbn [fst snd].
  - split; [|constructor]. by apply desktop_step_ok.
  - split; [|constructor]. destruct Ht as [Hwf Hreq Ha Hup Hd Hl].
    match goal with H : browser_sender _ = _ |- _ => destruct (browser_sender_keeps _ _ _ H Hwf) as (I & Hwf' & C) end.
    pose proof (identity_id _ _ I) as Eid. pose proof (identity_generation _ _ I) as Egen.
    pose proof (open_request_identity _ _ I) as Ereq.
    constructor; simpl; unfold agent_ok; rewrite ?Eid, ?Egen, ?Ereq; try done. intros cid. rewrite C. apply Hl.
  - match goal with H : up t = _ |- _ => destruct (up_step_ok _ _ _ _ now Ht H) as [H1 H2] end.
    split; [|constructor]. eapply tunnel_ok_ext; [|exact H1]. intros cid.
    change (filter on_socket ?x) with (sockets x). by rewrite H2.
  - eapply down_step_ok; eauto.
  - match goal with H : match i with _ => _ end |- _ => rename H into Hi end.
    destruct i as [| |id'| |id' cid|id' cid read|id' cid]; try done.
    + destruct Hi as (-> & now & ->). eapply agent_move_ok; eauto; [apply safe_watch | | ].
      * intros. by apply turns_watch.
      * intros. by apply wp_on_session_none.
    + destruct Hi as (-> & ->). eapply agent_move_ok; eauto; [apply safe_reserve | | ].
      * intros. by apply turns_reserve.
      * intros. by apply wp_on_session_none.
    + destruct Hi as (-> & (now & ->) & Hfits). eapply agent_move_ok; eauto; [apply safe_read_target | | ].
      * intros. apply turns_read_target; auto.
      * intros. by apply wp_on_session_none.
    + destruct Hi as (-> & ->). eapply agent_move_ok; eauto; [apply safe_send_frame | | ].
      * intros. by apply turns_send_frame.
      * intros. by apply wp_on_session_none.
Qed.

Lemma opening_ok a st id now :
  session_pattern id = true -> 1 <= st.(st_remote_port) <= 65535 ->
  tunnel_ok (fun _ => []) (opening a st id now).
Proof.
  intros Hid Hport. constructor; simpl; try done; try apply new_session_wf.
  - unfold request_ok. simpl. rewrite Hid. apply andb_true_iff. split; [|done].
    rewrite !andb_true_iff, !Z.leb_le. unfold MAX_PORT_FORWARD_FRAME_BYTES, PORT_FORWARD_CREDIT_WINDOW_BYTES. lia.
  - exists [AgentOpen (open_request (new_session a st id now))], []. split_and!; [done | by right | constructor].
  - intros cid. rewrite lookup_empty. constructor. by intros ?%elem_of_nil.
Qed.

(** The data the gateway accepted from the desktop for connection [cid] since it
    was last opened. *)
Definition sent_on (cid : Z) (trace : list (tunnel_event * (list effect * list emission))) : list byte :=
  sent_bytes [] (down_items cid (trace ≫= fun l => l.2.1)).

Lemma tunnel_run_ok t trace t' sent :
  steps tunnel_step t trace t' -> tunnel_ok sent t ->
  tunnel_ok (fun cid => sent_bytes (sent cid) (down_items cid (trace ≫= fun l => l.2.1))) t'
  /\ Forall (fun l => Forall no_violation l.2.2) trace.
Proof.
  intros Hrun. revert sent. induction Hrun as [t|t1 l t2 ls t3 Hstep _ IH]; intros sent Ht; [by split; [|constructor]|].
  destruct (tunnel_step_ok _ _ _ _ Hstep Ht) as [Ht2 Hq]. destruct (IH _ Ht2) as [Ht3 Hq'].
  split; [|by constructor]. eapply tunnel_ok_ext; [|exact Ht3]. intros cid. simpl.
  by rewrite down_items_app, sent_bytes_app.
Qed.

(** ** Properties *)


(** C16. The two ends agree on the credit of a connection and never blame each
    other for it: what the agent's connection holds, what it sent and what the
    desktop granted but is still on its way add up to at most the credit the
    gateway counts, which is at most the window; and in no run does the agent
    report a credit or protocol violation. *)
Theorem tunnel_credit_agrees a st id now trace t :
  session_pattern id = true -> 1 <= st.(st_remote_port) <= 65535 ->
  steps tunnel_step (opening a st id now) trace t ->
  Forall (fun l => Forall no_violation l.2.2) trace
  /\ forall s cid c, t.(agent_side) = Some s -> s.(a_connections) !! cid = Some c ->
       exists g, t.(gateway).(connections) !! cid = Some g
         /\ held c + up_bytes (up_items cid t.(up)) + windows (down_items cid t.(down)) <= g.(target_credit)
            <= PORT_FORWARD_CREDIT_WINDOW_BYTES
         /\ numbered c.(expected_input_sequence) (down_items cid t.(down)) g.(next_desktop_sequence).
Proof.
  intros Hid Hport Hrun.
  destruct (tunnel_run_ok _ _ _ _ Hrun (opening_ok a st id now Hid Hport)) as [Ht Hq]. split; [done|].
  intros s cid c Hs Hc. pose proof (ok_link _ _ Ht cid) as Hl. rewrite Hs in Hl. simpl in Hl. rewrite Hc in Hl.
  inversion Hl as [| |g ds a0 us sent Hd Hn Hsz Hnum Hw Hi Hsent|]; subst.
  exists g. split; [done|]. split; [|done]. split; [done|].
  by apply (sw_connections _ (ok_gateway _ _ Ht) cid).
Qed.

(** ** A run: the session opens, the desktop opens connection 7 and sends on it *)

Definition sample_desktop (t : tunnel) (m : browser_message) : tunnel :=
  let r := browser_receive true t.(gateway) (Some m) 1 in
  Tunnel r.1 t.(agent_side) (t.(down) ++ sockets r.2) t.(up).

Definition sample_up (t : tunnel) : tunnel :=
  match t.(up) with
  | e :: rest => let r := gateway_hears t.(gateway) e 1 in
                 Tunnel r.1 t.(agent_side) (t.(down) ++ sockets r.2) rest
  | [] => t
  end.

Definition sample_turn (t : tunnel) (e : effect) :=
  stream_turn (to_input e sample_target true true) 1 (world t.(gateway).(s_session_id) t.(agent_side)).

Definition sample_down (t : tunnel) : tunnel :=
  match t.(down) with
  | e :: rest => let '(_, w, out) := sample_turn t e in
                 Tunnel t.(gateway) (w.(a_sessions) !! t.(gateway).(s_session_id)) rest (t.(up) ++ out)
  | [] => t
  end.

Lemma sample_desktop_step t m :
  t.(gateway).(receiving) && browser_message_ok (Some m) = true ->
  exists l, tunnel_step t l (sample_desktop t m).
Proof. intros H. bool_to_prop. eexists. by apply (tunnel_desktop 1 t (Some m)). Qed.

Lemma sample_up_step t : match t.(up) with [] => false | _ => true end = true -> exists l, tunnel_step t l (sample_up t).
Proof. unfold sample_up. destruct (up t) as [|e rest] eqn:E; [done|]. intros _. eexists. exact (tunnel_up 1 t e rest E). Qed.

Lemma sample_down_step t :
  match t.(down) with e :: _ => match (sample_turn t e).1.1 with Some _ => true | None => false end | [] => false end = true ->
  exists l, tunnel_step t l (sample_down t).
Proof.
  unfold sample_down. destruct (down t) as [|e rest] eqn:E; [done|].
  destruct (sample_turn t e) as [[[[]|] w] out] eqn:Ht; simpl; [|done]. intros _. eexists.
  exact (tunnel_down 1 t e rest sample_target true true w out E eq_refl Ht).
Qed.

Definition sample_pod : PortForwardStart :=
  Start "rev-1" (Resource "" "v1" "Pod" (Some "shop") "checkout-0" "uid-1") 8080.

Definition sample_opening : tunnel := opening (Admission "w1" "c1" "u1" 0) sample_pod sample_id 0.

Definition sample_data : list byte := [Byte.x68; Byte.x69].

Definition sample_frame_bytes : list byte :=
  default [] (encode_port_forward_data (Frame sample_id 1 7 0 desktop_to_target sample_data)).

(** Open, receipt; open connection 7, its events; data, and its arrival. *)
Definition sample_opened : tunnel := sample_up (sample_down sample_opening).
Definition sample_asked : tunnel := sample_desktop sample_opened (Text (Some (sample_id, 1, ConnectionOpen 7))).
Definition sample_ready : tunnel := sample_up (sample_up (sample_down sample_asked)).
Definition sample_sent : tunnel := sample_desktop sample_ready (Bytes sample_frame_bytes).
Definition sample_arrived : tunnel := sample_down sample_sent.

Lemma sample_extend t0 t t' trace :
  steps tunnel_step t0 trace t -> (exists l, tunnel_step t l t') -> exists trace', steps tunnel_step t0 trace' t'.
Proof. intros H [l Hl]. exists (trace ++ [l]). eapply steps_app; [exact H|]. eapply steps_cons; [exact Hl | apply steps_nil]. Qed.

Lemma sample_ready_run : exists trace, steps tunnel_step sample_opening trace sample_ready.
Proof.
  assert (H0 : exists trace, steps tunnel_step sample_opening trace sample_opening) by (exists []; apply steps_nil).
  destruct H0 as [t0 H0].
  destruct (sample_extend _ _ _ _ H0 (sample_down_step sample_opening ltac:(vm_compute; reflexivity))) as [t1 H1].
  destruct (sample_extend _ _ _ _ H1 (sample_up_step (sample_down sample_opening)
    ltac:(vm_compute; reflexivity))) as [t2 H2].
  destruct (sample_extend _ _ _ _ H2 (sample_desktop_step sample_opened
    (Text (Some (sample_id, 1, ConnectionOpen 7))) ltac:(vm_compute; reflexivity))) as [t3 H3].
  destruct (sample_extend _ _ _ _ H3 (sample_down_step sample_asked ltac:(vm_compute; reflexivity))) as [t4 H4].
  destruct (sample_extend _ _ _ _ H4 (sample_up_step (sample_down sample_asked)
    ltac:(vm_compute; reflexivity))) as [t5 H5].
  exact (sample_extend _ _ _ _ H5 (sample_up_step (sample_up (sample_down sample_asked))
    ltac:(vm_compute; reflexivity))).
Qed.

Lemma sample_arrived_run : exists trace, steps tunnel_step sample_opening trace sample_arrived.
Proof.
  destruct sample_ready_run as [t6 H6].
  destruct (sample_extend _ _ _ _ H6 (sample_desktop_step sample_ready (Bytes sample_frame_bytes)
    ltac:(vm_compute; reflexivity))) as [t7 H7].
  exact (sample_extend _ _ _ _ H7 (sample_down_step sample_sent ltac:(vm_compute; reflexivity))).
Qed.

(** *** Two races the code loses *)

Definition sample_asks (t : tunnel) (m : desktop_request) : tunnel :=
  sample_desktop t (Text (Some (sample_id, 1, m))).

(** The desktop closes its sending side and sends once more: the gateway lets
    the data through, the agent's [writer.write] raises, and with it the
    receive loop that serves every session of the cluster. *)
Definition sample_half_closed : tunnel :=
  sample_down (sample_asks sample_ready (DesktopHalfClose 7 desktop_to_target)).

Definition sample_late : tunnel := sample_desktop sample_half_closed (Bytes sample_frame_bytes).

Lemma write_after_eof_ends_stream :
  exists trace e rest, steps tunnel_step sample_opening trace sample_late
    /\ sample_late.(down) = e :: rest /\ (sample_turn sample_late e).1.1 = None.
Proof.
  destruct sample_ready_run as [t0 H0].
  destruct (sample_extend _ _ _ _ H0 (sample_desktop_step sample_ready
    (Text (Some (sample_id, 1, DesktopHalfClose 7 desktop_to_target))) ltac:(vm_compute; reflexivity))) as [t1 H1].
  destruct (sample_extend _ _ _ _ H1 (sample_down_step
    (sample_asks sample_ready (DesktopHalfClose 7 desktop_to_target)) ltac:(vm_compute; reflexivity))) as [t2 H2].
  destruct (sample_extend _ _ _ _ H2 (sample_desktop_step sample_half_closed (Bytes sample_frame_bytes)
    ltac:(vm_compute; reflexivity))) as [t3 H3].
  exists t3, (AgentBytes sample_frame_bytes), []. split; [exact H3|]. split; vm_compute; reflexivity.
Qed.

(** The target sends while the desktop closes the connection: the agent counts
    the frame and drops it, so the byte receipt of the closed connection does
    not match and the gateway ends the whole session. *)
Definition sample_move (t : tunnel) (m : M unit) : tunnel :=
  let '(_, w, out) := m (world t.(gateway).(s_session_id) t.(agent_side)) in
  Tunnel t.(gateway) (w.(a_sessions) !! t.(gateway).(s_session_id)) t.(down) (t.(up) ++ out).

Definition sample_reading : tunnel := sample_move sample_ready (reserve_output_credit sample_id 7).
Definition sample_emitting : tunnel := sample_move sample_reading (read_target sample_id 7 (ReadBytes sample_data) 1).
Definition sample_closing : tunnel := sample_down (sample_asks sample_emitting (ConnectionClose 7)).

Lemma close_during_send_ends_session :
  (exists trace, steps tunnel_step sample_opening trace sample_closing)
  /\ (sample_up sample_closing).(gateway).(done) = true
  /\ (sample_up sample_closing).(gateway).(outbound)
     = [OutEvent (Error protocol_violation "Port-forward connection byte receipt is inconsistent." false)].
Proof.
  split; [|split; vm_compute; reflexivity]. destruct sample_ready_run as [t0 H0].
  assert (Hmove : forall t i m, match i with
      | ReserveTurn id' cid => id' = t.(gateway).(s_session_id) /\ m = reserve_output_credit id' cid
      | ReadTurn id' cid r => id' = t.(gateway).(s_session_id) /\ m = read_target id' cid r 1
          /\ forall s, t.(agent_side) = Some s -> read_fits s cid r
      | _ => False
      end -> (m (world t.(gateway).(s_session_id) t.(agent_side))).1.1 = Some tt ->
      exists l, tunnel_step t l (sample_move t m)).
  { intros t i m Hi Hm. unfold sample_move. destruct (m _) as [[r w] out] eqn:E. simpl in Hm. subst r.
    eexists. apply (tunnel_agent t i m w out); [|exact E].
    destruct i; try done; destruct Hi as [-> Hi]; split; try done; destruct Hi as [-> Hi]; eauto. }
  destruct (sample_extend _ _ _ _ H0 (Hmove sample_ready (ReserveTurn sample_id 7) _
    (conj eq_refl eq_refl) ltac:(vm_compute; reflexivity))) as [t1 H1].
  assert (Hfits : forall s, sample_reading.(agent_side) = Some s -> read_fits s 7 (ReadBytes sample_data)).
  { intros s Hs c allowance Hc Hr.
    assert (Hall : (agent_side sample_reading ≫= fun s => reader <$> s.(a_connections) !! 7)
                   = Some (Reading MAX_PORT_FORWARD_FRAME_BYTES)) by (vm_compute; reflexivity).
    rewrite Hs in Hall. simpl in Hall. rewrite Hc in Hall. simpl in Hall. rewrite Hr in Hall.
    injection Hall as ->. by vm_compute. }
  destruct (sample_extend _ _ _ _ H1 (Hmove sample_reading (ReadTurn sample_id 7 (ReadBytes sample_data)) _
    (conj eq_refl (conj eq_refl Hfits)) ltac:(vm_compute; reflexivity))) as [t2 H2].
  destruct (sample_extend _ _ _ _ H2 (sample_desktop_step sample_emitting
    (Text (Some (sample_id, 1, ConnectionClose 7))) ltac:(vm_compute; reflexivity))) as [t3 H3].
  exact (sample_extend _ _ _ _ H3 (sample_down_step
    (sample_asks sample_emitting (ConnectionClose 7)) ltac:(vm_compute; reflexivity))).
Qed.

Lemma sample_arrived_conn :
  (agent_side sample_arrived ≫= fun s => received <$> s.(a_connections) !! 7) = Some sample_data.
Proof. vm_compute. reflexivity. Qed.


Example tunnel_credit_agrees_witness :
  exists trace, steps tunnel_step sample_opening trace sample_arrived
    /\ Forall (fun l => Forall no_violation l.2.2) trace.
Proof.
  destruct sample_arrived_run as [trace Hrun]. exists trace. split; [exact Hrun|].
  refine (proj1 (tunnel_credit_agrees (Admission "w1" "c1" "u1" 0) sample_pod sample_id 0 trace sample_arrived
            eq_refl _ Hrun)). simpl. lia.
Defined.
