(* ===== verification/CommandLifecycle.v ===== *)
(** The lifecycle of a command ([domains/command/lifecycle.py]): statuses, the
    transition table, the kind of operation event a terminal status closes the
    stream with, and the impact identity. *)

From S2P Require Import Prelude PyString Json.

Inductive CommandStatus : Type :=
| QUEUED | LEASED | RUNNING | CANCEL_REQUESTED | CANCELLING | COMPLETED | FAILED | CANCELLED.

#[export] Instance command_status_eq_dec : EqDecision CommandStatus.
Proof. solve_decision. Defined.

(** The constants of [packages.config.constants.CommandStatus]. *)
Definition status_value (s : CommandStatus) : string :=
  match s with
  | QUEUED => "queued" | LEASED => "leased" | RUNNING => "running"
  | CANCEL_REQUESTED => "cancel_requested" | CANCELLING => "cancelling"
  | COMPLETED => "completed" | FAILED => "failed" | CANCELLED => "cancelled"
  end.

Definition ALL_STATUSES : list CommandStatus :=
  [QUEUED; LEASED; RUNNING; CANCEL_REQUESTED; CANCELLING; COMPLETED; FAILED; CANCELLED].

Definition status_of_value (v : string) : option CommandStatus :=
  find (fun s => String.eqb (status_value s) v) ALL_STATUSES.

(** An attempt has the command's statuses and ["expired"]. *)
Inductive CommandAttemptStatus : Type := At (s : CommandStatus) | EXPIRED.

#[export] Instance attempt_status_eq_dec : EqDecision CommandAttemptStatus.
Proof. solve_decision. Defined.

Definition TERMINAL_COMMAND_STATUSES : list CommandStatus := [COMPLETED; FAILED; CANCELLED].
Definition ACTIVE_COMMAND_STATUSES : list CommandStatus :=
  [QUEUED; LEASED; RUNNING; CANCEL_REQUESTED; CANCELLING].

Definition allowed_transitions (s : CommandStatus) : list CommandStatus :=
  match s with
  | QUEUED => [LEASED; CANCELLED; FAILED]
  | LEASED => [QUEUED; RUNNING; CANCEL_REQUESTED; CANCELLED; FAILED]
  | RUNNING => [CANCEL_REQUESTED; COMPLETED; FAILED]
  | CANCEL_REQUESTED => [CANCELLING; CANCELLED; COMPLETED; FAILED]
  | CANCELLING => [CANCELLED; COMPLETED; FAILED]
  | FAILED => [QUEUED]
  | COMPLETED | CANCELLED => []
  end.

Definition command_status_is_terminal (s : CommandStatus) : bool :=
  bool_decide (s ∈ TERMINAL_COMMAND_STATUSES).

Definition command_status_is_active (s : CommandStatus) : bool :=
  bool_decide (s ∈ ACTIVE_COMMAND_STATUSES).

Definition command_transition_allowed (current target : CommandStatus) : bool :=
  bool_decide (current = target) || bool_decide (target ∈ allowed_transitions current).

(** The kinds of operation events. *)
Inductive OperationEventKind : Type := progress | log | completed | failed | cancelled.

#[export] Instance kind_eq_dec : EqDecision OperationEventKind.
Proof. solve_decision. Defined.

(** [None]: the [ValueError] of a status that cannot close the stream. *)
Definition command_terminal_event_kind (s : CommandStatus) (final : bool)
    : option OperationEventKind :=
  if negb final then Some progress
  else match s with
       | COMPLETED => Some completed
       | CANCELLED => Some cancelled
       | FAILED => Some failed
       | _ => None
       end.

(** ** The impact identity

    The digest of the canonical JSON.  The digest and the string escaping (that
    of [ensure_ascii=False]) are parameters. *)
Section Identity.
Context (sha256_hex : string -> string) (quote : string -> string).

Definition command_impact_identity (cluster_id action namespace : string)
    (diff payload : odict json) : string :=
  sha256_hex (canonical_dumps quote (JObj
    [("action", JStr action); ("cluster_id", JStr cluster_id); ("diff", JObj diff);
     ("namespace", JStr namespace); ("payload", JObj payload)])).
End Identity.

(** ** Lemmas *)

Lemma status_of_value_value s : status_of_value (status_value s) = Some s.
Proof. by destruct s. Qed.

Lemma status_of_value_Some v s : status_of_value v = Some s -> v = status_value s.
Proof.
  unfold status_of_value. intros [_ Heq]%find_some. by apply String.eqb_eq in Heq.
Qed.

Lemma terminal_not_active s : command_status_is_terminal s = negb (command_status_is_active s).
Proof. by destruct s. Qed.

#[export] Hint Rewrite status_of_value_value : kyro_simpl.

(** A step of the transition table that changes the status without putting
    the command back in the queue. *)
Definition forward_step (s : CommandStatus) (_ : unit) (s' : CommandStatus) : Prop :=
  command_transition_allowed s s' = true /\ s <> s' /\ s' <> QUEUED.

(** How many forward steps a status leaves at most. *)
Definition remaining_steps (s : CommandStatus) : nat :=
  match s with
  | QUEUED => 5 | LEASED => 4 | RUNNING => 3 | CANCEL_REQUESTED => 2 | CANCELLING => 1
  | COMPLETED | FAILED | CANCELLED => 0
  end%nat.

Lemma forward_step_decreases s l s' :
  forward_step s l s' -> (remaining_steps s' < remaining_steps s)%nat.
Proof.
  unfold forward_step, command_transition_allowed. intros (Hok & Hne & Hq).
  apply orb_true_iff in Hok as [Heq|Hin]; bool_to_prop; [done|].
  destruct s; simpl in Hin; repeat (apply elem_of_cons in Hin as [->|Hin]); simpl; try lia;
    try done; by apply elem_of_nil in Hin.
Qed.

(** ** Properties *)

(** The transition table admits no endless life without a retry: a chain
    of state changes that never returns to the queue has at most as many steps
    as the status has left, five from [QUEUED]. *)
Theorem lifecycle_bounded s ls s' :
  steps forward_step s ls s' -> (length ls + remaining_steps s' <= remaining_steps s)%nat.
Proof.
  induction 1 as [|s1 l s2 ls s3 Hstep _ IH]; simpl; [done|].
  apply forward_step_decreases in Hstep. lia.
Qed.

Example lifecycle_bounded_witness :
  exists ls, steps forward_step QUEUED ls CANCELLED /\ length ls = 5%nat
    /\ (length ls + remaining_steps CANCELLED <= remaining_steps QUEUED)%nat.
Proof.
  assert (H : steps forward_step QUEUED [();();();();()] CANCELLED).
  { unfold forward_step. eapply (steps_cons _ _ _ LEASED); [done|].
    eapply (steps_cons _ _ _ RUNNING); [done|].
    eapply (steps_cons _ _ _ CANCEL_REQUESTED); [done|].
    eapply (steps_cons _ _ _ CANCELLING); [done|].
    eapply (steps_cons _ _ _ CANCELLED); [done|]. apply steps_nil. }
  exists [();();();();()]. split_and!; [exact H | reflexivity | exact (lifecycle_bounded _ _ _ H)].
Defined.

(** The impact identity depends on the content of the diff and of the
    payload, not on the order their keys were inserted in. *)
Theorem impact_identity_order sha256_hex quote cluster_id action namespace diff diff' payload payload' :
  dict_wf diff -> dict_wf payload -> diff ≡ₚ diff' -> payload ≡ₚ payload' ->
  command_impact_identity sha256_hex quote cluster_id action namespace diff payload
  = command_impact_identity sha256_hex quote cluster_id action namespace diff' payload'.
Proof.
  intros Hd Hp Hdp Hpp. unfold command_impact_identity.
  pose proof (canonical_dumps_permutation quote _ _ Hd Hdp) as E1.
  pose proof (canonical_dumps_permutation quote _ _ Hp Hpp) as E2.
  set (jd := JObj diff) in *. set (jd' := JObj diff') in *.
  set (jp := JObj payload) in *. set (jp' := JObj payload') in *.
  clearbody jd jd' jp jp'. cbn [canonical_dumps map fst snd]. by rewrite E1, E2.
Qed.

Example impact_identity_order_witness :
  command_impact_identity (fun s => s) json_string "c" "a" "n"
    [("x", JInt 1); ("y", JInt 2)] []
  = command_impact_identity (fun s => s) json_string "c" "a" "n"
      [("y", JInt 2); ("x", JInt 1)] [].
Proof.
  apply impact_identity_order; [| | apply perm_swap | done].
  - unfold dict_wf, dict_keys; simpl. apply (bool_decide_unpack _). vm_compute. exact I.
  - apply NoDup_nil_2.
Defined.
