(* ===== verification/CommandCatalog.v ===== *)
(** The command catalog and the policy rules ([domains/command/actions.py],
    [builtin_actions.py], [policy.py], [packages/config/control.py],
    [environments.py]).

    Environment variables are arguments: [control_env] is the value of
    [CONTROL_ALLOWED_NAMESPACES], if set; [retry_max_attempts] and
    [retry_delay] are the two retry settings. *)

From S2P Require Import Prelude PyString.

(** ** Environments *)

Inductive EnvironmentClass : Type := SANDBOX | STAGING | PRODUCTION | OTHER.

#[export] Instance environment_class_eq_dec : EqDecision EnvironmentClass.
Proof. solve_decision. Defined.

Definition SANDBOX_ENVIRONMENT : string := "sandbox".
Definition STAGING_ENVIRONMENT : string := "staging".
Definition PRODUCTION_ENVIRONMENT_ALIASES : list string := ["prod"; "production"].

Definition normalize_environment (value : option string) : string :=
  match value with None => "" | Some v => casefold (strip v) end.

Definition classify_environment (value : option string) : EnvironmentClass :=
  let normalized := normalize_environment value in
  if String.eqb normalized SANDBOX_ENVIRONMENT then SANDBOX
  else if String.eqb normalized STAGING_ENVIRONMENT then STAGING
  else if bool_decide (normalized ∈ PRODUCTION_ENVIRONMENT_ALIASES) then PRODUCTION
  else OTHER.

Definition is_sandbox_environment (value : option string) : bool :=
  bool_decide (classify_environment value = SANDBOX).

(** ** Control namespaces *)

Definition SANDBOX_NAMESPACE : string := "sandbox".
Definition TARGET_NAMESPACE : string := "target".
Definition CONTROL_NAMESPACE_DENIED_CODE : string := "control_namespace_not_allowed".
Definition CONTROL_NAMESPACE_DENIED_MESSAGE : string := "namespace is not allowed by control policy".
Definition CONTROL_PROTECTED_NAMESPACES : list string := ["management"].

Definition control_namespace_protected (namespace : string) : bool :=
  bool_decide (namespace ∈ CONTROL_PROTECTED_NAMESPACES).

Definition control_allowed_namespaces (control_env : option string) : list string :=
  let raw := default SANDBOX_NAMESPACE control_env in
  let values := dedup (csv_items raw) in
  let values := match values with [] => [SANDBOX_NAMESPACE] | _ => values end in
  filter (fun v => control_namespace_protected v = false) values.

Definition control_namespace_allowed (control_env : option string) (namespace : string) : bool :=
  bool_decide (namespace ∈ control_allowed_namespaces control_env).

(** ** Actions *)

Record CommandActionSpec : Type := {
  action : string;
  recovery_aliases : list string;
  allowed_namespaces : list string;
  requires_approval : bool;
  requires_approval_outside_sandbox : bool;
  supports_cancel : bool;
  supports_manual_retry : bool;
  max_attempts : Z;
  retry_delay_seconds : Z;
  enforce_control_namespace : bool;
  read_only : bool;
  required_agent_capability : string;
}.

#[export] Instance spec_eq_dec : EqDecision CommandActionSpec.
Proof. solve_decision. Defined.

Definition matches_recovery_action (s : CommandActionSpec) (value : string) : bool :=
  String.eqb value (action s) || bool_decide (value ∈ recovery_aliases s).

Definition allows_namespace (s : CommandActionSpec) (namespace : string) : bool :=
  match allowed_namespaces s with
  | [] => true
  | allowed => bool_decide (namespace ∈ allowed)
  end.

Definition requires_approval_for (s : CommandActionSpec) (namespace : string) : bool :=
  requires_approval s
  || (requires_approval_outside_sandbox s && negb (is_sandbox_environment (Some namespace))).

Inductive catalog_error : Type :=
| InvalidRetryPolicy | CapabilityRequired | RetryNeedsTwoAttempts | DuplicateAction (action : string).

(** [CommandCatalog._specs]. *)
Definition catalog : Type := odict CommandActionSpec.

(** [CommandCatalog.action(...)(marker)]: the checks, then the registration. *)
Definition register (specs : catalog) (s : CommandActionSpec) : result catalog_error catalog :=
  if (max_attempts s <? 1) || (retry_delay_seconds s <? 0) then Err InvalidRetryPolicy
  else if String.eqb (strip (required_agent_capability s)) "" then Err CapabilityRequired
  else if supports_manual_retry s && (max_attempts s <? 2) then Err RetryNeedsTwoAttempts
  else match dict_get (action s) specs with
       | Some existing =>
           if decide (existing = s) then Ok (dict_set (action s) s specs)
           else Err (DuplicateAction (action s))
       | None => Ok (dict_set (action s) s specs)
       end.

Fixpoint register_all (specs : catalog) (declared : list CommandActionSpec)
    : result catalog_error catalog :=
  match declared with
  | [] => Ok specs
  | s :: declared => specs ← register specs s; register_all specs declared
  end.

Definition actions (specs : catalog) : list CommandActionSpec := specs.*2.

Definition allowed_actions (specs : catalog) : list string := map action (actions specs).

Definition spec_for (specs : catalog) (a : string) : option CommandActionSpec :=
  find (fun s => String.eqb (action s) a) (actions specs).

Definition action_for_recovery (specs : catalog) (value : string) : option string :=
  action <$> find (fun s => matches_recovery_action s value) (actions specs).

(** ** Policies *)

(** [Lookup.value(field, default)]: [getattr] of the model. *)
Definition Lookup : Type := string -> option string.

Definition value (target : Lookup) (field dflt : string) : string := default dflt (target field).

Record Rule : Type := { rule_name : string; reason : string; allows : Lookup -> bool }.

Record PolicyRuleConfig : Type := {
  cfg_name : string; cfg_field : string; cfg_reason : string; cfg_expected : option string;
  cfg_allowed_values : list string; cfg_default : string;
}.

Definition EqualsRule (c : PolicyRuleConfig) : Rule :=
  {| rule_name := cfg_name c; reason := cfg_reason c;
     allows := fun target =>
       bool_decide (Some (value target (cfg_field c) (cfg_default c)) = cfg_expected c) |}.

Definition AllowedValuesRule (c : PolicyRuleConfig) : Rule :=
  {| rule_name := cfg_name c; reason := cfg_reason c;
     allows := fun target =>
       bool_decide (value target (cfg_field c) (cfg_default c) ∈ cfg_allowed_values c) |}.

Definition NamespaceAllowlistRule (control_env : option string)
    (name field default_namespace reason_ : string) : Rule :=
  {| rule_name := name; reason := reason_;
     allows := fun target => control_namespace_allowed control_env (value target field default_namespace) |}.

(** [Policy.build]. *)
Definition build_rules (configs : list PolicyRuleConfig) : list Rule :=
  map (fun c => match cfg_allowed_values c with [] => EqualsRule c | _ => AllowedValuesRule c end) configs.

Inductive Result : Type := Allow | Reject (why : string) (reason_code : option string).

Definition allowed (r : Result) : bool := match r with Allow => true | Reject _ _ => false end.

(** [Policy.evaluate]. *)
Fixpoint evaluate (rules : list Rule) (target : Lookup) : Result :=
  match rules with
  | [] => Allow
  | rule :: rules =>
      if allows rule target then evaluate rules target
      else Reject (reason rule) (Some (rule_name rule))
  end.

(** ** The built-in actions *)
Module Command.
Definition APPLY_MANIFEST_ACTION : string := "apply_manifest".
Definition CATALOG_HELM_INSTALL_ACTION : string := "catalog.helm.install".
Definition CATALOG_HELM_INSTALL_CAPABILITY : string := "catalog_helm_install".
Definition CLUSTER_AGENT_UNINSTALL_ACTION : string := "cluster.agent.uninstall".
Definition DEFAULT_ACTION : string := "rollout_restart".
Definition GITOPS_RESOURCE_CONTROL_ACTION : string := "gitops.resource.control".
Definition GITOPS_RESOURCE_CONTROL_CAPABILITY : string := "gitops_control.v1".
Definition HELM_RELEASE_ARTIFACT_READ_ACTION : string := "helm.release.artifact.read".
Definition HELM_RELEASE_ARTIFACT_READ_CAPABILITY : string := "helm_release_artifact_read_v1".
Definition HELM_RELEASE_OPERATION_ACTION : string := "helm.release.operation".
Definition HELM_RELEASE_OPERATION_CAPABILITY : string := "helm_release_operation_cas.v1".
Definition HELM_VALUES_PREVIEW_ACTION : string := "helm.release.values.preview".
Definition HELM_VALUES_PREVIEW_CAPABILITY : string := "helm_release_values_preview.v1".
Definition KUBERNETES_CRONJOB_CONTROL_CAPABILITY : string := "cronjob_control.v1".
Definition KUBERNETES_CRONJOB_RESUME_ACTION : string := "k8s.batch.v1.cronjobs.resume".
Definition KUBERNETES_CRONJOB_SUSPEND_ACTION : string := "k8s.batch.v1.cronjobs.suspend".
Definition KUBERNETES_CRONJOB_TRIGGER_ACTION : string := "k8s.batch.v1.cronjobs.trigger".
Definition KUBERNETES_DAEMONSET_RESTART_ACTION : string := "k8s.apps.v1.daemonsets.restart".
Definition KUBERNETES_DAEMONSET_ROLLBACK_ACTION : string := "k8s.apps.v1.daemonsets.rollback".
Definition KUBERNETES_DEBUG_CAPABILITY : string := "resource_debug.v1".
Definition KUBERNETES_DEPLOYMENT_ROLLBACK_ACTION : string := "k8s.apps.v1.deployments.rollback".
Definition KUBERNETES_DEPLOYMENT_SCALE_ACTION : string := "k8s.apps.v1.deployments.scale".
Definition KUBERNETES_NODE_CONTROL_CAPABILITY : string := "node_control.v1".
Definition KUBERNETES_NODE_CORDON_ACTION : string := "k8s.core.v1.nodes.cordon".
Definition KUBERNETES_NODE_DEBUG_ACTION : string := "k8s.core.v1.nodes.debug".
Definition KUBERNETES_NODE_DEBUG_CLEANUP_ACTION : string := "k8s.core.v1.nodes.debug.cleanup".
Definition KUBERNETES_NODE_DRAIN_ACTION : string := "k8s.core.v1.nodes.drain".
Definition KUBERNETES_NODE_UNCORDON_ACTION : string := "k8s.core.v1.nodes.uncordon".
Definition KUBERNETES_POD_DEBUG_ACTION : string := "k8s.core.v1.pods.debug".
Definition KUBERNETES_RESOURCE_DELETE_ACTION : string := "k8s.resource.delete".
Definition KUBERNETES_RESOURCE_DELETE_CAPABILITY : string := "resource_delete.v1".
Definition KUBERNETES_STATEFULSET_RESTART_ACTION : string := "k8s.apps.v1.statefulsets.restart".
Definition KUBERNETES_STATEFULSET_ROLLBACK_ACTION : string := "k8s.apps.v1.statefulsets.rollback".
Definition KUBERNETES_STATEFULSET_SCALE_ACTION : string := "k8s.apps.v1.statefulsets.scale".
Definition KUBERNETES_WORKLOAD_ROLLBACK_CAPABILITY : string := "workload_rollback.v1".
Definition RCA_TEST_SCENARIO_CLEANUP_ACTION : string := "rca.test.cleanup".
Definition RCA_TEST_SCENARIO_INJECT_ACTION : string := "rca.test.inject".
Definition RESOURCE_FILE_ACTION : string := "resource.files.read".
Definition RESOURCE_FILE_AGENT_CAPABILITY : string := "resource_files.v1".
Definition SERVICE_HTTP_REQUEST_ACTION : string := "service.http.request".
Definition SERVICE_HTTP_REQUEST_AGENT_CAPABILITY : string := "service_http_request_v1".
Definition TRAFFIC_SOURCE_CONNECT_ACTION : string := "traffic.source.connect".
Definition TRAFFIC_SOURCE_CONNECT_CAPABILITY : string := "traffic_source_connect.v1".
Definition TRAFFIC_SOURCE_SELECT_ACTION : string := "traffic.source.select".
Definition TRAFFIC_SOURCE_SELECT_CAPABILITY : string := "traffic_source_select.v1".
Definition DEFAULT_CAPABILITY : string := "command_receiver".
End Command.

Section Builtin.
Import Command.
Context (retry_max_attempts retry_delay : Z).

(** [@command.action(...)]: the name, the recovery aliases, the allowed
    namespaces, then approval (always, outside the sandbox), cancel, manual
    retry, attempts, delay, control namespace, read only, capability. *)
Definition declaration a aliases namespaces approval approval_outside cancel retry attempts delay
    enforce ro capability : CommandActionSpec :=
  {| action := a; recovery_aliases := aliases; allowed_namespaces := namespaces;
     requires_approval := approval; requires_approval_outside_sandbox := approval_outside;
     supports_cancel := cancel; supports_manual_retry := retry; max_attempts := attempts;
     retry_delay_seconds := delay; enforce_control_namespace := enforce; read_only := ro;
     required_agent_capability := capability |}.

Definition builtin_actions : list CommandActionSpec :=
  [declaration DEFAULT_ACTION ["rollout_restart"] [SANDBOX_NAMESPACE; "color-turf"] false true true true
     retry_max_attempts retry_delay true false DEFAULT_CAPABILITY;
   declaration APPLY_MANIFEST_ACTION ["apply_manifest"] [] true false true true
     retry_max_attempts retry_delay true false DEFAULT_CAPABILITY;
   declaration CATALOG_HELM_INSTALL_ACTION [] [SANDBOX_NAMESPACE] false false true true
     retry_max_attempts retry_delay true false CATALOG_HELM_INSTALL_CAPABILITY;
   declaration HELM_RELEASE_OPERATION_ACTION [] [SANDBOX_NAMESPACE] false false true false
     1 0 true false HELM_RELEASE_OPERATION_CAPABILITY;
   declaration KUBERNETES_DEPLOYMENT_SCALE_ACTION ["deployment_scale"] [SANDBOX_NAMESPACE] true false true true
     retry_max_attempts retry_delay true false DEFAULT_CAPABILITY;
   declaration KUBERNETES_STATEFULSET_SCALE_ACTION [] [] true false true true
     retry_max_attempts retry_delay true false DEFAULT_CAPABILITY;
   declaration KUBERNETES_STATEFULSET_RESTART_ACTION [] [] false true true true
     retry_max_attempts retry_delay true false DEFAULT_CAPABILITY;
   declaration KUBERNETES_DAEMONSET_RESTART_ACTION [] [] false true true true
     retry_max_attempts retry_delay true false DEFAULT_CAPABILITY;
   declaration KUBERNETES_NODE_CORDON_ACTION [] [] true false true true
     retry_max_attempts retry_delay false false KUBERNETES_NODE_CONTROL_CAPABILITY;
   declaration KUBERNETES_NODE_UNCORDON_ACTION [] [] true false true true
     retry_max_attempts retry_delay false false KUBERNETES_NODE_CONTROL_CAPABILITY;
   declaration KUBERNETES_NODE_DRAIN_ACTION [] [] false false true false
     1 0 false false KUBERNETES_NODE_CONTROL_CAPABILITY;
   declaration KUBERNETES_POD_DEBUG_ACTION [] [] false false true false
     1 0 true false KUBERNETES_DEBUG_CAPABILITY;
   declaration KUBERNETES_NODE_DEBUG_ACTION [] [] false false true false
     1 0 false false KUBERNETES_NODE_CONTROL_CAPABILITY;
   declaration KUBERNETES_NODE_DEBUG_CLEANUP_ACTION [] [] false false true false
     1 0 false false KUBERNETES_NODE_CONTROL_CAPABILITY;
   declaration KUBERNETES_CRONJOB_TRIGGER_ACTION [] [] false false true true
     retry_max_attempts retry_delay true false KUBERNETES_CRONJOB_CONTROL_CAPABILITY;
   declaration KUBERNETES_CRONJOB_SUSPEND_ACTION [] [] false false true true
     retry_max_attempts retry_delay true false KUBERNETES_CRONJOB_CONTROL_CAPABILITY;
   declaration KUBERNETES_CRONJOB_RESUME_ACTION [] [] false false true true
     retry_max_attempts retry_delay true false KUBERNETES_CRONJOB_CONTROL_CAPABILITY;
   declaration KUBERNETES_RESOURCE_DELETE_ACTION [] [] false false true false
     1 0 false false KUBERNETES_RESOURCE_DELETE_CAPABILITY;
   declaration GITOPS_RESOURCE_CONTROL_ACTION [] [] false false true false
     1 0 false false GITOPS_RESOURCE_CONTROL_CAPABILITY;
   declaration KUBERNETES_DEPLOYMENT_ROLLBACK_ACTION [] [] false false true false
     1 0 true false KUBERNETES_WORKLOAD_ROLLBACK_CAPABILITY;
   declaration KUBERNETES_STATEFULSET_ROLLBACK_ACTION [] [] false false true false
     1 0 true false KUBERNETES_WORKLOAD_ROLLBACK_CAPABILITY;
   declaration KUBERNETES_DAEMONSET_ROLLBACK_ACTION [] [] false false true false
     1 0 true false KUBERNETES_WORKLOAD_ROLLBACK_CAPABILITY;
   declaration RCA_TEST_SCENARIO_INJECT_ACTION [] [SANDBOX_NAMESPACE] false false true false
     1 0 true false DEFAULT_CAPABILITY;
   declaration RCA_TEST_SCENARIO_CLEANUP_ACTION [] [SANDBOX_NAMESPACE] false false true false
     1 0 true false DEFAULT_CAPABILITY;
   declaration CLUSTER_AGENT_UNINSTALL_ACTION [] [TARGET_NAMESPACE] false false true false
     1 0 true false DEFAULT_CAPABILITY;
   declaration SERVICE_HTTP_REQUEST_ACTION [] [] false false true false
     1 0 false true SERVICE_HTTP_REQUEST_AGENT_CAPABILITY;
   declaration RESOURCE_FILE_ACTION [] [] false false true false
     1 0 false true RESOURCE_FILE_AGENT_CAPABILITY;
   declaration TRAFFIC_SOURCE_SELECT_ACTION [] [] false false true false
     1 0 false false TRAFFIC_SOURCE_SELECT_CAPABILITY;
   declaration TRAFFIC_SOURCE_CONNECT_ACTION [] [] false false true false
     1 0 false false TRAFFIC_SOURCE_CONNECT_CAPABILITY;
   declaration HELM_RELEASE_ARTIFACT_READ_ACTION [] [] false false true false
     1 0 false true HELM_RELEASE_ARTIFACT_READ_CAPABILITY;
   declaration HELM_VALUES_PREVIEW_ACTION [] [SANDBOX_NAMESPACE] false false true false
     1 0 true true HELM_VALUES_PREVIEW_CAPABILITY].
End Builtin.

(** Importing [builtin_actions] runs the registrations in order. *)
Definition builtin_catalog (retry_max_attempts retry_delay : Z) : result catalog_error catalog :=
  register_all [] (builtin_actions retry_max_attempts retry_delay).

(** ** Lemmas *)

Lemma control_allowed_unprotected control_env ns :
  ns ∈ control_allowed_namespaces control_env -> control_namespace_protected ns = false.
Proof. unfold control_allowed_namespaces. intros [H _]%list_elem_of_filter. exact H. Qed.

(** What a declaration must satisfy to be registered. *)
Definition spec_valid (s : CommandActionSpec) : Prop :=
  1 <= max_attempts s /\ 0 <= retry_delay_seconds s
  /\ strip (required_agent_capability s) <> ""
  /\ (supports_manual_retry s = true -> 2 <= max_attempts s).

(** A catalog: one valid spec per action, under its own name. *)
Definition catalog_wf (specs : catalog) : Prop :=
  dict_wf specs /\ Forall (fun kv => kv.1 = action kv.2 /\ spec_valid kv.2) specs.

Lemma register_inv specs s specs' :
  register specs s = Ok specs' ->
  spec_valid s /\ specs' = dict_set (action s) s specs
  /\ (dict_get (action s) specs = None \/ dict_get (action s) specs = Some s).
Proof.
  unfold register, spec_valid. intros H.
  destruct (_ || _) eqn:E1; [done|]. destruct (String.eqb (strip _) _) eqn:E2; [done|].
  destruct (_ && _) eqn:E3; [done|]. bool_to_prop. split_and!; try lia; try done.
  - intros Hr. rewrite Hr in E3. simpl in E3. bool_to_prop. lia.
  - repeat break; done.
  - repeat break; auto.
Qed.

Lemma dict_set_Forall {V} (P : string * V -> Prop) k v (d : odict V) :
  (forall k', k' = k -> P (k', v)) -> Forall P d -> Forall P (dict_set k v d).
Proof.
  intros Hv. induction 1 as [|[k' v'] d Hk Hd IH]; simpl; [by auto|].
  case_decide; constructor; auto.
Qed.

Lemma register_wf specs s specs' : catalog_wf specs -> register specs s = Ok specs' -> catalog_wf specs'.
Proof.
  intros [Hwf Hall] (Hv & -> & _)%register_inv. split; [by apply dict_set_wf|].
  apply dict_set_Forall; [|done]. by intros ? ->.
Qed.

Lemma register_all_wf declared specs specs' :
  catalog_wf specs -> register_all specs declared = Ok specs' -> catalog_wf specs'.
Proof.
  revert specs. induction declared as [|s declared IH]; simpl; intros specs Hwf H; [by simplify_eq|].
  apply result_bind_inv in H as (specs1 & H1 & H2). eauto using register_wf.
Qed.

Lemma catalog_wf_nil : catalog_wf [].
Proof. split; [apply NoDup_nil_2 | constructor]. Qed.

#[export] Hint Resolve catalog_wf_nil register_wf register_all_wf : kyro.

Lemma spec_for_action specs a s : spec_for specs a = Some s -> action s = a.
Proof. unfold spec_for. intros [_ H]%find_some. by apply String.eqb_eq. Qed.

Lemma spec_for_In specs a s : spec_for specs a = Some s -> s ∈ actions specs.
Proof. unfold spec_for. intros [H _]%find_some. by apply list_elem_of_In. Qed.

(** In a well-formed catalog looking up by the [action] field is the dict
    lookup. *)
Lemma spec_for_get specs a : catalog_wf specs -> spec_for specs a = dict_get a specs.
Proof.
  intros [_ Hall]. unfold spec_for, actions. induction Hall as [|[k s] specs [Hk _] _ IH]; [done|].
  simpl in *. subst. case_decide.
  - subst. by rewrite String.eqb_refl.
  - destruct (String.eqb_spec (action s) a); [congruence|done].
Qed.

Lemma spec_for_valid specs a s : catalog_wf specs -> spec_for specs a = Some s -> spec_valid s.
Proof.
  intros Hwf H. rewrite spec_for_get in H by done. apply dict_get_Some_elem in H.
  destruct Hwf as [_ Hall]. rewrite Forall_forall in Hall. by apply Hall in H as [_ ?].
Qed.

Lemma register_all_ok_valid declared specs specs' :
  register_all specs declared = Ok specs' -> Forall spec_valid declared.
Proof.
  revert specs. induction declared as [|s declared IH]; simpl; intros specs H; [constructor|].
  apply result_bind_inv in H as (specs1 & H1 & H2). apply register_inv in H1 as [Hv _]. eauto.
Qed.

Lemma evaluate_allow_iff rules target :
  evaluate rules target = Allow <-> Forall (fun r => allows r target = true) rules.
Proof.
  induction rules as [|r rules IH]; simpl; [split; auto|].
  rewrite Forall_cons. destruct (allows r target); naive_solver.
Qed.

Lemma register_keeps specs s specs' a s' :
  register specs s = Ok specs' -> dict_get a specs = Some s' -> dict_get a specs' = Some s'.
Proof.
  intros (_ & -> & Hget)%register_inv Ha. rewrite dict_get_set. case_decide; [|done].
  subst. destruct Hget; congruence.
Qed.

Lemma register_all_keeps declared specs specs' a s' :
  register_all specs declared = Ok specs' -> dict_get a specs = Some s' ->
  dict_get a specs' = Some s'.
Proof.
  revert specs. induction declared as [|s declared IH]; simpl; intros specs H Ha; [by simplify_eq|].
  apply result_bind_inv in H as (specs1 & H1 & H2). eauto using register_keeps.
Qed.

Lemma register_all_serves declared specs specs' s :
  register_all specs declared = Ok specs' -> s ∈ declared -> dict_get (action s) specs' = Some s.
Proof.
  revert specs. induction declared as [|s0 declared IH]; simpl; intros specs H Hin; [set_solver|].
  apply result_bind_inv in H as (specs1 & H1 & H2). apply elem_of_cons in Hin as [->|Hin]; [|eauto].
  eapply register_all_keeps; [done|]. apply register_inv in H1 as (_ & -> & _).
  apply dict_get_set_eq.
Qed.

Lemma register_all_only declared specs specs' a s :
  register_all specs declared = Ok specs' -> dict_get a specs' = Some s ->
  dict_get a specs = Some s \/ s ∈ declared.
Proof.
  revert specs. induction declared as [|s0 declared IH]; simpl; intros specs H Ha; [simplify_eq; auto|].
  apply result_bind_inv in H as (specs1 & H1 & H2). destruct (IH _ H2 Ha) as [Hs|Hs]; [|set_solver].
  apply register_inv in H1 as (_ & -> & _). rewrite dict_get_set in Hs. case_decide; set_solver.
Qed.

Lemma register_fresh specs s :
  spec_valid s -> dict_get (action s) specs = None ->
  register specs s = Ok (dict_set (action s) s specs).
Proof.
  intros (H1 & H2 & H3 & H4) Hget. unfold register. rewrite Hget.
  rewrite (proj2 (Z.ltb_ge _ _)) by done. rewrite (proj2 (Z.ltb_ge _ _)) by done.
  rewrite (proj2 (String.eqb_neq _ _)) by done. simpl.
  destruct (supports_manual_retry s); [|done]. by rewrite (proj2 (Z.ltb_ge _ _)) by auto.
Qed.

Lemma register_all_fresh declared specs :
  Forall spec_valid declared -> NoDup (map action declared) ->
  Forall (fun s => dict_get (action s) specs = None) declared ->
  is_ok (register_all specs declared) = true.
Proof.
  revert specs. induction declared as [|s declared IH]; simpl; intros specs Hv Hnd Hf; [done|].
  apply Forall_cons in Hv as [Hs Hv], Hf as [Hfs Hf]. apply NoDup_cons in Hnd as [Hni Hnd].
  rewrite register_fresh by done. rewrite result_bind_ok. apply IH; [done..|].
  rewrite Forall_forall in Hf |- *. intros s' Hs'. rewrite dict_get_set_ne; [by auto|].
  intros Heq. destruct Hni. rewrite <- Heq. by apply list_elem_of_fmap_2.
Qed.

(** The names of the built-in actions are distinct whatever the settings. *)
Lemma builtin_actions_NoDup m d : NoDup (map action (builtin_actions m d)).
Proof. apply (bool_decide_unpack _). vm_compute. exact I. Qed.

Lemma builtin_actions_valid m d : 2 <= m -> 0 <= d -> Forall spec_valid (builtin_actions m d).
Proof.
  intros Hm Hd. unfold builtin_actions.
  repeat constructor; cbn; try lia; try (intros _; lia); try discriminate; try done.
Qed.

(** ** Properties *)

(** Whatever the declarations, if loading them does not raise then each is
    served as declared under its own name (no later module has replaced it),
    nothing else is served, and every served spec has a consistent retry
    policy. *)
Theorem catalog_serves_declared declared specs :
  register_all [] declared = Ok specs ->
  Forall (fun s => spec_for specs (action s) = Some s) declared
  /\ forall a s, spec_for specs a = Some s -> s ∈ declared /\ action s = a /\ spec_valid s.
Proof.
  intros H. assert (Hwf : catalog_wf specs) by eauto with kyro. split.
  - apply Forall_forall. intros s Hs. rewrite spec_for_get by done. by eapply register_all_serves.
  - intros a s Hs. split_and!; [|by eapply spec_for_action|by eapply spec_for_valid].
    rewrite spec_for_get in Hs by done. by destruct (register_all_only _ _ _ _ _ H Hs).
Qed.

Example catalog_serves_declared_witness :
  exists specs, builtin_catalog 3 5 = Ok specs
    /\ Forall (fun s => spec_for specs (action s) = Some s) (builtin_actions 3 5).
Proof.
  destruct (builtin_catalog 3 5) as [specs|] eqn:E.
  - exists specs. split; [reflexivity|]. exact (proj1 (catalog_serves_declared _ specs E)).
  - exfalso. vm_compute in E. discriminate E.
Defined.

(** The built-in actions load exactly when the retry settings allow a
    retry: [COMMAND_RETRY_MAX_ATTEMPTS] of at least two and a non-negative
    delay; with any other setting importing them raises. *)
Theorem builtin_catalog_loads retry_max_attempts retry_delay :
  is_ok (builtin_catalog retry_max_attempts retry_delay) = true
  <-> 2 <= retry_max_attempts /\ 0 <= retry_delay.
Proof.
  split.
  - unfold builtin_catalog. destruct (register_all _ _) as [specs|] eqn:E; [|done]. intros _.
    apply register_all_ok_valid in E. apply Forall_inv in E as (_ & Hd & _ & Hm).
    split; [by apply Hm | exact Hd].
  - intros [Hm Hd]. apply register_all_fresh.
    + by apply builtin_actions_valid.
    + apply builtin_actions_NoDup.
    + by apply Forall_forall.
Qed.

(** The [management] namespace passes no policy that carries the
    allowlist rule, whatever [CONTROL_ALLOWED_NAMESPACES] says. *)
Theorem management_namespace_refused control_env rules name field dflt why target :
  value target field dflt = "management" ->
  NamespaceAllowlistRule control_env name field dflt why ∈ rules ->
  allowed (evaluate rules target) = false.
Proof.
  intros Hv Hin. destruct (evaluate rules target) eqn:E; [|done].
  apply evaluate_allow_iff in E. rewrite Forall_forall in E. specialize (E _ Hin).
  cbn in E. rewrite Hv in E. unfold control_namespace_allowed in E. bool_to_prop.
  match goal with H : _ ∈ _ |- _ => apply control_allowed_unprotected in H; by vm_compute in H end.
Qed.

Example management_namespace_refused_witness :
  allowed (evaluate [NamespaceAllowlistRule (Some "sandbox, management") "rule" "namespace" "sandbox" "no"]
             (fun _ => Some "management")) = false.
Proof. eapply management_namespace_refused; [reflexivity | apply list_elem_of_here]. Defined.
