(* ===== verification/CommandStore.v ===== *)
(** The command store ([domains/command/repository.py], [models.py]).

    Every operation is one transaction: a function on the tables that either
    commits new tables and a reply or raises ([Err]) and leaves them as they
    were.  Row locks and advisory locks serialize the transactions, so they
    have no counterpart.  [now] is the transaction's [now()], in microseconds;
    the expiry a client computes from its own clock ([datetime.now(UTC) +
    lease_seconds]) and the identifiers drawn by [uuid4] are arguments.

    The command plan and the results are JSON objects.  A field the code
    converts with [str] is a JSON string here: another type is outside the
    model and is the error [ForeignField]. *)

From stdpp Require Import pretty.
From S2P Require Import Prelude PyString Json EventStore Outbox CommandLifecycle CommandCatalog.
From coqutil Require Import Datatypes.RecordSettersUsingExistingGetters.

#[global] Open Scope Z_scope.

Arguments RecordSettersUsingExistingGetters.const {E} newValue _ /.

(** ** Tables *)

Record AgentCommand : Type := {
  c_command_id : string;
  c_workspace_id : string;
  c_correlation_id : string;
  c_cluster_id : string;
  c_action : string;
  c_priority : Z;
  c_payload : odict json;
  c_status : CommandStatus;
  c_lease_id : option string;
  c_agent_id : option string;
  c_leased_until : option Z;
  c_started_at : option Z;
  c_completed_at : option Z;
  c_result : odict json;
  c_confirmation_event_id : option string;
  c_impact_identity : string;
  c_direct_execution : bool;
  c_attempt_count : Z;
  c_active_attempt_id : option string;
  c_cancel_requested_at : option Z;
  c_cancel_requested_by : option string;
  c_cancel_reason : option string;
  c_cancel_accepted_at : option Z;
  c_cancel_generation : Z;
  c_terminal_event_id : option string;
  c_created_at : Z;
  c_updated_at : Z;
}.

Record AgentCommandAttempt : Type := {
  a_attempt_id : string;
  a_command_id : string;
  a_workspace_id : string;
  a_cluster_id : string;
  a_attempt_no : Z;
  a_status : CommandAttemptStatus;
  a_available_at : Z;
  a_lease_id : option string;
  a_agent_id : option string;
  a_leased_until : option Z;
  a_started_at : option Z;
  a_completed_at : option Z;
  a_result : odict json;
  a_created_at : Z;
  a_updated_at : Z;
}.

Record CommandControlAction : Type := {
  k_control_id : string;
  k_workspace_id : string;
  k_command_id : string;
  k_action : string;
  k_idempotency_key : string;
  k_requested_by : string;
  k_reason : option string;
  k_outcome : string;
  k_event_id : string;
  k_audit_event_id : string;
  k_attempt_id : option string;
  k_details : odict json;
  k_updated_at : Z;
}.

Record CommandOperationEventCursor : Type := {
  last_sequence : Z;
  terminal_sequence : option Z;
  cur_updated_at : Z;
}.

Record CommandOperationEvent : Type := {
  ev_workspace_id : string;
  ev_command_id : string;
  ev_sequence : Z;
  ev_cluster_id : string;
  ev_kind : OperationEventKind;
  ev_payload : odict json;
  ev_occurred_at : Z;
}.

Record store : Type := {
  commands : list AgentCommand;
  command_attempts : list AgentCommandAttempt;
  controls : list CommandControlAction;
  cursors : gmap (string * string) CommandOperationEventCursor;
  op_events : list CommandOperationEvent;
  bus : tables;
  notified : list string;
}.

(** What the broker and the browser are told after the commit. *)
Record OperationEvent : Type := {
  oe_command_id : string;
  oe_sequence : Z;
  oe_kind : OperationEventKind;
  oe_payload : odict json;
  oe_occurred_at : Z;
}.

Inductive command_error : Type :=
| ValueError (message : string)
| ForeignField (name : string)
| IntegrityError
| CommandControlNotFound
| CommandControlConflict (message : string)
| DuplicateCommandControl (control : CommandControlAction)
| AgentCommandCapacityExceeded (action : string).

Abbreviation transaction A := (result command_error (store * A)) (only parsing).

(** [UPDATE ... SET f WHERE p] on a table, and the rows it returns. *)
Definition update_where {A} (p : A -> bool) (f : A -> A) (rows : list A) : list A :=
  map (fun r => if p r then f r else r) rows.

Definition returning {A} (p : A -> bool) (f : A -> A) (rows : list A) : list A :=
  map f (base.filter (fun r => p r = true) rows).

Definition update_commands p f (st : store) : store := st <| commands ::= update_where p f |>.
Definition update_attempts p f (st : store) : store := st <| command_attempts ::= update_where p f |>.

Definition opt_eqb (o : option string) (s : string) : bool := bool_decide (o = Some s).
Definition status_in (s : CommandStatus) (l : list CommandStatus) : bool := bool_decide (s ∈ l).
Definition attempt_in (s : CommandAttemptStatus) (l : list CommandStatus) : bool :=
  match s with At s => status_in s l | EXPIRED => false end.

(** The row of a command in its workspace. *)
Definition is_command (workspace_id command_id : string) (r : AgentCommand) : bool :=
  String.eqb (c_workspace_id r) workspace_id && String.eqb (c_command_id r) command_id.

Definition find_command (workspace_id command_id : string) (st : store) : option AgentCommand :=
  find (is_command workspace_id command_id) (commands st).

(** ** Reading JSON fields *)

Definition field_str (d : odict json) (key dflt : string) : result command_error string :=
  match dict_get key d with
  | None => Ok dflt
  | Some (JStr s) => Ok s
  | Some _ => Err (ForeignField key)
  end.

(** [str(d.get(key) or dflt)]. *)
Definition field_str_or (d : odict json) (key dflt : string) : result command_error string :=
  match dict_get key d with
  | None | Some JNull => Ok dflt
  | Some (JStr s) => Ok (default dflt (if String.eqb s "" then None else Some s))
  | Some _ => Err (ForeignField key)
  end.

Definition required_field (d : odict json) (key : string) : result command_error string :=
  match dict_get key d with Some (JStr s) => Ok s | _ => Err (ForeignField key) end.

Definition get_dict (d : odict json) (key : string) : odict json :=
  match dict_get key d with Some (JObj fields) => fields | _ => [] end.

(** [d.get(key) == s] for a string [s]. *)
Definition field_is (d : odict json) (key s : string) : bool :=
  match dict_get key d with Some (JStr v) => String.eqb v s | _ => false end.

(** [result.get("retryable") is True]. *)
Definition retryable (result : odict json) : bool :=
  match dict_get "retryable" result with Some (JBool b) => b | _ => false end.

(** ** Operation events *)

Definition terminal_kind (k : OperationEventKind) : bool :=
  bool_decide (k ∈ [completed; failed; cancelled]).

(** The cursor after [insert ... on conflict do nothing] and the update, with
    the sequence it hands out: [None] once it has been closed. *)
Definition advance_cursor (now : Z) (kind : OperationEventKind)
    (existing : option CommandOperationEventCursor)
    : option (CommandOperationEventCursor * Z) :=
  let cursor := default {| last_sequence := 0; terminal_sequence := None; cur_updated_at := now |} existing in
  match terminal_sequence cursor with
  | Some _ => None
  | None =>
      let next := last_sequence cursor + 1 in
      Some ({| last_sequence := next;
               terminal_sequence := if terminal_kind kind then Some next else None;
               cur_updated_at := now |}, next)
  end.

Definition stage_command_operation_event_in_transaction (now : Z) (workspace_id command_id : string)
    (kind : OperationEventKind) (payload : odict json) (st : store)
    : transaction (option OperationEvent) :=
  raw ← field_str payload "cluster_id" "";
  let cluster_id := strip raw in
  if String.eqb workspace_id "" || String.eqb command_id "" || String.eqb cluster_id ""
  then Err (ValueError "operation events require workspace, command, and cluster identity")
  else match advance_cursor now kind (cursors st !! (workspace_id, command_id)) with
  | None => Ok (st, None)
  | Some (cursor, sequence) =>
      if existsb (fun e => String.eqb (ev_workspace_id e) workspace_id
                           && String.eqb (ev_command_id e) command_id
                           && (ev_sequence e =? sequence)) (op_events st)
      then Err IntegrityError
      else Ok (st <| cursors ::= <[(workspace_id, command_id) := cursor]> |>
                  <| op_events ::= fun l => l ++
                    [{| ev_workspace_id := workspace_id; ev_command_id := command_id;
                        ev_sequence := sequence; ev_cluster_id := cluster_id; ev_kind := kind;
                        ev_payload := payload; ev_occurred_at := now |}] |>,
               Some {| oe_command_id := command_id; oe_sequence := sequence; oe_kind := kind;
                       oe_payload := payload; oe_occurred_at := now |})
  end.

(** The asynchronous twin runs the same statements. *)
Definition append_command_operation_event_in_transaction :=
  stage_command_operation_event_in_transaction.

Definition append_command_operation_event (now : Z) (workspace_id command_id : string)
    (kind : OperationEventKind) (payload : odict json) (st : store)
    : transaction (option OperationEvent) :=
  raw ← field_str payload "cluster_id" "";
  let workspace := strip workspace_id in
  let command := strip command_id in
  let cluster_id := strip raw in
  if String.eqb workspace "" || String.eqb command "" || String.eqb cluster_id ""
  then Err (ValueError "operation events require workspace, command, and cluster identity")
  else append_command_operation_event_in_transaction now workspace command kind
         (dict_update [("cluster_id", JStr cluster_id)] payload) st.

Definition stage_integration_operation_event (now : Z) (workspace_id operation_id cluster_id : string)
    (payload : odict json) (kind : OperationEventKind) (st : store)
    : transaction (option OperationEvent) :=
  stage_command_operation_event_in_transaction now workspace_id operation_id kind
    (dict_update [("cluster_id", JStr cluster_id)] payload) st.

Fixpoint insert_by_sequence (e : CommandOperationEvent) (l : list CommandOperationEvent) :=
  match l with
  | [] => [e]
  | e' :: l' => if ev_sequence e <=? ev_sequence e' then e :: l else e' :: insert_by_sequence e l'
  end.

Definition stream (workspace_id command_id : string) (st : store) : list CommandOperationEvent :=
  base.filter (fun e => ev_workspace_id e = workspace_id /\ ev_command_id e = command_id) (op_events st).

Definition to_operation_event (e : CommandOperationEvent) : OperationEvent :=
  {| oe_command_id := ev_command_id e; oe_sequence := ev_sequence e; oe_kind := ev_kind e;
     oe_payload := ev_payload e; oe_occurred_at := ev_occurred_at e |}.

Definition list_command_operation_events (workspace_id command_id : string) (after_sequence limit : Z)
    (st : store) : result command_error (list OperationEvent) :=
  if after_sequence <? 0 then Err (ValueError "operation event cursor must be non-negative")
  else Ok (map to_operation_event
             (take (Z.to_nat (Z.max 1 (Z.min limit 1000)))
                (foldr insert_by_sequence []
                   (base.filter (fun e => after_sequence < ev_sequence e)
                      (stream workspace_id command_id st))))).

(** The cursor and the cluster of the last event. *)
Definition get_command_operation_event_context (workspace_id command_id : string) (st : store)
    : option (Z * option Z * option string) :=
  cursor ← cursors st !! (workspace_id, command_id);
  Some (last_sequence cursor, terminal_sequence cursor,
        ev_cluster_id <$> last (foldr insert_by_sequence [] (stream workspace_id command_id st))).

(** ** Creating commands *)

Definition DEFAULT_WORKSPACE_ID : string := "default".
Definition COMMAND_PRIORITY_HIGH : Z := 100.

(** [str(plan.get("workspace_id", DEFAULT_WORKSPACE_ID))] and
    [str(plan["cluster_id"])]. *)
Definition plan_workspace (plan : odict json) : result command_error string :=
  field_str plan "workspace_id" DEFAULT_WORKSPACE_ID.

Definition plan_cluster (plan : odict json) : result command_error string :=
  required_field plan "cluster_id".

(** [int(plan.get("priority") or COMMAND_PRIORITY_HIGH)]. *)
Definition plan_priority (plan : odict json) : result command_error Z :=
  match dict_get "priority" plan with
  | None | Some JNull => Ok COMMAND_PRIORITY_HIGH
  | Some (JInt z) => Ok (if z =? 0 then COMMAND_PRIORITY_HIGH else z)
  | Some _ => Err (ForeignField "priority")
  end.

Definition plan_direct (plan : odict json) : result command_error bool :=
  match dict_get "direct_execution" plan with
  | None => Ok false
  | Some (JBool b) => Ok b
  | Some _ => Err (ForeignField "direct_execution")
  end.

Definition wakeup_key (workspace_id cluster_id : string) : string :=
  workspace_id +:+ "/" +:+ cluster_id.

(** [pg_notify]: delivered when the transaction commits. *)
Definition notify_agent_command (workspace_id cluster_id : string) (st : store) : store :=
  st <| notified ::= fun l => l ++ [wakeup_key workspace_id cluster_id] |>.

(** [on conflict (attempt_id) do nothing]; the other unique constraint,
    [(command_id, attempt_no)], still raises. *)
Definition agent_command_attempt_insert (now : Z) (attempt_id command_id workspace_id cluster_id : string)
    (attempt_no : Z) (status : CommandStatus) (available_at : Z) (st : store)
    : result command_error store :=
  if existsb (fun a => String.eqb (a_attempt_id a) attempt_id) (command_attempts st) then Ok st
  else if existsb (fun a => String.eqb (a_command_id a) command_id && (a_attempt_no a =? attempt_no))
            (command_attempts st)
  then Err IntegrityError
  else Ok (st <| command_attempts ::= fun l => l ++
    [{| a_attempt_id := attempt_id; a_command_id := command_id; a_workspace_id := workspace_id;
        a_cluster_id := cluster_id; a_attempt_no := attempt_no; a_status := At status;
        a_available_at := available_at; a_lease_id := None; a_agent_id := None;
        a_leased_until := None; a_started_at := None; a_completed_at := None; a_result := [];
        a_created_at := now; a_updated_at := now |}] |>).

Section Store.
(** The digest, the JSON string escaping and the catalog of actions. *)
Context (sha256_hex : string -> string) (quote : string -> string) (specs : catalog).

Definition agent_command_values (now : Z) (correlation_id : string) (plan : odict json)
    (status : CommandStatus) (confirmation_event_id : option string)
    : result command_error AgentCommand :=
  workspace_id ← plan_workspace plan;
  cluster_id ← plan_cluster plan;
  priority ← plan_priority plan;
  command_id ← required_field plan "command_id";
  action ← required_field plan "action";
  let payload_body := get_dict plan "payload" in
  payload_namespace ← field_str_or payload_body "namespace" "";
  namespace ← field_str_or plan "namespace" payload_namespace;
  direct ← plan_direct plan;
  Ok {| c_command_id := command_id; c_workspace_id := workspace_id;
        c_correlation_id := correlation_id; c_cluster_id := cluster_id; c_action := action;
        c_priority := priority; c_payload := plan; c_status := status; c_lease_id := None;
        c_agent_id := None; c_leased_until := None; c_started_at := None; c_completed_at := None;
        c_result := []; c_confirmation_event_id := confirmation_event_id;
        c_impact_identity := command_impact_identity sha256_hex quote cluster_id action namespace
                               (get_dict plan "diff") payload_body;
        c_direct_execution := direct; c_attempt_count := 0; c_active_attempt_id := None;
        c_cancel_requested_at := None; c_cancel_requested_by := None; c_cancel_reason := None;
        c_cancel_accepted_at := None; c_cancel_generation := 0; c_terminal_event_id := None;
        c_created_at := now; c_updated_at := now |}.

(** [insert ... on conflict (command_id) do nothing returning command_id]. *)
Definition agent_command_insert (row : AgentCommand) (st : store) : store * bool :=
  if existsb (fun r => String.eqb (c_command_id r) (c_command_id row)) (commands st)
  then (st, false)
  else (st <| commands ::= fun l => l ++ [row] |>, true).

(** The [where] of the queue projection's conflict update. *)
Definition unprojected (r : AgentCommand) : bool :=
  bool_decide (c_status r = QUEUED) && is_none (c_active_attempt_id r) && (c_attempt_count r =? 0).

Definition agent_command_queue_upsert (now : Z) (row : AgentCommand) (attempt_id : string) (st : store)
    : store * bool :=
  let project r := r <| c_attempt_count := 1 |> <| c_active_attempt_id := Some attempt_id |>
                     <| c_updated_at := now |> in
  let conflicting r := String.eqb (c_command_id r) (c_command_id row) in
  match find conflicting (commands st) with
  | None => (st <| commands ::= fun l => l ++ [project row] |>, true)
  | Some existing =>
      if unprojected existing
      then (update_commands (fun r => conflicting r && unprojected r) project st, true)
      else (st, false)
  end.

(** The commands an action keeps busy on a cluster. *)
Definition active_commands (workspace_id cluster_id action : string) (st : store) : list AgentCommand :=
  base.filter (fun r => c_workspace_id r = workspace_id /\ c_cluster_id r = cluster_id
                        /\ c_action r = action /\ c_status r ∈ ACTIVE_COMMAND_STATUSES) (commands st).

Definition count_active_agent_commands (workspace_id cluster_id action : string) (st : store) : Z :=
  Z.of_nat (length (active_commands workspace_id cluster_id action st)).

(** The capacity gate: [None] is no gate. *)
Definition capacity_gate (plan : odict json) (max_active_per_action : option Z) (st : store)
    : result command_error () :=
  match max_active_per_action with
  | None => Ok ()
  | Some max =>
      if max <? 1 then Err (ValueError "command capacity must be positive")
      else workspace_id ← plan_workspace plan;
           cluster_id ← plan_cluster plan;
           action ← required_field plan "action";
           if max <=? count_active_agent_commands workspace_id cluster_id action st
           then Err (AgentCommandCapacityExceeded action) else Ok ()
  end.

Definition stage_logical_command_acceptance_in_transaction (now : Z) (correlation_id : string)
    (plan : odict json) (confirmation_event_id : string) (status : CommandStatus)
    (max_active_per_action : option Z) (st : store) : transaction bool :=
  _ ← capacity_gate plan max_active_per_action st;
  row ← agent_command_values now correlation_id plan status (Some confirmation_event_id);
  Ok (agent_command_insert row st).

(** The receipt of [accept_command_with_receipt_stage]: the logical command
    and its first progress event, in the event's transaction.  The event names
    the workspace, cluster and action of the request the plan was built from. *)
Definition stage_receipt (now : Z) (correlation_id : string) (plan : odict json)
    (workspace_id cluster_id action : string)
    (confirmation_event_id : string) (max_active_per_action : option Z) (st : store)
    : transaction (option OperationEvent) :=
  '(st, _) ← stage_logical_command_acceptance_in_transaction now correlation_id plan
               confirmation_event_id QUEUED max_active_per_action st;
  command_id ← required_field plan "command_id";
  stage_command_operation_event_in_transaction now workspace_id command_id progress
    [("cluster_id", JStr cluster_id); ("status", JStr (status_value QUEUED));
     ("action", JStr action); ("correlation_id", JStr correlation_id)] st.

Definition enqueue (now : Z) (correlation_id : string) (plan : odict json) (status : CommandStatus)
    (attempt_id : string) (st : store) : transaction bool :=
  row ← agent_command_values now correlation_id plan status None;
  let '(st', inserted) := agent_command_queue_upsert now row attempt_id st in
  if negb inserted then Ok (st', false)
  else st' ← agent_command_attempt_insert now attempt_id (c_command_id row) (c_workspace_id row)
               (c_cluster_id row) 1 QUEUED now st';
       Ok (notify_agent_command (c_workspace_id row) (c_cluster_id row) st', true).

Definition queue_agent_command (now : Z) (correlation_id : string) (plan : odict json)
    (status : CommandStatus) (attempt_id : string) (st : store) : transaction bool :=
  if field_is plan "action" Command.RCA_TEST_SCENARIO_INJECT_ACTION
  then Err (ValueError "RCA test inject commands require the atomic reservation guard")
  else enqueue now correlation_id plan status attempt_id st.

(** The fixture reservation.  [timestamp_of] is PostgreSQL's cast to
    [timestamptz]; [lower] agrees with [casefold] on the kinds the code uses. *)
Definition fixture_text (r : AgentCommand) (key : string) : option string :=
  match dict_get key (get_dict (c_payload r) "payload") with Some (JStr s) => Some s | _ => None end.

Definition cleanup_finished (st : store) (r : AgentCommand) : bool :=
  existsb (fun cleanup =>
    String.eqb (c_workspace_id cleanup) (c_workspace_id r)
    && String.eqb (c_cluster_id cleanup) (c_cluster_id r)
    && String.eqb (c_action cleanup) Command.RCA_TEST_SCENARIO_CLEANUP_ACTION
    && bool_decide (c_status cleanup = COMPLETED)
    && match fixture_text cleanup "run_id", fixture_text r "run_id" with
       | Some a, Some b => String.eqb a b
       | _, _ => false
       end) (commands st).

Definition reserves_fixture (timestamp_of : string -> Z) (now : Z)
    (workspace_id cluster_id resource_kind namespace resource_name : string)
    (st : store) (r : AgentCommand) : bool :=
  String.eqb (c_workspace_id r) workspace_id && String.eqb (c_cluster_id r) cluster_id
  && String.eqb (c_action r) Command.RCA_TEST_SCENARIO_INJECT_ACTION
  && String.eqb (casefold (default "Deployment" (fixture_text r "resource_kind")))
       (casefold (strip resource_kind))
  && bool_decide (fixture_text r "namespace" = Some namespace)
  && bool_decide (fixture_text r "resource_name" = Some resource_name)
  && match fixture_text r "expires_at" with Some e => now <? timestamp_of e | None => false end
  && negb (cleanup_finished st r).

Definition queue_rca_test_command_if_available (timestamp_of : string -> Z) (now : Z)
    (correlation_id : string) (plan : odict json) (status : CommandStatus)
    (resource_kind namespace resource_name : string) (max_concurrent_runs ttl_seconds : Z)
    (attempt_id : string) (st : store) : transaction bool :=
  if negb (field_is plan "action" Command.RCA_TEST_SCENARIO_INJECT_ACTION)
  then Err (ValueError "atomic RCA test reservation accepts inject commands only")
  else if (max_concurrent_runs <? 1) || (ttl_seconds <? 1)
  then Err (ValueError "RCA test concurrency and TTL must be positive")
  else workspace_id ← plan_workspace plan;
       cluster_id ← plan_cluster plan;
       if max_concurrent_runs <=? Z.of_nat (length (base.filter
            (fun r => reserves_fixture timestamp_of now workspace_id cluster_id resource_kind
                        namespace resource_name st r = true) (commands st)))
       then Ok (st, false)
       else enqueue now correlation_id plan status attempt_id st.

(** ** Controls *)

(** [int(v)]; [int_of_text] is [int] of a string or a float literal. *)
Definition int_of (int_of_text : string -> option Z) (v : json) : option Z :=
  match v with
  | JInt z => Some z
  | JBool b => Some (if b then 1 else 0)
  | JStr s | JFloat s => int_of_text s
  | _ => None
  end.

Context (int_of_text : string -> option Z).

Definition command_retry_policy (payload : odict json) : Z * Z :=
  match dict_get "retry_policy" payload with
  | Some (JObj policy) =>
      match int_of int_of_text (default (JInt 1) (dict_get "max_attempts" policy)),
            int_of int_of_text (default (JInt 0) (dict_get "retry_delay_seconds" policy)) with
      | Some m, Some d => (Z.max 1 m, Z.max 0 d)
      | _, _ => (1, 0)
      end
  | _ => (1, 0)
  end.

Definition current_control_row (workspace_id command_id action idempotency_key : string) (st : store)
    : option CommandControlAction :=
  find (fun k => String.eqb (k_workspace_id k) workspace_id && String.eqb (k_command_id k) command_id
                 && String.eqb (k_action k) action && String.eqb (k_idempotency_key k) idempotency_key)
    (controls st).

Record StagedCommandControl : Type := {
  s_control_id : string;
  s_command_id : string;
  s_action : string;
  s_correlation_id : string;
  s_status : CommandStatus;
  s_attempt_id : option string;
  s_operation_event : option OperationEvent;
}.

(** What the caller of a control supplies. *)
Record control_request : Type := {
  q_workspace_id : string; q_command_id : string; q_action : string; q_idempotency_key : string;
  q_requested_by : string; q_reason : option string; q_event_id : string; q_audit_event_id : string;
}.

(** The result a branch hands to the common tail of the control: the tables,
    the new status, the active attempt, the event, the outcome and the
    details added. *)
Record control_effect : Type := {
  x_store : store; x_status : CommandStatus; x_attempt : option string;
  x_event : option OperationEvent; x_outcome : string; x_details : odict json;
}.

Definition locked (q : control_request) (s : CommandStatus) (r : AgentCommand) : bool :=
  is_command (q_workspace_id q) (q_command_id q) r && bool_decide (c_status r = s).

Definition cancelled_result (q : control_request) : odict json :=
  [("status", JStr (status_value CANCELLED)); ("applied", JBool false);
   ("message", JStr (match q_reason q with
                     | Some r => if String.eqb r "" then "command cancelled before execution started" else r
                     | None => "command cancelled before execution started" end))].

(** Cancelling a command no agent has started. *)
Definition cancel_unstarted (now : Z) (q : control_request) (control_id : string) (row : AgentCommand)
    (st : store) : result command_error control_effect :=
  let result := cancelled_result q in
  let st := update_commands (locked q (c_status row)) (fun r =>
      r <| c_status := CANCELLED |> <| c_result := result |> <| c_completed_at := Some now |>
        <| c_cancel_requested_at := Some now |> <| c_cancel_requested_by := Some (q_requested_by q) |>
        <| c_cancel_reason := q_reason q |> <| c_terminal_event_id := Some (q_event_id q) |>
        <| c_updated_at := now |>) st in
  let st := match c_active_attempt_id row with
    | None => st
    | Some attempt_id =>
        update_attempts (fun a => String.eqb (a_attempt_id a) attempt_id
                                  && String.eqb (a_workspace_id a) (q_workspace_id q)
                                  && attempt_in (a_status a) [QUEUED; LEASED])
          (fun a => a <| a_status := At CANCELLED |> <| a_result := result |>
                      <| a_completed_at := Some now |> <| a_updated_at := now |>) st
    end in
  '(st, evt) ← stage_command_operation_event_in_transaction now (q_workspace_id q) (q_command_id q)
     cancelled [("cluster_id", JStr (c_cluster_id row)); ("status", JStr (status_value CANCELLED));
                ("correlation_id", JStr (c_correlation_id row)); ("control_id", JStr control_id);
                ("result", JObj result)] st;
  Ok {| x_store := st; x_status := CANCELLED; x_attempt := c_active_attempt_id row; x_event := evt;
        x_outcome := "accepted"; x_details := [] |}.

(** Asking the agent to cancel a command it runs. *)
Definition cancel_running (now : Z) (q : control_request) (control_id : string) (row : AgentCommand)
    (st : store) : result command_error control_effect :=
  let generation := c_cancel_generation row + 1 in
  let st := update_commands (locked q RUNNING) (fun r =>
      r <| c_status := CANCEL_REQUESTED |> <| c_cancel_requested_at := Some now |>
        <| c_cancel_requested_by := Some (q_requested_by q) |> <| c_cancel_reason := q_reason q |>
        <| c_cancel_generation := generation |> <| c_updated_at := now |>) st in
  '(st, evt) ← stage_command_operation_event_in_transaction now (q_workspace_id q) (q_command_id q)
     progress [("cluster_id", JStr (c_cluster_id row)); ("status", JStr (status_value CANCEL_REQUESTED));
               ("correlation_id", JStr (c_correlation_id row)); ("control_id", JStr control_id);
               ("cancel_generation", JInt generation)] st;
  Ok {| x_store := st; x_status := CANCEL_REQUESTED; x_attempt := c_active_attempt_id row;
        x_event := evt; x_outcome := "accepted";
        x_details := [("cancel_generation", JInt generation)] |}.

Definition cancel_command (now : Z) (q : control_request) (control_id : string) (row : AgentCommand)
    (st : store) : result command_error control_effect :=
  match spec_for specs (c_action row) with
  | Some spec =>
      if negb (supports_cancel spec)
      then Err (CommandControlConflict "command action does not support cancellation")
      else if status_in (c_status row) [COMPLETED; FAILED; CANCELLED]
      then Err (CommandControlConflict "terminal command cannot be cancelled")
      else if status_in (c_status row) [CANCEL_REQUESTED; CANCELLING]
      then Ok {| x_store := st; x_status := c_status row; x_attempt := c_active_attempt_id row;
                 x_event := None; x_outcome := "already_requested";
                 x_details := [("cancel_generation", JInt (c_cancel_generation row))] |}
      else if status_in (c_status row) [QUEUED; LEASED]
      then cancel_unstarted now q control_id row st
      else cancel_running now q control_id row st
  | None => Err (CommandControlConflict "command action does not support cancellation")
  end.

(** The guards of a retry: its error, or the attempt budget and the delay. *)
Definition retry_guard (row : AgentCommand) : result command_error (Z * Z) :=
  if negb (bool_decide (c_status row = FAILED))
  then Err (CommandControlConflict "only a failed command may be retried")
  else let '(budget, delay) := command_retry_policy (c_payload row) in
  if negb (match spec_for specs (c_action row) with Some spec => supports_manual_retry spec | None => false end)
     || (budget <? 2)
  then Err (CommandControlConflict "command action retry policy does not allow manual retry")
  else if budget <=? c_attempt_count row
  then Err (CommandControlConflict "command retry budget is exhausted")
  else if negb (retryable (c_result row))
  then Err (CommandControlConflict "failed command is not declared retryable")
  else Ok (budget, delay).

Definition requeue (now : Z) (attempt_no : Z) (attempt_id : string) (r : AgentCommand) : AgentCommand :=
  r <| c_status := QUEUED |> <| c_attempt_count := attempt_no |>
    <| c_active_attempt_id := Some attempt_id |> <| c_lease_id := None |> <| c_agent_id := None |>
    <| c_leased_until := None |> <| c_started_at := None |> <| c_completed_at := None |>
    <| c_result := [] |> <| c_cancel_requested_at := None |> <| c_cancel_requested_by := None |>
    <| c_cancel_reason := None |> <| c_cancel_accepted_at := None |> <| c_terminal_event_id := None |>
    <| c_updated_at := now |>.

Definition retry_command (now : Z) (q : control_request) (control_id attempt_id : string)
    (row : AgentCommand) (st : store) : result command_error control_effect :=
  '(budget, delay) ← retry_guard row;
  let attempt_no := c_attempt_count row + 1 in
  st ← agent_command_attempt_insert now attempt_id (q_command_id q) (q_workspace_id q)
         (c_cluster_id row) attempt_no QUEUED (now + delay * SECOND) st;
  let st := update_commands (locked q FAILED) (requeue now attempt_no attempt_id) st in
  let st := notify_agent_command (q_workspace_id q) (c_cluster_id row) st in
  '(st, evt) ← stage_command_operation_event_in_transaction now (q_workspace_id q) (q_command_id q)
     progress [("cluster_id", JStr (c_cluster_id row)); ("status", JStr (status_value QUEUED));
               ("correlation_id", JStr (c_correlation_id row)); ("control_id", JStr control_id);
               ("attempt_id", JStr attempt_id); ("attempt_no", JInt attempt_no);
               ("available_after_seconds", JInt delay)] st;
  Ok {| x_store := st; x_status := QUEUED; x_attempt := Some attempt_id; x_event := evt;
        x_outcome := "accepted";
        x_details := [("attempt_no", JInt attempt_no); ("retry_delay_seconds", JInt delay);
                      ("max_attempts", JInt budget)] |}.

Definition insert_control (c : CommandControlAction) (st : store) : store :=
  match current_control_row (k_workspace_id c) (k_command_id c) (k_action c) (k_idempotency_key c) st with
  | Some _ => st
  | None => st <| controls ::= fun l => l ++ [c] |>
  end.

(** [control_id] and [attempt_id] are the two identifiers drawn. *)
Definition stage_command_control_in_transaction (now : Z) (q : control_request)
    (control_id attempt_id : string) (st : store) : transaction StagedCommandControl :=
  if negb (bool_decide (q_action q ∈ ["cancel"; "retry"]))
  then Err (ValueError ("unsupported command control action: " +:+ q_action q))
  else match find_command (q_workspace_id q) (q_command_id q) st with
  | None => Err CommandControlNotFound
  | Some row =>
      match current_control_row (q_workspace_id q) (q_command_id q) (q_action q)
              (q_idempotency_key q) st with
      | Some control => Err (DuplicateCommandControl control)
      | None =>
          x ← (if String.eqb (q_action q) "cancel" then cancel_command now q control_id row st
               else retry_command now q control_id attempt_id row st);
          Ok (insert_control
                {| k_control_id := control_id; k_workspace_id := q_workspace_id q;
                   k_command_id := q_command_id q; k_action := q_action q;
                   k_idempotency_key := q_idempotency_key q; k_requested_by := q_requested_by q;
                   k_reason := q_reason q; k_outcome := x_outcome x; k_event_id := q_event_id q;
                   k_audit_event_id := q_audit_event_id q; k_attempt_id := x_attempt x;
                   k_details := dict_set "status_after" (JStr (status_value (x_status x)))
                     (dict_update [("status_before", JStr (status_value (c_status row)));
                                   ("correlation_id", JStr (c_correlation_id row))] (x_details x));
                   k_updated_at := now |} (x_store x),
              {| s_control_id := control_id; s_command_id := q_command_id q; s_action := q_action q;
                 s_correlation_id := c_correlation_id row; s_status := x_status x;
                 s_attempt_id := x_attempt x; s_operation_event := x_event x |})
      end
  end.

(** ** The worker's rejection *)

Definition rejected_result (reason : string) : odict json :=
  [("status", JStr (status_value FAILED)); ("applied", JBool false); ("message", JStr reason);
   ("retryable", JBool false)].

Definition fail_logical_command_and_stage_event (now : Z) (workspace_id command_id cluster_id reason : string)
    (st : store) : transaction (option OperationEvent) :=
  let hit r := is_command workspace_id command_id r && String.eqb (c_cluster_id r) cluster_id
               && bool_decide (c_status r = QUEUED) in
  match find hit (commands st) with
  | None => Ok (st, None)
  | Some row =>
      let st := update_commands hit (fun r =>
        r <| c_status := FAILED |> <| c_result := rejected_result reason |>
          <| c_completed_at := Some now |> <| c_updated_at := now |>) st in
      append_command_operation_event_in_transaction now workspace_id command_id failed
        [("cluster_id", JStr cluster_id); ("status", JStr (status_value FAILED));
         ("correlation_id", JStr (c_correlation_id row)); ("result", JObj (rejected_result reason))] st
  end.

(** ** The agent's side: lease, start, heartbeat, complete *)

Definition before (o : option Z) (t : Z) : bool := match o with Some u => u <? t | None => false end.
Definition not_before (o : option Z) (t : Z) : bool := match o with Some u => t <=? u | None => false end.

(** The [available] condition: queued, or a lease nobody started that ran
    out.  [RUNNING] is in neither. *)
Definition leasable (now : Z) (r : AgentCommand) (a : AgentCommandAttempt) : bool :=
  (bool_decide (c_status r = QUEUED) && bool_decide (a_status a = At QUEUED))
  || (bool_decide (c_status r = LEASED) && bool_decide (a_status a = At LEASED)
      && before (a_leased_until a) now).

Definition active_attempt (r : AgentCommand) (st : store) : option AgentCommandAttempt :=
  find (fun a => opt_eqb (c_active_attempt_id r) (a_attempt_id a)) (command_attempts st).

Definition candidate (now : Z) (workspace_id cluster_id : string) (st : store) (r : AgentCommand) : bool :=
  match active_attempt r st with
  | Some a =>
      String.eqb (c_workspace_id r) workspace_id && String.eqb (c_cluster_id r) cluster_id
      && String.eqb (a_workspace_id a) workspace_id && String.eqb (a_cluster_id a) cluster_id
      && (a_available_at a <=? now) && leasable now r a
  | None => false
  end.

(** [order by priority desc, created_at]. *)
Definition precedes (r1 r2 : AgentCommand) : bool :=
  (c_priority r2 <? c_priority r1)
  || ((c_priority r1 =? c_priority r2) && (c_created_at r1 <=? c_created_at r2)).

Fixpoint first_of (rows : list AgentCommand) : option AgentCommand :=
  match rows with
  | [] => None
  | r :: rows =>
      match first_of rows with
      | Some r' => Some (if precedes r r' then r else r')
      | None => Some r
      end
  end.

(** The next command of a cluster; a row another transaction has locked is
    skipped, which serial transactions never show. *)
Definition next_command (now : Z) (workspace_id cluster_id : string) (st : store) : option AgentCommand :=
  first_of (base.filter (fun r => candidate now workspace_id cluster_id st r = true) (commands st)).

Definition take_lease (now until : Z) (lease_id agent_id : string) (r : AgentCommand) : AgentCommand :=
  r <| c_status := LEASED |> <| c_lease_id := Some lease_id |> <| c_agent_id := Some agent_id |>
    <| c_leased_until := Some until |> <| c_updated_at := now |>.

(** The row the agent receives ([leased_agent_command_columns], with
    [attempt_id] for the active attempt) and the event. *)
Definition lease_agent_command (now until : Z) (cluster_id workspace_id agent_id lease_id : string)
    (st : store) : transaction (option (AgentCommand * option OperationEvent)) :=
  match next_command now workspace_id cluster_id st with
  | None => Ok (st, None)
  | Some selected =>
      let attempt_id := default "" (c_active_attempt_id selected) in
      let hit r := is_command workspace_id (c_command_id selected) r
                   && opt_eqb (c_active_attempt_id r) attempt_id && status_in (c_status r) [QUEUED; LEASED] in
      match find hit (commands st) with
      | None => Ok (st, None)
      | Some row =>
          let st := update_commands hit (take_lease now until lease_id agent_id) st in
          let st := update_attempts
            (fun a => String.eqb (a_attempt_id a) attempt_id && String.eqb (a_workspace_id a) workspace_id
                      && attempt_in (a_status a) [QUEUED; LEASED])
            (fun a => a <| a_status := At LEASED |> <| a_lease_id := Some lease_id |>
                        <| a_agent_id := Some agent_id |> <| a_leased_until := Some until |>
                        <| a_updated_at := now |>) st in
          let leased := take_lease now until lease_id agent_id row in
          '(st, evt) ← append_command_operation_event_in_transaction now workspace_id
             (c_command_id leased) progress
             [("cluster_id", JStr cluster_id); ("status", JStr (status_value LEASED));
              ("action", JStr (c_action leased)); ("correlation_id", JStr (c_correlation_id leased));
              ("attempt_id", JStr attempt_id)] st;
          Ok (st, Some (leased, evt))
      end
  end.

(** The fence of the agent's reports: the lease, its holder, its expiry. *)
Definition fenced (now : Z) (command_id workspace_id cluster_id lease_id agent_id : string)
    (r : AgentCommand) : bool :=
  String.eqb (c_command_id r) command_id && String.eqb (c_workspace_id r) workspace_id
  && String.eqb (c_cluster_id r) cluster_id && opt_eqb (c_lease_id r) lease_id
  && opt_eqb (c_agent_id r) agent_id && not_before (c_leased_until r) now.

(** The optional [active_attempt_id == attempt_id] condition. *)
Definition attempt_matches (attempt_id : option string) (r : AgentCommand) : bool :=
  match attempt_id with Some a => opt_eqb (c_active_attempt_id r) a | None => true end.

(** The attempt row an agent's report updates. *)
Definition reported_attempt (attempt_id workspace_id lease_id agent_id : string)
    (statuses : list CommandStatus) (a : AgentCommandAttempt) : bool :=
  String.eqb (a_attempt_id a) attempt_id && String.eqb (a_workspace_id a) workspace_id
  && opt_eqb (a_lease_id a) lease_id && opt_eqb (a_agent_id a) agent_id
  && attempt_in (a_status a) statuses.

Definition truthy (o : option string) : option string :=
  match o with Some s => if String.eqb s "" then None else Some s | None => None end.

Definition start_agent_command (now until : Z) (command_id workspace_id cluster_id lease_id agent_id : string)
    (attempt_id : option string) (st : store)
    : transaction (option (string * option OperationEvent)) :=
  let hit r := fenced now command_id workspace_id cluster_id lease_id agent_id r
               && bool_decide (c_status r = LEASED) && attempt_matches attempt_id r in
  match find hit (commands st) with
  | None => Ok (st, None)
  | Some row =>
      let st := update_commands hit (fun r =>
        r <| c_status := RUNNING |> <| c_leased_until := Some until |> <| c_started_at := Some now |>
          <| c_updated_at := now |>) st in
      let st := match truthy (c_active_attempt_id row) with
        | Some active =>
            update_attempts (reported_attempt active workspace_id lease_id agent_id [LEASED])
              (fun a => a <| a_status := At RUNNING |> <| a_started_at := Some now |>
                          <| a_leased_until := Some until |> <| a_updated_at := now |>) st
        | None => st
        end in
      '(st, evt) ← append_command_operation_event_in_transaction now workspace_id command_id progress
         [("cluster_id", JStr cluster_id); ("status", JStr (status_value RUNNING));
          ("correlation_id", JStr (c_correlation_id row));
          ("attempt_id", json_opt_str (truthy (c_active_attempt_id row)))] st;
      Ok (st, Some (c_correlation_id row, evt))
  end.

Record HeartbeatAgentCommand : Type := {
  hb_correlation_id : string;
  hb_cancel_requested : bool;
  hb_cancel_generation : option Z;
  hb_operation_event : option OperationEvent;
}.

Definition heartbeat_agent_command (now until : Z)
    (command_id workspace_id cluster_id lease_id agent_id : string)
    (attempt_id : option string) (observed_cancel_generation : option Z) (st : store)
    : transaction (option HeartbeatAgentCommand) :=
  let selected r := fenced now command_id workspace_id cluster_id lease_id agent_id r
                    && status_in (c_status r) [LEASED; RUNNING; CANCEL_REQUESTED; CANCELLING] in
  match find selected (commands st) with
  | None => Ok (st, None)
  | Some row =>
      let active := default "" (c_active_attempt_id row) in
      if match attempt_id with Some a => negb (String.eqb a active) | None => false end
      then Ok (st, None)
      else
        let generation := c_cancel_generation row in
        let acknowledged := bool_decide (c_status row = CANCEL_REQUESTED)
          && match observed_cancel_generation with Some g => generation <=? g | None => false end in
        let next_status := if acknowledged then CANCELLING else c_status row in
        let st := update_commands
          (fun r => is_command workspace_id command_id r && opt_eqb (c_lease_id r) lease_id
                    && opt_eqb (c_agent_id r) agent_id && opt_eqb (c_active_attempt_id r) active)
          (fun r => r <| c_status := next_status |> <| c_leased_until := Some until |>
                      <| c_cancel_accepted_at := if acknowledged then Some now else c_cancel_accepted_at r |>
                      <| c_updated_at := now |>) st in
        let st := if String.eqb active "" then st else
          update_attempts (reported_attempt active workspace_id lease_id agent_id [LEASED; RUNNING])
            (fun a => a <| a_leased_until := Some until |> <| a_updated_at := now |>) st in
        '(st, evt) ← (if acknowledged
           then append_command_operation_event_in_transaction now workspace_id command_id progress
                  [("cluster_id", JStr cluster_id); ("status", JStr (status_value CANCELLING));
                   ("correlation_id", JStr (c_correlation_id row));
                   ("cancel_generation", JInt generation)] st
           else Ok (st, None));
        Ok (st, Some {| hb_correlation_id := c_correlation_id row;
                        hb_cancel_requested := status_in next_status [CANCEL_REQUESTED; CANCELLING];
                        hb_cancel_generation := if generation =? 0 then None else Some generation;
                        hb_operation_event := evt |})
  end.

(** Whether a failure report is final: the attempt may be retried when the
    agent says so, the action supports it and the budget has room. *)
Definition final_failure (row : AgentCommand) (report : odict json) : result command_error bool :=
  action ← field_str_or (c_payload row) "action" "";
  Ok (negb (retryable report
            && match spec_for specs action with Some spec => supports_manual_retry spec | None => false end
            && (c_attempt_count row <? (command_retry_policy (c_payload row)).1))).

(** The status of a report, read before anything else; one the event kind
    rejects raises once the row is found. *)
Definition report_status (status : string) : result command_error CommandStatus :=
  match status_of_value status with
  | Some s => Ok s
  | None => Err (ValueError "non-terminal command status cannot close operation stream")
  end.

(** The [CommandCompletedBody] event, with the identifier and clock text
    [event()] draws; [workspace] is that of the current event context. *)
Definition completed_event (event_id created_at : string) (workspace : option string)
    (source command_id workspace_id correlation : string) (report : odict json) : EventEnvelope :=
  make_event event_id created_at workspace "command.completed" source
    [("command_id", JStr command_id); ("result", JObj report)] (Some correlation) None (Some workspace_id).

(** The event and outbox inserts of the transaction. *)
Definition publish_in_transaction (now : Z) (evt : EventEnvelope) (st : store) : store :=
  st <| bus ::= fun t => stage_event (record_event now evt t) evt |>.

Definition complete_agent_command_and_stage_event (now : Z)
    (command_id workspace_id cluster_id : string) (report : odict json)
    (lease_id agent_id source : string) (attempt_id : option string)
    (event_id created_at : string) (workspace : option string) (st : store)
    : transaction (option (EventEnvelope * option OperationEvent)) :=
  status_text ← required_field report "status";
  let hit r := fenced now command_id workspace_id cluster_id lease_id agent_id r
               && status_in (c_status r) [RUNNING; CANCEL_REQUESTED; CANCELLING]
               && attempt_matches attempt_id r in
  match find hit (commands st) with
  | None => Ok (st, None)
  | Some row =>
      status ← report_status status_text;
      let st := update_commands hit (fun r =>
        r <| c_status := status |> <| c_result := report |> <| c_completed_at := Some now |>
          <| c_updated_at := now |>) st in
      let st := match truthy (c_active_attempt_id row) with
        | Some active =>
            update_attempts (reported_attempt active workspace_id lease_id agent_id [RUNNING; LEASED])
              (fun a => a <| a_status := At status |> <| a_result := report |>
                          <| a_completed_at := Some now |> <| a_updated_at := now |>) st
        | None => st
        end in
      final ← (if bool_decide (status = FAILED) then final_failure row report else Ok true);
      match command_terminal_event_kind status (negb (bool_decide (status = FAILED)) || final) with
      | None => Err (ValueError "non-terminal command status cannot close operation stream")
      | Some kind =>
          '(st, evt) ← append_command_operation_event_in_transaction now workspace_id command_id kind
             [("cluster_id", JStr cluster_id); ("status", JStr (status_value status));
              ("correlation_id", JStr (c_correlation_id row)); ("result", JObj report);
              ("attempt_id", json_opt_str (truthy (c_active_attempt_id row)));
              ("terminal", JBool (negb (bool_decide (kind = progress))))] st;
          let done := completed_event event_id created_at workspace source command_id workspace_id
                        (c_correlation_id row) report in
          let st := if bool_decide (kind = progress) then st else
            update_commands (is_command workspace_id command_id)
              (fun r => r <| c_terminal_event_id := Some event_id |>) st in
          Ok (publish_in_transaction now done st, Some (done, evt))
      end
  end.

(** ** The janitor *)

Definition EXPIRED_COMMAND_GRACE_SECONDS : Z := 300.
Definition QUEUED_COMMAND_TTL_SECONDS : Z := 1800.
Definition EXPIRED_COMMAND_FAILURE_MESSAGE : string :=
  "command lease expired; no agent completed the command".
Definition QUEUED_COMMAND_FAILURE_MESSAGE : string :=
  "command queue expired; no connected agent accepted the command".
Definition CANCELLING_COMMAND_FAILURE_MESSAGE : string :=
  "command lease expired during cancellation; agent did not confirm".

Definition cancelling_states (r : AgentCommand) : bool :=
  status_in (c_status r) [CANCEL_REQUESTED; CANCELLING].

(** The [where] of the sweep. *)
Definition swept (now grace_seconds queue_ttl_seconds : Z) (r : AgentCommand) : bool :=
  (bool_decide (c_status r = QUEUED) && (c_created_at r <? now - queue_ttl_seconds * SECOND))
  || (status_in (c_status r) [LEASED; RUNNING]
      && before (c_leased_until r) (now - grace_seconds * SECOND))
  || (cancelling_states r
      && (default (c_updated_at r) (c_leased_until r) <? now - grace_seconds * SECOND)).

Definition terminal_status (r : AgentCommand) : CommandStatus :=
  if cancelling_states r then CANCELLED else FAILED.

Definition swept_result (r : AgentCommand) : odict json :=
  [("status", JStr (status_value (terminal_status r))); ("applied", JBool false);
   ("message", JStr (if bool_decide (c_status r = QUEUED) then QUEUED_COMMAND_FAILURE_MESSAGE
                     else if cancelling_states r then CANCELLING_COMMAND_FAILURE_MESSAGE
                     else EXPIRED_COMMAND_FAILURE_MESSAGE))].

Definition sweep_row (now : Z) (r : AgentCommand) : AgentCommand :=
  r <| c_status := terminal_status r |> <| c_result := swept_result r |>
    <| c_completed_at := Some now |> <| c_updated_at := now |>.

(** The deterministic identifier of an expiry: [uuid5] of its name. *)
Definition expired_event_id (uuid5 : string -> string) (row : AgentCommand) : string :=
  uuid5 ("command-expired:" +:+ c_command_id row +:+ ":" +:+ pretty (c_attempt_count row)).

(** The body of the [for row in rows] loop; [row] is as the update returned it. *)
Definition close_expired (uuid5 clock_text : string -> string) (workspace : option string)
    (now : Z) (source : string) (row : AgentCommand) (st : store) : result command_error store :=
  let st := match truthy (c_active_attempt_id row) with
    | Some active =>
        update_attempts (fun a => String.eqb (a_attempt_id a) active
                                  && String.eqb (a_workspace_id a) (c_workspace_id row)
                                  && attempt_in (a_status a) [QUEUED; LEASED; RUNNING])
          (fun a => a <| a_status := EXPIRED |> <| a_result := c_result row |>
                      <| a_completed_at := Some now |> <| a_updated_at := now |>) st
    | None => st
    end in
  '(st, _) ← stage_command_operation_event_in_transaction now (c_workspace_id row) (c_command_id row)
     (if bool_decide (c_status row = CANCELLED) then cancelled else failed)
     [("cluster_id", JStr (c_cluster_id row)); ("status", JStr (status_value (c_status row)));
      ("correlation_id", JStr (c_correlation_id row)); ("result", JObj (c_result row))] st;
  let done := completed_event (expired_event_id uuid5 row) (clock_text (c_command_id row)) workspace
                source (c_command_id row) (c_workspace_id row) (c_correlation_id row) (c_result row) in
  let st := update_commands (is_command (c_workspace_id row) (c_command_id row))
              (fun r => r <| c_terminal_event_id := Some (event_id done) |>) st in
  Ok (publish_in_transaction now done st).

Fixpoint close_all (uuid5 clock_text : string -> string) (workspace : option string)
    (now : Z) (source : string) (rows : list AgentCommand) (st : store) : result command_error store :=
  match rows with
  | [] => Ok st
  | row :: rows =>
      st ← close_expired uuid5 clock_text workspace now source row st;
      close_all uuid5 clock_text workspace now source rows st
  end.

Definition fail_expired_agent_commands (uuid5 clock_text : string -> string)
    (workspace : option string) (now grace_seconds queue_ttl_seconds : Z) (source : string) (st : store)
    : transaction (list AgentCommand) :=
  if (grace_seconds <? 1) || (queue_ttl_seconds <? 1)
  then Err (ValueError "command expiry durations must be positive")
  else
    let expired := swept now grace_seconds queue_ttl_seconds in
    let rows := returning expired (sweep_row now) (commands st) in
    st ← close_all uuid5 clock_text workspace now source rows
           (update_commands expired (sweep_row now) st);
    Ok (st, rows).

(** ** Monitoring reads *)

Definition command_status_counts (st : store) : list (CommandStatus * Z) :=
  base.filter (fun e => 0 < e.2)
    (map (fun s => (s, Z.of_nat (length (base.filter (fun r => c_status r = s) (commands st)))))
       ALL_STATUSES).

(** In microseconds; 0 without a row. *)
Definition oldest_command_age (now : Z) (status : CommandStatus) (st : store) : Z :=
  match map c_created_at (base.filter (fun r => c_status r = status) (commands st)) with
  | [] => 0
  | first :: rest => now - fold_left Z.min rest first
  end.

(** The newest commands of a correlation, at most 20. *)
Fixpoint insert_newest (r : AgentCommand) (l : list AgentCommand) : list AgentCommand :=
  match l with
  | [] => [r]
  | r' :: l' =>
      if (c_created_at r' <? c_created_at r)
         || ((c_created_at r =? c_created_at r') && String.leb (c_command_id r') (c_command_id r))
      then r :: l else r' :: insert_newest r l'
  end.

Definition list_agent_commands_by_correlation (workspace_id correlation : string) (limit : Z) (st : store)
    : list AgentCommand :=
  take (Z.to_nat (Z.max 1 (Z.min limit 20)))
    (foldr insert_newest []
       (base.filter (fun r => c_workspace_id r = workspace_id /\ c_correlation_id r = correlation)
          (commands st))).
End Store.

Definition empty_store : store :=
  {| commands := []; command_attempts := []; controls := []; cursors := ∅; op_events := [];
     bus := {| events := ∅; processing := ∅; outbox := []; outbox_seq := 1; dead_letters := [];
               dead_letter_seq := 1 |}; notified := [] |}.
