(* ===== verification/CommandRuns.v ===== *)
(** Runs of the command store: the operations of the API gateway, the command
    worker, the agents and the janitor interleaved in any order, and the
    invariants every run keeps.

    [apply] is one committed operation.  The operation events of integrations
    share the stream tables under identifiers that are no command's and are
    left out of the runs; the only events the gateway appends on its own to a
    command's stream are of kind [progress]. *)

From S2P Require Import Prelude Json EventStore Outbox CommandLifecycle CommandCatalog CommandStore.
From coqutil Require Import Datatypes.RecordSettersUsingExistingGetters.

(** ** Operations *)

Record agent_report : Type := {
  r_command_id : string; r_workspace_id : string; r_cluster_id : string;
  r_lease_id : string; r_agent_id : string; r_attempt_id : option string;
}.

Inductive command_op : Type :=
| Receipt (now : Z) (correlation : string) (plan : odict json) (ws cluster act confirmation : string)
    (max_active : option Z)
| Queue (now : Z) (correlation : string) (plan : odict json) (attempt_id : string)
| QueueTest (now : Z) (correlation : string) (plan : odict json) (kind namespace name : string)
    (max_runs ttl : Z) (attempt_id : string)
| RejectQueued (now : Z) (ws command_id cluster reason : string)
| Lease (now until : Z) (cluster ws agent lease_id : string)
| Start (now until : Z) (r : agent_report)
| Heartbeat (now until : Z) (r : agent_report) (observed : option Z)
| Complete (now : Z) (r : agent_report) (report : odict json) (source event_id created_at : string)
    (workspace : option string)
| Control (now : Z) (q : control_request) (control_id attempt_id : string)
| Sweep (now grace ttl : Z) (source : string) (workspace : option string)
| AppendProgress (now : Z) (ws command_id : string) (payload : odict json).

Section Runs.
Context (sha256_hex quote : string -> string) (specs : catalog) (int_of_text : string -> option Z).
Context (timestamp_of : string -> Z) (uuid5 clock_text : string -> string).

Definition dropping {A} (t : result command_error (store * A)) : result command_error store :=
  '(st, _) ← t; Ok st.

Definition apply (o : command_op) (st : store) : result command_error store :=
  match o with
  | Receipt now correlation plan ws cluster act confirmation max_active =>
      dropping (stage_receipt sha256_hex quote now correlation plan ws cluster act confirmation
                  max_active st)
  | Queue now correlation plan attempt_id =>
      dropping (queue_agent_command sha256_hex quote now correlation plan QUEUED attempt_id st)
  | QueueTest now correlation plan kind namespace name max_runs ttl attempt_id =>
      dropping (queue_rca_test_command_if_available sha256_hex quote timestamp_of now correlation plan
                  QUEUED kind namespace name max_runs ttl attempt_id st)
  | RejectQueued now ws command_id cluster reason =>
      dropping (fail_logical_command_and_stage_event now ws command_id cluster reason st)
  | Lease now until cluster ws agent lease_id =>
      dropping (lease_agent_command now until cluster ws agent lease_id st)
  | Start now until r =>
      dropping (start_agent_command now until (r_command_id r) (r_workspace_id r) (r_cluster_id r)
                  (r_lease_id r) (r_agent_id r) (r_attempt_id r) st)
  | Heartbeat now until r observed =>
      dropping (heartbeat_agent_command now until (r_command_id r) (r_workspace_id r) (r_cluster_id r)
                  (r_lease_id r) (r_agent_id r) (r_attempt_id r) observed st)
  | Complete now r report source event_id created_at workspace =>
      dropping (complete_agent_command_and_stage_event specs int_of_text now (r_command_id r)
                  (r_workspace_id r) (r_cluster_id r) report (r_lease_id r) (r_agent_id r) source
                  (r_attempt_id r) event_id created_at workspace st)
  | Control now q control_id attempt_id =>
      dropping (stage_command_control_in_transaction specs int_of_text now q control_id attempt_id st)
  | Sweep now grace ttl source workspace =>
      dropping (fail_expired_agent_commands uuid5 clock_text workspace now grace ttl source st)
  | AppendProgress now ws command_id payload =>
      dropping (append_command_operation_event now ws command_id progress payload st)
  end.

Definition command_step (st : store) (o : command_op) (st' : store) : Prop := apply o st = Ok st'.

(** ** Statements on tables *)

Lemma elem_of_update_where {A} (p : A -> bool) f (l : list A) x :
  x ∈ update_where p f l <-> exists y, y ∈ l /\ x = (if p y then f y else y).
Proof.
  unfold update_where. split.
  - intros (y & -> & Hy)%list_elem_of_fmap. eauto.
  - intros (y & Hy & ->). apply list_elem_of_fmap. eauto.
Qed.

(** The keys an update keeps. *)
Lemma update_where_fmap {A B} (g : A -> B) (p : A -> bool) f (l : list A) :
  (forall x, g (f x) = g x) -> g <$> update_where p f l = g <$> l.
Proof.
  intros Hg. unfold update_where. rewrite <- list_fmap_compose. apply list_fmap_ext.
  intros i x _. simpl. by destruct (p x).
Qed.

Lemma find_elem {A} (p : A -> bool) l x : find p l = Some x -> x ∈ l /\ p x = true.
Proof. intros [? ?]%find_some. by rewrite list_elem_of_In. Qed.

(** ** The streams of operation events *)

(** The events of a stream carry the sequence numbers [1, 2, ...] in the order
    they were written, up to the cursor; a terminal event can only be the last
    one, and closes the cursor. *)
Definition stream_ok (evs : list CommandOperationEvent) (c : option CommandOperationEventCursor) : Prop :=
  (ev_sequence <$> evs) = (Z.of_nat <$> seq 1 (length evs))
  /\ match c with
     | None => evs = []
     | Some c =>
         last_sequence c = Z.of_nat (length evs)
         /\ match terminal_sequence c with
            | None => Forall (fun e => terminal_kind (ev_kind e) = false) evs
            | Some n => n = Z.of_nat (length evs)
                        /\ exists init e, evs = init ++ [e] /\ terminal_kind (ev_kind e) = true
                                          /\ Forall (fun e => terminal_kind (ev_kind e) = false) init
            end
     end.

Definition streams_ok (st : store) : Prop :=
  forall ws cid, stream_ok (stream ws cid st) (cursors st !! (ws, cid)).

(** What a staged event does: nothing on a closed stream, else one event. *)
Inductive staged (now : Z) (ws cid : string) (k : OperationEventKind) (st : store) : store -> Prop :=
| staged_closed c n : cursors st !! (ws, cid) = Some c -> terminal_sequence c = Some n ->
    staged now ws cid k st st
| staged_event c s cluster payload :
    advance_cursor now k (cursors st !! (ws, cid)) = Some (c, s) ->
    staged now ws cid k st
      (st <| cursors ::= <[(ws, cid) := c]> |>
          <| op_events ::= fun l => l ++
             [{| ev_workspace_id := ws; ev_command_id := cid; ev_sequence := s;
                 ev_cluster_id := cluster; ev_kind := k; ev_payload := payload;
                 ev_occurred_at := now |}] |>).

Lemma stage_staged now ws cid k payload st st' e :
  stage_command_operation_event_in_transaction now ws cid k payload st = Ok (st', e) ->
  staged now ws cid k st st'.
Proof.
  unfold stage_command_operation_event_in_transaction. intros (raw & _ & H)%result_bind_inv.
  destruct (_ || _); [done|]. destruct (advance_cursor _ _ _) as [[c s]|] eqn:Ha.
  - destruct (existsb _ _); [done|]. simplify_eq. by econstructor.
  - simplify_eq. unfold advance_cursor in Ha.
    destruct (cursors st' !! (ws, cid)) as [c|] eqn:Hc; simpl in Ha; [|done].
    destruct (terminal_sequence c) eqn:Ht; [|done]. by eapply staged_closed.
Qed.

(** Staging touches nothing but the stream tables. *)
Lemma staged_frame now ws cid k st st' :
  staged now ws cid k st st' ->
  commands st' = commands st /\ command_attempts st' = command_attempts st
  /\ controls st' = controls st /\ bus st' = bus st /\ notified st' = notified st.
Proof. by destruct 1. Qed.

Lemma advance_ok now k evs c c' n ws cid cluster payload :
  stream_ok evs c -> advance_cursor now k c = Some (c', n) ->
  stream_ok (evs ++ [{| ev_workspace_id := ws; ev_command_id := cid; ev_sequence := n;
                        ev_cluster_id := cluster; ev_kind := k; ev_payload := payload;
                        ev_occurred_at := now |}]) (Some c').
Proof.
  intros [Hseq Hc] Ha. unfold advance_cursor in Ha.
  assert (Hn : n = Z.of_nat (S (length evs)) /\ Forall (fun e => terminal_kind (ev_kind e) = false) evs
    /\ c' = {| last_sequence := n; terminal_sequence := if terminal_kind k then Some n else None;
               cur_updated_at := now |}).
  { destruct c as [c|]; simpl in Ha.
    - destruct Hc as [Hl Ht]. destruct (terminal_sequence c); simplify_eq. split; [lia|by split].
    - subst. simplify_eq. split; [done|by split]. }
  destruct Hn as (-> & Hall & ->). split.
  - rewrite fmap_app, Hseq, length_app, seq_app, fmap_app. simpl. repeat f_equal; lia.
  - simpl. split; [rewrite length_app; simpl; lia|]. destruct (terminal_kind k) eqn:Hk.
    + rewrite length_app. simpl. split; [lia|]. eauto.
    + apply Forall_app. split; [done|]. by constructor.
Qed.

Lemma stream_append ws cid e st st' :
  op_events st' = op_events st ++ [e] ->
  stream ws cid st' = stream ws cid st
    ++ (if decide (ev_workspace_id e = ws /\ ev_command_id e = cid) then [e] else []).
Proof.
  intros He. unfold stream. rewrite He, filter_app. by rewrite filter_cons, filter_nil.
Qed.

Lemma staged_streams_ok now ws cid k st st' :
  staged now ws cid k st st' -> streams_ok st -> streams_ok st'.
Proof.
  intros Hs Hok. destruct Hs as [|c n cluster payload Ha]; [done|]. intros ws' cid'.
  erewrite stream_append by reflexivity. simpl. case_decide as Heq.
  - destruct Heq as [-> ->]. rewrite lookup_insert_eq. eapply advance_ok; [apply Hok | exact Ha].
  - rewrite app_nil_r, lookup_insert_ne; [apply Hok|]. intros [= -> ->]. by destruct Heq.
Qed.

(** ** Closed streams *)

Definition closed (st : store) (ws cid : string) : bool :=
  match cursors st !! (ws, cid) with
  | Some c => negb (is_none (terminal_sequence c))
  | None => false
  end.

Lemma staged_closed_eq now ws cid k st st' ws' cid' :
  staged now ws cid k st st' ->
  closed st' ws' cid' =
    closed st ws' cid' || (bool_decide (ws' = ws /\ cid' = cid) && terminal_kind k).
Proof.
  intros Hs. unfold closed. destruct Hs as [c n Hc Ht|c n cluster payload Ha].
  - destruct (bool_decide _) eqn:Hb; simpl; [|by rewrite orb_false_r]. bool_to_prop.
    destruct_and!. subst. rewrite Hc, Ht. done.
  - simpl. unfold advance_cursor in Ha.
    destruct (decide ((ws', cid') = (ws, cid))) as [[= -> ->]|Hne].
    + rewrite lookup_insert_eq, bool_decide_true by done.
      destruct (cursors st !! (ws, cid)) as [c0|]; simpl in Ha;
        [destruct (terminal_sequence c0); [done|]|]; simplify_eq; simpl;
        by destruct (terminal_kind k).
    + rewrite lookup_insert_ne by congruence. rewrite bool_decide_false; [by rewrite orb_false_r|].
      intros [-> ->]. done.
Qed.

(** ** Commands *)

Definition key_of (r : AgentCommand) : string * string := (c_workspace_id r, c_command_id r).

(** Whether the manual retry of a command would be accepted. *)
Definition may_retry (r : AgentCommand) : bool := is_ok (retry_guard specs int_of_text r).

(** A command that has reached its last state. *)
Definition finished (r : AgentCommand) : bool :=
  bool_decide (c_status r = COMPLETED) || bool_decide (c_status r = CANCELLED)
  || (bool_decide (c_status r = FAILED) && negb (may_retry r)).

(** What is true of every row: the action is the plan's, the attempts stay
    within the plan's budget, and only a command with an attempt is held by an
    agent. *)
Record row_ok (r : AgentCommand) : Prop := {
  row_action : field_str_or (c_payload r) "action" "" = Ok (c_action r);
  row_attempts : 0 <= c_attempt_count r <= (command_retry_policy int_of_text (c_payload r)).1;
  row_active : c_active_attempt_id r <> None -> 1 <= c_attempt_count r;
  row_held : status_in (c_status r) [LEASED; RUNNING; CANCEL_REQUESTED; CANCELLING] = true ->
    c_active_attempt_id r <> None;
}.

(** The invariant of runs: command ids are unique, rows are sound, streams
    are, and a stream is closed exactly when its command is finished.  While
    the janitor works through its rows, those [pending] are finished with the
    stream still open. *)
Record wf_except (pending : list string) (st : store) : Prop := {
  wf_ids : NoDup (c_command_id <$> commands st);
  wf_rows : Forall row_ok (commands st);
  wf_streams : streams_ok st;
  wf_closed : forall ws cid, closed st ws cid = true <->
    exists r, r ∈ commands st /\ key_of r = (ws, cid) /\ finished r = true
              /\ c_command_id r ∉ pending;
}.

Definition wf : store -> Prop := wf_except [].

Lemma command_unique pending st r r' :
  wf_except pending st -> r ∈ commands st -> r' ∈ commands st ->
  c_command_id r = c_command_id r' -> r = r'.
Proof.
  intros Hwf Hr Hr' Heq. apply wf_ids in Hwf.
  apply list_elem_of_lookup in Hr as [i Hi], Hr' as [j Hj].
  assert (i = j); [|congruence].
  apply (NoDup_lookup _ i j (c_command_id r) Hwf); rewrite list_lookup_fmap; [by rewrite Hi|rewrite Hj]; simpl; congruence.
Qed.

(** A row change followed by the event of its kind. *)
Lemma wf_transition p f now ws cid k st st1 st2 :
  wf st -> staged now ws cid k st1 st2 ->
  commands st1 = update_where p f (commands st) -> cursors st1 = cursors st ->
  op_events st1 = op_events st ->
  (forall r, r ∈ commands st -> p r = true ->
     key_of r = (ws, cid) /\ key_of (f r) = key_of r /\ row_ok (f r)
     /\ finished r = false /\ finished (f r) = terminal_kind k) ->
  (terminal_kind k = true -> exists r, r ∈ commands st /\ p r = true) ->
  wf st2.
Proof.
  intros Hwf Hs Hc Hcur Hev Hp Hex. destruct (staged_frame _ _ _ _ _ _ Hs) as (Hc2 & _).
  pose proof Hwf as [Hids Hrows Hstr Hcl]. rewrite Hc in Hc2. split.
  - rewrite Hc2. replace (c_command_id <$> _) with (c_command_id <$> commands st); [done|].
    unfold update_where. rewrite <- list_fmap_compose. apply list_fmap_ext.
    intros i r Hr%list_elem_of_lookup_2. simpl. destruct (p r) eqn:E; [|done].
    destruct (Hp r Hr E) as (_ & [= _ Hid] & _). done.
  - rewrite Hc2. apply Forall_forall. intros r (r0 & Hr0 & ->)%elem_of_update_where.
    destruct (p r0) eqn:E; [by destruct (Hp r0 Hr0 E) as (_ & _ & ? & _)|].
    by eapply Forall_forall in Hrows.
  - eapply staged_streams_ok; [done|]. unfold streams_ok, stream. by rewrite Hcur, Hev.
  - intros ws' cid'. erewrite staged_closed_eq by done. unfold closed at 1. rewrite Hcur.
    fold (closed st ws' cid'). rewrite Hc2, orb_true_iff, andb_true_iff, bool_decide_eq_true, Hcl. split.
    + intros [(r & Hr & Hk & Hf & _)|[[-> ->] Ht]].
      * exists r. split_and!; [|done..|set_solver]. apply elem_of_update_where. exists r. split; [done|].
        destruct (p r) eqn:E; [|done]. destruct (Hp r Hr E) as (_ & _ & _ & ? & _). congruence.
      * destruct (Hex Ht) as (r & Hr & E). destruct (Hp r Hr E) as (Hk & Hk' & _ & _ & Hf).
        exists (f r). split_and!; [|congruence..|set_solver]. apply elem_of_update_where. exists r.
        by rewrite E.
    + intros (r & (r0 & Hr0 & ->)%elem_of_update_where & Hk & Hf & _).
      destruct (p r0) eqn:E.
      * right. destruct (Hp r0 Hr0 E) as (Hk0 & Hk' & _ & _ & Hf'). rewrite Hk', Hk0 in Hk.
        simplify_eq. split; [done|congruence].
      * left. exists r0. split_and!; [done..|set_solver].
Qed.

(** A row change that leaves the streams alone. *)
Lemma wf_quiet p f pending st st1 :
  wf_except pending st ->
  commands st1 = update_where p f (commands st) -> cursors st1 = cursors st ->
  op_events st1 = op_events st ->
  (forall r, r ∈ commands st -> p r = true ->
     key_of (f r) = key_of r /\ row_ok (f r) /\ finished (f r) = finished r) ->
  wf_except pending st1.
Proof.
  intros [Hids Hrows Hstr Hcl] Hc Hcur Hev Hp. split.
  - rewrite Hc. replace (c_command_id <$> _) with (c_command_id <$> commands st); [done|].
    unfold update_where. rewrite <- list_fmap_compose. apply list_fmap_ext.
    intros i r Hr%list_elem_of_lookup_2. simpl. destruct (p r) eqn:E; [|done].
    destruct (Hp r Hr E) as ([= _ Hid] & _). done.
  - rewrite Hc. apply Forall_forall. intros r (r0 & Hr0 & ->)%elem_of_update_where.
    destruct (p r0) eqn:E; [by destruct (Hp r0 Hr0 E) as (_ & ? & _)|].
    by eapply Forall_forall in Hrows.
  - unfold streams_ok, stream. by rewrite Hcur, Hev.
  - intros ws cid. unfold closed. rewrite Hcur. fold (closed st ws cid). rewrite Hcl, Hc.
    split.
    + intros (r & Hr & Hk & Hf & Hn). destruct (p r) eqn:E.
      * destruct (Hp r Hr E) as (Hk' & _ & Hf'). exists (f r). split_and!; [|congruence..|].
        -- apply elem_of_update_where. exists r. by rewrite E.
        -- by injection Hk' as _ ->.
      * exists r. split_and!; [|done..]. apply elem_of_update_where. exists r. by rewrite E.
    + intros (r & (r0 & Hr0 & ->)%elem_of_update_where & Hk & Hf & Hn).
      exists r0. destruct (p r0) eqn:E; [|done].
      destruct (Hp r0 Hr0 E) as (Hk' & _ & Hf'). split_and!; [done|congruence|congruence|].
      by injection Hk' as _ <-.
Qed.

Lemma wf_frame pending st st1 :
  wf_except pending st -> commands st1 = commands st -> cursors st1 = cursors st ->
  op_events st1 = op_events st -> wf_except pending st1.
Proof.
  intros Hwf Hc Hcur Hev. eapply (wf_quiet (fun _ => false) id); [exact Hwf| |done..].
  unfold update_where. by rewrite map_id.
Qed.

(** A new row. *)
Lemma wf_insert row st st1 :
  wf st -> commands st1 = commands st ++ [row] -> cursors st1 = cursors st ->
  op_events st1 = op_events st ->
  existsb (fun r => String.eqb (c_command_id r) (c_command_id row)) (commands st) = false ->
  row_ok row -> finished row = false -> wf st1.
Proof.
  intros [Hids Hrows Hstr Hcl] Hc Hcur Hev Hfresh Hrow Hfin.
  assert (Hni : c_command_id row ∉ c_command_id <$> commands st).
  { intros (r & Hid & Hr)%list_elem_of_fmap. apply not_true_iff_false in Hfresh. apply Hfresh.
    apply existsb_exists. exists r. rewrite <- list_elem_of_In. split; [done|]. by apply String.eqb_eq. }
  split.
  - rewrite Hc, fmap_app. apply NoDup_app. split_and!; [done|set_solver|apply NoDup_singleton].
  - rewrite Hc. apply Forall_app. split; [done|]. by constructor.
  - unfold streams_ok, stream. by rewrite Hcur, Hev.
  - intros ws cid. unfold closed. rewrite Hcur. fold (closed st ws cid). rewrite Hcl, Hc.
    split; intros (r & Hr & Hk & Hf & Hn).
    + exists r. set_solver.
    + exists r. apply elem_of_app in Hr as [Hr|Hr]; [by auto|].
      apply list_elem_of_singleton in Hr. subst. congruence.
Qed.

(** ** Every operation keeps the invariant *)

Lemma dropping_inv {A} (t : result command_error (store * A)) st :
  dropping t = Ok st -> exists x, t = Ok (st, x).
Proof. destruct t as [[st' x]|]; simpl; [|done]. intros [= ->]. eauto. Qed.

Lemma staging_inv {A} now ws cid k payload st (f : store -> option OperationEvent -> result command_error A) y :
  ('(st, evt) ← stage_command_operation_event_in_transaction now ws cid k payload st; f st evt) = Ok y ->
  exists st1 evt, staged now ws cid k st st1 /\ f st1 evt = Ok y.
Proof.
  intros ([st1 evt] & H1 & H2)%result_bind_inv. apply stage_staged in H1. eauto.
Qed.

Lemma finished_active r : command_status_is_active (c_status r) = true -> finished r = false.
Proof. unfold finished. by destruct (c_status r). Qed.

Lemma finished_among l r :
  c_status r ∈ l -> l ⊆ ACTIVE_COMMAND_STATUSES -> finished r = false.
Proof. intros Hs Hl. apply finished_active, bool_decide_true. by apply Hl. Qed.

Lemma finished_done r : c_status r = COMPLETED \/ c_status r = CANCELLED -> finished r = true.
Proof. unfold finished. by intros [-> | ->]. Qed.

Lemma finished_unretryable r : c_status r = FAILED -> retryable (c_result r) = false -> finished r = true.
Proof.
  intros Hs Hr. unfold finished, may_retry, retry_guard. rewrite Hs, Hr. simpl.
  by repeat case_match.
Qed.

Lemma row_ok_same r r' :
  row_ok r -> c_payload r' = c_payload r -> c_action r' = c_action r ->
  c_attempt_count r' = c_attempt_count r -> c_active_attempt_id r' = c_active_attempt_id r ->
  (status_in (c_status r') [LEASED; RUNNING; CANCEL_REQUESTED; CANCELLING] = true ->
   c_active_attempt_id r <> None) ->
  row_ok r'.
Proof. intros [Ha Hn Hc Hh] Hp Hac Hcnt Hact Hs. split; rewrite ?Hp, ?Hac, ?Hcnt, ?Hact; done. Qed.

Lemma is_command_key ws cid r : is_command ws cid r = true -> key_of r = (ws, cid).
Proof. unfold is_command, key_of. intros H. bool_to_prop. congruence. Qed.

Lemma key_is_command ws cid r : key_of r = (ws, cid) -> is_command ws cid r = true.
Proof. unfold key_of, is_command. intros [= <- <-]. by rewrite !String.eqb_refl. Qed.

Lemma fenced_inv now cid ws cluster lease agent r :
  fenced now cid ws cluster lease agent r = true ->
  key_of r = (ws, cid) /\ c_cluster_id r = cluster /\ c_lease_id r = Some lease
  /\ c_agent_id r = Some agent /\ exists u, c_leased_until r = Some u /\ now <= u.
Proof.
  unfold fenced, key_of, opt_eqb, not_before. intros H. bool_to_prop. split_and!; try congruence.
  destruct (c_leased_until r) as [u|]; [|done]. bool_to_prop. eauto.
Qed.

Lemma status_in_elem s l : status_in s l = true -> s ∈ l.
Proof. apply bool_decide_eq_true. Qed.

Lemma row_ok_in pending st r : wf_except pending st -> r ∈ commands st -> row_ok r.
Proof. intros Hwf Hr. apply wf_rows in Hwf. rewrite Forall_forall in Hwf. by apply Hwf. Qed.

Lemma staged_progress_wf now ws cid st st' : staged now ws cid progress st st' -> wf st -> wf st'.
Proof.
  intros Hs Hwf. eapply (wf_transition (fun _ => false) id); [exact Hwf|exact Hs| |done|done|done|done].
  unfold update_where. by rewrite map_id.
Qed.

Lemma attempt_insert_frame now a cid ws cluster no s avail st st' :
  agent_command_attempt_insert now a cid ws cluster no s avail st = Ok st' ->
  commands st' = commands st /\ cursors st' = cursors st /\ op_events st' = op_events st.
Proof. unfold agent_command_attempt_insert. repeat case_match; intros; by simplify_eq. Qed.

Lemma budget_pos payload : 1 <= (command_retry_policy int_of_text payload).1.
Proof. unfold command_retry_policy. repeat case_match; simpl; lia. Qed.

Lemma unprojected_inv r :
  unprojected r = true -> c_status r = QUEUED /\ c_active_attempt_id r = None /\ c_attempt_count r = 0.
Proof. unfold unprojected. intros H. bool_to_prop. by destruct (c_active_attempt_id r). Qed.

(** The first attempt of a command. *)
Lemma projected_row_ok r r' :
  row_ok r -> c_payload r' = c_payload r -> c_action r' = c_action r -> c_status r' = QUEUED ->
  c_attempt_count r' = 1 -> row_ok r'.
Proof.
  intros [Ha _ _ _] Hp Hac Hs Hc. split; rewrite ?Hp, ?Hac, ?Hs, ?Hc; try done.
  pose proof (budget_pos (c_payload r)). lia.
Qed.

Lemma values_row_ok now correlation plan conf row :
  agent_command_values sha256_hex quote now correlation plan QUEUED conf = Ok row ->
  row_ok row /\ finished row = false /\ c_status row = QUEUED.
Proof.
  unfold agent_command_values. intros H.
  repeat (apply result_bind_inv in H as (? & ? & H)). simplify_eq. simpl.
  pose proof (budget_pos plan). split_and!; try done. split; simpl; [|lia|done|done].
  match goal with H : required_field plan "action" = _ |- _ =>
    unfold required_field in H; unfold field_str_or; destruct (dict_get "action" plan) as [[]|];
    simplify_eq end.
  match goal with |- context [String.eqb ?s ""] => by destruct (String.eqb_spec s ""); subst end.
Qed.

Lemma insert_wf row st st1 b :
  wf st -> row_ok row -> finished row = false -> agent_command_insert row st = (st1, b) -> wf st1.
Proof.
  unfold agent_command_insert. intros Hwf Hrow Hfin H. destruct (existsb _ _) eqn:E; simplify_eq; [done|].
  by eapply wf_insert.
Qed.

Lemma receipt_wf now correlation plan ws cluster act conf max st st' x :
  wf st ->
  stage_receipt sha256_hex quote now correlation plan ws cluster act conf max st = Ok (st', x) -> wf st'.
Proof.
  unfold stage_receipt, stage_logical_command_acceptance_in_transaction. intros Hwf H.
  apply result_bind_inv in H as ([st1 b] & H1 & H).
  apply result_bind_inv in H1 as (_ & _ & H1). apply result_bind_inv in H1 as (row & Hrow & [= H1]).
  apply result_bind_inv in H as (cid & _ & H). apply stage_staged in H.
  apply values_row_ok in Hrow as (Hrow & Hfin & _).
  eapply staged_progress_wf; [done|]. by eapply insert_wf.
Qed.

Lemma enqueue_wf now correlation plan a st st' x :
  wf st -> enqueue sha256_hex quote now correlation plan QUEUED a st = Ok (st', x) -> wf st'.
Proof.
  unfold enqueue, agent_command_queue_upsert. intros Hwf H.
  apply result_bind_inv in H as (row & Hrow & H). apply values_row_ok in Hrow as (Hrow & Hfin & Hst).
  destruct (find _ _) as [existing|] eqn:Hf.
  - destruct (unprojected existing) eqn:Hu; simpl in H; [|by simplify_eq].
    apply result_bind_inv in H as (st2 & H2 & H). simplify_eq.
    apply attempt_insert_frame in H2 as (Hc & Hcur & Hev). simpl in *.
    eapply wf_quiet; [exact Hwf|exact Hc|done|done|].
    intros r Hr Hp. apply andb_true_iff in Hp as [_ (Hs & _ & _)%unprojected_inv].
    split_and!; [done| |by rewrite !finished_active by (simpl; by rewrite Hs)].
    by eapply projected_row_ok; [eapply row_ok_in| | | |].
  - simpl in H. apply result_bind_inv in H as (st2 & H2 & H). simplify_eq.
    apply attempt_insert_frame in H2 as (Hc & Hcur & Hev). simpl in *.
    eapply wf_insert; [exact Hwf|exact Hc|done|done| | |].
    + apply not_true_iff_false. intros (r & Hr & Heq)%existsb_exists.
      apply (find_none _ _ Hf) in Hr. simpl in *. congruence.
    + by eapply projected_row_ok.
    + apply finished_active. simpl. by rewrite Hst.
Qed.

Lemma reject_wf now ws cid cluster reason st st' x :
  wf st -> fail_logical_command_and_stage_event now ws cid cluster reason st = Ok (st', x) -> wf st'.
Proof.
  unfold fail_logical_command_and_stage_event. intros Hwf H.
  destruct (find _ _) as [row|] eqn:Hf; [|by simplify_eq]. apply stage_staged in H.
  apply find_elem in Hf as [Hr Hp].
  eapply wf_transition; [exact Hwf|exact H|done|done|done| |by eauto].
  intros r Hr' Hp'. apply andb_true_iff in Hp' as [[Hk%is_command_key _]%andb_true_iff Hs].
  bool_to_prop. split_and!; [done|done| |by apply finished_active; rewrite Hs|by apply finished_unretryable].
  by eapply row_ok_same; [eapply row_ok_in| | | | |].
Qed.

Lemma first_of_elem rows r : first_of rows = Some r -> r ∈ rows.
Proof.
  revert r. induction rows as [|r0 rows IH]; simpl; intros r H; [done|].
  destruct (first_of rows) as [r'|]; [|set_solver]. destruct (precedes _ _); set_solver.
Qed.

Lemma next_command_inv now ws cluster st r :
  next_command now ws cluster st = Some r ->
  r ∈ commands st /\ c_workspace_id r = ws /\ c_cluster_id r = cluster
  /\ exists a, active_attempt r st = Some a /\ c_active_attempt_id r = Some (a_attempt_id a)
      /\ a_available_at a <= now /\ leasable now r a = true.
Proof.
  unfold next_command. intros [Hc Hr]%first_of_elem%list_elem_of_filter. unfold candidate in Hc.
  destruct (active_attempt r st) as [a|] eqn:Ha; [|done]. bool_to_prop. split_and!; [done..|].
  exists a. split_and!; [done| |done|done]. unfold active_attempt in Ha.
  apply find_elem in Ha as [_ Ha]. unfold opt_eqb in Ha. by bool_to_prop.
Qed.

Lemma lease_wf now until cluster ws agent lease st st' x :
  wf st -> lease_agent_command now until cluster ws agent lease st = Ok (st', x) -> wf st'.
Proof.
  unfold lease_agent_command. intros Hwf H. destruct (next_command _ _ _ _) as [sel|]; [|by simplify_eq].
  destruct (find _ _) as [row|] eqn:Hf; [|by simplify_eq].
  apply staging_inv in H as (st1 & evt & Hs & H). simplify_eq. apply find_elem in Hf as [Hr Hp].
  eapply wf_transition; [exact Hwf|exact Hs|done|done|done| |done].
  intros r Hr' Hp'. apply andb_true_iff in Hp' as [[Hk%is_command_key Ha]%andb_true_iff Hst].
  apply andb_true_iff in Hp as [[Hk0%is_command_key _]%andb_true_iff _].
  apply status_in_elem in Hst. unfold opt_eqb in Ha. bool_to_prop.
  split_and!; [unfold key_of in *; simpl; congruence|done| |eapply finished_among; [exact Hst|set_solver]|by apply finished_active].
  apply (row_ok_same r); [by eapply row_ok_in|done..|intros _; congruence].
Qed.

Lemma start_wf now until cid ws cluster lease agent attempt st st' x :
  wf st -> start_agent_command now until cid ws cluster lease agent attempt st = Ok (st', x) -> wf st'.
Proof.
  unfold start_agent_command. intros Hwf H. destruct (find _ _) as [row|] eqn:Hf; [|by simplify_eq].
  apply staging_inv in H as (st1 & evt & Hs & H). simplify_eq.
  eapply wf_transition; [exact Hwf|exact Hs|by case_match|by case_match|by case_match| |done].
  intros r Hr Hp. apply andb_true_iff in Hp as [[(Hk & _)%fenced_inv Hst]%andb_true_iff _]. bool_to_prop.
  pose proof (row_ok_in _ _ _ Hwf Hr) as Hrow.
  split_and!; [done|done| |by apply finished_active; rewrite Hst|by apply finished_active].
  eapply row_ok_same; [exact Hrow|done..|]. intros _. apply row_held; [done|]. by rewrite Hst.
Qed.

Lemma heartbeat_wf now until cid ws cluster lease agent attempt observed st st' x :
  wf st ->
  heartbeat_agent_command now until cid ws cluster lease agent attempt observed st = Ok (st', x) -> wf st'.
Proof.
  unfold heartbeat_agent_command. intros Hwf H. destruct (find _ _) as [row|] eqn:Hf; [|by simplify_eq].
  apply find_elem in Hf as [Hr Hp].
  destruct (match attempt with Some _ => _ | None => _ end); [by simplify_eq|].
  apply andb_true_iff in Hp as [(Hk & _)%fenced_inv Hst%status_in_elem].
  pose proof (row_ok_in _ _ _ Hwf Hr) as Hrow.
  (* the update hits the selected row only *)
  assert (Hhit : forall r, r ∈ commands st -> is_command ws cid r = true -> r = row).
  { intros r Hr' Hk'%is_command_key. eapply command_unique; [exact Hwf|done..|].
    unfold key_of in *. congruence. }
  apply result_bind_inv in H as ([st1 evt] & H & H'). simplify_eq.
  destruct (_ && _) eqn:Hack.
  - apply andb_true_iff in Hack as [Hc _]. bool_to_prop. apply stage_staged in H.
    eapply wf_transition; [exact Hwf|exact H|by case_match|by case_match|by case_match| |done].
    intros r Hr' Hp'. assert (r = row) as ->.
    { apply Hhit; [done|]. by do 3 apply andb_true_iff in Hp' as [Hp' _]. }
    split_and!; [done|done| |by apply finished_active; rewrite Hc|by apply finished_active].
    eapply row_ok_same; [exact Hrow|done..|]. intros _. apply row_held; [done|]. by rewrite Hc.
  - simplify_eq. eapply wf_quiet;
      [exact Hwf|by destruct (String.eqb _ "")|by destruct (String.eqb _ "")|by destruct (String.eqb _ "")|].
    intros r Hr' Hp'. assert (r = row) as ->.
    { apply Hhit; [done|]. by do 3 apply andb_true_iff in Hp' as [Hp' _]. }
    split_and!; [done| |done]. eapply row_ok_same; [exact Hrow|done..|].
    intros Hs. by apply row_held.
Qed.

Lemma final_failure_inv row report b :
  row_ok row -> final_failure specs int_of_text row report = Ok b ->
  b = negb (retryable report
            && match spec_for specs (c_action row) with Some spec => supports_manual_retry spec | None => false end
            && (c_attempt_count row <? (command_retry_policy int_of_text (c_payload row)).1)).
Proof.
  intros [Ha _ _ _]. unfold final_failure. rewrite Ha, result_bind_ok. intros [= <-]. done.
Qed.

(** The completion's verdict is the one a later retry comes to. *)
Lemma may_retry_final row row' report b :
  row_ok row -> 1 <= c_attempt_count row -> final_failure specs int_of_text row report = Ok b ->
  c_payload row' = c_payload row -> c_action row' = c_action row ->
  c_attempt_count row' = c_attempt_count row -> c_status row' = FAILED -> c_result row' = report ->
  may_retry row' = negb b.
Proof.
  intros Hrow Hn Hb Hp Ha Hc Hs Hr. apply final_failure_inv in Hb; [|done]. subst b.
  rewrite negb_involutive. unfold may_retry, retry_guard. rewrite Hp, Ha, Hc, Hs, Hr.
  destruct (command_retry_policy int_of_text (c_payload row)) as [budget delay]. simpl.
  destruct (retryable report), (match spec_for _ _ with Some _ => _ | None => _ end); simpl;
    destruct (Z.ltb_spec budget 2), (Z.leb_spec budget (c_attempt_count row)),
      (Z.ltb_spec (c_attempt_count row) budget); simpl; try done; lia.
Qed.

Lemma complete_wf now cid ws cluster report lease agent source attempt eid created w st st' x :
  wf st ->
  complete_agent_command_and_stage_event specs int_of_text now cid ws cluster report lease agent source
    attempt eid created w st = Ok (st', x) -> wf st'.
Proof.
  unfold complete_agent_command_and_stage_event. intros Hwf H.
  apply result_bind_inv in H as (text & _ & H).
  destruct (find _ _) as [row|] eqn:Hf; [|by simplify_eq]. apply find_elem in Hf as [Hr Hp].
  apply result_bind_inv in H as (status & Hstatus & H).
  apply result_bind_inv in H as (final & Hfinal & H).
  destruct (command_terminal_event_kind _ _) as [kind|] eqn:Hkind; [|done].
  apply staging_inv in H as (st1 & evt & Hs & H). simplify_eq.
  pose proof Hp as [[(Hk & _)%fenced_inv Hst%status_in_elem]%andb_true_iff _]%andb_true_iff.
  pose proof (row_ok_in _ _ _ Hwf Hr) as Hrow.
  assert (Hheld : c_active_attempt_id row <> None).
  { apply row_held; [done|]. apply bool_decide_true. set_solver. }
  assert (Hwf1 : wf st1).
  { eapply wf_transition; [exact Hwf|exact Hs|by case_match|by case_match|by case_match| |].
    - intros r Hr' Hp'. assert (r = row) as ->.
      { apply andb_true_iff in Hp' as [[(Hk' & _)%fenced_inv _]%andb_true_iff _].
        eapply command_unique; [exact Hwf|done..|]. unfold key_of in *. congruence. }
      split_and!; [done|done| |eapply finished_among; [exact Hst|set_solver]|].
      + by eapply row_ok_same; [exact Hrow|done..|].
      + unfold command_terminal_event_kind in Hkind. case_bool_decide as Hfail; simpl in Hkind.
        * subst status. unfold finished. simpl.
          erewrite (may_retry_final row) by first [done | by apply row_active]. rewrite negb_involutive.
          destruct final; simplify_eq/=; done.
        * unfold finished. simpl. destruct status; simplify_eq/=; done.
    - intros _. by exists row. }
  destruct (bool_decide (kind = progress)); [by eapply wf_frame|].
  eapply (wf_quiet (is_command ws cid)); [exact Hwf1|done..|].
  intros r Hr' _. split_and!; [done| |done].
  apply (row_ok_same r); [by eapply row_ok_in|done..|]. exact (row_held _ (row_ok_in _ _ _ Hwf1 Hr')).
Qed.

Lemma cancel_wf now q ctl row st x :
  wf st -> find_command (q_workspace_id q) (q_command_id q) st = Some row ->
  cancel_command specs now q ctl row st = Ok x -> wf (x_store x).
Proof.
  unfold cancel_command. intros Hwf [Hr Hk%is_command_key]%find_elem H.
  destruct (spec_for _ _) as [spec|]; [|done]. destruct (negb _); [done|].
  destruct (status_in _ [COMPLETED; _; _]); [done|].
  destruct (status_in _ [CANCEL_REQUESTED; _]); [by simplify_eq|].
  assert (Huniq : forall s r, r ∈ commands st -> locked q s r = true -> r = row /\ c_status row = s).
  { intros s r Hr' [Hk'%is_command_key Hs]%andb_true_iff. bool_to_prop. assert (r = row) as ->; [|done].
    eapply command_unique; [exact Hwf|done..|]. unfold key_of in *. congruence. }
  pose proof (row_ok_in _ _ _ Hwf Hr) as Hrow.
  destruct (status_in _ [QUEUED; LEASED]) eqn:Hst.
  - apply status_in_elem in Hst. apply staging_inv in H as (st1 & evt & Hs & H). simplify_eq/=.
    eapply wf_transition; [exact Hwf|exact Hs|by case_match|by case_match|by case_match| |].
    + intros r Hr' [-> _]%Huniq; [|done]. split_and!; [done|done| | |by apply finished_done; right].
      * by eapply row_ok_same; [exact Hrow|done..|].
      * eapply finished_among; [exact Hst|set_solver].
    + intros _. exists row. split; [done|]. unfold locked. apply andb_true_iff.
      split; [by apply key_is_command|by apply bool_decide_true].
  - apply staging_inv in H as (st1 & evt & Hs & H). simplify_eq/=.
    eapply wf_transition; [exact Hwf|exact Hs|done|done|done| |done].
    intros r Hr' [-> Hrun]%Huniq; [|done].
    split_and!; [done|done| |by apply finished_active; rewrite Hrun|by apply finished_active].
    eapply row_ok_same; [exact Hrow|done..|]. intros _. apply row_held; [done|]. by rewrite Hrun.
Qed.

Lemma retry_wf now q ctl attempt row st x :
  wf st -> find_command (q_workspace_id q) (q_command_id q) st = Some row ->
  retry_command specs int_of_text now q ctl attempt row st = Ok x -> wf (x_store x).
Proof.
  unfold retry_command. intros Hwf [Hr Hk%is_command_key]%find_elem H.
  apply result_bind_inv in H as ([budget delay] & Hguard & H).
  apply result_bind_inv in H as (st0 & Hins & H). apply attempt_insert_frame in Hins as (Hc & Hcur & Hev).
  apply staging_inv in H as (st1 & evt & Hs & H). simplify_eq/=.
  pose proof (row_ok_in _ _ _ Hwf Hr) as Hrow.
  eapply wf_transition; [exact Hwf|exact Hs|by rewrite <- Hc|done|done| |done].
  intros r Hr' [Hk'%is_command_key Hfailed]%andb_true_iff. bool_to_prop.
  assert (r = row) as ->.
  { eapply command_unique; [exact Hwf|done..|]. unfold key_of in *. congruence. }
  split_and!; [done|done| | |by apply finished_active].
  - destruct Hrow as [Ha Hn _ _]. split; simpl; [done| |lia|done].
    unfold retry_guard in Hguard. destruct (command_retry_policy _ _) as [b d]. simpl in *.
    repeat (case_match; try done). simplify_eq. bool_to_prop. lia.
  - unfold finished, may_retry. rewrite Hguard, Hfailed. done.
Qed.

Lemma control_wf now q ctl attempt st st' x :
  wf st ->
  stage_command_control_in_transaction specs int_of_text now q ctl attempt st = Ok (st', x) -> wf st'.
Proof.
  unfold stage_command_control_in_transaction. intros Hwf H. destruct (negb _); [done|].
  destruct (find_command _ _ _) as [row|] eqn:Hf; [|done].
  destruct (current_control_row _ _ _ _ _); [done|].
  apply result_bind_inv in H as (x1 & H1 & H). simplify_eq.
  assert (Hwf1 : wf (x_store x1)).
  { destruct (String.eqb _ _); [by eapply cancel_wf|by eapply retry_wf]. }
  unfold insert_control. destruct (current_control_row _ _ _ _ _); [done|by eapply wf_frame].
Qed.

Lemma sweep_row_finished now r : finished (sweep_row now r) = true.
Proof.
  destruct (cancelling_states r) eqn:E.
  - apply finished_done. right. simpl. unfold terminal_status. by rewrite E.
  - apply finished_unretryable; simpl; [|done]. unfold terminal_status. by rewrite E.
Qed.

Lemma swept_status now grace ttl r : swept now grace ttl r = true -> c_status r ∈ ACTIVE_COMMAND_STATUSES.
Proof.
  unfold swept, cancelling_states. intros H.
  apply orb_true_iff in H as [H|H]; [apply orb_true_iff in H as [H|H]|];
    apply andb_true_iff in H as [H _]; [bool_to_prop; set_solver| |];
    apply status_in_elem in H; set_solver.
Qed.

Lemma swept_active now grace ttl r : swept now grace ttl r = true -> finished r = false.
Proof. intros H%swept_status. by eapply finished_among. Qed.

Lemma sweep_row_key now r : key_of (sweep_row now r) = key_of r.
Proof. done. Qed.

Lemma sweep_row_ok now r : row_ok r -> row_ok (sweep_row now r).
Proof.
  intros Hr. eapply row_ok_same; [exact Hr|done..|]. simpl. unfold terminal_status.
  by destruct (cancelling_states r).
Qed.

Lemma elem_of_returning {A} (p : A -> bool) f (l : list A) x :
  x ∈ returning p f l <-> exists y, y ∈ l /\ p y = true /\ x = f y.
Proof.
  unfold returning. rewrite list_elem_of_fmap. split.
  - intros (y & -> & [Hp Hy]%list_elem_of_filter). eauto.
  - intros (y & Hy & Hp & ->). exists y. by rewrite list_elem_of_filter.
Qed.

Lemma sweep_update_wf now grace ttl st :
  wf st ->
  wf_except (c_command_id <$> returning (swept now grace ttl) (sweep_row now) (commands st))
    (update_commands (swept now grace ttl) (sweep_row now) st).
Proof.
  intros Hwf. pose proof Hwf as [Hids Hrows Hstr Hcl]. split; simpl.
  - rewrite update_where_fmap by done. done.
  - apply Forall_forall. intros r (r0 & Hr0 & ->)%elem_of_update_where.
    pose proof (row_ok_in _ _ _ Hwf Hr0). destruct (swept _ _ _ _); [by apply sweep_row_ok|done].
  - exact Hstr.
  - intros ws cid. change (closed _ ws cid) with (closed st ws cid). rewrite Hcl.
    setoid_rewrite elem_of_update_where. split.
    + intros (r & Hr & Hk & Hf & _). exists r.
      destruct (swept now grace ttl r) eqn:E; [apply swept_active in E; congruence|].
      split_and!; [exists r; by rewrite E|done..|].
      intros (x & Hid & (y & Hy & Hs & ->)%elem_of_returning)%list_elem_of_fmap.
      assert (r = y) by (by eapply command_unique). congruence.
    + intros (r & (r0 & Hr0 & ->) & Hk & Hf & Hn). destruct (swept _ _ _ r0) eqn:E.
      * destruct Hn. apply list_elem_of_fmap. exists (sweep_row now r0). split; [done|].
        apply elem_of_returning. eauto.
      * exists r0. split_and!; [done..|set_solver].
Qed.

(** One turn of the loop closes the stream of its row. *)
Lemma close_expired_wf now source w row rest st st' :
  wf_except (c_command_id row :: rest) st ->
  row ∈ commands st -> finished row = true -> c_command_id row ∉ rest ->
  close_expired uuid5 clock_text w now source row st = Ok st' ->
  wf_except rest st'
  /\ exists f, commands st' = update_where (is_command (c_workspace_id row) (c_command_id row)) f (commands st)
     /\ forall r, key_of (f r) = key_of r /\ finished (f r) = finished r.
Proof.
  unfold close_expired. intros Hwf Hr Hfin Hn H.
  apply result_bind_inv in H as ([st1 evt] & Hs & H). simplify_eq. apply stage_staged in Hs.
  destruct (staged_frame _ _ _ _ _ _ Hs) as (Hc1 & _).
  assert (Hc2 : commands st1 = commands st) by (rewrite Hc1; by case_match).
  assert (Hwf1 : wf_except rest st1).
  { destruct Hwf as [Hids Hrows Hstr Hcl]. split; rewrite ?Hc2; [done|done| |].
    - eapply staged_streams_ok; [exact Hs|]. by case_match.
    - intros ws cid. erewrite staged_closed_eq by exact Hs.
      replace (closed _ ws cid) with (closed st ws cid) by (by case_match).
      rewrite orb_true_iff, andb_true_iff, bool_decide_eq_true, Hcl. split.
      + intros [(r & ? & ? & ? & ?)|[[-> ->] _]]; [exists r; set_solver|by exists row].
      + intros (r & Hr' & Hk & Hf & Hnr). destruct (decide (c_command_id r = c_command_id row)) as [Heq|].
        * right. assert (r = row) as ->.
          { eapply (command_unique (c_command_id row :: rest) st); [by split|done..]. }
          unfold key_of in Hk. simplify_eq. split; [done|]. by case_bool_decide.
        * left. exists r. split_and!; [done..|]. set_solver. }
  split.
  - eapply (wf_quiet (is_command (c_workspace_id row) (c_command_id row))); [exact Hwf1|done..|].
    intros r Hr' _. split_and!; [done| |done].
    apply (row_ok_same r); [by eapply row_ok_in|done..|]. exact (row_held _ (row_ok_in _ _ _ Hwf1 Hr')).
  - eexists. simpl. rewrite Hc2. split; [done|]. intros r. done.
Qed.

Lemma close_all_wf now source w rows st st' :
  wf_except (c_command_id <$> rows) st ->
  NoDup (c_command_id <$> rows) ->
  Forall (fun row => finished row = true /\ row ∈ commands st) rows ->
  close_all uuid5 clock_text w now source rows st = Ok st' -> wf st'.
Proof.
  revert st. induction rows as [|row rows IH]; csimpl; intros st Hwf Hnd Hall H; [by simplify_eq|].
  apply NoDup_cons in Hnd as [Hn Hnd]. apply Forall_cons in Hall as [[Hfin Hr] Hall].
  apply result_bind_inv in H as (st1 & H1 & H).
  destruct (close_expired_wf _ _ _ _ _ _ _ Hwf Hr Hfin Hn H1) as (Hwf1 & f & Hc & _).
  eapply IH; [exact Hwf1|done| |done].
  apply Forall_forall. intros r Hrr. rewrite Forall_forall in Hall. destruct (Hall _ Hrr) as [Hf Hin].
  split; [done|]. rewrite Hc. apply elem_of_update_where. exists r. split; [done|].
  destruct (is_command _ _ r) eqn:E; [|done]. exfalso. apply Hn. apply is_command_key in E.
  apply list_elem_of_fmap. exists r. unfold key_of in E. split; [congruence|done].
Qed.

Lemma returning_ids_NoDup now p st :
  wf st -> NoDup (c_command_id <$> returning p (sweep_row now) (commands st)).
Proof.
  intros Hwf%wf_ids. unfold returning.
  change (map (sweep_row now) ?l) with (sweep_row now <$> l). rewrite <- list_fmap_compose.
  change (c_command_id ∘ sweep_row now) with c_command_id.
  eapply sublist_NoDup; [exact Hwf|]. apply fmap_sublist, sublist_filter.
Qed.

Lemma sweep_wf now grace ttl source w st st' x :
  wf st ->
  fail_expired_agent_commands uuid5 clock_text w now grace ttl source st = Ok (st', x) -> wf st'.
Proof.
  unfold fail_expired_agent_commands. intros Hwf H. destruct (_ || _); [done|].
  apply result_bind_inv in H as (st1 & H & H'). simplify_eq.
  eapply close_all_wf; [by apply sweep_update_wf|by apply returning_ids_NoDup| |exact H].
  apply Forall_forall. intros r (r0 & Hr0 & Hs & ->)%elem_of_returning.
  split; [by apply sweep_row_finished|]. apply elem_of_update_where. exists r0. by rewrite Hs.
Qed.

Lemma step_wf st o st' : command_step st o st' -> wf st -> wf st'.
Proof.
  unfold command_step. intros H Hwf. destruct o; simpl in H; apply dropping_inv in H as [x H].
  - by eapply receipt_wf.
  - unfold queue_agent_command in H. destruct (field_is _ _ _); [done|]. by eapply enqueue_wf.
  - unfold queue_rca_test_command_if_available in H. do 2 (case_match; [done|]).
    apply result_bind_inv in H as (? & _ & H). apply result_bind_inv in H as (? & _ & H).
    case_match; [by simplify_eq|]. by eapply enqueue_wf.
  - by eapply reject_wf.
  - by eapply lease_wf.
  - by eapply start_wf.
  - by eapply heartbeat_wf.
  - by eapply complete_wf.
  - by eapply control_wf.
  - by eapply sweep_wf.
  - unfold append_command_operation_event in H. apply result_bind_inv in H as (? & _ & H).
    case_match; [done|]. apply stage_staged in H. by eapply staged_progress_wf.
Qed.

Lemma empty_wf : wf empty_store.
Proof.
  split; simpl; [apply NoDup_nil_2|constructor| |].
  - intros ws cid. split; [done|]. simpl. done.
  - intros ws cid. split; [|set_solver]. unfold closed. simpl. done.
Qed.

Lemma run_wf os st : steps command_step empty_store os st -> wf st.
Proof.
  intros H. eapply (steps_invariant command_step wf); [|exact H|exact empty_wf].
  intros. by eapply step_wf.
Qed.

(** ** How one operation moves the rows *)

Definition untouched (r r' : AgentCommand) : Prop :=
  c_status r' = c_status r /\ c_active_attempt_id r' = c_active_attempt_id r.

Definition kept_attempt (r r' : AgentCommand) : Prop :=
  c_active_attempt_id r' = c_active_attempt_id r.

(** The change an operation may make to a row it touches. *)
Definition touched (o : command_op) (r r' : AgentCommand) : Prop :=
  match o with
  | Queue _ _ _ a | QueueTest _ _ _ _ _ _ _ _ a =>
      c_status r = QUEUED /\ c_status r' = QUEUED /\ c_active_attempt_id r = None
      /\ c_active_attempt_id r' = Some a
  | RejectQueued _ _ _ _ _ => c_status r = QUEUED /\ c_status r' = FAILED /\ kept_attempt r r'
  | Lease _ _ _ _ _ _ =>
      c_status r ∈ [QUEUED; LEASED] /\ c_status r' = LEASED /\ kept_attempt r r'
  | Start _ _ _ => c_status r = LEASED /\ c_status r' = RUNNING /\ kept_attempt r r'
  | Heartbeat _ _ _ _ =>
      c_status r = CANCEL_REQUESTED /\ c_status r' = CANCELLING /\ kept_attempt r r'
  | Complete _ _ _ _ _ _ _ =>
      c_status r ∈ [RUNNING; CANCEL_REQUESTED; CANCELLING]
      /\ c_status r' ∈ TERMINAL_COMMAND_STATUSES /\ kept_attempt r r'
  | Control _ _ _ a =>
      (c_status r ∈ [QUEUED; LEASED] /\ c_status r' = CANCELLED /\ kept_attempt r r')
      \/ (c_status r = RUNNING /\ c_status r' = CANCEL_REQUESTED /\ kept_attempt r r')
      \/ (c_status r = FAILED /\ c_status r' = QUEUED /\ c_active_attempt_id r' = Some a)
  | Sweep _ _ _ _ _ =>
      c_status r ∈ ACTIVE_COMMAND_STATUSES /\ c_status r' = terminal_status r /\ kept_attempt r r'
  | Receipt _ _ _ _ _ _ _ _ | AppendProgress _ _ _ _ => False
  end.

Definition row_change (o : command_op) (r r' : AgentCommand) : Prop :=
  key_of r' = key_of r /\ (untouched r r' \/ touched o r r').

(** The row an operation may add. *)
Definition new_row (o : command_op) (r : AgentCommand) : Prop :=
  c_status r = QUEUED
  /\ match o with
     | Receipt _ _ _ _ _ _ _ _ => c_active_attempt_id r = None
     | Queue _ _ _ a | QueueTest _ _ _ _ _ _ _ _ a => c_active_attempt_id r = Some a
     | _ => False
     end.

Definition attempt_ids (st : store) : list string := a_attempt_id <$> command_attempts st.

(** Rows are only updated in place and appended; so are the controls, and the
    attempts keep their identifiers. *)
Record evolves (o : command_op) (st st' : store) : Prop := {
  ev_rows : exists g new, commands st' = (g <$> commands st) ++ new
    /\ (forall r, r ∈ commands st -> row_change o r (g r)) /\ Forall (new_row o) new;
  ev_controls : exists more, controls st' = controls st ++ more;
  ev_attempts : attempt_ids st ⊆ attempt_ids st';
  ev_active : forall r, r ∈ commands st' -> (forall r0, r0 ∈ commands st -> c_active_attempt_id r0 <> c_active_attempt_id r) ->
    match c_active_attempt_id r with Some a => a ∈ attempt_ids st' | None => True end;
}.

Lemma update_attempts_ids p f st :
  (forall a, a_attempt_id (f a) = a_attempt_id a) -> attempt_ids (update_attempts p f st) = attempt_ids st.
Proof. intros Hf. unfold attempt_ids, update_attempts. simpl. by rewrite update_where_fmap. Qed.

Lemma attempt_insert_ids now a cid ws cluster no s avail st st' :
  agent_command_attempt_insert now a cid ws cluster no s avail st = Ok st' ->
  attempt_ids st ⊆ attempt_ids st' /\ a ∈ attempt_ids st' /\ controls st' = controls st.
Proof.
  unfold agent_command_attempt_insert, attempt_ids. intros H. destruct (existsb _ _) eqn:E.
  - simplify_eq. split_and!; [done| |done]. apply existsb_exists in E as (x & Hx & Heq).
    apply String.eqb_eq in Heq. subst. apply list_elem_of_fmap. exists x.
    by rewrite list_elem_of_In.
  - destruct (existsb _ _) in H; simplify_eq. simpl. rewrite fmap_app. set_solver.
Qed.

(** An operation that updates rows in place, its effects on the other tables
    being those of attempt updates and staged events. *)
Lemma evolves_update o p f st st' :
  commands st' = update_where p f (commands st) ->
  (forall r, r ∈ commands st -> p r = true -> row_change o r (f r)) ->
  (exists more, controls st' = controls st ++ more) ->
  attempt_ids st ⊆ attempt_ids st' ->
  (forall r, r ∈ commands st -> p r = true -> kept_attempt r (f r)
     \/ exists a, c_active_attempt_id (f r) = Some a /\ a ∈ attempt_ids st') ->
  evolves o st st'.
Proof.
  intros Hc Hp Hk Ha Hact. split; [|done|done|].
  - exists (fun r => if p r then f r else r), []. rewrite app_nil_r. split_and!; [done| |constructor].
    intros r Hr. destruct (p r) eqn:E; [by apply Hp|]. split; [done|]. by left.
  - intros r Hr Hnew. rewrite Hc in Hr. apply elem_of_update_where in Hr as (r0 & Hr0 & ->).
    destruct (p r0) eqn:E; [|by destruct (Hnew r0 Hr0)].
    destruct (Hact r0 Hr0 E) as [Hkept|(a & Heq & Hin)]; [by destruct (Hnew r0 Hr0)|].
    by rewrite Heq.
Qed.

Lemma evolves_refl o st : evolves o st st.
Proof.
  apply (evolves_update o (fun _ => false) id); try done.
  - unfold update_where. by rewrite map_id.
  - exists []. by rewrite app_nil_r.
Qed.

Lemma evolves_frame o st st1 st' :
  evolves o st st1 -> commands st' = commands st1 -> controls st' = controls st1 ->
  attempt_ids st' = attempt_ids st1 -> evolves o st st'.
Proof.
  intros [H1 H2 H3 H4] Hc Hk Ha. split; rewrite ?Hc, ?Hk, ?Ha; try done.
Qed.

Lemma staged_attempt_ids now ws cid k st st' :
  staged now ws cid k st st' -> attempt_ids st' = attempt_ids st.
Proof. intros (_ & H & _)%staged_frame. unfold attempt_ids. by rewrite H. Qed.

Lemma evolves_staged o now ws cid k st st1 st' :
  evolves o st st1 -> staged now ws cid k st1 st' -> evolves o st st'.
Proof.
  intros He Hs. pose proof (staged_attempt_ids _ _ _ _ _ _ Hs).
  apply staged_frame in Hs as (? & _ & ? & _). by eapply evolves_frame.
Qed.

Lemma update_attempts_evolves o p f st st1 :
  (forall a, a_attempt_id (f a) = a_attempt_id a) ->
  evolves o st st1 -> evolves o st (update_attempts p f st1).
Proof. intros Hf He. eapply evolves_frame; [exact He|done|done|by apply update_attempts_ids]. Qed.

(** A row update that keeps the active attempt. *)
Lemma evolves_rows o p f st :
  (forall r, r ∈ commands st -> p r = true -> key_of (f r) = key_of r /\ kept_attempt r (f r)
     /\ (c_status (f r) = c_status r \/ touched o r (f r))) ->
  evolves o st (update_commands p f st).
Proof.
  intros Hp. apply (evolves_update o p f); [done| | |done|].
  - intros r Hr E. destruct (Hp r Hr E) as (Hk & Ha & [Hs|Ht]); split; [done|by left|done|by right].
  - exists []. by rewrite app_nil_r.
  - intros r Hr E. left. by destruct (Hp r Hr E) as (_ & ? & _).
Qed.

Lemma insert_evolves o row st st1 b :
  new_row o row -> c_active_attempt_id row = None ->
  agent_command_insert row st = (st1, b) -> evolves o st st1.
Proof.
  unfold agent_command_insert. intros Hnew Hact H. destruct (existsb _ _); simplify_eq; [apply evolves_refl|].
  split; simpl; [|exists []; by rewrite app_nil_r|done|].
  - exists id, [row]. rewrite list_fmap_id. split_and!; [done| |by constructor].
    intros r Hr. split; [done|]. by left.
  - intros r [Hr| ->%list_elem_of_singleton]%elem_of_app Hn; [by destruct (Hn r Hr)|]. by rewrite Hact.
Qed.

Lemma values_new now correlation plan conf row :
  agent_command_values sha256_hex quote now correlation plan QUEUED conf = Ok row ->
  c_status row = QUEUED /\ c_active_attempt_id row = None.
Proof.
  unfold agent_command_values. intros H. by repeat (apply result_bind_inv in H as (? & ? & H)); simplify_eq.
Qed.

Lemma receipt_evolves now correlation plan ws cluster act conf max st st' x :
  stage_receipt sha256_hex quote now correlation plan ws cluster act conf max st = Ok (st', x) ->
  evolves (Receipt now correlation plan ws cluster act conf max) st st'.
Proof.
  unfold stage_receipt, stage_logical_command_acceptance_in_transaction. intros H.
  apply result_bind_inv in H as ([st1 b] & H1 & H). apply result_bind_inv in H1 as (_ & _ & H1).
  apply result_bind_inv in H1 as (row & [Hs Ha]%values_new & [= H1]).
  apply result_bind_inv in H as (cid & _ & H). apply stage_staged in H.
  eapply evolves_staged; [|exact H]. eapply insert_evolves; [|done|exact H1]. done.
Qed.

Lemma enqueue_evolves o now correlation plan a st st' x :
  (forall r r', c_status r = QUEUED -> c_status r' = QUEUED -> c_active_attempt_id r = None ->
     c_active_attempt_id r' = Some a -> touched o r r') ->
  (forall r, c_status r = QUEUED -> c_active_attempt_id r = Some a -> new_row o r) ->
  enqueue sha256_hex quote now correlation plan QUEUED a st = Ok (st', x) -> evolves o st st'.
Proof.
  unfold enqueue, agent_command_queue_upsert. intros Ht Hnew H.
  apply result_bind_inv in H as (row & Hrow%values_new & H). destruct Hrow as [Hs Ha].
  destruct (find _ _) as [existing|].
  - destruct (unprojected existing); simpl in H; [|simplify_eq; apply evolves_refl].
    apply result_bind_inv in H as (st2 & H2 & H). simplify_eq.
    pose proof (attempt_insert_frame _ _ _ _ _ _ _ _ _ _ H2) as (Hc & _ & _).
    apply attempt_insert_ids in H2 as (Hids & Hin & Hk).
    eapply evolves_update; [exact Hc| | |exact Hids|].
    + intros r Hr [_ (? & ? & _)%unprojected_inv]%andb_true_iff. split; [done|]. right. by apply Ht.
    + exists []. by rewrite app_nil_r.
    + intros r Hr _. right. by exists a.
  - simpl in H. apply result_bind_inv in H as (st2 & H2 & H). simplify_eq.
    pose proof (attempt_insert_frame _ _ _ _ _ _ _ _ _ _ H2) as (Hc & _ & _).
    apply attempt_insert_ids in H2 as (Hids & Hin & Hk). simpl in *.
    split; simpl; [|exists []; by rewrite app_nil_r|done|]; rewrite Hc.
    + eexists id, [_]. rewrite list_fmap_id. split_and!; [done| |].
      * intros r Hr. split; [done|]. by left.
      * constructor; [by apply Hnew|constructor].
    + intros r [Hr| ->%list_elem_of_singleton]%elem_of_app Hn; [by destruct (Hn r Hr)|]. simpl. done.
Qed.

Lemma reject_evolves now ws cid cluster reason st st' x :
  fail_logical_command_and_stage_event now ws cid cluster reason st = Ok (st', x) ->
  evolves (RejectQueued now ws cid cluster reason) st st'.
Proof.
  unfold fail_logical_command_and_stage_event. intros H.
  destruct (find _ _) as [row|]; [|simplify_eq; apply evolves_refl].
  apply stage_staged in H. eapply evolves_staged; [|exact H]. apply evolves_rows.
  intros r Hr [_ Hs]%andb_true_iff. bool_to_prop. split_and!; [done..|]. by right.
Qed.

Lemma lease_evolves now until cluster ws agent lease st st' x :
  lease_agent_command now until cluster ws agent lease st = Ok (st', x) ->
  evolves (Lease now until cluster ws agent lease) st st'.
Proof.
  unfold lease_agent_command. intros H.
  destruct (next_command _ _ _ _) as [sel|]; [|simplify_eq; apply evolves_refl].
  destruct (find _ _) as [row|]; [|simplify_eq; apply evolves_refl].
  apply staging_inv in H as (st1 & evt & Hs & H). simplify_eq.
  eapply evolves_staged; [|exact Hs]. apply update_attempts_evolves; [done|]. apply evolves_rows.
  intros r Hr [_ Hst%status_in_elem]%andb_true_iff. split_and!; [done..|]. by right.
Qed.

Lemma start_evolves now until rep st st' x :
  start_agent_command now until (r_command_id rep) (r_workspace_id rep) (r_cluster_id rep)
    (r_lease_id rep) (r_agent_id rep) (r_attempt_id rep) st = Ok (st', x) ->
  evolves (Start now until rep) st st'.
Proof.
  unfold start_agent_command. intros H. destruct (find _ _) as [row|]; [|simplify_eq; apply evolves_refl].
  apply staging_inv in H as (st1 & evt & Hs & H). simplify_eq.
  eapply evolves_staged; [|exact Hs]. assert (He : evolves (Start now until rep) st (update_commands
    (fun r => fenced now (r_command_id rep) (r_workspace_id rep) (r_cluster_id rep) (r_lease_id rep)
                (r_agent_id rep) r && bool_decide (c_status r = LEASED) && attempt_matches (r_attempt_id rep) r)
    (fun r => r <| c_status := RUNNING |> <| c_leased_until := Some until |> <| c_started_at := Some now |>
                <| c_updated_at := now |>) st)).
  { apply evolves_rows. intros r Hr [[_ Hst]%andb_true_iff _]%andb_true_iff. bool_to_prop.
    split_and!; [done..|]. by right. }
  case_match; [by apply update_attempts_evolves|done].
Qed.

Lemma heartbeat_evolves now until rep observed st st' x :
  wf st ->
  heartbeat_agent_command now until (r_command_id rep) (r_workspace_id rep) (r_cluster_id rep)
    (r_lease_id rep) (r_agent_id rep) (r_attempt_id rep) observed st = Ok (st', x) ->
  evolves (Heartbeat now until rep observed) st st'.
Proof.
  unfold heartbeat_agent_command. intros Hwf H.
  destruct (find _ _) as [row|] eqn:Hf; [|simplify_eq; apply evolves_refl].
  apply find_elem in Hf as [Hr [(Hk & _)%fenced_inv _]%andb_true_iff].
  destruct (match r_attempt_id rep with Some _ => _ | None => _ end); [simplify_eq; apply evolves_refl|].
  apply result_bind_inv in H as ([st1 evt] & H & H'). simplify_eq.
  set (acknowledged := _ && _) in H.
  assert (Hack : acknowledged = true -> c_status row = CANCEL_REQUESTED).
  { intros [Ha _]%andb_true_iff. by bool_to_prop. }
  clearbody acknowledged.
  assert (He : forall p g, (forall r, p r = true -> is_command (r_workspace_id rep) (r_command_id rep) r = true) ->
    evolves (Heartbeat now until rep observed) st
      (update_commands p (fun r => r <| c_status := if acknowledged then CANCELLING else c_status row |>
         <| c_leased_until := Some until |> <| c_cancel_accepted_at := g r |> <| c_updated_at := now |>) st)).
  { intros p g Hp. apply evolves_rows. intros r Hr' Hpr%Hp%is_command_key. assert (r = row) as ->.
    { eapply command_unique; [exact Hwf|done..|]. unfold key_of in *. congruence. }
    split_and!; [done..|]. simpl. destruct acknowledged; [right|by left].
    split_and!; [by apply Hack|done..]. }
  destruct acknowledged;
    [apply stage_staged in H; eapply evolves_staged; [|exact H] | simplify_eq];
    (destruct (String.eqb _ ""); [|apply update_attempts_evolves; [done|]]); apply He;
    intros r Hp; by do 3 apply andb_true_iff in Hp as [Hp _].
Qed.

Lemma terminal_kind_status status final kind :
  command_terminal_event_kind status (negb (bool_decide (status = FAILED)) || final) = Some kind ->
  status ∈ TERMINAL_COMMAND_STATUSES.
Proof.
  unfold command_terminal_event_kind, TERMINAL_COMMAND_STATUSES.
  destruct status; simpl; intros; simplify_eq; set_solver.
Qed.

Lemma touched_untouched o r r1 r2 : touched o r r1 -> untouched r1 r2 -> touched o r r2.
Proof.
  intros Ht [Hs Ha]. destruct o; simpl in *; unfold kept_attempt in *; rewrite ?Hs, ?Ha; done.
Qed.

(** A further row update that moves nothing. *)
Lemma evolves_quiet o p f st st1 st2 :
  evolves o st st1 -> commands st2 = update_where p f (commands st1) ->
  (forall r, key_of (f r) = key_of r /\ untouched r (f r)) ->
  controls st2 = controls st1 -> attempt_ids st2 = attempt_ids st1 -> evolves o st st2.
Proof.
  intros [(g & new & Hc & Hg & Hnew) Hk Ha Hact] Hc2 Hf Hk2 Ha2.
  set (h := fun r => if p r then f r else r).
  assert (Hh : forall r, key_of (h r) = key_of r /\ untouched r (h r)).
  { intros r. unfold h. destruct (p r); [apply Hf|done]. }
  split; rewrite ?Hk2, ?Ha2; [|done|done|].
  - exists (h ∘ g), (h <$> new). split_and!.
    + rewrite Hc2, Hc. unfold update_where. rewrite map_app. f_equal. by rewrite list_fmap_compose.
    + intros r Hr. destruct (Hg r Hr) as [Hkey Hr']. destruct (Hh (g r)) as [Hkey2 Hun].
      split; [simpl; congruence|]. destruct Hr' as [[Hs Hac]|Ht].
      * left. destruct Hun as [Hs2 Ha3]. split; simpl; congruence.
      * right. by eapply touched_untouched.
    + apply Forall_fmap. eapply Forall_impl; [exact Hnew|]. intros r [Hs Hn]. simpl.
      destruct (Hh r) as [_ [Hs2 Hac2]]. split; [congruence|]. by destruct o; rewrite ?Hac2.
  - intros r Hr Hn. rewrite Hc2 in Hr. apply elem_of_update_where in Hr as (r1 & Hr1 & ->).
    destruct (Hh r1) as [_ [_ Hac]]. fold (h r1) in *. rewrite Hac in *. by apply Hact.
Qed.

Lemma complete_evolves now rep report source eid created w st st' x :
  complete_agent_command_and_stage_event specs int_of_text now (r_command_id rep) (r_workspace_id rep)
    (r_cluster_id rep) report (r_lease_id rep) (r_agent_id rep) source (r_attempt_id rep) eid created w st
    = Ok (st', x) ->
  evolves (Complete now rep report source eid created w) st st'.
Proof.
  unfold complete_agent_command_and_stage_event. intros H.
  apply result_bind_inv in H as (text & _ & H).
  destruct (find _ _) as [row|]; [|simplify_eq; apply evolves_refl].
  apply result_bind_inv in H as (status & _ & H). apply result_bind_inv in H as (final & _ & H).
  destruct (command_terminal_event_kind _ _) as [kind|] eqn:Hkind; [|done].
  apply terminal_kind_status in Hkind.
  apply staging_inv in H as (st1 & evt & Hs & H). simplify_eq.
  assert (He : evolves (Complete now rep report source eid created w) st st1).
  { eapply evolves_staged; [|exact Hs].
    destruct (truthy _); [apply update_attempts_evolves; [done|]|]; apply evolves_rows;
      (intros r Hr [[_ Hst%status_in_elem]%andb_true_iff _]%andb_true_iff;
       split_and!; [done..|by right]). }
  destruct (bool_decide (kind = progress)); [by eapply evolves_frame|].
  by eapply (evolves_quiet _ (is_command (r_workspace_id rep) (r_command_id rep))).
Qed.

Lemma insert_control_evolves o k st st1 : evolves o st st1 -> evolves o st (insert_control k st1).
Proof.
  intros He. unfold insert_control. destruct (current_control_row _ _ _ _ _); [done|].
  destruct He as [H1 [more H2] H3 H4]. split; simpl; [done| |done|done].
  exists (more ++ [k]). by rewrite H2, app_assoc.
Qed.

Lemma cancel_evolves now q ctl attempt row st x :
  wf st -> find_command (q_workspace_id q) (q_command_id q) st = Some row ->
  cancel_command specs now q ctl row st = Ok x -> evolves (Control now q ctl attempt) st (x_store x).
Proof.
  unfold cancel_command. intros Hwf [Hr Hk%is_command_key]%find_elem H.
  destruct (spec_for _ _) as [spec|]; [|done]. destruct (negb _); [done|].
  destruct (status_in _ [COMPLETED; _; _]); [done|].
  destruct (status_in _ [CANCEL_REQUESTED; _]); [simplify_eq; apply evolves_refl|].
  destruct (status_in _ [QUEUED; LEASED]) eqn:Hst; apply staging_inv in H as (st1 & evt & Hs & H);
    simplify_eq/=; (eapply evolves_staged; [|exact Hs]).
  - apply status_in_elem in Hst.
    destruct (c_active_attempt_id row); [apply update_attempts_evolves; [done|]|]; apply evolves_rows;
      (intros r Hr' [_ Hl]%andb_true_iff; bool_to_prop; split_and!; [done..|right; left]; by rewrite Hl).
  - apply evolves_rows. intros r Hr' [_ Hl]%andb_true_iff. bool_to_prop.
    split_and!; [done..|]. right; right; by left.
Qed.

Lemma retry_evolves now q ctl attempt row st x :
  retry_command specs int_of_text now q ctl attempt row st = Ok x ->
  evolves (Control now q ctl attempt) st (x_store x).
Proof.
  unfold retry_command. intros H.
  apply result_bind_inv in H as ([budget delay] & Hguard & H).
  apply result_bind_inv in H as (st0 & Hins & H).
  apply staging_inv in H as (st1 & evt & Hs & H). simplify_eq/=. eapply evolves_staged; [|exact Hs].
  pose proof (attempt_insert_frame _ _ _ _ _ _ _ _ _ _ Hins) as (Hc & _ & _).
  apply attempt_insert_ids in Hins as (Hids & Hin & Hk).
  eapply evolves_update; [by rewrite <- Hc|..]; simpl.
  - intros r Hr [_ Hl]%andb_true_iff. bool_to_prop. split; [done|]. right; right; by right.
  - exists []. by rewrite app_nil_r.
  - exact Hids.
  - intros r Hr _. right. by exists attempt.
Qed.

Lemma control_evolves now q ctl attempt st st' x :
  wf st ->
  stage_command_control_in_transaction specs int_of_text now q ctl attempt st = Ok (st', x) ->
  evolves (Control now q ctl attempt) st st'.
Proof.
  unfold stage_command_control_in_transaction. intros Hwf H. destruct (negb _); [done|].
  destruct (find_command _ _ _) as [row|] eqn:Hf; [|done].
  destruct (current_control_row _ _ _ _ _); [done|].
  apply result_bind_inv in H as (x1 & H1 & H). simplify_eq. apply insert_control_evolves.
  destruct (String.eqb _ _); [by eapply cancel_evolves|by eapply retry_evolves].
Qed.

Lemma close_all_evolves o now source w rows st st1 st2 :
  evolves o st st1 -> close_all uuid5 clock_text w now source rows st1 = Ok st2 -> evolves o st st2.
Proof.
  revert st1. induction rows as [|row rows IH]; simpl; intros st1 He H; [by simplify_eq|].
  apply result_bind_inv in H as (st3 & H3 & H). eapply IH; [|exact H].
  unfold close_expired in H3. apply result_bind_inv in H3 as ([st4 e] & Hs & H3). simplify_eq.
  apply stage_staged in Hs.
  eapply (evolves_quiet _ (is_command (c_workspace_id row) (c_command_id row))); [|done..].
  eapply evolves_staged; [|exact Hs]. destruct (truthy _); [by apply update_attempts_evolves|done].
Qed.

Lemma sweep_evolves now grace ttl source w st st' x :
  fail_expired_agent_commands uuid5 clock_text w now grace ttl source st = Ok (st', x) ->
  evolves (Sweep now grace ttl source w) st st'.
Proof.
  unfold fail_expired_agent_commands. intros H. destruct (_ || _); [done|].
  apply result_bind_inv in H as (st1 & H & H'). simplify_eq. eapply close_all_evolves; [|exact H].
  apply evolves_rows. intros r Hr Hs%swept_status. split_and!; [done..|]. by right.
Qed.

Lemma append_progress_evolves now ws cid payload st st' x :
  append_command_operation_event now ws cid progress payload st = Ok (st', x) ->
  evolves (AppendProgress now ws cid payload) st st'.
Proof.
  unfold append_command_operation_event. intros H. apply result_bind_inv in H as (? & _ & H).
  case_match; [done|]. apply stage_staged in H. eapply evolves_staged; [apply evolves_refl|exact H].
Qed.

Lemma step_evolves st o st' : command_step st o st' -> wf st -> evolves o st st'.
Proof.
  unfold command_step. intros H Hwf. destruct o; simpl in H; apply dropping_inv in H as [x H].
  - by eapply receipt_evolves.
  - unfold queue_agent_command in H. destruct (field_is _ _ _); [done|].
    by eapply enqueue_evolves; [..|exact H].
  - unfold queue_rca_test_command_if_available in H. do 2 (case_match; [done|]).
    apply result_bind_inv in H as (? & _ & H). apply result_bind_inv in H as (? & _ & H).
    case_match; [simplify_eq; apply evolves_refl|]. by eapply enqueue_evolves; [..|exact H].
  - by eapply reject_evolves.
  - by eapply lease_evolves.
  - by eapply start_evolves.
  - by eapply heartbeat_evolves.
  - by eapply complete_evolves.
  - by eapply control_evolves.
  - by eapply sweep_evolves.
  - by eapply append_progress_evolves.
Qed.
End Runs.

#[export] Hint Resolve step_wf step_evolves run_wf : kyro.
