(* ===== verification/CommandSafety.v ===== *)
(** What every run of the command store guarantees ([CommandRuns] gives the
    runs, their invariant and the shape of one step). *)

From S2P Require Import Prelude Json EventStore Outbox CommandLifecycle CommandCatalog CommandStore CommandRuns.
From coqutil Require Import Datatypes.RecordSettersUsingExistingGetters.

Section Safety.
Context (sha256_hex quote : string -> string) (specs : catalog) (int_of_text : string -> option Z).
Context (timestamp_of : string -> Z) (uuid5 clock_text : string -> string).

Let step := command_step sha256_hex quote specs int_of_text timestamp_of uuid5 clock_text.

(** [split_touched] takes apart the cases a [touched] hypothesis leaves. *)
Ltac split_touched :=
  repeat match goal with
  | H : _ \/ _ |- _ => destruct H as [H|H]
  | H : _ /\ _ |- _ => destruct H
  end.

(** C18. In every run the operation stream of a command is closed exactly when
    the command has reached its last state: completed, cancelled, or failed
    with no retry left.  So no browser waits for an event of a finished
    command, and no stream is closed while a retry can still revive it. *)
Theorem stream_closed_iff_finished os st r :
  steps step empty_store os st -> r ∈ commands st ->
  closed st (c_workspace_id r) (c_command_id r) = finished specs int_of_text r.
Proof.
  intros Hrun%run_wf Hr. apply eq_true_iff_eq. rewrite (wf_closed _ _ _ _ Hrun). split.
  - intros (r' & Hr' & [= _ Hid] & Hf & _).
    by rewrite <- (command_unique _ _ _ _ _ _ Hrun Hr' Hr Hid).
  - intros Hf. exists r. split_and!; [done..|set_solver].
Qed.

(** In every run the events of each stream are numbered 1, 2, 3, ... in
    the order they were written, and only the last one may be terminal. *)
Theorem streams_gap_free os st ws cid :
  steps step empty_store os st ->
  (ev_sequence <$> stream ws cid st) = (Z.of_nat <$> seq 1 (length (stream ws cid st)))
  /\ forall i e, stream ws cid st !! i = Some e -> terminal_kind (ev_kind e) = true ->
     S i = length (stream ws cid st).
Proof.
  intros Hrun%run_wf. destruct (wf_streams _ _ _ _ Hrun ws cid) as [Hseq Hc]. split; [done|].
  intros i e Hi Ht.
  assert (Hno : ~ Forall (fun e => terminal_kind (ev_kind e) = false) (stream ws cid st)).
  { intros Hall. eapply Forall_lookup_1 in Hall; [|done]. simpl in Hall. congruence. }
  destruct (cursors st !! (ws, cid)) as [c|]; [|by rewrite Hc in Hi].
  destruct Hc as [_ Hc]. destruct (terminal_sequence c); [|done].
  destruct Hc as (_ & init & last & Heq & _ & Hinit). rewrite Heq in *.
  apply lookup_app_Some in Hi as [Hi|[Hge Hi]].
  - eapply Forall_lookup_1 in Hinit; [|done]. simpl in Hinit. congruence.
  - rewrite length_app. simpl. apply lookup_lt_Some in Hi. simpl in Hi. lia.
Qed.

(** C25. Every status change of a run is one the transition table allows, with
    one exception: an agent may report [cancelled] for a command that is
    running and that nobody asked to cancel. *)
Theorem transitions_follow_table os st o st' r :
  steps step empty_store os st -> step st o st' -> r ∈ commands st ->
  exists r', r' ∈ commands st' /\ key_of r' = key_of r
    /\ (command_transition_allowed (c_status r) (c_status r') = true
        \/ (c_status r = RUNNING /\ c_status r' = CANCELLED
            /\ match o with Complete _ _ _ _ _ _ _ => True | _ => False end)).
Proof.
  intros Hrun%run_wf Hstep Hr.
  destruct (step_evolves _ _ _ _ _ _ _ _ _ _ Hstep Hrun) as [(g & new & Hc & Hg & _) _ _ _].
  destruct (Hg r Hr) as [Hk Hch]. exists (g r). split_and!; [|done|].
  { rewrite Hc. apply elem_of_app. left. by apply list_elem_of_fmap_2. }
  destruct Hch as [[Hs _]|Ht]; [left; rewrite Hs; by destruct (c_status r)|].
  destruct o; simpl in Ht; try done; split_touched;
    repeat match goal with
    | H : c_status _ ∈ _ |- _ => repeat (apply elem_of_cons in H as [H|H]); [..|by apply elem_of_nil in H]
    end; unfold terminal_status, cancelling_states in *;
    repeat match goal with H : c_status _ = _ |- _ => rewrite H in * end; auto.
Qed.

(** *** Attempts *)

(** The identifiers [uuid4] draws for attempts are new. *)
Definition drawn (o : command_op) : option string :=
  match o with
  | Queue _ _ _ a | QueueTest _ _ _ _ _ _ _ _ a | Control _ _ _ a => Some a
  | _ => None
  end.

Definition fresh (o : command_op) (st : store) : Prop :=
  match drawn o with Some a => a ∉ attempt_ids st | None => True end.

Definition startable (s : CommandStatus) : bool := status_in s [QUEUED; LEASED].

(** A change keeps the attempt, and then never makes an attempt startable that
    was not, or brings in the drawn one. *)
Lemma touched_attempt o r r' :
  touched o r r' ->
  (c_active_attempt_id r' = c_active_attempt_id r
   /\ (startable (c_status r) = true \/ startable (c_status r') = false))
  \/ exists a, drawn o = Some a /\ c_active_attempt_id r' = Some a.
Proof.
  unfold kept_attempt, terminal_status. intros Ht.
  assert (Hterm : forall s, s ∈ TERMINAL_COMMAND_STATUSES -> startable s = false).
  { intros s Hs. by repeat (apply elem_of_cons in Hs as [->|Hs]); [..|apply elem_of_nil in Hs]. }
  destruct o; simpl in Ht; try done; split_touched; eauto; unfold kept_attempt in *;
    try (left; split; [done|]; right; match goal with H : c_status r' = _ |- _ => rewrite H end; done);
    try (left; split; [done|]; left; match goal with H : c_status r = _ |- _ => rewrite H end; done);
    try (left; split; [done|]; left; by apply bool_decide_true); left; split; try done; right; eauto.
  match goal with H : c_status r' = _ |- _ => rewrite H end. unfold terminal_status.
  by destruct (cancelling_states r).
Qed.

Definition fresh_step (st : store) (o : command_op) (st' : store) : Prop :=
  step st o st' /\ fresh o st.

(** The active attempts are attempts. *)
Definition attempts_known (st : store) : Prop :=
  Forall (fun r => match c_active_attempt_id r with Some a => a ∈ attempt_ids st | None => True end)
    (commands st).

Lemma attempts_known_step st o st' :
  step st o st' -> wf specs int_of_text st -> attempts_known st -> attempts_known st'.
Proof.
  intros Hstep Hwf Hk. destruct (step_evolves _ _ _ _ _ _ _ _ _ _ Hstep Hwf) as [_ _ Hids Hact].
  apply Forall_forall. intros r Hr.
  destruct (decide (Exists (fun r0 => c_active_attempt_id r0 = c_active_attempt_id r) (commands st)))
    as [Hex|Hno].
  - apply Exists_exists in Hex as (r0 & Hr0 & Heq). unfold attempts_known in Hk.
    rewrite Forall_forall in Hk. specialize (Hk r0 Hr0). rewrite <- Heq.
    destruct (c_active_attempt_id r0); [by apply Hids|done].
  - apply Hact; [done|]. intros r0 Hr0 Heq. apply Hno, Exists_exists. eauto.
Qed.

(** An attempt of a command that has been started: it can never be leased
    again. *)
Definition spent (cid a : string) (st : store) : Prop :=
  a ∈ attempt_ids st
  /\ forall r, r ∈ commands st -> c_command_id r = cid -> c_active_attempt_id r = Some a ->
     startable (c_status r) = false.

Lemma spent_step cid a st o st' :
  wf specs int_of_text st -> fresh_step st o st' -> spent cid a st -> spent cid a st'.
Proof.
  intros Hwf [Hstep Hfresh] [Hin Hsp]. unfold fresh in Hfresh.
  destruct (step_evolves _ _ _ _ _ _ _ _ _ _ Hstep Hwf) as [(g & new & Hc & Hg & Hnew) _ Hids _].
  split; [by apply Hids|]. intros r Hr Hid Hact. rewrite Hc in Hr.
  apply elem_of_app in Hr as [(r0 & -> & Hr0)%list_elem_of_fmap|Hr].
  - destruct (Hg r0 Hr0) as [[= _ Hid0] Hch]. rewrite Hid0 in Hid.
    destruct Hch as [[Hs Ha]|Ht]; [rewrite Hs; apply Hsp; congruence|].
    destruct (touched_attempt _ _ _ Ht) as [[Ha [Hs|Hs]]|(a' & Hd & Ha)]; [|done|].
    + rewrite Hsp in Hs; [done|done|done|congruence].
    + rewrite Hd in Hfresh. congruence.
  - rewrite Forall_forall in Hnew. destruct (Hnew r Hr) as [_ Hn].
    destruct o; simpl in Hn, Hfresh; try done; congruence.
Qed.

(** An agent's start of an attempt, seen in the rows. *)
Definition starts (cid a : string) (st st' : store) : Prop :=
  exists r r', r ∈ commands st /\ r' ∈ commands st' /\ c_command_id r = cid /\ key_of r' = key_of r
    /\ c_status r = LEASED /\ c_status r' = RUNNING /\ c_active_attempt_id r = Some a
    /\ c_active_attempt_id r' = Some a.

Definition run_ok (st : store) : Prop := wf specs int_of_text st /\ attempts_known st.

Lemma run_ok_step st o st' : fresh_step st o st' -> run_ok st -> run_ok st'.
Proof.
  intros [Hstep _] [Hwf Hk]. split; [by eapply step_wf|by eapply attempts_known_step].
Qed.

Lemma run_ok_empty : run_ok empty_store.
Proof. split; [apply empty_wf|constructor]. Qed.

Lemma run_ok_run os st st' : steps fresh_step st os st' -> run_ok st -> run_ok st'.
Proof. intros H. apply (steps_invariant fresh_step run_ok run_ok_step _ _ _ H). Qed.

Lemma starts_spent cid a st o st' :
  run_ok st -> fresh_step st o st' -> starts cid a st st' -> spent cid a st'.
Proof.
  intros Hok Hf (r & r' & Hr & Hr' & Hid & [= _ Hk] & Hs & Hs' & Ha & Ha').
  destruct (run_ok_step _ _ _ Hf Hok) as [Hwf' Hkn]. split.
  - unfold attempts_known in Hkn. rewrite Forall_forall in Hkn. specialize (Hkn r' Hr').
    by rewrite Ha' in Hkn.
  - intros r2 Hr2 Hid2 Ha2. assert (r2 = r') as ->; [|by rewrite Hs'].
    eapply command_unique; [exact Hwf'|done..|congruence].
Qed.

Lemma spent_run cid a st os st' :
  steps fresh_step st os st' -> run_ok st -> spent cid a st -> spent cid a st'.
Proof.
  intros H. induction H as [|s1 o s2 os s3 Hf _ IH]; [done|]. intros Hok Hsp.
  apply IH; [by eapply run_ok_step|]. eapply spent_step; [apply Hok|done..].
Qed.

(** C14. No attempt of a command is started twice: once an agent has started
    it, no later step of the run, whatever happens to leases, agents and
    retries in between, starts that attempt again.  A command that may have
    had effects is never silently run again. *)
Theorem attempt_started_once cid a os1 st1 o1 st2 os2 st3 o2 st4 :
  steps fresh_step empty_store os1 st1 -> fresh_step st1 o1 st2 -> starts cid a st1 st2 ->
  steps fresh_step st2 os2 st3 -> fresh_step st3 o2 st4 -> ~ starts cid a st3 st4.
Proof.
  intros Hrun Hf1 Hst1 Hrun2 _ (r & r' & Hr & _ & Hid & _ & Hs & _ & Ha & _).
  assert (Hok1 : run_ok st1) by (eapply run_ok_run; [exact Hrun|apply run_ok_empty]).
  assert (Hsp : spent cid a st3).
  { eapply spent_run; [exact Hrun2|by eapply run_ok_step|by eapply starts_spent]. }
  destruct Hsp as [_ Hsp]. specialize (Hsp r Hr Hid Ha). by rewrite Hs in Hsp.
Qed.

(** A command never has more attempts than its plan's budget. *)
Theorem attempts_within_budget os st r :
  steps step empty_store os st -> r ∈ commands st ->
  0 <= c_attempt_count r <= (command_retry_policy int_of_text (c_payload r)).1.
Proof. intros Hrun%run_wf Hr. by eapply row_attempts, row_ok_in. Qed.

(** *** Fencing *)

(** The report names the command but not its lease, its holder, or comes after
    the lease ran out. *)
Definition stale (now : Z) (rep : agent_report) (r : AgentCommand) : Prop :=
  c_lease_id r <> Some (r_lease_id rep) \/ c_agent_id r <> Some (r_agent_id rep)
  \/ before (c_leased_until r) now = true.

Lemma stale_not_fenced now rep r :
  stale now rep r ->
  fenced now (r_command_id rep) (r_workspace_id rep) (r_cluster_id rep) (r_lease_id rep) (r_agent_id rep) r
  = false.
Proof.
  intros Hst. apply not_true_iff_false. intros (_ & _ & Hl & Ha & u & Hu & Hle)%fenced_inv.
  destruct Hst as [?|[?|Hb]]; [congruence..|]. rewrite Hu in Hb. simpl in Hb. bool_to_prop. lia.
Qed.

Lemma find_fenced_none pending st now rep r q :
  wf_except specs int_of_text pending st -> r ∈ commands st -> c_command_id r = r_command_id rep ->
  stale now rep r ->
  (forall x, q x = true -> fenced now (r_command_id rep) (r_workspace_id rep) (r_cluster_id rep)
                            (r_lease_id rep) (r_agent_id rep) x = true) ->
  find q (commands st) = None.
Proof.
  intros Hwf Hr Hid Hst Hq. destruct (find q (commands st)) as [x|] eqn:Hf; [|done].
  apply find_elem in Hf as [Hx Hqx]. pose proof (Hq x Hqx) as Hfe.
  assert (x = r) as ->; [|by rewrite stale_not_fenced in Hfe].
  eapply command_unique; [exact Hwf|done..|]. apply fenced_inv in Hfe as ([= _ Hk] & _). congruence.
Qed.

(** An agent whose lease is no longer the command's (another agent took it
    over, a retry cleared it, or it ran out) changes nothing any more: its
    start, heartbeat and completion (with any status) are answered with
    nothing and leave every table as it was. *)
Theorem stale_report_rejected os st r now until rep observed report status source eid created w :
  steps step empty_store os st -> r ∈ commands st -> c_command_id r = r_command_id rep ->
  stale now rep r -> required_field report "status" = Ok status ->
  step st (Start now until rep) st /\ step st (Heartbeat now until rep observed) st
  /\ step st (Complete now rep report source eid created w) st.
Proof.
  intros Hrun%run_wf Hr Hid Hst Hstatus. unfold step, command_step, apply,
    start_agent_command, heartbeat_agent_command, complete_agent_command_and_stage_event.
  rewrite Hstatus, result_bind_ok.
  split_and!; (rewrite (find_fenced_none _ _ _ _ _ _ Hrun Hr Hid Hst); [done|]); intros x Hx.
  - by do 2 apply andb_true_iff in Hx as [Hx _].
  - by apply andb_true_iff in Hx as [Hx _].
  - by do 2 apply andb_true_iff in Hx as [Hx _].
Qed.

(** *** Controls *)

Definition same_control (q q' : control_request) : Prop :=
  q_workspace_id q' = q_workspace_id q /\ q_command_id q' = q_command_id q
  /\ q_action q' = q_action q /\ q_idempotency_key q' = q_idempotency_key q.

(** What a duplicate of a control meets: the command and the control. *)
Definition control_recorded (q : control_request) (st : store) : Prop :=
  (exists r, find_command (q_workspace_id q) (q_command_id q) st = Some r)
  /\ exists k, current_control_row (q_workspace_id q) (q_command_id q) (q_action q)
                 (q_idempotency_key q) st = Some k.

Lemma find_app_Some {A} (p : A -> bool) l l' x : find p l = Some x -> find p (l ++ l') = Some x.
Proof. induction l as [|y l IH]; simpl; [done|]. destruct (p y); auto. Qed.

Lemma find_command_exists ws cid st r :
  r ∈ commands st -> key_of r = (ws, cid) -> exists r', find_command ws cid st = Some r'.
Proof.
  intros Hr Hk. unfold find_command. destruct (find _ _) as [r'|] eqn:Hf; [eauto|].
  eapply find_none in Hf; [|by apply list_elem_of_In]. by rewrite key_is_command in Hf.
Qed.

Lemma control_recorded_step q st o st' :
  step st o st' -> wf specs int_of_text st -> control_recorded q st -> control_recorded q st'.
Proof.
  intros Hstep Hwf [[r Hr] [k Hk]].
  destruct (step_evolves _ _ _ _ _ _ _ _ _ _ Hstep Hwf) as [(g & new & Hc & Hg & _) [more Hm] _ _].
  apply find_elem in Hr as [Hr Hk0%is_command_key]. split.
  - apply (find_command_exists _ _ _ (g r)); [|destruct (Hg r Hr); congruence].
    rewrite Hc. apply elem_of_app. left. by apply list_elem_of_fmap_2.
  - exists k. unfold current_control_row in *. rewrite Hm. by apply find_app_Some.
Qed.

Lemma insert_control_recorded k st :
  exists k', current_control_row (k_workspace_id k) (k_command_id k) (k_action k) (k_idempotency_key k)
    (insert_control k st) = Some k'.
Proof.
  unfold insert_control. destruct (current_control_row _ _ _ _ st) eqn:E; [by eauto|].
  unfold current_control_row. simpl.
  match goal with |- context [find ?p ?l] => destruct (find p l) eqn:Hf; [by eauto|] end.
  eapply find_none in Hf; [|apply in_or_app; right; by left]. simpl in Hf.
  by rewrite !String.eqb_refl in Hf.
Qed.

Lemma control_recorded_here now q ctl a st st' x :
  wf specs int_of_text st ->
  stage_command_control_in_transaction specs int_of_text now q ctl a st = Ok (st', x) ->
  control_recorded q st'.
Proof.
  intros Hwf H. pose proof (control_evolves sha256_hex quote specs int_of_text timestamp_of uuid5 clock_text _ _ _ _ _ _ _ Hwf H) as [(g & new & Hc & Hg & _) _ _ _].
  unfold stage_command_control_in_transaction in H. destruct (negb _); [done|].
  destruct (find_command _ _ _) as [row|] eqn:Hf; [|done].
  destruct (current_control_row _ _ _ _ _); [done|].
  apply result_bind_inv in H as (x1 & H1 & H). simplify_eq.
  apply find_elem in Hf as [Hr Hk%is_command_key]. split.
  - apply (find_command_exists _ _ _ (g row)); [|destruct (Hg row Hr); congruence].
    rewrite Hc. apply elem_of_app. left. by apply list_elem_of_fmap_2.
  - match goal with |- context [insert_control ?k _] => apply (insert_control_recorded k) end.
Qed.

(** A cancel or retry takes effect once per idempotency key: after it has
    been accepted, the same request is refused as a duplicate in every later
    state of the run, whatever became of the command. *)
Theorem control_applied_once os1 st1 now q ctl a st2 os2 st3 now' q' ctl' a' :
  steps step empty_store os1 st1 -> step st1 (Control now q ctl a) st2 -> steps step st2 os2 st3 ->
  same_control q q' ->
  exists k, stage_command_control_in_transaction specs int_of_text now' q' ctl' a' st3
            = Err (DuplicateCommandControl k).
Proof.
  intros Hrun%run_wf Hctl Hrun2 (Hw & Hc & Ha & Hi). pose proof (step_wf _ _ _ _ _ _ _ _ _ _ Hctl Hrun) as Hwf2.
  unfold step, command_step in Hctl. simpl in Hctl. apply dropping_inv in Hctl as [x Hctl].
  pose proof Hctl as Hact%control_recorded_here; [|done].
  assert (Hrec : wf specs int_of_text st3 /\ control_recorded q st3).
  { eapply (steps_invariant step (fun st => wf specs int_of_text st /\ control_recorded q st));
      [|exact Hrun2|done].
    intros s l s' Hs [Hwf Hr]. split; [by eapply step_wf|by eapply control_recorded_step]. }
  destruct Hrec as [_ [[r Hr] [k Hk]]].
  unfold stage_command_control_in_transaction in Hctl |- *. rewrite Hw, Hc, Ha, Hi, Hr, Hk.
  destruct (negb _); [done|]. eauto.
Qed.

(** *** Completion events *)

Lemma record_event_known now evt t : is_Some (events (record_event now evt t) !! event_id evt).
Proof.
  unfold record_event. destruct (events t !! event_id evt) eqn:E; simpl; [by rewrite E|].
  by rewrite lookup_insert_eq.
Qed.

Lemma stage_event_known evt t :
  Exists (fun o => event_id (o_event o) = event_id evt) (outbox (stage_event t evt))
  /\ events (stage_event t evt) = events t.
Proof.
  unfold stage_event. destruct (existsb _ _) eqn:E; simpl; split; try done.
  - apply existsb_exists in E as (o & Ho & Heq). apply Exists_exists. exists o.
    rewrite list_elem_of_In. split; [done|]. by apply String.eqb_eq.
  - apply Exists_app. right. by constructor.
Qed.

(** The workflow's event is recorded and waits in the outbox. *)
Definition published (eid : string) (st : store) : Prop :=
  is_Some (events (bus st) !! eid) /\ Exists (fun o => event_id (o_event o) = eid) (outbox (bus st)).

Lemma publish_published now evt st : published (event_id evt) (publish_in_transaction now evt st).
Proof.
  unfold published, publish_in_transaction. simpl.
  destruct (stage_event_known evt (record_event now evt (bus st))) as [Hex ->].
  split; [apply record_event_known|done].
Qed.

(** C22. A completion is never recorded without its event: when the store
    accepts an agent's report, the command is terminal with exactly that
    report as its result, and its [command.completed] event is in the event
    log and the outbox of the same transaction, so a crash before the broker
    hears of it loses nothing. *)
Theorem completion_published os st now rep report source eid created w st' evt op :
  steps step empty_store os st ->
  complete_agent_command_and_stage_event specs int_of_text now (r_command_id rep) (r_workspace_id rep)
    (r_cluster_id rep) report (r_lease_id rep) (r_agent_id rep) source (r_attempt_id rep) eid created w st
    = Ok (st', Some (evt, op)) ->
  published (event_id evt) st'
  /\ dict_get "command_id" (payload evt) = Some (JStr (r_command_id rep))
  /\ dict_get "result" (payload evt) = Some (JObj report)
  /\ exists r, r ∈ commands st' /\ c_command_id r = r_command_id rep /\ c_result r = report
       /\ command_status_is_terminal (c_status r) = true.
Proof.
  intros Hrun%run_wf. unfold complete_agent_command_and_stage_event. intros H.
  apply result_bind_inv in H as (text & _ & H).
  destruct (find _ _) as [row|] eqn:Hf; [|done]. apply find_elem in Hf as [Hr Hp].
  apply result_bind_inv in H as (status & _ & H). apply result_bind_inv in H as (final & _ & H).
  destruct (command_terminal_event_kind _ _) as [kind|] eqn:Hkind; [|done].
  apply terminal_kind_status in Hkind.
  apply staging_inv in H as (st1 & e & Hs & H). simplify_eq.
  split_and!; [apply publish_published|done|done|].
  apply staged_frame in Hs as (Hc & _).
  set (row' := row <| c_status := status |> <| c_result := report |> <| c_completed_at := Some now |>
                   <| c_updated_at := now |>) in *.
  assert (Hin : row' ∈ commands st1).
  { rewrite Hc. destruct (truthy _); simpl; apply elem_of_update_where; exists row; by rewrite Hp. }
  assert (Hid : c_command_id row = r_command_id rep).
  { apply andb_true_iff in Hp as [[([= _ Hk] & _)%fenced_inv _]%andb_true_iff _]. done. }
  assert (Hterm : command_status_is_terminal status = true) by by apply bool_decide_true.
  simpl. destruct (bool_decide (kind = progress)); [by exists row'|]. simpl.
  exists (if is_command (r_workspace_id rep) (r_command_id rep) row'
          then row' <| c_terminal_event_id := Some eid |> else row').
  split_and!; [apply elem_of_update_where; by exists row'|..]; by destruct (is_command _ _ _).
Qed.

(** *** Replay *)

Definition numbered (a : nat) (l : list CommandOperationEvent) : Prop :=
  (ev_sequence <$> l) = (Z.of_nat <$> seq a (length l)).

Lemma numbered_cons a e l : numbered a (e :: l) <-> ev_sequence e = Z.of_nat a /\ numbered (S a) l.
Proof. unfold numbered. csimpl. split; [by intros [= -> ->]|by intros [-> ->]]. Qed.

Lemma numbered_sorted a l : numbered a l -> foldr insert_by_sequence [] l = l.
Proof.
  revert a. induction l as [|e l IH]; intros a Hn; [done|]. apply numbered_cons in Hn as [He Hn].
  simpl. rewrite (IH _ Hn). destruct l as [|e' l]; [done|]. apply numbered_cons in Hn as [He' _].
  simpl. by rewrite (proj2 (Z.leb_le _ _)) by lia.
Qed.

Lemma numbered_filter a k l :
  numbered a l -> base.filter (fun e => Z.of_nat k < ev_sequence e) l = drop (S k - a) l.
Proof.
  revert a. induction l as [|e l IH]; intros a Hn; [by rewrite drop_nil|].
  apply numbered_cons in Hn as [He Hn]. rewrite filter_cons, (IH _ Hn), He.
  case_decide as Hlt.
  - replace (S k - a)%nat with 0%nat by lia. by replace (S k - S a)%nat with 0%nat by lia.
  - by replace (S k - a)%nat with (S (S k - S a)) by lia.
Qed.

Lemma numbered_drop a n l : numbered a l -> numbered (a + n) (drop n l).
Proof.
  revert a l. induction n as [|n IH]; intros a l Hn; [by rewrite Nat.add_0_r, drop_0|].
  destruct l as [|e l]; [done|]. apply numbered_cons in Hn as [_ Hn]. simpl.
  rewrite <- Nat.add_succ_comm. by apply IH.
Qed.

Lemma numbered_take a n l : numbered a l -> numbered a (take n l).
Proof.
  revert a l. induction n as [|n IH]; intros a l Hn; [done|].
  destruct l as [|e l]; [done|]. apply numbered_cons in Hn as [He Hn]. simpl.
  apply numbered_cons. auto.
Qed.

(** A browser that has seen the first [k] events of a command and asks for
    more gets exactly the next ones, consecutively numbered from [k + 1], none
    skipped or repeated, as many as exist up to the page size (the limit
    clamped to 1..1000). *)
Theorem replay_contiguous os st ws cid k limit page :
  steps step empty_store os st ->
  list_command_operation_events ws cid (Z.of_nat k) limit st = Ok page ->
  (oe_sequence <$> page) = (Z.of_nat <$> seq (S k) (length page))
  /\ length page = Nat.min (Z.to_nat (Z.max 1 (Z.min limit 1000))) (length (stream ws cid st) - k)
  /\ Forall (fun e => oe_command_id e = cid) page.
Proof.
  intros Hrun%run_wf H. destruct (wf_streams _ _ _ _ Hrun ws cid) as [Hseq _].
  unfold list_command_operation_events in H. destruct (Z.ltb_spec (Z.of_nat k) 0); [lia|].
  rewrite (numbered_filter 1) in H by exact Hseq. replace (S k - 1)%nat with k in H by lia.
  pose proof (numbered_drop 1 k _ Hseq) as Hdrop. rewrite (numbered_sorted _ _ Hdrop) in H.
  injection H as <-. change (map to_operation_event ?l) with (to_operation_event <$> l). split_and!.
  - rewrite <- list_fmap_compose, length_fmap. exact (numbered_take _ _ _ Hdrop).
  - by rewrite length_fmap, length_take, length_drop.
  - apply Forall_fmap, Forall_take, Forall_drop, Forall_forall.
    intros e [[_ He] _]%list_elem_of_filter. done.
Qed.

(** *** Capacity and order *)

Lemma active_commands_insert ws cluster act row st :
  (length (active_commands ws cluster act (st <| commands ::= fun l => l ++ [row] |>))
   <= S (length (active_commands ws cluster act st)))%nat.
Proof.
  unfold active_commands. simpl. rewrite filter_app, length_app, filter_cons, filter_nil.
  case_decide; simpl; lia.
Qed.

(** A receipt accepted under a capacity limit leaves at most that many
    active commands of its action on its cluster; one that would exceed it
    raises and stores nothing. *)
Theorem receipt_respects_capacity now correlation plan ws cluster act conf max st st' e w c a :
  stage_receipt sha256_hex quote now correlation plan ws cluster act conf (Some max) st = Ok (st', e) ->
  plan_workspace plan = Ok w -> plan_cluster plan = Ok c -> required_field plan "action" = Ok a ->
  count_active_agent_commands w c a st' <= max.
Proof.
  unfold stage_receipt, stage_logical_command_acceptance_in_transaction, capacity_gate. intros H Hw Hc Ha.
  apply result_bind_inv in H as ([st1 b] & H1 & H). apply result_bind_inv in H1 as (u & Hgate & H1).
  apply result_bind_inv in H1 as (row & _ & [= H1]).
  apply result_bind_inv in H as (cid & _ & H). apply stage_staged, staged_frame in H as (Hcmd & _).
  destruct (max <? 1); [done|]. rewrite Hw, !result_bind_ok, Hc, !result_bind_ok, Ha, !result_bind_ok in Hgate.
  destruct (Z.leb_spec max (count_active_agent_commands w c a st)) as [|Hlt]; [done|].
  unfold count_active_agent_commands, active_commands in *. rewrite Hcmd.
  unfold agent_command_insert in H1. destruct (existsb _ _); simplify_eq; [lia|].
  pose proof (active_commands_insert w c a row st) as Hle. unfold active_commands in Hle. simpl in *. lia.
Qed.

Lemma first_of_min rows r x :
  first_of rows = Some r -> x ∈ rows -> r = x \/ precedes r x = true.
Proof.
  assert (Htrans : forall a b c, precedes a b = true -> precedes b c = true -> precedes a c = true).
  { unfold precedes. intros a b c. rewrite !orb_true_iff, !andb_true_iff, !Z.ltb_lt, !Z.eqb_eq, !Z.leb_le. lia. }
  assert (Htotal : forall a b, precedes a b = false -> precedes b a = true).
  { unfold precedes. intros a b. rewrite orb_false_iff, andb_false_iff, orb_true_iff, andb_true_iff,
      !Z.ltb_lt, !Z.ltb_ge, !Z.eqb_eq, !Z.eqb_neq, !Z.leb_le, !Z.leb_gt. lia. }
  revert r. induction rows as [|r0 rows IH]; simpl; intros r H Hx; [by apply elem_of_nil in Hx|].
  apply elem_of_cons in Hx as [->|Hx].
  - destruct (first_of rows) as [r'|]; [|simplify_eq; auto].
    destruct (precedes r0 r') eqn:E; simplify_eq; auto.
  - destruct (first_of rows) as [r'|] eqn:Hf.
    + destruct (IH r' eq_refl Hx) as [->|Hp]; destruct (precedes r0 _) eqn:E; simplify_eq; eauto.
    + destruct rows as [|r1 rows]; [by apply elem_of_nil in Hx|]. simpl in Hf. by destruct (first_of rows).
Qed.

(** A lease hands out a command that is due, of the highest priority among
    those due on the cluster, and among these the oldest; and it hands out
    only a queued command or one leased but never started whose lease ran
    out. *)
Theorem lease_picks_first now ws cluster st r :
  next_command now ws cluster st = Some r ->
  (c_status r = QUEUED \/ (c_status r = LEASED /\ exists a, active_attempt r st = Some a
                           /\ before (a_leased_until a) now = true))
  /\ forall x, x ∈ commands st -> candidate now ws cluster st x = true ->
     c_priority x < c_priority r \/ (c_priority x = c_priority r /\ c_created_at r <= c_created_at x).
Proof.
  intros H. split.
  - apply next_command_inv in H as (_ & _ & _ & a & Ha & _ & _ & Hl). unfold leasable in Hl.
    apply orb_true_iff in Hl as [Hl|Hl]; bool_to_prop; [by left|]. right. eauto.
  - intros x Hx Hc. assert (Hin : x ∈ base.filter (fun r => candidate now ws cluster st r = true) (commands st)).
    { by apply list_elem_of_filter. }
    destruct (first_of_min _ _ _ H Hin) as [->|Hp]; [lia|]. unfold precedes in Hp.
    apply orb_true_iff in Hp as [Hp|Hp]; bool_to_prop; lia.
Qed.

(** *** The janitor and retries *)

Definition same_outcome (r r' : AgentCommand) : Prop :=
  key_of r' = key_of r /\ c_status r' = c_status r /\ c_result r' = c_result r.

Lemma close_all_rows now source w rows st st' r :
  close_all uuid5 clock_text w now source rows st = Ok st' -> r ∈ commands st ->
  exists r', r' ∈ commands st' /\ same_outcome r r'.
Proof.
  revert st r. induction rows as [|row rows IH]; simpl; intros st r H Hr; [simplify_eq; by exists r|].
  apply result_bind_inv in H as (st1 & H1 & H). unfold close_expired in H1.
  apply result_bind_inv in H1 as ([st2 e] & Hs & H1). simplify_eq. apply stage_staged in Hs.
  apply staged_frame in Hs as (Hc & _).
  assert (Hr2 : r ∈ commands st2) by (rewrite Hc; by destruct (truthy _)).
  set (id_of := expired_event_id uuid5 row) in H.
  destruct (IH _ (if is_command (c_workspace_id row) (c_command_id row) r
                  then r <| c_terminal_event_id := Some id_of |> else r) H) as (r' & Hr' & Hk & Hst & Hres).
  - simpl. apply elem_of_update_where. by exists r.
  - exists r'. split; [done|]. by destruct (is_command _ _ r).
Qed.

(** A retry of a command older than the queue's time to live is undone by
    the next sweep: requeueing keeps the creation time the janitor measures a
    queued command by, so a sweep at the very moment of the retry fails the
    command again, for good, before any agent can lease the new attempt. *)
Theorem retried_command_swept st now q ctl a st1 x r grace ttl source w st2 swept_rows :
  q_action q = "retry" ->
  stage_command_control_in_transaction specs int_of_text now q ctl a st = Ok (st1, x) ->
  find_command (q_workspace_id q) (q_command_id q) st = Some r ->
  c_created_at r < now - ttl * SECOND ->
  fail_expired_agent_commands uuid5 clock_text w now grace ttl source st1 = Ok (st2, swept_rows) ->
  s_status x = QUEUED
  /\ exists r', r' ∈ commands st2 /\ key_of r' = key_of r /\ c_status r' = FAILED
       /\ finished specs int_of_text r' = true.
Proof.
  intros Hact H Hf Hold Hsweep. unfold stage_command_control_in_transaction in H.
  rewrite Hact, Hf in H. simpl in H. destruct (current_control_row _ _ _ _ _); [done|].
  apply result_bind_inv in H as (x1 & H1 & H). simplify_eq. unfold retry_command in H1.
  apply result_bind_inv in H1 as ([budget delay] & Hguard & H1).
  apply result_bind_inv in H1 as (st0 & Hins & H1). apply attempt_insert_frame in Hins as (Hc & _ & _).
  apply staging_inv in H1 as (st3 & e & Hs & H1). simplify_eq/=. split; [done|].
  apply staged_frame in Hs as (Hc3 & _). simpl in Hc3. rewrite Hc in Hc3.
  apply find_elem in Hf as [Hr Hk].
  assert (Hfailed : c_status r = FAILED).
  { unfold retry_guard in Hguard. case_bool_decide; [done|]. by simpl in Hguard. }
  set (r1 := requeue now (c_attempt_count r + 1) a r).
  assert (Hr1 : r1 ∈ commands st3).
  { rewrite Hc3. apply elem_of_update_where. exists r. split; [done|]. unfold locked.
    by rewrite Hk, bool_decide_true. }
  unfold fail_expired_agent_commands in Hsweep. destruct (_ || _); [done|].
  apply result_bind_inv in Hsweep as (st4 & Hclose & Hsweep). simplify_eq.
  eapply close_all_rows in Hclose as (r' & Hr' & Hk' & Hst' & Hres').
  2:{ apply elem_of_update_where. exists r1. split; [|reflexivity].
      unfold insert_control. by destruct (current_control_row _ _ _ _ _). }
  assert (Hsw : swept now grace ttl r1 = true).
  { unfold swept. simpl. by rewrite (proj2 (Z.ltb_lt _ _) Hold). }
  rewrite Hsw in *. exists r'. split_and!; [done|done|done|].
  apply finished_unretryable; [done|by rewrite Hres'].
Qed.
End Safety.

(** *** A concrete run

    A receipt, its projection, a lease, a start, a retryable failure, a retry,
    a second lease and start, and a completion. *)
Module Demo.
Definition sample_plan : odict json :=
  [("command_id", JStr "cmd-1"); ("workspace_id", JStr "w"); ("cluster_id", JStr "c");
   ("action", JStr "rollout_restart"); ("namespace", JStr "sandbox"); ("diff", JObj []);
   ("payload", JObj []);
   ("retry_policy", JObj [("max_attempts", JInt 3); ("retry_delay_seconds", JInt 5)])].

Definition specs : catalog := match builtin_catalog 3 5 with Ok specs => specs | Err _ => [] end.
Definition no_int (_ : string) : option Z := None.
Definition same (s : string) : string := s.
Definition epoch (_ : string) : Z := 0.

Definition report_of (lease : string) : agent_report :=
  {| r_command_id := "cmd-1"; r_workspace_id := "w"; r_cluster_id := "c"; r_lease_id := lease;
     r_agent_id := "agent"; r_attempt_id := None |}.

Definition control_of (action : string) : control_request :=
  {| q_workspace_id := "w"; q_command_id := "cmd-1"; q_action := action; q_idempotency_key := "key";
     q_requested_by := "user"; q_reason := None; q_event_id := "evt-c"; q_audit_event_id := "aud" |}.

Definition failure : odict json := [("status", JStr "failed"); ("retryable", JBool true)].
Definition success : odict json := [("status", JStr "completed")].

Definition ops : list command_op :=
  [Receipt 10 "corr" sample_plan "w" "c" "rollout_restart" "evt-0" (Some 1);
   Queue 20 "corr" sample_plan "att-1";
   Lease 30 (30 + 60 * SECOND) "c" "w" "agent" "lease-1";
   Start 40 (40 + 60 * SECOND) (report_of "lease-1");
   Complete 50 (report_of "lease-1") failure "api" "evt-1" "t" None;
   Control 60 (control_of "retry") "ctl-1" "att-2";
   Lease (10 * SECOND) (70 * SECOND) "c" "w" "agent" "lease-2";
   Start (11 * SECOND) (71 * SECOND) (report_of "lease-2");
   Complete (12 * SECOND) (report_of "lease-2") success "api" "evt-2" "t" None].

Definition step := command_step same json_string specs no_int epoch same same.

Fixpoint run_ops (os : list command_op) (st : store) : result command_error store :=
  match os with
  | [] => Ok st
  | o :: os => st ← apply same json_string specs no_int epoch same same o st; run_ops os st
  end.

(** The store after [n] operations. *)
Definition demo (n : nat) : store :=
  match run_ops (take n ops) empty_store with Ok st => st | Err _ => empty_store end.

Lemma run_ops_steps os st st' : run_ops os st = Ok st' -> steps step st os st'.
Proof.
  revert st. induction os as [|o os IH]; simpl; intros st H; [simplify_eq; constructor|].
  apply result_bind_inv in H as (st1 & H1 & H). econstructor; [exact H1|by apply IH].
Qed.

Lemma demo_run n : is_ok (run_ops (take n ops) empty_store) = true -> steps step empty_store (take n ops) (demo n).
Proof.
  intros H. apply run_ops_steps. unfold demo. by destruct (run_ops _ _).
Qed.

Example demo_statuses :
  map (fun n => map c_status (commands (demo n))) (seq 0 10)
  = [[]; [QUEUED]; [QUEUED]; [LEASED]; [RUNNING]; [FAILED]; [QUEUED]; [LEASED]; [RUNNING]; [COMPLETED]].
Proof. vm_compute. reflexivity. Qed.

Example stream_closed_iff_finished_witness :
  match commands (demo 5) with
  | r :: _ => closed (demo 5) (c_workspace_id r) (c_command_id r) = finished specs no_int r
  | [] => False
  end.
Proof.
  destruct (commands (demo 5)) as [|r l] eqn:E; [vm_compute in E; discriminate E|].
  eapply stream_closed_iff_finished; [apply (demo_run 5); vm_compute; reflexivity|].
  rewrite E. apply list_elem_of_here.
Defined.

Example streams_gap_free_witness :
  (ev_sequence <$> stream "w" "cmd-1" (demo 9)) = [1; 2; 3; 4; 5; 6; 7; 8].
Proof.
  assert (H : steps step empty_store (take 9 ops) (demo 9)) by (apply demo_run; vm_compute; reflexivity).
  destruct (streams_gap_free _ _ _ _ _ _ _ _ _ "w" "cmd-1" H) as [-> _]. vm_compute. reflexivity.
Defined.

(** One operation of the demo run. *)
Lemma demo_step n o : nth_error ops n = Some o -> is_ok (run_ops (take (S n) ops) empty_store) = true ->
  bool_decide (n < 9)%nat = true -> step (demo n) o (demo (S n)).
Proof.
  intros Ho Hok Hn. bool_to_prop. unfold demo.
  do 9 (destruct n as [|n]; [injection Ho as <-; vm_compute; reflexivity|]). lia.
Qed.

Example transitions_follow_table_witness :
  match commands (demo 4) with
  | r :: _ => exists r', r' ∈ commands (demo 5) /\ key_of r' = key_of r
      /\ (command_transition_allowed (c_status r) (c_status r') = true
          \/ (c_status r = RUNNING /\ c_status r' = CANCELLED /\ True))
  | [] => False
  end.
Proof.
  destruct (commands (demo 4)) as [|r l] eqn:E; [vm_compute in E; discriminate E|].
  refine (transitions_follow_table same json_string specs no_int epoch same same (take 4 ops) (demo 4)
    (Complete 50 (report_of "lease-1") failure "api" "evt-1" "t" None) (demo 5) r _ _ _).
  - apply (demo_run 4). vm_compute. reflexivity.
  - apply (demo_step 4); reflexivity.
  - rewrite E. apply list_elem_of_here.
Defined.

(** The exception of the transition table is reached. *)
Example running_cancelled :
  exists st, step (demo 4) (Complete 50 (report_of "lease-1") [("status", JStr "cancelled")] "api" "e" "t" None) st
    /\ map c_status (commands (demo 4)) = [RUNNING] /\ map c_status (commands st) = [CANCELLED]
    /\ command_transition_allowed RUNNING CANCELLED = false.
Proof.
  eexists. split; [unfold step, command_step; vm_compute; reflexivity|].
  split; [vm_compute; reflexivity|]. split; reflexivity.
Qed.

Example attempts_within_budget_witness :
  match commands (demo 9) with
  | r :: _ => 0 <= c_attempt_count r <= (command_retry_policy no_int (c_payload r)).1
  | [] => False
  end.
Proof.
  destruct (commands (demo 9)) as [|r l] eqn:E; [vm_compute in E; discriminate E|].
  eapply attempts_within_budget; [apply (demo_run 9); vm_compute; reflexivity|].
  rewrite E. apply list_elem_of_here.
Defined.

(** The first agent reports after the second lease. *)
Example stale_report_rejected_witness : step (demo 8) (Start 41 90 (report_of "lease-1")) (demo 8).
Proof.
  destruct (commands (demo 8)) as [|r l] eqn:E; [vm_compute in E; discriminate E|].
  assert (Hr : r ∈ commands (demo 8)) by (rewrite E; apply list_elem_of_here).
  refine (proj1 (stale_report_rejected same json_string specs no_int epoch same same (take 8 ops) (demo 8) r 41 90
    (report_of "lease-1") None success "completed" "api" "e" "t" None _ Hr _ _ eq_refl)).
  - apply (demo_run 8). vm_compute. reflexivity.
  - vm_compute in E. injection E as <- _. reflexivity.
  - left. vm_compute in E. injection E as <- _. discriminate.
Defined.

Example control_applied_once_witness :
  exists k, stage_command_control_in_transaction specs no_int (13 * SECOND) (control_of "retry") "ctl-9" "att-9"
    (demo 6) = Err (DuplicateCommandControl k).
Proof.
  eapply (control_applied_once same json_string specs no_int epoch same same (take 5 ops) (demo 5) 60
    (control_of "retry") "ctl-1" "att-2" (demo 6) [] (demo 6)).
  - apply (demo_run 5). vm_compute. reflexivity.
  - apply (demo_step 5); reflexivity.
  - constructor.
  - repeat split.
Defined.

Example replay_contiguous_witness :
  match list_command_operation_events "w" "cmd-1" 2 3 (demo 9) with
  | Ok page => (oe_sequence <$> page) = (Z.of_nat <$> seq 3 (length page)) /\ length page = 3%nat
  | Err _ => False
  end.
Proof.
  assert (Hrun : steps step empty_store (take 9 ops) (demo 9)) by (apply demo_run; vm_compute; reflexivity).
  destruct (list_command_operation_events "w" "cmd-1" 2 3 (demo 9)) as [page|e] eqn:E;
    [|vm_compute in E; discriminate E].
  destruct (replay_contiguous _ _ _ _ _ _ _ _ _ "w" "cmd-1" 2 3 page Hrun E) as (H1 & H2 & _).
  split; [exact H1|]. rewrite H2. vm_compute. reflexivity.
Defined.

Example receipt_respects_capacity_witness :
  count_active_agent_commands "w" "c" "rollout_restart" (demo 1) <= 1.
Proof.
  destruct (stage_receipt same json_string 10 "corr" sample_plan "w" "c" "rollout_restart" "evt-0" (Some 1)
    empty_store) as [[st e]|] eqn:E; [|vm_compute in E; discriminate E].
  assert (Hst : demo 1 = st).
  { unfold demo. simpl. rewrite E. reflexivity. }
  rewrite Hst.
  exact (receipt_respects_capacity _ _ _ _ _ _ _ _ _ _ _ _ _ _ _ _ E eq_refl eq_refl eq_refl).
Defined.

Example lease_picks_first_witness :
  match next_command (10 * SECOND) "w" "c" (demo 6) with
  | Some r => c_status r = QUEUED \/ (c_status r = LEASED /\ exists a, active_attempt r (demo 6) = Some a
                           /\ before (a_leased_until a) (10 * SECOND) = true)
  | None => False
  end.
Proof.
  destruct (next_command (10 * SECOND) "w" "c" (demo 6)) as [r|] eqn:E; [|vm_compute in E; discriminate E].
  exact (proj1 (lease_picks_first _ _ _ _ _ E)).
Defined.

(** The two starts of the demo are of different attempts: the theorem at the
    first of them. *)
Example attempt_started_once_witness : ~ starts "cmd-1" "att-1" (demo 7) (demo 8).
Proof.
  assert (Hfs : forall n o, nth_error ops n = Some o -> is_ok (run_ops (take (S n) ops) empty_store) = true ->
    bool_decide (n < 9)%nat = true ->
    match drawn o with Some a => bool_decide (a ∈ attempt_ids (demo n)) = false | None => True end ->
    fresh_step same json_string specs no_int epoch same same (demo n) o (demo (S n))).
  { intros n o H1 H2 H3 H4. split; [by apply demo_step|]. unfold fresh. destruct (drawn o); [|done].
    by bool_to_prop. }
  eapply (attempt_started_once same json_string specs no_int epoch same same "cmd-1" "att-1"
    (take 3 ops) (demo 3) (Start 40 (40 + 60 * SECOND) (report_of "lease-1")) (demo 4)
    (take 3 (drop 4 ops)) (demo 7) (Start (11 * SECOND) (71 * SECOND) (report_of "lease-2")) (demo 8)).
  - change empty_store with (demo 0).
    eapply steps_cons; [apply (Hfs 0%nat); try reflexivity; exact I|].
    eapply steps_cons; [apply (Hfs 1%nat); reflexivity|].
    eapply steps_cons; [apply (Hfs 2%nat); try reflexivity; exact I|]. apply steps_nil.
  - apply (Hfs 3%nat); try reflexivity; exact I.
  - destruct (commands (demo 3)) as [|r l] eqn:E; [vm_compute in E; discriminate E|].
    destruct (commands (demo 4)) as [|r' l'] eqn:E'; [vm_compute in E'; discriminate E'|].
    exists r, r'. rewrite E, E'. split; [apply list_elem_of_here|]. split; [apply list_elem_of_here|].
    vm_compute in E, E'. injection E as <- _. injection E' as <- _. repeat split.
  - eapply steps_cons; [apply (Hfs 4%nat); try reflexivity; exact I|].
    eapply steps_cons; [apply (Hfs 5%nat); reflexivity|].
    eapply steps_cons; [apply (Hfs 6%nat); try reflexivity; exact I|]. apply steps_nil.
  - apply (Hfs 7%nat); try reflexivity; exact I.
Defined.

Example completion_published_witness :
  match complete_agent_command_and_stage_event specs no_int (12 * SECOND) "cmd-1" "w" "c" success "lease-2"
          "agent" "api" None "evt-2" "t" None (demo 8) with
  | Ok (st', Some (evt, _)) => published (event_id evt) st'
  | _ => False
  end.
Proof.
  destruct (complete_agent_command_and_stage_event specs no_int (12 * SECOND) "cmd-1" "w" "c" success "lease-2"
          "agent" "api" None "evt-2" "t" None (demo 8)) as [[st' [[evt op]|]]|] eqn:E;
    [|vm_compute in E; discriminate E|vm_compute in E; discriminate E].
  refine (proj1 (completion_published same json_string specs no_int epoch same same (take 8 ops) (demo 8)
    (12 * SECOND) (report_of "lease-2") success "api" "evt-2" "t" None st' evt op _ E)).
  apply (demo_run 8). vm_compute. reflexivity.
Defined.

Example retried_command_swept_witness :
  match stage_command_control_in_transaction specs no_int (2000 * SECOND) (control_of "retry") "ctl" "att-2" (demo 5) with
  | Ok (st1, x) =>
      match fail_expired_agent_commands same same None (2000 * SECOND) 300 1800 "command-janitor" st1 with
      | Ok (st2, _) => s_status x = QUEUED /\ exists r', r' ∈ commands st2 /\ c_status r' = FAILED
                         /\ finished specs no_int r' = true
      | Err _ => False
      end
  | Err _ => False
  end.
Proof.
  destruct (stage_command_control_in_transaction _ _ _ _ _ _ (demo 5)) as [[st1 x]|e] eqn:E1;
    [|vm_compute in E1; discriminate E1].
  destruct (fail_expired_agent_commands _ _ _ _ _ _ _ st1) as [[st2 rows]|e] eqn:E2.
  2:{ exfalso. vm_compute in E1. injection E1 as <- <-. vm_compute in E2. discriminate E2. }
  destruct (find_command "w" "cmd-1" (demo 5)) as [r|] eqn:E3; [|vm_compute in E3; discriminate E3].
  assert (Hold : c_created_at r < 2000 * SECOND - 1800 * SECOND).
  { vm_compute in E3. injection E3 as <-. reflexivity. }
  destruct (retried_command_swept specs no_int same same (demo 5) (2000 * SECOND) (control_of "retry") "ctl"
    "att-2" st1 x r 300 1800 "command-janitor" None st2 rows eq_refl E1 E3 Hold E2)
    as (Hq & r' & H1 & _ & H2 & H3).
  split; [exact Hq|]. exists r'. split; [exact H1|]. split; [exact H2|exact H3].
Defined.
End Demo.
