(* ===== verification/CommandHandler.v ===== *)
(** The command worker ([domains/command/handler.py], [events.py],
    [domains/target/management_guard.py], [domains/gitops/events.py] for the
    diff): the checks a requested command passes before it is queued for an
    agent, the plan it is queued with, and the rejection that closes its
    receipt.

    Environment variables are the [settings]; [now] is the clock.  The SHA-256
    digest and [datetime.fromisoformat] / [isoformat] are parameters.  The
    reads of the database are the record [reads]: [None] for a getter the store
    does not have. *)

From stdpp Require Import pretty.
From S2P Require Import Prelude PyString Json EventStore CommandLifecycle CommandCatalog CommandStore CommandRuns.
#[global] Open Scope Z_scope.

(** ** Requests and plans *)

Record Diff : Type := {
  df_resource : string; df_namespace : string; df_desired_image : string; df_actual_image : string;
  df_risk : string; df_workspace_id : string; df_repository_id : string; df_watch_target_id : string;
  df_binding_id : string; df_application_id : string; df_workflow_run_id : string;
  df_environment : string; df_cluster_id : string; df_manifest_path : string;
  df_resource_class : string; df_desired_manifest : odict json; df_status : string;
  df_has_changes : bool; df_changes : list (odict json); df_basis : odict json;
}.

Definition diff_to_body (d : Diff) : odict json :=
  [("resource", JStr (df_resource d)); ("namespace", JStr (df_namespace d));
   ("desired_image", JStr (df_desired_image d)); ("actual_image", JStr (df_actual_image d));
   ("risk", JStr (df_risk d)); ("workspace_id", JStr (df_workspace_id d));
   ("repository_id", JStr (df_repository_id d)); ("watch_target_id", JStr (df_watch_target_id d));
   ("binding_id", JStr (df_binding_id d)); ("application_id", JStr (df_application_id d));
   ("workflow_run_id", JStr (df_workflow_run_id d)); ("environment", JStr (df_environment d));
   ("cluster_id", JStr (df_cluster_id d)); ("manifest_path", JStr (df_manifest_path d));
   ("resource_class", JStr (df_resource_class d)); ("desired_manifest", JObj (df_desired_manifest d));
   ("status", JStr (df_status d)); ("has_changes", JBool (df_has_changes d));
   ("changes", JArr (map JObj (df_changes d))); ("basis", JObj (df_basis d))].

Definition is_image_only_noop (d : Diff) : bool :=
  negb (String.eqb (df_desired_image d) "") && String.eqb (df_desired_image d) (df_actual_image d)
  && match df_desired_manifest d with [] => true | _ => false end.

Record CommandRequestedBody : Type := {
  cluster_id : string; action : string; namespace : string; reason : string; diff : Diff;
  command_id : option string; workspace_id : string; application_id : string;
  workflow_run_id : string; binding_id : string; environment : string; priority : Z;
  requested_by : option string; actor : option (odict json); approval_ref : option string;
  policy_decision_ref : option string; approval_decided_by : option string;
  approval_expires_at : option string; direct_execution : bool; direct_execution_confirmed : bool;
  command_payload : odict json;
}.

Definition command_to_body (c : CommandRequestedBody) : odict json :=
  [("cluster_id", JStr (cluster_id c)); ("action", JStr (action c)); ("namespace", JStr (namespace c));
   ("reason", JStr (reason c)); ("diff", JObj (diff_to_body (diff c)));
   ("command_id", json_opt_str (command_id c)); ("workspace_id", JStr (workspace_id c));
   ("application_id", JStr (application_id c)); ("workflow_run_id", JStr (workflow_run_id c));
   ("binding_id", JStr (binding_id c)); ("environment", JStr (environment c));
   ("priority", JInt (priority c)); ("requested_by", json_opt_str (requested_by c));
   ("actor", match actor c with Some a => JObj a | None => JNull end);
   ("approval_ref", json_opt_str (approval_ref c));
   ("policy_decision_ref", json_opt_str (policy_decision_ref c));
   ("approval_decided_by", json_opt_str (approval_decided_by c));
   ("approval_expires_at", json_opt_str (approval_expires_at c));
   ("direct_execution", JBool (direct_execution c));
   ("direct_execution_confirmed", JBool (direct_execution_confirmed c));
   ("payload", JObj (command_payload c))].

Record LeaseMetadata : Type := { lease_seconds : Z; heartbeat_interval_seconds : Z }.
Record RetryPolicy : Type := { rp_max_attempts : Z; rp_retry_delay_seconds : Z }.
Record RoutingConstraint : Type := {
  rc_channel : string; rc_cluster_id : string; rc_workspace_id : string; rc_required_capability : string;
}.

Record Plan : Type := {
  p_command_id : string; p_idempotency_key : string; p_cluster_id : string; p_action : string;
  p_namespace : string; p_diff : odict json; p_payload : odict json; p_steps : list string;
  p_lease : LeaseMetadata; p_retry_policy : RetryPolicy; p_routing_constraint : RoutingConstraint;
  p_workspace_id : string; p_application_id : string; p_workflow_run_id : string;
  p_binding_id : string; p_environment : string; p_priority : Z; p_approval_ref : option string;
  p_policy_decision_ref : option string; p_approval_decided_by : option string;
  p_approval_expires_at : option string; p_direct_execution : bool;
  p_direct_execution_confirmed : bool;
}.

Definition plan_to_body (p : Plan) : odict json :=
  [("command_id", JStr (p_command_id p)); ("idempotency_key", JStr (p_idempotency_key p));
   ("cluster_id", JStr (p_cluster_id p)); ("action", JStr (p_action p));
   ("namespace", JStr (p_namespace p)); ("diff", JObj (p_diff p)); ("payload", JObj (p_payload p));
   ("steps", JArr (map JStr (p_steps p)));
   ("lease", JObj [("lease_seconds", JInt (lease_seconds (p_lease p)));
                   ("heartbeat_interval_seconds", JInt (heartbeat_interval_seconds (p_lease p)))]);
   ("retry_policy", JObj [("max_attempts", JInt (rp_max_attempts (p_retry_policy p)));
                          ("retry_delay_seconds", JInt (rp_retry_delay_seconds (p_retry_policy p)))]);
   ("routing_constraint", JObj
      [("channel", JStr (rc_channel (p_routing_constraint p)));
       ("cluster_id", JStr (rc_cluster_id (p_routing_constraint p)));
       ("workspace_id", JStr (rc_workspace_id (p_routing_constraint p)));
       ("required_capability", JStr (rc_required_capability (p_routing_constraint p)))]);
   ("workspace_id", JStr (p_workspace_id p)); ("application_id", JStr (p_application_id p));
   ("workflow_run_id", JStr (p_workflow_run_id p)); ("binding_id", JStr (p_binding_id p));
   ("environment", JStr (p_environment p)); ("priority", JInt (p_priority p));
   ("approval_ref", json_opt_str (p_approval_ref p));
   ("policy_decision_ref", json_opt_str (p_policy_decision_ref p));
   ("approval_decided_by", json_opt_str (p_approval_decided_by p));
   ("approval_expires_at", json_opt_str (p_approval_expires_at p));
   ("direct_execution", JBool (p_direct_execution p));
   ("direct_execution_confirmed", JBool (p_direct_execution_confirmed p))].

(** What the worker emits.  [CommandQueuedForAgent] repeats fields of the
    plan. *)
Inductive command_event : Type :=
| CommandDispatched (plan : Plan) (route_channel route_cluster : string)
| CommandQueuedForAgent (plan : Plan)
| CommandRejected (why : string) (reason_code : option string) (requested : odict json).

(** ** Settings and reads *)

Record settings : Type := {
  control_env : option string;
  auto_approve_actions : option string;
  auto_approve_environments : option string;
  evidence_ttl_env : option string;
  auto_commands_enabled : bool;
  cfg_lease_seconds : Z; cfg_heartbeat_seconds : Z;
  cfg_retry_max_attempts : Z; cfg_retry_delay : Z;
}.

(** The value of an approval's [expires_at] column: absent, a text, or a
    datetime with its wall clock (microseconds) and its UTC offset, if any. *)
Inductive expiry_value : Type :=
| NoExpiry | ExpiryText (s : string) | ExpiryTime (wall : Z) (offset : option Z) | ExpiryOther.

(** The columns of a recorded approval the worker reads, as [str] gives them. *)
Record approval_record : Type := {
  ap_status : string; ap_workflow_run_id : string; ap_details : json;
  ap_decided_by : option string; ap_expires_at : expiry_value;
}.

Inductive stored_policy : Type := PolicyDict (d : odict json) | PolicyModel (cluster_role : string).

Record reads : Type := {
  get_workflow_approval : option (string -> string -> option approval_record);
  get_cluster_registration : option (string -> string -> option (odict json));
  get_cluster_policy : option (string -> string -> option stored_policy);
}.

(** ** The management guard *)

Definition TARGET_CLUSTER_ROLE : string := "target".
Definition MANAGEMENT_CLUSTER_ROLE : string := "management".
Definition MANAGEMENT_READONLY_CODE : string := "management_readonly".

Definition cluster_role_from_settings (s : option json) : string :=
  match s with
  | Some (JObj fields) =>
      match dict_get "cluster_role" fields with
      | Some (JStr role) => if String.eqb role "" then TARGET_CLUSTER_ROLE else role
      | _ => TARGET_CLUSTER_ROLE
      end
  | _ => TARGET_CLUSTER_ROLE
  end.

Definition cluster_role_from_registration (registration : option (odict json)) : string :=
  match registration with
  | None | Some [] => TARGET_CLUSTER_ROLE
  | Some fields => cluster_role_from_settings (dict_get "settings" fields)
  end.

Definition cluster_role_from_policy (policy : option stored_policy) : string :=
  match policy with
  | None => TARGET_CLUSTER_ROLE
  | Some (PolicyModel role) => role
  | Some (PolicyDict d) =>
      match dict_get "cluster_role" d with
      | Some (JStr role) => if String.eqb role "" then TARGET_CLUSTER_ROLE else role
      | _ => TARGET_CLUSTER_ROLE
      end
  end.

Definition is_management_role (role : string) : bool := String.eqb role MANAGEMENT_CLUSTER_ROLE.

Definition is_management_registration (registration : option (odict json)) : bool :=
  is_management_role (cluster_role_from_registration registration).

(** ** The checks *)

Definition NO_DIFF_REASON : string := "desired and actual images already match".
Definition NAMESPACE_MISMATCH_REASON : string := "command namespace must match diff namespace".
Definition MANIFEST_NAMESPACE_MISMATCH_REASON : string :=
  "manifest namespace must match command namespace".
Definition ACTION_NAMESPACE_REASON : string := "namespace not allowed for this command action".
Definition UNSUPPORTED_ACTION_REASON : string := "unsupported command action".
Definition MISSING_APPROVAL_REF_REASON : string := "write command requires approval_ref".
Definition MISSING_POLICY_DECISION_REF_REASON : string := "write command requires policy_decision_ref".
Definition APPROVAL_RECORD_MISSING_REASON : string := "write command approval_ref is not recorded".
Definition APPROVAL_NOT_GRANTED_REASON : string := "write command approval_ref is not granted".
Definition APPROVAL_NOT_REQUIRED_SCOPE_REASON : string :=
  "write command not-required approval is limited to sandbox safe_pr policy".
Definition APPROVAL_POLICY_DECISION_MISMATCH_REASON : string :=
  "write command policy_decision_ref mismatch".
Definition APPROVAL_WORKFLOW_MISMATCH_REASON : string := "write command approval workflow mismatch".
Definition APPROVAL_DECIDED_BY_MISSING_REASON : string := "write command approval_decided_by is missing".
Definition APPROVAL_DECIDED_BY_MISMATCH_REASON : string := "write command approval_decided_by mismatch".
Definition APPROVAL_EXPIRED_REASON : string := "write command approval is expired".
Definition APPROVAL_EXPIRES_AT_INVALID_REASON : string :=
  "write command approval_expires_at is invalid".
Definition DIRECT_EXECUTION_CONFIRMATION_REQUIRED_REASON : string :=
  "direct command requires explicit confirmation".
Definition AUTO_COMMANDS_DISABLED_REASON : string :=
  "AI automatic commands require AUTO_COMMANDS_ENABLED=1".
Definition NOT_QUEUED_REASON : string := "agent command could not be queued".

Definition reject (why : string) : Result := Reject why None.

Record ApprovalEvidence : Type := {
  ae_approval_ref : string; ae_policy_decision_ref : string; ae_decided_by : string;
  ae_expires_at : string;
}.

(** [str(v)]; a list or an object, which no manifest has here, is given as
    its JSON text. *)
Definition py_str (v : json) : string :=
  match v with
  | JStr s | JFloat s => s
  | JBool true => "True"
  | JBool false => "False"
  | JNull => "None"
  | JInt z => pretty z
  | v => json_dumps v
  end.

Definition desired_manifest_namespace (c : CommandRequestedBody) : option string :=
  match dict_get "metadata" (df_desired_manifest (diff c)) with
  | Some (JObj metadata) =>
      match dict_get "namespace" metadata with
      | None | Some JNull | Some (JStr EmptyString) => None
      | Some ns => Some (py_str ns)
      end
  | _ => None
  end.

(** Two of [ModelLookup]'s fields: the ones the rules name. *)
Definition lookup_command (c : CommandRequestedBody) : Lookup := fun field =>
  if String.eqb field "namespace" then Some (namespace c)
  else if String.eqb field "action" then Some (action c) else None.

Section Handler.
Context (sha256_hex : string -> string) (quote : string -> string).
Context (fromisoformat : string -> option (Z * option Z)) (isoformat : Z -> string).
Context (int_of_text : string -> option Z).
Context (specs : catalog) (env : settings).

(** [POLICY]. *)
Definition policy_rules : list Rule :=
  NamespaceAllowlistRule (control_env env) CONTROL_NAMESPACE_DENIED_CODE "namespace" SANDBOX_NAMESPACE
    CONTROL_NAMESPACE_DENIED_MESSAGE
  :: build_rules [{| cfg_name := "command_action_allowlist"; cfg_field := "action";
                     cfg_reason := UNSUPPORTED_ACTION_REASON; cfg_expected := None;
                     cfg_allowed_values := allowed_actions specs;
                     cfg_default := Command.DEFAULT_ACTION |}].

Definition approval_exempt_for_environment (c : CommandRequestedBody) : bool :=
  let actions := csv_items (default Command.KUBERNETES_DEPLOYMENT_SCALE_ACTION (auto_approve_actions env)) in
  let environments := map (fun e => normalize_environment (Some e))
                        (csv_items (default "sandbox" (auto_approve_environments env))) in
  bool_decide (action c ∈ actions)
  && bool_decide (normalize_environment (Some (environment c)) ∈ environments).

Definition is_present (o : option string) : bool :=
  match o with Some s => negb (String.eqb s "") | None => false end.

Definition evaluate_command_policy (c : CommandRequestedBody) : Result :=
  if is_image_only_noop (diff c) then reject NO_DIFF_REASON
  else if negb (String.eqb (namespace c) (df_namespace (diff c))) then reject NAMESPACE_MISMATCH_REASON
  else if match desired_manifest_namespace c with
          | Some ns => negb (String.eqb ns (namespace c)) | None => false end
  then reject MANIFEST_NAMESPACE_MISMATCH_REASON
  else match spec_for specs (action c) with
  | None => reject UNSUPPORTED_ACTION_REASON
  | Some spec =>
      let result :=
        if enforce_control_namespace spec then evaluate policy_rules (lookup_command c)
        else if bool_decide (action c ∈ allowed_actions specs) then Allow
        else reject UNSUPPORTED_ACTION_REASON in
      if negb (allowed result) then result
      else if negb (allows_namespace spec (namespace c)) then reject ACTION_NAMESPACE_REASON
      else if requires_approval_for spec (namespace c) && negb (direct_execution c)
              && negb (approval_exempt_for_environment c)
      then if negb (is_present (approval_ref c)) then reject MISSING_APPROVAL_REF_REASON
           else if negb (is_present (policy_decision_ref c)) then reject MISSING_POLICY_DECISION_REF_REASON
           else result
      else result
  end.

Definition command_requires_recorded_approval (c : CommandRequestedBody) : bool :=
  if direct_execution c then false
  else match spec_for specs (action c) with
       | Some spec => requires_approval_for spec (namespace c) && negb (approval_exempt_for_environment c)
       | None => false
       end.

Definition evaluate_direct_execution_confirmation (c : CommandRequestedBody) : Result :=
  if direct_execution c && negb (direct_execution_confirmed c)
  then reject DIRECT_EXECUTION_CONFIRMATION_REQUIRED_REASON else Allow.

(** [int(raw)], 3600 when it is no integer, at least 1. *)
Definition approval_evidence_ttl_seconds : Z :=
  match int_of_text (default "3600" (evidence_ttl_env env)) with
  | Some v => Z.max 1 v
  | None => 3600
  end.

(** A datetime as an instant: without an offset it is taken as UTC. *)
Definition instant (wall : Z) (offset : option Z) : Z := wall - default 0 offset.

Definition parse_approval_timestamp (v : expiry_value) : option Z :=
  match v with
  | ExpiryTime wall offset => Some (instant wall offset)
  | ExpiryText s =>
      if String.eqb (strip s) "" then None
      else match fromisoformat (str_replace "Z" "+00:00" (strip s)) with
           | Some (wall, offset) => Some (instant wall offset)
           | None => None
           end
  | NoExpiry | ExpiryOther => None
  end.

(** [isoformat] of the UTC time, with the offset as [Z]. *)
Definition approval_timestamp_body (t : Z) : string := str_replace "+00:00" "Z" (isoformat t).

Definition approval_expires_at_from_record (now : Z) (r : approval_record) : Result * option string :=
  match ap_expires_at r with
  | NoExpiry | ExpiryText EmptyString =>
      (Allow, Some (approval_timestamp_body (now + approval_evidence_ttl_seconds * SECOND)))
  | raw =>
      match parse_approval_timestamp raw with
      | None => (reject APPROVAL_EXPIRES_AT_INVALID_REASON, None)
      | Some parsed =>
          if parsed <=? now then (reject APPROVAL_EXPIRED_REASON, None)
          else (Allow, Some (approval_timestamp_body parsed))
      end
  end.

Definition approval_detail (r : approval_record) (key : string) : option string :=
  match ap_details r with
  | JObj details => match dict_get key details with
                    | Some (JStr s) => if String.eqb s "" then None else Some s
                    | _ => None
                    end
  | _ => None
  end.

Definition approval_status_result (c : CommandRequestedBody) (r : approval_record) : Result :=
  if String.eqb (ap_status r) "granted" then Allow
  else if negb (String.eqb (ap_status r) "not_required") then reject APPROVAL_NOT_GRANTED_REASON
  else if is_sandbox_environment (Some (environment c))
          && bool_decide (approval_detail r "policy_route" = Some "safe_pr")
  then Allow else reject APPROVAL_NOT_REQUIRED_SCOPE_REASON.

(** A recorded reference that differs from the command's. *)
Definition detail_mismatch (r : approval_record) (key given : string) : bool :=
  match approval_detail r key with Some recorded => negb (String.eqb recorded given) | None => false end.

Definition evaluate_recorded_approval (now : Z) (db : reads) (c : CommandRequestedBody)
    : Result * option ApprovalEvidence :=
  if negb (command_requires_recorded_approval c) then (Allow, None)
  else match truthy (approval_ref c), truthy (policy_decision_ref c) with
  | None, _ => (reject MISSING_APPROVAL_REF_REASON, None)
  | Some _, None => (reject MISSING_POLICY_DECISION_REF_REASON, None)
  | Some ref, Some decision =>
      match getter ← get_workflow_approval db; getter ref (workspace_id c) with
      | None => (reject APPROVAL_RECORD_MISSING_REASON, None)
      | Some r =>
          if negb (String.eqb (ap_workflow_run_id r) (workflow_run_id c))
          then (reject APPROVAL_WORKFLOW_MISMATCH_REASON, None)
          else if negb (allowed (approval_status_result c r)) then (approval_status_result c r, None)
          else if detail_mismatch r "policy_decision_ref" decision || detail_mismatch r "approval_ref" ref
          then (reject APPROVAL_POLICY_DECISION_MISMATCH_REASON, None)
          else match truthy (ap_decided_by r) with
          | None => (reject APPROVAL_DECIDED_BY_MISSING_REASON, None)
          | Some decided_by =>
              if match truthy (approval_decided_by c) with
                 | Some given => negb (String.eqb given decided_by) | None => false end
              then (reject APPROVAL_DECIDED_BY_MISMATCH_REASON, None)
              else match approval_expires_at_from_record now r with
              | (result, Some expires_at) =>
                  let evidence := {| ae_approval_ref := ref; ae_policy_decision_ref := decision;
                                     ae_decided_by := decided_by; ae_expires_at := expires_at |} in
                  match truthy (approval_expires_at c) with
                  | None => (Allow, Some evidence)
                  | Some requested =>
                      match parse_approval_timestamp (ExpiryText requested) with
                      | None => (reject APPROVAL_EXPIRES_AT_INVALID_REASON, None)
                      | Some t =>
                          if String.eqb (approval_timestamp_body t) expires_at then (Allow, Some evidence)
                          else (reject APPROVAL_EXPIRES_AT_INVALID_REASON, None)
                      end
                  end
              | (result, None) => (result, None)
              end
          end
      end
  end.

Definition evaluate_management_guard (db : reads) (c : CommandRequestedBody) : Result :=
  if direct_execution c then Allow
  else if match spec_for specs (action c) with Some spec => read_only spec | None => false end then Allow
  else
    let registration := getter ← get_cluster_registration db; getter (workspace_id c) (cluster_id c) in
    let policy := getter ← get_cluster_policy db; getter (workspace_id c) (cluster_id c) in
    if is_management_registration registration || is_management_role (cluster_role_from_policy policy)
    then reject MANAGEMENT_READONLY_CODE else Allow.

(** ** The plan *)

Definition evidence_decided_by (c : CommandRequestedBody) (e : option ApprovalEvidence) : option string :=
  match e with Some e => Some (ae_decided_by e) | None => approval_decided_by c end.

Definition evidence_expires_at (c : CommandRequestedBody) (e : option ApprovalEvidence) : option string :=
  match e with Some e => Some (ae_expires_at e) | None => approval_expires_at c end.

Definition idempotency_key (c : CommandRequestedBody) (correlation_id : string)
    (e : option ApprovalEvidence) : string :=
  sha256_hex (canonical_dumps json_string (JObj
    [("correlation_id", JStr correlation_id); ("workspace_id", JStr (workspace_id c));
     ("application_id", JStr (application_id c)); ("workflow_run_id", JStr (workflow_run_id c));
     ("binding_id", JStr (binding_id c)); ("environment", JStr (environment c));
     ("cluster_id", JStr (cluster_id c)); ("action", JStr (action c));
     ("namespace", JStr (namespace c)); ("direct_execution", JBool (direct_execution c));
     ("direct_execution_confirmed", JBool (direct_execution_confirmed c));
     ("approval_ref", json_opt_str (approval_ref c));
     ("policy_decision_ref", json_opt_str (policy_decision_ref c));
     ("approval_decided_by", json_opt_str (evidence_decided_by c e));
     ("approval_expires_at", json_opt_str (evidence_expires_at c e));
     ("diff", JObj (diff_to_body (diff c))); ("payload", JObj (command_payload c))])).

(** [s or dflt]. *)
Definition or_default (s dflt : string) : string := if String.eqb s "" then dflt else s.

Definition DEFAULT_CLUSTER_ID : string := "default-target-cluster".

Definition build_plan (c : CommandRequestedBody) (correlation_id : string) (e : option ApprovalEvidence)
    : Plan :=
  let key := idempotency_key c correlation_id e in
  let cluster := or_default (cluster_id c) DEFAULT_CLUSTER_ID in
  let act := or_default (action c) Command.DEFAULT_ACTION in
  let spec := spec_for specs act in
  {| p_command_id := default ("cmd-" +:+ String.substring 0 32 key) (truthy (command_id c));
     p_idempotency_key := key; p_cluster_id := cluster; p_action := act;
     p_namespace := or_default (namespace c) SANDBOX_NAMESPACE; p_diff := diff_to_body (diff c);
     p_payload := command_payload c;
     p_steps := ["validate policy"; "route target cluster"; "queue for agent"];
     p_lease := {| lease_seconds := cfg_lease_seconds env;
                   heartbeat_interval_seconds := cfg_heartbeat_seconds env |};
     p_retry_policy :=
       {| rp_max_attempts := match spec with
                             | Some s => if supports_manual_retry s then max_attempts s else 1
                             | None => 1 end;
          rp_retry_delay_seconds := match spec with Some s => retry_delay_seconds s | None => 0 end |};
     p_routing_constraint :=
       {| rc_channel := "agent-poll"; rc_cluster_id := cluster; rc_workspace_id := workspace_id c;
          rc_required_capability := match spec with
                                    | Some s => required_agent_capability s
                                    | None => "command_receiver" end |};
     p_workspace_id := workspace_id c; p_application_id := application_id c;
     p_workflow_run_id := workflow_run_id c; p_binding_id := binding_id c;
     p_environment := environment c;
     p_priority := Z.max COMMAND_PRIORITY_HIGH
                     (if priority c =? 0 then COMMAND_PRIORITY_HIGH else priority c);
     p_approval_ref := approval_ref c; p_policy_decision_ref := policy_decision_ref c;
     p_approval_decided_by := evidence_decided_by c e; p_approval_expires_at := evidence_expires_at c e;
     p_direct_execution := direct_execution c;
     p_direct_execution_confirmed := direct_execution_confirmed c |}.

(** ** The handler *)

(** [close_operation] on a store that has the logical commands. *)
Definition close_operation (now : Z) (plan : Plan) (why : string) (st : store)
    : transaction (option OperationEvent) :=
  fail_logical_command_and_stage_event now (p_workspace_id plan) (p_command_id plan)
    (p_cluster_id plan) why st.

Definition reject_operation (now : Z) (correlation_id : string) (c : CommandRequestedBody)
    (why : string) (reason_code : option string) (st : store) : transaction command_event :=
  '(st, _) ← close_operation now (build_plan c correlation_id None) why st;
  Ok (st, CommandRejected why reason_code (command_to_body c)).

(** [isinstance(evt.actor, dict) and evt.actor.get("auto_selected") is True]. *)
Definition auto_selected (c : CommandRequestedBody) : bool :=
  match actor c with
  | Some fields => match dict_get "auto_selected" fields with Some (JBool b) => b | _ => false end
  | None => false
  end.

(** The verdict of all the checks, in the code's order, and the evidence. *)
Definition authorize (now : Z) (db : reads) (c : CommandRequestedBody) : Result * option ApprovalEvidence :=
  if auto_selected c && negb (auto_commands_enabled env) then (reject AUTO_COMMANDS_DISABLED_REASON, None)
  else match evaluate_management_guard db c with
  | Reject why code => (Reject why code, None)
  | Allow =>
      match evaluate_direct_execution_confirmation c with
      | Reject why code => (Reject why code, None)
      | Allow =>
          match evaluate_command_policy c with
          | Reject why code => (Reject why code, None)
          | Allow => evaluate_recorded_approval now db c
          end
      end
  end.

(** [attempt_id] is the identifier the queue projection draws. *)
Definition handle_command_requested (now : Z) (db : reads) (correlation_id attempt_id : string)
    (c : CommandRequestedBody) (st : store) : transaction (list command_event) :=
  match authorize now db c with
  | (Reject why code, _) =>
      '(st, rejected) ← reject_operation now correlation_id c why code st;
      Ok (st, [rejected])
  | (Allow, evidence) =>
      let plan := build_plan c correlation_id evidence in
      let dispatched := CommandDispatched plan (rc_channel (p_routing_constraint plan)) (p_cluster_id plan) in
      '(st, inserted) ← queue_agent_command sha256_hex quote now correlation_id
                          (plan_to_body plan) QUEUED attempt_id st;
      if negb inserted
      then '(st, _) ← close_operation now plan NOT_QUEUED_REASON st;
           Ok (st, [dispatched; CommandRejected NOT_QUEUED_REASON None (command_to_body c)])
      else Ok (st, [dispatched; CommandQueuedForAgent plan])
  end.

(** ** Lemmas *)

Lemma evaluate_management_guard_allow db c :
  evaluate_management_guard db c = Allow -> direct_execution c = false ->
  (forall spec, spec_for specs (action c) = Some spec -> read_only spec = false) ->
  is_management_registration (getter ← get_cluster_registration db; getter (workspace_id c) (cluster_id c)) = false
  /\ is_management_role (cluster_role_from_policy
       (getter ← get_cluster_policy db; getter (workspace_id c) (cluster_id c))) = false.
Proof.
  unfold evaluate_management_guard. intros H Hd Hro. rewrite Hd in H.
  assert (Hs : match spec_for specs (action c) with Some spec => read_only spec | None => false end = false).
  { destruct (spec_for specs (action c)) eqn:E; [by eapply Hro|done]. }
  rewrite Hs in H. destruct (_ || _) eqn:E in H; [done|]. by apply orb_false_iff in E.
Qed.

Lemma policy_rules_allow c :
  evaluate policy_rules (lookup_command c) = Allow ->
  control_namespace_allowed (control_env env) (namespace c) = true /\ action c ∈ allowed_actions specs.
Proof.
  rewrite evaluate_allow_iff. unfold policy_rules. rewrite Forall_cons. intros [Hns Hrest]. split; [exact Hns|].
  unfold build_rules in Hrest. simpl in Hrest. destruct (allowed_actions specs) as [|a l] eqn:E;
    rewrite Forall_cons in Hrest; destruct Hrest as [Heq _]; simpl in Heq;
    first [done | by apply bool_decide_eq_true in Heq].
Qed.

Lemma evaluate_command_policy_allow c :
  evaluate_command_policy c = Allow ->
  namespace c = df_namespace (diff c)
  /\ exists spec, spec_for specs (action c) = Some spec /\ allows_namespace spec (namespace c) = true
     /\ (enforce_control_namespace spec = true ->
         control_namespace_allowed (control_env env) (namespace c) = true).
Proof.
  unfold evaluate_command_policy. remember (evaluate policy_rules (lookup_command c)) as verdict eqn:Hv.
  intros H. destruct (is_image_only_noop _); [done|].
  destruct (String.eqb_spec (namespace c) (df_namespace (diff c))) as [Hns|]; simpl in H; [|done].
  destruct (match desired_manifest_namespace c with Some _ => _ | None => _ end); [done|].
  destruct (spec_for specs (action c)) as [spec|]; [|done]. split; [done|]. exists spec.
  destruct (negb (allowed _)) eqn:Hres; [|destruct (negb (allows_namespace _ _)) eqn:Hallow; [done|]].
  - by rewrite H in Hres.
  - bool_to_prop. split_and!; [done..|]. intros Henf. rewrite Henf in Hres.
    destruct verdict; [|done]. by apply eq_sym, policy_rules_allow in Hv as [? _].
Qed.

(** What the recorded approval of a command must be for its evidence to be
    accepted. *)
Record approval_valid (now : Z) (c : CommandRequestedBody) (r : approval_record) (e : ApprovalEvidence)
    : Prop := {
  av_workflow : ap_workflow_run_id r = workflow_run_id c;
  av_status : ap_status r = "granted"
    \/ (ap_status r = "not_required" /\ is_sandbox_environment (Some (environment c)) = true
        /\ approval_detail r "policy_route" = Some "safe_pr");
  av_decision : forall recorded, approval_detail r "policy_decision_ref" = Some recorded ->
    policy_decision_ref c = Some recorded;
  av_decided_by : ap_decided_by r = Some (ae_decided_by e) /\ ae_decided_by e <> "";
  av_expiry : ap_expires_at r = NoExpiry \/ ap_expires_at r = ExpiryText ""
    \/ exists t, parse_approval_timestamp (ap_expires_at r) = Some t /\ now < t;
}.

Lemma truthy_Some o s : truthy o = Some s -> o = Some s /\ s <> "".
Proof. unfold truthy. destruct o as [x|]; [|done]. destruct (String.eqb_spec x ""); [done|]. by intros [= ->]. Qed.

Lemma approval_status_allow c r :
  allowed (approval_status_result c r) = true ->
  ap_status r = "granted"
  \/ (ap_status r = "not_required" /\ is_sandbox_environment (Some (environment c)) = true
      /\ approval_detail r "policy_route" = Some "safe_pr").
Proof.
  unfold approval_status_result. destruct (String.eqb_spec (ap_status r) "granted"); [by left|].
  destruct (String.eqb_spec (ap_status r) "not_required"); simpl; [|done].
  destruct (_ && _) eqn:E; [|done]. intros _. bool_to_prop. auto.
Qed.

Lemma expires_at_allow now r result at_ :
  approval_expires_at_from_record now r = (result, Some at_) ->
  ap_expires_at r = NoExpiry \/ ap_expires_at r = ExpiryText ""
  \/ exists t, parse_approval_timestamp (ap_expires_at r) = Some t /\ now < t.
Proof.
  unfold approval_expires_at_from_record. destruct (ap_expires_at r) as [|[]| |]; auto;
    (destruct (parse_approval_timestamp _) as [t|]; [|done]);
    (destruct (Z.leb_spec t now); [done|]); intros _; right; right; eauto.
Qed.

Lemma evaluate_recorded_approval_allow now db c e :
  evaluate_recorded_approval now db c = (Allow, e) -> command_requires_recorded_approval c = true ->
  exists ref r ev, approval_ref c = Some ref /\ e = Some ev
    /\ (getter ← get_workflow_approval db; getter ref (workspace_id c)) = Some r
    /\ approval_valid now c r ev.
Proof.
  unfold evaluate_recorded_approval. intros H Hreq. rewrite Hreq in H. simpl in H.
  destruct (truthy (approval_ref c)) as [ref|] eqn:Href; [|done].
  destruct (truthy (policy_decision_ref c)) as [dec|] eqn:Hdec; [|done].
  apply truthy_Some in Href as [Href _], Hdec as [Hdec _].
  destruct (_ ≫= _) as [r|] eqn:Hr; [|done].
  destruct (String.eqb_spec (ap_workflow_run_id r) (workflow_run_id c)) as [Hwf|]; simpl in H; [|done].
  destruct (allowed (approval_status_result c r)) eqn:Hst; simpl in H;
    [|destruct (approval_status_result c r); simpl in Hst; done].
  destruct (_ || _) eqn:Hmis; [done|]. apply orb_false_iff in Hmis as [Hmis _].
  destruct (truthy (ap_decided_by r)) as [who|] eqn:Hwho; [|done]. apply truthy_Some in Hwho as [Hwho Hne].
  destruct (match truthy (approval_decided_by c) with Some _ => _ | None => _ end); [done|].
  destruct (approval_expires_at_from_record now r) as [result [at_|]] eqn:Hexp.
  2:{ unfold approval_expires_at_from_record in Hexp. by repeat (case_match; simplify_eq). }
  set (ev := {| ae_approval_ref := ref; ae_policy_decision_ref := dec; ae_decided_by := who; ae_expires_at := at_ |}) in *.
  exists ref, r, ev. split_and!; [done|by repeat (case_match; simplify_eq)|done|]. split.
  - exact Hwf.
  - by apply approval_status_allow.
  - intros recorded Hrec. unfold detail_mismatch in Hmis. rewrite Hrec in Hmis. bool_to_prop. congruence.
  - done.
  - by eapply expires_at_allow.
Qed.

(** *** What the handler does with the verdict *)

Lemma authorize_allow now db c e :
  authorize now db c = (Allow, e) ->
  (auto_selected c = true -> auto_commands_enabled env = true)
  /\ evaluate_management_guard db c = Allow
  /\ (direct_execution c = true -> direct_execution_confirmed c = true)
  /\ evaluate_command_policy c = Allow /\ evaluate_recorded_approval now db c = (Allow, e).
Proof.
  unfold authorize, evaluate_direct_execution_confirmation. intros H.
  destruct (auto_selected c && _) eqn:Ha; [done|].
  destruct (evaluate_management_guard db c); [|done].
  destruct (direct_execution c && _) eqn:Hd; [done|].
  destruct (evaluate_command_policy c); [|done]. split_and!; [| |intros Hx|done|done].
  - intros Hx. rewrite Hx in Ha. simpl in Ha. by apply negb_false_iff in Ha.
  - done.
  - rewrite Hx in Hd. simpl in Hd. by apply negb_false_iff in Hd.
Qed.

Lemma handle_shape now db correlation attempt c st st' events :
  handle_command_requested now db correlation attempt c st = Ok (st', events) ->
  (exists why code e, authorize now db c = (Reject why code, e)
     /\ events = [CommandRejected why code (command_to_body c)]
     /\ exists op, close_operation now (build_plan c correlation None) why st = Ok (st', op))
  \/ exists e, authorize now db c = (Allow, e)
     /\ let plan := build_plan c correlation e in
        let first := CommandDispatched plan (rc_channel (p_routing_constraint plan)) (p_cluster_id plan) in
        (events = [first; CommandQueuedForAgent plan]
         /\ queue_agent_command sha256_hex quote now correlation (plan_to_body plan) QUEUED attempt st
            = Ok (st', true))
        \/ (events = [first; CommandRejected NOT_QUEUED_REASON None (command_to_body c)]
            /\ exists st1 op, queue_agent_command sha256_hex quote now correlation (plan_to_body plan) QUEUED
                                attempt st = Ok (st1, false)
               /\ close_operation now plan NOT_QUEUED_REASON st1 = Ok (st', op)).
Proof.
  unfold handle_command_requested, reject_operation. intros H.
  destruct (authorize now db c) as [[|why code] e] eqn:Ha.
  - right. exists e. split; [done|]. apply result_bind_inv in H as ([st1 inserted] & Hq & H).
    destruct inserted; simpl in H; [simplify_eq; by left|right].
    apply result_bind_inv in H as ([st2 op] & Hc & H). simplify_eq. eauto 10.
  - left. apply result_bind_inv in H as ([st1 evt] & H1 & H). simplify_eq.
    apply result_bind_inv in H1 as ([st2 op] & Hc & H1). simplify_eq. eauto 10.
Qed.

(** ** Properties *)


(** Every request gets exactly one verdict: a single rejection, or a
    dispatch followed by the queueing or by a rejection; and it is announced as
    queued only if the store holds the command, queued, with the new attempt. *)
Theorem one_verdict now db correlation attempt c st st' events :
  handle_command_requested now db correlation attempt c st = Ok (st', events) ->
  (exists why code, events = [CommandRejected why code (command_to_body c)])
  \/ (exists plan ch cl, events = [CommandDispatched plan ch cl;
        CommandRejected NOT_QUEUED_REASON None (command_to_body c)])
  \/ (exists plan ch cl r, events = [CommandDispatched plan ch cl; CommandQueuedForAgent plan]
        /\ r ∈ commands st' /\ c_command_id r = p_command_id plan
        /\ c_active_attempt_id r = Some attempt /\ c_attempt_count r = 1 /\ c_status r = QUEUED).
Proof.
  intros H. destruct (handle_shape _ _ _ _ _ _ _ _ H) as [(why & code & e & _ & -> & _)|(e & _ & [[-> Hq]|[-> _]])].
  - left. eauto.
  - right; right. set (plan := build_plan c correlation e) in *. unfold queue_agent_command in Hq.
    destruct (field_is _ _ _); [done|]. unfold enqueue, agent_command_queue_upsert in Hq.
    apply result_bind_inv in Hq as (row & Hrow & Hq).
    assert (Hid : c_command_id row = p_command_id plan /\ c_status row = QUEUED).
    { unfold agent_command_values in Hrow.
      repeat (apply result_bind_inv in Hrow as (? & ? & Hrow)). simplify_eq. simpl.
      split; [|done]. by match goal with H : required_field _ "command_id" = _ |- _ => injection H end. }
    destruct Hid as [Hid Hst]. destruct (find _ _) as [existing|] eqn:Hf.
    + destruct (unprojected existing) eqn:Hu; simpl in Hq; [|done].
      apply result_bind_inv in Hq as (st2 & H2 & Hq). simplify_eq.
      apply attempt_insert_frame in H2 as (Hc & _ & _). apply find_elem in Hf as [Hex Heq].
      pose proof (unprojected_inv _ Hu) as (Hqueued & _). simpl in *.
      eexists plan, _, _, _. split; [reflexivity|]. rewrite Hc. split.
      * apply elem_of_update_where. exists existing. split; [done|]. by rewrite Heq, Hu.
      * simpl. apply String.eqb_eq in Heq. split_and!; [congruence|done..].
    + simpl in Hq. apply result_bind_inv in Hq as (st2 & H2 & Hq). simplify_eq.
      apply attempt_insert_frame in H2 as (Hc & _ & _). simpl in *.
      eexists plan, _, _, _. split; [reflexivity|]. rewrite Hc. split.
      * apply elem_of_app. right. by apply list_elem_of_singleton.
      * done.
  - right; left. eauto.
Qed.

Lemma close_operation_closes now plan why st st' op r :
  wf specs int_of_text st -> wf specs int_of_text st' ->
  close_operation now plan why st = Ok (st', op) -> r ∈ commands st ->
  key_of r = (p_workspace_id plan, p_command_id plan) -> c_cluster_id r = p_cluster_id plan ->
  c_status r = QUEUED ->
  (exists r', r' ∈ commands st' /\ key_of r' = key_of r /\ c_status r' = FAILED
     /\ finished specs int_of_text r' = true)
  /\ closed st' (p_workspace_id plan) (p_command_id plan) = true.
Proof.
  unfold close_operation, fail_logical_command_and_stage_event. intros Hwf Hwf' H Hr Hk Hcl Hq.
  assert (Hhit : is_command (p_workspace_id plan) (p_command_id plan) r
                 && String.eqb (c_cluster_id r) (p_cluster_id plan) && bool_decide (c_status r = QUEUED) = true).
  { rewrite key_is_command by done. by rewrite Hcl, String.eqb_refl, bool_decide_true. }
  assert (Hex : exists r', r' ∈ commands st' /\ key_of r' = key_of r /\ c_status r' = FAILED
                  /\ finished specs int_of_text r' = true).
  { destruct (find _ _) as [row|] eqn:Hf.
    - apply stage_staged, staged_frame in H as (Hc & _). eexists. split_and!.
      + rewrite Hc. apply elem_of_update_where. exists r. split; [done|]. by rewrite Hhit.
      + done.
      + done.
      + by apply finished_unretryable.
    - eapply find_none in Hf; [|by apply list_elem_of_In]. by rewrite Hhit in Hf. }
  split; [done|]. apply (wf_closed _ _ _ _ Hwf'). destruct Hex as (r' & Hr' & Hk' & _ & Hfin).
  exists r'. split_and!; [done|congruence|done|set_solver].
Qed.

(** A rejection is final and visible: when the checks refuse a command
    whose receipt is still queued, the command ends up failed with no retry
    left and its operation stream is closed, so the browser following the
    receipt hears of it. *)
Theorem rejection_closes timestamp_of uuid5 clock_text os now db correlation attempt c st st' why code body r :
  steps (command_step sha256_hex quote specs int_of_text timestamp_of uuid5 clock_text) empty_store os st ->
  handle_command_requested now db correlation attempt c st = Ok (st', [CommandRejected why code body]) ->
  r ∈ commands st -> c_status r = QUEUED ->
  key_of r = (workspace_id c, p_command_id (build_plan c correlation None)) ->
  c_cluster_id r = p_cluster_id (build_plan c correlation None) ->
  (exists r', r' ∈ commands st' /\ key_of r' = key_of r /\ c_status r' = FAILED
     /\ finished specs int_of_text r' = true)
  /\ closed st' (workspace_id c) (p_command_id (build_plan c correlation None)) = true.
Proof.
  intros Hrun%run_wf H Hr Hq Hk Hcl.
  destruct (handle_shape _ _ _ _ _ _ _ _ H) as [(why' & code' & e & _ & _ & op & Hclose)|(e & _ & [[? _]|[? _]])];
    [|done|done].
  assert (Hwf' : wf specs int_of_text st').
  { by eapply reject_wf. }
  exact (close_operation_closes now (build_plan c correlation None) why' st st' op r Hrun Hwf' Hclose Hr Hk Hcl Hq).
Qed.

(** The plan survives the queue: from the JSON body the store keeps, it
    reads back the retry budget and the delay the action's declaration gives
    (one attempt for an action without manual retry), the command's identity,
    and a priority of at least 100. *)
Theorem plan_read_back now c correlation e row :
  catalog_wf specs ->
  agent_command_values sha256_hex quote now correlation (plan_to_body (build_plan c correlation e)) QUEUED None
    = Ok row ->
  let plan := build_plan c correlation e in
  c_command_id row = p_command_id plan /\ c_workspace_id row = workspace_id c
  /\ c_cluster_id row = p_cluster_id plan /\ c_action row = p_action plan
  /\ c_direct_execution row = direct_execution c /\ 100 <= c_priority row
  /\ command_retry_policy int_of_text (c_payload row) =
       match spec_for specs (p_action plan) with
       | Some spec => (if supports_manual_retry spec then max_attempts spec else 1, retry_delay_seconds spec)
       | None => (1, 0)
       end.
Proof.
  intros Hwf H plan. unfold agent_command_values in H.
  repeat (apply result_bind_inv in H as (? & ? & H)). simplify_eq.
  assert (Hws : plan_workspace (plan_to_body plan) = Ok (workspace_id c)) by reflexivity.
  assert (Hcl : plan_cluster (plan_to_body plan) = Ok (p_cluster_id plan)) by reflexivity.
  assert (Hid : required_field (plan_to_body plan) "command_id" = Ok (p_command_id plan)) by reflexivity.
  assert (Hact : required_field (plan_to_body plan) "action" = Ok (p_action plan)) by reflexivity.
  assert (Hdir : plan_direct (plan_to_body plan) = Ok (direct_execution c)) by reflexivity.
  assert (Hprio : plan_priority (plan_to_body plan)
    = Ok (if p_priority plan =? 0 then COMMAND_PRIORITY_HIGH else p_priority plan)) by reflexivity.
  assert (Hpol : dict_get "retry_policy" (plan_to_body plan) = Some (JObj
    [("max_attempts", JInt (rp_max_attempts (p_retry_policy plan)));
     ("retry_delay_seconds", JInt (rp_retry_delay_seconds (p_retry_policy plan)))])) by reflexivity.
  assert (Hge : 100 <= p_priority plan) by (cbn; unfold COMMAND_PRIORITY_HIGH; lia).
  unfold plan in *; clear plan; set (plan := build_plan c correlation e) in *.
  cbn [c_command_id c_workspace_id c_cluster_id c_action c_direct_execution c_priority c_payload].
  split_and!; try congruence.
  - match goal with H : plan_priority _ = Ok _ |- _ => rewrite Hprio in H; injection H as <- end.
    change (100 <= (if p_priority plan =? 0 then 100 else p_priority plan)).
    destruct (p_priority plan =? 0); lia.
  - unfold command_retry_policy. rewrite Hpol. cbn.
    change (p_action plan) with (or_default (action c) Command.DEFAULT_ACTION).
    destruct (spec_for specs (or_default _ _)) as [spec|] eqn:Hs; [|done].
    destruct (spec_for_valid _ _ _ Hwf Hs) as (Hm & Hd & _). destruct (supports_manual_retry spec); f_equal; lia.
Qed.
End Handler.

(** *** Concrete requests *)
Module Sample.
Definition specs : catalog := match builtin_catalog 3 5 with Ok specs => specs | Err _ => [] end.
Definition same (s : string) : string := s.
Definition no_int (_ : string) : option Z := None.
Definition no_time (_ : string) : option (Z * option Z) := None.
Definition show_time (_ : Z) : string := "2024-01-01T00:00:00+00:00".
Definition epoch (_ : string) : Z := 0.

Definition env : settings :=
  {| control_env := None; auto_approve_actions := None; auto_approve_environments := None;
     evidence_ttl_env := None; auto_commands_enabled := false; cfg_lease_seconds := 60;
     cfg_heartbeat_seconds := 20; cfg_retry_max_attempts := 3; cfg_retry_delay := 5 |}.

Definition sample_diff : Diff :=
  {| df_resource := "deployment/app"; df_namespace := "sandbox"; df_desired_image := "app:2";
     df_actual_image := "app:1"; df_risk := "sandbox-only"; df_workspace_id := "w";
     df_repository_id := "repo"; df_watch_target_id := "watch"; df_binding_id := "bind";
     df_application_id := "app"; df_workflow_run_id := "run-1"; df_environment := "sandbox";
     df_cluster_id := "c"; df_manifest_path := "m.yaml"; df_resource_class := "application";
     df_desired_manifest := []; df_status := "legacy_image_diff"; df_has_changes := true;
     df_changes := []; df_basis := [] |}.

(** An apply of a manifest with the given approval reference. *)
Definition request (ref : option string) : CommandRequestedBody :=
  {| cluster_id := "c"; action := "apply_manifest"; namespace := "sandbox"; reason := "apply";
     diff := sample_diff; command_id := Some "cmd-1"; workspace_id := "w"; application_id := "app";
     workflow_run_id := "run-1"; binding_id := "bind"; environment := "sandbox"; priority := 100;
     requested_by := None; actor := None; approval_ref := ref; policy_decision_ref := Some "dec-1";
     approval_decided_by := None; approval_expires_at := None; direct_execution := false;
     direct_execution_confirmed := false; command_payload := [] |}.

Definition db : reads :=
  {| get_workflow_approval := Some (fun ref _ =>
       if String.eqb ref "appr-1"
       then Some {| ap_status := "granted"; ap_workflow_run_id := "run-1"; ap_details := JObj [];
                    ap_decided_by := Some "lead"; ap_expires_at := NoExpiry |}
       else None);
     get_cluster_registration := None; get_cluster_policy := None |}.

Definition handle (c : CommandRequestedBody) (st : store) :=
  handle_command_requested same same no_time show_time no_int specs env 20 db "corr" "att-1" c st.


Example one_verdict_witness :
  match handle (request None) empty_store with
  | Ok (_, events) => exists why code, events = [CommandRejected why code (command_to_body (request None))]
  | Err _ => False
  end.
Proof.
  destruct (handle (request None) empty_store) as [[st events]|] eqn:E; [|vm_compute in E; discriminate E].
  destruct (one_verdict _ _ _ _ _ _ _ _ _ _ _ _ _ _ _ E) as [H|[H|H]]; [exact H| |];
    exfalso; vm_compute in E; injection E as <- <-;
    [destruct H as (? & ? & ? & H) | destruct H as (? & ? & ? & ? & H & _)]; discriminate H.
Defined.

(** The store of a receipt whose approval is missing. *)
Definition receipt_store : store :=
  match stage_receipt same same 10 "corr" (plan_to_body (build_plan same specs env (request None) "corr" None))
          "w" "c" "apply_manifest" "evt" None empty_store with
  | Ok (st, _) => st
  | Err _ => empty_store
  end.

Example rejection_closes_witness :
  match handle (request None) receipt_store with
  | Ok (st', [CommandRejected _ _ _]) => closed st' "w" "cmd-1" = true
  | _ => False
  end.
Proof.
  destruct (handle (request None) receipt_store) as [[st' events]|] eqn:E; [|vm_compute in E; discriminate E].
  destruct events as [|[| |why code body] [|? ?]]; try (vm_compute in E; discriminate E).
  destruct (commands receipt_store) as [|r l] eqn:Hc; [vm_compute in Hc; discriminate Hc|].
  refine (proj2 (rejection_closes same same no_time show_time no_int specs env epoch same same
    [Receipt 10 "corr" (plan_to_body (build_plan same specs env (request None) "corr" None))
       "w" "c" "apply_manifest" "evt" None]
    20 db "corr" "att-1" (request None) receipt_store st' why code body r _ E _ _ _ _)).
  - apply (steps_cons _ _ _ receipt_store); [unfold command_step; vm_compute; reflexivity|apply steps_nil].
  - rewrite Hc. apply list_elem_of_here.
  - vm_compute in Hc. injection Hc as <- _. reflexivity.
  - vm_compute in Hc. injection Hc as <- _. reflexivity.
  - vm_compute in Hc. injection Hc as <- _. reflexivity.
Defined.

Example plan_read_back_witness :
  match agent_command_values same same 10 "corr"
          (plan_to_body (build_plan same specs env (request None) "corr" None)) QUEUED None with
  | Ok row => command_retry_policy no_int (c_payload row) = (3, 5)
  | Err _ => False
  end.
Proof.
  destruct (agent_command_values _ _ _ _ _ _ _) as [row|] eqn:E; [|vm_compute in E; discriminate E].
  assert (Hwf : catalog_wf specs).
  { apply (register_all_wf (builtin_actions 3 5) []); [apply catalog_wf_nil|vm_compute; reflexivity]. }
  destruct (plan_read_back same same no_int specs env 10 (request None) "corr" None row Hwf E)
    as (_ & _ & _ & _ & _ & _ & H).
  rewrite H. vm_compute. reflexivity.
Defined.
End Sample.
