(* ===== verification/Uninstall.v ===== *)
(** The removal of the agent from a target cluster
    ([domains/target/uninstall.py] and the uninstall handlers of
    [cluster-agent/agent.py]): the allowlist of resources, the plan that is
    queued, and what the agent does to the cluster before it reports the
    cleanup and after the report is acknowledged.

    The Kubernetes API is outside the repository: [kube] answers a call given
    the calls made before, with a JSON object or, when the client raises, with
    nothing.  SHA-256 is a parameter. *)

From Stdlib Require Import Ascii.
From S2P Require Import Prelude PyString Json CommandLifecycle CommandCatalog CommandStore.
#[global] Open Scope Z_scope.

(** ** The allowlist *)

Definition UNINSTALL_CONTRACT_VERSION : Z := 2.
Definition UNINSTALL_PRIORITY : Z := 1000.

Record NamespacedCleanupResource : Type := {
  n_api_group : string; n_version : string; n_namespace : string; n_resource : string; n_name : string;
}.

Record ClusterCleanupResource : Type := {
  k8s_api_group : string; k8s_version : string; k8s_resource : string; k8s_name : string;
}.

Definition SANDBOX_NAMESPACE : string := "sandbox".
Definition NODE_COLLECTOR_SERVICE_ACCOUNT_NAME : string := "cluster-agent-node-collector".
Definition NODE_COLLECTOR_READ_CLUSTER_ROLE_NAME : string := "cluster-agent-node-collector-read".
Definition NODE_COLLECTOR_READ_CLUSTER_ROLE_BINDING_NAME : string := NODE_COLLECTOR_READ_CLUSTER_ROLE_NAME.

Definition RBAC : string := "rbac.authorization.k8s.io".

Definition PRE_ACK_NAMESPACED_CLEANUP : list NamespacedCleanupResource :=
  [Build_NamespacedCleanupResource "apps" "v1" TARGET_NAMESPACE "daemonsets" "optional-node-collector";
   Build_NamespacedCleanupResource "core" "v1" TARGET_NAMESPACE "configmaps" "target-runtime-config";
   Build_NamespacedCleanupResource "core" "v1" TARGET_NAMESPACE "configmaps" "target-agent-policy";
   Build_NamespacedCleanupResource "core" "v1" TARGET_NAMESPACE "secrets" "target-runtime-secret";
   Build_NamespacedCleanupResource "core" "v1" TARGET_NAMESPACE "serviceaccounts"
     NODE_COLLECTOR_SERVICE_ACCOUNT_NAME;
   Build_NamespacedCleanupResource RBAC "v1" TARGET_NAMESPACE "rolebindings" "cluster-agent-self-manage";
   Build_NamespacedCleanupResource RBAC "v1" TARGET_NAMESPACE "rolebindings" "cluster-agent-target-manage";
   Build_NamespacedCleanupResource RBAC "v1" TARGET_NAMESPACE "roles" "cluster-agent-self-manage";
   Build_NamespacedCleanupResource RBAC "v1" TARGET_NAMESPACE "roles" "cluster-agent-target-manage";
   Build_NamespacedCleanupResource RBAC "v1" SANDBOX_NAMESPACE "rolebindings" "cluster-agent-sandbox-write";
   Build_NamespacedCleanupResource RBAC "v1" SANDBOX_NAMESPACE "rolebindings" "cluster-agent-catalog-install";
   Build_NamespacedCleanupResource RBAC "v1" SANDBOX_NAMESPACE "roles" "cluster-agent-sandbox-write";
   Build_NamespacedCleanupResource RBAC "v1" SANDBOX_NAMESPACE "rolebindings" "cluster-agent-cronjob-control";
   Build_NamespacedCleanupResource RBAC "v1" SANDBOX_NAMESPACE "roles" "cluster-agent-cronjob-control";
   Build_NamespacedCleanupResource RBAC "v1" SANDBOX_NAMESPACE "roles" "cluster-agent-catalog-install"].

Definition PRE_ACK_CLUSTER_CLEANUP : list ClusterCleanupResource :=
  [Build_ClusterCleanupResource RBAC "v1" "clusterrolebindings" NODE_COLLECTOR_READ_CLUSTER_ROLE_BINDING_NAME;
   Build_ClusterCleanupResource RBAC "v1" "clusterroles" NODE_COLLECTOR_READ_CLUSTER_ROLE_NAME;
   Build_ClusterCleanupResource RBAC "v1" "clusterrolebindings" "cluster-agent-gitops-control";
   Build_ClusterCleanupResource RBAC "v1" "clusterroles" "cluster-agent-gitops-control";
   Build_ClusterCleanupResource RBAC "v1" "clusterrolebindings" "cluster-agent-node-control";
   Build_ClusterCleanupResource RBAC "v1" "clusterroles" "cluster-agent-node-control";
   Build_ClusterCleanupResource RBAC "v1" "clusterrolebindings" "cluster-agent-read";
   Build_ClusterCleanupResource RBAC "v1" "clusterroles" "cluster-agent-read"].

Definition FINAL_AGENT_DEPLOYMENT : NamespacedCleanupResource :=
  Build_NamespacedCleanupResource "apps" "v1" TARGET_NAMESPACE "deployments" "cluster-agent".
Definition FINAL_AGENT_SERVICE_ACCOUNT : NamespacedCleanupResource :=
  Build_NamespacedCleanupResource "core" "v1" TARGET_NAMESPACE "serviceaccounts" "cluster-agent".
Definition FINAL_UNINSTALL_CLUSTER_ROLE_BINDING : ClusterCleanupResource :=
  Build_ClusterCleanupResource RBAC "v1" "clusterrolebindings" "cluster-agent-uninstall".
Definition FINAL_UNINSTALL_CLUSTER_ROLE : ClusterCleanupResource :=
  Build_ClusterCleanupResource RBAC "v1" "clusterroles" "cluster-agent-uninstall".
Definition FINAL_CASCADE_NAMESPACED_CLEANUP : list NamespacedCleanupResource :=
  [FINAL_AGENT_DEPLOYMENT; FINAL_AGENT_SERVICE_ACCOUNT].
Definition FINAL_CASCADE_CLUSTER_CLEANUP : list ClusterCleanupResource :=
  [FINAL_UNINSTALL_CLUSTER_ROLE_BINDING].

(** [resource.removesuffix("s")]. *)
Fixpoint removesuffix_s (s : string) : string :=
  match s with
  | EmptyString => EmptyString
  | String c EmptyString => if Ascii.eqb c "s"%char then EmptyString else s
  | String c s' => String c (removesuffix_s s')
  end.

Definition namespaced_cleanup_ref (item : NamespacedCleanupResource) : string :=
  n_namespace item +:+ ":" +:+ removesuffix_s (n_resource item) +:+ "/" +:+ n_name item.

Definition cluster_cleanup_ref (item : ClusterCleanupResource) : string :=
  "cluster:" +:+ removesuffix_s (k8s_resource item) +:+ "/" +:+ k8s_name item.

Definition UNINSTALL_CLEANUP_RESOURCE_REFS : list string :=
  map namespaced_cleanup_ref PRE_ACK_NAMESPACED_CLEANUP
  ++ map cluster_cleanup_ref PRE_ACK_CLUSTER_CLEANUP
  ++ map namespaced_cleanup_ref FINAL_CASCADE_NAMESPACED_CLEANUP
  ++ map cluster_cleanup_ref FINAL_CASCADE_CLUSTER_CLEANUP
  ++ [cluster_cleanup_ref FINAL_UNINSTALL_CLUSTER_ROLE].

Example cleanup_refs_ex :
  length UNINSTALL_CLEANUP_RESOURCE_REFS = 27%nat
  /\ hd_error UNINSTALL_CLEANUP_RESOURCE_REFS = Some "target:daemonset/optional-node-collector"
  /\ last UNINSTALL_CLEANUP_RESOURCE_REFS = Some "cluster:clusterrole/cluster-agent-uninstall".
Proof. vm_compute. done. Qed.

(** ** The plan *)

(** The tuning values the environment may override. *)
Record lease_settings : Type := {
  DEFAULT_COMMAND_LEASE_SECONDS : Z; DEFAULT_COMMAND_HEARTBEAT_INTERVAL_SECONDS : Z;
  DEFAULT_COMMAND_RETRY_MAX_ATTEMPTS : Z; DEFAULT_COMMAND_RETRY_DELAY_SECONDS : Z;
}.

Definition agent_uninstall_plan (sha256_hex : string -> string) (cfg : lease_settings)
    (cluster_id workspace_id requested_by correlation_id : string) : odict json :=
  let payload := [("cluster_id", JStr cluster_id); ("contract_version", JInt UNINSTALL_CONTRACT_VERSION)] in
  let basis := [("workspace_id", JStr workspace_id); ("cluster_id", JStr cluster_id);
                ("action", JStr Command.CLUSTER_AGENT_UNINSTALL_ACTION); ("payload", JObj payload);
                ("correlation_id", JStr correlation_id)] in
  let digest := sha256_hex (canonical_dumps json_string (JObj basis)) in
  [("command_id", JStr ("cmd-uninstall-" +:+ String.substring 0 24 digest));
   ("idempotency_key", JStr digest); ("cluster_id", JStr cluster_id);
   ("action", JStr Command.CLUSTER_AGENT_UNINSTALL_ACTION); ("namespace", JStr TARGET_NAMESPACE);
   ("diff", JObj [("resource", JStr "opsia/cluster-agent"); ("namespace", JStr TARGET_NAMESPACE);
                  ("risk", JStr "review-required");
                  ("basis", JObj [("contract_version", JInt UNINSTALL_CONTRACT_VERSION)])]);
   ("payload", JObj payload);
   ("steps", JArr [JStr "acknowledge uninstall"; JStr "remove allowlisted agent runtime"]);
   ("lease", JObj [("lease_seconds", JInt (DEFAULT_COMMAND_LEASE_SECONDS cfg));
                   ("heartbeat_interval_seconds", JInt (DEFAULT_COMMAND_HEARTBEAT_INTERVAL_SECONDS cfg))]);
   ("retry_policy", JObj [("max_attempts", JInt (DEFAULT_COMMAND_RETRY_MAX_ATTEMPTS cfg));
                          ("retry_delay_seconds", JInt (DEFAULT_COMMAND_RETRY_DELAY_SECONDS cfg))]);
   ("routing_constraint", JObj [("channel", JStr "agent"); ("cluster_id", JStr cluster_id);
                                ("workspace_id", JStr workspace_id); ("required_capability", JStr "commands")]);
   ("workspace_id", JStr workspace_id); ("priority", JInt UNINSTALL_PRIORITY);
   ("requested_by", JStr requested_by);
   ("reason", JStr "cluster disconnect requested by administrator");
   ("correlation_id", JStr correlation_id)].

Record QueuedAgentUninstall : Type := {
  qu_command_id : string; qu_correlation_id : string; qu_inserted : bool;
}.

(** [uuid] and [attempt_id] are the identifiers drawn. *)
Definition queue_agent_uninstall (sha256_hex quote : string -> string) (cfg : lease_settings) (now : Z)
    (uuid attempt_id cluster_id workspace_id requested_by : string) (st : store)
    : transaction QueuedAgentUninstall :=
  let correlation_id := "corr-uninstall-" +:+ uuid in
  let plan := agent_uninstall_plan sha256_hex cfg cluster_id workspace_id requested_by correlation_id in
  command_id ← required_field plan "command_id";
  '(st, inserted) ← queue_agent_command sha256_hex quote now correlation_id plan QUEUED attempt_id st;
  Ok (st, {| qu_command_id := command_id; qu_correlation_id := correlation_id; qu_inserted := inserted |}).

(** ** What the agent does to the cluster *)

Inductive kube_call : Type :=
| DeleteNamespaced (r : NamespacedCleanupResource)
| DeleteCluster (r : ClusterCleanupResource) (propagation_policy : option string)
| GetCluster (r : ClusterCleanupResource)
| PatchNamespaced (r : NamespacedCleanupResource) (body : odict json)
| PatchCluster (r : ClusterCleanupResource) (body : odict json).

(** A handler makes calls, in order, until one raises; it may raise itself. *)
Definition handler (A : Type) : Type := list kube_call -> list kube_call * option A.

#[export] Instance handler_ret : MRet handler := fun _ x calls => (calls, Some x).
#[export] Instance handler_bind : MBind handler := fun _ _ f m calls =>
  match m calls with (calls, Some x) => f x calls | (calls, None) => (calls, None) end.

Definition raise {A} : handler A := fun calls => (calls, None).

Section Agent.
Context (kube : list kube_call -> kube_call -> option (odict json)).

Definition call (c : kube_call) : handler (odict json) := fun calls => (calls ++ [c], kube calls c).

Fixpoint calling (cs : list kube_call) : handler unit :=
  match cs with [] => mret () | c :: cs => call c;; calling cs end.

Definition prepare_agent_installation_cleanup : handler unit :=
  calling (map DeleteNamespaced PRE_ACK_NAMESPACED_CLEANUP);;
  calling (map (fun r => DeleteCluster r None) PRE_ACK_CLUSTER_CLEANUP).

(** [str(metadata.get("uid") or "")]: the API server's [uid] is a string. *)
Definition owner_uid (owner : odict json) : string :=
  match dict_get "metadata" owner with
  | Some (JObj metadata) => match dict_get "uid" metadata with Some (JStr uid) => uid | _ => "" end
  | _ => ""
  end.

Definition owner_patch (uid : string) : odict json :=
  [("metadata", JObj [("ownerReferences", JArr [JObj
     [("apiVersion", JStr "rbac.authorization.k8s.io/v1"); ("kind", JStr "ClusterRole");
      ("name", JStr (k8s_name FINAL_UNINSTALL_CLUSTER_ROLE)); ("uid", JStr uid);
      ("controller", JBool false); ("blockOwnerDeletion", JBool false)]])])].

Definition arm_agent_installation_cleanup : handler unit :=
  owner ← call (GetCluster FINAL_UNINSTALL_CLUSTER_ROLE);
  let uid := owner_uid owner in
  if String.eqb uid "" then raise else
  calling (map (fun r => PatchNamespaced r (owner_patch uid)) FINAL_CASCADE_NAMESPACED_CLEANUP);;
  calling (map (fun r => PatchCluster r (owner_patch uid)) FINAL_CASCADE_CLUSTER_CLEANUP).

(** [result.get("deleted") is not True and result.get("status_code") != 404]. *)
Definition cleanup_accepted (result : odict json) : bool :=
  match dict_get "deleted" result with Some (JBool true) => true | _ => false end
  || match dict_get "status_code" result with Some (JInt code) => code =? 404 | _ => false end.

Definition finalize_agent_installation_cleanup : handler unit :=
  result ← call (DeleteCluster FINAL_UNINSTALL_CLUSTER_ROLE (Some "Background"));
  if cleanup_accepted result then mret () else raise.

(** [CommandResult.completed] and [CommandResult.failed]. *)
Definition command_result (status cluster_id message : string) (applied : bool) (fields : odict json)
    : odict json :=
  dict_update [("status", JStr status); ("cluster_id", JStr cluster_id); ("applied", JBool applied);
               ("message", JStr message); ("retryable", JBool false); ("resources", JArr []);
               ("stdout", JStr ""); ("stderr", JStr "")] fields.

Record ClusterAgentUninstallPayload : Type := { u_cluster_id : string; u_contract_version : Z }.

Definition schedule_agent_uninstall_command (cluster_id cluster_role : string)
    (payload : ClusterAgentUninstallPayload) : handler (odict json) :=
  let fail message := mret (command_result "failed" cluster_id message false []) in
  if String.eqb cluster_role "management" then fail "management_readonly"
  else if negb (String.eqb (u_cluster_id payload) cluster_id)
  then fail "uninstall cluster_id does not match agent identity"
  else if negb (u_contract_version payload =? UNINSTALL_CONTRACT_VERSION)
  then fail "unsupported agent uninstall contract version"
  else
    prepare_agent_installation_cleanup;;
    arm_agent_installation_cleanup;;
    mret (command_result "completed" cluster_id
            "allowlisted agent runtime cleanup accepted with no residual resources" true
            [("cleanup_completed", JBool true);
             ("cleanup_resources", JArr (map JStr UNINSTALL_CLEANUP_RESOURCE_REFS));
             ("residual_resources", JArr [])]).
End Agent.

(** *** The receipt of a cleanup *)

(** [value == list(refs)] for a JSON value. *)
Definition is_str_list (refs : list string) (v : option json) : bool :=
  match v with
  | Some (JArr items) =>
      (length items =? length refs)%nat
      && forallb (fun p => match p.1 with JStr s => String.eqb s p.2 | _ => false end) (zip items refs)
  | _ => false
  end.

Definition is_agent_uninstall_cleanup_result (result : odict json) : bool :=
  match dict_get "status" result with Some (JStr s) => String.eqb s "completed" | _ => false end
  && match dict_get "cleanup_completed" result with Some (JBool true) => true | _ => false end
  && is_str_list UNINSTALL_CLEANUP_RESOURCE_REFS (dict_get "cleanup_resources" result)
  && is_str_list [] (dict_get "residual_resources" result).

(** ** The receipt is honest *)

Section Honest.
Context (kube : list kube_call -> kube_call -> option (odict json)).

(** Every call of [cs], made after [before], was answered. *)
Fixpoint answered (before cs : list kube_call) : Prop :=
  match cs with [] => True | c :: cs => is_Some (kube before c) /\ answered (before ++ [c]) cs end.

Lemma bind_inv {A B} (f : A -> handler B) (m : handler A) calls calls' y :
  (m ≫= f) calls = (calls', Some y) -> exists mid x, m calls = (mid, Some x) /\ f x mid = (calls', Some y).
Proof. unfold mbind, handler_bind. destruct (m calls) as [mid [x|]]; [eauto|done]. Qed.

Lemma call_inv c calls calls' x :
  call kube c calls = (calls', Some x) -> calls' = calls ++ [c] /\ kube calls c = Some x.
Proof. unfold call. by intros [= <- ?]. Qed.

Lemma calling_inv cs calls calls' :
  calling kube cs calls = (calls', Some tt) -> calls' = calls ++ cs /\ answered calls cs.
Proof.
  revert calls. induction cs as [|c cs IH]; simpl; intros calls H.
  - unfold mret, handler_ret in H. simplify_eq. by rewrite app_nil_r.
  - apply bind_inv in H as (mid & x & [-> Hx]%call_inv & [-> Hcs]%IH).
    rewrite <- (assoc_L (++)). split_and!; [done|by exists x|done].
Qed.

Lemma answered_app before cs cs' :
  answered before (cs ++ cs') <-> answered before cs /\ answered (before ++ cs) cs'.
Proof.
  revert before. induction cs as [|c cs IH]; simpl; intros before; [rewrite app_nil_r; tauto|].
  rewrite IH, <- (assoc_L (++)). simpl. tauto.
Qed.

(** The calls of a complete cleanup, for the owner's [uid]. *)
Definition cleanup_calls (uid : string) : list kube_call :=
  map DeleteNamespaced PRE_ACK_NAMESPACED_CLEANUP
  ++ map (fun r => DeleteCluster r None) PRE_ACK_CLUSTER_CLEANUP
  ++ [GetCluster FINAL_UNINSTALL_CLUSTER_ROLE]
  ++ map (fun r => PatchNamespaced r (owner_patch uid)) FINAL_CASCADE_NAMESPACED_CLEANUP
  ++ map (fun r => PatchCluster r (owner_patch uid)) FINAL_CASCADE_CLUSTER_CLEANUP.

Lemma fail_no_receipt cluster message :
  is_agent_uninstall_cleanup_result (command_result "failed" cluster message false []) = false.
Proof. done. Qed.

(** The agent of a target cluster answers with the receipt that lets the
    server revoke the registration only after the API server answered every
    call of the allowlist, and the agent's own owner is still there. *)
Theorem uninstall_receipt_honest cluster role payload calls result :
  schedule_agent_uninstall_command kube cluster role payload [] = (calls, Some result) ->
  is_agent_uninstall_cleanup_result result = true ->
  role <> "management" /\ u_cluster_id payload = cluster
  /\ exists uid, uid <> "" /\ calls = cleanup_calls uid /\ answered [] calls
       /\ Forall (fun c => forall p, c <> DeleteCluster FINAL_UNINSTALL_CLUSTER_ROLE p) calls.
Proof.
  unfold schedule_agent_uninstall_command. intros H Hok.
  destruct (String.eqb role "management") eqn:Hrole; [injection H as <- <-; by rewrite fail_no_receipt in Hok|].
  destruct (String.eqb (u_cluster_id payload) cluster) eqn:Hc; simpl in H;
    [|injection H as <- <-; by rewrite fail_no_receipt in Hok].
  destruct (u_contract_version payload =? UNINSTALL_CONTRACT_VERSION) eqn:Hv; simpl in H;
    [|injection H as <- <-; by rewrite fail_no_receipt in Hok].
  bool_to_prop. split_and!; [done|done|].
  apply bind_inv in H as (c1 & [] & H1 & H). apply bind_inv in H as (c2 & [] & H2 & _H).
  injection _H as <- _.
  apply bind_inv in H1 as (c0 & [] & [-> A1]%calling_inv & [-> A2]%calling_inv).
  apply bind_inv in H2 as (c3 & owner & [-> A3]%call_inv & H2).
  cbv zeta in H2. destruct (String.eqb (owner_uid owner) "") eqn:Hu; [done|]. apply String.eqb_neq in Hu.
  apply bind_inv in H2 as (c4 & [] & [-> A4]%calling_inv & [-> A5]%calling_inv).
  rewrite app_nil_l in *. rewrite <- !(assoc_L (++)) in *.
  exists (owner_uid owner). split_and!; [done|done| |by repeat (constructor; [done|])].
  rewrite !answered_app, !app_nil_l. split_and!; [done|done|by split; [exists owner|]|done|].
  by rewrite <- !(assoc_L (++)).
Qed.
End Honest.

Module Sample.
(** An API server that answers every call, the owner's with a [uid]. *)
Definition kube (_ : list kube_call) (c : kube_call) : option (odict json) :=
  match c with
  | GetCluster _ => Some [("metadata", JObj [("uid", JStr "uid-1")])]
  | DeleteCluster _ (Some _) => Some [("deleted", JBool true)]
  | _ => Some []
  end.

Definition payload : ClusterAgentUninstallPayload := {| u_cluster_id := "c"; u_contract_version := 2 |}.

Definition cleanup : odict json :=
  default [] (schedule_agent_uninstall_command kube "c" "target" payload []).2.

Example uninstall_receipt_honest_witness :
  exists calls, answered kube [] calls /\ length calls = 27%nat.
Proof.
  destruct (schedule_agent_uninstall_command kube "c" "target" payload []) as [calls [result|]] eqn:E;
    [|vm_compute in E; discriminate E].
  destruct (uninstall_receipt_honest kube "c" "target" payload calls result E) as (_ & _ & uid & _ & -> & H & _).
  - vm_compute in E. injection E as _ <-. vm_compute. reflexivity.
  - exists (cleanup_calls uid). split; [exact H|reflexivity].
Defined.

Definition settings : lease_settings :=
  {| DEFAULT_COMMAND_LEASE_SECONDS := 60; DEFAULT_COMMAND_HEARTBEAT_INTERVAL_SECONDS := 20;
     DEFAULT_COMMAND_RETRY_MAX_ATTEMPTS := 3; DEFAULT_COMMAND_RETRY_DELAY_SECONDS := 5 |}.

Example queue_agent_uninstall_ex :
  match queue_agent_uninstall (fun s => s) json_string settings 1 "u" "att-1" "c" "w" "admin" empty_store with
  | Ok (st, q) => qu_inserted q = true /\ map c_status (commands st) = [QUEUED]
      /\ map c_priority (commands st) = [1000] /\ map c_command_id (commands st) = [qu_command_id q]
  | Err _ => False
  end.
Proof. vm_compute. done. Qed.

Example finalize_ex :
  (finalize_agent_installation_cleanup kube []).2 = Some tt
  /\ (finalize_agent_installation_cleanup (fun _ _ => Some [("status_code", JInt 409)]) []).2 = None
  /\ (finalize_agent_installation_cleanup (fun _ _ => Some [("status_code", JInt 404)]) []).2 = Some tt.
Proof. vm_compute. done. Qed.
End Sample.
