(* ===== verification/AgentOutbox.v ===== *)
(** The agent's durable result outbox ([cluster-agent/commands/outbox.py]): the
    SQLite table of command results, its operations and the migration that
    opens it.

    A table is the list of its rows in insertion order; a row's timestamps are
    the clock readings.  [result_json] is kept as the value the text encodes.
    The statements of one [with conn] block are one transaction. *)

From S2P Require Import Prelude PyString Json CommandStore Uninstall.
From coqutil Require Import Datatypes.RecordSettersUsingExistingGetters.
#[global] Open Scope Z_scope.

Definition COMMAND_RESULT_STATUS_ABANDONED : string := "abandoned".
Definition COMMAND_RESULT_STATUS_ACKED_FINALIZATION_PENDING : string := "acked_finalization_pending".
Definition COMMAND_RESULT_STATUS_PENDING : string := "pending".

Record result_row : Type := {
  x_command_id : string; x_attempt_id : string; x_workspace_id : string; x_lease_id : string;
  x_agent_id : string; x_status : string; x_result_json : json; x_attempt_count : Z;
  x_last_error : option string; x_created_at : Z; x_updated_at : Z;
}.

Record CommandResultRecord : Type := {
  cr_command_id : string; cr_attempt_id : string; cr_workspace_id : string; cr_lease_id : string;
  cr_agent_id : string; cr_result : odict json; cr_attempt_count : Z;
}.

Inductive outbox_error : Type := RuntimeError (message : string) | OperationalError (message : string).

Definition command_result_record (row : result_row) : CommandResultRecord :=
  {| cr_command_id := x_command_id row; cr_attempt_id := x_attempt_id row;
     cr_workspace_id := x_workspace_id row; cr_lease_id := x_lease_id row; cr_agent_id := x_agent_id row;
     cr_result := match x_result_json row with JObj fields => fields | v => [("raw_result", v)] end;
     cr_attempt_count := x_attempt_count row |}.

(** ** Operations *)

(** [attempt_id or f"legacy:{command_id}"]. *)
Definition normalized_attempt_id (command_id : string) (attempt_id : option string) : string :=
  default ("legacy:" +:+ command_id) (truthy attempt_id).

(** The primary key. *)
Definition row_key (r : result_row) : string * string := (x_command_id r, x_attempt_id r).
Definition has_key (k : string * string) (r : result_row) : bool :=
  String.eqb (x_command_id r) k.1 && String.eqb (x_attempt_id r) k.2.
Definition has_status (s : string) (r : result_row) : bool := String.eqb (x_status r) s.

Definition enqueue_result (now : Z) (command_id workspace_id lease_id agent_id : string)
    (result : odict json) (attempt_id : option string) (rows : list result_row) : list result_row :=
  let k := (command_id, normalized_attempt_id command_id attempt_id) in
  if existsb (has_key k) rows
  then update_where (has_key k) (fun r =>
         r <| x_workspace_id := workspace_id |> <| x_lease_id := lease_id |> <| x_agent_id := agent_id |>
           <| x_status := COMMAND_RESULT_STATUS_PENDING |> <| x_result_json := JObj result |>
           <| x_updated_at := now |>) rows
  else rows ++ [{| x_command_id := command_id; x_attempt_id := k.2; x_workspace_id := workspace_id;
                   x_lease_id := lease_id; x_agent_id := agent_id; x_status := COMMAND_RESULT_STATUS_PENDING;
                   x_result_json := JObj result; x_attempt_count := 0; x_last_error := None;
                   x_created_at := now; x_updated_at := now |}].

(** [ORDER BY f LIMIT 1]; among equals, the row inserted first. *)
Fixpoint first_by (f : result_row -> Z) (rows : list result_row) : option result_row :=
  match rows with
  | [] => None
  | r :: rows =>
      match first_by f rows with
      | Some r' => if f r' <? f r then Some r' else Some r
      | None => Some r
      end
  end.

Definition select_first (status : string) (f : result_row -> Z) (rows : list result_row)
    : option CommandResultRecord :=
  command_result_record <$> first_by f (List.filter (has_status status) rows).

Definition next_result := select_first COMMAND_RESULT_STATUS_PENDING x_created_at.
Definition next_finalization := select_first COMMAND_RESULT_STATUS_ACKED_FINALIZATION_PENDING x_updated_at.

Definition mark_acknowledged_for_finalization (now : Z) (command_id : string) (attempt_id : option string)
    (rows : list result_row) : result outbox_error (list result_row) :=
  let k := (command_id, normalized_attempt_id command_id attempt_id) in
  let hit r := has_key k r && has_status COMMAND_RESULT_STATUS_PENDING r in
  if (length (List.filter hit rows) =? 1)%nat
  then Ok (update_where hit (fun r =>
         r <| x_status := COMMAND_RESULT_STATUS_ACKED_FINALIZATION_PENDING |> <| x_last_error := None |>
           <| x_updated_at := now |>) rows)
  else Err (RuntimeError "command result cannot enter finalization state").

Definition mark_finalized (command_id : string) (attempt_id : option string) (rows : list result_row)
    : list result_row :=
  let k := (command_id, normalized_attempt_id command_id attempt_id) in
  List.filter (fun r => negb (has_key k r && has_status COMMAND_RESULT_STATUS_ACKED_FINALIZATION_PENDING r)) rows.

Definition mark_sent (command_id : string) (attempt_id : option string) (rows : list result_row)
    : list result_row :=
  List.filter (fun r => negb (has_key (command_id, normalized_attempt_id command_id attempt_id) r)) rows.

(** The new table and whether the result was abandoned. *)
Definition record_failure (now : Z) (command_id error : string) (max_attempts : Z)
    (attempt_id : option string) (rows : list result_row) : list result_row * bool :=
  let k := (command_id, normalized_attempt_id command_id attempt_id) in
  let rows := update_where (fun r => has_key k r && has_status COMMAND_RESULT_STATUS_PENDING r)
    (fun r => r <| x_attempt_count := x_attempt_count r + 1 |> <| x_last_error := Some error |>
                <| x_updated_at := now |>) rows in
  let attempt_count := match find (has_key k) rows with Some r => x_attempt_count r | None => 0 end in
  if Z.max 1 max_attempts <=? attempt_count
  then (update_where (has_key k) (fun r =>
          r <| x_status := COMMAND_RESULT_STATUS_ABANDONED |> <| x_updated_at := now |>) rows, true)
  else (rows, false).

Definition count_status (status : string) (rows : list result_row) : Z :=
  Z.of_nat (length (List.filter (has_status status) rows)).
Definition pending_count := count_status COMMAND_RESULT_STATUS_PENDING.
Definition abandoned_count := count_status COMMAND_RESULT_STATUS_ABANDONED.
Definition finalization_pending_count := count_status COMMAND_RESULT_STATUS_ACKED_FINALIZATION_PENDING.

(** ** Opening the database *)

(** A table with the two columns later versions added, or without; the columns
    a table lacks are empty in its rows. *)
Record sql_table : Type := { t_has_attempt_id : bool; t_has_status : bool; t_rows : list result_row }.

Record database : Type := {
  command_results : option sql_table;
  command_results_legacy : option sql_table;
}.

Definition current_table (rows : list result_row) : sql_table :=
  {| t_has_attempt_id := true; t_has_status := true; t_rows := rows |}.

(** [ensure_columns]: what the database is afterwards, and the exception. *)
Definition ensure_columns (db : database) (t : sql_table) : database * option outbox_error :=
  if negb (t_has_attempt_id t) then
    match command_results_legacy db with
    | Some _ => (db, Some (OperationalError "there is already another table: command_results_legacy"))
    | None =>
        let db := {| command_results := Some (current_table []); command_results_legacy := Some t |} in
        if negb (t_has_status t) then (db, Some (OperationalError "no such column: status"))
        else
          ({| command_results := Some (current_table
                (map (fun r => r <| x_attempt_id := "legacy:" +:+ x_command_id r |>) (t_rows t)));
              command_results_legacy := None |}, None)
    end
  else if negb (t_has_status t) then
    (db <| command_results := Some (current_table
       (map (fun r => r <| x_status := COMMAND_RESULT_STATUS_PENDING |>) (t_rows t))) |>, None)
  else (db, None).

Definition init_schema (db : database) : database * option outbox_error :=
  let t := default (current_table []) (command_results db) in
  ensure_columns (db <| command_results := Some t |>) t.

Definition stored_rows (db : database) : list result_row :=
  match command_results db with Some t => t_rows t | None => [] end.

(** ** Rows by key *)

Definition outbox_wf (rows : list result_row) : Prop := NoDup (row_key <$> rows).

Definition row_at (k : string * string) (rows : list result_row) : option result_row := find (has_key k) rows.

Lemma has_key_true k r : has_key k r = true <-> row_key r = k.
Proof.
  unfold has_key, row_key. destruct k as [c a]. simpl. rewrite andb_true_iff, !String.eqb_eq.
  split; [by intros [-> ->]|by intros [= -> ->]].
Qed.

Lemma has_key_eq k r : has_key k r = bool_decide (row_key r = k).
Proof. apply eq_true_iff_eq. by rewrite bool_decide_eq_true, has_key_true. Qed.

Lemma row_at_elem k rows r : row_at k rows = Some r -> r ∈ rows /\ row_key r = k.
Proof. unfold row_at. intros H. apply find_some in H as [? ?%has_key_true]. by rewrite list_elem_of_In. Qed.

Lemma row_at_None k rows : row_at k rows = None -> k ∉ row_key <$> rows.
Proof.
  intros H (r & -> & Hr)%list_elem_of_fmap. unfold row_at in H. rewrite list_elem_of_In in Hr.
  eapply find_none in H; [|exact Hr]. by apply not_true_iff_false in H as []; apply has_key_true.
Qed.

Lemma elem_row_at rows r : outbox_wf rows -> r ∈ rows -> row_at (row_key r) rows = Some r.
Proof.
  unfold outbox_wf, row_at. induction rows as [|x rows IH]; simpl; intros Hwf Hr; [by apply elem_of_nil in Hr|].
  apply NoDup_cons in Hwf as [Hx Hwf]. rewrite has_key_eq. apply elem_of_cons in Hr as [->|Hr].
  - by rewrite bool_decide_true.
  - rewrite bool_decide_false; [by apply IH|]. intros Heq. apply Hx. rewrite Heq. by apply list_elem_of_fmap_2.
Qed.

(** *** The three shapes of a statement *)

Lemma row_at_update p f k rows :
  (forall r, row_key (f r) = row_key r) ->
  row_at k (update_where p f rows) = (fun r => if p r then f r else r) <$> row_at k rows.
Proof.
  intros Hf. unfold row_at, update_where. induction rows as [|r rows IH]; simpl; [done|].
  replace (has_key k (if p r then f r else r)) with (has_key k r).
  - by destruct (has_key k r).
  - rewrite !has_key_eq. by destruct (p r); rewrite ?Hf.
Qed.

Lemma row_at_filter q k rows : outbox_wf rows ->
  row_at k (List.filter q rows) = (r ← row_at k rows; if q r then Some r else None).
Proof.
  unfold outbox_wf, row_at. induction rows as [|x rows IH]; simpl; intros Hwf; [done|].
  apply NoDup_cons in Hwf as [Hx Hwf]. specialize (IH Hwf).
  destruct (has_key k x) eqn:Hk; destruct (q x) eqn:Hq; simpl; rewrite ?Hk, ?Hq, ?IH; try done.
  destruct (find (has_key k) rows) as [y|] eqn:Hy; [|done]. apply row_at_elem in Hy as [Hin Heq].
  apply has_key_true in Hk. destruct Hx. rewrite Hk, <- Heq. by apply list_elem_of_fmap_2.
Qed.

Lemma row_at_app k rows x : row_at k rows = None ->
  row_at k (rows ++ [x]) = (if has_key k x then Some x else None).
Proof. unfold row_at. induction rows as [|r rows IH]; simpl; [done|]. by destruct (has_key k r). Qed.

Lemma row_at_app_l k rows x r : row_at k rows = Some r -> row_at k (rows ++ [x]) = Some r.
Proof. unfold row_at. induction rows as [|y rows IH]; simpl; [done|]. by destruct (has_key k y). Qed.

Lemma update_wf p f rows : (forall r, row_key (f r) = row_key r) -> outbox_wf rows ->
  outbox_wf (update_where p f rows).
Proof.
  intros Hf. unfold outbox_wf, update_where.
  assert (row_key <$> map (fun r => if p r then f r else r) rows = row_key <$> rows) as ->; [|done].
  induction rows as [|r rows IH]; simpl; [done|]. f_equal; [by destruct (p r); rewrite ?Hf|done].
Qed.

Lemma filter_wf q rows : outbox_wf rows -> outbox_wf (List.filter q rows).
Proof.
  unfold outbox_wf. induction rows as [|r rows IH]; simpl; [done|]. intros [Hr Hwf]%NoDup_cons.
  destruct (q r); [|by apply IH]. apply NoDup_cons. split; [|by apply IH].
  intros (x & Hx & Hin)%list_elem_of_fmap. apply Hr. rewrite Hx. apply list_elem_of_fmap_2.
  rewrite list_elem_of_In in *. by apply filter_In in Hin as [? _].
Qed.

(** *** What each operation does to a row *)

Lemma enqueue_result_wf now c w l a res att rows :
  outbox_wf rows -> outbox_wf (enqueue_result now c w l a res att rows).
Proof.
  intros Hwf. unfold enqueue_result. destruct (existsb _ _) eqn:E; [by apply update_wf|].
  unfold outbox_wf. rewrite fmap_app. apply NoDup_app. split_and!; [done| |apply NoDup_singleton].
  intros k Hk ->%list_elem_of_singleton. apply not_true_iff_false in E. apply E, existsb_exists.
  apply list_elem_of_fmap in Hk as (r & Hr & Hin). rewrite list_elem_of_In in Hin. exists r.
  split; [done|]. by apply has_key_true.
Qed.

Lemma enqueue_row_at now c w l a res att rows :
  exists r, row_at (c, normalized_attempt_id c att) (enqueue_result now c w l a res att rows) = Some r
    /\ x_workspace_id r = w /\ x_lease_id r = l /\ x_agent_id r = a /\ x_result_json r = JObj res
    /\ x_status r = COMMAND_RESULT_STATUS_PENDING.
Proof.
  unfold enqueue_result. set (k := (c, _)). destruct (existsb _ _) eqn:E.
  - rewrite row_at_update by done. destruct (row_at k rows) as [r|] eqn:Hr.
    + simpl. apply row_at_elem in Hr as [_ Hk%has_key_true]. rewrite Hk. eauto 10.
    + apply existsb_exists in E as (r & Hin & Hk). apply row_at_None in Hr. destruct Hr.
      apply has_key_true in Hk. rewrite <- Hk. apply list_elem_of_fmap_2. by rewrite list_elem_of_In.
  - rewrite row_at_app.
    + rewrite (proj2 (has_key_true _ _)) by done. eauto 10.
    + unfold row_at. destruct (find _ rows) as [r|] eqn:Hf; [|done]. apply find_some in Hf as [Hin Hk].
      apply not_true_iff_false in E. destruct E. apply existsb_exists. eauto.
Qed.

Lemma enqueue_row_other now c w l a res att rows k :
  k <> (c, normalized_attempt_id c att) ->
  row_at k (enqueue_result now c w l a res att rows) = row_at k rows.
Proof.
  intros Hne. unfold enqueue_result. destruct (existsb _ _) eqn:E.
  - rewrite row_at_update by done. destruct (row_at k rows) as [r|] eqn:Hr; [|done]. simpl.
    apply row_at_elem in Hr as [_ Hk]. by rewrite has_key_eq, bool_decide_false by congruence.
  - destruct (row_at k rows) as [r|] eqn:Hr; [by apply row_at_app_l|].
    rewrite row_at_app by done. by rewrite has_key_eq, bool_decide_false.
Qed.

Lemma normalized_Some c a : a <> "" -> normalized_attempt_id c (Some a) = a.
Proof. intros Ha. unfold normalized_attempt_id, truthy. by rewrite (proj2 (String.eqb_neq _ _) Ha). Qed.

(** The record [next_result] returns is the row of its key. *)
Definition record_of (rec : CommandResultRecord) (rows : list result_row) (status : string) : Prop :=
  exists r, row_at (cr_command_id rec, cr_attempt_id rec) rows = Some r /\ command_result_record r = rec
    /\ x_status r = status.

Lemma first_by_elem f rows r : first_by f rows = Some r -> r ∈ rows.
Proof.
  revert r. induction rows as [|x rows IH]; simpl; intros r H; [done|].
  destruct (first_by f rows) as [y|]; [|by injection H as ->; left].
  destruct (f y <? f x); injection H as <-; [right; by apply IH|left].
Qed.

Lemma first_by_le f rows r x : first_by f rows = Some r -> x ∈ rows -> f r <= f x.
Proof.
  revert r x. induction rows as [|y rows IH]; simpl; intros r x H Hx; [done|].
  apply elem_of_cons in Hx. destruct (first_by f rows) as [z|] eqn:Hz.
  - destruct (f z <? f y) eqn:Hlt; bool_to_prop; injection H as <-;
      destruct Hx as [->|Hx]; [lia|by apply IH|lia|]. specialize (IH z x eq_refl Hx). lia.
  - injection H as <-. destruct Hx as [->|Hx]; [lia|]. destruct rows; [by apply elem_of_nil in Hx|].
    simpl in Hz. by repeat case_match.
Qed.

Lemma first_by_None f rows : first_by f rows = None -> rows = [].
Proof. destruct rows; [done|]. simpl. by repeat case_match. Qed.

Lemma select_first_record status f rows rec :
  outbox_wf rows -> select_first status f rows = Some rec -> record_of rec rows status.
Proof.
  unfold select_first. intros Hwf H. apply fmap_Some in H as (r & Hr%first_by_elem & ->).
  rewrite list_elem_of_In, filter_In, <- list_elem_of_In in Hr. destruct Hr as [Hin Hs].
  exists r. split_and!; [|done|by apply String.eqb_eq]. by apply (elem_row_at rows r).
Qed.

Lemma select_first_None status f rows r :
  select_first status f rows = None -> r ∈ rows -> x_status r <> status.
Proof.
  unfold select_first. intros H Hr Hs. apply fmap_None, first_by_None in H.
  assert (r ∈ List.filter (has_status status) rows) as Hin; [|rewrite H in Hin; by apply elem_of_nil in Hin].
  rewrite list_elem_of_In, filter_In, <- list_elem_of_In. split; [done|]. by apply String.eqb_eq.
Qed.

Lemma mark_sent_wf c att rows : outbox_wf rows -> outbox_wf (mark_sent c att rows).
Proof. apply filter_wf. Qed.

Lemma mark_sent_row_at c att rows k : outbox_wf rows ->
  row_at k (mark_sent c att rows)
  = if bool_decide (k = (c, normalized_attempt_id c att)) then None else row_at k rows.
Proof.
  intros Hwf. unfold mark_sent. rewrite row_at_filter by done.
  destruct (row_at k rows) as [r|] eqn:Hr; [|by case_bool_decide]. simpl.
  apply row_at_elem in Hr as [_ Hk]. rewrite has_key_eq, Hk. by case_bool_decide.
Qed.

Lemma mark_finalized_wf c att rows : outbox_wf rows -> outbox_wf (mark_finalized c att rows).
Proof. apply filter_wf. Qed.

Lemma mark_finalized_row_at c att rows k : outbox_wf rows ->
  row_at k (mark_finalized c att rows)
  = (r ← row_at k rows;
     if bool_decide (k = (c, normalized_attempt_id c att))
        && has_status COMMAND_RESULT_STATUS_ACKED_FINALIZATION_PENDING r then None else Some r).
Proof.
  intros Hwf. unfold mark_finalized. rewrite row_at_filter by done.
  destruct (row_at k rows) as [r|] eqn:Hr; [|done]. simpl.
  apply row_at_elem in Hr as [_ Hk]. rewrite has_key_eq, Hk. by destruct (_ && _).
Qed.

Lemma mark_acknowledged_inv now c att rows rows' :
  mark_acknowledged_for_finalization now c att rows = Ok rows' ->
  (outbox_wf rows -> outbox_wf rows')
  /\ forall k, row_at k rows'
     = (fun r => if has_key (c, normalized_attempt_id c att) r && has_status COMMAND_RESULT_STATUS_PENDING r
                 then r <| x_status := COMMAND_RESULT_STATUS_ACKED_FINALIZATION_PENDING |>
                        <| x_last_error := None |> <| x_updated_at := now |>
                 else r) <$> row_at k rows.
Proof.
  unfold mark_acknowledged_for_finalization. destruct (_ =? 1)%nat; [|done]. intros [= <-].
  split; [by apply update_wf|]. intros k. by apply row_at_update.
Qed.

(** *** A failed report *)

Definition failed_once (now : Z) (error : string) (r : result_row) : result_row :=
  r <| x_attempt_count := x_attempt_count r + 1 |> <| x_last_error := Some error |> <| x_updated_at := now |>.

Definition after_failure (now : Z) (error : string) (max_attempts : Z) (r : result_row) : result_row :=
  let r := if has_status COMMAND_RESULT_STATUS_PENDING r then failed_once now error r else r in
  if Z.max 1 max_attempts <=? x_attempt_count r
  then r <| x_status := COMMAND_RESULT_STATUS_ABANDONED |> <| x_updated_at := now |> else r.

Lemma record_failure_wf now c e m att rows :
  outbox_wf rows -> outbox_wf (record_failure now c e m att rows).1.
Proof. intros Hwf. unfold record_failure. cbv zeta. destruct (_ <=? _); simpl; auto using update_wf. Qed.

(** One statement in all: the counted failure, and the abandonment it causes. *)
Lemma record_failure_update now c e m att rows : outbox_wf rows ->
  (record_failure now c e m att rows).1
  = update_where (has_key (c, normalized_attempt_id c att)) (after_failure now e m) rows.
Proof.
  intros Hwf. unfold record_failure. cbv zeta. set (k := (c, _)). set (once := update_where _ _ rows).
  assert (Honce : row_at k once = (fun r => if has_status COMMAND_RESULT_STATUS_PENDING r
                                            then failed_once now e r else r) <$> row_at k rows).
  { unfold once. rewrite row_at_update by done. destruct (row_at k rows) as [r|] eqn:Hr; [|done]. simpl.
    apply row_at_elem in Hr as [_ ->%has_key_true]. done. }
  fold (row_at k once). rewrite Honce. destruct (row_at k rows) as [r0|] eqn:Hr0; simpl.
  - assert (Hx : forall x, x ∈ rows -> has_key k x = true -> x = r0).
    { intros x Hin Hk%has_key_true. apply (elem_row_at _ _ Hwf) in Hin. congruence. }
    destruct (Z.max 1 m <=? _) eqn:E; simpl; unfold once, update_where; rewrite ?map_map;
      apply map_ext_in; intros x Hin%list_elem_of_In; destruct (has_key k x) eqn:Hk; simpl;
      rewrite ?Hk; try done; pose proof (Hx x Hin Hk) as ->; unfold after_failure; fold (failed_once now e r0);
      destruct (has_status _ r0); simpl; change (has_key k (failed_once now e r0)) with (has_key k r0);
      rewrite ?Hk; simpl in E; rewrite E; done.
  - destruct (Z.max 1 m <=? 0) eqn:E; bool_to_prop; [lia|]. simpl.
    unfold once, update_where. apply map_ext_in. intros x Hin%list_elem_of_In.
    destruct (has_key k x) eqn:Hk; [|done]. apply row_at_None in Hr0. destruct Hr0.
    apply has_key_true in Hk as <-. by apply list_elem_of_fmap_2.
Qed.

Lemma after_failure_key now e m r : row_key (after_failure now e m r) = row_key r.
Proof. unfold after_failure. destruct (has_status _ r); simpl; by destruct (_ <=? _). Qed.

Lemma record_failure_row_at now c e m att rows k : outbox_wf rows ->
  row_at k (record_failure now c e m att rows).1
  = (fun r => if bool_decide (k = (c, normalized_attempt_id c att)) then after_failure now e m r else r)
      <$> row_at k rows.
Proof.
  intros Hwf. rewrite record_failure_update, row_at_update by (auto using after_failure_key).
  destruct (row_at k rows) as [r|] eqn:Hr; [|done]. apply row_at_elem in Hr as [_ Hk]. simpl.
  by rewrite has_key_eq, Hk.
Qed.

(** *** How many reports a table can still make *)

Definition row_budget (max_attempts : Z) (r : result_row) : Z :=
  if has_status COMMAND_RESULT_STATUS_PENDING r
  then Z.max 1 (Z.max 1 max_attempts - x_attempt_count r) else 0.

Definition budget (max_attempts : Z) (rows : list result_row) : Z :=
  foldr (fun r n => row_budget max_attempts r + n) 0 rows.

Lemma row_budget_nonneg m r : 0 <= row_budget m r.
Proof. unfold row_budget. destruct (has_status _ _); lia. Qed.

Lemma budget_nonneg m rows : 0 <= budget m rows.
Proof. induction rows as [|r rows IH]; simpl; [done|]. pose proof (row_budget_nonneg m r). lia. Qed.

(** Two tables that differ in the row of one key only. *)
Lemma budget_update m k f rows r : outbox_wf rows -> row_at k rows = Some r ->
  budget m (update_where (has_key k) f rows) = budget m rows - row_budget m r + row_budget m (f r).
Proof.
  unfold outbox_wf, row_at. intros Hwf Hr. induction rows as [|x rows IH]; simpl in *; [done|].
  apply NoDup_cons in Hwf as [Hx Hwf]. destruct (has_key k x) eqn:Hk; [|specialize (IH Hwf Hr); lia].
  injection Hr as ->. assert (update_where (has_key k) f rows = rows) as ->; [|lia].
  rewrite <- (map_id rows) at 2. apply map_ext_in. intros y Hy%list_elem_of_In.
  rewrite has_key_eq, bool_decide_false; [done|]. intros Heq. apply Hx.
  apply has_key_true in Hk. rewrite Hk, <- Heq. by apply list_elem_of_fmap_2.
Qed.

Lemma budget_delete m k rows r : outbox_wf rows -> row_at k rows = Some r ->
  budget m (List.filter (fun r => negb (has_key k r)) rows) <= budget m rows - row_budget m r.
Proof.
  intros _. unfold row_at. revert r. induction rows as [|x rows IH]; simpl; intros r Hr; [done|].
  pose proof (row_budget_nonneg m x). destruct (has_key k x) eqn:Hk; simpl.
  - injection Hr as ->. destruct (find (has_key k) rows) as [y|] eqn:Hy.
    + specialize (IH y eq_refl). pose proof (row_budget_nonneg m y). lia.
    + assert (List.filter (fun r => negb (has_key k r)) rows = rows) as ->; [|lia].
      apply forallb_filter_id, forallb_forall. intros z Hz.
      by rewrite (find_none _ _ Hy z Hz).
  - specialize (IH r Hr). lia.
Qed.

(** Each report of the first pending result, acknowledged or failed, uses up
    part of the budget. *)
Lemma sent_budget m rows rec : outbox_wf rows -> next_result rows = Some rec -> cr_attempt_id rec <> "" ->
  budget m (mark_sent (cr_command_id rec) (Some (cr_attempt_id rec)) rows) < budget m rows.
Proof.
  intros Hwf (r & Hr & <- & Hs)%select_first_record Ha; [|done]. unfold mark_sent.
  rewrite normalized_Some by done. pose proof (budget_delete m _ _ _ Hwf Hr).
  unfold row_budget, has_status in *. rewrite Hs in *. simpl in *. lia.
Qed.

Lemma failure_budget now e m rows rec :
  outbox_wf rows -> next_result rows = Some rec -> cr_attempt_id rec <> "" ->
  budget m (record_failure now (cr_command_id rec) e m (Some (cr_attempt_id rec)) rows).1 < budget m rows.
Proof.
  intros Hwf (r & Hr & <- & Hs)%select_first_record Ha; [|done].
  rewrite record_failure_update, normalized_Some, (budget_update _ _ _ _ _ Hwf Hr) by done.
  unfold row_budget at 1 2, after_failure, has_status. rewrite Hs. simpl.
  destruct (Z.max 1 m <=? _) eqn:E; simpl; bool_to_prop; [lia|]. rewrite Hs. simpl. lia.
Qed.

(** ** The migration *)

(** A database that has at least one of the two columns is opened with every
    result it held; one from before both is not opened, and the next start
    opens an empty table beside the results it leaves behind. *)
Lemma migration db t : command_results db = Some t -> command_results_legacy db = None ->
  let (db', e) := init_schema db in
  (t_has_attempt_id t = true \/ t_has_status t = true ->
    e = None /\ command_results_legacy db' = None
    /\ map x_result_json (stored_rows db') = map x_result_json (t_rows t)
    /\ init_schema db' = (db', None))
  /\ (t_has_attempt_id t = false -> t_has_status t = false ->
    e = Some (OperationalError "no such column: status") /\ command_results_legacy db' = Some t
    /\ init_schema db' = (db', None) /\ stored_rows db' = []).
Proof.
  destruct db as [cur leg]. simpl. intros -> ->. destruct t as [[] [] rows]; unfold init_schema; simpl.
  - split; [done|]. done.
  - split; [|done]. intros _. split_and!; [done|done| |done]. unfold stored_rows. simpl. by rewrite map_map.
  - split; [|done]. intros _. split_and!; [done|done| |done]. unfold stored_rows. simpl. by rewrite map_map.
  - split; [by intros [|]|]. done.
Qed.
