(* ===== verification/CommandEndpoints.v ===== *)
(** The agent's side of the API gateway ([agent_router] of
    [domains/command/router.py], the token guard of
    [domains/identity/dependencies.py], the registration rows of
    [domains/identity/repository.py]): poll, start and result of a command.

    A handler is a sequence of database transactions with awaits in between,
    so a request being served is an [exchange] in a stage, and [serve] is the
    next transaction: the token check, the read of the command, the lease,
    start or completion, the revocation of the registration.  Transactions of
    other requests may come between any two.  [draws] holds what a transaction
    takes from outside: the clock, [uuid4] and [event()].

    FastAPI's body validation and SHA-256 are parameters.  The announcement of
    operation events to the broker leaves no trace here; it may raise, like any
    transaction ([AgentLoop]). *)

From S2P Require Import Prelude PyString Json EventStore CommandLifecycle CommandCatalog CommandStore.
From S2P Require Import CommandHandler Uninstall.
From coqutil Require Import Datatypes.RecordSettersUsingExistingGetters.
#[global] Open Scope Z_scope.

(** ** Registrations *)

Inductive ClusterRegistrationStatus : Type :=
| REGISTERED | PENDING_INSTALL | INSTALL_APPLIED | INSTALL_FAILED | INSTALL_EXPIRED
| UNINSTALL_REQUESTED | DISCONNECTED.

#[export] Instance registration_status_eq_dec : EqDecision ClusterRegistrationStatus.
Proof. solve_decision. Defined.

Record ClusterRegistration : Type := {
  g_workspace_id : string; g_cluster_id : string; g_name : string; g_environment : string;
  g_status : ClusterRegistrationStatus; g_agent_token_hash : option string;
  g_envelope_public_key : option string; g_envelope_private_key : option string;
  g_settings : odict json;
}.

Record plane : Type := { p_store : store; p_registrations : list ClusterRegistration }.

Record ClusterAgentIdentity : Type := { i_workspace_id : string; i_cluster_id : string }.

Definition authenticate_cluster_agent (token_hash : string) (p : plane) : option ClusterAgentIdentity :=
  if String.eqb token_hash "" then None else
  (fun g => {| i_workspace_id := g_workspace_id g; i_cluster_id := g_cluster_id g |}) <$>
  find (fun g => bool_decide (g_agent_token_hash g = Some token_hash)
                 && bool_decide (g_status g ∈ [PENDING_INSTALL; INSTALL_APPLIED; INSTALL_FAILED; REGISTERED;
                                               UNINSTALL_REQUESTED]))
       (p_registrations p).

Definition is_registration (workspace_id cluster_id : string) (g : ClusterRegistration) : bool :=
  String.eqb (g_workspace_id g) workspace_id && String.eqb (g_cluster_id g) cluster_id.

(** The columns [is_management_registration] can read. *)
Definition get_cluster_registration (workspace_id cluster_id : string) (p : plane) : option (odict json) :=
  (fun g => [("workspace_id", JStr (g_workspace_id g)); ("cluster_id", JStr (g_cluster_id g));
             ("name", JStr (g_name g)); ("environment", JStr (g_environment g));
             ("settings", JObj (g_settings g))]) <$>
  find (is_registration workspace_id cluster_id) (p_registrations p).

Definition unregister_target_cluster (workspace_id cluster_id : string) (p : plane) : plane * bool :=
  let hit := is_registration workspace_id cluster_id in
  ({| p_store := p_store p;
      p_registrations := update_where hit (fun g =>
        g <| g_status := DISCONNECTED |> <| g_agent_token_hash := None |> <| g_envelope_public_key := None |>
          <| g_envelope_private_key := None |>) (p_registrations p) |},
   existsb hit (p_registrations p)).

(** ** Requests *)

Record CommandResultRequest : Type := {
  q_status : string; q_cluster_id : string; q_result_workspace_id : string; q_agent_id : string;
  q_lease_id : string; q_attempt_id : option string; q_applied : bool; q_message : string;
  q_retryable : bool; q_resources : list (odict json); q_stdout : string; q_stderr : string;
  q_cleanup_completed : bool; q_cleanup_resources : list string; q_residual_resources : list string;
  q_resource_file : option (odict json); q_extra : odict json;
}.

Definition model_dump (p : CommandResultRequest) : odict json :=
  [("status", JStr (q_status p)); ("cluster_id", JStr (q_cluster_id p));
   ("workspace_id", JStr (q_result_workspace_id p)); ("agent_id", JStr (q_agent_id p));
   ("lease_id", JStr (q_lease_id p)); ("attempt_id", json_opt_str (q_attempt_id p));
   ("applied", JBool (q_applied p)); ("message", JStr (q_message p)); ("retryable", JBool (q_retryable p));
   ("resources", JArr (map JObj (q_resources p))); ("stdout", JStr (q_stdout p));
   ("stderr", JStr (q_stderr p)); ("cleanup_completed", JBool (q_cleanup_completed p));
   ("cleanup_resources", JArr (map JStr (q_cleanup_resources p)));
   ("residual_resources", JArr (map JStr (q_residual_resources p)));
   ("resource_file", match q_resource_file p with Some f => JObj f | None => JNull end)]
  ++ q_extra p.

(** The result as the store gets it: the identity is the token's. *)
Definition reported_result (id : ClusterAgentIdentity) (p : CommandResultRequest) : odict json :=
  dict_set "cluster_id" (JStr (i_cluster_id id)) (dict_set "workspace_id" (JStr (i_workspace_id id)) (model_dump p)).

Inductive agent_request : Type :=
| PollCommand (agent_id : string)
| StartCommand (command_id agent_id lease_id : string) (attempt_id : option string)
| ReportResult (command_id : string) (body : odict json).

Inductive reply : Type :=
| Polled (command : option AgentCommand)
| StartedReply (correlation_id : string)
| ResultAccepted (event_id : string)
| HTTPError (status_code : Z).

Inductive serving : Type :=
| Received (token : string)
| Authorized (id : ClusterAgentIdentity)
| Checked (id : ClusterAgentIdentity) (payload : CommandResultRequest) (row : AgentCommand)
| Committed (id : ClusterAgentIdentity) (payload : CommandResultRequest) (row : AgentCommand) (event_id : string)
| Replaying (id : ClusterAgentIdentity) (payload : CommandResultRequest) (event_id : string)
| Replied (r : reply).

Record exchange : Type := { e_request : agent_request; e_stage : serving }.

Record draws : Type := { d_now : Z; d_lease_id : string; d_event_id : string; d_created_at : string }.

(** ** Handlers *)

(** The allowlist receipt the server revokes a registration for. *)
Definition verified_cleanup (p : CommandResultRequest) : bool :=
  String.eqb (q_status p) "completed" && q_cleanup_completed p
  && bool_decide (q_cleanup_resources p = UNINSTALL_CLEANUP_RESOURCE_REFS)
  && bool_decide (q_residual_resources p = []).

Definition uninstall_result (row : AgentCommand) : bool :=
  String.eqb (c_action row) Command.CLUSTER_AGENT_UNINSTALL_ACTION.

Definition replayed_verified_uninstall (row : AgentCommand) (p : CommandResultRequest) : bool :=
  uninstall_result row && bool_decide (c_status row = COMPLETED) && verified_cleanup p
  && is_agent_uninstall_cleanup_result (c_result row).

Section Handlers.
Context (sha256_hex : string -> string) (specs : catalog) (int_of_text : string -> option Z).
Context (validate : odict json -> option CommandResultRequest) (LEASE_SECONDS : Z).

Definition require_cluster_agent (token : string) (p : plane) : option ClusterAgentIdentity :=
  if String.eqb token "" then None else authenticate_cluster_agent (sha256_hex token) p.

Definition with_store (p : plane) (st : store) : plane :=
  {| p_store := st; p_registrations := p_registrations p |}.

Definition until (d : draws) : Z := d_now d + LEASE_SECONDS * SECOND.

(** One look of the long poll, which ends it when it leases a command and
    when the time is up. *)
Definition poll_command (d : draws) (id : ClusterAgentIdentity) (agent_id : string) (p : plane)
    : plane * serving :=
  match lease_agent_command (d_now d) (until d) (i_cluster_id id) (i_workspace_id id) agent_id
          (d_lease_id d) (p_store p) with
  | Ok (st, leased) => (with_store p st, Replied (Polled (fst <$> leased)))
  | Err _ => (p, Replied (HTTPError 500))
  end.

Definition command_start (d : draws) (id : ClusterAgentIdentity) (command_id agent_id lease_id : string)
    (attempt_id : option string) (p : plane) : plane * serving :=
  match start_agent_command (d_now d) (until d) command_id (i_workspace_id id) (i_cluster_id id) lease_id
          agent_id attempt_id (p_store p) with
  | Ok (st, Some (correlation, _)) =>
      (with_store p st,
       Replied (if String.eqb correlation "" then HTTPError 404 else StartedReply correlation))
  | Ok (st, None) => (with_store p st, Replied (HTTPError 404))
  | Err _ => (p, Replied (HTTPError 500))
  end.

(** [command_result] up to the completion: validation, the command, the
    management guard. *)
Definition result_read (id : ClusterAgentIdentity) (command_id : string) (body : odict json) (p : plane)
    : serving :=
  match validate body with
  | None => Replied (HTTPError 422)
  | Some payload =>
      match find_command (i_workspace_id id) command_id (p_store p) with
      | None => Replied (HTTPError 404)
      | Some row =>
          if negb (String.eqb (c_cluster_id row) (i_cluster_id id)) then Replied (HTTPError 404)
          else if uninstall_result row
                  && is_management_registration
                       (get_cluster_registration (i_workspace_id id) (i_cluster_id id) p)
          then Replied (HTTPError 400)
          else Checked id payload row
      end
  end.

Definition result_commit (d : draws) (id : ClusterAgentIdentity) (command_id : string)
    (payload : CommandResultRequest) (row : AgentCommand) (p : plane) : plane * serving :=
  match complete_agent_command_and_stage_event specs int_of_text (d_now d) command_id (i_workspace_id id)
          (i_cluster_id id) (reported_result id payload) (q_lease_id payload) (q_agent_id payload)
          "api-gateway" (q_attempt_id payload) (d_event_id d) (d_created_at d) (Some (i_workspace_id id))
          (p_store p) with
  | Ok (st, Some (evt, _)) => (with_store p st, Committed id payload row (event_id evt))
  | Ok (st, None) =>
      (with_store p st,
       if replayed_verified_uninstall row payload
       then Replaying id payload (default command_id (truthy (c_terminal_event_id row)))
       else Replied (HTTPError 404))
  | Err _ => (p, Replied (HTTPError 500))
  end.

Definition revoke (id : ClusterAgentIdentity) (event_id : string) (p : plane) : plane * serving :=
  let (p, revoked) := unregister_target_cluster (i_workspace_id id) (i_cluster_id id) p in
  (p, Replied (if revoked then ResultAccepted event_id else HTTPError 500)).

Definition serve (d : draws) (p : plane) (e : exchange) : plane * serving :=
  match e_stage e with
  | Received token =>
      (p, match require_cluster_agent token p with
          | Some id => Authorized id
          | None => Replied (HTTPError 401)
          end)
  | Authorized id =>
      match e_request e with
      | PollCommand agent_id => poll_command d id agent_id p
      | StartCommand command_id agent_id lease_id attempt_id =>
          command_start d id command_id agent_id lease_id attempt_id p
      | ReportResult command_id body => (p, result_read id command_id body p)
      end
  | Checked id payload row =>
      match e_request e with
      | ReportResult command_id _ => result_commit d id command_id payload row p
      | _ => (p, e_stage e)
      end
  | Committed id payload row event_id =>
      if uninstall_result row && verified_cleanup payload then revoke id event_id p
      else (p, Replied (ResultAccepted event_id))
  | Replaying id _ event_id => revoke id event_id p
  | Replied r => (p, Replied r)
  end.
End Handlers.
