(* ===== verification/AgentLoop.v ===== *)
(** The agent's command loop ([poll_commands], [flush_command_results_once],
    [flush_command_results_forever], [retry_agent_uninstall_finalization] of
    [cluster-agent/agent.py]) talking to the management plane over HTTP.

    Two tasks of one event loop flush the outbox: the poller after each command
    it executed, and the flusher on its timer.  A task is where it awaits: a
    reply, a Kubernetes call, or its next turn; everything between two awaits
    is one step.  A request in flight is an exchange of [CommandEndpoints] and
    may be lost, served, fail with a 500 in any stage, or answered after its
    client gave up.  The process may die at any await and start again; the
    outbox is on disk.  The rest of the management plane is any operation of
    the command store and any change of the registrations.

    The result of an execution is whatever [execute_command] returned. *)

From S2P Require Import Prelude PyString Json EventStore CommandLifecycle CommandCatalog CommandStore.
From S2P Require Import CommandRuns CommandSafety Uninstall AgentOutbox CommandEndpoints.
From coqutil Require Import Datatypes.RecordSettersUsingExistingGetters.
#[global] Open Scope Z_scope.

(** ** Reporting one result *)

(** What a call of the client raises. *)
Inductive call_error : Type := HTTPStatusError (status_code : Z) | OtherError (text : string).

Definition is_legacy (attempt_id : string) : bool := String.prefix "legacy:" attempt_id.

(** The body of [complete_command]: the attempt is left out when it is the
    placeholder of a result without one. *)
Definition completion_body (rec : CommandResultRecord) : odict json :=
  dict_update (cr_result rec)
    ([("workspace_id", JStr (cr_workspace_id rec)); ("agent_id", JStr (cr_agent_id rec));
      ("lease_id", JStr (cr_lease_id rec))]
     ++ if is_legacy (cr_attempt_id rec) || String.eqb (cr_attempt_id rec) "" then []
        else [("attempt_id", JStr (cr_attempt_id rec))]).

Definition report_request (rec : CommandResultRecord) : agent_request :=
  ReportResult (cr_command_id rec) (completion_body rec).

Definition should_finalize_uninstall_after_lost_ack (rec : CommandResultRecord) (exc : call_error) : bool :=
  (0 <? cr_attempt_count rec) && is_agent_uninstall_cleanup_result (cr_result rec)
  && match exc with HTTPStatusError code => (code =? 401) || (code =? 404) | OtherError _ => false end.

Inductive flush_outcome : Type := ToFinalize | Returned (flushed : bool) | Raised.

Section Settle.
(** [COMMAND_OUTBOX_MAX_ATTEMPTS]; [str] of an [HTTPStatusError]. *)
Context (MAX_ATTEMPTS : Z) (status_text : Z -> string).

Definition error_text (exc : call_error) : string :=
  match exc with HTTPStatusError code => status_text code | OtherError text => text end.

(** The [except] block. *)
Definition report_failed (now : Z) (rec : CommandResultRecord) (exc : call_error) (rows : list result_row)
    : list result_row * flush_outcome :=
  if should_finalize_uninstall_after_lost_ack rec exc then
    match mark_acknowledged_for_finalization now (cr_command_id rec) (Some (cr_attempt_id rec)) rows with
    | Ok rows => (rows, ToFinalize)
    | Err _ => (rows, Raised)
    end
  else
    ((record_failure now (cr_command_id rec) (error_text exc) MAX_ATTEMPTS (Some (cr_attempt_id rec)) rows).1,
     Returned false).

(** What follows the answer to [complete_command]. *)
Definition report_answered (now : Z) (rec : CommandResultRecord) (answer : result call_error unit)
    (rows : list result_row) : list result_row * flush_outcome :=
  match answer with
  | Err exc => report_failed now rec exc rows
  | Ok _ =>
      if is_agent_uninstall_cleanup_result (cr_result rec) then
        match mark_acknowledged_for_finalization now (cr_command_id rec) (Some (cr_attempt_id rec)) rows with
        | Ok rows => (rows, ToFinalize)
        | Err _ => report_failed now rec (OtherError "command result cannot enter finalization state") rows
        end
      else (mark_sent (cr_command_id rec) (Some (cr_attempt_id rec)) rows, Returned true)
  end.

(** [retry_agent_uninstall_finalization] once the Kubernetes call answered. *)
Definition finalization_answered (rec : CommandResultRecord) (deleted : option unit) (rows : list result_row)
    : list result_row :=
  match deleted with
  | Some _ => mark_finalized (cr_command_id rec) (Some (cr_attempt_id rec)) rows
  | None => rows
  end.

(** [response.raise_for_status()]. *)
Definition raise_for_status (r : reply) : result call_error unit :=
  match r with HTTPError code => Err (HTTPStatusError code) | _ => Ok tt end.

(** ** The agent *)

Inductive flush : Type :=
| Resting
| Reporting (rid : nat) (rec : CommandResultRecord)
| Finalizing (rec : CommandResultRecord).

Inductive poller : Type :=
| Polling
| AwaitingCommand (rid : nat)
| AwaitingStart (rid : nat) (command : AgentCommand)
| Executing (command : AgentCommand)
| Flushing (f : flush).

Record world : Type := {
  w_plane : plane;
  w_outbox : list result_row;
  w_poller : poller;
  w_flusher : flush;
  w_network : gmap nat exchange;
  w_next : nat;
}.

Inductive task : Type := Poller | Flusher.

Definition flush_of (t : task) (w : world) : flush :=
  match t with
  | Poller => match w_poller w with Flushing f => f | _ => Resting end
  | Flusher => w_flusher w
  end.

(** The poller polls again when its flush is over. *)
Definition set_flush (t : task) (f : flush) (w : world) : world :=
  match t with
  | Poller => w <| w_poller := match f with Resting => Polling | _ => Flushing f end |>
  | Flusher => w <| w_flusher := f |>
  end.

Definition set_outbox (rows : list result_row) (w : world) : world := w <| w_outbox := rows |>.
Definition with_network (f : gmap nat exchange -> gmap nat exchange) (w : world) : world :=
  w <| w_network ::= f |>.
Definition set_poller (p : poller) (w : world) : world := w <| w_poller := p |>.
Definition set_plane (p : plane) (w : world) : world := w <| w_plane := p |>.

(** A request is sent under a new number. *)
Definition send (token : string) (q : agent_request) (w : world) : world :=
  w <| w_network ::= <[w_next w := {| e_request := q; e_stage := Received token |}]> |>
    <| w_next := S (w_next w) |>.

(** [flush_command_results_once] up to its first await. *)
Definition flush_command_results_once (token : string) (t : task) (w : world) : world :=
  match next_finalization (w_outbox w) with
  | Some rec => set_flush t (Finalizing rec) w
  | None =>
      match next_result (w_outbox w) with
      | None => set_flush t Resting w
      | Some rec => set_flush t (Reporting (w_next w) rec) (send token (report_request rec) w)
      end
  end.

(** The process died: the tasks are gone, the disk is not. *)
Definition restart (w : world) : world := w <| w_poller := Polling |> <| w_flusher := Resting |>.

(** After the answer to a report.  An exception that escapes the flush is
    caught by the poller's loop; in the flusher it ends the [gather], and with
    it the process. *)
Definition settle (t : task) (now : Z) (rec : CommandResultRecord) (answer : result call_error unit)
    (w : world) : world :=
  let '(rows, outcome) := report_answered now rec answer (w_outbox w) in
  let w := set_outbox rows w in
  match outcome with
  | ToFinalize => set_flush t (Finalizing rec) w
  | Returned _ => set_flush t Resting w
  | Raised => match t with Poller => set_flush t Resting w | Flusher => restart w end
  end.

Definition escaped (t : task) (now : Z) (rec : CommandResultRecord) (answer : result call_error unit)
    (w : world) : bool :=
  match t, (report_answered now rec answer (w_outbox w)).2 with Flusher, Raised => true | _, _ => false end.

Definition start_request (agent_id : string) (command : AgentCommand) : agent_request :=
  StartCommand (c_command_id command) agent_id (default "" (c_lease_id command))
    (truthy (c_active_attempt_id command)).

Definition enqueue_executed (now : Z) (agent_id : string) (command : AgentCommand) (result : odict json)
    (w : world) : world :=
  set_outbox (enqueue_result now (c_command_id command) (c_workspace_id command)
                (default "" (c_lease_id command)) agent_id result
                (truthy (c_active_attempt_id command)) (w_outbox w)) w.

Inductive label : Type :=
| Silent
| Executes (command : AgentCommand)
| Enqueues (command : AgentCommand) (result : odict json)
| Finalizes (rec : CommandResultRecord)
| Dies.
End Settle.

(** ** Steps *)

Section Loop.
Context (sha256_hex quote : string -> string) (specs : catalog) (int_of_text : string -> option Z).
Context (timestamp_of : string -> Z) (uuid5 clock_text : string -> string).
Context (validate : odict json -> option CommandResultRequest) (LEASE_SECONDS MAX_ATTEMPTS : Z).
Context (status_text : Z -> string) (token agent_id : string).

(** The identifiers the server draws for attempts: new, not empty, and not the
    agent's placeholder for a missing one. *)
Definition proper_attempt (a : string) : Prop := a <> "" /\ is_legacy a = false.

Definition plane_op (st : store) (o : command_op) (st' : store) : Prop :=
  command_step sha256_hex quote specs int_of_text timestamp_of uuid5 clock_text st o st'
  /\ fresh o st /\ (forall a, drawn o = Some a -> proper_attempt a).

Definition serve_request := serve sha256_hex specs int_of_text validate LEASE_SECONDS.

(** The process is up to its next await. *)
Inductive agent_step (w : world) : label -> world -> Prop :=
(* The rest of the management plane. *)
| step_plane o st' :
    plane_op (p_store (w_plane w)) o st' ->
    agent_step w Silent (set_plane {| p_store := st'; p_registrations := p_registrations (w_plane w) |} w)
| step_registry gs :
    agent_step w Silent (set_plane {| p_store := p_store (w_plane w); p_registrations := gs |} w)
(* The network and the gateway. *)
| step_serve rid e d p s :
    w_network w !! rid = Some e ->
    events (bus (p_store (w_plane w))) !! d_event_id d = None ->
    serve_request d (w_plane w) e = (p, s) ->
    agent_step w Silent
      (with_network <[rid := {| e_request := e_request e; e_stage := s |}]> (set_plane p w))
| step_serve_fails rid e :
    w_network w !! rid = Some e ->
    agent_step w Silent
      (with_network <[rid := {| e_request := e_request e; e_stage := Replied (HTTPError 500) |}]> w)
| step_lost rid : agent_step w Silent (with_network (delete rid) w)
(* The poller, up to the execution. *)
| step_poll :
    w_poller w = Polling ->
    agent_step w Silent (set_poller (AwaitingCommand (w_next w)) (send token (PollCommand agent_id) w))
| step_polled rid q command :
    w_poller w = AwaitingCommand rid ->
    w_network w !! rid = Some {| e_request := q; e_stage := Replied (Polled (Some command)) |} ->
    agent_step w Silent
      (set_poller (AwaitingStart (w_next w) command)
         (send token (start_request agent_id command) (with_network (delete rid) w)))
| step_poll_ends rid :
    w_poller w = AwaitingCommand rid -> agent_step w Silent (set_poller Polling w)
| step_started rid command q correlation :
    w_poller w = AwaitingStart rid command ->
    w_network w !! rid = Some {| e_request := q; e_stage := Replied (StartedReply correlation) |} ->
    agent_step w (Executes command) (set_poller (Executing command) (with_network (delete rid) w))
| step_start_fails rid command :
    w_poller w = AwaitingStart rid command -> agent_step w Silent (set_poller Polling w)
| step_executed command now result :
    w_poller w = Executing command ->
    agent_step w (Enqueues command result)
      (flush_command_results_once token Poller (enqueue_executed now agent_id command result w))
| step_execution_raises command :
    w_poller w = Executing command -> agent_step w Silent (set_poller Polling w)
(* The flusher's turn, and the answers either task awaits. *)
| step_flush :
    w_flusher w = Resting -> agent_step w Silent (flush_command_results_once token Flusher w)
| step_reported t rid rec q r now :
    flush_of t w = Reporting rid rec ->
    w_network w !! rid = Some {| e_request := q; e_stage := Replied r |} ->
    agent_step w (if escaped MAX_ATTEMPTS status_text t now rec (raise_for_status r) w then Dies else Silent)
      (settle MAX_ATTEMPTS status_text t now rec (raise_for_status r) (with_network (delete rid) w))
| step_report_times_out t rid rec text now :
    flush_of t w = Reporting rid rec ->
    agent_step w Silent (settle MAX_ATTEMPTS status_text t now rec (Err (OtherError text)) w)
| step_finalized t rec kube :
    flush_of t w = Finalizing rec ->
    let deleted := (finalize_agent_installation_cleanup kube []).2 in
    agent_step w (match deleted with Some _ => Finalizes rec | None => Silent end)
      (set_flush t Resting (set_outbox (finalization_answered rec deleted (w_outbox w)) w))
| step_crash : agent_step w Silent (restart w).

Definition start_plane (gs : list ClusterRegistration) : plane :=
  {| p_store := empty_store; p_registrations := gs |}.

Definition start_world (gs : list ClusterRegistration) : world :=
  {| w_plane := start_plane gs; w_outbox := []; w_poller := Polling; w_flusher := Resting;
     w_network := ∅; w_next := 0 |}.

(** What the labels of a run record. *)
Definition attempt_key (command : AgentCommand) : string * string :=
  (c_command_id command, default "" (c_active_attempt_id command)).

Definition executed (tr : list label) : list (string * string) :=
  omap (fun l => match l with Executes c => Some (attempt_key c) | _ => None end) tr.

Definition enqueued (tr : list label) : list (AgentCommand * odict json) :=
  omap (fun l => match l with Enqueues c r => Some (c, r) | _ => None end) tr.

Definition finalized (tr : list label) : list (string * string) :=
  omap (fun l => match l with Finalizes r => Some (cr_command_id r, cr_attempt_id r) | _ => None end) tr.
End Loop.

(** ** The flusher empties the table *)

Section Drain.
Context (MAX_ATTEMPTS : Z) (status_text : Z -> string) (token : string).

(** The turns of [flush_command_results_forever] with the answers its reports
    get: what it finds, and the answer it awaits. *)
Fixpoint flush_command_results_forever (answers : list (Z * result call_error unit)) (w : world) : world :=
  match answers with
  | [] => w
  | (now, answer) :: answers =>
      let w := flush_command_results_once token Flusher w in
      flush_command_results_forever answers
        match w_flusher w with
        | Reporting _ rec => settle MAX_ATTEMPTS status_text Flusher now rec answer w
        | _ => w
        end
  end.

(** A result that is not the receipt of the agent's own removal. *)
Definition ordinary (r : result_row) : Prop :=
  x_attempt_id r <> "" /\ x_status r <> COMMAND_RESULT_STATUS_ACKED_FINALIZATION_PENDING
  /\ is_agent_uninstall_cleanup_result (cr_result (command_result_record r)) = false.

Lemma after_failure_ordinary now e m r : ordinary r -> ordinary (after_failure now e m r).
Proof.
  intros (Ha & Hs & Hc). unfold after_failure. by destruct (has_status _ r); destruct (_ <=? _).
Qed.

(** A report of an ordinary result, whatever the answer, uses up budget. *)
Lemma report_uses_budget now rec answer rows : outbox_wf rows -> Forall ordinary rows ->
  next_result rows = Some rec ->
  exists rows' b, report_answered MAX_ATTEMPTS status_text now rec answer rows = (rows', Returned b)
    /\ outbox_wf rows' /\ Forall ordinary rows' /\ budget MAX_ATTEMPTS rows' < budget MAX_ATTEMPTS rows.
Proof.
  intros Hwf Hord Hrec. pose proof Hrec as (r & [Hin _]%row_at_elem & Heq & _)%select_first_record; [|done].
  rewrite Forall_forall in Hord. destruct (Hord r Hin) as (Ha & _ & Hc). rewrite Heq in Hc.
  assert (Hrid : cr_attempt_id rec <> "") by by rewrite <- Heq.
  assert (Hfailed : forall exc, exists rows' b, report_failed MAX_ATTEMPTS status_text now rec exc rows
      = (rows', Returned b)
    /\ outbox_wf rows' /\ Forall ordinary rows' /\ budget MAX_ATTEMPTS rows' < budget MAX_ATTEMPTS rows).
  { intros exc. unfold report_failed, should_finalize_uninstall_after_lost_ack. rewrite Hc, andb_false_r. simpl.
    eexists _, _. split; [done|]. split; [by apply record_failure_wf|]. split; [|by apply failure_budget].
    rewrite record_failure_update by done. apply Forall_forall. intros x (y & Hy & ->)%elem_of_update_where.
    destruct (has_key _ y); auto using after_failure_ordinary. }
  unfold report_answered. destruct answer as [[]|exc]; [|apply Hfailed]. rewrite Hc.
  eexists _, _. split; [done|]. split; [by apply mark_sent_wf|]. split; [|by apply sent_budget].
  apply Forall_forall. intros x Hx. apply Hord. rewrite list_elem_of_In in *. by apply filter_In in Hx as [? _].
Qed.

Lemma ordinary_no_finalization rows : Forall ordinary rows -> next_finalization rows = None.
Proof.
  intros Hord. destruct (next_finalization rows) as [rec|] eqn:E; [|done].
  unfold next_finalization, select_first in E. apply fmap_Some in E as (r & Hr%first_by_elem & _).
  rewrite list_elem_of_In, filter_In, <- list_elem_of_In in Hr. destruct Hr as [Hin Hs].
  rewrite Forall_forall in Hord. destruct (Hord r Hin) as (_ & Hne & _). by apply String.eqb_eq in Hs.
Qed.

Lemma no_next_result rows : next_result rows = None -> pending_count rows = 0.
Proof. unfold next_result, select_first. intros H%fmap_None%first_by_None. unfold pending_count, count_status. by rewrite H. Qed.

End Drain.
