(* ===== verification/AgentDelivery.v ===== *)
(** What becomes of a command the agent executes: the invariant of the runs of
    [AgentLoop] and what follows from it. *)

From S2P Require Import Prelude PyString Json EventStore CommandLifecycle CommandCatalog CommandStore.
From S2P Require Import CommandRuns CommandSafety Uninstall AgentOutbox CommandEndpoints AgentLoop.
From coqutil Require Import Datatypes.RecordSettersUsingExistingGetters.
#[global] Open Scope Z_scope.

(** ** The event log only grows *)

Definition event_log (st : store) : gmap string event_row := events (bus st).

Lemma publish_grows now evt st : event_log st ⊆ event_log (publish_in_transaction now evt st).
Proof.
  unfold event_log, publish_in_transaction. simpl. destruct (stage_event_known evt (record_event now evt (bus st))) as [_ ->].
  unfold record_event. destruct (events (bus st) !! event_id evt) eqn:E; [done|]. simpl. by apply insert_subseteq.
Qed.

Lemma publish_new now evt st : event_log st !! event_id evt = None ->
  event_log (publish_in_transaction now evt st) !! event_id evt
  = Some {| e_envelope := evt; e_created_at := now |}.
Proof.
  unfold event_log, publish_in_transaction. simpl. intros E.
  destruct (stage_event_known evt (record_event now evt (bus st))) as [_ ->].
  unfold record_event. rewrite E. simpl. by rewrite lookup_insert_eq.
Qed.

Lemma staged_log now ws cid k st st' : staged now ws cid k st st' -> event_log st' = event_log st.
Proof. intros (_ & _ & _ & H & _)%staged_frame. unfold event_log. by rewrite H. Qed.

Lemma update_attempts_log p f st : event_log (update_attempts p f st) = event_log st.
Proof. done. Qed.

Lemma attempt_insert_log now a cid ws cluster no s avail st st' :
  agent_command_attempt_insert now a cid ws cluster no s avail st = Ok st' -> event_log st' = event_log st.
Proof. unfold agent_command_attempt_insert. intros H. repeat case_match; by simplify_eq. Qed.

Lemma insert_control_log k st : event_log (insert_control k st) = event_log st.
Proof. unfold insert_control. by destruct (current_control_row _ _ _ _ _). Qed.

Section Log.
Context (sha256_hex quote : string -> string) (specs : catalog) (int_of_text : string -> option Z).
Context (timestamp_of : string -> Z) (uuid5 clock_text : string -> string).

Lemma enqueue_log now correlation plan s a st st' x :
  enqueue sha256_hex quote now correlation plan s a st = Ok (st', x) -> event_log st' = event_log st.
Proof.
  unfold enqueue, agent_command_queue_upsert. intros (row & _ & H)%result_bind_inv.
  destruct (find _ _) as [existing|]; [destruct (unprojected existing)|]; simpl in H; try (by simplify_eq);
    apply result_bind_inv in H as (st2 & H2%attempt_insert_log & H); by simplify_eq.
Qed.

Lemma control_log now q ctl attempt st st' x :
  stage_command_control_in_transaction specs int_of_text now q ctl attempt st = Ok (st', x) ->
  event_log st' = event_log st.
Proof.
  unfold stage_command_control_in_transaction. intros H. destruct (negb _); [done|].
  destruct (find_command _ _ _) as [row|]; [|done]. destruct (current_control_row _ _ _ _ _); [done|].
  apply result_bind_inv in H as (x1 & H1 & H). simplify_eq. rewrite insert_control_log.
  destruct (String.eqb _ _).
  - unfold cancel_command in H1. destruct (spec_for _ _) as [spec|]; [|done].
    do 2 (destruct (_ : bool) in H1; [done|]). destruct (_ : bool) in H1; [by simplify_eq|].
    destruct (_ : bool) in H1; apply staging_inv in H1 as (st1 & evt & Hs%staged_log & H1); simplify_eq/=;
      rewrite Hs; [by destruct (c_active_attempt_id row)|done].
  - unfold retry_command in H1. apply result_bind_inv in H1 as ([budget delay] & _ & H1).
    apply result_bind_inv in H1 as (st0 & Hins%attempt_insert_log & H1).
    apply staging_inv in H1 as (st1 & evt & Hs%staged_log & H1). simplify_eq/=. by rewrite Hs.
Qed.

Lemma close_all_log now source w rows st st' :
  close_all uuid5 clock_text w now source rows st = Ok st' -> event_log st ⊆ event_log st'.
Proof.
  revert st. induction rows as [|row rows IH]; simpl; intros st H; [by simplify_eq|].
  apply result_bind_inv in H as (st3 & H3 & H%IH). etrans; [|exact H].
  unfold close_expired in H3. apply result_bind_inv in H3 as ([st4 e] & Hs%stage_staged%staged_log & H3).
  simplify_eq. etrans; [|apply publish_grows].
  replace (event_log (update_commands _ _ st4)) with (event_log st4) by done. rewrite Hs.
  by destruct (truthy _).
Qed.

Lemma complete_log now rep report source eid created w st st' x :
  complete_agent_command_and_stage_event specs int_of_text now (r_command_id rep) (r_workspace_id rep)
    (r_cluster_id rep) report (r_lease_id rep) (r_agent_id rep) source (r_attempt_id rep) eid created w st
    = Ok (st', x) ->
  event_log st ⊆ event_log st'
  /\ match x with
     | None => True
     | Some (evt, _) =>
         event_id evt = eid /\ subject evt = "command.completed"
         /\ dict_get "command_id" (payload evt) = Some (JStr (r_command_id rep))
         /\ dict_get "result" (payload evt) = Some (JObj report)
         /\ (event_log st !! eid = None ->
             event_log st' !! eid = Some {| e_envelope := evt; e_created_at := now |})
     end.
Proof.
  unfold complete_agent_command_and_stage_event. intros H.
  apply result_bind_inv in H as (text & _ & H).
  destruct (find _ _) as [row|]; [|by simplify_eq].
  apply result_bind_inv in H as (status & _ & H). apply result_bind_inv in H as (final & _ & H).
  destruct (command_terminal_event_kind _ _) as [kind|]; [|done].
  apply staging_inv in H as (st1 & e & Hs%staged_log & H). simplify_eq.
  match goal with |- context [publish_in_transaction _ ?d ?s] => set (evt := d); set (st2 := s) end.
  assert (Hlog : event_log st2 = event_log st).
  { unfold st2. destruct (bool_decide _); rewrite ?Hs; by destruct (truthy _). }
  rewrite <- Hlog. split; [apply publish_grows|]. split_and!; try done.
  intros Hnew. by apply (publish_new now evt).
Qed.

Lemma step_log st o st' :
  command_step sha256_hex quote specs int_of_text timestamp_of uuid5 clock_text st o st' ->
  event_log st ⊆ event_log st'.
Proof.
  unfold command_step. intros H. destruct o; simpl in H; apply dropping_inv in H as [x H].
  - unfold stage_receipt, stage_logical_command_acceptance_in_transaction in H.
    apply result_bind_inv in H as ([st1 b] & H1 & H). apply result_bind_inv in H1 as (_ & _ & H1).
    apply result_bind_inv in H1 as (row & _ & [= H1]). apply result_bind_inv in H as (cid & _ & H).
    apply stage_staged, staged_log in H. rewrite H.
    unfold agent_command_insert in H1. by destruct (existsb _ _); simplify_eq.
  - unfold queue_agent_command in H. destruct (field_is _ _ _); [done|]. by rewrite (enqueue_log _ _ _ _ _ _ _ _ H).
  - unfold queue_rca_test_command_if_available in H. do 2 (case_match; [done|]).
    apply result_bind_inv in H as (? & _ & H). apply result_bind_inv in H as (? & _ & H).
    case_match; [by simplify_eq|]. by rewrite (enqueue_log _ _ _ _ _ _ _ _ H).
  - unfold fail_logical_command_and_stage_event in H. destruct (find _ _) as [row|]; [|by simplify_eq].
    apply stage_staged, staged_log in H. by rewrite H.
  - unfold lease_agent_command in H. destruct (next_command _ _ _ _) as [sel|]; [|by simplify_eq].
    destruct (find _ _) as [row|]; [|by simplify_eq].
    apply staging_inv in H as (st1 & evt & Hs%staged_log & H). simplify_eq. by rewrite Hs.
  - unfold start_agent_command in H. destruct (find _ _) as [row|]; [|by simplify_eq].
    apply staging_inv in H as (st1 & evt & Hs%staged_log & H). simplify_eq. rewrite Hs.
    by destruct (truthy _).
  - unfold heartbeat_agent_command in H. destruct (find _ _) as [row|]; [|by simplify_eq].
    destruct (match r_attempt_id r with Some a => _ | None => _ end); [by simplify_eq|].
    apply result_bind_inv in H as ([st1 evt] & Hs & H). simplify_eq.
    assert (event_log st' = event_log st) as ->; [|done].
    destruct (bool_decide _ && _); [apply stage_staged, staged_log in Hs; rewrite Hs|simplify_eq];
      by destruct (String.eqb _ _).
  - by apply complete_log in H as [? _].
  - by rewrite (control_log _ _ _ _ _ _ _ H).
  - unfold fail_expired_agent_commands in H. destruct (_ || _); [done|].
    apply result_bind_inv in H as (st1 & H%close_all_log & H'). by simplify_eq.
  - unfold append_command_operation_event in H. apply result_bind_inv in H as (? & _ & H).
    case_match; [done|]. apply stage_staged, staged_log in H. by rewrite H.
Qed.
End Log.

(** ** What a transaction of the gateway does *)

Section Delivery.
Context (sha256_hex quote : string -> string) (specs : catalog) (int_of_text : string -> option Z).
Context (timestamp_of : string -> Z) (uuid5 clock_text : string -> string).
Context (validate : odict json -> option CommandResultRequest) (LEASE_SECONDS MAX_ATTEMPTS : Z).
Context (status_text : Z -> string) (token agent_id : string).

Let cstep := command_step sha256_hex quote specs int_of_text timestamp_of uuid5 clock_text.
Let fstep := fresh_step sha256_hex quote specs int_of_text timestamp_of uuid5 clock_text.
Let ok := run_ok specs int_of_text.
Let srv := serve_request sha256_hex specs int_of_text validate LEASE_SECONDS.
Let astep := agent_step sha256_hex quote specs int_of_text timestamp_of uuid5 clock_text validate
               LEASE_SECONDS MAX_ATTEMPTS status_text token agent_id.

(** Every attempt a row waits for is one the server drew. *)
Definition proper_rows (st : store) : Prop :=
  forall r a, r ∈ commands st -> c_active_attempt_id r = Some a -> proper_attempt a.

Lemma proper_step st o st' :
  cstep st o st' -> wf specs int_of_text st -> (forall a, drawn o = Some a -> proper_attempt a) ->
  proper_rows st -> proper_rows st'.
Proof.
  intros Hstep Hwf Hd Hp r a Hr Ha.
  destruct (step_evolves _ _ _ _ _ _ _ _ _ _ Hstep Hwf) as [(g & new & Hc & Hg & Hnew) _ _ _].
  rewrite Hc in Hr. apply elem_of_app in Hr as [(r0 & -> & Hr0)%list_elem_of_fmap|Hr].
  - destruct (Hg r0 Hr0) as [_ [[_ Hk]|Ht]]; [apply (Hp r0 a Hr0); congruence|].
    apply touched_attempt in Ht as [[Hk _]|(a' & Hd' & Hk)]; [apply (Hp r0 a Hr0)|apply Hd]; congruence.
  - rewrite Forall_forall in Hnew. destruct (Hnew r Hr) as [_ Hn].
    destruct o; simpl in Hn; try done; try congruence; apply Hd; simpl; congruence.
Qed.

(** A store after some transactions that draw no attempt, or proper ones. *)
Definition later (st st' : store) : Prop :=
  st' = st \/ exists o, fstep st o st' /\ forall a, drawn o = Some a -> proper_attempt a.

Lemma later_ok st st' : later st st' -> ok st -> ok st'.
Proof. intros [->|(o & Hs & _)] H; [done|]. by eapply run_ok_step. Qed.

Lemma later_proper st st' : later st st' -> ok st -> proper_rows st -> proper_rows st'.
Proof. intros [->|(o & [Hs _] & Hd)] [Hwf _] H; [done|]. by eapply proper_step. Qed.

Lemma later_spent st st' cid a : later st st' -> ok st -> spent cid a st -> spent cid a st'.
Proof. intros [->|(o & Hs & _)] [Hwf _] H; [done|]. by eapply spent_step. Qed.

Lemma later_log st st' : later st st' -> event_log st ⊆ event_log st'.
Proof. intros [->|(o & [Hs _] & _)]; [done|]. by eapply step_log. Qed.

Lemma later_op st o st' : apply sha256_hex quote specs int_of_text timestamp_of uuid5 clock_text o st = Ok st' ->
  drawn o = None -> later st st'.
Proof. intros H Hd. right. exists o. unfold fstep, fresh_step, fresh. rewrite Hd. by split_and!. Qed.

(** The store holds the completion event of the command with this result. *)
Definition recorded (st : store) (command_id : string) (report : odict json) : Prop :=
  exists eid row, event_log st !! eid = Some row /\ subject (e_envelope row) = "command.completed"
    /\ dict_get "command_id" (payload (e_envelope row)) = Some (JStr command_id)
    /\ dict_get "result" (payload (e_envelope row)) = Some (JObj report).

Lemma recorded_later st st' cid report : later st st' -> recorded st cid report -> recorded st' cid report.
Proof. intros Hl%later_log (eid & row & H & Hr). exists eid, row. split; [|done]. by eapply lookup_weaken. Qed.

(** The server has the result of a report with this body, or the body is the
    receipt of a complete cleanup. *)
Definition acknowledged (st : store) (command_id : string) (body : odict json) : Prop :=
  exists id p, validate body = Some p
    /\ (recorded st command_id (reported_result id p) \/ verified_cleanup p = true).

(** *** Exchanges *)

Definition request_key (q : agent_request) : option (string * string) :=
  match q with StartCommand cid _ _ (Some a) => Some (cid, a) | _ => None end.

(** The attempt an answer lets the agent execute. *)
Definition started_key (e : exchange) : option (string * string) :=
  match e_stage e with Replied (StartedReply _) => request_key (e_request e) | _ => None end.

Definition command_ok (c : AgentCommand) : Prop :=
  exists a, c_active_attempt_id c = Some a /\ proper_attempt a.

Definition exchange_ok (st : store) (e : exchange) : Prop :=
  match e_request e, e_stage e with
  | PollCommand _, Replied (Polled (Some c)) => command_ok c
  | StartCommand cid _ _ (Some a), Replied (StartedReply _) => spent cid a st
  | ReportResult _ body, Checked _ p _ => validate body = Some p
  | ReportResult cid body, Committed id p _ _ => validate body = Some p /\ recorded st cid (reported_result id p)
  | ReportResult _ body, Replaying _ p _ => validate body = Some p /\ verified_cleanup p = true
  | ReportResult _ _, Replied (HTTPError _) => True
  | ReportResult cid body, Replied _ => acknowledged st cid body
  | _, _ => True
  end.

Lemma exchange_ok_later st st' e : later st st' -> ok st -> exchange_ok st e -> exchange_ok st' e.
Proof.
  unfold exchange_ok, acknowledged. intros Hl Hok.
  destruct (e_request e) as [|cid ? ? [a|]|cid body], (e_stage e) as [| | | | |[]]; try done;
    try (by apply later_spent); try (by intros [??]; split; [|by eapply recorded_later]);
    intros (id & p & Hv & [H|H]); exists id, p; eauto using recorded_later.
Qed.

Lemma recorded_exchange_failed st e : exchange_ok st {| e_request := e; e_stage := Replied (HTTPError 500) |}.
Proof. by destruct e as [| ? ? ? [] |]. Qed.

(** The start the server accepts is the first of that attempt. *)
Lemma start_fresh d id cid agent lease a p p' correlation :
  command_start LEASE_SECONDS d id cid agent lease (Some a) p = (p', Replied (StartedReply correlation)) ->
  ~ spent cid a (p_store p) /\ starts cid a (p_store p) (p_store p').
Proof.
  unfold command_start. destruct (start_agent_command _ _ _ _ _ _ _ _ _) as [[st' [[c evt]|]]|] eqn:H; try done.
  destruct (String.eqb c ""); [done|]. intros [= <- _]. simpl.
  unfold start_agent_command in H. destruct (find _ _) as [row|] eqn:Hf; [|done].
  apply find_elem in Hf as [Hr Hp]. apply staging_inv in H as (st1 & e & (Hc & _)%staged_frame & H). simplify_eq.
  set (row' := row <| c_status := RUNNING |> <| c_leased_until := Some (until LEASE_SECONDS d) |>
                   <| c_started_at := Some (d_now d) |> <| c_updated_at := d_now d |>).
  assert (Hin : row' ∈ commands st').
  { rewrite Hc. destruct (truthy _); simpl; apply elem_of_update_where; exists row;
      (split; [done|]); cbv beta; simpl in Hp; by rewrite Hp. }
  apply andb_true_iff in Hp as [[Hfe Hs]%andb_true_iff Hm]. bool_to_prop.
  apply fenced_inv in Hfe as ([= _ Hid] & _). simpl in Hm. unfold opt_eqb in Hm. bool_to_prop. split.
  - intros [_ Hsp]. specialize (Hsp row Hr Hid Hm). by rewrite Hs in Hsp.
  - by exists row, row'.
Qed.

Lemma serve_later d p e p' s : srv d p e = (p', s) -> later (p_store p) (p_store p').
Proof.
  unfold srv, serve_request, serve. intros H.
  destruct e as [[agent|cid agent lease att|cid body] [tok|id|id pl row|id pl row ev|id pl ev|r]]; simpl in H;
    try (injection H as <- _; by left).
  - unfold poll_command in H. destruct (lease_agent_command _ _ _ _ _ _ _) as [[st' x]|] eqn:E;
      injection H as <- _; [|by left].
    eapply (later_op _ (Lease _ _ _ _ _ _)); [|done]. simpl. unfold dropping. by rewrite E.
  - destruct (_ && _) in H; [|injection H as <- _; by left]. injection H as <- _. by left.
  - unfold command_start in H. destruct (start_agent_command _ _ _ _ _ _ _ _ _) as [[st' x]|] eqn:E;
      [|injection H as <- _; by left].
    assert (p' = with_store p st') as -> by (destruct x as [[c evt]|]; by injection H).
    eapply (later_op _ (Start (d_now d) (until LEASE_SECONDS d) {| r_command_id := cid;
      r_workspace_id := i_workspace_id id; r_cluster_id := i_cluster_id id; r_lease_id := lease;
      r_agent_id := agent; r_attempt_id := att |})); [|done]. simpl. unfold dropping. by rewrite E.
  - destruct (_ && _) in H; [|injection H as <- _; by left]. injection H as <- _. by left.
  - unfold result_commit in H.
    destruct (complete_agent_command_and_stage_event _ _ _ _ _ _ _ _ _ _ _ _ _ _ _) as [[st' x]|] eqn:E;
      [|injection H as <- _; by left].
    assert (p' = with_store p st') as -> by (destruct x as [[c evt]|]; by injection H).
    eapply (later_op _ (Complete (d_now d) {| r_command_id := cid;
      r_workspace_id := i_workspace_id id; r_cluster_id := i_cluster_id id; r_lease_id := q_lease_id pl;
      r_agent_id := q_agent_id pl; r_attempt_id := q_attempt_id pl |} _ _ _ _ _)); [|done].
    simpl. unfold dropping. by rewrite E.
  - destruct (_ && _) in H; [|injection H as <- _; by left]. injection H as <- _. by left.
Qed.

Lemma poll_proper d id agent p p' c : proper_rows (p_store p) ->
  poll_command LEASE_SECONDS d id agent p = (p', Replied (Polled (Some c))) -> command_ok c.
Proof.
  intros Hp. unfold poll_command.
  destruct (lease_agent_command _ _ _ _ _ _ _) as [[st' [[c' evt]|]]|] eqn:H; try done. intros [= _ ->].
  unfold lease_agent_command in H. destruct (next_command _ _ _ _) as [sel|]; [|done].
  destruct (find _ _) as [row|] eqn:Hf; [|done]. apply find_elem in Hf as [Hr Hpr].
  apply staging_inv in H as (st1 & e & _ & H). simplify_eq.
  apply andb_true_iff in Hpr as [[_ Ha]%andb_true_iff _]. unfold opt_eqb in Ha. bool_to_prop.
  exists (default "" (c_active_attempt_id sel)). split; [done|]. by eapply Hp.
Qed.

(** Serving keeps what an exchange promises. *)
(** The commit of a result: what it answers was recorded. *)
Lemma result_commit_ok d id cid body pl row p p' s : result_commit specs int_of_text d id cid pl row p = (p', s) ->
  event_log (p_store p) !! d_event_id d = None -> validate body = Some pl ->
  exchange_ok (p_store p') {| e_request := ReportResult cid body; e_stage := s |}.
Proof.
  unfold result_commit. intros H Hnew He.
  destruct (complete_agent_command_and_stage_event _ _ _ _ _ _ _ _ _ _ _ _ _ _ _) as [[st' x]|] eqn:E;
    [|by injection H as <- <-].
  apply (complete_log _ _ _ {| r_command_id := cid; r_workspace_id := i_workspace_id id;
    r_cluster_id := i_cluster_id id; r_lease_id := q_lease_id pl; r_agent_id := q_agent_id pl;
    r_attempt_id := q_attempt_id pl |}) in E as [_ E].
  destruct x as [[evt oe]|].
  + injection H as <- <-. destruct E as (_ & Hs & Hc & Hres & Hlog). split; [done|].
    eexists _, _. split; [by apply Hlog|]. done.
  + injection H as <- <-. destruct (replayed_verified_uninstall row pl) eqn:Hr; [|done].
    split; [done|]. unfold replayed_verified_uninstall in Hr. by bool_to_prop.
Qed.

Lemma serve_ok d p e p' s : srv d p e = (p', s) -> ok (p_store p) -> proper_rows (p_store p) ->
  event_log (p_store p) !! d_event_id d = None -> exchange_ok (p_store p) e ->
  exchange_ok (p_store p') {| e_request := e_request e; e_stage := s |}.
Proof.
  intros H Hok Hp Hnew He. pose proof (serve_later _ _ _ _ _ H) as Hl.
  pose proof (exchange_ok_later _ _ _ Hl Hok He) as He'.
  unfold srv, serve_request, serve in H.
  destruct e as [[agent|cid agent lease att|cid body] [tok|id|id pl row|id pl row ev|id pl ev|r]];
    simpl in H; try (injection H as <- <-; exact He').
  - injection H as <- <-. by destruct (require_cluster_agent _ _ _).
  - destruct s as [| | | | |[[c|]| | |]]; try done. by eapply poll_proper.
  - destruct (_ && _) in H; [|by injection H as <- <-]. unfold revoke in H.
    destruct (unregister_target_cluster _ _ _) as [p1 []]; by injection H as <- <-.
  - unfold revoke in H. destruct (unregister_target_cluster _ _ _) as [p1 []]; by injection H as <- <-.
  - injection H as <- <-. simpl. unfold exchange_ok. simpl. destruct att; [by destruct (require_cluster_agent _ _ _)|done].
  - unfold exchange_ok. simpl. destruct att as [a|]; [|done]. destruct s as [| | | | |[| | |]]; try done.
    apply start_fresh in H as [_ H]. destruct Hl as [Heq|(o & Hs & _)].
    + rewrite Heq in *. destruct H as (r & r' & Hr & Hr' & _ & Hk & Hs & Hs' & _).
      rewrite (command_unique _ _ _ _ _ _ (proj1 Hok) Hr' Hr (f_equal snd Hk)) in Hs'. congruence.
    + by eapply starts_spent.
  - unfold exchange_ok. simpl. destruct (_ && _) in H; [|injection H as <- <-; by destruct att]. unfold revoke in H.
    destruct (unregister_target_cluster _ _ _) as [p1 []]; injection H as <- <-; by destruct att.
  - unfold exchange_ok. simpl. unfold revoke in H.
    destruct (unregister_target_cluster _ _ _) as [p1 []]; injection H as <- <-; by destruct att.
  - injection H as <- <-. by destruct (require_cluster_agent _ _ _).
  - injection H as <- <-. unfold result_read. destruct (validate body) as [pl|] eqn:Hv; [|done].
    destruct (find_command _ _ _) as [row|]; [|done]. destruct (negb _); [done|]. by destruct (_ && _).
  - by eapply result_commit_ok.
  - unfold exchange_ok in He'. simpl in He'. destruct He' as [Hv Hrec].
    assert (Hack : acknowledged (p_store p') cid body) by (exists id, pl; eauto).
    destruct (_ && _) in H; [|by injection H as <- <-]. unfold revoke in H.
    destruct (unregister_target_cluster _ _ _) as [p1 []]; by injection H as <- <-.
  - unfold exchange_ok in He'. simpl in He'. destruct He' as [Hv Hrec].
    assert (Hack : acknowledged (p_store p') cid body) by (exists id, pl; eauto).
    unfold revoke in H. destruct (unregister_target_cluster _ _ _) as [p1 []]; by injection H as <- <-.
Qed.

(** An answer to a start is new, or the first of its attempt. *)
Lemma serve_started d p e p' s k : srv d p e = (p', s) ->
  started_key {| e_request := e_request e; e_stage := s |} = Some k ->
  started_key e = Some k \/ ~ spent k.1 k.2 (p_store p).
Proof.
  unfold srv, serve_request, serve, started_key. intros H Hk. simpl in Hk.
  destruct e as [[agent|cid agent lease [a|]|cid body] [tok|id|id pl row|id pl row ev|id pl ev|r]]; simpl in *;
    try (by destruct s as [| | | | |[]]); try (by left; injection H as <- <-);
    destruct s as [| | | | |[]]; try done; simplify_eq.
  - by destruct (require_cluster_agent _ _ _).
  - right. by apply start_fresh in H as [? _].
  - destruct (_ && _) in H; [|done]. unfold revoke in H.
    by destruct (unregister_target_cluster _ _ _) as [p1 []].
  - unfold revoke in H. by destruct (unregister_target_cluster _ _ _) as [p1 []].
Qed.

(** ** The invariant *)

Implicit Types (net : gmap nat exchange) (rows : list result_row) (ex fi : list (string * string)).

(** What was executed: the command and its result. *)
Abbreviation entry := (AgentCommand * odict json)%type (only parsing).
Definition entry_key (en : entry) : string * string := attempt_key en.1.

(** The record of an entry after [n] failed reports. *)
Definition entry_record (en : entry) (n : Z) : CommandResultRecord :=
  {| cr_command_id := c_command_id en.1; cr_attempt_id := default "" (c_active_attempt_id en.1);
     cr_workspace_id := c_workspace_id en.1; cr_lease_id := default "" (c_lease_id en.1);
     cr_agent_id := agent_id; cr_result := en.2; cr_attempt_count := n |}.

Definition entry_body (en : entry) : odict json := completion_body (entry_record en 0).
Definition is_cleanup (en : entry) : bool := is_agent_uninstall_cleanup_result en.2.

(** The request at [rid], while it is in the network, is [q]. *)
Definition addressed net (next rid : nat) (q : agent_request -> Prop) : Prop :=
  (rid < next)%nat /\ forall e, net !! rid = Some e -> q (e_request e).

(** Exchanges keep their requests; new ones have new numbers. *)
Definition net_later net (next : nat) net' (next' : nat) : Prop :=
  (next <= next')%nat
  /\ forall rid e', net' !! rid = Some e' -> (rid < next)%nat ->
     exists e, net !! rid = Some e /\ e_request e' = e_request e.

Definition exec_ok (st : store) net (next : nat) (ex : list (string * string)) : Prop :=
  NoDup ex /\ (forall k, k ∈ ex -> spent k.1 k.2 st)
  /\ forall rid e, net !! rid = Some e ->
       (rid < next)%nat /\ exchange_ok st e
       /\ forall k, started_key e = Some k ->
            (k ∉ ex) /\ forall rid' e', net !! rid' = Some e' -> started_key e' = Some k -> rid' = rid.

Definition poller_ok net (next : nat) (ex : list (string * string)) (en : list entry) (p : poller) : Prop :=
  match p with
  | AwaitingCommand rid => addressed net next rid (fun q => exists a, q = PollCommand a)
  | AwaitingStart rid c => command_ok c /\ addressed net next rid (eq (start_request agent_id c))
  | Executing c => command_ok c /\ attempt_key c ∈ ex /\ attempt_key c ∉ (entry_key <$> en)
  | Polling | Flushing _ => True
  end.

Definition of_entry (en : list entry) (rec : CommandResultRecord) : Prop :=
  exists x n, x ∈ en /\ rec = entry_record x n.

Definition flush_ok net (next : nat) (en : list entry) (f : flush) : Prop :=
  match f with
  | Resting => True
  | Reporting rid rec => of_entry en rec /\ addressed net next rid (eq (report_request rec))
  | Finalizing rec => of_entry en rec /\ is_agent_uninstall_cleanup_result (cr_result rec) = true
  end.

Definition row_ok (en : list entry) (r : result_row) : Prop :=
  of_entry en (command_result_record r)
  /\ (x_status r = COMMAND_RESULT_STATUS_PENDING
      \/ x_status r = COMMAND_RESULT_STATUS_ACKED_FINALIZATION_PENDING
         /\ is_agent_uninstall_cleanup_result (cr_result (command_result_record r)) = true
      \/ x_status r = COMMAND_RESULT_STATUS_ABANDONED /\ Z.max 1 MAX_ATTEMPTS <= x_attempt_count r).

(** An entry is still in the table, or the server has it, or it was the
    agent's removal and the removal went through. *)
Definition settled (st : store) rows (fi : list (string * string)) (en : entry) : Prop :=
  is_Some (row_at (entry_key en) rows)
  \/ acknowledged st (c_command_id en.1) (entry_body en)
  \/ is_cleanup en = true /\ entry_key en ∈ fi.

Definition outbox_ok (st : store) rows ex (en : list entry) (fi : list (string * string)) : Prop :=
  outbox_wf rows
  /\ NoDup (entry_key <$> en) /\ Forall (fun x => command_ok x.1 /\ entry_key x ∈ ex) en
  /\ Forall (row_ok en) rows /\ Forall (settled st rows fi) en.

Record invariant (ex : list (string * string)) (en : list entry) (fi : list (string * string)) (w : world)
    : Prop := {
  inv_store : ok (p_store (w_plane w));
  inv_proper : proper_rows (p_store (w_plane w));
  inv_exec : exec_ok (p_store (w_plane w)) (w_network w) (w_next w) ex;
  inv_poller : poller_ok (w_network w) (w_next w) ex en (w_poller w);
  inv_flush : forall t, flush_ok (w_network w) (w_next w) en (flush_of t w);
  inv_outbox : outbox_ok (p_store (w_plane w)) (w_outbox w) ex en fi;
}.

(** *** What each component depends on *)

Lemma addressed_later net next net' next' rid q :
  net_later net next net' next' -> addressed net next rid q -> addressed net' next' rid q.
Proof.
  intros [Hle Hnet] [Hlt Hq]. split; [lia|]. intros e' He'.
  destruct (Hnet rid e' He' Hlt) as (e & He & ->). by apply Hq.
Qed.

Lemma poller_ok_later net next net' next' ex en p :
  net_later net next net' next' -> poller_ok net next ex en p -> poller_ok net' next' ex en p.
Proof. intros Hn. destruct p; simpl; try done; intuition eauto using addressed_later. Qed.

Lemma flush_ok_later net next net' next' en f :
  net_later net next net' next' -> flush_ok net next en f -> flush_ok net' next' en f.
Proof. intros Hn. destruct f; simpl; try done; intuition eauto using addressed_later. Qed.

Lemma net_later_refl net next : net_later net next net next.
Proof. split; [done|]. eauto. Qed.

Lemma net_later_delete net next rid : net_later net next (delete rid net) next.
Proof. split; [done|]. intros rid' e' [_ He]%lookup_delete_Some _. eauto. Qed.

Lemma net_later_stage net next rid e s : net !! rid = Some e ->
  net_later net next (<[rid := {| e_request := e_request e; e_stage := s |}]> net) next.
Proof.
  intros He. split; [done|]. intros rid' e' H _. destruct (decide (rid = rid')) as [<-|Hne].
  - rewrite lookup_insert_eq in H. injection H as <-. eauto.
  - rewrite lookup_insert_ne in H by done. eauto.
Qed.

Lemma net_later_send net next e : net_later net next (<[next := e]> net) (S next).
Proof.
  split; [lia|]. intros rid e' H Hlt. rewrite lookup_insert_ne in H by lia. eauto.
Qed.

Lemma settled_later st st' rows fi en : later st st' -> settled st rows fi en -> settled st' rows fi en.
Proof.
  intros Hl [H|[(id & p & Hv & [H|H])|H]]; [by left|right; left..|by right; right];
    exists id, p; eauto using recorded_later.
Qed.

Lemma outbox_ok_later st st' rows ex en fi : later st st' -> outbox_ok st rows ex en fi -> outbox_ok st' rows ex en fi.
Proof.
  intros Hl (Hwf & Hnd & Hen & Hrows & Hs). split_and!; try done.
  eapply Forall_impl; [exact Hs|]. intros x. by apply settled_later.
Qed.

(** *** The exchanges *)

Lemma exec_ok_later st st' net next ex : later st st' -> ok st -> exec_ok st net next ex -> exec_ok st' net next ex.
Proof.
  intros Hl Hok (Hnd & Hsp & Hnet). split_and!; [done|by eauto using later_spent|].
  intros rid e He. destruct (Hnet rid e He) as (? & ? & ?). split_and!; [done| |done].
  by eapply exchange_ok_later.
Qed.

Lemma exec_ok_delete st net next rid ex : exec_ok st net next ex -> exec_ok st (delete rid net) next ex.
Proof.
  intros (Hnd & Hsp & Hnet). split_and!; [done..|]. intros rid' e [Hne He]%lookup_delete_Some.
  destruct (Hnet rid' e He) as (? & ? & Hk). split_and!; [done..|]. intros k Hk'.
  destruct (Hk k Hk') as [? Hu]. split; [done|]. intros rid2 e2 [_ He2]%lookup_delete_Some. by apply Hu.
Qed.

(** An exchange with no answer to a start yet, or that keeps it. *)
Lemma exec_ok_put st net next next' rid e ex :
  exec_ok st net next ex -> (rid < next')%nat -> (next <= next')%nat -> exchange_ok st e ->
  (forall k, started_key e = Some k ->
     (exists e0, net !! rid = Some e0 /\ started_key e0 = Some k)
     \/ (k ∉ ex) /\ forall rid' e', net !! rid' = Some e' -> started_key e' <> Some k) ->
  exec_ok st (<[rid := e]> net) next' ex.
Proof.
  intros (Hnd & Hsp & Hnet) Hlt Hle He Hkey. split_and!; [done..|].
  assert (Hold : forall k, started_key e = Some k ->
    (k ∉ ex) /\ forall rid' e', net !! rid' = Some e' -> started_key e' = Some k -> rid' = rid).
  { intros k Hk. destruct (Hkey k Hk) as [(e0 & He0 & Hk0)|[? Hno]].
    - by destruct (Hnet rid e0 He0) as (_ & _ & H); apply H.
    - split; [done|]. intros rid' e' H1 H2. by destruct (Hno _ _ H1). }
  intros rid1 e1 H1. destruct (decide (rid = rid1)) as [<-|Hne].
  - rewrite lookup_insert_eq in H1. injection H1 as <-. split_and!; [done..|]. intros k Hk.
    destruct (Hold k Hk) as [Hex Hu]. split; [done|]. intros rid2 e2 H2 Hk2.
    destruct (decide (rid = rid2)) as [<-|Hne2]; [done|]. rewrite lookup_insert_ne in H2 by done. by eapply Hu.
  - rewrite lookup_insert_ne in H1 by done. destruct (Hnet rid1 e1 H1) as (Hlt1 & He1 & Hk1).
    split_and!; [lia|done|]. intros k Hk. destruct (Hk1 k Hk) as [Hex Hu]. split; [done|].
    intros rid2 e2 H2 Hk2. destruct (decide (rid = rid2)) as [<-|Hne2].
    + rewrite lookup_insert_eq in H2. injection H2 as <-. destruct (Hold k Hk2) as [_ Hu2].
      by rewrite (Hu2 rid1 e1 H1 Hk).
    + rewrite lookup_insert_ne in H2 by done. by eapply Hu.
Qed.

Lemma exec_ok_send st net next q ex : exec_ok st net next ex ->
  exec_ok st (<[next := {| e_request := q; e_stage := Received token |}]> net) (S next) ex.
Proof.
  intros H. eapply exec_ok_put; [exact H|lia|lia| |done]. unfold exchange_ok. simpl. by destruct q as [|? ? ? []|].
Qed.

(** The answer to a start is used once. *)
Lemma exec_ok_execute st net next rid e k ex : exec_ok st net next ex ->
  net !! rid = Some e -> started_key e = Some k -> spent k.1 k.2 st ->
  exec_ok st (delete rid net) next (ex ++ [k]).
Proof.
  intros H He Hk Hs. pose proof (exec_ok_delete _ _ _ rid _ H) as (Hnd & Hsp & Hdel).
  destruct H as (_ & _ & Hnet). destruct (Hnet rid e He) as (_ & _ & Hu). destruct (Hu k Hk) as [Hex Huniq].
  split_and!.
  - apply NoDup_app. split_and!; [done| |apply NoDup_singleton]. set_solver.
  - intros k' [?| ->%list_elem_of_singleton]%elem_of_app; [by apply Hsp|done].
  - intros rid' e' He'. destruct (Hdel rid' e' He') as (? & ? & Hu'). split_and!; [done..|].
    intros k' Hk'. destruct (Hu' k' Hk') as [? Hu2]. split; [|done].
    intros [?| ->%list_elem_of_singleton]%elem_of_app; [done|].
    apply lookup_delete_Some in He' as [Hne He']. by destruct Hne, (Huniq rid' e' He' Hk').
Qed.

(** *** The outbox *)

Lemma of_entry_mono en en' rec : of_entry en rec -> of_entry (en ++ en') rec.
Proof. intros (x & n & Hx & ->). exists x, n. set_solver. Qed.

Lemma entry_unique (en : list entry) x y : NoDup (entry_key <$> en) -> x ∈ en -> y ∈ en ->
  entry_key x = entry_key y -> x = y.
Proof.
  intros Hnd [i Hi]%list_elem_of_lookup [j Hj]%list_elem_of_lookup Hxy. assert (i = j) as <-; [|congruence].
  eapply NoDup_lookup; [exact Hnd|by rewrite list_lookup_fmap, Hi|by rewrite list_lookup_fmap, Hj, Hxy].
Qed.

Definition rec_key (rec : CommandResultRecord) : string * string := (cr_command_id rec, cr_attempt_id rec).

Section Rows.
Context (st : store) (rows : list result_row) (ex : list (string * string)) (en : list entry)
        (fi : list (string * string)).
Hypothesis (Hok : outbox_ok st rows ex en fi).

Lemma of_entry_normalized rec : of_entry en rec ->
  (cr_command_id rec, normalized_attempt_id (cr_command_id rec) (Some (cr_attempt_id rec))) = rec_key rec.
Proof.
  intros (x & n & Hx & ->). destruct Hok as (_ & _ & Hen & _). rewrite Forall_forall in Hen.
  destruct (Hen x Hx) as [(a & Ha & Hp & _) _]. unfold rec_key. rewrite normalized_Some; [done|].
  simpl. by rewrite Ha.
Qed.

(** The row of a record's key holds the record's result. *)
Lemma of_entry_same rec r : of_entry en rec -> row_ok en r -> row_key r = rec_key rec ->
  cr_result (command_result_record r) = cr_result rec.
Proof.
  intros (x & n & Hx & ->) [(y & m & Hy & Heq) _] Hk. rewrite Heq. destruct Hok as (_ & Hnd & _).
  assert (x = y) as <-.
  { assert (entry_key x = entry_key y) as Hxy.
    { change (entry_key x) with (rec_key (entry_record x n)). rewrite <- Hk.
      change (row_key r) with (rec_key (command_result_record r)). by rewrite Heq. }
    by eapply entry_unique. }
  done.
Qed.

(** A statement that updates rows in place, keeping key and result. *)
Lemma outbox_ok_update p f : (forall r, row_key (f r) = row_key r) ->
  (forall r, r ∈ rows -> row_ok en r -> p r = true -> row_ok en (f r)) ->
  outbox_ok st (update_where p f rows) ex en fi.
Proof.
  intros Hf Hr. destruct Hok as (Hwf & Hnd & Hen & Hrows & Hs). split_and!; try done.
  - by apply update_wf.
  - rewrite Forall_forall in *. intros r (r0 & Hr0 & ->)%elem_of_update_where.
    destruct (p r0) eqn:E; auto.
  - eapply Forall_impl; [exact Hs|]. intros x [[r H]|H]; [left|by right]. rewrite row_at_update, H by done. by eexists.
Qed.

(** A statement that deletes the row of one record. *)
Lemma outbox_ok_delete q rec fi' : of_entry en rec -> fi ⊆ fi' ->
  (forall r, r ∈ rows -> q r = false -> row_key r = rec_key rec) ->
  (forall x, x ∈ en -> entry_key x = rec_key rec -> entry_body x = completion_body rec -> is_cleanup x
     = is_agent_uninstall_cleanup_result (cr_result rec) -> settled st (List.filter q rows) fi' x) ->
  outbox_ok st (List.filter q rows) ex en fi'.
Proof.
  intros (y & n & Hy & ->) Hfi Hq Hset. destruct Hok as (Hwf & Hnd & Hen & Hrows & Hs). split_and!; try done.
  - by apply filter_wf.
  - rewrite Forall_forall in *. intros r Hr. apply Hrows. rewrite list_elem_of_In in *. by apply filter_In in Hr as [? _].
  - rewrite Forall_forall in *. intros x Hx. destruct (Hs x Hx) as [[r Hr]|[H|[? H]]].
    + destruct (q r) eqn:E; [left; rewrite row_at_filter, Hr by done; simpl; rewrite E; by eexists|].
      apply row_at_elem in Hr as Hr'. destruct Hr' as [Hin Hk]. pose proof (Hq r Hin E) as Hkr.
      assert (x = y) as ->; [|by apply Hset].
      assert (entry_key x = entry_key y) as Hxy by (rewrite <- Hk, Hkr; done).
      by eapply entry_unique.
    + right; by left.
    + right; right. set_solver.
Qed.

Lemma mark_acknowledged_ok now rec rows' :
  of_entry en rec -> is_agent_uninstall_cleanup_result (cr_result rec) = true ->
  mark_acknowledged_for_finalization now (cr_command_id rec) (Some (cr_attempt_id rec)) rows = Ok rows' ->
  outbox_ok st rows' ex en fi.
Proof.
  intros Hrec Hc. unfold mark_acknowledged_for_finalization. cbv zeta. rewrite (of_entry_normalized _ Hrec).
  destruct (_ =? 1)%nat; [|done]. intros [= <-]. apply outbox_ok_update; [done|].
  intros r _ Hr [Hk%has_key_true _]%andb_true_iff. split; [apply Hr|]. right; left. split; [done|].
  change (is_agent_uninstall_cleanup_result (cr_result (command_result_record r)) = true).
  by rewrite (of_entry_same rec r).
Qed.

Lemma record_failure_ok now error rec : of_entry en rec ->
  outbox_ok st (record_failure now (cr_command_id rec) error MAX_ATTEMPTS (Some (cr_attempt_id rec)) rows).1 ex en fi.
Proof.
  intros Hrec. rewrite record_failure_update by apply Hok. apply outbox_ok_update; [apply after_failure_key|].
  intros r _ [(x & n & Hx & Heq) Hr] _. split.
  - exists x, (x_attempt_count (after_failure now error MAX_ATTEMPTS r)). split; [done|].
    transitivity ((command_result_record r) <| cr_attempt_count
      := x_attempt_count (after_failure now error MAX_ATTEMPTS r) |>); [|by rewrite Heq].
    unfold after_failure. destruct (has_status _ r); by destruct (_ <=? _).
  - unfold after_failure. destruct (has_status COMMAND_RESULT_STATUS_PENDING r) eqn:E;
      destruct (_ <=? _) eqn:El; bool_to_prop; simpl in *; auto.
    left. by apply String.eqb_eq.
Qed.

Lemma mark_sent_ok rec : of_entry en rec -> acknowledged st (cr_command_id rec) (completion_body rec) ->
  outbox_ok st (mark_sent (cr_command_id rec) (Some (cr_attempt_id rec)) rows) ex en fi.
Proof.
  intros Hrec Hack. unfold mark_sent. rewrite (of_entry_normalized _ Hrec).
  apply (outbox_ok_delete _ rec); [done|done| |].
  - by intros r _ Hk%negb_false_iff%has_key_true.
  - intros x Hx [= Hc _] Hb _. right; left. by rewrite Hc, Hb.
Qed.

Lemma mark_finalized_ok rec : of_entry en rec -> is_agent_uninstall_cleanup_result (cr_result rec) = true ->
  outbox_ok st (mark_finalized (cr_command_id rec) (Some (cr_attempt_id rec)) rows) ex en (fi ++ [rec_key rec]).
Proof.
  intros Hrec Hc. unfold mark_finalized. cbv zeta. rewrite (of_entry_normalized _ Hrec).
  apply (outbox_ok_delete _ rec); [done|set_solver| |].
  - by intros r _ [Hk%has_key_true _]%negb_false_iff%andb_true_iff.
  - intros x Hx Hk _ Hcl. right; right. rewrite Hcl, Hk. split; [done|set_solver].
Qed.

(** After the answer to a report, whatever it was. *)
Lemma report_answered_ok now rec answer rows' outcome : of_entry en rec ->
  (answer = Ok tt -> acknowledged st (cr_command_id rec) (completion_body rec)) ->
  report_answered MAX_ATTEMPTS status_text now rec answer rows = (rows', outcome) ->
  outbox_ok st rows' ex en fi
  /\ (outcome = ToFinalize -> is_agent_uninstall_cleanup_result (cr_result rec) = true).
Proof.
  intros Hrec Hack.
  assert (Hfailed : forall exc rows' outcome, report_failed MAX_ATTEMPTS status_text now rec exc rows = (rows', outcome) ->
    outbox_ok st rows' ex en fi
    /\ (outcome = ToFinalize -> is_agent_uninstall_cleanup_result (cr_result rec) = true)).
  { intros exc rows1 o. unfold report_failed. destruct (should_finalize_uninstall_after_lost_ack rec exc) eqn:E.
    - apply andb_true_iff in E as [[_ Hc]%andb_true_iff _].
      destruct (mark_acknowledged_for_finalization _ _ _ _) as [rows2|] eqn:Hm; intros [= <- <-];
        (split; [|done]); [by eapply mark_acknowledged_ok|done].
    - intros [= <- <-]. split; [by apply record_failure_ok|done]. }
  unfold report_answered. destruct answer as [[]|exc]; [|apply Hfailed].
  destruct (is_agent_uninstall_cleanup_result _) eqn:Hc; [|intros [= <- <-]; split; [by apply mark_sent_ok; auto|done]].
  destruct (mark_acknowledged_for_finalization _ _ _ _) as [rows2|] eqn:Hm; [|apply Hfailed].
  intros [= <- <-]. split; [by eapply mark_acknowledged_ok|done].
Qed.

(** A result that was just executed joins the table. *)
Lemma enqueue_ok now c res : command_ok c -> attempt_key c ∈ ex -> attempt_key c ∉ (entry_key <$> en) ->
  outbox_ok st (enqueue_result now (c_command_id c) (c_workspace_id c) (default "" (c_lease_id c)) agent_id res
                  (truthy (c_active_attempt_id c)) rows) ex (en ++ [(c, res)]) fi.
Proof.
  intros (a & Ha & Hp) Hex Hnew.
  assert (Hkey : (c_command_id c, normalized_attempt_id (c_command_id c) (truthy (c_active_attempt_id c)))
                 = attempt_key c).
  { unfold attempt_key. rewrite Ha. simpl. rewrite (proj2 (String.eqb_neq _ _) (proj1 Hp)).
    by rewrite normalized_Some by apply Hp. }
  destruct Hok as (Hwf & Hnd & Hen & Hrows & Hs).
  pose proof (enqueue_result_wf now (c_command_id c) (c_workspace_id c) (default "" (c_lease_id c)) agent_id res
                (truthy (c_active_attempt_id c)) rows Hwf) as Hwf'.
  destruct (enqueue_row_at now (c_command_id c) (c_workspace_id c) (default "" (c_lease_id c)) agent_id res
                (truthy (c_active_attempt_id c)) rows) as (r & Hr & _).
  assert (Hno : existsb (has_key (attempt_key c)) rows = false).
  { apply not_true_iff_false. intros (r0 & Hin & Hk%has_key_true)%existsb_exists. apply Hnew.
    rewrite Forall_forall in Hrows. destruct (Hrows r0) as [(x & n & Hx & Heq) _]; [by rewrite list_elem_of_In|].
    apply list_elem_of_fmap. exists x. split; [|done]. rewrite <- Hk.
    change (row_key r0) with (rec_key (command_result_record r0)). by rewrite Heq. }
  split_and!; [done| | | |].
  - rewrite fmap_app. apply NoDup_app. split_and!; [done| |apply NoDup_singleton].
    by intros k Hk ->%list_elem_of_singleton.
  - apply Forall_app. split; [done|]. constructor; [|done]. split; [by exists a|done].
  - unfold enqueue_result. rewrite Hkey, Hno. apply Forall_app. split.
    + eapply Forall_impl; [exact Hrows|]. intros r0 [? ?]. split; [by apply of_entry_mono|done].
    + constructor; [|done]. split; [|by left]. exists (c, res), 0. split; [apply elem_of_app; right; by left|].
      unfold command_result_record, entry_record. simpl. by rewrite Ha.
  - apply Forall_app. split; [|constructor; [left; unfold entry_key; simpl; rewrite <- Hkey; by exists r|done]].
    rewrite Forall_forall in *. intros x Hx. destruct (Hs x Hx) as [[r0 H]|H]; [left|by right].
    rewrite enqueue_row_other; [by exists r0|]. rewrite Hkey. intros Heq. apply Hnew.
    apply list_elem_of_fmap. by exists x.
Qed.
End Rows.

(** *** What each part of a step keeps *)

Section Steps.
Context (ex : list (string * string)) (en : list entry) (fi : list (string * string)).

Lemma inv_plane st' gs w : later (p_store (w_plane w)) st' -> invariant ex en fi w ->
  invariant ex en fi (set_plane {| p_store := st'; p_registrations := gs |} w).
Proof.
  intros Hl [Hok Hp He Hpo Hf Ho]. split; simpl; eauto using later_ok, later_proper, exec_ok_later, outbox_ok_later.
Qed.

(** A change of the network. *)
Lemma inv_network w w' : invariant ex en fi w ->
  net_later (w_network w) (w_next w) (w_network w') (w_next w') ->
  w_plane w' = w_plane w -> w_outbox w' = w_outbox w -> w_poller w' = w_poller w -> w_flusher w' = w_flusher w ->
  exec_ok (p_store (w_plane w)) (w_network w') (w_next w') ex -> invariant ex en fi w'.
Proof.
  intros [Hok Hp He Hpo Hf Ho] Hn Hpl Hou Hpol Hfl Hex.
  split; rewrite ?Hpl, ?Hou, ?Hpol; try done; [by eapply poller_ok_later|].
  intros t. eapply flush_ok_later; [exact Hn|]. specialize (Hf t). destruct t; simpl in *; by rewrite ?Hpol, ?Hfl.
Qed.

Lemma inv_delete rid w : invariant ex en fi w -> invariant ex en fi (with_network (delete rid) w).
Proof.
  intros H. eapply inv_network; [exact H|apply net_later_delete|done..|]. apply exec_ok_delete, H.
Qed.

Lemma inv_send q w : invariant ex en fi w -> invariant ex en fi (send token q w).
Proof. intros H. eapply inv_network; [exact H|apply net_later_send|done..|]. apply exec_ok_send, H. Qed.

Lemma inv_set_poller p w : invariant ex en fi w -> poller_ok (w_network w) (w_next w) ex en p ->
  match p with Flushing _ => False | _ => True end -> invariant ex en fi (set_poller p w).
Proof.
  intros [Hok Hp He Hpo Hf Ho] Hnew Hnf. split; simpl; try done. intros t. specialize (Hf t).
  destruct t; [by destruct p|exact Hf].
Qed.

Lemma inv_set_flush t f w : invariant ex en fi w -> flush_ok (w_network w) (w_next w) en f ->
  invariant ex en fi (set_flush t f w).
Proof.
  intros [Hok Hp He Hpo Hf Ho] Hnew. destruct t; split; simpl; try done.
  - by destruct f.
  - intros []; simpl; [by destruct f|]. apply (Hf Flusher).
  - intros []; simpl; [|done]. apply (Hf Poller).
Qed.

Lemma inv_restart w : invariant ex en fi w -> invariant ex en fi (restart w).
Proof. intros [Hok Hp He Hpo Hf Ho]. split; simpl; try done. by intros []. Qed.

Lemma inv_set_outbox rows w : invariant ex en fi w -> outbox_ok (p_store (w_plane w)) rows ex en fi ->
  invariant ex en fi (set_outbox rows w).
Proof. intros [Hok Hp He Hpo Hf Ho] Hnew. split; simpl; try done. Qed.

Lemma selected_entry status f rows st rec : outbox_ok st rows ex en fi -> select_first status f rows = Some rec ->
  of_entry en rec /\ (status = COMMAND_RESULT_STATUS_ACKED_FINALIZATION_PENDING ->
                      is_agent_uninstall_cleanup_result (cr_result rec) = true).
Proof.
  intros (Hwf & _ & _ & Hrows & _) (r & [Hin _]%row_at_elem & <- & Hs)%select_first_record; [|done].
  rewrite Forall_forall in Hrows. destruct (Hrows r Hin) as [Hen Hst]. split; [done|]. intros ->.
  destruct Hst as [H|[[_ ?]|[H _]]]; [|done|]; rewrite Hs in H; done.
Qed.

Lemma inv_flush_once t w : invariant ex en fi w -> invariant ex en fi (flush_command_results_once token t w).
Proof.
  intros H. unfold flush_command_results_once.
  destruct (next_finalization _) as [rec|] eqn:Hfin.
  { eapply selected_entry in Hfin as [? ?]; [|apply H]. apply inv_set_flush; [done|]. split; [done|]. auto. }
  destruct (next_result _) as [rec|] eqn:Hres; [|by apply inv_set_flush].
  eapply selected_entry in Hres as [? _]; [|apply H].
  apply inv_set_flush; [by apply inv_send|]. split; [done|]. split; [simpl; lia|].
  intros e. simpl. rewrite lookup_insert_eq. by intros [= <-].
Qed.

Lemma inv_settle t now rec answer w : invariant ex en fi w -> of_entry en rec ->
  (answer = Ok tt -> acknowledged (p_store (w_plane w)) (cr_command_id rec) (completion_body rec)) ->
  invariant ex en fi (settle MAX_ATTEMPTS status_text t now rec answer w).
Proof.
  intros H Hrec Hack. unfold settle. destruct (report_answered _ _ _ _ _ _) as [rows outcome] eqn:Hr.
  eapply report_answered_ok in Hr as [Ho Hc]; [|apply H|done|done].
  apply (inv_set_outbox rows) in H; [|done]. destruct outcome; [| |destruct t].
  - apply inv_set_flush; [done|]. split; [done|]. auto.
  - by apply inv_set_flush.
  - by apply inv_set_flush.
  - by apply inv_restart.
Qed.

Lemma inv_serve rid e d p s w : invariant ex en fi w -> w_network w !! rid = Some e ->
  event_log (p_store (w_plane w)) !! d_event_id d = None -> srv d (w_plane w) e = (p, s) ->
  invariant ex en fi (with_network <[rid := {| e_request := e_request e; e_stage := s |}]> (set_plane p w)).
Proof.
  intros H He Hnew Hs. pose proof (serve_later _ _ _ _ _ Hs) as Hl. pose proof H as [Hok Hp Hex _ _ _].
  assert (Hw : invariant ex en fi (set_plane p w)) by (destruct p as [st gs]; by apply inv_plane).
  eapply inv_network; [exact Hw|by apply net_later_stage|done..|]. simpl.
  pose proof (proj2 (proj2 Hex) rid e He) as (Hlt & Hee & _).
  eapply exec_ok_put; [by eapply exec_ok_later|done|done|by eapply serve_ok|].
  intros k Hk. destruct (serve_started _ _ _ _ _ _ Hs Hk) as [Hk0|Hns]; [left; eauto|right].
  destruct Hex as (_ & Hsp & Hnet). split; [intros Hin; by apply Hns, Hsp|].
  intros rid' e' He' Hk'. apply Hns. destruct (Hnet rid' e' He') as (_ & Hok' & _).
  unfold started_key in Hk'. unfold exchange_ok in Hok'.
  destruct e' as [[|cid ? ? [a|]|] [| | | | |[]]]; simpl in *; try done. by injection Hk' as <-.
Qed.
End Steps.

(** The start of an execution. *)
Lemma inv_execute ex en fi rid c q correlation w : invariant ex en fi w -> w_poller w = AwaitingStart rid c ->
  w_network w !! rid = Some {| e_request := q; e_stage := Replied (StartedReply correlation) |} ->
  invariant (ex ++ [attempt_key c]) en fi (set_poller (Executing c) (with_network (delete rid) w)).
Proof.
  intros [Hst Hpr He Hpo Hf Ho] Hw Hnet. rewrite Hw in Hpo. destruct Hpo as [(a & Ha & Hp) [_ Hq]].
  specialize (Hq _ Hnet). simpl in Hq. subst q. pose proof (proj2 (proj2 He) _ _ Hnet) as (_ & Hok & Hu).
  assert (Hreq : request_key (start_request agent_id c) = Some (attempt_key c)).
  { unfold start_request, attempt_key, truthy. rewrite Ha. by rewrite (proj2 (String.eqb_neq _ _) (proj1 Hp)). }
  assert (Hsp : spent (attempt_key c).1 (attempt_key c).2 (p_store (w_plane w))).
  { unfold exchange_ok, start_request, truthy, attempt_key in *. simpl in *. rewrite Ha in *.
    rewrite (proj2 (String.eqb_neq _ _) (proj1 Hp)) in Hok. exact Hok. }
  assert (Hnew : attempt_key c ∉ ex) by (by apply (Hu (attempt_key c))).
  destruct Ho as (Hwf & Hnd & Hen & Hrows & Hs). split; simpl; try done.
  - by eapply exec_ok_execute.
  - split_and!; [by exists a|set_solver|]. intros (x & Hx & Hin)%list_elem_of_fmap.
    rewrite Forall_forall in Hen. destruct (Hen x Hin) as [_ Hxe]. apply Hnew. by rewrite Hx.
  - intros []; simpl; [done|]. eapply flush_ok_later; [apply net_later_delete|]. apply (Hf Flusher).
  - split_and!; try done. eapply Forall_impl; [exact Hen|]. intros x [? ?]. split; [done|set_solver].
Qed.

(** The end of an execution, and the flush that follows it. *)
Lemma inv_enqueue ex en fi now c res w : invariant ex en fi w -> w_poller w = Executing c ->
  invariant ex (en ++ [(c, res)]) fi
    (flush_command_results_once token Poller (enqueue_executed now agent_id c res w)).
Proof.
  intros [Hst Hpr He Hpo Hf Ho] Hw. rewrite Hw in Hpo. destruct Hpo as (Hc & Hex & Hnew).
  set (w1 := set_poller Polling (enqueue_executed now agent_id c res w)).
  assert (flush_command_results_once token Poller (enqueue_executed now agent_id c res w)
          = flush_command_results_once token Poller w1) as ->.
  { unfold flush_command_results_once. simpl. by repeat case_match. }
  assert (H1 : invariant ex (en ++ [(c, res)]) fi w1); [|by apply inv_flush_once].
  split; simpl; try done.
  - intros []; simpl; [done|]. specialize (Hf Flusher). simpl in Hf.
    destruct (w_flusher w); simpl in *; intuition eauto using of_entry_mono.
  - by eapply enqueue_ok.
Qed.

(** The answer to a report. *)
Lemma inv_reported ex en fi t rid rec q r now w : invariant ex en fi w -> flush_of t w = Reporting rid rec ->
  w_network w !! rid = Some {| e_request := q; e_stage := Replied r |} ->
  invariant ex en fi (settle MAX_ATTEMPTS status_text t now rec (raise_for_status r) (with_network (delete rid) w)).
Proof.
  intros H Hw Hnet. pose proof (inv_flush _ _ _ _ H t) as Hf. rewrite Hw in Hf. destruct Hf as [Hrec [_ Hq]].
  specialize (Hq _ Hnet). simpl in Hq. subst q.
  pose proof (proj2 (proj2 (inv_exec _ _ _ _ H)) _ _ Hnet) as (_ & Hok & _).
  apply inv_settle; [by apply inv_delete|done|]. intros Hr. simpl.
  unfold exchange_ok, report_request in Hok. simpl in Hok. by destruct r.
Qed.

(** The answer of the Kubernetes API to the agent's removal. *)
Lemma inv_finalized ex en fi t rec deleted w : invariant ex en fi w -> flush_of t w = Finalizing rec ->
  invariant ex en (fi ++ match deleted with Some _ => [rec_key rec] | None => [] end)
    (set_flush t Resting (set_outbox (finalization_answered rec deleted (w_outbox w)) w)).
Proof.
  intros H Hw. pose proof (inv_flush _ _ _ _ H t) as Hf. rewrite Hw in Hf. destruct Hf as [Hrec Hc].
  destruct deleted as [u|]; [|rewrite app_nil_r; apply inv_set_flush; [apply inv_set_outbox; [done|apply H]|done]].
  assert (Ho : outbox_ok (p_store (w_plane w)) (finalization_answered rec (Some u) (w_outbox w)) ex en
                 (fi ++ [rec_key rec])) by (apply mark_finalized_ok; [apply H|done|done]).
  destruct H as [Hst Hpr He Hpo Hf _]. destruct t; split; simpl; try done.
  - intros []; [done|]. apply (Hf Flusher).
  - intros []; [|done]. apply (Hf Poller).
Qed.

Lemma step_invariant ex en fi w l w' : astep w l w' -> invariant ex en fi w ->
  invariant (ex ++ executed [l]) (en ++ enqueued [l]) (fi ++ finalized [l]) w'.
Proof.
  intros Hstep H. destruct Hstep; unfold executed, enqueued, finalized; simpl; rewrite ?app_nil_r.
  - apply inv_plane; [|done]. right. destruct H0 as (Hs & Hf & Hd). exists o. by split.
  - apply inv_plane; [|done]. by left.
  - by eapply inv_serve.
  - eapply inv_network; [exact H|by apply net_later_stage|done..|].
    pose proof (proj2 (proj2 (inv_exec _ _ _ _ H)) rid e H0) as (Hlt & _).
    eapply exec_ok_put; [apply H|done|done|apply recorded_exchange_failed|done].
  - by apply inv_delete.
  - apply inv_set_poller; [by apply inv_send| |done]. split; [simpl; lia|].
    intros e. simpl. rewrite lookup_insert_eq. intros [= <-]. by eexists.
  - pose proof (inv_poller _ _ _ _ H) as Hpo. rewrite H0 in Hpo. destruct Hpo as [_ Hq].
    destruct (Hq _ H1) as [a Ha]. simpl in Ha. subst q.
    pose proof (proj2 (proj2 (inv_exec _ _ _ _ H)) _ _ H1) as (_ & Hok & _).
    apply inv_set_poller; [by apply inv_send, inv_delete| |done]. split; [exact Hok|].
    split; [simpl; lia|]. intros e. simpl. rewrite lookup_insert_eq. by intros [= <-].
  - by apply inv_set_poller.
  - by eapply inv_execute.
  - by apply inv_set_poller.
  - by apply inv_enqueue.
  - by apply inv_set_poller.
  - by apply inv_flush_once.
  - destruct (escaped _ _ _ _ _ _ _); rewrite !app_nil_r; by eapply inv_reported.
  - pose proof (inv_flush _ _ _ _ H t) as Hf. rewrite H0 in Hf. destruct Hf as [Hrec _]. by apply inv_settle.
  - pose proof (inv_finalized _ _ _ t rec deleted w H H0) as Hfin.
    destruct deleted; simpl; rewrite ?app_nil_r in *; exact Hfin.
  - by apply inv_restart.
Qed.

Lemma run_invariant ex en fi w tr w' : steps astep w tr w' -> invariant ex en fi w ->
  invariant (ex ++ executed tr) (en ++ enqueued tr) (fi ++ finalized tr) w'.
Proof.
  intros H. revert ex en fi. induction H as [w|w l w1 tr w2 Hstep _ IH]; intros ex en fi Hi.
  - by rewrite !app_nil_r.
  - eapply step_invariant in Hi; [|exact Hstep]. apply IH in Hi.
    rewrite <- !(assoc_L (++)) in Hi. unfold executed, enqueued, finalized in *.
    rewrite <- !omap_app in Hi. exact Hi.
Qed.

Lemma start_invariant gs : invariant [] [] [] (start_world gs).
Proof.
  split; simpl; try done.
  - apply run_ok_empty.
  - intros r a Hr. by apply elem_of_nil in Hr.
  - split_and!; [constructor|set_solver|]. intros rid e He. by rewrite lookup_empty in He.
  - by intros [].
  - split_and!; try constructor.
Qed.

(** C20. The agent executes no attempt of a command twice, whatever is lost,
    delayed or crashes; and what it executed the server never hands out
    again. *)
Theorem executed_at_most_once gs tr w : steps astep (start_world gs) tr w ->
  NoDup (executed tr)
  /\ forall cid a r, (cid, a) ∈ executed tr -> r ∈ commands (p_store (w_plane w)) -> c_command_id r = cid ->
       c_active_attempt_id r = Some a -> c_status r <> QUEUED /\ c_status r <> LEASED.
Proof.
  intros H%(run_invariant [] [] []); [|apply start_invariant]. destruct H as [_ _ (Hnd & Hsp & _) _ _ _].
  split; [done|]. intros cid a r Hin Hr Hid Ha. destruct (Hsp _ Hin) as [_ Hs]. specialize (Hs r Hr Hid Ha).
  by split; intros Heq; rewrite Heq in Hs.
Qed.

(** C19. A result the agent stored is never lost silently: it waits in the outbox,
    or was given up after the configured number of failed reports, or the
    server recorded its completion, or it was the receipt of the agent's own
    removal. *)
Theorem result_accounted_for gs tr w c res : steps astep (start_world gs) tr w -> (c, res) ∈ enqueued tr ->
  (exists r, row_at (attempt_key c) (w_outbox w) = Some r /\ cr_result (command_result_record r) = res
     /\ (x_status r = COMMAND_RESULT_STATUS_PENDING
         \/ x_status r = COMMAND_RESULT_STATUS_ACKED_FINALIZATION_PENDING
            /\ is_agent_uninstall_cleanup_result res = true
         \/ x_status r = COMMAND_RESULT_STATUS_ABANDONED /\ Z.max 1 MAX_ATTEMPTS <= x_attempt_count r))
  \/ (exists id p, validate (entry_body (c, res)) = Some p
        /\ (recorded (p_store (w_plane w)) (c_command_id c) (reported_result id p) \/ verified_cleanup p = true))
  \/ is_agent_uninstall_cleanup_result res = true /\ attempt_key c ∈ finalized tr.
Proof.
  intros H%(run_invariant [] [] []) Hin; [|apply start_invariant].
  destruct H as [_ _ _ _ _ Ho]. pose proof Ho as (Hwf & Hnd & Hen & Hrows & Hs).
  rewrite Forall_forall in Hs. rewrite Forall_forall in Hrows. destruct (Hs _ Hin) as [[r Hr]|H]; [left|by right].
  exists r. apply row_at_elem in Hr as Hk. destruct Hk as [Hrin Hk].
  assert (Hres : cr_result (command_result_record r) = res).
  { apply (of_entry_same _ _ _ _ _ Ho (entry_record (c, res) 0) r); [by exists (c, res), 0|by apply Hrows|done]. }
  split_and!; [done|done|]. destruct (Hrows r Hrin) as [_ Hst]. by rewrite <- Hres.
Qed.
End Delivery.
