(* ===== verification/AgentScenarios.v ===== *)
(** Runs of the agent's command loop that are executed: a scheduler for the
    steps of [AgentLoop], the runs that exercise its theorems, and the runs
    that show what the loop does not guarantee. *)

From S2P Require Import Prelude PyString Json EventStore CommandLifecycle CommandCatalog CommandStore.
From S2P Require Import CommandRuns CommandSafety Uninstall AgentOutbox CommandEndpoints AgentLoop AgentDelivery.
From coqutil Require Import Datatypes.RecordSettersUsingExistingGetters.
#[global] Open Scope Z_scope.

(** ** A scheduler *)

Section Scheduler.
Context (sha256_hex quote : string -> string) (specs : catalog) (int_of_text : string -> option Z).
Context (timestamp_of : string -> Z) (uuid5 clock_text : string -> string).
Context (validate : odict json -> option CommandResultRequest) (LEASE_SECONDS MAX_ATTEMPTS : Z).
Context (status_text : Z -> string) (token agent_id : string).

Let astep := agent_step sha256_hex quote specs int_of_text timestamp_of uuid5 clock_text validate
               LEASE_SECONDS MAX_ATTEMPTS status_text token agent_id.

Inductive act : Type :=
| Plane (o : command_op)
| Serve (rid : nat) (d : draws)
| Poll
| PollAnswered
| StartAnswered
| Executed (now : Z) (result : odict json)
| Flush
| Answered (t : task) (now : Z)
| TimedOut (t : task) (now : Z)
| KubeAnswered (t : task) (kube : list kube_call -> kube_call -> option (odict json))
| Crash.

Definition drawable (o : command_op) (st : store) : bool :=
  match drawn o with
  | Some a => bool_decide (a ∉ attempt_ids st) && negb (String.eqb a "") && negb (is_legacy a)
  | None => true
  end.

(** The step an act stands for, when it is possible. *)
Definition perform (a : act) (w : world) : option (label * world) :=
  match a with
  | Plane o =>
      if drawable o (p_store (w_plane w)) then
        match apply sha256_hex quote specs int_of_text timestamp_of uuid5 clock_text o (p_store (w_plane w)) with
        | Ok st' => Some (Silent, set_plane {| p_store := st'; p_registrations := p_registrations (w_plane w) |} w)
        | Err _ => None
        end
      else None
  | Serve rid d =>
      match w_network w !! rid, events (bus (p_store (w_plane w))) !! d_event_id d with
      | Some e, None =>
          let (p, s) := serve_request sha256_hex specs int_of_text validate LEASE_SECONDS d (w_plane w) e in
          Some (Silent, with_network <[rid := {| e_request := e_request e; e_stage := s |}]> (set_plane p w))
      | _, _ => None
      end
  | Poll =>
      match w_poller w with
      | Polling => Some (Silent, set_poller (AwaitingCommand (w_next w)) (send token (PollCommand agent_id) w))
      | _ => None
      end
  | PollAnswered =>
      match w_poller w with
      | AwaitingCommand rid =>
          match w_network w !! rid with
          | Some {| e_stage := Replied (Polled (Some command)) |} =>
              Some (Silent, set_poller (AwaitingStart (w_next w) command)
                 (send token (start_request agent_id command) (with_network (delete rid) w)))
          | _ => None
          end
      | _ => None
      end
  | StartAnswered =>
      match w_poller w with
      | AwaitingStart rid command =>
          match w_network w !! rid with
          | Some {| e_stage := Replied (StartedReply _) |} =>
              Some (Executes command, set_poller (Executing command) (with_network (delete rid) w))
          | _ => None
          end
      | _ => None
      end
  | Executed now result =>
      match w_poller w with
      | Executing command =>
          Some (Enqueues command result,
                flush_command_results_once token Poller (enqueue_executed now agent_id command result w))
      | _ => None
      end
  | Flush =>
      match w_flusher w with
      | Resting => Some (Silent, flush_command_results_once token Flusher w)
      | _ => None
      end
  | Answered t now =>
      match flush_of t w with
      | Reporting rid rec =>
          match w_network w !! rid with
          | Some {| e_stage := Replied r |} =>
              Some (if escaped MAX_ATTEMPTS status_text t now rec (raise_for_status r) w then Dies else Silent,
                    settle MAX_ATTEMPTS status_text t now rec (raise_for_status r) (with_network (delete rid) w))
          | _ => None
          end
      | _ => None
      end
  | TimedOut t now =>
      match flush_of t w with
      | Reporting _ rec =>
          Some (Silent, settle MAX_ATTEMPTS status_text t now rec (Err (OtherError "ReadTimeout")) w)
      | _ => None
      end
  | KubeAnswered t kube =>
      match flush_of t w with
      | Finalizing rec =>
          let deleted := (finalize_agent_installation_cleanup kube []).2 in
          Some (match deleted with Some _ => Finalizes rec | None => Silent end,
                set_flush t Resting (set_outbox (finalization_answered rec deleted (w_outbox w)) w))
      | _ => None
      end
  | Crash => Some (Silent, restart w)
  end.

Lemma perform_step a w l w' : perform a w = Some (l, w') -> astep w l w'.
Proof.
  intros H. destruct a; simpl in H.
  - destruct (drawable o _) eqn:Hd; [|done]. destruct (apply _ _ _ _ _ _ _ _ _) as [st'|] eqn:Ha; [|done].
    injection H as <- <-. eapply step_plane. split; [exact Ha|]. unfold drawable in Hd. unfold fresh.
    destruct (drawn o) as [a|]; [|done]. bool_to_prop. split; [done|]. by intros a' [= <-].
  - destruct (w_network w !! rid) as [e|] eqn:He; [|done]. destruct (events _ !! _) eqn:Hev; [done|].
    destruct (serve_request _ _ _ _ _ _ _ _) as [p s] eqn:Hs. injection H as <- <-. by eapply step_serve.
  - destruct (w_poller w) eqn:Hp; try done. injection H as <- <-. by apply step_poll.
  - destruct (w_poller w) as [|rid| | |] eqn:Hp; try done.
    destruct (w_network w !! rid) as [[q [| | | | |[[c|]| | |]]]|] eqn:He; try done. injection H as <- <-.
    by eapply step_polled.
  - destruct (w_poller w) as [| |rid c| |] eqn:Hp; try done.
    destruct (w_network w !! rid) as [[q [| | | | |[| | |]]]|] eqn:He; try done. injection H as <- <-.
    by eapply step_started.
  - destruct (w_poller w) eqn:Hp; try done. injection H as <- <-. by apply step_executed.
  - destruct (w_flusher w) eqn:Hp; try done. injection H as <- <-. by apply step_flush.
  - destruct (flush_of t w) as [|rid rec|] eqn:Hf; try done.
    destruct (w_network w !! rid) as [[q [| | | | |r]]|] eqn:He; try done. injection H as <- <-.
    by eapply step_reported.
  - destruct (flush_of t w) as [|rid rec|] eqn:Hf; try done. injection H as <- <-. by eapply step_report_times_out.
  - destruct (flush_of t w) as [|rid rec|] eqn:Hf; try done. injection H as <- <-. by apply step_finalized.
  - injection H as <- <-. apply step_crash.
Qed.

Fixpoint perform_all (acts : list act) (w : world) : option (list label * world) :=
  match acts with
  | [] => Some ([], w)
  | a :: acts =>
      '(l, w) ← perform a w;
      '(tr, w) ← perform_all acts w;
      Some (l :: tr, w)
  end.

Lemma perform_all_steps acts w tr w' : perform_all acts w = Some (tr, w') -> steps astep w tr w'.
Proof.
  revert w tr. induction acts as [|a acts IH]; simpl; intros w tr H; [injection H as <- <-; constructor|].
  apply bind_Some in H as ([l w1] & H1 & H). apply bind_Some in H as ([tr1 w2] & H2 & [= <- <-]).
  econstructor; [by eapply perform_step|by apply IH].
Qed.
End Scheduler.

(** ** Concrete parameters *)

Module Sample.
(** The fields FastAPI reads with the types they have, and their defaults. *)
Definition str_field (body : odict json) (key dflt : string) : option string :=
  match dict_get key body with None => Some dflt | Some (JStr s) => Some s | Some _ => None end.
Definition bool_field (body : odict json) (key : string) : option bool :=
  match dict_get key body with None => Some false | Some (JBool b) => Some b | Some _ => None end.
Definition strs_field (body : odict json) (key : string) : option (list string) :=
  match dict_get key body with
  | None => Some []
  | Some (JArr items) => mapM (fun v => match v with JStr s => Some s | _ => None end) items
  | Some _ => None
  end.

Definition declared : list string :=
  ["status"; "cluster_id"; "workspace_id"; "agent_id"; "lease_id"; "attempt_id"; "applied"; "message";
   "retryable"; "resources"; "stdout"; "stderr"; "cleanup_completed"; "cleanup_resources";
   "residual_resources"; "resource_file"].

Definition validate (body : odict json) : option CommandResultRequest :=
  status ← str_field body "status" "completed";
  cluster ← str_field body "cluster_id" "local";
  workspace ← str_field body "workspace_id" "default";
  agent ← str_field body "agent_id" "";
  lease ← str_field body "lease_id" "";
  applied ← bool_field body "applied";
  message ← str_field body "message" "";
  retry ← bool_field body "retryable";
  stdout ← str_field body "stdout" "";
  stderr ← str_field body "stderr" "";
  cleaned ← bool_field body "cleanup_completed";
  refs ← strs_field body "cleanup_resources";
  residual ← strs_field body "residual_resources";
  Some {| q_status := status; q_cluster_id := cluster; q_result_workspace_id := workspace;
          q_agent_id := agent; q_lease_id := lease;
          q_attempt_id := match dict_get "attempt_id" body with Some (JStr a) => Some a | _ => None end;
          q_applied := applied; q_message := message; q_retryable := retry; q_resources := [];
          q_stdout := stdout; q_stderr := stderr; q_cleanup_completed := cleaned; q_cleanup_resources := refs;
          q_residual_resources := residual; q_resource_file := None;
          q_extra := base.filter (fun kv => kv.1 ∉ declared) body |}.

Definition registration : ClusterRegistration :=
  {| g_workspace_id := "w"; g_cluster_id := "c"; g_name := "cluster"; g_environment := "test";
     g_status := REGISTERED; g_agent_token_hash := Some "token"; g_envelope_public_key := None;
     g_envelope_private_key := None; g_settings := [] |}.

Definition status_text (_ : Z) : string := "HTTPStatusError".

Definition step := agent_step Demo.same json_string Demo.specs Demo.no_int Demo.epoch Demo.same Demo.same
  validate 60 5 status_text "token" "agent".
Definition run := perform_all Demo.same json_string Demo.specs Demo.no_int Demo.epoch Demo.same Demo.same
  validate 60 5 status_text "token" "agent".

Definition origin : world := start_world [registration].

(** The draws of a transaction at [now], in seconds. *)
Definition at_ (now : Z) (lease event : string) : draws :=
  {| d_now := now * SECOND; d_lease_id := lease; d_event_id := event; d_created_at := "t" |}.

(** From the queue to the execution of an attempt. *)
Definition executing (rid : nat) (now : Z) (lease : string) : list act :=
  [Poll; Serve rid (at_ now lease "-"); Serve rid (at_ now lease "-"); PollAnswered;
   Serve (S rid) (at_ now lease "-"); Serve (S rid) (at_ now lease "-"); StartAnswered].

(** A report served to its end. *)
Definition served (rid : nat) (now : Z) (event : string) (n : nat) : list act :=
  repeat (Serve rid (at_ now "-" event)) n.

Definition finished : odict json := command_result "completed" "c" "done" true [].

(** A command whose result is reported, the answer lost, and reported again. *)
Definition ordinary_run : list act :=
  [Plane (Queue (1 * SECOND) "corr" Demo.sample_plan "att-1")] ++ executing 0 10 "lease-1"
  ++ [Executed (12 * SECOND) finished] ++ served 2 13 "evt-1" 3 ++ [TimedOut Poller (14 * SECOND); Flush]
  ++ served 3 15 "evt-2" 4 ++ [Answered Flusher (16 * SECOND)].

Definition ordinary_end : list label * world := default ([], origin) (run ordinary_run origin).

Example ordinary_run_ex :
  executed ordinary_end.1 = [("cmd-1", "att-1")]
  /\ map c_status (commands (p_store (w_plane ordinary_end.2))) = [COMPLETED]
  /\ map (fun r => (x_status r, x_attempt_count r)) (w_outbox ordinary_end.2) = [("pending", 2)].
Proof. vm_compute. done. Qed.

Lemma run_steps acts : is_Some (run acts origin) ->
  steps step origin (default ([], origin) (run acts origin)).1 (default ([], origin) (run acts origin)).2.
Proof. intros [[tr w] H]. rewrite H. by eapply perform_all_steps. Qed.

(** *** The removal of the agent *)

Definition uninstall_plan : odict json :=
  agent_uninstall_plan (fun _ => "0123456789abcdef0123456789abcdef") Uninstall.Sample.settings "c" "w" "admin" "corr-u".

(** The report times out while the gateway hangs, and the next one reaches a
    server on which the lease has run out. *)
Definition late_uninstall : list act :=
  [Plane (Queue (1 * SECOND) "corr-u" uninstall_plan "att-1")] ++ executing 0 10 "lease-1"
  ++ [Executed (20 * SECOND) Uninstall.Sample.cleanup; TimedOut Poller (80 * SECOND); Flush]
  ++ served 3 90 "evt-1" 3 ++ [Answered Flusher (91 * SECOND); KubeAnswered Flusher Uninstall.Sample.kube;
     Plane (Sweep (600 * SECOND) 300 1800 "api" None)].

Definition late_end : list label * world := default ([], origin) (run late_uninstall origin).

Example late_uninstall_ex :
  finalized late_end.1 = [("cmd-uninstall-0123456789abcdef01234567", "att-1")]
  /\ map c_status (commands (p_store (w_plane late_end.2))) = [FAILED]
  /\ map g_status (p_registrations (w_plane late_end.2)) = [REGISTERED]
  /\ w_outbox late_end.2 = [].
Proof. vm_compute. done. Qed.

Lemma late_facts :
  match enqueued late_end.1 with
  | (c, _) :: _ =>
      String.eqb (c_action c) Command.CLUSTER_AGENT_UNINSTALL_ACTION
      && bool_decide (attempt_key c ∈ finalized late_end.1)
      && existsb (fun r => String.eqb (c_command_id r) (c_command_id c) && bool_decide (c_status r = FAILED))
           (commands (p_store (w_plane late_end.2))) = true
  | [] => False
  end.
Proof. vm_compute. reflexivity. Qed.

(** The agent can remove itself from the cluster although the server never got
    its receipt: there the command has failed, and the registration is as it
    was, so that the server goes on accepting the agent's token. *)
Theorem removed_without_record : exists tr w c res,
  steps step origin tr w /\ (c, res) ∈ enqueued tr /\ c_action c = Command.CLUSTER_AGENT_UNINSTALL_ACTION
  /\ attempt_key c ∈ finalized tr
  /\ (exists r, r ∈ commands (p_store (w_plane w)) /\ c_command_id r = c_command_id c /\ c_status r = FAILED)
  /\ require_cluster_agent Demo.same "token" (w_plane w) = Some {| i_workspace_id := "w"; i_cluster_id := "c" |}.
Proof.
  pose proof late_facts as H. destruct (enqueued late_end.1) as [|[c res] en] eqn:E; [destruct H|].
  apply andb_true_iff in H as [H Hx]. bool_to_prop.
  exists late_end.1, late_end.2, c, res. split_and!.
  - apply (run_steps late_uninstall). vm_compute. by eexists.
  - rewrite E. left.
  - done.
  - done.
  - apply existsb_exists in Hx as (r & Hr%list_elem_of_In & ?). bool_to_prop. eauto.
  - vm_compute. reflexivity.
Qed.

(** Both tasks report the receipt of the removal after a first failure; the
    answer the second gets is the revoked token, and its exception ends the
    process. *)
Definition racing_uninstall : list act :=
  [Plane (Queue (1 * SECOND) "corr-u" uninstall_plan "att-1")] ++ executing 0 10 "lease-1"
  ++ [Executed (20 * SECOND) Uninstall.Sample.cleanup; TimedOut Poller (21 * SECOND);
      Plane (Queue (22 * SECOND) "corr" Demo.sample_plan "att-2")]
  ++ executing 3 23 "lease-2"
  ++ [Executed (25 * SECOND) finished; Flush]
  ++ served 5 26 "evt-1" 3 ++ served 5 27 "evt-2" 1 ++ served 6 27 "evt-2" 1
  ++ [Answered Poller (28 * SECOND); Answered Flusher (28 * SECOND)].

Definition racing_end : list label * world := default ([], origin) (run racing_uninstall origin).

Lemma racing_flush_ends_process : exists tr w, steps step origin tr w /\ last tr = Some Dies.
Proof.
  exists racing_end.1, racing_end.2. split; [|vm_compute; reflexivity].
  apply (run_steps racing_uninstall). vm_compute. by eexists.
Qed.

(** ** Witnesses *)

Example executed_at_most_once_witness : NoDup (executed ordinary_end.1) /\ length (executed ordinary_end.1) = 1%nat.
Proof.
  split; [|vm_compute; reflexivity].
  refine (proj1 (executed_at_most_once _ _ _ _ _ _ _ _ _ _ _ _ _ [registration] ordinary_end.1 ordinary_end.2
    (run_steps ordinary_run _))).
  vm_compute. eexists. reflexivity.
Defined.

Lemma ordinary_enqueues : exists c res, (c, res) ∈ enqueued ordinary_end.1 /\ c_command_id c = "cmd-1".
Proof.
  assert (H : match enqueued ordinary_end.1 with (c, _) :: _ => c_command_id c = "cmd-1" | [] => False end)
    by (vm_compute; reflexivity).
  destruct (enqueued ordinary_end.1) as [|[c res] en]; [destruct H|]. exists c, res. split; [left|exact H].
Qed.

Example result_accounted_for_witness : exists c,
  c_command_id c = "cmd-1"
  /\ (is_Some (row_at (attempt_key c) (w_outbox ordinary_end.2))
      \/ (exists body p, validate body = Some p) \/ attempt_key c ∈ finalized ordinary_end.1).
Proof.
  destruct ordinary_enqueues as (c & res & Hin & Hc). exists c. split; [exact Hc|].
  assert (H : is_Some (run ordinary_run origin)) by (vm_compute; eexists; reflexivity).
  destruct (result_accounted_for _ _ _ _ _ _ _ _ _ _ _ _ _ [registration] ordinary_end.1 ordinary_end.2 c res
    (run_steps ordinary_run H) Hin) as [(r & Hr & _)|[(id & p & Hv & _)|[_ Hf]]].
  - left. exists r. exact Hr.
  - right. left. eexists _, p. exact Hv.
  - right. right. exact Hf.
Defined.

(** Two results, and a server that answers nothing. *)
Definition full : list result_row :=
  enqueue_result 2 "cmd-2" "w" "lease-2" "agent" finished (Some "att-2")
    (enqueue_result 1 "cmd-1" "w" "lease-1" "agent" finished (Some "att-1") []).

Definition silence : list (Z * result call_error unit) :=
  map (fun n => (Z.of_nat n, Err (OtherError "ReadTimeout"))) (seq 3 10).


(** A result the server recorded, whose first answer was lost: the second
    report is refused, and with three more that fail it ends as given up. *)
Definition lost_answer_run : list act :=
  ordinary_run ++ concat (map (fun n => [Flush; TimedOut Flusher (Z.of_nat (20 + n) * SECOND)]) (seq 0 3)).

Example recorded_result_abandoned :
  let w := (default ([], origin) (run lost_answer_run origin)).2 in
  map c_status (commands (p_store (w_plane w))) = [COMPLETED]
  /\ map (fun r => (x_status r, x_attempt_count r)) (w_outbox w) = [("abandoned", 5)].
Proof. vm_compute. done. Qed.
End Sample.
