(* ===== verification/OperationEvents.v ===== *)
(** The live fan-out of operation events ([packages/runtime/operation_events.py]).

    One [local_broker] per gateway process keeps a bounded queue per open
    browser subscription.  Queues are objects shared between the broker's set
    of subscribers and the subscription that reads them, so they live in a heap
    ([b_queues]) and are named by numbers; a queue outlives its registration.
    [redis_broker] adds the connection that carries committed events between
    gateways: its client and listener, the task that reconnects, the closed
    flag.  A coroutine that touches several of these fields without waiting for
    anything outside is one function; what Redis answers is an argument. *)

From S2P Require Import Prelude PyString Json Outbox CommandLifecycle CommandStore.
From coqutil Require Import Datatypes.RecordSettersUsingExistingGetters.
#[global] Open Scope Z_scope.

(** ** One subscription's queue *)

Definition OPERATION_EVENT_QUEUE_MAX : nat := 64.
Definition OPERATION_EVENT_RECONNECT_INITIAL_SECONDS : Z := 1.
Definition OPERATION_EVENT_RECONNECT_MAX_SECONDS : Z := 30.

Inductive subscription_item : Type :=
| Live (event : OperationEvent)
| OperationEventStreamOverflow.

Abbreviation queue := (list subscription_item) (only parsing).

(** [asyncio.Queue.put_nowait]; [None] is [QueueFull]. *)
Definition put_nowait (item : subscription_item) (q : queue) : option queue :=
  if (OPERATION_EVENT_QUEUE_MAX <=? length q)%nat then None else Some (q ++ [item]).

(** A full queue is emptied and holds the overflow instead. *)
Definition offer (q : queue) (event : OperationEvent) : queue :=
  match put_nowait (Live event) q with
  | Some q => q
  | None => default [] (put_nowait OperationEventStreamOverflow [])
  end.

Definition subscription_key (workspace_id command_id : string) : string * string :=
  (strip workspace_id, strip command_id).

(** ** The broker of one process *)

Record local_broker : Type := {
  b_sequences : gmap (string * string) Z;
  b_terminal : gset (string * string);
  b_subscriptions : gmap (string * string) (gset nat);
  b_queues : gmap nat queue;
}.

Definition new_local_broker : local_broker :=
  {| b_sequences := ∅; b_terminal := ∅; b_subscriptions := ∅; b_queues := ∅ |}.

Definition subscribers (key : string * string) (b : local_broker) : gset nat :=
  default ∅ (b_subscriptions b !! key).

Definition subscribe (command_id workspace_id : string) (b : local_broker) : local_broker * nat :=
  let key := subscription_key workspace_id command_id in
  let id := fresh (dom (b_queues b)) in
  (b <| b_queues ::= <[id := []]> |> <| b_subscriptions ::= <[key := {[id]} ∪ subscribers key b]> |>, id).

Arguments subscribe : simpl never.

(** The closure [subscribe] hands to the subscription. *)
Definition unsubscribe (key : string * string) (id : nat) (b : local_broker) : local_broker :=
  match b_subscriptions b !! key with
  | None => b
  | Some ids =>
      let ids := ids ∖ {[id]} in
      b <| b_subscriptions ::= if decide (ids = ∅) then delete key else <[key := ids]> |>
  end.

Definition deliver (event : OperationEvent) (workspace_id : string) (b : local_broker) : local_broker :=
  b <| b_queues ::= fun qs =>
    foldr (alter (fun q => offer q event)) qs
      (elements (subscribers (subscription_key workspace_id (oe_command_id event)) b)) |>.

(** [InMemoryOperationEventBroker.publish]: numbering without a store. *)
Definition in_memory_publish (now : Z) (command_id : string) (kind : OperationEventKind)
    (payload : odict json) (workspace_id : string) (b : local_broker) : local_broker * option OperationEvent :=
  let key := subscription_key workspace_id command_id in
  if decide (key ∈ b_terminal b) then (b, None) else
  let sequence := default 0 (b_sequences b !! key) + 1 in
  let event := {| oe_command_id := command_id; oe_sequence := sequence; oe_kind := kind;
                  oe_payload := payload; oe_occurred_at := now |} in
  let b := b <| b_sequences ::= <[key := sequence]> |> in
  let b := if terminal_kind kind then b <| b_terminal ::= union {[key]} |> else b in
  (deliver event workspace_id b, Some event).

Definition close_local (b : local_broker) : local_broker := b <| b_subscriptions := ∅ |>.

(** [DurableOperationEventBroker.publish]: the event is committed before anyone
    is told. *)
Definition durable_publish (now : Z) (command_id : string) (kind : OperationEventKind)
    (payload : odict json) (workspace_id : string) (st : store) (b : local_broker)
    : result command_error (store * local_broker * option OperationEvent) :=
  '(st, event) ← append_command_operation_event now workspace_id command_id kind payload st;
  Ok (st, match event with Some e => deliver e workspace_id b | None => b end, event).

(** ** The wire between gateways *)

Definition kind_text (k : OperationEventKind) : string :=
  match k with
  | progress => "progress" | log => "log" | completed => "completed"
  | failed => "failed" | cancelled => "cancelled"
  end.

Definition OPERATION_EVENT_CHANNEL_PREFIX : string := "opsia:operation-events:".

Definition channel (workspace_id command_id : string) : string :=
  OPERATION_EVENT_CHANNEL_PREFIX +:+ workspace_id +:+ ":" +:+ command_id.

(** Pydantic's [model_dump] and [model_validate] of [OperationEvent] and
    [json.loads] are library code. *)
Section Wire.
Context (model_dump : OperationEvent -> odict json) (model_validate : odict json -> option OperationEvent).
Context (json_text : json -> string) (loads : string -> option json).

Definition envelope (workspace_id : string) (event : OperationEvent) : json :=
  JObj [("workspace_id", JStr workspace_id); ("event", JObj (model_dump event))].

Definition parse_envelope (raw : string) : option (string * OperationEvent) :=
  match loads raw with
  | Some (JObj decoded) =>
      match dict_get "workspace_id" decoded, dict_get "event" decoded with
      | Some (JStr workspace_id), Some (JObj event) =>
          if String.eqb (strip workspace_id) "" then None
          else e ← model_validate event; Some (workspace_id, e)
      | _, _ => None
      end
  | _ => None
  end.

(** A listener reads the message that was announced. *)
Lemma envelope_parsed workspace_id event :
  loads (json_text (envelope workspace_id event)) = Some (envelope workspace_id event) ->
  model_validate (model_dump event) = Some event -> strip workspace_id <> "" ->
  parse_envelope (json_text (envelope workspace_id event)) = Some (workspace_id, event).
Proof.
  intros Hl Hv Hs. unfold parse_envelope. rewrite Hl. simpl.
  destruct (String.eqb_spec (strip workspace_id) ""); [done|]. by rewrite Hv.
Qed.
End Wire.

(** ** The connection to Redis *)

Record redis_broker : Type := {
  rb_local : local_broker;
  rb_client : option nat;          (* the connection, and its subscription *)
  rb_listener : option nat;        (* the listener task, by its connection *)
  rb_reconnect : option Z;         (* the reconnect task, by its next delay *)
  rb_closed : bool;
}.

Definition new_redis_broker : redis_broker :=
  {| rb_local := new_local_broker; rb_client := None; rb_listener := None; rb_reconnect := None;
     rb_closed := true |}.

(** What opening a connection gives: the new connection, or a transient error. *)
Definition connect (outcome : option nat) (b : redis_broker) : redis_broker :=
  if rb_closed b || negb (is_none (rb_client b)) then b
  else match outcome with
       | None => b
       | Some conn => b <| rb_client := Some conn |> <| rb_listener := Some conn |>
       end.

Definition schedule_reconnect (b : redis_broker) : redis_broker :=
  if rb_closed b || negb (is_none (rb_client b)) || negb (is_none (rb_reconnect b)) then b
  else b <| rb_reconnect := Some OPERATION_EVENT_RECONNECT_INITIAL_SECONDS |>.

Definition connect_or_schedule (outcome : option nat) (b : redis_broker) : redis_broker :=
  if negb (is_none (rb_client b)) then b
  else match outcome with
       | Some _ => connect outcome b
       | None => schedule_reconnect b
       end.

(** One round of the reconnect task, after its sleep.  The task ends when a
    connection is there, whoever opened it. *)
Definition reconnect_round (outcome : option nat) (b : redis_broker) : redis_broker :=
  match rb_reconnect b with
  | None => b
  | Some delay =>
      let b := connect outcome b in
      if rb_closed b || negb (is_none (rb_client b)) then b <| rb_reconnect := None |>
      else b <| rb_reconnect := Some
             (Z.min OPERATION_EVENT_RECONNECT_MAX_SECONDS
                (Z.max OPERATION_EVENT_RECONNECT_INITIAL_SECONDS (delay * 2))) |>
  end.

Definition disconnect_client (expected : option nat) (b : redis_broker) : redis_broker :=
  match expected with
  | Some conn => if decide (rb_client b = Some conn)
                 then b <| rb_client := None |> <| rb_listener := None |> else b
  | None => b <| rb_client := None |> <| rb_listener := None |>
  end.

Definition start (outcome : option nat) (b : redis_broker) : redis_broker :=
  connect_or_schedule outcome (b <| rb_closed := false |>).

Definition close (b : redis_broker) : redis_broker :=
  let b := b <| rb_closed := true |> <| rb_reconnect := None |> in
  (disconnect_client None b) <| rb_local ::= close_local |>.

(** The second component is what reaches Redis. *)
Definition announce (published : bool) (event : OperationEvent) (workspace_id : string) (b : redis_broker)
    : redis_broker * option (string * OperationEvent) :=
  let b := b <| rb_local ::= deliver event workspace_id |> in
  match rb_client b with
  | None => (schedule_reconnect b, None)
  | Some conn =>
      if published then (b, Some (workspace_id, event))
      else (schedule_reconnect (disconnect_client (Some conn) b), None)
  end.

Definition publish (published : bool) (now : Z) (command_id : string) (kind : OperationEventKind)
    (payload : odict json) (workspace_id : string) (st : store) (b : redis_broker)
    : result command_error (store * redis_broker * option (string * OperationEvent)) :=
  '(st, event) ← append_command_operation_event now workspace_id command_id kind payload st;
  Ok match event with
     | None => (st, b, None)
     | Some e => let (b, message) := announce published e workspace_id b in (st, b, message)
     end.

(** The listener of the connection: a message, or its end. *)
Definition heard (message : string * OperationEvent) (b : redis_broker) : redis_broker :=
  match rb_listener b with
  | Some _ => b <| rb_local ::= deliver message.2 message.1 |>
  | None => b
  end.

Definition listener_ended (b : redis_broker) : redis_broker :=
  match rb_listener b with
  | None => b
  | Some conn =>
      if rb_closed b then b <| rb_listener := None |>
      else schedule_reconnect (disconnect_client (Some conn) b)
  end.

(** ** Facts *)

Lemma offer_live (P : OperationEvent -> Prop) q e :
  Forall (fun i => match i with Live e => P e | OperationEventStreamOverflow => True end) q -> P e ->
  Forall (fun i => match i with Live e => P e | OperationEventStreamOverflow => True end) (offer q e).
Proof.
  intros Hq He. unfold offer, put_nowait. destruct (_ <=? _)%nat; simpl; [by repeat constructor|].
  apply Forall_app. split; [done|]. by repeat constructor.
Qed.

Lemma foldr_alter_lookup {A} (f : A -> A) (m : gmap nat A) (l : list nat) i :
  NoDup l -> foldr (alter f) m l !! i = if decide (i ∈ l) then f <$> m !! i else m !! i.
Proof.
  induction l as [|j l IH]; intros Hnd; [by rewrite (decide_False (P := i ∈ [])) by apply not_elem_of_nil|].
  simpl. apply NoDup_cons in Hnd as [Hj Hnd]. destruct (decide (i = j)) as [->|Hne].
  - rewrite lookup_alter_eq, IH by done. repeat case_decide; set_solver.
  - rewrite lookup_alter_ne, IH by done. repeat case_decide; set_solver.
Qed.

Lemma deliver_lookup e ws b i :
  b_queues (deliver e ws b) !! i =
    if decide (i ∈ subscribers (subscription_key ws (oe_command_id e)) b)
    then (fun q => offer q e) <$> b_queues b !! i else b_queues b !! i.
Proof.
  unfold deliver. simpl. rewrite foldr_alter_lookup by apply NoDup_elements.
  destruct (decide (i ∈ elements _)) as [H|H]; rewrite elem_of_elements in H.
  - by rewrite decide_True.
  - by rewrite decide_False.
Qed.

Lemma deliver_subscriptions e ws b : b_subscriptions (deliver e ws b) = b_subscriptions b.
Proof. done. Qed.

Lemma schedule_local b : rb_local (schedule_reconnect b) = rb_local b.
Proof. unfold schedule_reconnect. by destruct (_ || _). Qed.

Lemma disconnect_local conn b : rb_local (disconnect_client conn b) = rb_local b.
Proof. unfold disconnect_client. destruct conn; [|done]. by case_decide. Qed.

Lemma announce_local published e ws b : rb_local (announce published e ws b).1 = deliver e ws (rb_local b).
Proof.
  unfold announce. simpl. destruct (rb_client b) as [conn|]; simpl; [|by rewrite schedule_local].
  destruct published; simpl; [done|]. rewrite schedule_local. by case_decide.
Qed.

Lemma announce_message published e ws b m : (announce published e ws b).2 = Some m -> m = (ws, e).
Proof. unfold announce. simpl. destruct (rb_client b), published; simpl; congruence. Qed.

Lemma elem_of_unsubscribe key id b key' id' :
  id' ∈ subscribers key' (unsubscribe key id b) -> id' ∈ subscribers key' b.
Proof.
  unfold unsubscribe, subscribers. destruct (b_subscriptions b !! key) as [ids|] eqn:E; [|done]. simpl.
  case_decide as Hd; (destruct (decide (key = key')) as [->|Hne];
    [rewrite ?lookup_delete_eq, ?lookup_insert_eq | rewrite ?lookup_delete_ne, ?lookup_insert_ne by done]);
    rewrite ?E; simpl; set_solver.
Qed.

(** ** The connection is kept or being restored *)

Inductive link_event : Type :=
| Started (outcome : option nat)
| Stopped
| ReconnectRound (outcome : option nat)
| Announced (published : bool) (event : OperationEvent) (workspace_id : string)
| Heard (message : string * OperationEvent)
| ListenerEnded.

Definition link_step (b : redis_broker) (ev : link_event) : redis_broker :=
  match ev with
  | Started outcome => start outcome b
  | Stopped => close b
  | ReconnectRound outcome => reconnect_round outcome b
  | Announced published event workspace_id => (announce published event workspace_id b).1
  | Heard message => heard message b
  | ListenerEnded => listener_ended b
  end.

Record linked (b : redis_broker) : Prop := {
  linked_pair : rb_listener b = rb_client b;
  linked_delay : match rb_reconnect b with Some d => 1 <= d <= 30 | None => True end;
  linked_open : rb_closed b = false -> is_Some (rb_client b) \/ is_Some (rb_reconnect b);
  linked_closed : rb_closed b = true -> rb_client b = None /\ rb_reconnect b = None;
}.

Lemma link_step_linked b ev : linked b -> linked (link_step b ev).
Proof.
  intros [Hp Hd Ho Hc]. destruct b as [local client listener reconnect closed]. simpl in *. subst.
  destruct ev as [outcome| |outcome|published e ws|m|]; simpl;
    unfold start, close, connect_or_schedule, reconnect_round, connect, schedule_reconnect, announce, heard,
      listener_ended, disconnect_client, OPERATION_EVENT_RECONNECT_INITIAL_SECONDS,
      OPERATION_EVENT_RECONNECT_MAX_SECONDS;
    destruct client as [conn|], reconnect as [d|], closed; simpl in *;
    try (destruct outcome); try (destruct published); simpl; try rewrite decide_True by done; simpl;
    split; simpl; intros; try done; try lia; eauto; try (by destruct (Hc eq_refl)).
Qed.

(** A gateway that is running is connected to Redis or has a task that
    tries again after at most 30 seconds, whatever Redis does: connections
    that are refused, publishes that fail, listeners that end.  A gateway that
    was closed has neither. *)
Theorem gateway_reconnects evs :
  let b := fold_left link_step evs new_redis_broker in
  (rb_closed b = false ->
     (exists conn, rb_client b = Some conn /\ rb_listener b = Some conn)
     \/ exists delay, rb_reconnect b = Some delay /\ 1 <= delay <= 30)
  /\ (rb_closed b = true -> rb_client b = None /\ rb_listener b = None /\ rb_reconnect b = None).
Proof.
  intros b. assert (linked b) as [Hp Hd Ho Hc].
  { unfold b. assert (Hn : linked new_redis_broker) by by split. revert Hn. generalize new_redis_broker.
    induction evs as [|ev evs IH]; simpl; intros b0 Hb; [done|]. by apply IH, link_step_linked. }
  split.
  - intros [[conn E]|[d E]]%Ho; [left; exists conn; by rewrite Hp|].
    right. exists d. rewrite E in Hd. by split.
  - intros [Hcl Hre]%Hc. split_and!; congruence.
Qed.
