(* ===== verification/CommandStream.v ===== *)
(** The browser's event stream of one command ([command_events] of
    [domains/command/router.py]) over the store and the fan-out.

    A [reader] is one request being served: the subscription it holds, the
    sequence number delivered last ([rd_delivered]), where its generator stands
    ([rd_phase]) and the frames it produced.  Each phase that reads the database
    is left by one transaction ([read_store]); other transactions, announcements
    and messages may come between any two.  A browser that goes away while
    several frames are being sent is one that goes away after them.

    The [world] is the store, the gateways with their brokers, the messages
    published on Redis and the readers.  Redis hands a message to any gateway
    that listens, in any order, any number of times or never.  Reading access
    ([require_cluster_read_access]) and [int] of the header are parameters. *)

From S2P Require Import Prelude PyString Json Outbox CommandLifecycle CommandStore CommandRuns OperationEvents.
From coqutil Require Import Datatypes.RecordSettersUsingExistingGetters.
#[global] Open Scope Z_scope.

(** The default of [list_command_operation_events]. *)
Definition REPLAY_LIMIT : Z := 500.

Inductive frame : Type :=
| Operation (event : OperationEvent)
| KeepAlive.

(** How a request ends: an error response, the generator's return, its
    [RuntimeError], the overflow of its queue, the browser gone. *)
Inductive stream_end : Type :=
| HTTPException (status_code : Z)
| Returned
| RuntimeError (message : string)
| Overflowed
| Disconnected.

Inductive stream_phase : Type :=
| Replaying
| ReadingContext
| ReadingRow
| Starting (initial : list OperationEvent)
| Waiting
| Repairing (live : OperationEvent)
| Polling
| Finished (why : stream_end).

Record reader : Type := {
  rd_workspace : string;
  rd_command : string;
  rd_cursor : Z;
  rd_queue : nat;
  rd_delivered : Z;
  rd_snapshot : bool;
  rd_sent : list frame;
  rd_phase : stream_phase;
}.

Definition goto (phase : stream_phase) (r : reader) : reader := r <| rd_phase := phase |>.

(** ** The route *)

Section Route.
Context (int_of_text : string -> option Z) (read_access : string -> string -> bool).

Definition operation_event_cursor (after : option Z) (last_event_id : option string) : result Z Z :=
  match last_event_id with
  | Some text =>
      if String.eqb (strip text) "" then Ok (default 0 after)
      else match int_of_text text with
           | None => Err 422
           | Some cursor =>
               if cursor <? 0 then Err 422
               else match after with
                    | Some a => if a =? cursor then Ok cursor else Err 422
                    | None => Ok cursor
                    end
           end
  | None => Ok (default 0 after)
  end.

Definition snapshot_kind (status : CommandStatus) : OperationEventKind :=
  match status with COMPLETED => completed | FAILED => failed | CANCELLED => cancelled | _ => progress end.

Definition command_snapshot_event (now : Z) (row : AgentCommand) : OperationEvent :=
  {| oe_command_id := c_command_id row; oe_sequence := 1; oe_kind := snapshot_kind (c_status row);
     oe_payload := [("status", JStr (status_value (c_status row))); ("cluster_id", JStr (c_cluster_id row));
                    ("action", JStr (c_action row)); ("correlation_id", JStr (c_correlation_id row));
                    ("result", JObj (c_result row))];
     oe_occurred_at := now |}.

(** The frames of [emit], the new [delivered], and whether it raised. *)
Fixpoint emit (delivered : Z) (events : list OperationEvent) : list OperationEvent * Z * bool :=
  match events with
  | [] => ([], delivered, false)
  | event :: events =>
      if oe_sequence event <=? delivered then emit delivered events
      else if negb (delivered =? 0) && negb (oe_sequence event =? delivered + 1) then ([], delivered, true)
      else if terminal_kind (oe_kind event) then ([event], oe_sequence event, false)
      else let '(sent, delivered, raised) := emit (oe_sequence event) events in
           (event :: sent, delivered, raised)
  end.

(** [events and events[-1].kind in {"completed", "failed", "cancelled"}]. *)
Definition ends_terminal (events : list OperationEvent) : bool :=
  match last events with Some e => terminal_kind (oe_kind e) | None => false end.

Definition not_contiguous : stream_phase := Finished (RuntimeError "durable operation events are not contiguous").

(** [emit] and what comes after it, unless it raised. *)
Definition emitting (events : list OperationEvent) (after : reader -> reader) (r : reader) : reader :=
  let '(sent, delivered, raised) := emit (rd_delivered r) events in
  let r := r <| rd_sent ::= fun l => l ++ map Operation sent |> <| rd_delivered := delivered |> in
  if raised then goto not_contiguous r else after r.

Definition send_live (live : OperationEvent) (r : reader) : reader :=
  r <| rd_sent ::= fun l => l ++ [Operation live] |> <| rd_delivered := oe_sequence live |>
    <| rd_phase := if terminal_kind (oe_kind live) then Finished Returned else Waiting |>.

(** The generator up to its first wait. *)
Definition begin_stream (r : reader) : reader :=
  match rd_phase r with
  | Starting initial =>
      emitting initial (goto (if ends_terminal initial then Finished Returned else Waiting)) r
  | _ => r
  end.

Definition receive (item : subscription_item) (r : reader) : reader :=
  match item with
  | OperationEventStreamOverflow => goto (Finished Overflowed) r
  | Live live =>
      if oe_sequence live <=? rd_delivered r then r
      else if oe_sequence live =? rd_delivered r + 1 then send_live live r
      else goto (Repairing live) r
  end.

(** After the replay that a gap asked for. *)
Definition repaired (live : OperationEvent) (r : reader) : reader :=
  if oe_sequence live <=? rd_delivered r then goto Waiting r
  else if oe_sequence live =? rd_delivered r + 1 then send_live live r
  else goto (Finished (RuntimeError "durable operation event replay did not close sequence gap")) r.

Definition polled (replayed : list OperationEvent) (r : reader) : reader :=
  if ends_terminal replayed then goto (Finished Returned) r
  else r <| rd_sent ::= fun l => l ++ [KeepAlive] |> <| rd_phase := Waiting |>.

Definition authorized (cluster_id : string) (initial : list OperationEvent) (r : reader) : reader :=
  if String.eqb cluster_id "" then goto (Finished (HTTPException 500)) r
  else if read_access (rd_workspace r) cluster_id then goto (Starting initial) r
  else goto (Finished (HTTPException 403)) r.

(** [replay(starting_after)]. *)
Definition replay (starting_after : Z) (st : store) (r : reader) : result command_error (list OperationEvent) :=
  list_command_operation_events (rd_workspace r) (rd_command r) starting_after REPLAY_LIMIT st.

Definition with_replay (starting_after : Z) (st : store) (k : list OperationEvent -> reader -> reader) (r : reader)
    : reader :=
  match replay starting_after st r with
  | Ok events => k events r
  | Err _ => goto (Finished (HTTPException 500)) r
  end.

Definition read_store (now : Z) (st : store) (r : reader) : reader :=
  match rd_phase r with
  | Replaying =>
      with_replay (rd_cursor r) st (fun initial r =>
        match initial with
        | [] => goto ReadingContext r
        | first :: _ =>
            match field_str_or (oe_payload first) "cluster_id" "" with
            | Ok cluster_id => authorized cluster_id initial r
            | Err _ => goto (Finished (HTTPException 500)) r
            end
        end) r
  | ReadingContext =>
      match get_command_operation_event_context (rd_workspace r) (rd_command r) st with
      | Some (last_sequence, _, cluster_id) =>
          if negb (String.eqb (default "" cluster_id) "") && (last_sequence <? rd_cursor r)
          then goto (Finished (HTTPException 422)) r
          else authorized (default "" cluster_id) [] r
      | None => goto ReadingRow r
      end
  | ReadingRow =>
      match find_command (rd_workspace r) (rd_command r) st with
      | None => goto (Finished (HTTPException 404)) r
      | Some row =>
          if read_access (rd_workspace r) (c_cluster_id row)
          then goto (Starting [command_snapshot_event now row]) (r <| rd_snapshot := true |>)
          else goto (Finished (HTTPException 403)) r
      end
  | Repairing live =>
      with_replay (rd_delivered r) st (fun events => emitting events (repaired live)) r
  | Polling =>
      with_replay (rd_delivered r) st (fun events => emitting events (polled events)) r
  | _ => r
  end.

(** ** The world *)

Record world : Type := {
  w_store : store;
  w_gateways : gmap nat redis_broker;
  w_channel : list (string * OperationEvent);
  w_readers : gmap nat (nat * reader);
}.

Inductive action : Type :=
| Transaction (o : command_op)
| Tell (gateway : nat) (published : bool) (row : nat)
| Link (gateway : nat) (ev : link_event)
| Hear (gateway message : nat)
| Connect (reader gateway : nat) (workspace_id command_id : string) (after : option Z)
    (last_event_id : option string)
| Read (reader : nat) (now : Z)
| Begin (reader : nat)
| Receive (reader : nat)
| TimeOut (reader : nat)
| Leave (reader : nat).

Definition finished_reader (r : reader) : bool :=
  match rd_phase r with Finished _ => true | _ => false end.

Definition reader_key (r : reader) : string * string := subscription_key (rd_workspace r) (rd_command r).

(** The reader after a turn; [finally: await subscription.close()]. *)
Definition settle_reader (id g : nat) (r : reader) (w : world) : world :=
  let w := w <| w_readers ::= <[id := (g, r)]> |> in
  if finished_reader r
  then w <| w_gateways ::= alter (fun b => b <| rb_local ::= unsubscribe (reader_key r) (rd_queue r) |>) g |>
  else w.

Definition pending_items (g : nat) (r : reader) (w : world) : option (list subscription_item) :=
  b ← w_gateways w !! g; b_queues (rb_local b) !! rd_queue r.

Section World.
Context (sha256_hex quote : string -> string) (specs : CommandCatalog.catalog).
Context (timestamp_of : string -> Z) (uuid5 clock_text : string -> string).

(** A new reader: the cursor is read first, then the subscription opened. *)
Definition connect_reader (id g : nat) (workspace_id command_id : string) (after : option Z)
    (last_event_id : option string) (w : world) : option world :=
  b ← w_gateways w !! g;
  let new phase cursor queue :=
    {| rd_workspace := workspace_id; rd_command := command_id; rd_cursor := cursor; rd_queue := queue;
       rd_delivered := cursor; rd_snapshot := false; rd_sent := []; rd_phase := phase |} in
  match w_readers w !! id with
  | Some _ => None
  | None =>
      let refused := match after with Some a => a <? 0 | None => false end in  (* [Query(ge=0)] *)
      match (if refused then Err 422 else operation_event_cursor after last_event_id) with
      | Err status =>
          Some (w <| w_readers ::= <[id := (g, new (Finished (HTTPException status)) 0 O)]> |>)
      | Ok cursor =>
          let (local, queue) := subscribe command_id workspace_id (rb_local b) in
          Some (w <| w_gateways ::= <[g := b <| rb_local := local |>]> |>
                  <| w_readers ::= <[id := (g, new Replaying cursor queue)]> |>)
      end
  end.

Definition perform (a : action) (w : world) : option world :=
  match a with
  | Transaction o =>
      match apply sha256_hex quote specs int_of_text timestamp_of uuid5 clock_text o (w_store w) with
      | Ok st => Some (w <| w_store := st |>)
      | Err _ => None
      end
  | Tell g published i =>
      row ← op_events (w_store w) !! i;
      b ← w_gateways w !! g;
      let (b, message) := announce published (to_operation_event row) (ev_workspace_id row) b in
      Some (w <| w_gateways ::= <[g := b]> |>
              <| w_channel ::= fun l => l ++ match message with Some m => [m] | None => [] end |>)
  | Link g ev =>
      b ← w_gateways w !! g;
      match ev with
      | Announced _ _ _ | Heard _ => None
      | _ => Some (w <| w_gateways ::= <[g := link_step b ev]> |>)
      end
  | Hear g i =>
      message ← w_channel w !! i;
      b ← w_gateways w !! g;
      Some (w <| w_gateways ::= <[g := heard message b]> |>)
  | Connect id g workspace_id command_id after last_event_id =>
      connect_reader id g workspace_id command_id after last_event_id w
  | Read id now =>
      '(g, r) ← w_readers w !! id;
      if finished_reader r then None else Some (settle_reader id g (read_store now (w_store w) r) w)
  | Begin id =>
      '(g, r) ← w_readers w !! id;
      if finished_reader r then None else Some (settle_reader id g (begin_stream r) w)
  | Receive id =>
      '(g, r) ← w_readers w !! id;
      match rd_phase r, pending_items g r w with
      | Waiting, Some (item :: items) =>
          let w := w <| w_gateways ::= alter (fun b =>
            b <| rb_local ::= fun l => l <| b_queues ::= <[rd_queue r := items]> |> |>) g |> in
          Some (settle_reader id g (receive item r) w)
      | _, _ => None
      end
  | TimeOut id =>
      '(g, r) ← w_readers w !! id;
      match rd_phase r, pending_items g r w with
      | Waiting, Some [] => Some (settle_reader id g (goto Polling r) w)
      | _, _ => None
      end
  | Leave id =>
      '(g, r) ← w_readers w !! id;
      if finished_reader r then None else Some (settle_reader id g (goto (Finished Disconnected) r) w)
  end.

Definition world_step (w : world) (a : action) (w' : world) : Prop := perform a w = Some w'.
End World.
End Route.

(** Gateways that were just created, and an empty database. *)
Definition initial_world (gateways : list nat) : world :=
  {| w_store := empty_store; w_gateways := list_to_map (map (fun g => (g, new_redis_broker)) gateways);
     w_channel := []; w_readers := ∅ |}.
