(* ===== verification/CommandStreamRuns.v ===== *)
(** Runs of the event streams: what every browser is sent is exactly a part of
    the durable stream, and a browser that only waits receives all of it.

    The invariant [world_ok] says that queues and Redis hold committed events
    of the right stream, and that a reader's frames are the events between its
    cursor and what it delivered ([reader_ok]). *)

From S2P Require Import Prelude PyString Json EventStore Outbox CommandLifecycle CommandCatalog CommandStore CommandRuns CommandSafety.
From S2P Require Import OperationEvents CommandStream.
From coqutil Require Import Datatypes.RecordSettersUsingExistingGetters.
#[global] Open Scope Z_scope.

(** ** The rows of operation events are only appended *)

Definition appends (st st' : store) : Prop := exists l, op_events st' = op_events st ++ l.

Lemma appends_same st st' : op_events st' = op_events st -> appends st st'.
Proof. intros H. exists []. by rewrite app_nil_r. Qed.

#[global] Instance appends_preorder : PreOrder appends.
Proof.
  split; [intros st; by apply appends_same|].
  intros st1 st2 st3 [l1 H1] [l2 H2]. exists (l1 ++ l2). by rewrite H2, H1, app_assoc.
Qed.

Lemma staged_appends now ws cid k st st' : staged now ws cid k st st' -> appends st st'.
Proof. destruct 1; [reflexivity|]. by eexists. Qed.

Lemma stage_appends now ws cid k payload st st' e :
  stage_command_operation_event_in_transaction now ws cid k payload st = Ok (st', e) -> appends st st'.
Proof. intros H%stage_staged. by eapply staged_appends. Qed.

Lemma attempt_insert_appends now a cid ws cluster no s avail st st' :
  agent_command_attempt_insert now a cid ws cluster no s avail st = Ok st' -> appends st st'.
Proof. intros (_ & _ & H)%attempt_insert_frame. by apply appends_same. Qed.

Lemma insert_control_events k st : op_events (insert_control k st) = op_events st.
Proof. unfold insert_control. by destruct (current_control_row _ _ _ _ _). Qed.

(** [staged_by H]: the transaction of [H] stages one event and changes no
    other row of the stream tables. *)
Ltac staged_by H :=
  apply staging_inv in H as (? & ? & [more Hmore]%staged_appends & H); simplify_eq/=;
  exists more; rewrite ?insert_control_events; repeat (case_match; simpl); rewrite Hmore; done.

Section Append.
Context (sha256_hex quote : string -> string) (specs : CommandCatalog.catalog) (int_of_text : string -> option Z).
Context (timestamp_of : string -> Z) (uuid5 clock_text : string -> string).

Lemma enqueue_appends now correlation plan s a st st' x :
  enqueue sha256_hex quote now correlation plan s a st = Ok (st', x) -> appends st st'.
Proof.
  unfold enqueue, agent_command_queue_upsert. intros (row & _ & H)%result_bind_inv.
  destruct (find _ _) as [existing|]; [destruct (unprojected existing)|]; simpl in H;
    try (simplify_eq; by apply appends_same);
    apply result_bind_inv in H as (st2 & H2%attempt_insert_appends & H); by simplify_eq.
Qed.

Lemma control_appends now q ctl attempt st st' x :
  stage_command_control_in_transaction specs int_of_text now q ctl attempt st = Ok (st', x) -> appends st st'.
Proof.
  unfold stage_command_control_in_transaction. intros H. destruct (negb _); [done|].
  destruct (find_command _ _ _) as [row|]; [|done]. destruct (current_control_row _ _ _ _ _); [done|].
  apply result_bind_inv in H as (x1 & H1 & H). simplify_eq. destruct (String.eqb _ _).
  - unfold cancel_command in H1. destruct (spec_for _ _) as [spec|]; [|done].
    do 2 (destruct (_ : bool) in H1; [done|]).
    destruct (_ : bool) in H1; [simplify_eq; apply appends_same, insert_control_events|].
    destruct (_ : bool) in H1; staged_by H1.
  - unfold retry_command in H1. apply result_bind_inv in H1 as ([budget delay] & _ & H1).
    apply result_bind_inv in H1 as (st0 & (_ & _ & Hins)%attempt_insert_frame & H1).
    apply staging_inv in H1 as (st1 & e & [more Hmore]%staged_appends & H1). simplify_eq/=. exists more.
    by rewrite insert_control_events, Hmore, Hins.
Qed.

Lemma close_all_appends now source w rows st st' :
  close_all uuid5 clock_text w now source rows st = Ok st' -> appends st st'.
Proof.
  revert st. induction rows as [|row rows IH]; simpl; intros st H; [by simplify_eq|].
  apply result_bind_inv in H as (st3 & H3 & H%IH). etrans; [|exact H].
  unfold close_expired in H3. apply result_bind_inv in H3 as ([st4 e] & [more Hs]%stage_appends & H3).
  simplify_eq. exists more. unfold publish_in_transaction. simpl. rewrite Hs. by destruct (truthy _).
Qed.

Lemma complete_appends now rep report source eid created w st st' x :
  complete_agent_command_and_stage_event specs int_of_text now (r_command_id rep) (r_workspace_id rep)
    (r_cluster_id rep) report (r_lease_id rep) (r_agent_id rep) source (r_attempt_id rep) eid created w st
    = Ok (st', x) -> appends st st'.
Proof.
  unfold complete_agent_command_and_stage_event. intros (text & _ & H)%result_bind_inv.
  destruct (find _ _) as [row|]; [|by simplify_eq].
  apply result_bind_inv in H as (status & _ & H). apply result_bind_inv in H as (final & _ & H).
  destruct (command_terminal_event_kind _ _) as [kind|]; [|done]. staged_by H.
Qed.

Lemma step_appends st o st' :
  command_step sha256_hex quote specs int_of_text timestamp_of uuid5 clock_text st o st' -> appends st st'.
Proof.
  unfold command_step. intros H. destruct o; simpl in H; apply dropping_inv in H as [x H].
  - unfold stage_receipt, stage_logical_command_acceptance_in_transaction in H.
    apply result_bind_inv in H as ([st1 b] & H1 & H). apply result_bind_inv in H1 as (_ & _ & H1).
    apply result_bind_inv in H1 as (row & _ & [= H1]). apply result_bind_inv in H as (cid & _ & H).
    apply stage_appends in H. etrans; [|exact H]. apply appends_same.
    unfold agent_command_insert in H1. by destruct (existsb _ _); simplify_eq.
  - unfold queue_agent_command in H. destruct (field_is _ _ _); [done|]. by eapply enqueue_appends.
  - unfold queue_rca_test_command_if_available in H. do 2 (case_match; [done|]).
    apply result_bind_inv in H as (? & _ & H). apply result_bind_inv in H as (? & _ & H).
    case_match; [by simplify_eq|]. by eapply enqueue_appends.
  - unfold fail_logical_command_and_stage_event in H. destruct (find _ _) as [row|]; [|by simplify_eq].
    apply stage_appends in H. exact H.
  - unfold lease_agent_command in H. destruct (next_command _ _ _ _) as [sel|]; [|by simplify_eq].
    destruct (find _ _) as [row|]; [|by simplify_eq]. staged_by H.
  - unfold start_agent_command in H. destruct (find _ _) as [row|]; [|by simplify_eq]. staged_by H.
  - unfold heartbeat_agent_command in H. destruct (find _ _) as [row|]; [|by simplify_eq].
    destruct (match r_attempt_id r with Some a => _ | None => _ end); [by simplify_eq|].
    apply result_bind_inv in H as ([st1 evt] & Hs & H). simplify_eq.
    destruct (bool_decide _ && _); [apply stage_appends in Hs as [more Hs]; exists more; rewrite Hs
      |simplify_eq; apply appends_same]; by destruct (String.eqb _ _).
  - by eapply complete_appends.
  - by eapply control_appends.
  - unfold fail_expired_agent_commands in H. destruct (_ || _); [done|].
    apply result_bind_inv in H as (st1 & H%close_all_appends & H'). by simplify_eq.
  - unfold append_command_operation_event in H. apply result_bind_inv in H as (? & _ & H).
    case_match; [done|]. by eapply stage_appends.
Qed.
End Append.

(** ** The durable stream of one command *)

(** The events as the browser sees them. *)
Definition ledger (workspace_id command_id : string) (st : store) : list OperationEvent :=
  to_operation_event <$> stream workspace_id command_id st.

Lemma ledger_appends ws cid st st' : appends st st' -> exists l, ledger ws cid st' = ledger ws cid st ++ l.
Proof. intros [l H]. unfold ledger, stream. rewrite H, filter_app, fmap_app. by eexists. Qed.

Lemma elem_of_ledger row st :
  row ∈ op_events st -> to_operation_event row ∈ ledger (ev_workspace_id row) (ev_command_id row) st.
Proof. intros H. apply list_elem_of_fmap_2, list_elem_of_filter. done. Qed.

(** The sequence numbers of a list of events, from [n]. *)
Definition counted (n : nat) (events : list OperationEvent) : Prop :=
  forall i e, events !! i = Some e -> oe_sequence e = Z.of_nat (n + i).

Definition ends_once (events : list OperationEvent) : Prop :=
  forall i e, events !! i = Some e -> terminal_kind (oe_kind e) = true -> S i = length events.

Lemma counted_app n l l' : counted n l -> counted (n + length l) l' -> counted n (l ++ l').
Proof.
  intros H H' i e [Hi|[Hle Hi]]%lookup_app_Some; [by apply H|]. rewrite (H' _ _ Hi). lia.
Qed.

Lemma counted_drop n k l : counted n l -> counted (n + k) (drop k l).
Proof. intros H i e Hi. rewrite lookup_drop in Hi. rewrite (H _ _ Hi). lia. Qed.

Lemma counted_take n k l : counted n l -> counted n (take k l).
Proof. intros H i e [Hi _]%lookup_take_Some. by apply H. Qed.

Lemma counted_elem n l e : counted n l -> e ∈ l -> l !! (Z.to_nat (oe_sequence e) - n)%nat = Some e.
Proof. intros H [i Hi]%list_elem_of_lookup. rewrite (H _ _ Hi). by replace (_ - n)%nat with i by lia. Qed.

(** The part of the stream after the first [k] events, up to [n] of them. *)
Definition page (k n : nat) (evs : list OperationEvent) : list OperationEvent := take n (drop k evs).

Lemma page_ends_once k n evs : ends_once evs -> ends_once (page k n evs).
Proof.
  intros H i e [Hi Hlt]%lookup_take_Some Ht. rewrite lookup_drop in Hi. specialize (H _ _ Hi Ht).
  unfold page. rewrite length_take, length_drop. lia.
Qed.

Lemma page_terminal k n evs :
  ends_once evs -> ends_terminal (page k n evs) = true -> page k n evs = drop k evs /\ ends_terminal evs = true.
Proof.
  unfold ends_terminal. intros H Hl. destruct (last (page k n evs)) as [e|] eqn:E; [|done].
  rewrite last_lookup in E. pose proof E as [Hi Hlt]%lookup_take_Some. rewrite lookup_drop in Hi.
  specialize (H _ _ Hi Hl). apply lookup_lt_Some in E as Hlen. unfold page in *.
  rewrite length_take, length_drop in *. split; [apply take_ge; rewrite length_drop; lia|].
  rewrite last_lookup. replace (pred (length evs)) with (k + pred (Nat.min n (length evs - k)))%nat by lia.
  by rewrite Hi.
Qed.

Lemma emit_counted d l :
  counted (S d) l -> ends_once l -> emit (Z.of_nat d) l = (l, Z.of_nat (d + length l), false).
Proof.
  revert d. induction l as [|e l IH]; intros d Hc Ho; simpl; [by rewrite Nat.add_0_r|].
  assert (He : oe_sequence e = Z.of_nat (S d)) by (rewrite (Hc 0%nat e) by done; lia).
  rewrite He. destruct (Z.leb_spec (Z.of_nat (S d)) (Z.of_nat d)); [lia|].
  destruct (Z.eqb_spec (Z.of_nat (S d)) (Z.of_nat d + 1)); [|lia]. rewrite andb_false_r.
  destruct (terminal_kind _) eqn:Ht.
  - specialize (Ho 0%nat e eq_refl Ht). destruct l; [|done]. simpl. by rewrite Nat.add_1_r.
  - rewrite IH; [by rewrite Nat.add_succ_r| |].
    + intros i e' Hi. rewrite (Hc (S i) e') by done. lia.
    + intros i e' Hi Ht'. specialize (Ho (S i) e' Hi Ht'). simpl in Ho. lia.
Qed.

Lemma page_app k n m evs : page k n evs ++ page (k + n) m evs = page k (n + m) evs.
Proof. unfold page. rewrite <- drop_drop. apply take_take_drop. Qed.

Lemma page_length k n evs : page k n evs = page k (length (page k n evs)) evs.
Proof.
  unfold page. rewrite length_take. destruct (decide (n <= length (drop k evs))%nat).
  - by rewrite Nat.min_l.
  - rewrite Nat.min_r by lia. by rewrite !take_ge by lia.
Qed.

Section Streams.
Context (sha256_hex quote : string -> string) (specs : CommandCatalog.catalog) (int_of_text : string -> option Z).
Context (read_access : string -> string -> bool) (timestamp_of : string -> Z) (uuid5 clock_text : string -> string).

Let wf := wf specs int_of_text.

Lemma ledger_counted ws cid st : wf st -> counted 1 (ledger ws cid st).
Proof.
  intros Hwf i e Hi. destruct (wf_streams _ _ _ _ Hwf ws cid) as [Hseq _].
  apply list_lookup_fmap_Some in Hi as (row & -> & Hi). simpl.
  assert (Hz : (ev_sequence <$> stream ws cid st) !! i = Some (ev_sequence row)) by by rewrite list_lookup_fmap, Hi.
  rewrite Hseq, list_lookup_fmap, lookup_seq_lt in Hz by by eapply lookup_lt_Some. by injection Hz as <-.
Qed.

Lemma ledger_ends_once ws cid st : wf st -> ends_once (ledger ws cid st).
Proof.
  intros Hwf i e Hi Ht. destruct (wf_streams _ _ _ _ Hwf ws cid) as [_ Hc].
  apply list_lookup_fmap_Some in Hi as (row & -> & Hi). unfold ledger. rewrite length_fmap.
  assert (Hno : ~ Forall (fun e => terminal_kind (ev_kind e) = false) (stream ws cid st)).
  { intros Hall. eapply Forall_lookup_1 in Hall; [|done]. simpl in *. congruence. }
  destruct (cursors st !! (ws, cid)) as [c|]; [|by rewrite Hc in Hi].
  destruct Hc as [_ Hc]. destruct (terminal_sequence c); [|done].
  destruct Hc as (_ & init & e & Heq & _ & Hinit). rewrite Heq in *.
  apply lookup_app_Some in Hi as [Hi|[Hge Hi]].
  - eapply Forall_lookup_1 in Hinit; [|done]. simpl in *. congruence.
  - rewrite length_app. simpl. apply lookup_lt_Some in Hi. simpl in Hi. lia.
Qed.

Lemma replay_page st r k :
  wf st -> replay (Z.of_nat k) st r = Ok (page k 500 (ledger (rd_workspace r) (rd_command r) st)).
Proof.
  intros Hwf. unfold replay, list_command_operation_events.
  destruct (wf_streams _ _ _ _ Hwf (rd_workspace r) (rd_command r)) as [Hseq _].
  destruct (Z.ltb_spec (Z.of_nat k) 0); [lia|].
  rewrite (numbered_filter 1) by exact Hseq. replace (S k - 1)%nat with k by lia.
  rewrite (numbered_sorted (1 + k)) by by apply numbered_drop.
  unfold page, ledger. rewrite <- fmap_drop, <- fmap_take. done.
Qed.

Lemma context_ledger ws cid st last closed_at cluster :
  wf st -> get_command_operation_event_context ws cid st = Some (last, closed_at, cluster) ->
  last = Z.of_nat (length (ledger ws cid st)) /\ (cluster <> None -> ledger ws cid st <> []).
Proof.
  intros Hwf H. destruct (wf_streams _ _ _ _ Hwf ws cid) as [Hseq Hc].
  unfold get_command_operation_event_context in H. destruct (cursors st !! (ws, cid)) as [c|]; [|done].
  simplify_eq/=. destruct Hc as [-> _]. unfold ledger. rewrite length_fmap. split; [done|].
  intros Hcl Hnil. apply fmap_nil_inv in Hnil. by rewrite Hnil in Hcl.
Qed.

(** ** One reader *)

Definition operations (sent : list frame) : list OperationEvent :=
  omap (fun f => match f with Operation e => Some e | KeepAlive => None end) sent.

Lemma operations_app l l' : operations (l ++ l') = operations l ++ operations l'.
Proof. apply omap_app. Qed.

Lemma operations_map l : operations (map Operation l) = l.
Proof. induction l as [|e l IH]; [done|]. simpl. by rewrite IH. Qed.

Definition reader_ledger (st : store) (r : reader) : list OperationEvent :=
  ledger (rd_workspace r) (rd_command r) st.

Definition gap_message : string := "durable operation event replay did not close sequence gap".

(** What a phase says of the stream [evs], for a reader that started after [c]
    events and has sent up to the [d]-th. *)
Definition phase_ok (evs : list OperationEvent) (c d : nat) (phase : stream_phase) : Prop :=
  match phase with
  | Replaying | ReadingContext | ReadingRow => d = c
  | Starting initial => d = c /\ (c <= length evs)%nat /\ evs <> [] /\ exists n, initial = page c n evs
  | Waiting | Polling => (d <= length evs)%nat /\ evs <> []
  | Repairing live => (d <= length evs)%nat /\ evs <> [] /\ live ∈ evs
  | Finished Returned => d = length evs /\ ends_terminal evs = true
  | Finished (RuntimeError message) => message = gap_message /\ (d <= length evs)%nat /\ (c + 500 <= d)%nat
  | Finished _ => d = c \/ (d <= length evs)%nat
  end.

Definition sent_ok (evs : list OperationEvent) (c d : nat) (r : reader) : Prop :=
  rd_cursor r = Z.of_nat c /\ rd_delivered r = Z.of_nat d /\ (c <= d)%nat
  /\ operations (rd_sent r) = page c (d - c) evs.

(** A reader that was not given a snapshot. *)
Definition reader_ok (st : store) (r : reader) : Prop :=
  rd_snapshot r = false ->
  exists c d, sent_ok (reader_ledger st r) c d r /\ phase_ok (reader_ledger st r) c d (rd_phase r).

Lemma page_grows c n evs l : (c + n <= length evs)%nat -> page c n (evs ++ l) = page c n evs.
Proof.
  intros H. unfold page. rewrite drop_app_le by lia. rewrite take_app_le; [done|]. rewrite length_drop. lia.
Qed.

Lemma page_empty c evs : page c 0 evs = [].
Proof. done. Qed.

Lemma reader_ok_grows st st' r : appends st st' -> wf st' -> reader_ok st r -> reader_ok st' r.
Proof.
  intros Happ Hwf H Hs. destruct (H Hs) as (c & d & (Hc & Hd & Hle & Hsent) & Hph). exists c, d.
  destruct (ledger_appends (rd_workspace r) (rd_command r) _ _ Happ) as [l Hl].
  pose proof (ledger_ends_once (rd_workspace r) (rd_command r) st' Hwf) as Honce.
  unfold reader_ledger in *. rewrite Hl in Honce. rewrite Hl. set (evs := ledger _ _ st) in *.
  assert (Hne : evs <> [] -> evs ++ l <> []) by (intros ? [? ?]%app_nil; done).
  split.
  - split_and!; try done. rewrite Hsent. destruct (decide (c = d)) as [->|]; [by rewrite Nat.sub_diag|].
    symmetry. apply page_grows. destruct (rd_phase r) as [| | |i| |v| |why]; [..|destruct why]; simpl in Hph; lia.
  - destruct (rd_phase r) as [| | |i| |v| |why]; simpl in *; rewrite ?length_app; try exact Hph;
      try (destruct Hph; split_and!; (lia || tauto)).
    + destruct Hph as (-> & Hlen & Hn & n & ->). split_and!; [done|lia|tauto|].
      exists (Nat.min n (length evs - c)). rewrite page_grows by lia. unfold page.
      rewrite <- (take_ge (drop c evs) (length evs - c)) at 1 by (rewrite length_drop; lia).
      by rewrite take_take.
    + destruct Hph as (? & ? & ?). split_and!; [lia|tauto|]. apply elem_of_app. by left.
    + destruct why; simpl in *; try (destruct Hph as [?|?]; [by left|right; lia]).
      * destruct Hph as [-> Ht]. assert (l = []) as ->; [|by rewrite app_nil_r, Nat.add_0_r].
        unfold ends_terminal in Ht. destruct (last evs) as [e|] eqn:El; [|done].
        rewrite last_lookup in El. specialize (Honce (pred (length evs)) e).
        rewrite lookup_app_l in Honce by by eapply lookup_lt_Some. specialize (Honce El Ht).
        apply lookup_lt_Some in El. rewrite length_app in Honce. destruct l; simpl in *; [done|lia].
      * destruct Hph as (? & ? & ?). split_and!; [done|lia|lia].
Qed.

Lemma emitting_page st r c d n after :
  wf st -> sent_ok (reader_ledger st r) c d r -> (d <= length (reader_ledger st r))%nat ->
  let events := page d n (reader_ledger st r) in
  let r' := r <| rd_sent ::= fun l => l ++ map Operation events |> <| rd_delivered := Z.of_nat (d + length events) |> in
  emitting events after r = after r'
  /\ sent_ok (reader_ledger st r) c (d + length events) r' /\ (d + length events <= length (reader_ledger st r))%nat.
Proof.
  intros Hwf (Hc & Hd & Hle & Hsent) Hlen events r'. set (evs := reader_ledger st r) in *.
  assert (Hcount : counted (S d) events).
  { apply counted_take, (counted_drop 1), ledger_counted, Hwf. }
  assert (Honce : ends_once events) by by apply page_ends_once, ledger_ends_once.
  unfold emitting. rewrite Hd, (emit_counted d events Hcount Honce). split; [done|].
  assert (Hev : length events = Nat.min n (length evs - d)) by (unfold events, page; by rewrite length_take, length_drop).
  split; [|lia]. split_and!; [done|done|lia|]. simpl. rewrite operations_app, operations_map, Hsent.
  replace (d + length events - c)%nat with ((d - c) + length events)%nat by lia.
  rewrite <- page_app. f_equal. replace (c + (d - c))%nat with d by lia. apply page_length.
Qed.

Lemma reader_ok_goto st r c d phase :
  sent_ok (reader_ledger st r) c d r -> phase_ok (reader_ledger st r) c d phase -> reader_ok st (goto phase r).
Proof. intros Hs Hp _. by exists c, d. Qed.

Lemma send_live_ok st r c d live :
  wf st -> sent_ok (reader_ledger st r) c d r -> live ∈ reader_ledger st r ->
  oe_sequence live = rd_delivered r + 1 -> reader_ok st (send_live live r).
Proof.
  intros Hwf (Hc & Hd & Hle & Hsent) Hin Hseq _. exists c, (S d).
  change (reader_ledger st (send_live live r)) with (reader_ledger st r). set (evs := reader_ledger st r) in *.
  assert (Hi : evs !! d = Some live).
  { pose proof (counted_elem 1 evs live (ledger_counted _ _ _ Hwf) Hin) as H. rewrite Hseq, Hd in H.
    by replace (Z.to_nat (Z.of_nat d + 1) - 1)%nat with d in H by lia. }
  pose proof (lookup_lt_Some _ _ _ Hi) as Hlt.
  assert (Hne : evs <> []) by (intros E; rewrite E in Hi; done).
  split.
  - split_and!; [done|simpl; lia|lia|]. simpl. rewrite operations_app, Hsent. simpl.
    replace (S d - c)%nat with (d - c + 1)%nat by lia. rewrite <- page_app. f_equal.
    replace (c + (d - c))%nat with d by lia. unfold page. by rewrite (drop_S _ _ _ Hi).
  - simpl. destruct (terminal_kind (oe_kind live)) eqn:Ht; simpl; [|by split].
    pose proof (ledger_ends_once _ _ _ Hwf _ _ Hi Ht) as Hlast. split; [done|].
    unfold ends_terminal. rewrite last_lookup. change (S d = length evs) in Hlast. rewrite <- Hlast. simpl. by rewrite Hi.
Qed.

Lemma receive_ok st r item :
  wf st -> rd_phase r = Waiting -> reader_ok st r ->
  (rd_snapshot r = false -> match item with Live e => e ∈ reader_ledger st r | _ => True end) ->
  reader_ok st (receive item r).
Proof.
  intros Hwf Hph H Hin. destruct (rd_snapshot r) eqn:Es.
  { intros E. exfalso. destruct item; simpl in E; repeat case_match; simpl in *; congruence. }
  specialize (Hin eq_refl). destruct (H Es) as (c & d & Hs & Hp). rewrite Hph in Hp. destruct Hp as [Hlen Hne].
  destruct item as [live|]; simpl; [|eapply reader_ok_goto; [done|by right]].
  destruct (oe_sequence live <=? _); [exact H|].
  destruct (Z.eqb_spec (oe_sequence live) (rd_delivered r + 1)) as [Heq|]; [by eapply send_live_ok|].
  eapply reader_ok_goto; [done|]. by split_and!.
Qed.

Lemma begin_stream_ok st r : wf st -> reader_ok st r -> reader_ok st (begin_stream r).
Proof.
  intros Hwf H. unfold begin_stream. destruct (rd_phase r) as [| | |initial| |v| |why] eqn:Eph; try exact H.
  destruct (rd_snapshot r) eqn:Es.
  { intros E. exfalso. unfold emitting in E. repeat case_match; simpl in *; congruence. }
  destruct (H Es) as (c & d & Hs & Hp). rewrite Eph in Hp. destruct Hp as (-> & Hlen & Hne & n & ->).
  destruct (emitting_page st r c c n
    (goto (if ends_terminal (page c n (reader_ledger st r)) then Finished Returned else Waiting)) Hwf Hs Hlen)
    as (-> & Hs' & Hlen').
  eapply reader_ok_goto; [exact Hs'|].
  match goal with |- phase_ok ?evs _ _ _ => change evs with (reader_ledger st r) end.
  destruct (ends_terminal (page _ _ _)) eqn:Et; simpl; [|done].
  pose proof (page_terminal c n _ (ledger_ends_once _ _ _ Hwf) Et) as [Hall Hclosed]. split; [|done].
  fold (reader_ledger st r) in Hall. rewrite Hall, length_drop. lia.
Qed.

Lemma authorized_ok st r c cluster initial :
  sent_ok (reader_ledger st r) c c r -> phase_ok (reader_ledger st r) c c (Starting initial) ->
  reader_ok st (authorized read_access cluster initial r).
Proof.
  intros Hs Hp. unfold authorized. destruct (String.eqb _ _); [eapply reader_ok_goto; [done|by left]|].
  destruct (read_access _ _); eapply reader_ok_goto; try done. by left.
Qed.

(** After a replay from [delivered]: the rest of the gap, or the poll. *)
Lemma repaired_ok st r c d n live :
  wf st -> sent_ok (reader_ledger st r) c d r -> (d <= length (reader_ledger st r))%nat ->
  live ∈ reader_ledger st r -> (c <= n)%nat -> d = (n + length (page n 500 (reader_ledger st r)))%nat ->
  reader_ok st (repaired live r).
Proof.
  intros Hwf Hs Hlen Hin Hn Hd. pose proof Hs as (Hc & Hd' & Hle & Hsent). unfold repaired.
  assert (Hne : reader_ledger st r <> []) by (intros E; rewrite E in Hin; by apply not_elem_of_nil in Hin).
  destruct (Z.leb_spec (oe_sequence live) (rd_delivered r)) as [|Hgt]; [by eapply reader_ok_goto|].
  destruct (Z.eqb_spec (oe_sequence live) (rd_delivered r + 1)) as [|Hneq]; [by eapply send_live_ok|].
  eapply reader_ok_goto; [done|]. split_and!; [done|done|].
  pose proof (counted_elem 1 _ _ (ledger_counted _ _ _ Hwf) Hin) as Hi. apply lookup_lt_Some in Hi.
  change (ledger _ _ st) with (reader_ledger st r) in Hi.
  rewrite Hd' in *. unfold page in Hd. rewrite length_take, length_drop in Hd. lia.
Qed.

Lemma polled_ok st r c d n :
  wf st -> sent_ok (reader_ledger st r) c d r -> (d <= length (reader_ledger st r))%nat ->
  reader_ledger st r <> [] -> (n <= length (reader_ledger st r))%nat ->
  d = (n + length (page n 500 (reader_ledger st r)))%nat ->
  reader_ok st (polled (page n 500 (reader_ledger st r)) r).
Proof.
  intros Hwf Hs Hlen Hne Hn Hd. unfold polled. destruct (ends_terminal _) eqn:Et.
  - eapply reader_ok_goto; [done|]. simpl.
    pose proof (page_terminal n 500 _ (ledger_ends_once _ _ _ Hwf) Et) as [Hall Hclosed]. split; [|done].
    change (ledger _ _ st) with (reader_ledger st r) in *. rewrite Hd, Hall, length_drop. lia.
  - intros _. exists c, d. destruct Hs as (Hc & Hd' & Hle & Hsent). split; [|by split].
    split_and!; try done. simpl. rewrite operations_app. simpl. by rewrite app_nil_r.
Qed.

Lemma read_store_ok st now r : wf st -> reader_ok st r -> reader_ok st (read_store read_access now st r).
Proof.
  intros Hwf H. destruct (rd_snapshot r) eqn:Es.
  { intros E. exfalso. unfold read_store, with_replay, emitting, authorized, polled, repaired, send_live in E.
    repeat case_match; simpl in *; congruence. }
  destruct (H Es) as (c & d & Hs & Hp). pose proof Hs as (Hc & Hd & Hle & Hsent). unfold read_store.
  destruct (rd_phase r) as [| | |initial| |live| |why] eqn:Eph; try exact H; simpl in Hp.
  - subst d. unfold with_replay. rewrite Hc, replay_page by done.
    change (ledger _ _ st) with (reader_ledger st r).
    destruct (page c 500 (reader_ledger st r)) as [|first rest] eqn:Epage; [by eapply reader_ok_goto|].
    destruct (field_str_or _ _ _); [|eapply reader_ok_goto; [done|by left]].
    eapply authorized_ok; [done|].
    assert (Hlt : (c < length (reader_ledger st r))%nat).
    { destruct (decide (c < length (reader_ledger st r))%nat); [done|]. unfold page in Epage.
      rewrite drop_ge in Epage by lia. done. }
    split_and!; [done|lia|by intros E; rewrite E in Hlt; simpl in Hlt; lia|by exists 500%nat].
  - subst d. destruct (get_command_operation_event_context _ _ st) as [[[last closed_at] cluster]|] eqn:Ectx;
      [|by eapply reader_ok_goto].
    pose proof (context_ledger _ _ _ _ _ _ Hwf Ectx) as [-> Hcl]. rewrite Hc.
    change (ledger _ _ st) with (reader_ledger st r) in *.
    destruct cluster as [cluster|]; [specialize (Hcl ltac:(done))|simpl; eapply reader_ok_goto; [done|by left]].
    simpl. destruct (String.eqb cluster "") eqn:Ecl; simpl.
    { unfold authorized. rewrite Ecl. eapply reader_ok_goto; [done|by left]. }
    destruct (Z.ltb_spec (Z.of_nat (length (reader_ledger st r))) (Z.of_nat c)) as [|Hge];
      [eapply reader_ok_goto; [done|by left]|].
    eapply authorized_ok; [done|]. split_and!; [done|lia|done|]. by exists 0%nat.
  - destruct (find_command _ _ _); [|eapply reader_ok_goto; [done|by left]].
    destruct (read_access _ _); [|eapply reader_ok_goto; [done|by left]]. by intros E.
  - destruct Hp as (Hlen & Hne & Hin). unfold with_replay. rewrite Hd, replay_page by done.
    change (ledger _ _ st) with (reader_ledger st r).
    destruct (emitting_page st r c d 500 (repaired live) Hwf Hs Hlen) as (-> & Hs' & Hlen').
    by eapply (repaired_ok st _ c _ d live).
  - destruct Hp as (Hlen & Hne). unfold with_replay. rewrite Hd, replay_page by done.
    change (ledger _ _ st) with (reader_ledger st r).
    destruct (emitting_page st r c d 500 (polled (page d 500 (reader_ledger st r))) Hwf Hs Hlen) as (-> & Hs' & Hlen').
    match type of Hs' with sent_ok _ _ _ ?r' => exact (polled_ok st r' c _ d Hwf Hs' Hlen' Hne Hlen eq_refl) end.
Qed.

(** ** The world *)

(** An event of the store under its key. *)
Definition from_row (st : store) (key : string * string) (item : subscription_item) : Prop :=
  match item with
  | Live e => exists row, row ∈ op_events st /\ e = to_operation_event row
                /\ subscription_key (ev_workspace_id row) (ev_command_id row) = key
  | OperationEventStreamOverflow => True
  end.

(** Identifiers the store knows carry no blanks around them, so that a key
    names one stream. *)
Definition clean (st : store) : Prop :=
  forall row, row ∈ op_events st ->
    strip (ev_workspace_id row) = ev_workspace_id row /\ strip (ev_command_id row) = ev_command_id row.

Definition local_ok (b : local_broker) : Prop := forall key id, id ∈ subscribers key b -> is_Some (b_queues b !! id).

Definition queue_ok (st : store) (b : local_broker) (key : string * string) (id : nat) : Prop :=
  (exists q, b_queues b !! id = Some q /\ Forall (from_row st key) q)
  /\ forall key', id ∈ subscribers key' b -> key' = key.

Definition committed (st : store) (message : string * OperationEvent) : Prop :=
  exists row, row ∈ op_events st /\ message = (ev_workspace_id row, to_operation_event row).

Record world_ok (w : world) : Prop := {
  wo_store : wf (w_store w);
  wo_gateways : forall g b, w_gateways w !! g = Some b -> local_ok (rb_local b);
  wo_channel : Forall (committed (w_store w)) (w_channel w);
  wo_queues : forall id g r, w_readers w !! id = Some (g, r) -> finished_reader r = false ->
    exists b, w_gateways w !! g = Some b /\ queue_ok (w_store w) (rb_local b) (reader_key r) (rd_queue r);
  wo_readers : clean (w_store w) -> forall id g r, w_readers w !! id = Some (g, r) -> reader_ok (w_store w) r;
}.

Lemma from_row_grows st st' key item : appends st st' -> from_row st key item -> from_row st' key item.
Proof.
  intros [l Hl]. destruct item; [|done]. intros (row & Hin & H). exists row. rewrite Hl, elem_of_app. auto.
Qed.

Lemma queue_ok_grows st st' b key id : appends st st' -> queue_ok st b key id -> queue_ok st' b key id.
Proof.
  intros Happ [(q & Hq & Hf) Hu]. split; [|done]. exists q. split; [done|].
  eapply Forall_impl; [done|]. intros item. by apply from_row_grows.
Qed.

(** A change of a broker that keeps the queues a reader waits on. *)
Record broker_change (st : store) (b b' : local_broker) : Prop := {
  bc_local : local_ok b -> local_ok b';
  bc_queue : forall key id, queue_ok st b key id -> queue_ok st b' key id;
}.

Lemma deliver_change st b row :
  row ∈ op_events st -> broker_change st b (deliver (to_operation_event row) (ev_workspace_id row) b).
Proof.
  intros Hin. split.
  - intros H key id Hid. rewrite deliver_lookup. destruct (H key id Hid) as [q ->]. case_decide; by eexists.
  - intros key id [(q & Hq & Hf) Hu]. split; [|done]. rewrite deliver_lookup, Hq. simpl.
    case_decide as Hd; [|by exists q]. exists (offer q (to_operation_event row)). split; [done|].
    apply Hu in Hd as <-.
    apply (offer_live (fun e => from_row st _ (Live e))); [exact Hf|]. by exists row.
Qed.

Lemma fewer_subscribers_change st b b' :
  b_queues b' = b_queues b -> (forall key id, id ∈ subscribers key b' -> id ∈ subscribers key b) ->
  broker_change st b b'.
Proof.
  intros Hq Hs. split.
  - intros H key id Hid. rewrite Hq. by eapply H, Hs.
  - intros key id [Hx Hu]. split; [by rewrite Hq|]. intros key' Hid. by apply Hu, Hs.
Qed.

Lemma unsubscribe_change st b key id : broker_change st b (unsubscribe key id b).
Proof.
  apply fewer_subscribers_change; [unfold unsubscribe; by case_match|]. intros key' id'. apply elem_of_unsubscribe.
Qed.

Lemma pop_change st b id item items :
  b_queues b !! id = Some (item :: items) -> broker_change st b (b <| b_queues ::= <[id := items]> |>).
Proof.
  intros Hq. split.
  - intros H key id' Hid. simpl. destruct (decide (id = id')) as [->|]; [rewrite lookup_insert_eq; by eexists|].
    rewrite lookup_insert_ne by done. by eapply H.
  - intros key id' [(q & Hq' & Hf) Hu]. split; [|done]. simpl.
    destruct (decide (id = id')) as [->|]; [|rewrite lookup_insert_ne by done; by exists q].
    rewrite lookup_insert_eq. exists items. split; [done|]. simplify_eq. by apply Forall_cons in Hf as [_ ?].
Qed.

Lemma subscribe_change st b cid ws : local_ok b -> broker_change st b (subscribe cid ws b).1.
Proof.
  intros Hloc. pose proof (is_fresh (dom (b_queues b))) as Hfresh. apply not_elem_of_dom in Hfresh.
  set (id := base.fresh (dom (b_queues b))) in *.
  assert (Hsub : forall key' id', id' ∈ subscribers key' (subscribe cid ws b).1 ->
    id' ∈ subscribers key' b \/ (id' = id /\ key' = subscription_key ws cid)).
  { intros key' id'. unfold subscribe, subscribers at 1. simpl.
    destruct (decide (subscription_key ws cid = key')) as [<-|];
      [rewrite lookup_insert_eq; simpl; set_solver | rewrite lookup_insert_ne by done; tauto]. }
  split.
  - intros H key' id' [Hid|[-> ->]]%Hsub; simpl; fold id; [|rewrite lookup_insert_eq; by eexists].
    destruct (H _ _ Hid) as [q Hq]. destruct (decide (id = id')) as [->|];
      [rewrite lookup_insert_eq; by eexists | rewrite lookup_insert_ne by done; by eexists].
  - intros key id' [(q & Hq & Hf) Hu]. assert (id <> id') as Hne by (intros ->; congruence).
    split; [simpl; fold id; rewrite lookup_insert_ne by done; by exists q|].
    intros key' [Hid|[-> _]]%Hsub; [by apply Hu|done].
Qed.

Lemma subscribe_queue st b cid ws :
  local_ok b -> queue_ok st (subscribe cid ws b).1 (subscription_key ws cid) (subscribe cid ws b).2.
Proof.
  intros Hloc. pose proof (is_fresh (dom (b_queues b))) as Hfresh. apply not_elem_of_dom in Hfresh.
  split; [exists []; split; [by simpl; rewrite lookup_insert_eq|constructor]|].
  intros key'. unfold subscribe, subscribers. simpl. set (id := base.fresh _) in *.
  destruct (decide (subscription_key ws cid = key')) as [<-|]; [done|]. rewrite lookup_insert_ne by done.
  intros [q Hq]%Hloc. congruence.
Qed.

Definition same_request (r r' : reader) : Prop := reader_key r' = reader_key r /\ rd_queue r' = rd_queue r.

Lemma read_store_same now st r : same_request r (read_store read_access now st r).
Proof.
  unfold same_request, read_store, with_replay, emitting, authorized, polled, repaired, send_live.
  repeat case_match; by simplify_eq/=.
Qed.

Lemma begin_stream_same r : same_request r (begin_stream r).
Proof. unfold same_request, begin_stream, emitting. repeat case_match; by simplify_eq/=. Qed.

Lemma receive_same item r : same_request r (receive item r).
Proof. unfold same_request, receive, send_live. repeat case_match; by simplify_eq/=. Qed.

Lemma world_gateway w g b b' channel :
  world_ok w -> w_gateways w !! g = Some b -> broker_change (w_store w) (rb_local b) (rb_local b') ->
  Forall (committed (w_store w)) channel ->
  world_ok (w <| w_gateways ::= <[g := b']> |> <| w_channel := channel |>).
Proof.
  intros [Hst Hg Hch Hq Hr] Hb [Hl Hqueue] Hch'. split; simpl; try done.
  - intros g' b2 H2. destruct (decide (g = g')) as [<-|]; [|rewrite lookup_insert_ne in H2 by done; by eapply Hg].
    rewrite lookup_insert_eq in H2. simplify_eq. by eapply Hl, Hg.
  - intros id g' r Hid Hf. destruct (Hq id g' r Hid Hf) as (b2 & Hb2 & Hok).
    destruct (decide (g = g')) as [<-|]; [|rewrite lookup_insert_ne by done; by exists b2].
    rewrite lookup_insert_eq. simplify_eq. exists b'. split; [done|]. by apply Hqueue.
Qed.

(** [world_gateway] without a new message. *)
Lemma world_broker w g b b' :
  world_ok w -> w_gateways w !! g = Some b -> broker_change (w_store w) (rb_local b) (rb_local b') ->
  world_ok (w <| w_gateways ::= <[g := b']> |>).
Proof.
  intros Hw Hb Hc. assert (H := world_gateway w g b b' (w_channel w) Hw Hb Hc (wo_channel _ Hw)).
  by destruct w.
Qed.

Lemma world_reader w id g r b :
  world_ok w -> w_gateways w !! g = Some b ->
  (finished_reader r = false -> queue_ok (w_store w) (rb_local b) (reader_key r) (rd_queue r)) ->
  (clean (w_store w) -> reader_ok (w_store w) r) ->
  world_ok (w <| w_readers ::= <[id := (g, r)]> |>).
Proof.
  intros [Hst Hg Hch Hq Hr] Hb Hqueue Hok. split; simpl; try done.
  - intros id' g' r' Hid Hf. destruct (decide (id = id')) as [<-|];
      [|rewrite lookup_insert_ne in Hid by done; by eapply Hq].
    rewrite lookup_insert_eq in Hid. simplify_eq. exists b. auto.
  - intros Hcl id' g' r' Hid. destruct (decide (id = id')) as [<-|];
      [|rewrite lookup_insert_ne in Hid by done; by eapply Hr].
    rewrite lookup_insert_eq in Hid. simplify_eq. auto.
Qed.

Lemma alter_gateway w g b f :
  w_gateways w !! g = Some b -> w <| w_gateways ::= alter f g |> = w <| w_gateways ::= <[g := f b]> |>.
Proof.
  intros Hb. assert (H : alter f g (w_gateways w) = <[g := f b]> (w_gateways w)).
  { apply map_eq. intros i. destruct (decide (g = i)) as [<-|];
      [by rewrite lookup_alter_eq, lookup_insert_eq, Hb | by rewrite lookup_alter_ne, lookup_insert_ne]. }
  destruct w as [st gws ch rds].
  exact (f_equal (fun m => {| w_store := st; w_gateways := m; w_channel := ch; w_readers := rds |}) H).
Qed.

Lemma settle_ok w id g r r' :
  world_ok w -> w_readers w !! id = Some (g, r) -> finished_reader r = false -> same_request r r' ->
  (clean (w_store w) -> reader_ok (w_store w) r') -> world_ok (settle_reader id g r' w).
Proof.
  intros Hw Hid Hf [Hkey Hqueue] Hok. destruct (wo_queues _ Hw id g r Hid Hf) as (b & Hb & Hq).
  assert (Hw' : world_ok (w <| w_readers ::= <[id := (g, r')]> |>)).
  { eapply world_reader; [done|done| |done]. intros _. by rewrite Hkey, Hqueue. }
  unfold settle_reader. destruct (finished_reader r'); [|done].
  rewrite (alter_gateway (w <| w_readers ::= <[id := (g, r')]> |>) g b) by done.
  eapply world_broker; [exact Hw'|exact Hb|]. apply unsubscribe_change.
Qed.

Let step := world_step int_of_text read_access sha256_hex quote specs timestamp_of uuid5 clock_text.

Lemma link_change st b ev :
  match ev with Announced _ _ _ | Heard _ => False | _ => True end ->
  broker_change st (rb_local b) (rb_local (link_step b ev)).
Proof.
  intros Hev. assert (Hsame : broker_change st (rb_local b) (rb_local b)) by by split.
  destruct ev; try done; simpl;
    unfold start, close, connect_or_schedule, reconnect_round, connect, listener_ended, disconnect_client;
    repeat case_match; simpl; rewrite ?schedule_local; try exact Hsame.
  apply fewer_subscribers_change; [done|]. intros key id. unfold subscribers. simpl. by rewrite lookup_empty.
Qed.

Lemma queue_item st key cl live r :
  from_row st key (Live live) -> cl = clean st -> cl -> key = reader_key r -> rd_snapshot r = false ->
  reader_ok st r -> rd_phase r = Waiting -> live ∈ reader_ledger st r.
Proof.
  intros (row & Hin & -> & Hk) -> Hcl -> Hs H Hph. destruct (H Hs) as (c & d & _ & Hp).
  rewrite Hph in Hp. destruct Hp as [_ Hne].
  assert (exists row', row' ∈ stream (rd_workspace r) (rd_command r) st) as [row' Hrow'].
  { unfold reader_ledger, ledger in Hne. destruct (stream _ _ st) as [|row' l]; [done|]. exists row'. apply list_elem_of_here. }
  apply list_elem_of_filter in Hrow' as [[Hw Hc] Hin'].
  destruct (Hcl _ Hin) as [Hw1 Hc1]. destruct (Hcl _ Hin') as [Hw2 Hc2].
  unfold subscription_key, reader_key in Hk. unfold subscription_key in Hk.
  rewrite Hw1, Hc1, <- Hw, <- Hc, Hw2, Hc2, Hw, Hc in Hk. injection Hk as Hk1 Hk2.
  unfold reader_ledger. rewrite <- Hk1, <- Hk2. by apply elem_of_ledger.
Qed.

Lemma transaction_ok w o st :
  world_ok w -> command_step sha256_hex quote specs int_of_text timestamp_of uuid5 clock_text (w_store w) o st ->
  world_ok (w <| w_store := st |>).
Proof.
  intros [Hst Hg Hch Hq Hr] Ho. pose proof (step_appends _ _ _ _ _ _ _ _ _ _ Ho) as Happ.
  pose proof (step_wf _ _ _ _ _ _ _ _ _ _ Ho Hst) as Hwf. split; simpl; try done.
  - eapply Forall_impl; [done|]. intros m (row & Hin & Hm). exists row. split; [|done].
    destruct Happ as [l ->]. apply elem_of_app. by left.
  - intros id g r Hid Hf. destruct (Hq id g r Hid Hf) as (b & Hb & Hok). exists b. split; [done|].
    by eapply queue_ok_grows.
  - intros Hcl id g r Hid. eapply reader_ok_grows; [done|done|]. eapply Hr; [|done].
    intros row Hin. apply Hcl. destruct Happ as [l ->]. apply elem_of_app. by left.
Qed.

Lemma connect_ok w id g ws cid after header w' :
  world_ok w -> connect_reader int_of_text id g ws cid after header w = Some w' -> world_ok w'.
Proof.
  intros Hw H. unfold connect_reader in H. destruct (w_gateways w !! g) as [b|] eqn:Hb; [|done].
  cbn [mbind option_bind] in H. destruct (w_readers w !! id); [done|].
  destruct (if _ : bool then _ else _) as [cursor|status] eqn:Ec.
  - pose proof (wo_gateways _ Hw g b Hb) as Hloc.
    pose proof (subscribe_change (w_store w) _ cid ws Hloc) as Hc.
    pose proof (subscribe_queue (w_store w) _ cid ws Hloc) as Hq.
    destruct (subscribe cid ws (rb_local b)) as [local queue]. simplify_eq.
    eapply world_reader; [eapply world_broker; [done|done|exact Hc]|simpl; by rewrite lookup_insert_eq|by intros _|].
    intros _ _. simpl.
    assert (Hpos : 0 <= cursor).
    { unfold operation_event_cursor in Ec. repeat case_match; simplify_eq/=; bool_to_prop; try lia. }
    exists (Z.to_nat cursor), (Z.to_nat cursor). split; [|done]. split_and!; simpl; try lia.
    by rewrite Nat.sub_diag.
  - simplify_eq. eapply world_reader; [done|done|done|]. intros _ _. exists 0%nat, 0%nat.
    split; [by split_and!|by left].
Qed.

Lemma receive_action_ok w id w' : world_ok w -> step w (Receive id) w' -> world_ok w'.
Proof.
  intros Hw H. unfold step, world_step, perform in H.
  destruct (w_readers w !! id) as [[g r]|] eqn:Hr; [|done]. cbn [mbind option_bind] in H.
  destruct (rd_phase r) as [| | |i| |v| |why] eqn:Hph; try done.
  assert (Hf : finished_reader r = false) by (unfold finished_reader; by rewrite Hph).
  destruct (wo_queues _ Hw id g r Hr Hf) as (b & Hb & Hq).
  unfold pending_items in H. rewrite Hb in H. cbn [mbind option_bind] in H.
  destruct Hq as [(q & Hqueue & Hitems) Huniq]. rewrite Hqueue in H. destruct q as [|item items]; [done|].
  apply Forall_cons in Hitems as [Hitem _].
  rewrite (alter_gateway w g b) in H by done. injection H as <-.
  eapply settle_ok; [eapply world_broker; [done|done|by eapply pop_change]|exact Hr|exact Hf|apply receive_same|].
  intros Hcl. pose proof (wo_readers _ Hw Hcl id g r Hr) as Hok.
  apply receive_ok; [apply (wo_store _ Hw)|done|done|]. intros Hs. destruct item as [live|]; [|done].
  by eapply (queue_item _ _ (clean (w_store w))).
Qed.

(** An announcement: the gateway's own readers get it, and what goes on the channel is committed. *)
Lemma announce_ok w g b row published b' message :
  world_ok w -> w_gateways w !! g = Some b -> row ∈ op_events (w_store w) ->
  announce published (to_operation_event row) (ev_workspace_id row) b = (b', message) ->
  world_ok (w <| w_gateways ::= <[g := b']> |>
              <| w_channel ::= fun channel => channel ++ match message with Some m => [m] | None => [] end |>).
Proof.
  intros Hw Hb Hrow E.
  pose proof (announce_local published (to_operation_event row) (ev_workspace_id row) b) as Hl.
  pose proof (announce_message published (to_operation_event row) (ev_workspace_id row) b) as Hm.
  rewrite E in Hl, Hm. simpl in *.
  assert (Hc : broker_change (w_store w) (rb_local b) (rb_local b')) by (rewrite Hl; by apply deliver_change).
  pose proof (world_gateway w g b b' (w_channel w ++ match message with Some m => [m] | None => [] end) Hw Hb Hc) as G.
  destruct w. apply G. apply Forall_app. split; [apply (wo_channel _ Hw)|].
  destruct message; [|constructor]. constructor; [|constructor]. exists row. by rewrite (Hm p).
Qed.

Lemma world_step_ok w a w' : step w a w' -> world_ok w -> world_ok w'.
Proof.
  intros H Hw. destruct a as [o|g published i|g ev|g i|id g ws cid after header|id now|id|id|id|id];
    [..|by eapply receive_action_ok| |]; unfold step, world_step, perform in H.
  - destruct (apply _ _ _ _ _ _ _ o (w_store w)) as [st|] eqn:Ho; simplify_eq. by eapply transaction_ok.
  - destruct (op_events (w_store w) !! i) as [row|] eqn:Hrow; [|done]. cbn [mbind option_bind] in H.
    destruct (w_gateways w !! g) as [b|] eqn:Hb; [|done]. cbn [mbind option_bind] in H.
    destruct (announce _ _ _ b) as [b' message] eqn:E. injection H as <-.
    eapply announce_ok; [done|done|by eapply list_elem_of_lookup_2|done].
  - destruct (w_gateways w !! g) as [b|] eqn:Hb; [|done]. cbn [mbind option_bind] in H.
    destruct ev; simplify_eq; (eapply world_broker; [done|done|by apply link_change]).
  - destruct (w_channel w !! i) as [[mws me]|] eqn:Hm; [|done]. cbn [mbind option_bind] in H.
    destruct (w_gateways w !! g) as [b|] eqn:Hb; [|done]. cbn [mbind option_bind] in H. injection H as <-.
    eapply world_broker; [done|done|]. unfold heard. destruct (rb_listener b); [|by split].
    pose proof (wo_channel _ Hw) as Hch. rewrite Forall_lookup in Hch.
    destruct (Hch _ _ Hm) as (row & Hin & Heq). injection Heq as -> ->.
    by apply deliver_change.
  - by eapply connect_ok.
  - destruct (w_readers w !! id) as [[g r]|] eqn:Hr; [|done]. cbn [mbind option_bind] in H.
    destruct (finished_reader r) eqn:Hf; [done|]. injection H as <-.
    eapply settle_ok; [done|done|done|apply read_store_same|]. intros Hcl.
    apply read_store_ok; [apply (wo_store _ Hw)|by eapply wo_readers].
  - destruct (w_readers w !! id) as [[g r]|] eqn:Hr; [|done]. cbn [mbind option_bind] in H.
    destruct (finished_reader r) eqn:Hf; [done|]. injection H as <-.
    eapply settle_ok; [done|done|done|apply begin_stream_same|]. intros Hcl.
    apply begin_stream_ok; [apply (wo_store _ Hw)|by eapply wo_readers].
  - destruct (w_readers w !! id) as [[g r]|] eqn:Hr; [|done]. cbn [mbind option_bind] in H.
    destruct (rd_phase r) eqn:Hph; try done. destruct (pending_items g r w) as [[|]|]; simplify_eq.
    assert (Hf : finished_reader r = false) by (unfold finished_reader; by rewrite Hph).
    eapply settle_ok; [done|done|done|done|]. intros Hcl Hs.
    destruct (wo_readers _ Hw Hcl id g r Hr Hs) as (c & d & Hsent & Hp). rewrite Hph in Hp. by exists c, d.
  - destruct (w_readers w !! id) as [[g r]|] eqn:Hr; [|done]. cbn [mbind option_bind] in H.
    destruct (finished_reader r) eqn:Hf; [done|]. injection H as <-.
    eapply settle_ok; [done|done|done|done|]. intros Hcl Hs.
    destruct (wo_readers _ Hw Hcl id g r Hr Hs) as (c & d & Hsent & Hp). exists c, d. split; [done|]. simpl.
    unfold finished_reader in Hf. destruct (rd_phase r); simpl in Hp; try done; try (by left);
      destruct Hp as (Hd & _); auto.
Qed.

Lemma initial_world_ok gs : world_ok (initial_world gs).
Proof.
  split; simpl; try done; [apply empty_wf|].
  intros g b Hb%elem_of_list_to_map_2. apply list_elem_of_fmap in Hb as (g' & [= -> ->] & _).
  intros key id. unfold subscribers. simpl. by rewrite lookup_empty.
Qed.

Lemma run_ok gs acts w : steps step (initial_world gs) acts w -> world_ok w.
Proof. intros H. eapply steps_invariant; [|exact H|apply initial_world_ok]. intros w1 a w2. apply world_step_ok. Qed.


(** A browser whose stream broke and that reconnects, to any gateway, with
    the last identifier it received gets the rest: what the two streams sent is
    one uninterrupted part of the durable stream. *)
Theorem resumed_stream_exact gs acts w id1 g1 r1 id2 g2 r2 :
  steps step (initial_world gs) acts w -> clean (w_store w) ->
  w_readers w !! id1 = Some (g1, r1) -> rd_snapshot r1 = false ->
  w_readers w !! id2 = Some (g2, r2) -> rd_snapshot r2 = false ->
  rd_workspace r2 = rd_workspace r1 -> rd_command r2 = rd_command r1 -> rd_cursor r2 = rd_delivered r1 ->
  exists c n : nat, rd_cursor r1 = Z.of_nat c
    /\ operations (rd_sent r1) ++ operations (rd_sent r2)
       = take n (drop c (ledger (rd_workspace r1) (rd_command r1) (w_store w))).
Proof.
  intros Hrun%run_ok Hcl H1 Hs1 H2 Hs2 Hws Hcmd Hcur.
  destruct (wo_readers _ Hrun Hcl _ _ _ H1 Hs1) as (c1 & d1 & (Hc1 & Hd1 & Hle1 & Hsent1) & _).
  destruct (wo_readers _ Hrun Hcl _ _ _ H2 Hs2) as (c2 & d2 & (Hc2 & Hd2 & Hle2 & Hsent2) & _).
  exists c1, (d1 - c1 + (d2 - c2))%nat. split; [done|]. rewrite Hsent1, Hsent2.
  assert (c2 = d1) as -> by lia. unfold reader_ledger. rewrite Hws, Hcmd.
  change (take ?n (drop ?c ?l)) with (page c n l). rewrite <- page_app.
  by replace (c1 + (d1 - c1))%nat with d1 by lia.
Qed.

(** ** A browser that only waits *)

(** Waits of five seconds that nothing interrupts. *)
Definition poll_rounds (id : nat) (now : Z) (n : nat) : list action := concat (repeat [TimeOut id; Read id now] n).

(** A reader at the head of its loop with nothing queued. *)
Record idle (w : world) (id g : nat) (r : reader) : Prop := {
  idle_reader : w_readers w !! id = Some (g, r);
  idle_phase : rd_phase r = Waiting;
  idle_queue : pending_items g r w = Some [];
  idle_snapshot : rd_snapshot r = false;
}.

Lemma poll_round w id g r now c d :
  world_ok w -> idle w id g r -> sent_ok (reader_ledger (w_store w) r) c d r ->
  (d <= length (reader_ledger (w_store w) r))%nat ->
  let events := page d 500 (reader_ledger (w_store w) r) in
  exists w' r', steps step w [TimeOut id; Read id now] w' /\ w_store w' = w_store w
    /\ w_readers w' !! id = Some (g, r') /\ sent_ok (reader_ledger (w_store w) r) c (d + length events) r'
    /\ reader_ledger (w_store w) r' = reader_ledger (w_store w) r
    /\ if ends_terminal events then rd_phase r' = Finished Returned
       else idle w' id g r' /\ rd_sent r' = rd_sent r ++ map Operation events ++ [KeepAlive].
Proof.
  intros Hw [Hr Hph Hq Hsn] Hs Hlen events. pose proof Hs as (Hc & Hd & _).
  pose proof (wo_store _ Hw) as Hwf.
  destruct (emitting_page (w_store w) (goto Polling r) c d 500 (polled events) Hwf Hs Hlen) as (He & Hs' & _).
  set (r1 := goto Polling r) in *. change (reader_ledger (w_store w) r1) with (reader_ledger (w_store w) r) in *.
  fold events in He, Hs'.
  set (r2 := r1 <| rd_sent ::= fun l => l ++ map Operation events |> <| rd_delivered := Z.of_nat (d + length events) |>) in *.
  set (w1 := w <| w_readers ::= <[id := (g, r1)]> |>).
  assert (H1 : step w (TimeOut id) w1).
  { unfold step, world_step, perform. rewrite Hr. cbn [mbind option_bind]. by rewrite Hph, Hq. }
  assert (Hread : read_store read_access now (w_store w1) r1 = polled events r2).
  { unfold read_store, with_replay. simpl. rewrite Hd.
    rewrite (replay_page (w_store w) r1 d Hwf). exact He. }
  assert (H2 : step w1 (Read id now) (settle_reader id g (polled events r2) w1)).
  { unfold step, world_step, perform. simpl. rewrite lookup_insert_eq. simpl. by rewrite <- Hread. }
  exists (settle_reader id g (polled events r2) w1), (polled events r2).
  split; [eauto with kyro|]. unfold settle_reader, polled.
  destruct (ends_terminal events); simpl; rewrite lookup_insert_eq.
  - by split_and!.
  - split_and!; [done|done| |done| |by rewrite <- app_assoc].
    + destruct Hs' as (? & ? & ? & Hops). unfold sent_ok. split_and!; try done. simpl. simpl in Hops.
      by rewrite operations_app, Hops, app_nil_r.
    + split; simpl; [by rewrite lookup_insert_eq|done| |done]. unfold pending_items in *. exact Hq.
Qed.

Lemma poll_to_end n w id g r now c d :
  world_ok w -> idle w id g r -> sent_ok (reader_ledger (w_store w) r) c d r ->
  (d <= length (reader_ledger (w_store w) r))%nat -> (length (reader_ledger (w_store w) r) <= d + 500 * n)%nat ->
  exists k w' r', (k <= n)%nat /\ steps step w (poll_rounds id now k) w'
    /\ w_readers w' !! id = Some (g, r')
    /\ operations (rd_sent r') = drop c (reader_ledger (w_store w) r)
    /\ ((d < length (reader_ledger (w_store w) r))%nat -> ends_terminal (reader_ledger (w_store w) r) = true ->
        rd_phase r' = Finished Returned).
Proof.
  revert w r d. induction n as [|n IH]; intros w r d Hw Hidle Hs Hlen Hn.
  - exists 0%nat, w, r. pose proof Hs as (_ & _ & _ & Hsent). split_and!; [done|constructor|apply Hidle| |lia].
    rewrite Hsent. apply take_ge. rewrite length_drop. lia.
  - set (evs := reader_ledger (w_store w) r) in *.
    destruct (poll_round w id g r now c d Hw Hidle Hs Hlen) as (w1 & r1 & Hrun & Hst & Hr1 & Hs1 & Hl1 & Hcase).
    fold evs in Hs1, Hl1, Hcase.
    assert (Hw1 : world_ok w1) by (eapply steps_invariant; [|exact Hrun|done]; intros ? ? ?; apply world_step_ok).
    assert (Hpl : length (page d 500 evs) = Nat.min 500 (length evs - d)) by (unfold page; by rewrite length_take, length_drop).
    destruct (ends_terminal (page d 500 evs)) eqn:Et.
    + pose proof (page_terminal d 500 evs (ledger_ends_once _ _ _ (wo_store _ Hw)) Et) as [Hall _].
      exists 1%nat, w1, r1. split_and!; [lia|exact Hrun|done| |done].
      destruct Hs1 as (_ & _ & _ & ->). apply take_ge. rewrite Hall, !length_drop. lia.
    + destruct Hcase as [Hidle1 _]. rewrite <- Hst in Hl1.
      destruct (IH w1 r1 (d + length (page d 500 evs))%nat) as (k & w' & r' & Hk & Hrun' & Hr' & Hsent & Hret);
        rewrite ?Hl1, ?Hst; try done; [lia|lia|].
      exists (S k), w', r'. split_and!; [lia|by eapply (steps_app _ _ [_; _])|done|by rewrite Hsent, Hl1|].
      intros Hlt Hterm. rewrite Hl1 in Hret. apply Hret; [|done].
      destruct (decide (length evs <= d + 500)%nat) as [Hall|]; [|lia]. exfalso.
      assert (Hpage : page d 500 evs = drop d evs) by (apply take_ge; rewrite length_drop; lia).
      rewrite Hpage in Et. unfold ends_terminal in Et, Hterm. rewrite last_lookup in Et, Hterm.
      rewrite lookup_drop, length_drop in Et. replace (d + pred (length evs - d))%nat with (pred (length evs)) in Et by lia.
      destruct (evs !! pred (length evs)); congruence.
Qed.

(** C15. A browser that only waits receives every durable event within one
    five-second round for each 500 events it is behind, even when no
    announcement ever reaches its gateway; and when it was behind on a closed
    stream the server then ends the response. *)
Theorem reader_catches_up gs acts w id g r now n :
  steps step (initial_world gs) acts w -> clean (w_store w) -> idle w id g r ->
  let evs := reader_ledger (w_store w) r in
  Z.of_nat (length evs) <= rd_delivered r + 500 * Z.of_nat n ->
  exists k w' r', (k <= n)%nat /\ steps step w (poll_rounds id now k) w' /\ w_readers w' !! id = Some (g, r')
    /\ operations (rd_sent r') = drop (Z.to_nat (rd_cursor r)) evs
    /\ (rd_delivered r < Z.of_nat (length evs) -> ends_terminal evs = true -> rd_phase r' = Finished Returned).
Proof.
  intros Hrun%run_ok Hcl Hidle evs Hn.
  destruct (wo_readers _ Hrun Hcl id g r (idle_reader _ _ _ _ Hidle) (idle_snapshot _ _ _ _ Hidle))
    as (c & d & Hs & Hp).
  rewrite (idle_phase _ _ _ _ Hidle) in Hp. destruct Hp as [Hlen _]. pose proof Hs as (Hc & Hd & _).
  fold evs in Hs, Hlen.
  destruct (poll_to_end n w id g r now c d Hrun Hidle Hs Hlen) as (k & w' & r' & Hk & Hrun' & Hr' & Hsent & Hret);
    [fold evs; lia|].
  exists k, w', r'. split_and!; [done..| |].
  - by rewrite Hc, Nat2Z.id.
  - intros Hlt Ht. apply Hret; [|done]. fold evs. lia.
Qed.

(** A reader that has everything stays at the head of its loop: each round
    sends a keep-alive comment and nothing else, also when the stream is
    closed. *)
Lemma caught_up_keeps_waiting n gs acts w id g r now :
  steps step (initial_world gs) acts w -> clean (w_store w) -> idle w id g r ->
  rd_delivered r = Z.of_nat (length (reader_ledger (w_store w) r)) ->
  exists w' r', steps step w (poll_rounds id now n) w' /\ idle w' id g r'
    /\ rd_sent r' = rd_sent r ++ repeat KeepAlive n.
Proof.
  intros Hrun%run_ok Hcl Hidle Hall.
  destruct (wo_readers _ Hrun Hcl id g r (idle_reader _ _ _ _ Hidle) (idle_snapshot _ _ _ _ Hidle))
    as (c & d & Hs & _).
  assert (d = length (reader_ledger (w_store w) r)) as -> by (destruct Hs as (_ & Hd & _); lia). clear Hall Hcl.
  revert w r Hrun Hidle Hs. induction n as [|n IH]; intros w r Hrun Hidle Hs.
  { exists w, r. split_and!; [constructor|done|by rewrite app_nil_r]. }
  destruct (poll_round w id g r now c _ Hrun Hidle Hs (le_n _)) as (w1 & r1 & Hrun1 & Hst & Hr1 & Hs1 & Hl1 & Hcase).
  assert (Hw1 : world_ok w1) by (eapply steps_invariant; [|exact Hrun1|done]; intros ? ? ?; apply world_step_ok).
  unfold page in Hs1, Hcase. rewrite drop_ge in Hs1, Hcase by done. rewrite take_nil in Hs1, Hcase. simpl in Hs1, Hcase.
  destruct Hcase as [Hidle1 Hsent1]. rewrite Nat.add_0_r, <- Hl1, <- Hst in Hs1.
  destruct (IH w1 r1 Hw1 Hidle1 Hs1) as (w' & r' & Hrun' & Hidle' & Hsent').
  exists w', r'. split_and!; [by eapply (steps_app _ _ [_; _])|done|]. by rewrite Hsent', Hsent1, <- app_assoc.
Qed.
End Streams.
