(* ===== verification/CommandStreamScenarios.v ===== *)
(** Runs of the event streams: witnesses for the theorems, and two ways in
    which a stream does not do what its route says. *)

From S2P Require Import Prelude PyString Json EventStore Outbox CommandLifecycle CommandCatalog CommandStore CommandRuns CommandSafety.
From S2P Require Import OperationEvents CommandStream CommandStreamRuns.
From coqutil Require Import Datatypes.RecordSettersUsingExistingGetters.
#[global] Open Scope Z_scope.

Module Sample.
Import Demo.

Definition digit (s : string) : option Z := if String.eqb s "1" then Some 1 else None.
Definition everyone (_ _ : string) : bool := true.

Definition do_action := perform digit everyone same json_string specs epoch same same.
Definition wstep := world_step digit everyone same json_string specs epoch same same.

Fixpoint do_all (acts : list action) (w : world) : option world :=
  match acts with
  | [] => Some w
  | a :: acts => match do_action a w with Some w => do_all acts w | None => None end
  end.

Lemma do_all_steps acts w w' : do_all acts w = Some w' -> steps wstep w acts w'.
Proof.
  revert w. induction acts as [|a acts IH]; simpl; intros w H; [simplify_eq; constructor|].
  destruct (do_action a w) as [w1|] eqn:E; [|done]. econstructor; [exact E|by apply IH].
Qed.

Definition run (acts : list action) : world := default (initial_world []) (do_all acts (initial_world [0; 1]%nat)).

Lemma stream_run_steps acts : is_Some (do_all acts (initial_world [0; 1]%nat)) ->
  steps wstep (initial_world [0; 1]%nat) acts (run acts).
Proof. intros [w H]. unfold run. rewrite H. by apply do_all_steps. Qed.

(** Gateway 0 reaches Redis, gateway 1 does not.  A browser at gateway 1 gets
    the receipt; then the command runs to its end and only its last event is
    announced there. *)
Definition opened : list action :=
  [Link 0 (Started (Some 7%nat)); Link 1 (Started None);
   Transaction (Receipt 10 "corr" sample_plan "w" "c" "rollout_restart" "evt-0" (Some 1));
   Connect 1 1 "w" "cmd-1" None None; Read 1 15; Begin 1;
   Transaction (Queue 20 "corr" sample_plan "att-1");
   Transaction (Lease 30 (30 + 60 * SECOND) "c" "w" "agent" "lease-1");
   Transaction (Start 40 (40 + 60 * SECOND) (report_of "lease-1"));
   Transaction (Complete 50 (report_of "lease-1") success "api" "evt-1" "t" None)].

(** The terminal event is the fourth; gateway 1 is told of nothing else. *)
Definition repaired_late : list action := opened ++ [Tell 1 false 3; Receive 1; Read 1 60].

(** The browser leaves after the receipt and resumes at gateway 0. *)
Definition resumed : list action :=
  opened ++ [Leave 1; Connect 2 0 "w" "cmd-1" None (Some "1"); Read 2 70; Begin 2].

Definition clean_rows (st : store) : bool :=
  forallb (fun row => String.eqb (strip (ev_workspace_id row)) (ev_workspace_id row)
                      && String.eqb (strip (ev_command_id row)) (ev_command_id row)) (op_events st).

Lemma clean_rows_clean st : clean_rows st = true -> clean st.
Proof.
  unfold clean_rows. intros H row Hin. rewrite forallb_forall in H.
  specialize (H row (proj1 (list_elem_of_In _ _) Hin)). by bool_to_prop.
Qed.

Lemma opened_steps : steps wstep (initial_world [0; 1]%nat) opened (run opened).
Proof. apply stream_run_steps. vm_compute. by eexists. Qed.

Lemma repaired_late_steps : steps wstep (initial_world [0; 1]%nat) repaired_late (run repaired_late).
Proof. apply stream_run_steps. vm_compute. by eexists. Qed.

Lemma resumed_steps : steps wstep (initial_world [0; 1]%nat) resumed (run resumed).
Proof. apply stream_run_steps. vm_compute. by eexists. Qed.

Definition reader_of (id : nat) (acts : list action) : nat * reader :=
  default (0%nat, {| rd_workspace := ""; rd_command := ""; rd_cursor := 0; rd_queue := 0; rd_delivered := 0;
                     rd_snapshot := true; rd_sent := []; rd_phase := Replaying |}) (w_readers (run acts) !! id).


Example resumed_stream_exact_witness :
  exists c n : nat, rd_cursor (reader_of 1 resumed).2 = Z.of_nat c
    /\ operations (rd_sent (reader_of 1 resumed).2) ++ operations (rd_sent (reader_of 2 resumed).2)
       = take n (drop c (ledger "w" "cmd-1" (w_store (run resumed)))).
Proof.
  apply (resumed_stream_exact same json_string specs digit everyone epoch same same [0; 1]%nat resumed
    (run resumed) 1%nat 1%nat (reader_of 1 resumed).2 2%nat 0%nat (reader_of 2 resumed).2 resumed_steps);
    try (vm_compute; reflexivity).
  apply clean_rows_clean. vm_compute. reflexivity.
Defined.

(** The two streams of the run, by sequence number. *)
Example resumed_ex :
  oe_sequence <$> operations (rd_sent (reader_of 1 resumed).2) = [1]
  /\ oe_sequence <$> operations (rd_sent (reader_of 2 resumed).2) = [2; 3; 4]
  /\ rd_phase (reader_of 2 resumed).2 = Finished Returned.
Proof. vm_compute. by split_and!. Qed.

Lemma opened_idle : idle (run opened) 1 1 (reader_of 1 opened).2.
Proof. split; vm_compute; reflexivity. Qed.

Example reader_catches_up_witness :
  exists k w' r', (k <= 1)%nat /\ steps wstep (run opened) (poll_rounds 1 90 k) w'
    /\ w_readers w' !! 1%nat = Some (1%nat, r')
    /\ operations (rd_sent r') = drop 0 (ledger "w" "cmd-1" (w_store (run opened)))
    /\ rd_phase r' = Finished Returned.
Proof.
  destruct (reader_catches_up same json_string specs digit everyone epoch same same [0; 1]%nat opened (run opened)
    1%nat 1%nat (reader_of 1 opened).2 90 1 opened_steps) as (k & w' & r' & Hk & Hrun & Hr & Hsent & Hret).
  - apply clean_rows_clean. vm_compute. reflexivity.
  - exact opened_idle.
  - vm_compute. discriminate.
  - exists k, w', r'. split; [exact Hk|]. split; [exact Hrun|]. split; [exact Hr|].
    split; [exact Hsent|]. apply Hret; vm_compute; reflexivity.
Defined.

(** A stream whose terminal event was read while a gap was repaired is not
    ended by the server: although the terminal event was sent, the reader waits
    on and sends keep-alive comments as long as the browser stays, however
    long that is. *)
Theorem terminal_after_gap_stays_open n :
  let r := (reader_of 1 repaired_late).2 in
  ends_terminal (operations (rd_sent r)) = true
  /\ exists w' r', steps wstep (run repaired_late) (poll_rounds 1 90 n) w' /\ w_readers w' !! 1%nat = Some (1%nat, r')
     /\ rd_phase r' = Waiting /\ rd_sent r' = rd_sent r ++ repeat KeepAlive n.
Proof.
  intros r. split; [vm_compute; reflexivity|].
  destruct (caught_up_keeps_waiting same json_string specs digit everyone epoch same same n [0; 1]%nat repaired_late
    (run repaired_late) 1%nat 1%nat r 90 repaired_late_steps) as (w' & r' & Hrun & Hidle & Hsent).
  - apply clean_rows_clean. vm_compute. reflexivity.
  - split; vm_compute; reflexivity.
  - vm_compute. reflexivity.
  - exists w', r'. split_and!; [done|apply Hidle|apply Hidle|done].
Qed.

(** A command that was queued without a receipt has no durable event when the
    browser comes, which is given a snapshot numbered 1; the first durable event
    has the number 1 too and is dropped when it is announced. *)
Definition snapshot_first : list action :=
  [Transaction (Queue 20 "corr" sample_plan "att-1");
   Connect 1 0 "w" "cmd-1" None None; Read 1 21; Read 1 22; Read 1 23; Begin 1;
   Transaction (Lease 30 (30 + 60 * SECOND) "c" "w" "agent" "lease-1"); Tell 0 false 0; Receive 1;
   Transaction (Start 40 (40 + 60 * SECOND) (report_of "lease-1")); Tell 0 false 1; Receive 1].

Definition status_of (e : OperationEvent) : option json := dict_get "status" (oe_payload e).

(** A browser that opened the stream of a command queued without a receipt
    never gets the first durable event: it is sent [queued] (the snapshot) and
    [running], numbered 1 and 2, while the stream says [leased] and
    [running]. *)
Theorem snapshot_hides_first_event :
  steps wstep (initial_world [0; 1]%nat) snapshot_first (run snapshot_first)
  /\ map status_of (ledger "w" "cmd-1" (w_store (run snapshot_first))) = [Some (JStr "leased"); Some (JStr "running")]
  /\ map status_of (operations (rd_sent (reader_of 1 snapshot_first).2)) = [Some (JStr "queued"); Some (JStr "running")]
  /\ map oe_sequence (operations (rd_sent (reader_of 1 snapshot_first).2)) = [1; 2].
Proof.
  split; [apply stream_run_steps; vm_compute; by eexists|]. vm_compute. by split_and!.
Qed.
End Sample.
