(* ===== verification/Transactions.v ===== *)
(** Programs made of transactions, and their runs among others.

    A method that issues several transactions is not one step: what others
    commit in between is visible to it.  [prog] is its syntax: it returns,
    raises, or performs a transaction and goes on with the rest.  [runs other p]
    relates the tables before and after a run of [p] in which steps of [other]
    are committed at any point. *)

From S2P Require Import Prelude.
From stdpp Require Import relations.

Section Programs.
Context {S E : Type}.

#[warnings="-register-all"]
Inductive prog (A : Type) : Type :=
| Ret (x : A)
| Raise (e : E)
| Tx (f : S -> result E (S * prog A)).

Arguments Ret {A} x.
Arguments Raise {A} e.
Arguments Tx {A} f.

Definition tx {A} (f : S -> result E (S * A)) : prog A :=
  Tx (fun s => match f s with Ok (s, x) => Ok (s, Ret x) | Err e => Err e end).

Definition read {A} (f : S -> A) : prog A := tx (fun s => Ok (s, f s)).
Definition write (f : S -> result E S) : prog unit :=
  tx (fun s => match f s with Ok s => Ok (s, tt) | Err e => Err e end).
Definition lift {A} (r : result E A) : prog A := match r with Ok x => Ret x | Err e => Raise e end.

Fixpoint prog_bind {A B} (k : A -> prog B) (p : prog A) : prog B :=
  match p with
  | Ret x => k x
  | Raise e => Raise e
  | Tx f => Tx (fun s => match f s with Ok (s, p) => Ok (s, prog_bind k p) | Err e => Err e end)
  end.

(** [try: p except e: handler e]. *)
Fixpoint catch {A} (handler : E -> prog A) (p : prog A) : prog A :=
  match p with
  | Ret x => Ret x
  | Raise e => handler e
  | Tx f => Tx (fun s => match f s with Ok (s, p) => Ok (s, catch handler p) | Err e => Ok (s, handler e) end)
  end.

#[export] Instance prog_mret : MRet prog := fun A x => Ret x.
#[export] Instance prog_mbind : MBind prog := fun A B k p => prog_bind k p.

(** The last tables of a run include what others commit after the program. *)
Inductive runs (other : S -> S -> Prop) {A} : prog A -> S -> result E A -> S -> Prop :=
| runs_ret x s : runs other (Ret x) s (Ok x) s
| runs_raise e s : runs other (Raise e) s (Err e) s
| runs_tx f p s s1 o s2 : f s = Ok (s1, p) -> runs other p s1 o s2 -> runs other (Tx f) s o s2
| runs_failed f e s : f s = Err e -> runs other (Tx f) s (Err e) s
| runs_other p s s1 o s2 : other s s1 -> runs other p s1 o s2 -> runs other p s o s2.

(** An assertion no other transaction invalidates. *)
Definition stable (other : S -> S -> Prop) (P : S -> Prop) : Prop := forall s s', other s s' -> P s -> P s'.

(** A property of the tables others do not change at all. *)
Definition unmoved (other : S -> S -> Prop) {V} (view : S -> V) : Prop := forall s s', other s s' -> view s' = view s.

Section Rules.
Context (other : S -> S -> Prop).

Lemma stable_rtc P s s' : stable other P -> rtc other s s' -> P s -> P s'.
Proof. intros HP. induction 1; eauto. Qed.

Lemma unmoved_rtc {V} (view : S -> V) s s' : unmoved other view -> rtc other s s' -> view s' = view s.
Proof. intros Hv. induction 1 as [|s s1 s2 H _ IH]; [done|]. by rewrite IH, (Hv _ _ H). Qed.

Lemma runs_ret_inv {A} (x : A) s o s' : runs other (Ret x) s o s' -> o = Ok x /\ rtc other s s'.
Proof.
  intros H. remember (Ret x) as p eqn:Hp.
  induction H as [| | | |p s s1 o s2 Ho _ IH]; try discriminate; simplify_eq; [by split|].
  destruct (IH eq_refl) as [-> Hr]. split; [done|]. by eapply rtc_l.
Qed.

Lemma runs_raise_inv {A} (e : E) s o s' : runs other (@Raise A e) s o s' -> o = Err e /\ rtc other s s'.
Proof.
  intros H. remember (Raise e) as p eqn:Hp.
  induction H as [| | | |p s s1 o s2 Ho _ IH]; try discriminate; simplify_eq; [by split|].
  destruct (IH eq_refl) as [-> Hr]. split; [done|]. by eapply rtc_l.
Qed.

Lemma runs_Tx_inv {A} (f : S -> result E (S * prog A)) s o s' :
  runs other (Tx f) s o s' ->
  exists s1, rtc other s s1 /\
    match f s1 with
    | Ok (s2, p) => runs other p s2 o s'
    | Err e => o = Err e /\ rtc other s1 s'
    end.
Proof.
  intros H. remember (Tx f) as p eqn:Hp.
  induction H as [| |f' p s s1 o s2 Hf Hr _|f' e s Hf|p s s1 o s2 Ho _ IH]; try discriminate; simplify_eq.
  - exists s. split; [done|]. by rewrite Hf.
  - exists s. split; [done|]. by rewrite Hf.
  - destruct (IH eq_refl) as (s3 & Hr & Hcase). exists s3. split; [by eapply rtc_l|done].
Qed.

Lemma runs_others {A} (p : prog A) s s1 o s2 : rtc other s s1 -> runs other p s1 o s2 -> runs other p s o s2.
Proof. induction 1; eauto using runs_other. Qed.

(** A run of a sequence is a run of its first part, then of the rest. *)
Lemma runs_bind_inv {A B} (k : A -> prog B) (p : prog A) s o s' :
  runs other (p ≫= k) s o s' ->
  exists o1 s1, runs other p s o1 s1 /\
    match o1 with
    | Ok x => runs other (k x) s1 o s'
    | Err e => o = Err e /\ rtc other s1 s'
    end.
Proof.
  unfold mbind, prog_mbind. remember (prog_bind k p) as q eqn:Hq. intros H. revert p Hq.
  induction H as [y s|e s|f q s s1 o s2 Hf Hr IH|f e s Hf|q s s1 o s2 Ho Hr IH]; intros p Hq.
  - destruct p as [x| |]; try discriminate. exists (Ok x), s. split; [constructor|]. simpl in Hq. rewrite <- Hq. constructor.
  - destruct p as [x|e'|]; try discriminate.
    + exists (Ok x), s. split; [constructor|]. simpl in Hq. rewrite <- Hq. constructor.
    + injection Hq as ->. exists (Err e'), s. split; [constructor|done].
  - destruct p as [x| |g]; try discriminate.
    + exists (Ok x), s. split; [constructor|]. simpl in Hq. rewrite <- Hq. by econstructor.
    + injection Hq as ->. destruct (g s) as [[s3 p]|e] eqn:Hg; [|discriminate]. simplify_eq.
      destruct (IH p eq_refl) as (o1 & s4 & H1 & H2). exists o1, s4. split; [by econstructor|done].
  - destruct p as [x| |g]; try discriminate.
    + exists (Ok x), s. split; [constructor|]. simpl in Hq. rewrite <- Hq. by constructor.
    + injection Hq as ->. destruct (g s) as [[s3 p]|e'] eqn:Hg; [discriminate|]. simplify_eq.
      exists (Err e), s. split; [by constructor|done].
  - destruct (IH p Hq) as (o1 & s3 & H1 & H2). exists o1, s3. split; [by econstructor|done].
Qed.

Lemma runs_bind {A B} (k : A -> prog B) (p : prog A) s x s1 o s' :
  runs other p s (Ok x) s1 -> runs other (k x) s1 o s' -> runs other (p ≫= k) s o s'.
Proof.
  intros Hp Hk. remember (Ok x) as o1 eqn:Ho1.
  induction Hp as [| |f p s s2 o1 s3 Hf _ IH| |p s s2 o1 s3 Ho _ IH]; simplify_eq; [done| |by econstructor; eauto].
  eapply runs_tx; [|by apply IH]. by rewrite Hf.
Qed.

Lemma runs_bind_err {A B} (k : A -> prog B) (p : prog A) s e s1 :
  runs other p s (Err e) s1 -> runs other (p ≫= k) s (Err e) s1.
Proof.
  intros Hp. remember (Err e) as o1 eqn:Ho1.
  induction Hp as [|e' s|f p s s2 o1 s3 Hf _ IH|f e' s Hf|p s s2 o1 s3 Ho _ IH]; simplify_eq.
  - constructor.
  - eapply runs_tx; [|by apply IH]. by rewrite Hf.
  - apply runs_failed. by rewrite Hf.
  - econstructor; eauto.
Qed.

Lemma runs_tx_inv {A} (f : S -> result E (S * A)) s o s' :
  runs other (tx f) s o s' ->
  exists s1, rtc other s s1 /\
    match f s1 with
    | Ok (s2, x) => o = Ok x /\ rtc other s2 s'
    | Err e => o = Err e /\ rtc other s1 s'
    end.
Proof.
  intros (s1 & H1 & H2)%runs_Tx_inv. exists s1. split; [done|].
  destruct (f s1) as [[s2 x]|e]; [by apply runs_ret_inv|done].
Qed.

Lemma runs_read_inv {A} (f : S -> A) s o s' :
  runs other (read f) s o s' -> exists s1, rtc other s s1 /\ o = Ok (f s1) /\ rtc other s1 s'.
Proof. intros (s1 & H1 & H2)%runs_tx_inv. by exists s1. Qed.

Lemma runs_write_inv (f : S -> result E S) s o s' :
  runs other (write f) s o s' ->
  exists s1, rtc other s s1 /\
    match f s1 with
    | Ok s2 => o = Ok tt /\ rtc other s2 s'
    | Err e => o = Err e /\ rtc other s1 s'
    end.
Proof. intros (s1 & H1 & H2)%runs_tx_inv. exists s1. split; [done|]. by destruct (f s1). Qed.

Lemma runs_lift_inv {A} (r : result E A) s o s' : runs other (lift r) s o s' -> o = r /\ rtc other s s'.
Proof. destruct r; [apply runs_ret_inv|apply runs_raise_inv]. Qed.

(** A caught run ends as the body did, or the handler ran after the failure. *)
Lemma runs_catch_inv {A} (h : E -> prog A) (p : prog A) s o s' :
  runs other (catch h p) s o s' ->
  exists o1 s1, runs other p s o1 s1 /\
    match o1 with
    | Ok x => o = Ok x /\ rtc other s1 s'
    | Err e => runs other (h e) s1 o s'
    end.
Proof.
  remember (catch h p) as q eqn:Hq. intros H. revert p Hq.
  induction H as [y s|e s|f q s s1 o s2 Hf Hr IH|f e s Hf|q s s1 o s2 Ho Hr IH]; intros p Hq.
  - destruct p as [x|e|]; try discriminate.
    + injection Hq as ->. exists (Ok x), s. split; [constructor|done].
    + exists (Err e), s. split; [constructor|]. simpl in Hq. rewrite <- Hq. constructor.
  - destruct p as [|e'|]; try discriminate. exists (Err e'), s. split; [constructor|]. simpl in Hq. rewrite <- Hq. constructor.
  - destruct p as [|e|g]; try discriminate.
    + exists (Err e), s. split; [constructor|]. simpl in Hq. rewrite <- Hq. by econstructor.
    + injection Hq as ->. destruct (g s) as [[s3 p]|e] eqn:Hg; simplify_eq.
      * destruct (IH p eq_refl) as (o1 & s4 & H1 & H2). exists o1, s4. split; [by econstructor|done].
      * exists (Err e), s1. split; [by constructor|done].
  - destruct p as [|e'|g]; try discriminate.
    + exists (Err e'), s. split; [constructor|]. simpl in Hq. rewrite <- Hq. by constructor.
    + injection Hq as ->. destruct (g s) as [[s3 p]|e'] eqn:Hg; simplify_eq.
  - destruct (IH p Hq) as (o1 & s3 & H1 & H2). exists o1, s3. split; [by econstructor|done].
Qed.
End Rules.

(** Without others a run is a function. *)
Fixpoint alone {A} (p : prog A) (s : S) : result E A * S :=
  match p with
  | Ret x => (Ok x, s)
  | Raise e => (Err e, s)
  | Tx f => match f s with Ok (s, p) => alone p s | Err e => (Err e, s) end
  end.

Lemma alone_runs other {A} (p : prog A) s : runs other p s (alone p s).1 (alone p s).2.
Proof.
  revert p s. fix IH 1. intros p s. destruct p as [x|e|f]; simpl; [constructor|constructor|].
  destruct (f s) as [[s1 p]|e] eqn:Hf; [|by constructor]. by eapply runs_tx; [exact Hf|].
Qed.

Lemma alone_bind {A B} (k : A -> prog B) (p : prog A) s :
  alone (p ≫= k) s = match alone p s with (Ok x, s) => alone (k x) s | (Err e, s) => (Err e, s) end.
Proof.
  revert p s. fix IH 1. intros p s. destruct p as [x|e|f]; simpl; [done|done|].
  destruct (f s) as [[s1 p]|e]; [apply IH|done].
Qed.
End Programs.

Arguments prog S E A : clear implicits.
Arguments Ret {S E A} x.
Arguments Raise {S E A} e.
Arguments Tx {S E A} f.
