(* ===== verification/AlertStore.v ===== *)
(** The tables of the alert domain and their statements
    ([domains/alert/models.py], [repository.py]).

    One definition per repository method; a method is one transaction on
    [alert_tables], which also hold the tables of the event bus, since the
    transitions of a rule are staged for delivery in the transaction that makes
    them.  Columns the database fills ([created_at], [updated_at]) are kept where
    the code reads them.  Timestamps are integers in microseconds: the methods
    return them as ISO strings, which their callers parse back.  Measured values
    and thresholds are finite floats, that is rationals. *)

From S2P Require Import Prelude PyString Json EventStore Outbox.
From Stdlib Require Import QArith.QArith.
From coqutil Require Import Datatypes.RecordSettersUsingExistingGetters.
#[global] Open Scope Z_scope.

Arguments RecordSettersUsingExistingGetters.const {E} newValue _ /.

(** ** Severities *)

Definition severity_rank (severity : string) : Z :=
  let s := lower (strip severity) in
  if String.eqb s "info" then 0 else if String.eqb s "warning" then 1 else if String.eqb s "critical" then 2 else 1.

Definition severity_matches (min_severity severity : string) : bool :=
  severity_rank min_severity <=? severity_rank severity.

(** ** Tables *)

Record AlertChannel : Type := {
  ch_channel_id : string;
  ch_workspace_id : string;
  ch_name : string;
  ch_kind : string;
  ch_url : string;
  ch_min_severity : string;
  ch_enabled : bool;
  ch_last_tested_at : option Z;
  ch_last_test_status : option string;
  ch_last_test_detail : option string;
  ch_last_test_status_code : option Z;
}.

Record AlertRule : Type := {
  ru_rule_id : string;
  ru_workspace_id : string;
  ru_name : string;
  ru_scope : odict json;
  ru_metric : string;
  ru_comparator : string;
  ru_threshold : Q;
  ru_for_seconds : Z;
  ru_severity : string;
  ru_channels : list string;
  ru_enabled : bool;
  ru_created_by : string;
  ru_last_fired_at : option Z;
  ru_occurrence_count : Z;
  ru_updated_at : Z;
}.

Record AlertRuleTargetState : Type := {
  ts_rule_id : string;
  ts_subject_key : string;
  ts_workspace_id : string;
  ts_subject : odict json;
  ts_condition_since : option Z;
  ts_active_event_id : option string;
  ts_last_observed_value : Q;
  ts_last_evidence : list (odict json);
  ts_last_evaluated_at : Z;
}.

Inductive AlertEventStatus : Type := firing | acked | resolved.

#[export] Instance alert_status_eq_dec : EqDecision AlertEventStatus.
Proof. solve_decision. Defined.

Record AlertEvent : Type := {
  ae_event_id : string;
  ae_workspace_id : string;
  ae_rule_id : option string;
  ae_rule_name : option string;
  ae_source : string;
  ae_severity : string;
  ae_subject_key : string;
  ae_subject : odict json;
  ae_fired_at : Z;
  ae_resolved_at : option Z;
  ae_status : AlertEventStatus;
  ae_observed_value : option Q;
  ae_threshold : option Q;
  ae_series_identity : option (odict json);
  ae_evidence : list (odict json);
  ae_incident_id : option string;
  ae_acknowledged_at : option Z;
  ae_acknowledged_by : option string;
  ae_promoted_at : option Z;
  ae_promoted_by : option string;
  ae_updated_at : Z;
}.

Record alert_tables : Type := {
  al_channels : gmap string AlertChannel;
  al_rules : gmap string AlertRule;
  al_states : gmap (string * string) AlertRuleTargetState;
  al_events : gmap string AlertEvent;
  al_bus : tables;
}.

Inductive alert_error : Type :=
| AlertValueError (message : string)
| LookupError (message : string)
| AlertIntegrityError
| NoResultFound
| StagingFailed.

Abbreviation alert_transaction A := (result alert_error (alert_tables * A)) (only parsing).

(** [ORDER BY]: [before x y] when [x] comes first or ties. *)
Fixpoint insert_ordered {A} (before : A -> A -> bool) (x : A) (l : list A) : list A :=
  match l with
  | [] => [x]
  | y :: l' => if before x y then x :: l else y :: insert_ordered before x l'
  end.

Definition order_by {A} (before : A -> A -> bool) (l : list A) : list A := foldr (insert_ordered before) [] l.

Definition rows {K A} `{Countable K} (m : gmap K A) : list A := (map_to_list m).*2.

(** A row whose [k1] is smaller, or equal with a smaller [k2]. *)
Definition by_keys {A} (k1 k2 : A -> string) (x y : A) : bool :=
  if String.eqb (k1 x) (k1 y) then String.leb (k2 x) (k2 y) else String.leb (k1 x) (k1 y).

(** ** Channels *)

Definition list_alert_channels (workspace_id : string) (only_enabled : bool) (t : alert_tables) : list AlertChannel :=
  order_by (by_keys ch_name ch_channel_id)
    (base.filter (fun c => ch_workspace_id c = workspace_id /\ (only_enabled = true -> ch_enabled c = true))
       (rows (al_channels t))).

Definition get_alert_channel (workspace_id channel_id : string) (t : alert_tables) : option AlertChannel :=
  c ← al_channels t !! channel_id;
  if String.eqb (ch_workspace_id c) workspace_id then Some c else None.

Record channel_payload : Type := {
  cp_channel_id : string;
  cp_workspace_id : string;
  cp_name : string;
  cp_kind : string;
  cp_url : string;
  cp_min_severity : string;
  cp_enabled : bool;
}.

(** [payload.get("channel_id") or f"chan-{uuid4().hex[:16]}"]; the drawn
    identifier is an argument.  The test of another URL is forgotten. *)
Definition upsert_alert_channel (drawn : string) (p : channel_payload) (t : alert_tables)
    : alert_transaction AlertChannel :=
  let channel_id := if String.eqb (cp_channel_id p) "" then drawn else cp_channel_id p in
  let kind := if String.eqb (cp_kind p) "" then "webhook" else cp_kind p in
  let min_severity := lower (strip (if String.eqb (cp_min_severity p) "" then "warning" else cp_min_severity p)) in
  match al_channels t !! channel_id with
  | None =>
      let c := {| ch_channel_id := channel_id; ch_workspace_id := cp_workspace_id p; ch_name := cp_name p;
                  ch_kind := kind; ch_url := cp_url p; ch_min_severity := min_severity;
                  ch_enabled := cp_enabled p; ch_last_tested_at := None; ch_last_test_status := None;
                  ch_last_test_detail := None; ch_last_test_status_code := None |} in
      Ok (t <| al_channels ::= <[channel_id := c]> |>, c)
  | Some old =>
      if String.eqb (ch_workspace_id old) (cp_workspace_id p) then
        let moved := negb (String.eqb (ch_url old) (cp_url p)) in
        let keep {A} (o : option A) := if moved then None else o in
        let c := {| ch_channel_id := channel_id; ch_workspace_id := ch_workspace_id old; ch_name := cp_name p;
                    ch_kind := kind; ch_url := cp_url p; ch_min_severity := min_severity;
                    ch_enabled := cp_enabled p; ch_last_tested_at := keep (ch_last_tested_at old);
                    ch_last_test_status := keep (ch_last_test_status old);
                    ch_last_test_detail := keep (ch_last_test_detail old);
                    ch_last_test_status_code := keep (ch_last_test_status_code old) |} in
        Ok (t <| al_channels ::= <[channel_id := c]> |>, c)
      else Err (LookupError "alert channel not found in workspace")
  end.

Definition delete_alert_channel (workspace_id channel_id : string) (t : alert_tables) : alert_tables * bool :=
  match get_alert_channel workspace_id channel_id t with
  | Some _ => (t <| al_channels ::= delete channel_id |>, true)
  | None => (t, false)
  end.

Definition record_alert_channel_test (now : Z) (workspace_id channel_id status detail : string)
    (status_code : option Z) (t : alert_tables) : alert_transaction AlertChannel :=
  match get_alert_channel workspace_id channel_id t with
  | Some c =>
      let c := c <| ch_last_tested_at := Some now |> <| ch_last_test_status := Some status |>
                 <| ch_last_test_detail := Some detail |> <| ch_last_test_status_code := status_code |> in
      Ok (t <| al_channels ::= <[channel_id := c]> |>, c)
  | None => Err (LookupError "alert channel not found in workspace")
  end.

(** ** Rules *)

Definition create_alert_rule (now : Z) (rule : AlertRule) (t : alert_tables) : alert_transaction AlertRule :=
  match al_rules t !! ru_rule_id rule with
  | Some _ => Err AlertIntegrityError
  | None =>
      let rule := rule <| ru_last_fired_at := None |> <| ru_occurrence_count := 0 |> <| ru_updated_at := now |> in
      Ok (t <| al_rules ::= <[ru_rule_id rule := rule]> |>, rule)
  end.

Definition get_alert_rule (workspace_id rule_id : string) (t : alert_tables) : option AlertRule :=
  r ← al_rules t !! rule_id;
  if String.eqb (ru_workspace_id r) workspace_id then Some r else None.

(** Newest first. *)
Definition list_alert_rules (workspace_id : string) (t : alert_tables) : list AlertRule :=
  order_by (fun x y => if ru_updated_at x =? ru_updated_at y then String.leb (ru_rule_id x) (ru_rule_id y)
                       else ru_updated_at y <? ru_updated_at x)
    (base.filter (fun r => ru_workspace_id r = workspace_id) (rows (al_rules t))).

Definition list_enabled_alert_rules (t : alert_tables) : list AlertRule :=
  order_by (by_keys ru_workspace_id ru_rule_id) (base.filter (fun r => ru_enabled r = true) (rows (al_rules t))).

(** The columns a patch sets. *)
Record rule_changes : Type := {
  pc_name : option string; pc_scope : option (odict json); pc_metric : option string;
  pc_comparator : option string; pc_threshold : option Q; pc_for_seconds : option Z;
  pc_severity : option string; pc_channels : option (list string); pc_enabled : option bool;
}.

Definition update_alert_rule (now : Z) (workspace_id rule_id : string) (p : rule_changes) (t : alert_tables)
    : alert_tables * option AlertRule :=
  match get_alert_rule workspace_id rule_id t with
  | None => (t, None)
  | Some r =>
      let r := r <| ru_name := default (ru_name r) (pc_name p) |> <| ru_scope := default (ru_scope r) (pc_scope p) |>
                 <| ru_metric := default (ru_metric r) (pc_metric p) |>
                 <| ru_comparator := default (ru_comparator r) (pc_comparator p) |>
                 <| ru_threshold := default (ru_threshold r) (pc_threshold p) |>
                 <| ru_for_seconds := default (ru_for_seconds r) (pc_for_seconds p) |>
                 <| ru_severity := default (ru_severity r) (pc_severity p) |>
                 <| ru_channels := default (ru_channels r) (pc_channels p) |>
                 <| ru_enabled := default (ru_enabled r) (pc_enabled p) |> <| ru_updated_at := now |> in
      (t <| al_rules ::= <[rule_id := r]> |>, Some r)
  end.

(** The target states of the rule go with it ([ondelete="CASCADE"]); its events
    stay. *)
Definition delete_alert_rule (workspace_id rule_id : string) (t : alert_tables) : alert_tables * bool :=
  match get_alert_rule workspace_id rule_id t with
  | None => (t, false)
  | Some _ => (t <| al_rules ::= delete rule_id |> <| al_states ::= base.filter (fun kv => kv.1.1 <> rule_id) |>, true)
  end.

(** ** Events *)

Definition is_active (e : AlertEvent) : bool := negb (bool_decide (ae_status e = resolved)).

(** The partial unique index [uq_alert_events_active_subject]: an active event
    of the same rule and subject, other than the row itself.  Rows without a
    rule never collide. *)
Definition active_on (rule_id subject_key : string) (e : AlertEvent) : bool :=
  bool_decide (ae_rule_id e = Some rule_id) && String.eqb (ae_subject_key e) subject_key && is_active e.

Definition active_events (rule_id subject_key : string) (t : alert_tables) : gmap string AlertEvent :=
  base.filter (fun kv => active_on rule_id subject_key kv.2 = true) (al_events t).

Definition collides (e : AlertEvent) (t : alert_tables) : bool :=
  is_active e && match ae_rule_id e with
                 | Some rule_id => negb (bool_decide (delete (ae_event_id e) (active_events rule_id (ae_subject_key e) t) = ∅))
                 | None => false
                 end.

(** Writing a row, new or updated. *)
Definition put_event (e : AlertEvent) (t : alert_tables) : result alert_error alert_tables :=
  if collides e t then Err AlertIntegrityError else Ok (t <| al_events ::= <[ae_event_id e := e]> |>).

Definition get_event (workspace_id event_id : string) (t : alert_tables) : option AlertEvent :=
  e ← al_events t !! event_id;
  if String.eqb (ae_workspace_id e) workspace_id then Some e else None.

(** The filters of [list_alert_events]; [None] leaves a column open. *)
Record event_query : Type := {
  eq_from_time : option Z; eq_to_time : option Z; eq_rule_id : option string; eq_rule_name : option string;
  eq_source : option string; eq_incident_ids : option (list string); eq_event_ids : option (list string);
  eq_subject_key : option string; eq_severity : option string; eq_status : option AlertEventStatus;
}.

Definition open_or {A} (o : option A) (p : A -> bool) : bool := match o with None => true | Some x => p x end.
Definition some_eqb (o : option string) (s : string) : bool := bool_decide (o = Some s).
Definition normalized_ids (ids : list string) : list string :=
  dedup (base.filter (fun s => s <> "") (map strip ids)).

Definition selects (workspace_id : string) (q : event_query) (e : AlertEvent) : bool :=
  String.eqb (ae_workspace_id e) workspace_id
  && open_or (eq_from_time q) (fun from => from <=? ae_fired_at e)
  && open_or (eq_to_time q) (fun to => ae_fired_at e <=? to)
  && open_or (eq_rule_id q) (some_eqb (ae_rule_id e))
  && open_or (eq_rule_name q) (some_eqb (ae_rule_name e))
  && open_or (eq_source q) (String.eqb (ae_source e))
  && open_or (eq_incident_ids q) (fun ids => existsb (some_eqb (ae_incident_id e)) (normalized_ids ids))
  && open_or (eq_event_ids q) (fun ids => existsb (String.eqb (ae_event_id e)) (normalized_ids ids))
  && open_or (eq_subject_key q) (String.eqb (ae_subject_key e))
  && open_or (eq_severity q) (String.eqb (ae_severity e))
  && open_or (eq_status q) (fun s => bool_decide (ae_status e = s)).

Definition newest_event (x y : AlertEvent) : bool :=
  if ae_fired_at x =? ae_fired_at y then String.leb (ae_event_id x) (ae_event_id y)
  else ae_fired_at y <? ae_fired_at x.

Definition list_alert_events (workspace_id : string) (q : event_query) (limit : nat) (t : alert_tables)
    : list AlertEvent :=
  take limit (order_by newest_event (base.filter (fun e => selects workspace_id q e = true) (rows (al_events t)))).

(** An occurrence Alertmanager reports again, maybe late and out of order: a
    resolved one stays resolved unless it belongs to another incident now. *)
Definition upsert_external_alert_event (now : Z) (new : AlertEvent) (t : alert_tables)
    : alert_transaction AlertEvent :=
  match al_events t !! ae_event_id new with
  | None =>
      let e := new <| ae_acknowledged_at := None |> <| ae_acknowledged_by := None |> <| ae_promoted_at := None |>
                   <| ae_promoted_by := None |> <| ae_updated_at := now |> in
      t ← put_event e t; Ok (t, e)
  | Some old =>
      let incident_changed :=
        match ae_incident_id new, ae_incident_id old with
        | Some a, Some b => negb (String.eqb a b)
        | _, _ => false
        end in
      let resolved_is_terminal :=
        bool_decide (ae_status old = resolved) && negb (bool_decide (ae_status new = resolved)) && negb incident_changed in
      let pick {A} (f : AlertEvent -> A) := if resolved_is_terminal then f old else f new in
      let keep {A} (f : AlertEvent -> option A) := if incident_changed then None else f old in
      let coalesce {A} (f : AlertEvent -> option A) := match f new with Some x => Some x | None => f old end in
      let e := {| ae_event_id := ae_event_id old; ae_workspace_id := ae_workspace_id new; ae_rule_id := ae_rule_id old;
                  ae_rule_name := ae_rule_name new; ae_source := ae_source new; ae_severity := ae_severity new;
                  ae_subject_key := ae_subject_key new; ae_subject := ae_subject new; ae_fired_at := ae_fired_at old;
                  ae_resolved_at := pick ae_resolved_at; ae_status := pick ae_status;
                  ae_observed_value := pick ae_observed_value; ae_threshold := pick ae_threshold;
                  ae_series_identity := coalesce ae_series_identity; ae_evidence := pick ae_evidence;
                  ae_incident_id := coalesce ae_incident_id; ae_acknowledged_at := keep ae_acknowledged_at;
                  ae_acknowledged_by := keep ae_acknowledged_by; ae_promoted_at := keep ae_promoted_at;
                  ae_promoted_by := keep ae_promoted_by; ae_updated_at := now |} in
      t ← put_event e t; Ok (t, e)
  end.

Definition oldest_event (x y : AlertEvent) : bool :=
  if ae_fired_at x =? ae_fired_at y then String.leb (ae_event_id x) (ae_event_id y)
  else ae_fired_at x <? ae_fired_at y.

(** One event per confirmed incident; a replay changes nothing. *)
Definition upsert_incident_alert_event (now : Z) (incident_id : string) (new : AlertEvent) (t : alert_tables)
    : alert_transaction AlertEvent :=
  match order_by oldest_event
          (base.filter (fun e => ae_workspace_id e = ae_workspace_id new /\ ae_incident_id e = Some incident_id)
             (rows (al_events t))) with
  | existing :: _ => Ok (t, existing)
  | [] =>
      match al_events t !! ae_event_id new with
      | None => let e := new <| ae_updated_at := now |> in t ← put_event e t; Ok (t, e)
      | Some _ =>
          match get_event (ae_workspace_id new) (ae_event_id new) t with
          | Some replayed => Ok (t, replayed)
          | None => Err NoResultFound
          end
      end
  end.

Definition acknowledge_alert_event (now : Z) (workspace_id event_id actor_id : string) (t : alert_tables)
    : alert_transaction (option AlertEvent) :=
  match get_event workspace_id event_id t with
  | None => Ok (t, None)
  | Some current =>
      match ae_status current with
      | resolved => Err (AlertValueError "resolved alert event cannot be acknowledged")
      | acked => Ok (t, Some current)
      | firing =>
          let e := current <| ae_status := acked |> <| ae_acknowledged_at := Some now |>
                     <| ae_acknowledged_by := Some actor_id |> <| ae_updated_at := now |> in
          t ← put_event e t; Ok (t, Some e)
      end
  end.

Definition resolve_incident_alert_events (now : Z) (workspace_id incident_id : string) (t : alert_tables)
    : alert_tables * nat :=
  let hit e := String.eqb (ae_workspace_id e) workspace_id && some_eqb (ae_incident_id e) incident_id && is_active e in
  (t <| al_events ::= fmap (fun e =>
      if hit e then e <| ae_status := resolved |> <| ae_resolved_at := Some now |> <| ae_updated_at := now |> else e) |>,
   length (base.filter (fun e => hit e = true) (rows (al_events t)))).

Definition promote_alert_event (now : Z) (workspace_id event_id incident_id actor_id : string) (t : alert_tables)
    : alert_transaction (option (AlertEvent * bool)) :=
  match get_event workspace_id event_id t with
  | None => Ok (t, None)
  | Some current =>
      if match ae_incident_id current with Some s => negb (String.eqb s "") | None => false end
      then Ok (t, Some (current, false))
      else
        let e := current <| ae_incident_id := Some incident_id |> <| ae_promoted_at := Some now |>
                   <| ae_promoted_by := Some actor_id |> <| ae_updated_at := now |> in
        t ← put_event e t; Ok (t, Some (e, true))
  end.

(** ** Target states and the events of a rule *)

Definition get_alert_rule_target_state (workspace_id rule_id subject_key : string) (t : alert_tables)
    : option AlertRuleTargetState :=
  s ← al_states t !! (rule_id, subject_key);
  if String.eqb (ts_workspace_id s) workspace_id then Some s else None.

(** A new row refers to its rule. *)
Definition upsert_alert_rule_target_state (s : AlertRuleTargetState) (t : alert_tables)
    : result alert_error alert_tables :=
  match al_states t !! (ts_rule_id s, ts_subject_key s), al_rules t !! ts_rule_id s with
  | None, None => Err AlertIntegrityError
  | _, _ => Ok (t <| al_states ::= <[(ts_rule_id s, ts_subject_key s) := s]> |>)
  end.

(** What a transition stages in the transaction that makes it. *)
Abbreviation stager := (option (AlertEvent -> tables -> result alert_error tables)) (only parsing).

Definition stage_with (stage : stager) (e : AlertEvent) (t : alert_tables) : result alert_error alert_tables :=
  match stage with
  | None => Ok t
  | Some stage => b ← stage e (al_bus t); Ok (t <| al_bus := b |>)
  end.

(** [insert ... on conflict (rule_id, subject_key) where active do nothing], or
    the active event that is in the way. *)
Definition insert_active_event (now : Z) (s : AlertRuleTargetState) (event : AlertEvent) (t : alert_tables)
    : alert_transaction (AlertEvent * bool) :=
  let conflict := match ae_rule_id event with
                  | Some rule_id => is_active event && negb (bool_decide (active_events rule_id (ae_subject_key event) t = ∅))
                  | None => false
                  end in
  if conflict then
    match rows (base.filter (fun kv => ae_workspace_id kv.2 = ts_workspace_id s)
                  (active_events (ts_rule_id s) (ts_subject_key s) t)) with
    | [saved] => Ok (t, (saved, false))
    | _ => Err NoResultFound
    end
  else match al_events t !! ae_event_id event with
       | Some _ => Err AlertIntegrityError
       | None => let event := event <| ae_updated_at := now |> in
                 Ok (t <| al_events ::= <[ae_event_id event := event]> |>, (event, true))
       end.

Definition count_occurrence (now : Z) (workspace_id rule_id : string) (fired_at : Z) (t : alert_tables) : alert_tables :=
  match get_alert_rule workspace_id rule_id t with
  | Some r => t <| al_rules ::= <[rule_id :=
      r <| ru_last_fired_at := Some fired_at |> <| ru_occurrence_count := ru_occurrence_count r + 1 |>
        <| ru_updated_at := now |>]> |>
  | None => t
  end.

Definition activate_alert_rule_event (now : Z) (s : AlertRuleTargetState) (event : AlertEvent) (stage : stager)
    (t : alert_tables) : alert_transaction (AlertEvent * bool) :=
  match insert_active_event now s event t with
  | Err e => Err e
  | Ok (t, (saved, created)) =>
      t ← upsert_alert_rule_target_state (s <| ts_active_event_id := Some (ae_event_id saved) |>) t;
      if (created : bool) then
        t ← stage_with stage saved (count_occurrence now (ts_workspace_id s) (ts_rule_id s) (ae_fired_at event) t);
        Ok (t, (saved, true))
      else Ok (t, (saved, false))
  end.

Definition refresh_alert_rule_event (workspace_id event_id : string) (observed_value : Q)
    (evidence : list (odict json)) (evaluated_at : Z) (t : alert_tables) : alert_tables :=
  match get_event workspace_id event_id t with
  | Some e =>
      if is_active e
      then t <| al_events ::= <[event_id := e <| ae_observed_value := Some observed_value |>
                                  <| ae_evidence := evidence |> <| ae_updated_at := evaluated_at |>]> |>
      else t
  | None => t
  end.

Definition settle_event (observed_value : Q) (evidence : list (odict json)) (resolved_at : Z) (e : AlertEvent) : AlertEvent :=
  e <| ae_status := resolved |> <| ae_observed_value := Some observed_value |> <| ae_evidence := evidence |>
    <| ae_resolved_at := Some resolved_at |> <| ae_updated_at := resolved_at |>.

Definition clear_state (observed_value : Q) (evidence : list (odict json)) (resolved_at : Z) (s : AlertRuleTargetState)
    : AlertRuleTargetState :=
  s <| ts_condition_since := None |> <| ts_active_event_id := None |> <| ts_last_observed_value := observed_value |>
    <| ts_last_evidence := evidence |> <| ts_last_evaluated_at := resolved_at |>.

Definition resolve_alert_rule_event (workspace_id rule_id subject_key active_event_id : string)
    (observed_value : Q) (evidence : list (odict json)) (resolved_at : Z) (stage : stager) (t : alert_tables)
    : alert_transaction (option AlertEvent) :=
  match get_event workspace_id active_event_id t with
  | Some e =>
      if is_active e then
        let e := settle_event observed_value evidence resolved_at e in
        let t := t <| al_events ::= <[active_event_id := e]> |> in
        let t := match get_alert_rule_target_state workspace_id rule_id subject_key t with
                 | Some s => t <| al_states ::=
                     <[(rule_id, subject_key) := clear_state observed_value evidence resolved_at s]> |>
                 | None => t
                 end in
        t ← stage_with stage e t; Ok (t, Some e)
      else Ok (t, None)
  | None => Ok (t, None)
  end.

Definition empty_alerts : alert_tables :=
  {| al_channels := ∅; al_rules := ∅; al_states := ∅; al_events := ∅;
     al_bus := {| events := ∅; processing := ∅; outbox := []; outbox_seq := 1; dead_letters := [];
                  dead_letter_seq := 1 |} |}.
