(* ===== verification/AlertEvaluation.v ===== *)
(** The engine that evaluates alert rules ([domains/alert/evaluation.py]).

    [evaluate_once] is a program of transactions: operators, webhooks and the
    incident pipeline commit between any two of them.  One process runs the
    engine ([alert-worker], one replica, recreated). *)

From S2P Require Import Prelude PyString Json EventStore Outbox Transactions AlertStore.
From Stdlib Require Import QArith.QArith.
From coqutil Require Import Datatypes.RecordSettersUsingExistingGetters.
#[global] Open Scope Z_scope.

Arguments RecordSettersUsingExistingGetters.const {E} newValue _ /.

Abbreviation program A := (prog alert_tables alert_error A) (only parsing).

(** ** Measurements *)

Record AlertMeasurement : Type := {
  am_subject : odict json;
  am_observed_value : Q;
  am_observed_at : Z;
  am_evidence : list (odict json);
}.

Definition required_subject : list string := ["cluster"; "namespace"; "kind"; "name"].

(** Only the empty string has an empty [str]. *)
Definition blank (v : json) : bool := match v with JStr s => String.eqb s "" | _ => false end.

(** [AlertMeasurement.__post_init__]; a value is finite and a time has its zone
    by their types. *)
Definition new_measurement (m : AlertMeasurement) : result alert_error AlertMeasurement :=
  if existsb (fun key => match dict_get key (am_subject m) with None => true | Some v => blank v end) required_subject
  then Err (AlertValueError "alert measurement subject is incomplete")
  else match am_evidence m with
       | [] => Err (AlertValueError "alert measurement evidence is required")
       | _ => Ok m
       end.

Definition compare_alert_value (value : Q) (comparator : string) (threshold : Q) : result alert_error bool :=
  if String.eqb comparator ">" then Ok (negb (Qle_bool value threshold))
  else if String.eqb comparator ">=" then Ok (Qle_bool threshold value)
  else if String.eqb comparator "<" then Ok (negb (Qle_bool threshold value))
  else if String.eqb comparator "<=" then Ok (Qle_bool value threshold)
  else Err (AlertValueError "unsupported alert comparator").

Record alert_transition : Type := {
  tr_event : AlertEvent;
  tr_transition : string;
  tr_channel_ids : list string;
}.

Definition _notification_transition (event : AlertEvent) (rule : AlertRule) (transition : string) : alert_transition :=
  {| tr_event := event; tr_transition := transition; tr_channel_ids := ru_channels rule |}.

(** The object the engine notifies: it may have a [stage] method. *)
Record notifier : Type := {
  nt_stage : option (alert_transition -> tables -> result alert_error tables);
  nt_call : alert_transition -> program unit;
}.

Definition _ignore_transition : notifier := {| nt_stage := None; nt_call := fun _ => Ret tt |}.

Section Engine.
(** [hashlib.sha256(...).hexdigest()], and [datetime.fromisoformat], which is
    [None] where the code raises: on a malformed string, and on one without a
    zone, whose comparison with [observed_at] raises. *)
Context (sha256_hex : string -> string) (fromisoformat : string -> option Z).

Definition subject_key (subject : odict json) : string := sha256_hex (canonical_dumps json_string (JObj subject)).
Definition measurement_key (m : AlertMeasurement) : string := subject_key (am_subject m).

(** [_datetime_or_none] of a JSON value. *)
Definition _datetime_or_none (v : option json) : result alert_error (option Z) :=
  match v with
  | Some (JStr s) =>
      if String.eqb s "" then Ok None
      else match fromisoformat (str_replace "Z" "+00:00" s) with
           | Some at_ => Ok (Some at_)
           | None => Err (AlertValueError "Invalid isoformat string")
           end
  | _ => Ok None
  end.

Definition latest (x y : option Z) : option Z :=
  match x, y with Some x, Some y => Some (Z.max x y) | Some x, None => Some x | None, y => y end.

(** The newest [observed_at] of the evidence. *)
Fixpoint latest_observed (evidence : list (odict json)) : result alert_error (option Z) :=
  match evidence with
  | [] => Ok None
  | item :: rest =>
      at_ ← _datetime_or_none (dict_get "observed_at" item);
      later ← latest_observed rest;
      Ok (latest at_ later)
  end.

Definition _last_observed_at (state : option AlertRuleTargetState) : result alert_error (option Z) :=
  match state with None => Ok None | Some s => latest_observed (ts_last_evidence s) end.

(** [state_payload] with the two columns each branch sets. *)
Definition state_payload (rule : AlertRule) (m : AlertMeasurement) (evaluated_at : Z)
    (condition_since : option Z) (active_event_id : option string) : AlertRuleTargetState :=
  {| ts_rule_id := ru_rule_id rule; ts_subject_key := measurement_key m; ts_workspace_id := ru_workspace_id rule;
     ts_subject := am_subject m; ts_condition_since := condition_since; ts_active_event_id := active_event_id;
     ts_last_observed_value := am_observed_value m; ts_last_evidence := am_evidence m;
     ts_last_evaluated_at := evaluated_at |}.

Definition _firing_event (drawn : string) (rule : AlertRule) (m : AlertMeasurement) (evaluated_at : Z) : AlertEvent :=
  {| ae_event_id := "ale-" +:+ drawn; ae_workspace_id := ru_workspace_id rule; ae_rule_id := Some (ru_rule_id rule);
     ae_rule_name := Some (ru_name rule); ae_source := "opsia"; ae_severity := ru_severity rule;
     ae_subject_key := measurement_key m; ae_subject := am_subject m; ae_fired_at := evaluated_at;
     ae_resolved_at := None; ae_status := firing; ae_observed_value := Some (am_observed_value m);
     ae_threshold := Some (ru_threshold rule); ae_series_identity := None; ae_evidence := am_evidence m;
     ae_incident_id := None; ae_acknowledged_at := None; ae_acknowledged_by := None; ae_promoted_at := None;
     ae_promoted_by := None; ae_updated_at := evaluated_at |}.

Section Notified.
Context (notify : notifier).

Definition _transactional_stager (rule : AlertRule) (name : string)
    : option (AlertEvent -> tables -> result alert_error tables) :=
  stage ← nt_stage notify; Some (fun saved => stage (_notification_transition saved rule name)).

(** Without a stager the transition is announced after its transaction. *)
Definition announce (transition : alert_transition) : program (option alert_transition) :=
  match nt_stage notify with
  | Some _ => Ret (Some transition)
  | None => _ ← nt_call notify transition; Ret (Some transition)
  end.

(** [state.get("active_event_id")], where the empty string counts as none. *)
Definition truthy (o : option string) : option string :=
  match o with Some s => if String.eqb s "" then None else Some s | None => None end.

Definition _recover (state : option AlertRuleTargetState) (rule : AlertRule) (m : AlertMeasurement) (evaluated_at : Z)
    : program (option alert_transition) :=
  match truthy (s ← state; ts_active_event_id s) with
  | None =>
      _ ← write (upsert_alert_rule_target_state (state_payload rule m evaluated_at None None));
      Ret None
  | Some active_event_id =>
      resolved_event ← tx (resolve_alert_rule_event (ru_workspace_id rule) (ru_rule_id rule) (measurement_key m)
                             active_event_id (am_observed_value m) (am_evidence m) evaluated_at
                             (_transactional_stager rule "resolved"));
      match resolved_event with
      | None => Ret None
      | Some e => announce (_notification_transition e rule "resolved")
      end
  end.

(** [drawn] is the [uuid4] of an event this evaluation may create, [now] the
    database's clock then. *)
Definition _evaluate_measurement (now : Z) (drawn : string) (rule : AlertRule) (m : AlertMeasurement) (evaluated_at : Z)
    : program (option alert_transition) :=
  state ← read (get_alert_rule_target_state (ru_workspace_id rule) (ru_rule_id rule) (measurement_key m));
  last_observed_at ← lift (_last_observed_at state);
  if match last_observed_at with Some at_ => am_observed_at m <=? at_ | None => false end then Ret None
  else
    matched ← lift (compare_alert_value (am_observed_value m) (ru_comparator rule) (ru_threshold rule));
    if negb matched then _recover state rule m evaluated_at
    else
      let condition_since := (s ← state; ts_condition_since s) in
      match truthy (s ← state; ts_active_event_id s) with
      | Some active_event_id =>
          _ ← write (fun t => Ok (refresh_alert_rule_event (ru_workspace_id rule) active_event_id
                                    (am_observed_value m) (am_evidence m) evaluated_at t));
          _ ← write (upsert_alert_rule_target_state
                       (state_payload rule m evaluated_at condition_since (Some active_event_id)));
          Ret None
      | None =>
          match condition_since with
          | None =>
              _ ← write (upsert_alert_rule_target_state
                           (state_payload rule m evaluated_at (Some (am_observed_at m)) None));
              Ret None
          | Some since =>
              if am_observed_at m - since <? ru_for_seconds rule * SECOND then
                _ ← write (upsert_alert_rule_target_state (state_payload rule m evaluated_at (Some since) None));
                Ret None
              else
                saved_created ← tx (activate_alert_rule_event now
                                      (state_payload rule m evaluated_at (Some since) None)
                                      (_firing_event drawn rule m evaluated_at) (_transactional_stager rule "firing"));
                let '(saved, created) := saved_created : AlertEvent * bool in
                if created then announce (_notification_transition saved rule "firing") else Ret None
          end
      end.

(** A cycle.  The loader is the measurement source of the engine; the draws and
    the clock are numbered by rule and measurement. *)
Context (load_measurements : AlertRule -> program (list AlertMeasurement)).

Definition with_transition (tr : option alert_transition) (trs : list alert_transition) : list alert_transition :=
  match tr with Some tr => tr :: trs | None => trs end.

Fixpoint evaluate_measurements (now : nat -> Z) (draw : nat -> string) (j : nat) (rule : AlertRule)
    (ms : list AlertMeasurement) (evaluated_at : Z) : program (list alert_transition) :=
  match ms with
  | [] => Ret []
  | m :: ms =>
      tr ← _evaluate_measurement (now j) (draw j) rule m evaluated_at;
      trs ← evaluate_measurements now draw (S j) rule ms evaluated_at;
      Ret (with_transition tr trs)
  end.

Fixpoint evaluate_rules (now : nat -> nat -> Z) (draw : nat -> nat -> string) (i : nat) (rules : list AlertRule)
    (evaluated_at : Z) : program (list alert_transition) :=
  match rules with
  | [] => Ret []
  | rule :: rules =>
      ms ← load_measurements rule;
      trs ← evaluate_measurements (now i) (draw i) 0 rule ms evaluated_at;
      rest ← evaluate_rules now draw (S i) rules evaluated_at;
      Ret (trs ++ rest)
  end.

Definition evaluate_once (now : nat -> nat -> Z) (draw : nat -> nat -> string) (evaluated_at : Z)
    : program (list alert_transition) :=
  rules ← read list_enabled_alert_rules;
  evaluate_rules now draw 0 rules evaluated_at.

(** One round of [run_alert_evaluation]: a failed cycle is logged. *)
Definition run_alert_evaluation_round (now : nat -> nat -> Z) (draw : nat -> nat -> string) (evaluated_at : Z)
    : program (option (list alert_transition)) :=
  catch (fun _ => Ret None)
    (trs ← evaluate_once now draw evaluated_at; Ret (Some trs)).
End Notified.
End Engine.
