(* ===== verification/AlertRuns.v ===== *)
(** The rule engine among the other writers of the alert tables.

    [alert_op] are the operations of the routers, the Alertmanager webhook and
    the incident pipeline; the [slot] of a rule and subject is what they and the
    engine share: the row that carries the condition and the active events. *)

From S2P Require Import Prelude PyString Json EventStore Outbox Transactions AlertStore AlertEvaluation.
From Stdlib Require Import QArith.QArith.
From stdpp Require Import relations.
From coqutil Require Import Datatypes.RecordSettersUsingExistingGetters.
#[global] Open Scope Z_scope.

Arguments RecordSettersUsingExistingGetters.const {E} newValue _ /.

(** ** Other writers *)

Inductive alert_op : Type :=
| UpsertChannel (drawn : string) (p : channel_payload)
| DeleteChannel (workspace_id channel_id : string)
| RecordTest (now : Z) (workspace_id channel_id status detail : string) (status_code : option Z)
| CreateRule (now : Z) (rule : AlertRule)
| UpdateRule (now : Z) (workspace_id rule_id : string) (p : rule_changes)
| DeleteRule (workspace_id rule_id : string)
| UpsertExternal (now : Z) (event : AlertEvent)
| UpsertIncident (now : Z) (incident_id : string) (event : AlertEvent)
| Acknowledge (now : Z) (workspace_id event_id actor_id : string)
| ResolveIncident (now : Z) (workspace_id incident_id : string)
| Promote (now : Z) (workspace_id event_id incident_id actor_id : string)
| Bus (b : tables).

Definition first {A} (r : result alert_error (alert_tables * A)) : result alert_error alert_tables :=
  match r with Ok (t, _) => Ok t | Err e => Err e end.

Definition apply_op (op : alert_op) (t : alert_tables) : result alert_error alert_tables :=
  match op with
  | UpsertChannel drawn p => first (upsert_alert_channel drawn p t)
  | DeleteChannel ws c => Ok (delete_alert_channel ws c t).1
  | RecordTest now ws c status detail code => first (record_alert_channel_test now ws c status detail code t)
  | CreateRule now r => first (create_alert_rule now r t)
  | UpdateRule now ws r p => Ok (update_alert_rule now ws r p t).1
  | DeleteRule ws r => Ok (delete_alert_rule ws r t).1
  | UpsertExternal now e => first (upsert_external_alert_event now e t)
  | UpsertIncident now i e => first (upsert_incident_alert_event now i e t)
  | Acknowledge now ws e a => first (acknowledge_alert_event now ws e a t)
  | ResolveIncident now ws i => Ok (resolve_incident_alert_events now ws i t).1
  | Promote now ws e i a => first (promote_alert_event now ws e i a t)
  | Bus b => Ok (t <| al_bus := b |>)
  end.

(** External and incident events belong to no rule, and their derived
    identifiers do not hit an event that does. *)
Definition proper (op : alert_op) (t : alert_tables) : Prop :=
  match op with
  | UpsertExternal _ e =>
      ae_rule_id e = None /\ forall old, al_events t !! ae_event_id e = Some old -> ae_rule_id old = None
  | UpsertIncident _ _ e => ae_rule_id e = None
  | _ => True
  end.

(** A transaction of the other writers, of the operations allowed. *)
Definition others (allowed : alert_op -> alert_tables -> Prop) (t t' : alert_tables) : Prop :=
  exists op, proper op t /\ allowed op t /\ apply_op op t = Ok t'.

(** ** Slots *)

(** The active events of a rule and subject, with their workspaces. *)
Definition active_ids (rule_id key : string) (m : gmap string AlertEvent) : gmap string string :=
  omap (fun e => if active_on rule_id key e then Some (ae_workspace_id e) else None) m.

Definition slot (rule_id key : string) (t : alert_tables) : option AlertRuleTargetState * gmap string string :=
  (al_states t !! (rule_id, key), active_ids rule_id key (al_events t)).

(** Neither deletes the rule nor resolves its active event from outside. *)
Definition spares (rule_id key : string) (op : alert_op) (t : alert_tables) : Prop :=
  match op with
  | DeleteRule _ r => r <> rule_id
  | ResolveIncident _ ws i =>
      forall id e, al_events t !! id = Some e -> active_on rule_id key e = true -> ae_workspace_id e = ws ->
      ae_incident_id e = Some i -> False
  | _ => True
  end.

Definition keeps_rule (rule_id : string) (op : alert_op) : Prop :=
  match op with DeleteRule _ r => r <> rule_id | _ => True end.

(** An event of the rule on the subject. *)
Definition owned (rule_id key event_id : string) (t : alert_tables) : Prop :=
  exists e, al_events t !! event_id = Some e /\ ae_rule_id e = Some rule_id /\ ae_subject_key e = key.

(** Rows are stored under their keys, and a state refers to an event of its
    rule and subject. *)
Definition tables_ok (t : alert_tables) : Prop :=
  (forall id e, al_events t !! id = Some e -> ae_event_id e = id) /\
  (forall rule_id key s id, al_states t !! (rule_id, key) = Some s -> ts_active_event_id s = Some id ->
     owned rule_id key id t).

(** Two versions of an event that the engine cannot tell apart. *)
Definition same_claim (e e' : AlertEvent) : Prop :=
  ae_rule_id e' = ae_rule_id e /\ ae_subject_key e' = ae_subject_key e /\ ae_workspace_id e' = ae_workspace_id e /\
  is_active e' = is_active e /\ ae_event_id e' = ae_event_id e.

Lemma same_claim_active rule_id key e e' : same_claim e e' -> active_on rule_id key e' = active_on rule_id key e.
Proof. intros (H1 & H2 & _ & H4 & _). unfold active_on. by rewrite H1, H2, H4. Qed.

Lemma active_ids_lookup rule_id key m id :
  active_ids rule_id key m !! id =
    (e ← m !! id; if active_on rule_id key e then Some (ae_workspace_id e) else None).
Proof. unfold active_ids. by rewrite lookup_omap. Qed.

Lemma active_events_ids rule_id key t : active_events rule_id key t = ∅ <-> active_ids rule_id key (al_events t) = ∅.
Proof.
  unfold active_events. rewrite !map_empty. split; intros H id; specialize (H id).
  - rewrite active_ids_lookup. destruct (al_events t !! id) as [e|] eqn:He; simpl; [|done].
    destruct (active_on rule_id key e) eqn:Ha; [|done].
    apply map_lookup_filter_None in H as [H|H]; [congruence|]. by destruct (H e He).
  - rewrite active_ids_lookup in H. apply map_lookup_filter_None. destruct (al_events t !! id) as [e|] eqn:He; [right|by left].
    intros e' [= <-]. simpl in *. by destruct (active_on rule_id key e).
Qed.

Lemma active_ids_update rule_id key m id e e' :
  m !! id = Some e -> same_claim e e' -> active_ids rule_id key (<[id := e']> m) = active_ids rule_id key m.
Proof.
  intros He Hs. apply map_eq. intros id'. rewrite !active_ids_lookup.
  destruct (decide (id = id')) as [<-|Hne]; [|by rewrite lookup_insert_ne by done].
  rewrite lookup_insert_eq, He. simpl. rewrite (same_claim_active _ _ _ _ Hs). destruct Hs as (_ & _ & -> & _). done.
Qed.

Lemma active_ids_outside rule_id key m id e :
  (forall e0, m !! id = Some e0 -> active_on rule_id key e0 = false) -> active_on rule_id key e = false ->
  active_ids rule_id key (<[id := e]> m) = active_ids rule_id key m.
Proof.
  intros Ho He. apply map_eq. intros id'. rewrite !active_ids_lookup.
  destruct (decide (id = id')) as [<-|Hne]; [|by rewrite lookup_insert_ne by done].
  rewrite lookup_insert_eq. simpl. rewrite He. destruct (m !! id) as [e0|] eqn:H0; simpl; [|done]. by rewrite (Ho e0).
Qed.

Lemma active_on_no_rule rule_id key e : ae_rule_id e = None -> active_on rule_id key e = false.
Proof. unfold active_on. intros ->. by rewrite bool_decide_eq_false_2. Qed.

(** ** What the other writers do to a slot *)

(** The ways an operation changes the events. *)
Inductive event_change (op : alert_op) (m : gmap string AlertEvent) : gmap string AlertEvent -> Prop :=
| change_none : event_change op m m
| change_update id e e' : m !! id = Some e -> same_claim e e' -> event_change op m (<[id := e']> m)
| change_foreign id e : ae_rule_id e = None -> ae_event_id e = id ->
    (forall e0, m !! id = Some e0 -> ae_rule_id e0 = None) -> event_change op m (<[id := e]> m)
| change_resolve now ws i : op = ResolveIncident now ws i ->
    event_change op m ((fun e =>
      if String.eqb (ae_workspace_id e) ws && some_eqb (ae_incident_id e) i && is_active e
      then e <| ae_status := resolved |> <| ae_resolved_at := Some now |> <| ae_updated_at := now |> else e) <$> m).

Lemma put_event_ok e t t' : put_event e t = Ok t' -> t' = t <| al_events ::= <[ae_event_id e := e]> |>.
Proof. unfold put_event. destruct (collides e t); [discriminate|]. by intros [= <-]. Qed.

Lemma get_event_some ws id t e : get_event ws id t = Some e -> al_events t !! id = Some e /\ ae_workspace_id e = ws.
Proof.
  unfold get_event. destruct (al_events t !! id) as [e0|]; simpl; [|discriminate].
  destruct (String.eqb_spec (ae_workspace_id e0) ws); [|discriminate]. intros [= <-]. done.
Qed.

Lemma first_bind {A B} (r : result alert_error A) (f : A -> alert_tables * B) t' :
  first (x ← r; Ok (f x)) = Ok t' -> exists x, r = Ok x /\ t' = (f x).1.
Proof. destruct r as [x|e]; [|discriminate]. simpl. destruct (f x) as [t y] eqn:Hf. intros [= <-]. exists x. by rewrite Hf. Qed.

Lemma first_put {A} e t (x : A) t' :
  first (t1 ← put_event e t; Ok (t1, x)) = Ok t' -> t' = t <| al_events ::= <[ae_event_id e := e]> |>.
Proof. intros (t1 & Hp & ->)%first_bind. by apply put_event_ok. Qed.

Lemma op_events op t t' :
  tables_ok t -> proper op t -> apply_op op t = Ok t' -> event_change op (al_events t) (al_events t').
Proof.
  intros [Hkeyed _] Hproper Happly. destruct op; simpl in *.
  - unfold upsert_alert_channel in Happly. repeat break; constructor.
  - unfold delete_alert_channel in Happly. repeat break; constructor.
  - unfold record_alert_channel_test in Happly. repeat break; constructor.
  - unfold create_alert_rule in Happly. repeat break; constructor.
  - unfold update_alert_rule in Happly. repeat break; constructor.
  - unfold delete_alert_rule in Happly. repeat break; constructor.
  - destruct Hproper as [Hnew Hold]. unfold upsert_external_alert_event in Happly.
    destruct (al_events t !! ae_event_id event) as [old|] eqn:He.
    + apply first_put in Happly as ->. specialize (Hold _ eq_refl). simpl. rewrite (Hkeyed _ _ He).
      apply change_foreign; [done|done|]. intros e0 H0. congruence.
    + apply first_put in Happly as ->. simpl. apply change_foreign; [done|done|]. intros e0 H0. congruence.
  - unfold upsert_incident_alert_event in Happly. destruct (order_by _ _) as [|existing rest]; [|simplify_eq/=; constructor].
    destruct (al_events t !! ae_event_id event) as [old|] eqn:He.
    + destruct (get_event _ _ _); simplify_eq/=. constructor.
    + apply first_put in Happly as ->. simpl. apply change_foreign; [done|done|]. intros e0 H0. congruence.
  - unfold acknowledge_alert_event in Happly. destruct (get_event _ _ _) as [e|] eqn:He; [|simplify_eq/=; constructor].
    apply get_event_some in He as [He _]. destruct (ae_status e) eqn:Hs; [|simplify_eq/=; constructor|discriminate].
    apply first_put in Happly as ->. simpl. rewrite (Hkeyed _ _ He). eapply change_update; [done|].
    by unfold same_claim, is_active; simpl; rewrite Hs.
  - simplify_eq. simpl. by eapply change_resolve.
  - unfold promote_alert_event in Happly. destruct (get_event _ _ _) as [e|] eqn:He; [|simplify_eq/=; constructor].
    apply get_event_some in He as [He _]. destruct (match ae_incident_id e with Some _ => _ | None => _ end); [simplify_eq/=; constructor|].
    apply first_put in Happly as ->. simpl. rewrite (Hkeyed _ _ He). by eapply change_update.
  - simplify_eq/=. constructor.
Qed.

Lemma op_states op t t' :
  apply_op op t = Ok t' ->
  (forall key s, al_states t' !! key = Some s -> al_states t !! key = Some s) /\
  (forall rule_id key, keeps_rule rule_id op -> al_states t' !! (rule_id, key) = al_states t !! (rule_id, key)).
Proof.
  intros Happly. assert (al_states t' = al_states t \/
    exists ws r, op = DeleteRule ws r /\ al_states t' = base.filter (fun kv => kv.1.1 <> r) (al_states t)) as [->|Hd]; [|by split; auto|].
  - destruct op; simpl in *;
      unfold upsert_alert_channel, delete_alert_channel, record_alert_channel_test, create_alert_rule, update_alert_rule,
        upsert_external_alert_event, upsert_incident_alert_event, acknowledge_alert_event, promote_alert_event in *;
      try (repeat break; by left).
    + unfold delete_alert_rule in Happly. destruct (get_alert_rule _ _ _); simplify_eq/=; [right; by eexists _, _|by left].
    + destruct (al_events t !! ae_event_id event); apply first_put in Happly as ->; by left.
    + repeat (destruct (order_by _ _) || destruct (al_events t !! _) || destruct (get_event _ _ _)); simplify_eq/=;
        try by left. apply first_put in Happly as ->. by left.
    + destruct (get_event _ _ _) as [e|]; [|simplify_eq/=; by left].
      destruct (ae_status e); simplify_eq/=; try by left. apply first_put in Happly as ->. by left.
    + simplify_eq. by left.
    + destruct (get_event _ _ _) as [e|]; [|simplify_eq/=; by left].
      destruct (match ae_incident_id e with Some _ => _ | None => _ end); [simplify_eq/=; by left|].
      apply first_put in Happly as ->. by left.
    + simplify_eq. by left.
  - destruct Hd as (ws & r & -> & Hst). rewrite Hst. split.
    + intros key s [Hs _]%map_lookup_filter_Some. done.
    + intros rule_id key Hne. simpl in Hne. destruct (al_states t !! (rule_id, key)) as [s|] eqn:Hs.
      * apply map_lookup_filter_Some. split; [done|]. simpl. congruence.
      * apply map_lookup_filter_None. by left.
Qed.

Definition keyed (m : gmap string AlertEvent) : Prop := forall id e, m !! id = Some e -> ae_event_id e = id.

Lemma change_keyed op m m' : keyed m -> event_change op m m' -> keyed m'.
Proof.
  intros Hk [|id e e' He Hs|id e _ Hid _|now ws i _] id' e2 H2.
  - by apply Hk.
  - apply lookup_insert_Some in H2 as [[<- <-]|[_ H2]]; [|by apply Hk]. destruct Hs as (_ & _ & _ & _ & ->). by apply Hk.
  - apply lookup_insert_Some in H2 as [[<- <-]|[_ H2]]; [done|by apply Hk].
  - apply lookup_fmap_Some in H2 as (e & <- & He). case_match; simpl; by apply Hk.
Qed.

(** An event of a rule keeps its rule, subject and workspace; resolved stays
    resolved. *)
Lemma change_owner op m m' id e r :
  event_change op m m' -> m !! id = Some e -> ae_rule_id e = Some r ->
  exists e', m' !! id = Some e' /\ ae_rule_id e' = Some r /\ ae_subject_key e' = ae_subject_key e /\
    ae_workspace_id e' = ae_workspace_id e /\ (is_active e = false -> is_active e' = false).
Proof.
  intros [|id0 e0 e' He Hs|id0 e0 Hr Hid Ho|now ws i _] H Hrule.
  - by exists e.
  - destruct (decide (id0 = id)) as [->|Hne]; [|exists e; by rewrite lookup_insert_ne].
    exists e'. rewrite lookup_insert_eq. simplify_eq. destruct Hs as (-> & -> & -> & -> & _). done.
  - destruct (decide (id0 = id)) as [->|Hne]; [|exists e; by rewrite lookup_insert_ne].
    specialize (Ho _ H). congruence.
  - eexists. rewrite lookup_fmap, H. split; [done|]. case_match; simpl; [|done]. repeat split; done.
Qed.

Lemma change_slot op t m rule_id key :
  event_change op (al_events t) m -> spares rule_id key op t -> active_ids rule_id key m = active_ids rule_id key (al_events t).
Proof.
  intros [|id e e' He Hs|id e Hr Hid Ho|now ws i ->] Hspare.
  - done.
  - by eapply active_ids_update.
  - apply active_ids_outside; [|by apply active_on_no_rule]. intros e0 H0. by apply active_on_no_rule, Ho.
  - apply map_eq. intros id. rewrite !active_ids_lookup, lookup_fmap. destruct (al_events t !! id) as [e|] eqn:He; simpl; [|done].
    destruct (String.eqb (ae_workspace_id e) ws && some_eqb (ae_incident_id e) i && is_active e) eqn:Hhit; [|done].
    bool_to_prop. unfold some_eqb in *. bool_to_prop.
    destruct (active_on rule_id key e) eqn:Ha; [by destruct (Hspare id e)|].
    replace (active_on rule_id key _) with false; [done|]. symmetry. unfold active_on, is_active in *. simpl.
    by rewrite andb_false_r.
Qed.

Lemma change_owned op t t' rule_id key id :
  event_change op (al_events t) (al_events t') -> owned rule_id key id t -> owned rule_id key id t'.
Proof.
  intros Hc (e & He & Hr & Hk). destruct (change_owner _ _ _ _ _ _ Hc He Hr) as (e' & He' & Hr' & Hk' & _).
  exists e'. by rewrite Hk'.
Qed.

Lemma change_tables_ok op t t' :
  tables_ok t -> event_change op (al_events t) (al_events t') ->
  (forall key s, al_states t' !! key = Some s -> al_states t !! key = Some s) -> tables_ok t'.
Proof.
  intros [Hk Ho] Hc Hst. split; [by eapply change_keyed|]. intros rule_id key s id Hs Ha.
  eapply change_owned; [done|]. eapply Ho; [by apply Hst|done].
Qed.

Lemma op_tables_ok op t t' : tables_ok t -> proper op t -> apply_op op t = Ok t' -> tables_ok t'.
Proof.
  intros Hok Hp Happly. eapply change_tables_ok; [done|by eapply op_events|]. by eapply op_states.
Qed.

Lemma op_slot op t t' rule_id key :
  tables_ok t -> proper op t -> spares rule_id key op t -> apply_op op t = Ok t' -> slot rule_id key t' = slot rule_id key t.
Proof.
  intros Hok Hp Hs Happly. unfold slot. f_equal.
  - eapply op_states; [done|]. by destruct op.
  - eapply change_slot; [by eapply op_events|done].
Qed.

(** ** What the engine's transactions do to a slot *)

Section Transactions.
Implicit Types (t : alert_tables) (s : AlertRuleTargetState).

Lemma upsert_state_ok s t t' :
  upsert_alert_rule_target_state s t = Ok t' ->
  t' = t <| al_states ::= <[(ts_rule_id s, ts_subject_key s) := s]> |>.
Proof. unfold upsert_alert_rule_target_state. repeat case_match; by intros [= <-]. Qed.

Lemma upsert_state_tables s t t' :
  upsert_alert_rule_target_state s t = Ok t' -> tables_ok t ->
  (forall id, ts_active_event_id s = Some id -> owned (ts_rule_id s) (ts_subject_key s) id t) -> tables_ok t'.
Proof.
  intros ->%upsert_state_ok [Hk Ho] Hs. split; [done|]. intros r k s' id Hs' Ha. simpl in Hs'.
  apply lookup_insert_Some in Hs' as [[[= <- <-] <-]|[_ Hs']]; [by apply Hs|by eapply Ho].
Qed.

Lemma upsert_state_slot s t t' r k :
  upsert_alert_rule_target_state s t = Ok t' ->
  slot r k t' = if decide ((r, k) = (ts_rule_id s, ts_subject_key s)) then (Some s, (slot r k t).2) else slot r k t.
Proof.
  intros ->%upsert_state_ok. unfold slot. simpl. case_decide as H.
  - by rewrite H, lookup_insert_eq.
  - by rewrite lookup_insert_ne by congruence.
Qed.

Lemma refresh_change ws id v ev at_ t op :
  event_change op (al_events t) (al_events (refresh_alert_rule_event ws id v ev at_ t)).
Proof.
  unfold refresh_alert_rule_event. destruct (get_event ws id t) as [e|] eqn:He; [|constructor].
  destruct (is_active e) eqn:Ha; [|constructor]. apply get_event_some in He as [He _]. simpl.
  by eapply change_update.
Qed.

Lemma refresh_states ws id v ev at_ t : al_states (refresh_alert_rule_event ws id v ev at_ t) = al_states t.
Proof. unfold refresh_alert_rule_event. by repeat case_match. Qed.

Lemma refresh_slot ws id v ev at_ t r k : slot r k (refresh_alert_rule_event ws id v ev at_ t) = slot r k t.
Proof.
  unfold slot. rewrite refresh_states. f_equal.
  by apply (change_slot (Bus (al_bus t))); [apply refresh_change|].
Qed.

Lemma refresh_tables ws id v ev at_ t : tables_ok t -> tables_ok (refresh_alert_rule_event ws id v ev at_ t).
Proof.
  intros Hok. eapply (change_tables_ok (Bus (al_bus t))); [done|apply refresh_change|]. by rewrite refresh_states.
Qed.

Lemma stage_with_ok stage e t t' : stage_with stage e t = Ok t' -> exists b, t' = t <| al_bus := b |>.
Proof.
  destruct stage as [stage|]; simpl; [|intros [= <-]; exists (al_bus t); by destruct t].
  destruct (stage e (al_bus t)) as [b|]; [|discriminate]. intros [= <-]. by exists b.
Qed.

Lemma active_ids_settled r k m id e :
  active_on r k e = false -> active_ids r k (<[id := e]> m) = delete id (active_ids r k m).
Proof.
  intros He. unfold active_ids. rewrite omap_insert, He. done.
Qed.

Lemma active_ids_new r k m id e :
  m !! id = None ->
  active_ids r k (<[id := e]> m) =
    if active_on r k e then <[id := ae_workspace_id e]> (active_ids r k m) else active_ids r k m.
Proof.
  intros Hid. unfold active_ids. rewrite omap_insert. destruct (active_on r k e); [done|].
  apply delete_id. by rewrite lookup_omap, Hid.
Qed.

Lemma settle_claim v ev at_ e :
  let e' := settle_event v ev at_ e in
  ae_rule_id e' = ae_rule_id e /\ ae_subject_key e' = ae_subject_key e /\ ae_workspace_id e' = ae_workspace_id e /\
  ae_event_id e' = ae_event_id e /\ is_active e' = false.
Proof. done. Qed.

(** A resolution that finds the event active settles it and clears the state of
    the rule; otherwise it does nothing. *)
Lemma resolve_inv ws r k id v ev at_ stage t t' o :
  resolve_alert_rule_event ws r k id v ev at_ stage t = Ok (t', o) ->
  (o = None /\ t' = t /\ (forall e, get_event ws id t = Some e -> is_active e = false)) \/
  (exists e, get_event ws id t = Some e /\ is_active e = true /\ o = Some (settle_event v ev at_ e) /\
     al_events t' = <[id := settle_event v ev at_ e]> (al_events t) /\
     al_states t' = match get_alert_rule_target_state ws r k t with
                    | Some s => <[(r, k) := clear_state v ev at_ s]> (al_states t)
                    | None => al_states t
                    end).
Proof.
  unfold resolve_alert_rule_event. destruct (get_event ws id t) as [e|] eqn:He; [|intros [= <- <-]; by left].
  destruct (is_active e) eqn:Ha; [|intros [= <- <-]; left; by split_and!; [| |intros e' [= <-]]].
  intros (t1 & (b & ->)%stage_with_ok & [= <- <-])%result_bind_inv. right. exists e.
  change (get_alert_rule_target_state ws r k _) with (get_alert_rule_target_state ws r k t).
  by destruct (get_alert_rule_target_state ws r k t).
Qed.

Lemma insert_event_inv now s event t t' saved created r :
  insert_active_event now s event t = Ok (t', (saved, created)) ->
  ae_rule_id event = Some r -> is_active event = true -> ts_rule_id s = r -> ts_subject_key s = ae_subject_key event ->
  (created = true /\ saved = event <| ae_updated_at := now |> /\ al_events t !! ae_event_id event = None /\
     active_ids r (ae_subject_key event) (al_events t) = ∅ /\ t' = t <| al_events ::= <[ae_event_id event := saved]> |>) \/
  (created = false /\ t' = t /\ exists id, al_events t !! id = Some saved /\ active_on r (ae_subject_key event) saved = true).
Proof.
  intros Hins Hr Ha <- Hsk. unfold insert_active_event in Hins. rewrite Hr, Ha in Hins. simpl in Hins.
  destruct (bool_decide (active_events (ts_rule_id s) (ae_subject_key event) t = ∅)) eqn:Hempty; simpl in Hins.
  - bool_to_prop. destruct (al_events t !! ae_event_id event) eqn:He; [discriminate|]. simplify_eq.
    left. split_and!; try done. by apply active_events_ids.
  - right. rewrite Hsk in Hins. destruct (rows _) as [|saved' [|]] eqn:Hrows; simplify_eq. split; [done|]. split; [done|].
    assert (saved ∈ rows (base.filter (fun kv : string * AlertEvent => ae_workspace_id kv.2 = ts_workspace_id s)
              (active_events (ts_rule_id s) (ae_subject_key event) t'))) as Hin by (rewrite Hrows; set_solver).
    unfold rows in Hin. apply list_elem_of_fmap in Hin as ((id & e) & -> & Hin%elem_of_map_to_list).
    apply map_lookup_filter_Some in Hin as [Hin _]. apply map_lookup_filter_Some in Hin as [Hin Hact]. by exists id.
Qed.

(** A firing is recorded once: the event is new and the only active one, or the
    state is attached to the active event there is. *)
Lemma activate_inv now s event stage t t' saved created r k :
  activate_alert_rule_event now s event stage t = Ok (t', (saved, created)) ->
  ae_rule_id event = Some r -> is_active event = true -> ts_rule_id s = r -> ae_subject_key event = k -> ts_subject_key s = k ->
  al_states t' = <[(r, k) := s <| ts_active_event_id := Some (ae_event_id saved) |>]> (al_states t) /\
  ((created = true /\ saved = event <| ae_updated_at := now |> /\ al_events t !! ae_event_id event = None /\
     active_ids r k (al_events t) = ∅ /\ al_events t' = <[ae_event_id event := saved]> (al_events t)) \/
   (created = false /\ al_events t' = al_events t /\
      exists id, al_events t !! id = Some saved /\ active_on r k saved = true)).
Proof.
  unfold activate_alert_rule_event. intros Hact Hr Ha Hsr Hk Hsk. subst k.
  destruct (insert_active_event now s event t) as [[t1 [saved1 created1]]|] eqn:Hins; [|discriminate].
  apply result_bind_inv in Hact as (t2 & ->%upsert_state_ok & Hact). simpl in Hact. rewrite Hsk, Hsr in Hact.
  assert (saved1 = saved /\ created1 = created /\ al_events t' = al_events t1 /\
    al_states t' = <[(r, ae_subject_key event) := s <| ts_active_event_id := Some (ae_event_id saved) |>]> (al_states t1))
    as (-> & -> & -> & ->).
  { destruct created1.
    - apply result_bind_inv in Hact as (t3 & (b & ->)%stage_with_ok & [= <- <- <-]). unfold count_occurrence.
      split_and!; try done; by case_match.
    - by simplify_eq. }
  eapply insert_event_inv in Hins; [|done..]. destruct Hins as [(-> & -> & Hnone & Hids & ->)|(-> & -> & Hold)]; split; try done.
  - left. done.
  - right. done.
Qed.

Lemma owned_insert r k id t t' i e' :
  al_events t' = <[i := e']> (al_events t) ->
  (forall e, al_events t !! i = Some e -> ae_rule_id e' = ae_rule_id e /\ ae_subject_key e' = ae_subject_key e) ->
  owned r k id t -> owned r k id t'.
Proof.
  intros Hev Hsame (e & He & Hr & Hk). unfold owned. rewrite Hev. destruct (decide (i = id)) as [->|Hne].
  - exists e'. rewrite lookup_insert_eq. destruct (Hsame _ He) as [-> ->]. done.
  - exists e. by rewrite lookup_insert_ne.
Qed.

Lemma resolve_tables ws r k id v ev at_ stage t t' o :
  tables_ok t -> resolve_alert_rule_event ws r k id v ev at_ stage t = Ok (t', o) -> tables_ok t'.
Proof.
  intros [Hk Ho] [(_ & -> & _)|(e & [He _]%get_event_some & _ & _ & Hev & Hst)]%resolve_inv; [done|]. split.
  - rewrite Hev. intros i e2 [[<- <-]|[_ H2]]%lookup_insert_Some; [|by apply Hk]. simpl. by apply Hk.
  - intros r2 k2 s2 id2 Hs2 Ha2. eapply owned_insert; [exact Hev| |].
    { intros e0 H0. by simplify_eq. }
    rewrite Hst in Hs2. destruct (get_alert_rule_target_state ws r k t); [|by eapply Ho].
    apply lookup_insert_Some in Hs2 as [[_ <-]|[_ Hs2]]; [discriminate|by eapply Ho].
Qed.

Lemma resolve_slot_other ws r k id v ev at_ stage t t' o r2 k2 :
  owned r k id t -> (r2, k2) <> (r, k) ->
  resolve_alert_rule_event ws r k id v ev at_ stage t = Ok (t', o) -> slot r2 k2 t' = slot r2 k2 t.
Proof.
  intros (e & He & Hr & Hk) Hne [(_ & -> & _)|(e' & [He' _]%get_event_some & _ & _ & Hev & Hst)]%resolve_inv; [done|].
  simplify_eq. unfold slot. f_equal.
  - rewrite Hst. destruct (get_alert_rule_target_state ws r (ae_subject_key e) t); [|done]. by rewrite lookup_insert_ne by congruence.
  - assert (active_on r2 k2 e = false) as Hoff.
    { unfold active_on. rewrite Hr. destruct (String.eqb_spec (ae_subject_key e) k2) as [<-|]; [|by rewrite andb_false_r].
      rewrite bool_decide_eq_false_2; [done|]. congruence. }
    rewrite Hev. apply active_ids_outside; [intros e0 H0; by simplify_eq|]. unfold active_on in *. simpl. by rewrite andb_false_r.
Qed.

Section Activation.
Context (now : Z) (s : AlertRuleTargetState) (event : AlertEvent) (stage : option (AlertEvent -> tables -> result alert_error tables)).
Context (t t' : alert_tables) (saved : AlertEvent) (created : bool) (r k : string).
Hypothesis Hact : activate_alert_rule_event now s event stage t = Ok (t', (saved, created)).
Hypothesis (Hrule : ae_rule_id event = Some r) (Hactive : is_active event = true) (Hkey : ae_subject_key event = k).
Hypothesis (Hsrule : ts_rule_id s = r) (Hskey : ts_subject_key s = k).

Lemma activate_owned : tables_ok t -> owned r k (ae_event_id saved) t'.
Proof using All.
  intros [Hk _]. destruct (activate_inv _ _ _ _ _ _ _ _ _ _ Hact Hrule Hactive Hsrule Hkey Hskey)
    as [_ [(_ & -> & _ & _ & Hev)|(_ & Hev & id & Hid & Hon)]]; unfold owned; rewrite Hev.
  - eexists. simpl. rewrite lookup_insert_eq. by split_and!.
  - exists saved. rewrite (Hk _ _ Hid). unfold active_on in Hon. bool_to_prop. done.
Qed.

Lemma activate_mono r2 k2 id : owned r2 k2 id t -> owned r2 k2 id t'.
Proof using All.
  intros Ho. destruct (activate_inv _ _ _ _ _ _ _ _ _ _ Hact Hrule Hactive Hsrule Hkey Hskey)
    as [_ [(_ & -> & Hnone & _ & Hev)|(_ & Hev & _)]].
  - eapply owned_insert; [exact Hev| |done]. intros e0 H0. congruence.
  - unfold owned in *. by rewrite Hev.
Qed.

Lemma activate_tables : tables_ok t -> tables_ok t'.
Proof using All.
  intros Hok. pose proof (activate_owned Hok) as Hown. destruct Hok as [Hk Ho].
  destruct (activate_inv _ _ _ _ _ _ _ _ _ _ Hact Hrule Hactive Hsrule Hkey Hskey) as [Hst Hcase]. split.
  - destruct Hcase as [(_ & -> & _ & _ & ->)|(_ & -> & _)]; [|done].
    intros i e2 [[<- <-]|[_ H2]]%lookup_insert_Some; [done|by apply Hk].
  - rewrite Hst. intros r2 k2 s2 id2 Hs2 Ha2.
    apply lookup_insert_Some in Hs2 as [[[= <- <-] <-]|[_ Hs2]]; [by injection Ha2 as <-|].
    eapply activate_mono. by eapply Ho.
Qed.

Lemma activate_slot_other r2 k2 : (r2, k2) <> (r, k) -> slot r2 k2 t' = slot r2 k2 t.
Proof using All.
  intros Hne. destruct (activate_inv _ _ _ _ _ _ _ _ _ _ Hact Hrule Hactive Hsrule Hkey Hskey) as [Hst Hcase].
  unfold slot. rewrite Hst, lookup_insert_ne by congruence. f_equal.
  destruct Hcase as [(_ & -> & Hnone & _ & ->)|(_ & -> & _)]; [|done].
  apply active_ids_outside; [intros e0 H0; congruence|]. unfold active_on. simpl. rewrite Hrule, Hkey.
  destruct (String.eqb_spec k k2) as [<-|]; [|by rewrite andb_false_r].
  rewrite bool_decide_eq_false_2; [done|]. congruence.
Qed.

(** On its own slot: the state is attached to the only active event. *)
Lemma activate_slot :
  slot r k t' = (Some (s <| ts_active_event_id := Some (ae_event_id saved) |>),
    if created then {[ae_event_id event := ae_workspace_id event]} else (slot r k t).2) /\
  (created = true -> (slot r k t).2 = ∅ /\ ae_event_id saved = ae_event_id event).
Proof using All.
  destruct (activate_inv _ _ _ _ _ _ _ _ _ _ Hact Hrule Hactive Hsrule Hkey Hskey) as [Hst Hcase].
  unfold slot. rewrite Hst, lookup_insert_eq. simpl. destruct Hcase as [(-> & -> & Hnone & Hids & ->)|(-> & -> & _)]; [|done].
  split; [|done]. f_equal. rewrite active_ids_new by done. rewrite Hids.
  unfold active_on. simpl. rewrite Hrule, Hkey, String.eqb_refl, bool_decide_eq_true_2 by done.
  unfold is_active in *. simpl. by rewrite Hactive.
Qed.
End Activation.
End Transactions.
