(* ===== verification/AlertReference.v ===== *)
(** The rule engine against its specification.

    [alarmed] says, of the samples a rule and subject have shown, whether the
    rule is firing; it has no state.  The engine keeps its state in three tables
    that other services write, over several transactions; it announces exactly
    the edges of [alarmed]. *)

From S2P Require Import Prelude PyString Json EventStore Outbox Transactions AlertStore AlertEvaluation AlertRuns.
From Stdlib Require Import QArith.QArith.
From stdpp Require Import relations.
From coqutil Require Import Datatypes.RecordSettersUsingExistingGetters.
#[global] Open Scope Z_scope.

Arguments RecordSettersUsingExistingGetters.const {E} newValue _ /.

(** ** The specification *)

(** A sample: when it was observed, whether it violates the rule, and how long
    the rule tolerates that. *)
Record sample : Type := { sm_at : Z; sm_matched : bool; sm_for : Z }.

(** The violating samples since the last that was fine. *)
Fixpoint run_back (newest_first : list sample) : list sample :=
  match newest_first with
  | [] => []
  | s :: rest => if sm_matched s then run_back rest ++ [s] else []
  end.

Definition matched_run (history : list sample) : list sample := run_back (rev history).

(** The rule fires when a later sample of the run is as far from its first as
    the rule asks. *)
Definition alarmed (history : list sample) : bool :=
  match matched_run history with
  | [] => false
  | s0 :: run => existsb (fun s => sm_for s * SECOND <=? sm_at s - sm_at s0) run
  end.

Definition newer (history : list sample) (s : sample) : bool :=
  match last history with Some l => sm_at l <? sm_at s | None => true end.

Definition observe (history : list sample) (s : sample) : list sample :=
  if newer history s then history ++ [s] else history.

(** What a sample should make the rule announce: the edge of [alarmed], or
    nothing when the sample is not newer than those before it. *)
Definition announced (history : list sample) (s : sample) : option string :=
  match alarmed history, alarmed (observe history s) with
  | false, true => Some "firing"
  | true, false => Some "resolved"
  | _, _ => None
  end.

Lemma matched_run_snoc h s : matched_run (h ++ [s]) = if sm_matched s then matched_run h ++ [s] else [].
Proof. unfold matched_run. by rewrite rev_app_distr. Qed.

Lemma observe_newer h s : newer h s = true -> observe h s = h ++ [s].
Proof. unfold observe. by intros ->. Qed.

Lemma alarmed_fine h s : sm_matched s = false -> alarmed (h ++ [s]) = false.
Proof. intros Hs. unfold alarmed. by rewrite matched_run_snoc, Hs. Qed.

Lemma alarmed_first h s : sm_matched s = true -> matched_run h = [] -> alarmed (h ++ [s]) = false.
Proof. intros Hs Hr. unfold alarmed. by rewrite matched_run_snoc, Hs, Hr. Qed.

Lemma alarmed_next h s s0 run :
  sm_matched s = true -> matched_run h = s0 :: run ->
  alarmed (h ++ [s]) = alarmed h || (sm_for s * SECOND <=? sm_at s - sm_at s0).
Proof.
  intros Hs Hr. unfold alarmed. rewrite matched_run_snoc, Hs, Hr. simpl. rewrite existsb_app. simpl. by rewrite orb_false_r.
Qed.

(** ** Frame: an evaluation leaves the other slots alone *)

(** [P] holds, and [own] is the event the engine has read in the state of
    [(r, k)]. *)
Definition framed (P : alert_tables -> Prop) (r k : string) (own : option string) (t : alert_tables) : Prop :=
  tables_ok t /\ P t /\ forall id, own = Some id -> owned r k id t.

Definition undisturbed (allowed : alert_op -> alert_tables -> Prop) (P : alert_tables -> Prop) : Prop :=
  forall t t', others allowed t t' -> tables_ok t -> P t -> P t'.

Lemma framed_stable allowed P r k own : undisturbed allowed P -> stable (others allowed) (framed P r k own).
Proof.
  intros HP t t' Hstep (Hok & Hs & Ho). pose proof Hstep as (op & Hp & Ha & Happly). split_and!.
  - by eapply op_tables_ok.
  - by eapply HP.
  - intros id Hid. eapply change_owned; [by eapply op_events|auto].
Qed.

Lemma slot_undisturbed allowed r k v :
  (forall op t, allowed op t -> spares r k op t) -> undisturbed allowed (fun t => slot r k t = v).
Proof. intros Hall t t' (op & Hp & Ha & Happly) Hok <-. eapply op_slot; eauto. Qed.

Lemma tables_ok_stable allowed : stable (others allowed) tables_ok.
Proof. intros t t' (op & Hp & Ha & Happly) Hok. by eapply op_tables_ok. Qed.

Section Engine.
Context (sha256_hex : string -> string) (fromisoformat : string -> option Z).
Context (stage : alert_transition -> tables -> result alert_error tables) (call : alert_transition -> prog alert_tables alert_error unit).

(** The notifier of the deployed worker stages in the engine's transaction. *)
Let notify : notifier := {| nt_stage := Some stage; nt_call := call |}.
Let evaluate := _evaluate_measurement sha256_hex fromisoformat notify.
Let key_of := measurement_key sha256_hex.

(** ** An evaluation is a read, a decision, and the transactions it asks for *)

Inductive decision : Type :=
| Fails (e : alert_error)
| Skip
| Note (row : AlertRuleTargetState)
| Refresh (event_id : string) (row : AlertRuleTargetState)
| Settle (event_id : string)
| Fire (row : AlertRuleTargetState).

Definition decide_matched (st : option AlertRuleTargetState) (rule : AlertRule) (m : AlertMeasurement) (at_ : Z) : decision :=
  let payload := state_payload sha256_hex rule m at_ in
  match truthy (s ← st; ts_active_event_id s), (s ← st; ts_condition_since s) with
  | Some id, since => Refresh id (payload since (Some id))
  | None, None => Note (payload (Some (am_observed_at m)) None)
  | None, Some since =>
      if am_observed_at m - since <? ru_for_seconds rule * SECOND
      then Note (payload (Some since) None) else Fire (payload (Some since) None)
  end.

Definition decide_measurement (st : option AlertRuleTargetState) (rule : AlertRule) (m : AlertMeasurement) (at_ : Z)
    : decision :=
  match _last_observed_at fromisoformat st with
  | Err e => Fails e
  | Ok last_observed =>
      if match last_observed with Some l => am_observed_at m <=? l | None => false end then Skip
      else match compare_alert_value (am_observed_value m) (ru_comparator rule) (ru_threshold rule) with
           | Err e => Fails e
           | Ok true => decide_matched st rule m at_
           | Ok false =>
               match truthy (s ← st; ts_active_event_id s) with
               | Some id => Settle id
               | None => Note (state_payload sha256_hex rule m at_ None None)
               end
           end
  end.

Definition act (now : Z) (drawn : string) (rule : AlertRule) (m : AlertMeasurement) (at_ : Z) (d : decision)
    : prog alert_tables alert_error (option alert_transition) :=
  match d with
  | Fails e => Raise e
  | Skip => Ret None
  | Note row => _ ← write (upsert_alert_rule_target_state row); Ret None
  | Refresh id row =>
      _ ← write (fun t => Ok (refresh_alert_rule_event (ru_workspace_id rule) id (am_observed_value m) (am_evidence m) at_ t));
      _ ← write (upsert_alert_rule_target_state row); Ret None
  | Settle id =>
      e ← tx (resolve_alert_rule_event (ru_workspace_id rule) (ru_rule_id rule) (key_of m) id (am_observed_value m)
                (am_evidence m) at_ (_transactional_stager notify rule "resolved"));
      match e with None => Ret None | Some e => announce notify (_notification_transition e rule "resolved") end
  | Fire row =>
      saved_created ← tx (activate_alert_rule_event now row (_firing_event sha256_hex drawn rule m at_)
                            (_transactional_stager notify rule "firing"));
      let '(saved, created) := saved_created : AlertEvent * bool in
      if created then announce notify (_notification_transition saved rule "firing") else Ret None
  end.

Lemma evaluate_runs other now drawn rule m at_ t o t' :
  runs other (evaluate now drawn rule m at_) t o t' ->
  exists t1, rtc other t t1 /\
    let st := get_alert_rule_target_state (ru_workspace_id rule) (ru_rule_id rule) (key_of m) t1 in
    runs other (act now drawn rule m at_ (decide_measurement st rule m at_)) t1 o t'.
Proof.
  unfold evaluate, _evaluate_measurement. intros (o1 & t2 & Hread & Hrest)%runs_bind_inv.
  apply runs_read_inv in Hread as (t1 & Ht1 & -> & Ht2). exists t1. split; [done|].
  eapply runs_others; [exact Ht2|]. unfold key_of. set (st := get_alert_rule_target_state _ _ _ _) in *.
  refine (eq_ind _ (fun p => runs other p t2 o t') Hrest _ _). unfold decide_measurement, decide_matched.
  destruct (_last_observed_at fromisoformat st) as [l|e]; [|done]. cbn [lift mbind prog_mbind prog_bind].
  destruct (match l with Some l => am_observed_at m <=? l | None => false end); [done|].
  destruct (compare_alert_value _ _ _) as [[]|e]; [| |done]; cbn [lift prog_bind negb].
  - destruct (truthy _); [done|]. destruct (s ← st; ts_condition_since s); [|done]. by destruct (_ <? _).
  - unfold _recover. by destruct (truthy _).
Qed.

(** The runs of each decision: others first, then the transaction, then others. *)
Section Act.
Context (other : alert_tables -> alert_tables -> Prop) (now : Z) (drawn : string) (rule : AlertRule) (m : AlertMeasurement) (at_ : Z).
Let perform := act now drawn rule m at_.

Lemma fails_runs e t o t' : runs other (perform (Fails e)) t o t' -> o = Err e /\ rtc other t t'.
Proof. apply runs_raise_inv. Qed.

Lemma skip_runs t o t' : runs other (perform Skip) t o t' -> o = Ok None /\ rtc other t t'.
Proof. apply runs_ret_inv. Qed.

Lemma note_runs row t o t' :
  runs other (perform (Note row)) t o t' ->
  exists t1, rtc other t t1 /\
    ((exists e, o = Err e /\ rtc other t1 t') \/
     (exists t2, upsert_alert_rule_target_state row t1 = Ok t2 /\ o = Ok None /\ rtc other t2 t')).
Proof.
  intros (o1 & t3 & (t1 & H1 & H2)%runs_write_inv & H3)%runs_bind_inv. exists t1. split; [done|].
  destruct (upsert_alert_rule_target_state row t1) as [t2|e]; destruct H2 as [-> H2].
  - apply runs_ret_inv in H3 as [-> H3]. right. exists t2. split_and!; [done|done|by etrans].
  - destruct H3 as [-> H3]. left. exists e. split; [done|by etrans].
Qed.

Lemma refresh_runs id row t o t' :
  runs other (perform (Refresh id row)) t o t' ->
  exists t1, rtc other t t1 /\
    runs other (perform (Note row))
      (refresh_alert_rule_event (ru_workspace_id rule) id (am_observed_value m) (am_evidence m) at_ t1) o t'.
Proof.
  intros (o1 & t3 & (t1 & H1 & -> & H2)%runs_write_inv & H3)%runs_bind_inv. exists t1. split; [done|].
  by eapply runs_others.
Qed.

Lemma settle_runs id t o t' :
  runs other (perform (Settle id)) t o t' ->
  exists t1, rtc other t t1 /\
    ((exists e, o = Err e /\ rtc other t1 t') \/
     (exists t2 oe, resolve_alert_rule_event (ru_workspace_id rule) (ru_rule_id rule) (key_of m) id (am_observed_value m)
                      (am_evidence m) at_ (_transactional_stager notify rule "resolved") t1 = Ok (t2, oe) /\
        o = Ok ((fun e => _notification_transition e rule "resolved") <$> oe) /\ rtc other t2 t')).
Proof.
  intros (o1 & t3 & (t1 & H1 & H2)%runs_tx_inv & H3)%runs_bind_inv. exists t1. split; [done|].
  destruct (resolve_alert_rule_event _ _ _ _ _ _ _ _ t1) as [[t2 oe]|e]; destruct H2 as [-> H2].
  - right. exists t2, oe. split; [done|]. destruct oe as [e|]; apply runs_ret_inv in H3 as [-> H3]; (split; [done|by etrans]).
  - left. exists e. destruct H3 as [-> H3]. split; [done|by etrans].
Qed.

Lemma fire_runs row t o t' :
  runs other (perform (Fire row)) t o t' ->
  exists t1, rtc other t t1 /\
    ((exists e, o = Err e /\ rtc other t1 t') \/
     (exists t2 saved (created : bool),
        activate_alert_rule_event now row (_firing_event sha256_hex drawn rule m at_)
          (_transactional_stager notify rule "firing") t1 = Ok (t2, (saved, created)) /\
        o = Ok (if created then Some (_notification_transition saved rule "firing") else None) /\ rtc other t2 t')).
Proof.
  intros (o1 & t3 & (t1 & H1 & H2)%runs_tx_inv & H3)%runs_bind_inv. exists t1. split; [done|].
  destruct (activate_alert_rule_event _ _ _ _ t1) as [[t2 [saved created]]|e]; destruct H2 as [-> H2].
  - right. exists t2, saved, created. split; [done|]. destruct created; apply runs_ret_inv in H3 as [-> H3]; (split; [done|by etrans]).
  - left. exists e. destruct H3 as [-> H3]. split; [done|by etrans].
Qed.
End Act.

(** *** Frame *)

Section Frame.
Context (allowed : alert_op -> alert_tables -> Prop) (P : alert_tables -> Prop).
Context (now : Z) (drawn : string) (rule : AlertRule) (m : AlertMeasurement) (at_ : Z).
Let r := ru_rule_id rule.
Let k := key_of m.
Hypothesis Pothers : undisturbed allowed P.
Hypothesis Pupsert : forall row t t', ts_rule_id row = r -> ts_subject_key row = k ->
  upsert_alert_rule_target_state row t = Ok t' -> P t -> P t'.
Hypothesis Prefresh : forall ws id v ev t, P t -> P (refresh_alert_rule_event ws id v ev at_ t).
Hypothesis Presolve : forall ws id v ev st t t' o, tables_ok t -> owned r k id t ->
  resolve_alert_rule_event ws r k id v ev at_ st t = Ok (t', o) -> P t -> P t'.
Hypothesis Pactivate : forall since st t t' x,
  activate_alert_rule_event now (state_payload sha256_hex rule m at_ since None) (_firing_event sha256_hex drawn rule m at_) st t
    = Ok (t', x) -> P t -> P t'.

Let J own := framed P r k own.

Lemma J_others own t t' : rtc (others allowed) t t' -> J own t -> J own t'.
Proof using Pothers. intros Hr. eapply stable_rtc; [by apply framed_stable|done]. Qed.

Lemma frame_note own row t o t' :
  ts_rule_id row = r -> ts_subject_key row = k ->
  (forall id, ts_active_event_id row = Some id -> own = Some id) ->
  J own t -> runs (others allowed) (act now drawn rule m at_ (Note row)) t o t' -> J own t'.
Proof using Pothers Pupsert.
  intros Hr Hk Ha HJ (t1 & H1 & [(e & _ & H2)|(t2 & Hup & _ & H2)])%note_runs.
  - eauto using J_others.
  - eapply J_others; [exact H2|]. pose proof (J_others _ _ _ H1 HJ) as (Hok & Hs & Ho). split_and!.
    + eapply upsert_state_tables; [done|done|]. rewrite Hr, Hk. auto.
    + by eapply Pupsert.
    + intros id Hid. apply upsert_state_ok in Hup as ->. by apply Ho.
Qed.

Lemma frame_refresh own id row t o t' :
  ts_rule_id row = r -> ts_subject_key row = k ->
  (forall id, ts_active_event_id row = Some id -> own = Some id) ->
  J own t -> runs (others allowed) (act now drawn rule m at_ (Refresh id row)) t o t' -> J own t'.
Proof using Pothers Pupsert Prefresh.
  intros Hr Hk Ha HJ (t1 & H1 & H2)%refresh_runs. eapply frame_note; [done..| |exact H2].
  pose proof (J_others _ _ _ H1 HJ) as (Hok & Hs & Ho). split_and!.
  - by apply refresh_tables.
  - by apply Prefresh.
  - intros id' Hid. eapply (change_owned (Bus (al_bus t1))); [apply refresh_change|auto].
Qed.

Lemma frame_settle id t o t' :
  J (Some id) t -> runs (others allowed) (act now drawn rule m at_ (Settle id)) t o t' -> J None t'.
Proof using Pothers Presolve.
  intros HJ (t1 & H1 & H2)%settle_runs. pose proof (J_others _ _ _ H1 HJ) as (Hok & Hs & Ho).
  assert (J None t1) as HJ1 by (by split_and!).
  destruct H2 as [(e & _ & H2)|(t2 & oe & Hres & _ & H2)]; [eauto using J_others|]. eapply J_others; [exact H2|].
  split_and!; [by eapply resolve_tables| |done]. eapply Presolve; [exact Hok|by apply Ho|exact Hres|done].
Qed.

Lemma frame_fire since t o t' :
  J None t -> runs (others allowed) (act now drawn rule m at_ (Fire (state_payload sha256_hex rule m at_ since None))) t o t' ->
  J None t'.
Proof using Pothers Pactivate.
  intros HJ (t1 & H1 & [(e & _ & H2)|(t2 & saved & created & Hact & _ & H2)])%fire_runs; [eauto using J_others|].
  pose proof (J_others _ _ _ H1 HJ) as (Hok & Hs & Ho). eapply J_others; [exact H2|]. split_and!; [| |done].
  - by eapply activate_tables.
  - by eapply Pactivate.
Qed.

(** Whatever an evaluation meets, it keeps the tables well formed and [P]. *)
Lemma evaluate_keeps t o t' :
  tables_ok t -> P t -> runs (others allowed) (evaluate now drawn rule m at_) t o t' -> tables_ok t' /\ P t'.
Proof using Pothers Pupsert Prefresh Presolve Pactivate.
  intros Hok Hs (t1 & H1 & H2)%evaluate_runs. simpl in H2.
  set (st := get_alert_rule_target_state _ _ _ _) in *.
  assert (J None t1) as HJ by (eapply J_others; [exact H1|by split_and!]).
  assert (forall id, truthy (s ← st; ts_active_event_id s) = Some id -> J (Some id) t1) as HJt.
  { intros id Hid. destruct HJ as (Hok1 & Hs1 & _). split_and!; [done|done|]. intros id' [= <-].
    unfold st, get_alert_rule_target_state in Hid. destruct (al_states t1 !! _) as [s|] eqn:Hst; [|discriminate].
    simpl in Hid. destruct (String.eqb _ _); [|discriminate]. simpl in Hid. unfold truthy in Hid.
    destruct (ts_active_event_id s) as [id'|] eqn:Hact; [|discriminate]. destruct (String.eqb id' ""); simplify_eq.
    by eapply (proj2 Hok1). }
  enough (exists own, J own t') as (own & ? & ? & _) by done.
  assert (forall c, runs (others allowed) (act now drawn rule m at_ (Note (state_payload sha256_hex rule m at_ c None))) t1 o t' -> J None t')
    as Hnote by (intros c; by apply frame_note).
  unfold decide_measurement, decide_matched in H2. destruct (_last_observed_at fromisoformat st) as [l|e].
  2: { apply fails_runs in H2 as [_ H2]. eauto using J_others. }
  destruct (match l with Some l => am_observed_at m <=? l | None => false end).
  { apply skip_runs in H2 as [_ H2]. eauto using J_others. }
  destruct (compare_alert_value _ _ _) as [[]|e].
  - destruct (truthy _) as [id|].
    + exists (Some id). by eapply frame_refresh; [..|by apply HJt|exact H2].
    + destruct (s ← st; ts_condition_since s); [|eauto]. destruct (_ <? _); [eauto|]. exists None. by eapply frame_fire.
  - destruct (truthy _) as [id|]; [|eauto]. exists None. eapply frame_settle; [by apply HJt|exact H2].
  - apply fails_runs in H2 as [_ H2]. eauto using J_others.
Qed.
End Frame.

(** An evaluation keeps the tables well formed whoever writes at its side, and
    the slots of other rules and subjects as they are. *)
Lemma evaluate_tables allowed now drawn rule m at_ t o t' :
  tables_ok t -> runs (others allowed) (evaluate now drawn rule m at_) t o t' -> tables_ok t'.
Proof. intros Hok Hrun. by eapply (evaluate_keeps allowed (fun _ => True)) in Hrun as [? _]. Qed.

Lemma evaluate_frame allowed r k v now drawn rule m at_ t o t' :
  (forall op t, allowed op t -> spares r k op t) -> (r, k) <> (ru_rule_id rule, key_of m) ->
  tables_ok t -> slot r k t = v -> runs (others allowed) (evaluate now drawn rule m at_) t o t' ->
  tables_ok t' /\ slot r k t' = v.
Proof.
  intros Hall Hne Hok Hs Hrun. eapply (evaluate_keeps allowed (fun t => slot r k t = v)); [| | | | |exact Hok|exact Hs|exact Hrun].
  - by apply slot_undisturbed.
  - intros row t1 t2 Hr Hk Hup <-. rewrite (upsert_state_slot _ _ _ _ _ Hup), Hr, Hk. by rewrite decide_False.
  - intros ws id w ev t1 <-. apply refresh_slot.
  - intros ws id w ev st t1 t2 o1 _ Hown Hres <-. by eapply resolve_slot_other.
  - intros since st t1 t2 [saved created] Hact <-. by eapply activate_slot_other.
Qed.

(** *** The slot of the rule and subject evaluated *)

Definition violates (rule : AlertRule) (m : AlertMeasurement) : bool :=
  match compare_alert_value (am_observed_value m) (ru_comparator rule) (ru_threshold rule) with Ok b => b | Err _ => false end.

Definition sample_of (rule : AlertRule) (m : AlertMeasurement) : sample :=
  {| sm_at := am_observed_at m; sm_matched := violates rule m; sm_for := ru_for_seconds rule |}.

(** The evidence of a measurement bears its time. *)
Definition dated (m : AlertMeasurement) : Prop :=
  latest_observed fromisoformat (am_evidence m) = Ok (Some (am_observed_at m)).

(** The slot says of the samples seen so far when the current run began, when
    the last was observed and whether the rule is firing. *)
Definition mirrors (ws : string) (h : list sample) (v : option AlertRuleTargetState * gmap string string) : Prop :=
  match last h with
  | None => v = (None, ∅)
  | Some l =>
      exists row, v.1 = Some row /\ ts_workspace_id row = ws /\
        latest_observed fromisoformat (ts_last_evidence row) = Ok (Some (sm_at l)) /\
        ts_condition_since row = sm_at <$> head (matched_run h) /\
        if alarmed h then exists id, id <> "" /\ ts_active_event_id row = Some id /\ v.2 = {[id := ws]}
        else ts_active_event_id row = None /\ v.2 = ∅
  end.

Lemma mirrors_snoc ws h s row act :
  mirrors ws (h ++ [s]) (Some row, act) <->
  ts_workspace_id row = ws /\ latest_observed fromisoformat (ts_last_evidence row) = Ok (Some (sm_at s)) /\
  ts_condition_since row = sm_at <$> head (matched_run (h ++ [s])) /\
  if alarmed (h ++ [s]) then exists id, id <> "" /\ ts_active_event_id row = Some id /\ act = {[id := ws]}
  else ts_active_event_id row = None /\ act = ∅.
Proof.
  unfold mirrors. rewrite last_snoc. simpl. split; [intros (row' & [= <-] & H); exact H|]. intros H. by exists row.
Qed.

Section Own.
Context (allowed : alert_op -> alert_tables -> Prop) (now : Z) (drawn : string) (rule : AlertRule) (m : AlertMeasurement) (at_ : Z).
Let r := ru_rule_id rule.
Let k := key_of m.
Let ws := ru_workspace_id rule.
Let smp := sample_of rule m.
Hypothesis Hallowed : forall op t, allowed op t -> spares r k op t.
Hypothesis Hdated : dated m.

Let K v t := tables_ok t /\ slot r k t = v.

Lemma K_others v t t' : rtc (others allowed) t t' -> K v t -> K v t'.
Proof.
  intros Hr [Hok Hs]. assert (framed (fun t => slot r k t = v) r k None t) as Hf by (by split_and!).
  eapply stable_rtc in Hf; [|by apply framed_stable, slot_undisturbed|exact Hr]. by destruct Hf as (? & ? & _).
Qed.

Lemma own_note v c t o t' :
  K v t -> runs (others allowed) (act now drawn rule m at_ (Note (state_payload sha256_hex rule m at_ c None))) t o t' ->
  (exists e, o = Err e /\ K v t') \/ (o = Ok None /\ K (Some (state_payload sha256_hex rule m at_ c None), v.2) t').
Proof.
  intros HK (t1 & H1 & [(e & -> & H2)|(t2 & Hup & -> & H2)])%note_runs; [left; eauto using K_others|right].
  split; [done|]. destruct (K_others _ _ _ H1 HK) as [Hok Hs]. eapply K_others; [exact H2|]. split.
  - by eapply upsert_state_tables.
  - rewrite (upsert_state_slot _ _ _ _ _ Hup). by rewrite decide_True, Hs.
Qed.

Lemma own_refresh v c id t o t' :
  K v t -> owned r k id t ->
  runs (others allowed) (act now drawn rule m at_ (Refresh id (state_payload sha256_hex rule m at_ c (Some id)))) t o t' ->
  (exists e, o = Err e /\ K v t') \/ (o = Ok None /\ K (Some (state_payload sha256_hex rule m at_ c (Some id)), v.2) t').
Proof.
  intros [Hok Hs] Ho (t1 & H1 & (t2 & H2 & Hcase)%note_runs)%refresh_runs.
  assert (framed (fun t => slot r k t = v) r k (Some id) t) as Hf by (split_and!; [done|done|by intros ? [= <-]]).
  eapply stable_rtc in Hf; [|by apply framed_stable, slot_undisturbed|exact H1]. destruct Hf as (Hok1 & Hs1 & Ho1).
  eassert (framed (fun t => slot r k t = v) r k (Some id) (refresh_alert_rule_event _ _ _ _ _ t1)) as Hf.
  { split_and!; [by apply refresh_tables|by rewrite refresh_slot|].
    intros i Hi. eapply (change_owned (Bus (al_bus t1))); [apply refresh_change|auto]. }
  eapply stable_rtc in Hf; [|by apply framed_stable, slot_undisturbed|exact H2]. destruct Hf as (Hok2 & Hs2 & Ho2).
  destruct Hcase as [(e & -> & H3)|(t3 & Hup & -> & H3)].
  - left. exists e. split; [done|]. eapply K_others; [exact H3|by split].
  - right. split; [done|]. eapply K_others; [exact H3|]. split.
    + eapply upsert_state_tables; [done|done|]. intros i [= <-]. by apply Ho2.
    + rewrite (upsert_state_slot _ _ _ _ _ Hup). by rewrite decide_True, Hs2.
Qed.

Lemma own_settle row id t o t' :
  K (Some row, {[id := ws]}) t -> ts_workspace_id row = ws ->
  runs (others allowed) (act now drawn rule m at_ (Settle id)) t o t' ->
  (exists e, o = Err e /\ K (Some row, {[id := ws]}) t') \/
  (exists e, o = Ok (Some (_notification_transition e rule "resolved")) /\
     K (Some (clear_state (am_observed_value m) (am_evidence m) at_ row), ∅) t').
Proof.
  intros HK Hrow (t1 & H1 & [(e & -> & H2)|(t2 & oe & Hres & -> & H2)])%settle_runs; [left; eauto using K_others|right].
  destruct (K_others _ _ _ H1 HK) as [Hok Hs].
  assert (exists e, get_event ws id t1 = Some e /\ is_active e = true) as (e & He & Ha).
  { injection Hs as _ Hids. assert (active_ids r k (al_events t1) !! id = Some ws) as Hid by (rewrite Hids; apply lookup_singleton_eq).
    rewrite active_ids_lookup in Hid. unfold get_event. destruct (al_events t1 !! id) as [e|]; [|discriminate].
    simpl in *. exists e. destruct (active_on r k e) eqn:Hon; [|discriminate]. injection Hid as ->. rewrite String.eqb_refl.
    split; [done|]. unfold active_on in Hon. by bool_to_prop. }
  destruct (resolve_inv _ _ _ _ _ _ _ _ _ _ _ Hres) as [(_ & _ & Hoff)|(e' & He' & _ & -> & Hev & Hst)].
  { rewrite (Hoff _ He) in Ha. discriminate. }
  exists (settle_event (am_observed_value m) (am_evidence m) at_ e'). split; [done|]. eapply K_others; [exact H2|].
  split; [by eapply resolve_tables|]. injection Hs as Hstate Hids. unfold slot. f_equal.
  - rewrite Hst. unfold get_alert_rule_target_state. fold r k. rewrite Hstate. simpl. rewrite Hrow, String.eqb_refl.
    by rewrite lookup_insert_eq.
  - rewrite Hev, active_ids_settled, Hids by (unfold active_on; simpl; by rewrite andb_false_r). apply delete_singleton_eq.
Qed.

Lemma own_fire st since t o t' :
  K (st, ∅) t ->
  runs (others allowed) (act now drawn rule m at_ (Fire (state_payload sha256_hex rule m at_ since None))) t o t' ->
  (exists e, o = Err e /\ K (st, ∅) t') \/
  (exists saved id, o = Ok (Some (_notification_transition saved rule "firing")) /\ id <> "" /\
     K (Some (state_payload sha256_hex rule m at_ since (Some id)), {[id := ws]}) t').
Proof.
  intros HK (t1 & H1 & [(e & -> & H2)|(t2 & saved & created & Hact & -> & H2)])%fire_runs; [left; eauto using K_others|right].
  destruct (K_others _ _ _ H1 HK) as [Hok Hs].
  pose proof (activate_tables _ _ _ _ _ _ _ _ r k Hact eq_refl eq_refl eq_refl eq_refl eq_refl Hok) as Hok2.
  pose proof (activate_slot _ _ _ _ _ _ _ _ r k Hact eq_refl eq_refl eq_refl eq_refl eq_refl) as [Hslot Hcreated].
  destruct created.
  - destruct (Hcreated eq_refl) as [_ Hid]. exists saved, (ae_event_id saved). split; [done|]. rewrite Hid.
    split; [done|]. eapply K_others; [exact H2|]. split; [done|]. rewrite Hslot, Hid. done.
  - exfalso. destruct (activate_inv _ _ _ _ _ _ _ _ r k Hact eq_refl eq_refl eq_refl eq_refl eq_refl)
      as [_ [[? _]|(_ & _ & id & Hid & Hon)]]; [discriminate|].
    injection Hs as _ Hids. assert (active_ids r k (al_events t1) !! id = Some (ae_workspace_id saved)) as Hin.
    { by rewrite active_ids_lookup, Hid; simpl; rewrite Hon. }
    rewrite Hids, lookup_empty in Hin. discriminate.
Qed.

(** The outcome of an evaluation: a failure changes nothing the next one can
    see, and otherwise the sample is taken in and its edge announced. *)
Definition evaluated_ok (h : list sample) (o : result alert_error (option alert_transition)) (t' : alert_tables) : Prop :=
  tables_ok t' /\
  match o with
  | Err _ => mirrors ws h (slot r k t')
  | Ok tr => mirrors ws (observe h smp) (slot r k t') /\ tr_transition <$> tr = announced h smp
  end.

Lemma announced_edge h s b : newer h s = true -> alarmed (h ++ [s]) = b ->
  announced h s = match alarmed h, b with false, true => Some "firing" | true, false => Some "resolved" | _, _ => None end.
Proof. intros Hn <-. unfold announced. by rewrite observe_newer. Qed.

(** A newer sample whose evaluation wrote [row]. *)
Lemma evaluated_row h row act tr t' :
  newer h smp = true -> K (Some row, act) t' ->
  ts_workspace_id row = ws -> ts_last_evidence row = am_evidence m ->
  ts_condition_since row = sm_at <$> head (matched_run (h ++ [smp])) ->
  (if alarmed (h ++ [smp]) then exists id, id <> "" /\ ts_active_event_id row = Some id /\ act = {[id := ws]}
   else ts_active_event_id row = None /\ act = ∅) ->
  tr_transition <$> tr = announced h smp -> evaluated_ok h (Ok tr) t'.
Proof.
  intros Hn [Hok Hs] Hw Hev Hsince Halarm Htr. split; [done|]. split; [|done].
  rewrite (observe_newer _ _ Hn), Hs. apply mirrors_snoc. by rewrite Hev.
Qed.

Lemma evaluated_err h v e t' : mirrors ws h v -> K v t' -> evaluated_ok h (Err e) t'.
Proof. intros Hm [Hok <-]. by split. Qed.

(** The first sample of a slot, or one after fine samples only. *)
Lemma own_quiet h st t o t' :
  newer h smp = true -> mirrors ws h (st, ∅) -> alarmed h = false ->
  (s ← st; ts_active_event_id s) = None -> (s ← st; ts_condition_since s) = sm_at <$> head (matched_run h) ->
  compare_alert_value (am_observed_value m) (ru_comparator rule) (ru_threshold rule) = Ok (sm_matched smp) ->
  K (st, ∅) t ->
  runs (others allowed) (act now drawn rule m at_
    (if sm_matched smp then decide_matched st rule m at_ else Note (state_payload sha256_hex rule m at_ None None))) t o t' ->
  evaluated_ok h o t'.
Proof.
  intros Hn Hm Hal Hact Hsince Hcmp HK Hrun.
  assert (forall c, c = sm_at <$> head (matched_run (h ++ [smp])) -> alarmed (h ++ [smp]) = false ->
    runs (others allowed) (act now drawn rule m at_ (Note (state_payload sha256_hex rule m at_ c None))) t o t' ->
    evaluated_ok h o t') as Hnote.
  { intros c Hc Hal' [(e & -> & HK')|[-> HK']]%(own_note _ _ _ _ _ HK); [by eapply evaluated_err|].
    eapply evaluated_row; [done|exact HK'|done|done|done| |].
    - by rewrite Hal'.
    - by rewrite (announced_edge _ _ _ Hn Hal'), Hal. }
  destruct (sm_matched smp) eqn:Hmatch.
  2: { eapply Hnote; [|by apply alarmed_fine|exact Hrun]. by rewrite matched_run_snoc, Hmatch. }
  unfold decide_matched in Hrun. rewrite Hact in Hrun. simpl in Hrun. rewrite Hsince in Hrun.
  destruct (matched_run h) as [|s0 run] eqn:Hr; simpl in Hrun.
  { eapply Hnote; [|by apply alarmed_first|exact Hrun]. by rewrite matched_run_snoc, Hmatch, Hr. }
  assert (alarmed (h ++ [smp]) = (ru_for_seconds rule * SECOND <=? am_observed_at m - sm_at s0)) as Hnext
    by (by rewrite (alarmed_next _ _ _ _ Hmatch Hr), Hal).
  assert (Some (sm_at s0) = sm_at <$> head (matched_run (h ++ [smp]))) as Hhead by (by rewrite matched_run_snoc, Hmatch, Hr).
  destruct (am_observed_at m - sm_at s0 <? ru_for_seconds rule * SECOND) eqn:Hfor.
  { eapply Hnote; [exact Hhead| |exact Hrun]. rewrite Hnext. bool_to_prop. by apply Z.leb_gt. }
  assert (alarmed (h ++ [smp]) = true) as Hal' by (rewrite Hnext; bool_to_prop; by apply Z.leb_le).
  destruct (own_fire _ _ _ _ _ HK Hrun) as [(e & -> & HK')|(saved & id & -> & Hid & HK')]; [by eapply evaluated_err|].
  eapply evaluated_row; [done|exact HK'|done|done|exact Hhead| |].
  - rewrite Hal'. by exists id.
  - by rewrite (announced_edge _ _ _ Hn Hal'), Hal.
Qed.

(** A sample while the rule is firing. *)
Lemma own_firing h row id t o t' :
  newer h smp = true -> mirrors ws h (Some row, {[id := ws]}) -> alarmed h = true ->
  ts_workspace_id row = ws -> ts_active_event_id row = Some id -> id <> "" ->
  ts_condition_since row = sm_at <$> head (matched_run h) ->
  compare_alert_value (am_observed_value m) (ru_comparator rule) (ru_threshold rule) = Ok (sm_matched smp) ->
  K (Some row, {[id := ws]}) t ->
  runs (others allowed) (act now drawn rule m at_
    (if sm_matched smp then decide_matched (Some row) rule m at_ else Settle id)) t o t' ->
  evaluated_ok h o t'.
Proof.
  intros Hn Hm Hal Hw Hact Hne Hsince Hcmp HK Hrun. destruct (sm_matched smp) eqn:Hmatch.
  - unfold decide_matched in Hrun. simpl in Hrun. rewrite Hact in Hrun. unfold truthy in Hrun.
    rewrite (proj2 (String.eqb_neq id "") Hne) in Hrun.
    assert (owned r k id t) as Hown by (destruct HK as [Hok [= Hst _]]; by eapply (proj2 Hok)).
    destruct (own_refresh _ _ _ _ _ _ HK Hown Hrun) as [(e & -> & HK')|[-> HK']]; [by eapply evaluated_err|].
    destruct (matched_run h) as [|s0 run] eqn:Hr; [unfold alarmed in Hal; by rewrite Hr in Hal|].
    assert (alarmed (h ++ [smp]) = true) as Hal' by (by rewrite (alarmed_next _ _ _ _ Hmatch Hr), Hal).
    eapply evaluated_row; [done|exact HK'|done|done| | |].
    + simpl. by rewrite Hsince, matched_run_snoc, Hmatch, Hr.
    + rewrite Hal'. by exists id.
    + by rewrite (announced_edge _ _ _ Hn Hal'), Hal.
  - destruct (own_settle _ _ _ _ _ HK Hw Hrun) as [(e & -> & HK')|(e & -> & HK')]; [by eapply evaluated_err|].
    assert (alarmed (h ++ [smp]) = false) as Hal' by (by apply alarmed_fine).
    eapply evaluated_row; [done|exact HK'|done|done| | |].
    + simpl. by rewrite matched_run_snoc, Hmatch.
    + by rewrite Hal'.
    + by rewrite (announced_edge _ _ _ Hn Hal'), Hal.
Qed.

Lemma evaluate_own h t o t' :
  tables_ok t -> mirrors ws h (slot r k t) -> runs (others allowed) (evaluate now drawn rule m at_) t o t' ->
  evaluated_ok h o t'.
Proof.
  intros Hok Hm (t1 & H1 & H2)%evaluate_runs.
  destruct (K_others (slot r k t) t t1 H1 (conj Hok eq_refl)) as [Hok1 Hs1]. rewrite <- Hs1 in Hm. clear t H1 Hok Hs1.
  assert (K (slot r k t1) t1) as HK by done. fold r k ws in H2.
  assert (forall e t0, rtc (others allowed) t1 t0 -> evaluated_ok h (Err e) t0) as Herr.
  { intros e t0 H0. eapply evaluated_err; [exact Hm|by eapply K_others]. }
  destruct (slot r k t1) as [st act1] eqn:Hslot. injection Hslot as Hst Hids.
  unfold get_alert_rule_target_state in H2. rewrite Hst in H2. simpl in H2.
  pose proof Hm as Hm0. unfold mirrors in Hm. unfold decide_measurement in H2.
  destruct (last h) as [l|] eqn:Hlast.
  - destruct Hm as (row & Hrow & Hw & Hev & Hsince & Halarm). simpl in Hrow, Halarm. rewrite Hrow in H2, Hm0, HK. simpl in H2.
    rewrite Hw, String.eqb_refl in H2. simpl in H2. rewrite Hev in H2.
    destruct (am_observed_at m <=? sm_at l) eqn:Hle.
    { apply skip_runs in H2 as [-> H2]. assert (newer h smp = false) as Hn.
      { unfold newer. rewrite Hlast. simpl. bool_to_prop. by apply Z.ltb_ge. }
      destruct (K_others _ _ _ H2 HK) as [Hok2 Hs2]. split; [done|]. unfold announced, observe. rewrite Hn, Hs2.
      split; [done|]. by destruct (alarmed h). }
    assert (newer h smp = true) as Hn by (unfold newer; rewrite Hlast; simpl; bool_to_prop; by apply Z.ltb_lt).
    destruct (compare_alert_value _ _ _) as [b|e] eqn:Hcmp; [|apply fails_runs in H2 as [-> H2]; auto].
    assert (b = sm_matched smp) as -> by (simpl; unfold violates; by rewrite Hcmp).
    destruct (alarmed h) eqn:Hal.
    + destruct Halarm as (id & Hne & Hact & ->). eapply own_firing; [done..|]. 
      unfold truthy in H2. rewrite Hact, (proj2 (String.eqb_neq id "") Hne) in H2. by destruct (sm_matched smp).
    + destruct Halarm as [Hact ->]. eapply own_quiet; [done..|]. rewrite Hact in H2. by destruct (sm_matched smp).
  - injection Hm as -> ->. simpl in H2.
    assert (newer h smp = true) as Hn by (unfold newer; by rewrite Hlast).
    apply last_None in Hlast as ->.
    destruct (compare_alert_value _ _ _) as [b|e] eqn:Hcmp; [|apply fails_runs in H2 as [-> H2]; auto].
    assert (b = sm_matched smp) as -> by (simpl; unfold violates; by rewrite Hcmp).
    eapply own_quiet; [done..|]. by destruct (sm_matched smp).
Qed.
End Own.
End Engine.
