(* ===== verification/AlertLife.v ===== *)
(** Lives of the rule engine: any number of evaluations, with the other writers
    of the alert tables between and inside them, and what they guarantee. *)

From S2P Require Import Prelude PyString Json EventStore Outbox.
From S2P Require Import Transactions AlertStore AlertEvaluation AlertRuns AlertReference.
From Stdlib Require Import QArith.QArith.
From stdpp Require Import relations.
From coqutil Require Import Datatypes.RecordSettersUsingExistingGetters.
#[global] Open Scope Z_scope.

Arguments RecordSettersUsingExistingGetters.const {E} newValue _ /.

(** One evaluation that took place. *)
Record entry : Type := {
  en_rule : AlertRule;
  en_measurement : AlertMeasurement;
  en_outcome : result alert_error (option alert_transition);
}.

Section Life.
Context (sha256_hex : string -> string) (fromisoformat : string -> option Z).
Context (stage : alert_transition -> tables -> result alert_error tables) (call : alert_transition -> prog alert_tables alert_error unit).
Let notify : notifier := {| nt_stage := Some stage; nt_call := call |}.
Let evaluate := _evaluate_measurement sha256_hex fromisoformat notify.
Let key_of := measurement_key sha256_hex.

Inductive life (other : alert_tables -> alert_tables -> Prop) : alert_tables -> list entry -> alert_tables -> Prop :=
| life_rest t t' : rtc other t t' -> life other t [] t'
| life_evaluated now drawn rule m at_ t o t1 es t' :
    runs other (evaluate now drawn rule m at_) t o t1 -> life other t1 es t' ->
    life other t ({| en_rule := rule; en_measurement := m; en_outcome := o |} :: es) t'.

Lemma life_others other t t1 es t' : rtc other t t1 -> life other t1 es t' -> life other t es t'.
Proof.
  intros Hr Hl. revert Hr. induction Hl as [t1 t' H|now drawn rule m at_ t1 o t2 es t' H Hl IH]; intros Hr.
  - constructor. by etrans.
  - econstructor; [by eapply runs_others|done].
Qed.

Lemma life_app other t es t1 es' t' : life other t es t1 -> life other t1 es' t' -> life other t (es ++ es') t'.
Proof.
  intros Hl Hl'. induction Hl as [t t1 H|now drawn rule m at_ t o t2 es t1 H Hl IH].
  - by eapply life_others.
  - simpl. econstructor; [done|by apply IH].
Qed.

Lemma life_rest_others other t es t1 t' : life other t es t1 -> rtc other t1 t' -> life other t es t'.
Proof. intros Hl Hr. rewrite <- (app_nil_r es). eapply life_app; [exact Hl|by constructor]. Qed.

(** ** A cycle is a life

    The loader only reads. *)

Definition transitions (es : list entry) : list alert_transition :=
  omap (fun e => match en_outcome e with Ok tr => tr | Err _ => None end) es.

Definition failed (e : entry) : bool := match en_outcome e with Ok _ => false | Err _ => true end.

(** What a part of a cycle did: every evaluation in it succeeded and it returned
    their transitions, or the last evaluation, or the loader, raised its error. *)
Definition told (es : list entry) (o : result alert_error (list alert_transition)) : Prop :=
  match o with
  | Ok trs => trs = transitions es /\ Forall (fun e => failed e = false) es
  | Err e => Forall (fun e => failed e = false) (removelast es) /\
             match last es with Some l => failed l = true -> en_outcome l = Err e | None => True end
  end.

Section Cycle.
Context (other : alert_tables -> alert_tables -> Prop) (load : AlertRule -> prog alert_tables alert_error (list AlertMeasurement)).
Hypothesis Hload : forall rule t o t', runs other (load rule) t o t' -> rtc other t t'.

Lemma told_cons now drawn rule m at_ t tr t1 es o :
  runs other (evaluate now drawn rule m at_) t (Ok tr) t1 -> told es o ->
  told ({| en_rule := rule; en_measurement := m; en_outcome := Ok tr |} :: es) (with_transition tr <$> o).
Proof.
  intros _ Ht. destruct o as [trs|e]; simpl in *.
  - destruct Ht as [-> Hall]. split; [by destruct tr|]. by constructor.
  - destruct Ht as [Hall Hlast]. destruct es as [|e0 es]; [done|]. split; [by constructor|done].
Qed.

Lemma told_app es1 trs es2 o : told es1 (Ok trs) -> told es2 o -> told (es1 ++ es2) (app trs <$> o).
Proof.
  intros [-> Hall1] Ht. destruct o as [trs2|e]; simpl in *.
  - destruct Ht as [-> Hall2]. split; [by unfold transitions; rewrite omap_app|by apply Forall_app].
  - destruct Ht as [Hall2 Hlast]. destruct es2 as [|e2 es2]; [rewrite app_nil_r|].
    + split; [|destruct (last es1) as [l|] eqn:Hl; [|done]].
      * destruct es1 as [|e1 es1] using rev_ind; [done|]. rewrite removelast_last. by apply Forall_app in Hall1 as [? _].
      * rewrite Forall_forall in Hall1. rewrite (Hall1 l); [done|by eapply last_Some_elem_of].
    + rewrite removelast_app by done. rewrite last_app. split; [by apply Forall_app|].
      change (last (e2 :: es2)) with (last ([e2] ++ es2)) in *. rewrite last_app in *. by destruct (last es2).
Qed.

Lemma measurements_life now draw j rule ms at_ t o t' :
  runs other (evaluate_measurements sha256_hex fromisoformat notify now draw j rule ms at_) t o t' ->
  exists es, life other t es t' /\ told es o.
Proof using.
  revert j t o t'. induction ms as [|m ms IH]; intros j t o t' Hrun.
  - apply runs_ret_inv in Hrun as [-> Hr]. exists []. by repeat constructor.
  - apply runs_bind_inv in Hrun as (o1 & t1 & Hev & Hrest). destruct o1 as [tr|e].
    + apply runs_bind_inv in Hrest as (o2 & t2 & Hms & Hrest). destruct (IH _ _ _ _ Hms) as (es & Hl & Ht).
      exists ({| en_rule := rule; en_measurement := m; en_outcome := Ok tr |} :: es). split.
      * eapply life_evaluated; [exact Hev|]. eapply life_rest_others; [exact Hl|].
        destruct o2; [by apply runs_ret_inv in Hrest as [_ ?]|by destruct Hrest].
      * destruct o2 as [trs|e]; [apply runs_ret_inv in Hrest as [-> _]|destruct Hrest as [-> _]];
          by apply (told_cons _ _ _ _ _ _ _ _ _ _ Hev Ht).
    + destruct Hrest as [-> Hr]. exists [{| en_rule := rule; en_measurement := m; en_outcome := Err e |}].
      split; [eapply life_evaluated; [exact Hev|by constructor]|]. by split; [constructor|].
Qed.

Lemma rules_life now draw i rules at_ t o t' :
  runs other (evaluate_rules sha256_hex fromisoformat notify load now draw i rules at_) t o t' ->
  exists es, life other t es t' /\ told es o.
Proof using Hload.
  revert i t o t'. induction rules as [|rule rules IH]; intros i t o t' Hrun.
  - apply runs_ret_inv in Hrun as [-> Hr]. exists []. by repeat constructor.
  - apply runs_bind_inv in Hrun as (o1 & t1 & Hl & Hrest). apply Hload in Hl as Hr1.
    destruct o1 as [ms|e]; [|destruct Hrest as [-> Hr]; exists []; repeat constructor; by etrans].
    apply runs_bind_inv in Hrest as (o2 & t2 & Hms & Hrest). apply measurements_life in Hms as (es1 & Hl1 & Ht1).
    eapply life_others in Hl1; [|exact Hr1]. destruct o2 as [trs|e].
    + apply runs_bind_inv in Hrest as (o3 & t3 & Hrs & Hrest). destruct (IH _ _ _ _ Hrs) as (es2 & Hl2 & Ht2).
      exists (es1 ++ es2). split.
      * eapply life_app; [exact Hl1|]. eapply life_rest_others; [exact Hl2|].
        destruct o3; [by apply runs_ret_inv in Hrest as [_ ?]|by destruct Hrest].
      * destruct o3 as [trs3|e]; [apply runs_ret_inv in Hrest as [-> _]|destruct Hrest as [-> _]];
          by apply (told_app _ _ _ _ Ht1 Ht2).
    + destruct Hrest as [-> Hr]. exists es1. split; [by eapply life_rest_others|done].
Qed.

(** A cycle of the engine is a sequence of evaluations that ends with the
    first that fails: it returns the transitions of all of them, or raises that
    evaluation's error (or the loader's) and leaves the remaining measurements
    and rules for the next cycle. *)
Theorem cycle_stops_at_failure now draw at_ t o t' :
  runs other (evaluate_once sha256_hex fromisoformat notify load now draw at_) t o t' ->
  exists es, life other t es t' /\ told es o.
Proof using Hload.
  intros (o1 & t1 & (t2 & Hr2 & -> & Hr1)%runs_read_inv & (es & Hl & Ht)%rules_life)%runs_bind_inv.
  exists es. split; [|done]. eapply life_others; [|exact Hl]. by etrans.
Qed.
End Cycle.

(** ** The engine announces what the specification says *)

Section Slot.
Context (r k ws : string).

Definition concerns (e : entry) : bool :=
  String.eqb (ru_rule_id (en_rule e)) r && String.eqb (key_of (en_measurement e)) k.

(** The samples of the rule and subject whose evaluation succeeded, each with
    what it announced. *)
Definition heard (es : list entry) : list (sample * option string) :=
  omap (fun e => if concerns e then
                   match en_outcome e with
                   | Ok tr => Some (sample_of (en_rule e) (en_measurement e), tr_transition <$> tr)
                   | Err _ => None
                   end
                 else None) es.

(** What the specification announces for samples after [h]. *)
Fixpoint narrate (h : list sample) (ss : list sample) : list (option string) :=
  match ss with [] => [] | s :: ss => announced h s :: narrate (observe h s) ss end.

Definition history (h : list sample) (ss : list sample) : list sample := foldl observe h ss.

Definition firing_now (t : alert_tables) : Prop :=
  exists id e, al_events t !! id = Some e /\ active_on r k e = true.

Lemma firing_slot t : firing_now t <-> (slot r k t).2 <> ∅.
Proof.
  split.
  - intros (id & e & He & Ha) Hempty. assert (active_ids r k (al_events t) !! id = Some (ae_workspace_id e)) as Hin
      by (by rewrite active_ids_lookup, He; simpl; rewrite Ha). unfold slot in Hempty. simpl in Hempty.
    by rewrite Hempty, lookup_empty in Hin.
  - intros Hne. apply map_choose in Hne as (id & w & Hid). unfold slot in Hid. simpl in Hid.
    rewrite active_ids_lookup in Hid. destruct (al_events t !! id) as [e|] eqn:He; [|discriminate]. exists id, e.
    simpl in Hid. by destruct (active_on r k e).
Qed.

Lemma mirrors_firing h t : mirrors fromisoformat ws h (slot r k t) -> firing_now t <-> alarmed h = true.
Proof.
  rewrite firing_slot. unfold mirrors. destruct (last h) as [l|] eqn:Hl.
  - intros (row & _ & _ & _ & _ & Hal). destruct (alarmed h).
    + destruct Hal as (id & _ & _ & ->). split; [done|]. intros _. apply map_non_empty_singleton.
    + destruct Hal as [_ ->]. done.
  - intros ->. apply last_None in Hl as ->. done.
Qed.

Lemma life_mirrors t es t' h :
  life (others (spares r k)) t es t' -> tables_ok t -> mirrors fromisoformat ws h (slot r k t) ->
  Forall (fun e => concerns e = true -> ru_workspace_id (en_rule e) = ws /\ dated fromisoformat (en_measurement e)) es ->
  (heard es).*2 = narrate h (heard es).*1 /\ mirrors fromisoformat ws (history h (heard es).*1) (slot r k t') /\ tables_ok t'.
Proof.
  intros Hl. revert h. induction Hl as [t t' Hr|now drawn rule m at_ t o t1 es t' Hrun Hl IH]; intros h Hok Hm Hes.
  - assert (framed (fun t0 => slot r k t0 = slot r k t) r k None t) as Hf by (by split_and!).
    eapply stable_rtc in Hf; [|by apply framed_stable, slot_undisturbed|exact Hr]. destruct Hf as (Hok' & Hs' & _).
    simpl. by rewrite Hs'.
  - apply Forall_cons in Hes as [He Hes]. unfold heard. cbn [omap list_omap]. fold (heard es).
    destruct (concerns _) eqn:Hc.
    + destruct (He eq_refl) as [Hws Hd]. unfold concerns in Hc. simpl in Hc, Hws, Hd. apply andb_true_iff in Hc as [Hr%String.eqb_eq Hk%String.eqb_eq].
      assert (evaluated_ok sha256_hex fromisoformat rule m h o t1) as [Hok1 Ho].
      { eapply evaluate_own; [|exact Hd|exact Hok| |exact Hrun]; unfold key_of in Hk; rewrite Hr, Hk; [done|by rewrite Hws]. }
      cbn [en_outcome en_rule en_measurement]. unfold key_of in Hk. rewrite Hr, Hk, Hws in Ho.
      destruct o as [tr|e].
      * destruct Ho as [Hm1 Htr]. destruct (IH _ Hok1 Hm1 Hes) as (Hn & Hm2 & Hok2). csimpl. rewrite Hn, Htr. done.
      * by destruct (IH _ Hok1 Ho Hes) as (Hn & Hm2 & Hok2).
    + assert ((r, k) <> (ru_rule_id rule, key_of m)) as Hne.
      { intros [= Hr Hk]. unfold concerns in Hc. cbn [en_rule en_measurement] in Hc. by rewrite <- Hr, <- Hk, !String.eqb_refl in Hc. }
      eapply (evaluate_frame _ _ _ _ _ r k (slot r k t)) in Hrun as [Hok1 Hs1]; [|done..].
      apply IH; [done|by rewrite Hs1|done].
Qed.

(** C8. For any rule and subject, and any life of the engine in which operators
    acknowledge and promote events, rules are edited, external alerts and
    incidents come and go, and transactions fail: what the engine announced is
    exactly the edges of the stateless specification over the samples whose
    evaluation succeeded, and an active event exists exactly when the
    specification says that the rule is firing. *)
Theorem alerts_follow_reference t es t' :
  life (others (spares r k)) t es t' -> tables_ok t -> slot r k t = (None, ∅) ->
  Forall (fun e => concerns e = true -> ru_workspace_id (en_rule e) = ws /\ dated fromisoformat (en_measurement e)) es ->
  (heard es).*2 = narrate [] (heard es).*1 /\
  (firing_now t' <-> alarmed (history [] (heard es).*1) = true).
Proof.
  intros Hl Hok Hs Hes. eapply (life_mirrors _ _ _ []) in Hl as (Hn & Hm & _); [|done|by rewrite Hs|done].
  split; [done|by apply mirrors_firing].
Qed.
End Slot.

(** ** A rule whose active event was resolved from outside *)

Section Silent.
Context (r k ws id : string).
Hypothesis Hid : id <> "".

(** The state of the rule still refers to an event that is over. *)
Definition silent (t : alert_tables) : Prop :=
  exists row e, al_states t !! (r, k) = Some row /\ ts_workspace_id row = ws /\ ts_active_event_id row = Some id /\
    al_events t !! id = Some e /\ ae_workspace_id e = ws /\ ae_rule_id e = Some r /\ is_active e = false.

Let allowed (op : alert_op) (t : alert_tables) : Prop := keeps_rule r op.

Lemma silent_change op t t' :
  event_change op (al_events t) (al_events t') -> al_states t' !! (r, k) = al_states t !! (r, k) -> silent t -> silent t'.
Proof using.
  intros Hc Hst (row & e & Hrow & Hw & Ha & He & Hew & Her & Hei).
  destruct (change_owner _ _ _ _ _ _ Hc He Her) as (e' & He' & Her' & _ & Hew' & Hei').
  exists row, e'. rewrite Hst, Hew'. auto 10.
Qed.

Lemma silent_undisturbed : undisturbed allowed silent.
Proof using.
  intros t t' (op & Hp & Ha & Happly) Hok. eapply silent_change; [by eapply op_events|]. by eapply op_states.
Qed.

Lemma silent_refresh wsp i v ev at_ t : silent t -> silent (refresh_alert_rule_event wsp i v ev at_ t).
Proof using. apply (silent_change (Bus (al_bus t))); [apply refresh_change|by rewrite refresh_states]. Qed.

Lemma silent_resolve wsp r' k' i v ev at_ st t t' o :
  (r, k) <> (r', k') -> resolve_alert_rule_event wsp r' k' i v ev at_ st t = Ok (t', o) -> silent t -> silent t'.
Proof using.
  intros Hne [(_ & -> & _)|(e' & [He' _]%get_event_some & Hact & _ & Hev & Hst)]%resolve_inv; [done|].
  intros (row & e & Hrow & Hw & Ha & He & Hew & Her & Hei). exists row, e. split_and!; try done.
  - rewrite Hst. destruct (get_alert_rule_target_state wsp r' k' t); [|done]. by rewrite lookup_insert_ne by congruence.
  - rewrite Hev, lookup_insert_ne; [done|]. intros ->. simplify_eq. congruence.
Qed.

Lemma silent_activate now s event st t t' saved created r' k' :
  activate_alert_rule_event now s event st t = Ok (t', (saved, created)) ->
  ae_rule_id event = Some r' -> is_active event = true -> ts_rule_id s = r' -> ae_subject_key event = k' -> ts_subject_key s = k' ->
  (r, k) <> (r', k') -> silent t -> silent t'.
Proof using.
  intros Hact Hr Ha Hs Hk Hsk Hne (row & e & Hrow & Hw & Hrow_a & He & Hew & Her & Hei).
  destruct (activate_inv _ _ _ _ _ _ _ _ _ _ Hact Hr Ha Hs Hk Hsk) as [Hst Hcase]. exists row, e. split_and!; try done.
  - by rewrite Hst, lookup_insert_ne by congruence.
  - destruct Hcase as [(_ & -> & Hnone & _ & ->)|(_ & -> & _)]; [|done]. rewrite lookup_insert_ne; [done|]. congruence.
Qed.

Lemma silent_frame now drawn rule m at_ t o t' :
  (r, k) <> (ru_rule_id rule, key_of m) -> tables_ok t -> silent t ->
  runs (others allowed) (evaluate now drawn rule m at_) t o t' -> tables_ok t' /\ silent t'.
Proof using.
  intros Hne Hok Hs Hrun. eapply (evaluate_keeps _ _ _ _ _ silent); [| | | | |exact Hok|exact Hs|exact Hrun].
  - apply silent_undisturbed.
  - intros row t1 t2 Hr Hk ->%upsert_state_ok (row0 & e & Hrow & H). exists row0, e. split; [|done]. simpl.
    rewrite lookup_insert_ne; [done|]. rewrite Hr, Hk. intros Heq. apply Hne. symmetry. exact Heq.
  - intros; by apply silent_refresh.
  - intros * _ _ Hres. by eapply silent_resolve.
  - intros since st t1 t2 [saved created] Hact. eapply silent_activate; [exact Hact|done..].
Qed.

Lemma silent_others t t' : tables_ok t -> silent t -> rtc (others allowed) t t' -> tables_ok t' /\ silent t'.
Proof using.
  intros Hok Hs Hr. assert (framed silent r k None t) as Hf by (by split_and!).
  eapply stable_rtc in Hf; [|by apply framed_stable, silent_undisturbed|exact Hr]. by destruct Hf as (? & ? & _).
Qed.

Lemma silent_own now drawn rule m at_ t o t' :
  ru_rule_id rule = r -> key_of m = k -> ru_workspace_id rule = ws -> tables_ok t -> silent t ->
  runs (others allowed) (evaluate now drawn rule m at_) t o t' ->
  tables_ok t' /\ silent t' /\ forall tr, o <> Ok (Some tr).
Proof using Hid.
  intros Hr Hk Hw Hok Hs (t1 & H1 & H2)%evaluate_runs. destruct (silent_others _ _ Hok Hs H1) as [Hok1 Hs1].
  pose proof Hs1 as (row & e & Hrow & Hroww & Hact & He & Hew & Her & Hei). unfold key_of in Hk. rewrite Hr, Hk, Hw in H2.
  unfold get_alert_rule_target_state in H2. rewrite Hrow in H2. simpl in H2. rewrite Hroww, String.eqb_refl in H2.
  unfold decide_measurement, decide_matched in H2. simpl in H2. rewrite Hact in H2. unfold truthy in H2.
  rewrite (proj2 (String.eqb_neq id "") Hid) in H2.
  assert (forall t2, rtc (others allowed) t1 t2 -> tables_ok t2 /\ silent t2) as Hend by (intros; by eapply silent_others).
  destruct (latest_observed fromisoformat (ts_last_evidence row)) as [l|err].
  2: { apply fails_runs in H2 as [-> H2]. by destruct (Hend _ H2). }
  destruct (match l with Some l => am_observed_at m <=? l | None => false end).
  { apply skip_runs in H2 as [-> H2]. by destruct (Hend _ H2). }
  destruct (compare_alert_value _ _ _) as [[]|err].
  - apply refresh_runs in H2 as (t2 & H12 & H2). destruct (Hend _ H12) as [Hok2 Hs2].
    apply (refresh_tables (ru_workspace_id rule) id (am_observed_value m) (am_evidence m) at_) in Hok2.
    apply (silent_refresh (ru_workspace_id rule) id (am_observed_value m) (am_evidence m) at_) in Hs2.
    apply note_runs in H2 as (t3 & H23 & Hcase). destruct (silent_others _ _ Hok2 Hs2 H23) as [Hok3 Hs3].
    destruct Hcase as [(err & -> & H3)|(t4 & Hup & -> & H3)]; [by destruct (silent_others _ _ Hok3 Hs3 H3)|].
    pose proof Hs3 as (row3 & e3 & Hrow3 & _ & Hact3 & H3').
    assert (tables_ok t4) as Hok4.
    { eapply upsert_state_tables; [exact Hup|done|]. intros i [= <-]. cbn [ts_rule_id ts_subject_key state_payload].
      rewrite Hr. unfold measurement_key in *. rewrite Hk. by eapply (proj2 Hok3). }
    assert (silent t4) as Hs4.
    { apply upsert_state_ok in Hup as ->. eexists _, e3. simpl. rewrite Hr. unfold measurement_key in *. rewrite Hk, lookup_insert_eq.
      split; [done|]. simpl. by destruct H3' as (? & ? & ? & ?). }
    by destruct (silent_others _ _ Hok4 Hs4 H3).
  - apply settle_runs in H2 as (t2 & H12 & Hcase). destruct (Hend _ H12) as [Hok2 Hs2].
    destruct Hcase as [(err & -> & H3)|(t3 & oe & Hres & -> & H3)]; [by destruct (silent_others _ _ Hok2 Hs2 H3)|].
    destruct (resolve_inv _ _ _ _ _ _ _ _ _ _ _ Hres) as [(-> & -> & _)|(e2 & [He2 _]%get_event_some & Hact2 & _)].
    + by destruct (silent_others _ _ Hok2 Hs2 H3).
    + destruct Hs2 as (row2 & e2' & _ & _ & _ & He2' & _ & _ & Hoff). congruence.
  - apply fails_runs in H2 as [-> H2]. by destruct (Hend _ H2).
Qed.

Lemma silent_life t es t' :
  life (others allowed) t es t' -> tables_ok t -> silent t ->
  Forall (fun e => concerns r k e = true -> ru_workspace_id (en_rule e) = ws) es ->
  silent t' /\ Forall (fun e => concerns r k e = true -> forall tr, en_outcome e <> Ok (Some tr)) es.
Proof using Hid.
  induction 1 as [t t' Hr|now drawn rule m at_ t o t1 es t' Hrun Hl IH]; intros Hok Hs Hes.
  - by destruct (silent_others _ _ Hok Hs Hr).
  - apply Forall_cons in Hes as [He Hes]. destruct (concerns r k _) eqn:Hc.
    + specialize (He eq_refl). apply andb_true_iff in Hc as [Hr%String.eqb_eq Hk%String.eqb_eq].
      destruct (silent_own _ _ _ _ _ _ _ _ Hr Hk He Hok Hs Hrun) as (Hok1 & Hs1 & Ho).
      destruct (IH Hok1 Hs1 Hes) as [Hs2 Hall]. split; [done|]. by constructor.
    + assert ((r, k) <> (ru_rule_id rule, key_of m)) as Hne.
      { intros [= Hr Hk]. unfold concerns in Hc. cbn [en_rule en_measurement] in Hc. by rewrite <- Hr, <- Hk, !String.eqb_refl in Hc. }
      destruct (silent_frame _ _ _ _ _ _ _ _ Hne Hok Hs Hrun) as [Hok1 Hs1].
      destruct (IH Hok1 Hs1 Hes) as [Hs2 Hall]. split; [done|]. constructor; [congruence|done].
Qed.

(** C29. When the active event of a rule and subject is resolved through its
    incident, the state of the rule goes on referring to it, and the rule never
    announces anything for that subject again: neither a recovery nor a new
    violation, however long it lasts, in any life in which the rule is not
    deleted. *)
Theorem resolved_incident_silences_rule now incident t t1 es t' row e :
  tables_ok t -> al_states t !! (r, k) = Some row -> ts_workspace_id row = ws -> ts_active_event_id row = Some id ->
  al_events t !! id = Some e -> ae_workspace_id e = ws -> ae_incident_id e = Some incident ->
  apply_op (ResolveIncident now ws incident) t = Ok t1 -> life (others (fun op _ => keeps_rule r op)) t1 es t' ->
  Forall (fun e => concerns r k e = true -> ru_workspace_id (en_rule e) = ws) es ->
  Forall (fun e => concerns r k e = true -> forall tr, en_outcome e <> Ok (Some tr)) es /\ silent t'.
Proof using Hid.
  intros Hok Hrow Hw Hact He Hew Hinc Happly Hl Hes.
  assert (tables_ok t1) as Hok1 by (by eapply (op_tables_ok (ResolveIncident now ws incident) t)).
  destruct (proj2 Hok _ _ _ _ Hrow Hact) as (e0 & He0 & Her & _). rewrite He in He0. injection He0 as <-.
  assert (silent t1) as Hs1; [|by destruct (silent_life _ _ _ Hl Hok1 Hs1 Hes)].
  injection Happly as <-. exists row. eexists. simpl. rewrite lookup_fmap, He. split_and!; try done.
  all: unfold some_eqb; rewrite Hew, String.eqb_refl, Hinc, bool_decide_eq_true_2 by done; simpl;
    destruct (is_active e) eqn:Ha; done.
Qed.
End Silent.
End Life.
