(* ===== verification/AlertRouting.v ===== *)
(** Delivery of alerts ([services/alert/alert-worker/app.py],
    [domains/alert/delivery.py]) and the channel routes of
    [domains/alert/router.py].

    The texts of the interface are Korean; those the code compares or joins are
    parameters.  What a webhook answers, and whether a URL passes the outbound
    policy when it is used, are inputs. *)

From S2P Require Import Prelude PyString Json EventStore Outbox CommandCatalog.
From S2P Require Import CommandHandler Transactions AlertStore AlertEvaluation AlertRuns.
From Stdlib Require Import QArith.QArith.
From stdpp Require Import pretty.
From coqutil Require Import Datatypes.RecordSettersUsingExistingGetters.
#[global] Open Scope Z_scope.

Arguments RecordSettersUsingExistingGetters.const {E} newValue _ /.

(** ** Bodies *)

Record AlertRequestedBody : Type := {
  ar_cluster_id : string; ar_namespace : string; ar_severity : string; ar_message : string; ar_reason : string;
  ar_next_command : option CommandRequestedBody; ar_workspace_id : string; ar_application_id : string;
  ar_workflow_run_id : string; ar_binding_id : string; ar_environment : string;
  ar_channel_ids : option (list string);
}.

Definition alert_to_body (a : AlertRequestedBody) : odict json :=
  [("cluster_id", JStr (ar_cluster_id a)); ("namespace", JStr (ar_namespace a)); ("severity", JStr (ar_severity a));
   ("message", JStr (ar_message a)); ("reason", JStr (ar_reason a));
   ("next_command", match ar_next_command a with Some c => JObj (command_to_body c) | None => JNull end);
   ("workspace_id", JStr (ar_workspace_id a)); ("application_id", JStr (ar_application_id a));
   ("workflow_run_id", JStr (ar_workflow_run_id a)); ("binding_id", JStr (ar_binding_id a));
   ("environment", JStr (ar_environment a));
   ("channel_ids", match ar_channel_ids a with Some ids => JArr (map JStr ids) | None => JNull end)].

Record AlertDispatchedBody : Type := {
  ad_cluster_id : string; ad_namespace : string; ad_severity : string; ad_channel : string; ad_mode : string;
  ad_workspace_id : string; ad_application_id : string; ad_workflow_run_id : string; ad_binding_id : string;
  ad_environment : string;
}.

(** What the handler of [alert.requested] yields. *)
Inductive alert_output : Type :=
| AlertDispatched (body : AlertDispatchedBody)
| AlertRejected (reason : string) (requested : odict json)
| NextCommand (body : CommandRequestedBody).

Definition dispatched_body (a : AlertRequestedBody) (channel mode : string) : AlertDispatchedBody :=
  {| ad_cluster_id := ar_cluster_id a; ad_namespace := ar_namespace a; ad_severity := ar_severity a;
     ad_channel := channel; ad_mode := mode; ad_workspace_id := ar_workspace_id a;
     ad_application_id := ar_application_id a; ad_workflow_run_id := ar_workflow_run_id a;
     ad_binding_id := ar_binding_id a; ad_environment := ar_environment a |}.

(** ** Sending *)

Inductive http_outcome : Type :=
| Answered (status_code : Z)
| TimedOut
| HttpFailed (class_name : string)
| Raised (error : string).

Record AlertDeliveryResult : Type := { dr_delivered : bool; dr_status_code : option Z; dr_error : string }.

(** [post_alert_webhook]; an exception that is no [httpx.HTTPError] escapes. *)
Definition post_alert_webhook (safe : bool) (answer : http_outcome) : result string AlertDeliveryResult :=
  if safe then
    match answer with
    | Answered code =>
        Ok (if 400 <=? code then {| dr_delivered := false; dr_status_code := Some code; dr_error := "HTTP " +:+ pretty code |}
            else {| dr_delivered := true; dr_status_code := Some code; dr_error := "" |})
    | TimedOut => Ok {| dr_delivered := false; dr_status_code := None; dr_error := "timeout" |}
    | HttpFailed c => Ok {| dr_delivered := false; dr_status_code := None; dr_error := c |}
    | Raised e => Err e
    end
  else Ok {| dr_delivered := false; dr_status_code := None; dr_error := "unsafe_webhook_url" |}.

(** The provider of the environment. *)
Inductive AlertProvider : Type := LogAlertProvider | WebhookAlertProvider.

Definition build_alert_provider (name : string) : result string AlertProvider :=
  let provider := lower (strip name) in
  if String.eqb provider "log" then Ok LogAlertProvider
  else if String.eqb provider "webhook" then Ok WebhookAlertProvider
  else Err "unsupported alert provider".

Definition MISSING_WEBHOOK_URL : string := "ALERT_WEBHOOK_URL".

(** [raise_for_status] accepts the codes of a success only. *)
Definition provider_dispatch (p : AlertProvider) (webhook_url : string) (answer : http_outcome) (a : AlertRequestedBody)
    : result string AlertDispatchedBody :=
  match p with
  | LogAlertProvider => Ok (dispatched_body a "log" "log")
  | WebhookAlertProvider =>
      if String.eqb (strip webhook_url) "" then Err MISSING_WEBHOOK_URL
      else match answer with
           | Answered code =>
               if (200 <=? code) && (code <? 300) then Ok (dispatched_body a "webhook" "webhook") else Err "HTTPStatusError"
           | TimedOut => Err "timeout"
           | HttpFailed e | Raised e => Err e
           end
  end.

(** ** Policy and routing *)

Definition csv_values (value : string) : list string := map lower (csv_items value).

Definition ALERT_SEVERITY_BLOCKED_REASON : string := "alert severity blocked by policy".
Definition AUTO_COMMAND_ENVIRONMENT_DENIED_REASON : string := "auto command not allowed for environment".
Definition ALERT_DISPATCH_FAILED_REASON : string := "alert dispatch failed".
Definition ALERT_SELECTED_CHANNELS_UNAVAILABLE_REASON : string := "selected alert channels unavailable".

Record alert_env : Type := {
  ALERT_BLOCKED_SEVERITIES : string;
  ALERT_AUTO_COMMAND_ENVIRONMENTS : string;
  ALERT_WEBHOOK_URL : string;
  ALERT_PROVIDER : AlertProvider;
}.

(** [None] when the request is allowed, the reason when it is not. *)
Definition check_alert_policy (env : alert_env) (a : AlertRequestedBody) : option string :=
  if bool_decide (lower (strip (ar_severity a)) ∈ csv_values (ALERT_BLOCKED_SEVERITIES env))
  then Some ALERT_SEVERITY_BLOCKED_REASON
  else match ar_next_command a with
       | Some _ =>
           if bool_decide (normalize_environment (Some (ar_environment a)) ∈ csv_values (ALERT_AUTO_COMMAND_ENVIRONMENTS env))
           then None else Some AUTO_COMMAND_ENVIRONMENT_DENIED_REASON
       | None => None
       end.

Definition channel_matches (a : AlertRequestedBody) (c : AlertChannel) : bool :=
  ch_enabled c && severity_matches (ch_min_severity c) (ar_severity a)
  && match ar_channel_ids a with None => true | Some ids => bool_decide (ch_channel_id c ∈ ids) end.

Definition matching_channels (a : AlertRequestedBody) (t : alert_tables) : list AlertChannel :=
  base.filter (fun c => channel_matches a c = true) (list_alert_channels (ar_workspace_id a) false t).

Section Deliver.
(** Per channel: whether its URL is safe now, and its answer. *)
Context (env : alert_env) (safe : AlertChannel -> bool) (answer : AlertChannel -> http_outcome) (global_answer : http_outcome).

Definition dispatch_to_channel (a : AlertRequestedBody) (c : AlertChannel) : result string AlertDispatchedBody :=
  r ← post_alert_webhook (safe c) (answer c);
  if dr_delivered r then Ok (dispatched_body a (ch_name c) "webhook")
  else Err (if String.eqb (dr_error r) "" then "alert webhook failed" else dr_error r).

(** A failing channel does not stop the others. *)
Definition dispatch_all (a : AlertRequestedBody) (cs : list AlertChannel) : list AlertDispatchedBody :=
  omap (fun c => match dispatch_to_channel a c with Ok d => Some d | Err _ => None end) cs.

Definition then_command (a : AlertRequestedBody) : list alert_output :=
  match ar_next_command a with Some c => [NextCommand c] | None => [] end.

Definition on_alert_requested (a : AlertRequestedBody) (t : alert_tables) : list alert_output :=
  match check_alert_policy env a with
  | Some reason => [AlertRejected reason (alert_to_body a)]
  | None =>
      match matching_channels a t with
      | [] =>
          match ar_channel_ids a with
          | Some _ => [AlertRejected ALERT_SELECTED_CHANNELS_UNAVAILABLE_REASON (alert_to_body a)]
          | None =>
              match provider_dispatch (ALERT_PROVIDER env) (ALERT_WEBHOOK_URL env) global_answer a with
              | Ok d => AlertDispatched d :: then_command a
              | Err _ => [AlertRejected ALERT_DISPATCH_FAILED_REASON (alert_to_body a)]
              end
          end
      | channels =>
          match dispatch_all a channels with
          | [] => [AlertRejected ALERT_DISPATCH_FAILED_REASON (alert_to_body a)]
          | delivered => map AlertDispatched delivered ++ then_command a
          end
      end
  end.
End Deliver.

(** ** Staging the transitions of rules ([AlertRuleTransitionNotifier]) *)

Definition RULE_DELIVERY_SEVERITY : odict string :=
  [("critical", "critical"); ("high", "critical"); ("medium", "warning"); ("low", "info"); ("warning", "warning"); ("info", "info")].

Record alert_texts : Type := { tx_resolved : string; tx_firing : string; tx_rule : string; tx_dot : string }.

Definition or_else (s fallback : string) : string := if String.eqb s "" then fallback else s.

Section Notifier.
Context (texts : alert_texts).

(** [str(...)] of a subject's field; another type than a string is the model's
    own error. *)
Definition subject_text (subject : odict json) (key fallback : string) : result alert_error string :=
  match dict_get key subject with
  | None | Some JNull => Ok fallback
  | Some (JStr s) => Ok (or_else s fallback)
  | Some _ => Err StagingFailed
  end.

Definition alert_request_for_rule_transition (tr : alert_transition) : result alert_error AlertRequestedBody :=
  let e := tr_event tr in
  let state_label := if String.eqb (tr_transition tr) "resolved" then tx_resolved texts else tx_firing texts in
  let rule_name := or_else (default "" (ae_rule_name e)) (or_else (default "" (ae_rule_id e)) (tx_rule texts)) in
  cluster ← subject_text (ae_subject e) "cluster" "unknown";
  ns ← subject_text (ae_subject e) "namespace" "";
  Ok {| ar_cluster_id := cluster; ar_namespace := ns;
        ar_severity := default "warning" (dict_get (lower (strip (or_else (ae_severity e) "warning"))) RULE_DELIVERY_SEVERITY);
        ar_message := rule_name +:+ tx_dot texts +:+ state_label;
        ar_reason := "alert rule " +:+ or_else (tr_transition tr) "firing";
        ar_next_command := None; ar_workspace_id := or_else (ae_workspace_id e) "default"; ar_application_id := "";
        ar_workflow_run_id := ""; ar_binding_id := ""; ar_environment := "sandbox";
        ar_channel_ids := Some (tr_channel_ids tr) |}.

(** [stage]: no event for a rule without channels.  [fresh_id] and [clock] are
    the envelope's. *)
Definition transition_envelope (fresh_id clock : string) (current_workspace : option string) (tr : alert_transition)
    (body : AlertRequestedBody) : EventEnvelope :=
  make_event fresh_id clock current_workspace "alert.requested" "alert-worker" (alert_to_body body)
    (Some (ae_event_id (tr_event tr))) None (Some (ar_workspace_id body)).

Definition stage_transition (now : Z) (fresh_id clock : string) (current_workspace : option string)
    (tr : alert_transition) (b : tables) : result alert_error tables :=
  body ← alert_request_for_rule_transition tr;
  match ar_channel_ids body with
  | Some [] => Ok b
  | _ =>
      let envelope := transition_envelope fresh_id clock current_workspace tr body in
      Ok (stage_events [envelope] (record_event now envelope b))
  end.

Definition AlertRuleTransitionNotifier (now : Z) (fresh_id clock : string) (current_workspace : option string) : notifier :=
  {| nt_stage := Some (stage_transition now fresh_id clock current_workspace);
     nt_call := fun tr => write (fun t =>
       b ← stage_transition now fresh_id clock current_workspace tr (al_bus t); Ok (t <| al_bus := b |>)) |}.
End Notifier.

(** ** The channel routes *)

Inductive route_error : Type :=
| HTTPException (status_code : Z) (detail : string)
| Unhandled (e : alert_error).

Abbreviation route A := (prog alert_tables route_error A) (only parsing).

Definition CHANNEL_NOT_FOUND : string := "alert channel not found".

(** A repository call in its transaction; [LookupError] becomes a 404. *)
Definition channel_call {A} (f : alert_tables -> result alert_error (alert_tables * A)) : route A :=
  tx (fun t => match f t with
               | Ok r => Ok r
               | Err (LookupError _) => Err (HTTPException 404 CHANNEL_NOT_FOUND)
               | Err e => Err (Unhandled e)
               end).

Definition require_alert_channel_activation_test (p : channel_payload) (workspace_id : string) : route unit :=
  if negb (cp_enabled p) then Ret tt
  else if String.eqb (cp_channel_id p) "" then
    Raise (HTTPException 409 "save the alert channel disabled, test delivery, then enable it")
  else
    existing ← read (get_alert_channel workspace_id (cp_channel_id p));
    match existing with
    | None => Raise (HTTPException 404 CHANNEL_NOT_FOUND)
    | Some c =>
        if negb (String.eqb (ch_url c) (cp_url p)) then
          Raise (HTTPException 409 "test the updated webhook URL before enabling the alert channel")
        else if negb (String.eqb (lower (default "" (ch_last_test_status c))) "passed") then
          Raise (HTTPException 409 "a successful alert channel delivery test is required before enabling it")
        else Ret tt
    end.

Definition in_workspace (workspace_id : string) (p : channel_payload) : channel_payload :=
  {| cp_channel_id := cp_channel_id p; cp_workspace_id := workspace_id; cp_name := cp_name p; cp_kind := cp_kind p;
     cp_url := cp_url p; cp_min_severity := cp_min_severity p; cp_enabled := cp_enabled p |}.

(** [upsert_alert_channel] of the router; [url_ok] is the verdict of
    [validate_outbound_url_syntax]. *)
Definition upsert_alert_channel_route (url_ok : string -> bool) (workspace_id drawn : string) (p : channel_payload)
    : route AlertChannel :=
  if url_ok (cp_url p) then
    _ ← require_alert_channel_activation_test p workspace_id;
    channel_call (upsert_alert_channel drawn (in_workspace workspace_id p))
  else Raise (HTTPException 422 "unsafe_webhook_url").

Definition record_channel_test_result (now : Z) (workspace_id channel_id status detail : string) (status_code : option Z)
    : route (option AlertChannel) :=
  if String.eqb channel_id "" then Ret None
  else c ← channel_call (record_alert_channel_test now workspace_id channel_id status detail status_code); Ret (Some c).

Record AlertChannelTestRequest : Type := {
  ct_channel_id : string; ct_url : string; ct_severity : string; ct_message : string;
}.

Record AlertChannelTestResponse : Type := {
  tr_delivered : bool; tr_code : option string; tr_status_code : option Z; tr_channel : option AlertChannel;
}.

(** [test_alert_channel]: posts to the URL of the request.  [sent] and
    [not_sent] are its texts. *)
Definition test_alert_channel (now : Z) (sent not_sent unsafe : string) (url_safe : string -> bool)
    (answer : string -> http_outcome) (workspace_id : string) (p : AlertChannelTestRequest)
    : route AlertChannelTestResponse :=
  match post_alert_webhook (url_safe (ct_url p)) (answer (ct_url p)) with
  | Err e => Raise (Unhandled (AlertValueError e))
  | Ok r =>
      if dr_delivered r then
        c ← record_channel_test_result now workspace_id (ct_channel_id p) "passed" sent (dr_status_code r);
        Ret {| tr_delivered := true; tr_code := None; tr_status_code := dr_status_code r; tr_channel := c |}
      else
        let is_unsafe := String.eqb (dr_error r) "unsafe_webhook_url" in
        let code := if is_unsafe then "unsafe_webhook_url"
                    else if String.eqb (dr_error r) "timeout" then "timeout" else "delivery_failed" in
        c ← record_channel_test_result now workspace_id (ct_channel_id p) "failed" (if is_unsafe then unsafe else not_sent)
              (dr_status_code r);
        Ret {| tr_delivered := false; tr_code := Some code; tr_status_code := dr_status_code r; tr_channel := c |}
  end.

(** ** What the worker sends *)

Section Sends.
Context (env : alert_env) (safe : AlertChannel -> bool) (answer : AlertChannel -> http_outcome) (global_answer : http_outcome).
Let outputs := on_alert_requested env safe answer global_answer.

Lemma dispatch_all_elem a cs d :
  d ∈ dispatch_all safe answer a cs -> exists c, c ∈ cs /\ dispatch_to_channel safe answer a c = Ok d.
Proof.
  unfold dispatch_all. rewrite list_elem_of_omap. intros (c & Hc & Hd). exists c. split; [done|].
  by destruct (dispatch_to_channel safe answer a c); simplify_eq.
Qed.

Lemma dispatch_ok a c d :
  dispatch_to_channel safe answer a c = Ok d ->
  d = dispatched_body a (ch_name c) "webhook" /\ safe c = true /\ exists code, answer c = Answered code /\ code < 400.
Proof.
  unfold dispatch_to_channel, post_alert_webhook. destruct (safe c); [|discriminate].
  destruct (answer c) as [code| | |]; try discriminate. simpl. destruct (400 <=? code) eqn:Hcode; [discriminate|].
  intros [= <-]. bool_to_prop. eauto.
Qed.

(** A request gets one verdict.  Either it is rejected, once, with its own
    body and nothing else follows; or at least one delivery was confirmed, every
    confirmed delivery is reported, and only then does the command it guards
    follow. *)
Theorem alert_verdict a t :
  (exists reason, outputs a t = [AlertRejected reason (alert_to_body a)]) \/
  (exists ds, ds <> [] /\ outputs a t = map AlertDispatched ds ++ then_command a /\
     check_alert_policy env a = None /\
     (matching_channels a t <> [] -> ds = dispatch_all safe answer a (matching_channels a t))).
Proof.
  unfold outputs, on_alert_requested. destruct (check_alert_policy env a) as [reason|]; [left; eauto|].
  destruct (matching_channels a t) as [|c cs].
  - destruct (ar_channel_ids a); [left; eauto|].
    destruct (provider_dispatch _ _ _ _) as [d|]; [|left; eauto]. right. by exists [d].
  - destruct (dispatch_all safe answer a (c :: cs)) as [|d ds] eqn:Hd; [left; eauto|]. right. by exists (d :: ds).
Qed.

(** C27. A request that selects channels reaches these only: every delivery it
    reports went to an enabled channel of its workspace that it selects, whose
    severity threshold it meets and whose URL was safe when it answered with no
    error; without such a channel the request is rejected, never passed to the
    provider of the environment. *)
Theorem selected_channels_only a t ids d :
  ar_channel_ids a = Some ids -> AlertDispatched d ∈ outputs a t ->
  exists c, c ∈ list_alert_channels (ar_workspace_id a) false t /\ ch_enabled c = true /\ ch_channel_id c ∈ ids /\
    severity_matches (ch_min_severity c) (ar_severity a) = true /\ safe c = true /\
    (exists code, answer c = Answered code /\ code < 400) /\ d = dispatched_body a (ch_name c) "webhook".
Proof.
  intros Hids Hin. assert (d ∈ dispatch_all safe answer a (matching_channels a t)) as Hd.
  { unfold outputs, on_alert_requested in Hin. rewrite Hids in Hin.
    destruct (check_alert_policy env a); [set_solver|]. destruct (matching_channels a t) as [|c cs]; [set_solver|].
    destruct (dispatch_all safe answer a (c :: cs)) as [|d0 ds]; [set_solver|].
    apply elem_of_app in Hin as [Hin|Hin].
    - apply list_elem_of_fmap in Hin as (d1 & [= <-] & Hin). done.
    - unfold then_command in Hin. destruct (ar_next_command a); set_solver. }
  apply dispatch_all_elem in Hd as (c & Hc & Hd). apply dispatch_ok in Hd as (-> & Hsafe & Hcode).
  unfold matching_channels in Hc. apply list_elem_of_filter in Hc as [Hm Hc]. exists c. unfold channel_matches in Hm.
  rewrite Hids in Hm. bool_to_prop. by split_and!.
Qed.
End Sends.

(** ** A staged transition *)

Section Staged.
Context (texts : alert_texts) (now : Z) (fresh_id clock : string) (current_workspace : option string).
Let stage := stage_transition texts now fresh_id clock current_workspace.

(** What a transition puts into the outbox. *)
Definition staged_envelopes (tr : alert_transition) : list EventEnvelope :=
  match alert_request_for_rule_transition texts tr with
  | Ok body =>
      match ar_channel_ids body with
      | Some [] => []
      | _ => [transition_envelope fresh_id clock current_workspace tr body]
      end
  | Err _ => []
  end.

Lemma stage_outbox tr b b' :
  stage tr b = Ok b' -> (forall row, row ∈ outbox b -> event_id (o_event row) <> fresh_id) ->
  map o_event (outbox b') = map o_event (outbox b) ++ staged_envelopes tr.
Proof.
  unfold stage, stage_transition, staged_envelopes. intros (body & -> & Hb)%result_bind_inv Hfresh.
  assert (forall evt, event_id evt = fresh_id ->
    map o_event (outbox (stage_events [evt] (record_event now evt b))) = map o_event (outbox b) ++ [evt]) as Hst.
  { intros evt Hid. assert (outbox (record_event now evt b) = outbox b) as Hout by (unfold record_event; by destruct (events b !! _)).
    unfold stage_events. simpl. unfold stage_event. rewrite Hout.
    assert (existsb (fun r => String.eqb (event_id (o_event r)) (event_id evt)) (outbox b) = false) as ->.
    { apply not_true_is_false. intros (row & Hrow & Heq)%existsb_exists. apply String.eqb_eq in Heq.
      apply (Hfresh row); [by apply list_elem_of_In|congruence]. }
    simpl. by rewrite map_app. }
  destruct (ar_channel_ids body) as [[|]|]; injection Hb as <-; [by rewrite app_nil_r|apply Hst; reflexivity..].
Qed.

Lemma stage_with_some f e t t' :
  stage_with (Some f) e t = Ok t' -> exists b, f e (al_bus t) = Ok b /\ t' = t <| al_bus := b |>.
Proof. intros (b & Hb & [= <-])%result_bind_inv. by exists b. Qed.

Lemma insert_event_created s event t t' saved :
  insert_active_event now s event t = Ok (t', (saved, true)) ->
  saved = event <| ae_updated_at := now |> /\ t' = t <| al_events ::= <[ae_event_id event := saved]> |>.
Proof.
  unfold insert_active_event. destruct (match ae_rule_id event with Some _ => _ | None => _ end).
  - by destruct (rows _) as [|? [|]].
  - destruct (al_events t !! ae_event_id event); [discriminate|]. by intros [= <- <-].
Qed.

Lemma resolve_staged ws r k id v ev at_ f t t' e :
  resolve_alert_rule_event ws r k id v ev at_ (Some f) t = Ok (t', Some e) ->
  exists b, f e (al_bus t) = Ok b /\ al_bus t' = b /\ al_events t' !! id = Some e /\ ae_status e = resolved /\
    forall row, get_alert_rule_target_state ws r k t = Some row -> al_states t' !! (r, k) = Some (clear_state v ev at_ row).
Proof.
  unfold resolve_alert_rule_event. destruct (get_event ws id t) as [e0|]; [|discriminate].
  destruct (is_active e0); [|discriminate]. intros (t1 & (b & Hb & ->)%stage_with_some & [= <- <-])%result_bind_inv.
  change (get_alert_rule_target_state ws r k (t <| al_events ::= _ |>)) with (get_alert_rule_target_state ws r k t) in *.
  exists b. destruct (get_alert_rule_target_state ws r k t) as [row|]; simpl in *; split_and!; try done.
  - apply lookup_insert_eq.
  - intros row' [= <-]. apply lookup_insert_eq.
  - apply lookup_insert_eq.
Qed.

End Staged.

(** ** The activation gate of channels *)

Lemma get_alert_channel_some ws cid t c :
  get_alert_channel ws cid t = Some c -> al_channels t !! cid = Some c /\ ch_workspace_id c = ws.
Proof.
  unfold get_alert_channel. destruct (al_channels t !! cid) as [c0|]; [|discriminate]. simpl.
  destruct (String.eqb_spec (ch_workspace_id c0) ws); [|discriminate]. by intros [= <-].
Qed.

Lemma get_alert_channel_insert ws cid t c :
  ch_workspace_id c = ws -> get_alert_channel ws cid (t <| al_channels ::= <[cid := c]> |>) = Some c.
Proof. intros Hw. unfold get_alert_channel. simpl. rewrite lookup_insert_eq. simpl. by rewrite Hw, String.eqb_refl. Qed.

(** The test that opens the gate need not be one of the channel's URL: a
    delivery test names a channel and a URL, posts to that URL and records its
    verdict on the channel.  So a channel whose own URL does not even answer can
    be enabled after a successful test of any other address. *)
Theorem untested_url_enabled now sent not_sent unsafe url_ok url_safe answer ws drawn t c p v code severity message :
  get_alert_channel ws (cp_channel_id p) t = Some c -> cp_channel_id p <> "" ->
  cp_url p = ch_url c -> cp_enabled p = true -> url_ok (cp_url p) = true ->
  url_safe v = true -> answer v = Answered code -> code < 400 -> answer (ch_url c) = TimedOut ->
  exists resp t1 c' t2,
    alone (test_alert_channel now sent not_sent unsafe url_safe answer ws
             {| ct_channel_id := cp_channel_id p; ct_url := v; ct_severity := severity; ct_message := message |}) t = (Ok resp, t1) /\
    alone (upsert_alert_channel_route url_ok ws drawn p) t1 = (Ok c', t2) /\
    get_alert_channel ws (cp_channel_id p) t2 = Some c' /\ ch_enabled c' = true /\ ch_url c' = ch_url c /\
    ch_last_test_status c' = Some "passed".
Proof.
  intros Hc Hid Hurl Hen Hok Hsafe Hans Hcode _. pose proof (get_alert_channel_some _ _ _ _ Hc) as [Hl Hw].
  set (c1 := c <| ch_last_tested_at := Some now |> <| ch_last_test_status := Some "passed" |>
               <| ch_last_test_detail := Some sent |> <| ch_last_test_status_code := Some code |>).
  set (t1 := t <| al_channels ::= <[cp_channel_id p := c1]> |>).
  assert (get_alert_channel ws (cp_channel_id p) t1 = Some c1) as Hc1 by (by apply get_alert_channel_insert).
  assert (forall resp_of, alone (r ← record_channel_test_result now ws (cp_channel_id p) "passed" sent (Some code); Ret (resp_of r)) t
    = (Ok (resp_of (Some c1) : AlertChannelTestResponse), t1)) as Htest.
  { intros resp_of. unfold record_channel_test_result. rewrite (proj2 (String.eqb_neq _ _) Hid). cbn.
    unfold record_alert_channel_test. by rewrite Hc. }
  eexists _, t1. unfold test_alert_channel. cbn [ct_url ct_channel_id]. unfold post_alert_webhook. rewrite Hsafe, Hans.
  destruct (400 <=? code) eqn:H400; [bool_to_prop; lia|]. cbn [dr_delivered dr_status_code].
  rewrite Htest. assert (alone (require_alert_channel_activation_test p ws) t1 = (Ok tt, t1)) as Hgate.
  { unfold require_alert_channel_activation_test. rewrite Hen, (proj2 (String.eqb_neq _ _) Hid). cbn [negb].
    rewrite alone_bind. cbn [read tx alone]. rewrite Hc1. cbn [ch_url c1 negb]. rewrite Hurl.
    change (ch_url c1) with (ch_url c). by rewrite String.eqb_refl. }
  unfold upsert_alert_channel_route. rewrite Hok, alone_bind, Hgate. unfold channel_call, upsert_alert_channel.
  cbn [tx alone cp_channel_id cp_workspace_id cp_url in_workspace]. rewrite (proj2 (String.eqb_neq _ _) Hid).
  change (al_channels t1) with (<[cp_channel_id p := c1]> (al_channels t)). rewrite lookup_insert_eq.
  change (ch_workspace_id c1) with (ch_workspace_id c). change (ch_url c1) with (ch_url c).
  rewrite Hw, String.eqb_refl, Hurl, String.eqb_refl. cbn [negb alone].
  eexists _, _. split; [done|]. split; [done|]. rewrite get_alert_channel_insert by done. done.
Qed.
