(* ===== verification/AlertService.v ===== *)
(** Alert events that no rule makes, and what operators do with events
    ([domains/alert/incidents.py], [service.py], the event routes and the event
    stream of [router.py]). *)

From S2P Require Import Prelude PyString Json EventStore Outbox Transactions AlertStore AlertEvaluation AlertRuns AlertRouting.
From Stdlib Require Import QArith.QArith.
From stdpp Require Import relations.
From coqutil Require Import Datatypes.RecordSettersUsingExistingGetters.
#[global] Open Scope Z_scope.

Arguments RecordSettersUsingExistingGetters.const {E} newValue _ /.

(** ** Confirmed incidents *)

Record IncidentRecord : Type := {
  ir_incident_id : string; ir_cluster_id : string; ir_resource_kind : string; ir_resource_name : string;
  ir_namespace : option string; ir_symptom : string; ir_severity : string; ir_first_seen_at : option string;
  ir_summary : string; ir_category : option string; ir_workspace_id : string;
}.

Record IncidentDetectedBody : Type := {
  id_detected : bool; id_workspace_id : string; id_severity : option string; id_incident : option IncidentRecord;
}.

Definition ALERT_EVENT_SEVERITIES : list string := ["critical"; "high"; "medium"; "low"; "warning"; "info"].

(** [s[:n]]. *)
Definition clip (n : nat) (s : string) : string := String.substring 0 n s.

Definition _incident_subject (i : IncidentRecord) : odict json :=
  [("cluster", JStr (clip 512 (or_else (strip (ir_cluster_id i)) "unknown")));
   ("namespace", match ir_namespace i with
                 | Some ns => if String.eqb (strip ns) "" then JNull else JStr (clip 253 (strip ns))
                 | None => JNull
                 end);
   ("kind", JStr (clip 253 (or_else (strip (ir_resource_kind i)) "Workload")));
   ("name", JStr (clip 253 (or_else (strip (ir_resource_name i)) "unknown")))].

Definition _incident_severity (value : string) : string :=
  let severity := lower (strip (or_else value "warning")) in
  if bool_decide (severity ∈ ALERT_EVENT_SEVERITIES) then severity else "warning".

Section Incidents.
Context (sha256_hex : string -> string) (isoformat : Z -> string).
(** [datetime.fromisoformat] with UTC for a time without a zone; [None] where it
    raises. *)
Context (timestamp : string -> option Z).

Definition incident_alert_event_id (workspace_id incident_id : string) : string :=
  "ale-inc-" +:+ clip 32 (sha256_hex (workspace_id +:+ "|" +:+ incident_id +:+ "|incident")).

Definition _incident_timestamp (value : option string) : option Z :=
  s ← value; if String.eqb s "" then None else timestamp (str_replace "Z" "+00:00" s).

(** [kind] and [name] of the subject as text. *)
Definition subject_field (key : string) (subject : odict json) : string :=
  match dict_get key subject with Some (JStr s) => s | _ => "" end.

(** [now] is [datetime.now(UTC)]. *)
Definition build_incident_alert_event (now : Z) (evt : IncidentDetectedBody) : result alert_error AlertEvent :=
  match id_detected evt, id_incident evt with
  | true, Some i =>
      let workspace_id := or_else (strip (or_else (id_workspace_id evt) (ir_workspace_id i))) "default" in
      let fired_at := default now (_incident_timestamp (ir_first_seen_at i)) in
      let subject := _incident_subject i in
      let summary := clip 1000 (or_else (strip (ir_summary i))
        (subject_field "kind" subject +:+ " " +:+ subject_field "name" subject +:+ " has " +:+ ir_symptom i)) in
      let symptom := clip 120 (or_else (or_else (strip (ir_symptom i)) (default "" (ir_category i))) "Incident") in
      Ok {| ae_event_id := incident_alert_event_id workspace_id (ir_incident_id i); ae_workspace_id := workspace_id;
            ae_rule_id := None; ae_rule_name := Some symptom; ae_source := "incident";
            ae_severity := _incident_severity (or_else (ir_severity i) (default "" (id_severity evt)));
            ae_subject_key := subject_key sha256_hex subject; ae_subject := subject; ae_fired_at := fired_at;
            ae_resolved_at := None; ae_status := firing; ae_observed_value := None; ae_threshold := None;
            ae_series_identity := None;
            ae_evidence := [[("type", JStr "incident"); ("metric", JStr symptom); ("observed_at", JStr (isoformat fired_at));
                             ("subject", JObj subject); ("value", JNull); ("summary", JStr summary); ("link", JNull)]];
            ae_incident_id := Some (ir_incident_id i); ae_acknowledged_at := None; ae_acknowledged_by := None;
            ae_promoted_at := None; ae_promoted_by := None; ae_updated_at := now |}
  | _, _ => Err (AlertValueError "a confirmed incident is required")
  end.

(** [on_incident_detected]: nothing for an incident that was not confirmed. *)
Definition persist_incident_alert_event (now : Z) (evt : IncidentDetectedBody) (t : alert_tables)
    : result alert_error (alert_tables * option AlertEvent) :=
  match id_detected evt, id_incident evt with
  | true, Some i =>
      e ← build_incident_alert_event now evt;
      match upsert_incident_alert_event now (ir_incident_id i) e t with
      | Ok (t, e) => Ok (t, Some e)
      | Err err => Err err
      end
  | _, _ => Ok (t, None)
  end.
End Incidents.

(** [on_incident_resolved]. *)
Definition resolve_incident_alert_event (now : Z) (workspace_id incident_id : string) (t : alert_tables) : alert_tables * nat :=
  resolve_incident_alert_events now workspace_id incident_id t.

(** ** Operators *)

Definition ALERT_EVENT_NOT_FOUND : string := "alert event not found".

(** The route of [acknowledge_alert_event_occurrence]. *)
Definition acknowledge_alert_event_route (now : Z) (workspace_id actor_id event_id : string) : route AlertEvent :=
  saved ← tx (fun t => match acknowledge_alert_event now workspace_id event_id actor_id t with
                       | Ok r => Ok r
                       | Err (AlertValueError m) => Err (HTTPException 409 m)
                       | Err e => Err (Unhandled e)
                       end);
  match saved with None => Raise (HTTPException 404 ALERT_EVENT_NOT_FOUND) | Some e => Ret e end.

(** The route of [promote_alert_event_occurrence]: the evidence of a first
    promotion is accepted in the transaction that records it. *)
Definition promote_alert_event_route (now : Z) (workspace_id actor_id event_id drawn : string)
    (accept : AlertEvent -> string -> tables -> result alert_error tables) : route string :=
  incident ← tx (fun t =>
    match promote_alert_event now workspace_id event_id ("inc-alert-" +:+ drawn) actor_id t with
    | Err e => Err (Unhandled e)
    | Ok (t, None) => Err (HTTPException 404 ALERT_EVENT_NOT_FOUND)
    | Ok (t, Some (saved, created)) =>
        match ae_incident_id saved with
        | None | Some "" => Err (Unhandled (AlertValueError "promoted alert event is missing an incident id"))
        | Some incident_id =>
            if (created : bool) then
              match accept saved incident_id (al_bus t) with
              | Ok b => Ok (t <| al_bus := b |>, incident_id)
              | Err e => Err (Unhandled e)
              end
            else Ok (t, incident_id)
        end
    end);
  Ret incident.

(** [_require_workspace_channels]: the first channel that is missing. *)
Fixpoint require_workspace_channels (workspace_id : string) (channel_ids : list string) : route unit :=
  match channel_ids with
  | [] => Ret tt
  | channel_id :: rest =>
      c ← read (get_alert_channel workspace_id channel_id);
      match c with
      | None => Raise (HTTPException 422 "alert_channel_not_found")
      | Some _ => require_workspace_channels workspace_id rest
      end
  end.

Definition rule_call {A} (f : alert_tables -> result alert_error (alert_tables * A)) : route A :=
  tx (fun t => match f t with Ok r => Ok r | Err e => Err (Unhandled e) end).

Definition create_alert_rule_route (now : Z) (workspace_id actor_id drawn : string) (payload : AlertRule) : route string :=
  _ ← require_workspace_channels workspace_id (ru_channels payload);
  saved ← rule_call (create_alert_rule now (payload <| ru_rule_id := "alr-" +:+ drawn |> <| ru_workspace_id := workspace_id |>
                                                  <| ru_created_by := actor_id |>));
  Ret (ru_rule_id saved).

Definition update_alert_rule_route (now : Z) (workspace_id rule_id : string) (p : rule_changes) : route AlertRule :=
  _ ← require_workspace_channels workspace_id (default [] (pc_channels p));
  saved ← rule_call (fun t => Ok (update_alert_rule now workspace_id rule_id p t));
  match saved with None => Raise (HTTPException 404 "alert rule not found") | Some r => Ret r end.

Definition delete_alert_rule_route (workspace_id rule_id : string) : route unit :=
  gone ← rule_call (fun t => Ok (delete_alert_rule workspace_id rule_id t));
  if (gone : bool) then Ret tt else Raise (HTTPException 404 "alert rule not found").

Definition delete_alert_channel_route (workspace_id channel_id : string) : route unit :=
  gone ← rule_call (fun t => Ok (delete_alert_channel workspace_id channel_id t));
  if (gone : bool) then Ret tt else Raise (HTTPException 404 CHANNEL_NOT_FOUND).

(** ** The event stream *)

Definition ALERT_EVENT_MAX_LIMIT : nat := 200.

Definition open_query : event_query :=
  {| eq_from_time := None; eq_to_time := None; eq_rule_id := None; eq_rule_name := None; eq_source := None;
     eq_incident_ids := None; eq_event_ids := None; eq_subject_key := None; eq_severity := None; eq_status := None |}.

Definition _alert_event_signature (e : AlertEvent) : string * Z := (ae_event_id e, ae_updated_at e).

(** One poll: the rows that changed since the last, oldest first, and the
    signatures seen now. *)
Definition stream_poll (workspace_id : string) (seen : list (string * Z)) (t : alert_tables)
    : list AlertEvent * list (string * Z) :=
  let rows := list_alert_events workspace_id open_query ALERT_EVENT_MAX_LIMIT t in
  (base.filter (fun e => _alert_event_signature e ∉ seen) (reverse rows), map _alert_event_signature rows).

(** The frames of the polls at the given tables. *)
Fixpoint alert_event_stream (workspace_id : string) (seen : list (string * Z)) (polls : list alert_tables)
    : list (list AlertEvent) :=
  match polls with
  | [] => []
  | t :: polls => let '(changed, seen) := stream_poll workspace_id seen t in changed :: alert_event_stream workspace_id seen polls
  end.

Lemma stream_shows workspace_id seen polls i t e :
  polls !! i = Some t -> e ∈ list_alert_events workspace_id open_query ALERT_EVENT_MAX_LIMIT t ->
  _alert_event_signature e ∈ seen \/
  exists j frame e', (j <= i)%nat /\ alert_event_stream workspace_id seen polls !! j = Some frame /\ e' ∈ frame /\
    _alert_event_signature e' = _alert_event_signature e.
Proof.
  revert seen i. induction polls as [|t0 polls IH]; intros seen i Ht He; [done|]. destruct i as [|i]; simpl in Ht.
  - injection Ht as ->. destruct (decide (_alert_event_signature e ∈ seen)) as [|Hnew]; [by left|right].
    exists 0%nat. eexists _, e. split; [done|]. split; [done|]. split; [|done].
    apply list_elem_of_filter. split; [done|]. by apply elem_of_reverse.
  - destruct (IH (stream_poll workspace_id seen t0).2 i Ht He) as [Hin|(j & frame & e' & Hj & Hf & He' & Hs)].
    + simpl in Hin. apply list_elem_of_fmap in Hin as (e0 & Hsig & He0).
      destruct (decide (_alert_event_signature e ∈ seen)) as [|Hnew]; [by left|right].
      exists 0%nat. eexists _, e0. split; [lia|]. split; [done|]. split; [|done].
      apply list_elem_of_filter. split; [by rewrite <- Hsig|]. by apply elem_of_reverse.
    + right. exists (S j), frame, e'. split; [lia|]. by split_and!.
Qed.

(** The stream keeps a browser current: whatever a poll finds in the listing
    of the workspace has been sent, in that version, by that poll or an earlier
    one. *)
Theorem alert_stream_current workspace_id polls i t e :
  polls !! i = Some t -> e ∈ list_alert_events workspace_id open_query ALERT_EVENT_MAX_LIMIT t ->
  exists j frame e', (j <= i)%nat /\ alert_event_stream workspace_id [] polls !! j = Some frame /\ e' ∈ frame /\
    _alert_event_signature e' = _alert_event_signature e.
Proof. intros Ht He. destruct (stream_shows workspace_id [] polls i t e Ht He) as [Hin|H]; [by apply not_elem_of_nil in Hin|done]. Qed.

(** ** Incidents are recorded once *)

Definition linked (ws incident : string) (t : alert_tables) : Prop :=
  exists id e, al_events t !! id = Some e /\ ae_workspace_id e = ws /\ ae_incident_id e = Some incident.

Lemma linked_put ws incident e0 e t :
  al_events t !! ae_event_id e0 = Some e0 -> ae_event_id e = ae_event_id e0 -> ae_workspace_id e = ae_workspace_id e0 ->
  (ae_incident_id e0 = Some incident -> ae_incident_id e = Some incident) ->
  linked ws incident t -> linked ws incident (t <| al_events ::= <[ae_event_id e := e]> |>).
Proof.
  intros H0 Hid Hws Hinc (id & e1 & He1 & Hw1 & Hi1). unfold linked. simpl.
  destruct (decide (ae_event_id e = id)) as [<-|Hne].
  - exists (ae_event_id e), e. rewrite lookup_insert_eq. rewrite Hid in He1. simplify_eq. split_and!; [done|done|auto].
  - exists id, e1. by rewrite lookup_insert_ne.
Qed.

Lemma linked_new ws incident e t :
  al_events t !! ae_event_id e = None -> linked ws incident t -> linked ws incident (t <| al_events ::= <[ae_event_id e := e]> |>).
Proof. intros H0 (id & e1 & He1 & H). exists id, e1. simpl. rewrite lookup_insert_ne; [done|]. congruence. Qed.

(** An external alert of its own, not a report on an event already there. *)
Definition external_is_new (op : alert_op) (t : alert_tables) : Prop :=
  match op with UpsertExternal _ e => al_events t !! ae_event_id e = None | _ => True end.

Lemma linked_events ws incident t t' : al_events t' = al_events t -> linked ws incident t -> linked ws incident t'.
Proof. unfold linked. by intros ->. Qed.

Lemma linked_op ws incident op t t' :
  incident <> "" -> keyed (al_events t) -> external_is_new op t -> apply_op op t = Ok t' ->
  linked ws incident t -> linked ws incident t'.
Proof.
  intros Hne Hk Hnew Happly Hl. destruct op; simpl in *.
  1-6: by (eapply linked_events; [|exact Hl];
      unfold upsert_alert_channel, delete_alert_channel, record_alert_channel_test, create_alert_rule, update_alert_rule,
        delete_alert_rule in Happly; repeat break).
  - unfold upsert_external_alert_event in Happly. rewrite Hnew in Happly. apply first_put in Happly as ->. by apply linked_new.
  - unfold upsert_incident_alert_event in Happly. destruct (order_by _ _); [|by simplify_eq/=].
    destruct (al_events t !! ae_event_id event) eqn:He; [by destruct (get_event _ _ _); simplify_eq/=|].
    apply first_put in Happly as ->. by apply linked_new.
  - unfold acknowledge_alert_event in Happly. destruct (get_event _ _ _) as [e|] eqn:He; [|by simplify_eq/=].
    apply get_event_some in He as [He _]. destruct (ae_status e); [|by simplify_eq/=|discriminate].
    apply first_put in Happly as ->. eapply (linked_put _ _ e); [by rewrite (Hk _ _ He)|done..].
  - injection Happly as <-. destruct Hl as (id & e & He & Hw & Hi). eexists id, _. simpl. rewrite lookup_fmap, He.
    split; [done|]. by destruct (String.eqb _ _ && _ && _).
  - unfold promote_alert_event in Happly. destruct (get_event _ _ _) as [e|] eqn:He; [|by simplify_eq/=].
    apply get_event_some in He as [He _]. destruct (ae_incident_id e) as [i|] eqn:Hi.
    + destruct (String.eqb_spec i "") as [->|]; simpl in Happly; [|by simplify_eq/=].
      apply first_put in Happly as ->. eapply (linked_put _ _ e); [by rewrite (Hk _ _ He)|done|done|congruence|done].
    + apply first_put in Happly as ->. eapply (linked_put _ _ e); [by rewrite (Hk _ _ He)|done|done|congruence|done].
  - by simplify_eq/=.
Qed.

Lemma order_by_elem {A} (before : A -> A -> bool) x l : x ∈ order_by before l <-> x ∈ l.
Proof.
  assert (forall y l, x ∈ insert_ordered before y l <-> x = y \/ x ∈ l) as Hins.
  { intros y l'. induction l' as [|z l' IH]; simpl; [set_solver|]. destruct (before y z); [set_solver|].
    rewrite elem_of_cons, IH. set_solver. }
  unfold order_by. induction l as [|y l IH]; simpl; [done|]. rewrite Hins, IH, elem_of_cons. done.
Qed.

Lemma rows_elem {A} (m : gmap string A) x : x ∈ rows m <-> exists id, m !! id = Some x.
Proof.
  unfold rows. rewrite list_elem_of_fmap. split.
  - intros ((id & y) & -> & H%elem_of_map_to_list). by exists id.
  - intros (id & H). exists (id, x). split; [done|]. by apply elem_of_map_to_list.
Qed.

Lemma linked_replay now incident e t t' x :
  linked (ae_workspace_id e) incident t -> upsert_incident_alert_event now incident e t = Ok (t', x) ->
  t' = t /\ ae_incident_id x = Some incident.
Proof.
  intros (id & e0 & He0 & Hw & Hi). unfold upsert_incident_alert_event.
  destruct (order_by _ _) as [|y l] eqn:Ho.
  - assert (e0 ∈ ([] : list AlertEvent)) as Hin; [|by apply not_elem_of_nil in Hin]. rewrite <- Ho, order_by_elem.
    apply list_elem_of_filter. split; [done|]. apply rows_elem. by exists id.
  - intros [= <- <-]. split; [done|]. assert (y ∈ y :: l) as Hin by set_solver. rewrite <- Ho, order_by_elem in Hin.
    by apply list_elem_of_filter in Hin as [[_ ?] _].
Qed.

Lemma upsert_incident_linked now incident e t t' x :
  ae_incident_id e = Some incident -> upsert_incident_alert_event now incident e t = Ok (t', x) ->
  al_events t !! ae_event_id e = None -> linked (ae_workspace_id e) incident t'.
Proof.
  intros Hi Hup Hnone. unfold upsert_incident_alert_event in Hup. destruct (order_by _ _) as [|y l] eqn:Ho.
  - rewrite Hnone in Hup. apply result_bind_inv in Hup as (t1 & ->%put_event_ok & [= <- <-]).
    exists (ae_event_id e). eexists. simpl. rewrite lookup_insert_eq. by split_and!.
  - injection Hup as <- <-. assert (y ∈ y :: l) as Hin by set_solver. rewrite <- Ho, order_by_elem in Hin.
    apply list_elem_of_filter in Hin as [[Hw Hy] Hin]. apply rows_elem in Hin as (id & Hid). by exists id, y.
Qed.

(** A confirmed incident has one event: once it is recorded, the same
    incident reported again, after any operations on the alert tables, writes
    nothing and answers with an event that bears the incident.  So a replay
    undoes neither an acknowledgement nor a resolution. *)
Theorem incident_recorded_once now1 now2 incident e e' t0 t1 t2 t3 x y :
  incident <> "" -> ae_incident_id e = Some incident -> ae_rule_id e = None -> al_events t0 !! ae_event_id e = None ->
  ae_workspace_id e' = ae_workspace_id e -> tables_ok t0 ->
  upsert_incident_alert_event now1 incident e t0 = Ok (t1, x) ->
  rtc (others external_is_new) t1 t2 ->
  upsert_incident_alert_event now2 incident e' t2 = Ok (t3, y) ->
  t3 = t2 /\ ae_incident_id y = Some incident.
Proof.
  intros Hne Hi Hr Hnone Hw Hok Hup Hops Hup2.
  assert (tables_ok t1) as Hok1.
  { apply (op_tables_ok (UpsertIncident now1 incident e) t0); [done|done|]. simpl. by rewrite Hup. }
  assert (linked (ae_workspace_id e) incident t1) as Hl by (by eapply upsert_incident_linked).
  eapply linked_replay; [|exact Hup2]. rewrite Hw.
  assert (tables_ok t2 /\ linked (ae_workspace_id e) incident t2) as [_ ?]; [|done].
  clear Hup Hup2. induction Hops as [t|t t1' t2 (op & Hp & Ha & Happly) _ IH]; [done|]. apply IH.
  - by eapply op_tables_ok.
  - eapply linked_op; [done|exact (proj1 Hok1)|done|done|done].
Qed.

(** ** A repeated alert undoes an acknowledgement *)

Lemma put_event_free e t : ae_rule_id e = None -> put_event e t = Ok (t <| al_events ::= <[ae_event_id e := e]> |>).
Proof. intros Hr. unfold put_event, collides. rewrite Hr. by rewrite andb_false_r. Qed.

(** Alertmanager repeats a firing alert until it resolves.  The repeat puts
    an acknowledged event back to firing, although it keeps the operator who
    acknowledged it; the next acknowledgement then replaces the first one. *)
Theorem repeat_undoes_acknowledgement now1 now2 now3 ws a b e new t t1 t2 x y :
  tables_ok t -> get_event ws (ae_event_id new) t = Some e -> ae_rule_id e = None -> ae_status e = firing ->
  ae_workspace_id new = ws -> ae_status new = firing -> ae_incident_id new = ae_incident_id e ->
  acknowledge_alert_event now1 ws (ae_event_id new) a t = Ok (t1, x) ->
  upsert_external_alert_event now2 new t1 = Ok (t2, y) ->
  ae_status y = firing /\ ae_acknowledged_by y = Some a /\
  exists t3 z, acknowledge_alert_event now3 ws (ae_event_id new) b t2 = Ok (t3, Some z) /\
    ae_status z = acked /\ ae_acknowledged_by z = Some b /\ ae_acknowledged_at z = Some now3.
Proof.
  intros [Hk _] He Hr Hs Hw Hsn Hi Hack Hup. pose proof (get_event_some _ _ _ _ He) as [Hl Hws].
  unfold acknowledge_alert_event in Hack. rewrite He, Hs, put_event_free in Hack by done. injection Hack as <- <-.
  unfold upsert_external_alert_event in Hup. simpl in Hup. rewrite (Hk _ _ Hl), lookup_insert_eq in Hup. simpl in Hup.
  rewrite Hi in Hup. replace (match ae_incident_id e with Some a => _ | None => false end) with false in Hup
    by (destruct (ae_incident_id e) as [i|]; [by rewrite String.eqb_refl|done]).
  rewrite put_event_free in Hup by done. simpl in Hup. rewrite ?(Hk _ _ Hl) in Hup. injection Hup as <- <-. simpl.
  split; [done|]. split; [done|].
  eexists _, _. unfold acknowledge_alert_event, get_event. simpl. rewrite lookup_insert_eq. simpl. rewrite Hw, String.eqb_refl, Hsn.
  rewrite put_event_free by done. split; [done|]. by split_and!.
Qed.
