(* ===== verification/AlertScenarios.v ===== *)
(** Alerts at work: a workspace with a rule, a channel and an incident, and the
    theorems applied to what happens there. *)

From S2P Require Import Prelude PyString Json EventStore Outbox CommandHandler Transactions.
From S2P Require Import AlertStore AlertEvaluation AlertRuns AlertReference AlertLife AlertRouting AlertService.
From Stdlib Require Import QArith.QArith.
From stdpp Require Import relations.
From coqutil Require Import Datatypes.RecordSettersUsingExistingGetters.
#[global] Open Scope Z_scope.

Arguments RecordSettersUsingExistingGetters.const {E} newValue _ /.

Module Sample.
(** A clock that writes a time as that many strokes, and a digest that keeps
    the text. *)
Fixpoint strokes (n : nat) : string := match n with O => "" | S n => "|" +:+ strokes n end.
Definition isoformat (t : Z) : string := strokes (Z.to_nat (t / SECOND)).
Definition fromisoformat (s : string) : option Z := Some (Z.of_nat (String.length s) * SECOND).
Definition digest (s : string) : string := s.

Definition pod : odict json :=
  [("cluster", JStr "c1"); ("namespace", JStr "shop"); ("kind", JStr "Pod"); ("name", JStr "web-1")].

Definition seen (value seconds : Z) : AlertMeasurement :=
  {| am_subject := pod; am_observed_value := inject_Z value; am_observed_at := seconds * SECOND;
     am_evidence := [[("type", JStr "metric_sample"); ("observed_at", JStr (isoformat (seconds * SECOND)))]] |}.

Definition rule : AlertRule :=
  {| ru_rule_id := "alr-1"; ru_workspace_id := "w1"; ru_name := "cpu"; ru_scope := []; ru_metric := "cpu_pct";
     ru_comparator := ">"; ru_threshold := inject_Z 90; ru_for_seconds := 20; ru_severity := "high";
     ru_channels := ["chan-1"]; ru_enabled := true; ru_created_by := "u1"; ru_last_fired_at := None;
     ru_occurrence_count := 0; ru_updated_at := 0 |}.

Definition channel : AlertChannel :=
  {| ch_channel_id := "chan-1"; ch_workspace_id := "w1"; ch_name := "ops"; ch_kind := "webhook";
     ch_url := "https://hooks.example/a"; ch_min_severity := "warning"; ch_enabled := true; ch_last_tested_at := Some 0;
     ch_last_test_status := Some "passed"; ch_last_test_detail := None; ch_last_test_status_code := Some 200 |}.

Definition t0 : alert_tables :=
  empty_alerts <| al_rules := {["alr-1" := rule]} |> <| al_channels := {["chan-1" := channel]} |>.

Definition texts : alert_texts := {| tx_resolved := "resolved"; tx_firing := "firing"; tx_rule := "rule"; tx_dot := " - " |}.
Definition stage_at (seconds : Z) : alert_transition -> tables -> result alert_error tables :=
  stage_transition texts (seconds * SECOND) ("evt-" +:+ isoformat (seconds * SECOND)) "now" None.

(** One staging for the whole life: its identifiers come from the transition. *)
Definition stage (tr : alert_transition) (b : tables) : result alert_error tables :=
  stage_transition texts 0 ("evt-" +:+ tr_transition tr) "now" None tr b.
Definition call (tr : alert_transition) : prog alert_tables alert_error unit := Ret tt.
Definition engine : notifier := {| nt_stage := Some stage; nt_call := call |}.

Definition evaluate (seconds value : Z) : prog alert_tables alert_error (option alert_transition) :=
  _evaluate_measurement digest fromisoformat engine (seconds * SECOND) (isoformat (seconds * SECOND)) rule
    (seen value seconds) (seconds * SECOND).

Definition after {A} (p : prog alert_tables alert_error A) (t : alert_tables) : alert_tables := (alone p t).2.
Definition entry_of (seconds value : Z) (t : alert_tables) : entry :=
  {| en_rule := rule; en_measurement := seen value seconds; en_outcome := (alone (evaluate seconds value) t).1 |}.
Definition done_op (op : alert_op) (t : alert_tables) : alert_tables :=
  match apply_op op t with Ok t' => t' | Err _ => t end.

(** A violation at 10s and at 20s, too short; the operator raises the bar at
    25s; at 40s the rule fires; it is acknowledged; at 60s all is well. *)
Definition s1 := after (evaluate 10 95) t0.
Definition s2 := after (evaluate 20 96) s1.
Definition raised : alert_op := UpdateRule (25 * SECOND) "w1" "alr-1"
  {| pc_name := None; pc_scope := None; pc_metric := None; pc_comparator := None; pc_threshold := None;
     pc_for_seconds := None; pc_severity := Some "critical"; pc_channels := None; pc_enabled := None |}.
Definition s3 := done_op raised s2.
Definition s4 := after (evaluate 40 97) s3.
Definition event_id_40 : string := "ale-" +:+ isoformat (40 * SECOND).
Definition acked_by_u1 : alert_op := Acknowledge (45 * SECOND) "w1" event_id_40 "u1".
Definition s5 := done_op acked_by_u1 s4.
Definition s6 := after (evaluate 60 50) s5.

Definition key : string := measurement_key digest (seen 95 10).
Definition day : list entry := [entry_of 10 95 t0; entry_of 20 96 s1; entry_of 40 97 s3; entry_of 60 50 s5].

Lemma life_next other seconds value t es t' :
  life digest fromisoformat stage call other (after (evaluate seconds value) t) es t' ->
  life digest fromisoformat stage call other t (entry_of seconds value t :: es) t'.
Proof. intros Hl. eapply life_evaluated; [|exact Hl]. apply alone_runs. Qed.

Lemma others_once allowed op t : proper op t -> allowed op t -> is_ok (apply_op op t) = true -> rtc (others allowed) t (done_op op t).
Proof.
  intros Hp Ha Hok. apply rtc_once. exists op. split_and!; [done|done|]. unfold done_op.
  by destruct (apply_op op t).
Qed.

Lemma tables_ok_t0 : tables_ok t0.
Proof. split; [intros id e He|intros r k s id Hs]; simpl in *; by rewrite lookup_empty in *. Qed.

Lemma day_life : life digest fromisoformat stage call (others (spares "alr-1" key)) t0 day s6.
Proof.
  apply life_next. fold s1. apply life_next. fold s2.
  eapply life_others; [apply (others_once _ raised); [done|done|vm_compute; reflexivity]|]. fold s3.
  apply life_next. fold s4.
  eapply life_others; [apply (others_once _ acked_by_u1); [done|done|vm_compute; reflexivity]|]. fold s5.
  apply life_next. fold s6. by constructor.
Qed.

Lemma alerts_follow_reference_witness :
  (heard digest "alr-1" key day).*2 = [None; None; Some "firing"; Some "resolved"] /\
  narrate [] (heard digest "alr-1" key day).*1 = [None; None; Some "firing"; Some "resolved"] /\
  ~ firing_now "alr-1" key s6.
Proof.
  destruct (alerts_follow_reference digest fromisoformat stage call "alr-1" key "w1" t0 day s6 day_life tables_ok_t0
    eq_refl) as [Hn Hf].
  - repeat constructor; (intros _; split; [reflexivity|vm_compute; reflexivity]).
  - rewrite <- Hn, Hf. split_and!; vm_compute; congruence.
Defined.

Lemma tables_ok_next seconds value t : tables_ok t -> tables_ok (after (evaluate seconds value) t).
Proof.
  intros Hok. eapply (evaluate_tables digest fromisoformat stage call (fun _ _ => False)); [exact Hok|]. apply alone_runs.
Qed.

Lemma tables_ok_done op t : proper op t -> tables_ok t -> tables_ok (done_op op t).
Proof. intros Hp Hok. unfold done_op. destruct (apply_op op t) eqn:H; [by eapply op_tables_ok|done]. Qed.

Lemma tables_ok_s4 : tables_ok s4.
Proof. apply tables_ok_next, tables_ok_done; [done|]. apply tables_ok_next, tables_ok_next, tables_ok_t0. Qed.

(** The event of 40s becomes an incident at 45s, which is resolved at 50s.  The
    recovery at 60s and the violations at 70s, 120s and 900s announce nothing. *)
Definition promoted : alert_op := Promote (45 * SECOND) "w1" event_id_40 "inc-1" "u1".
Definition i5 := done_op promoted s4.
Definition i6 := done_op (ResolveIncident (50 * SECOND) "w1" "inc-1") i5.
Definition i7 := after (evaluate 60 50) i6.
Definition i8 := after (evaluate 70 95) i7.
Definition i9 := after (evaluate 120 96) i8.
Definition aftermath : list entry := [entry_of 60 50 i6; entry_of 70 95 i7; entry_of 120 96 i8; entry_of 900 99 i9].

Lemma aftermath_life : life digest fromisoformat stage call (others (fun op _ => keeps_rule "alr-1" op)) i6 aftermath (after (evaluate 900 99) i9).
Proof.
  apply life_next. fold i7. apply life_next. fold i8. apply life_next. fold i9. apply life_next. by constructor.
Qed.

Lemma resolved_incident_silences_rule_witness :
  Forall (fun e => concerns digest "alr-1" key e = true -> forall tr, en_outcome e <> Ok (Some tr)) aftermath /\
  map (concerns digest "alr-1" key) aftermath = [true; true; true; true] /\
  narrate (history [] (heard digest "alr-1" key [entry_of 10 95 t0; entry_of 20 96 s1; entry_of 40 97 s3]).*1)
    (heard digest "alr-1" key aftermath).*1 = [Some "resolved"; None; Some "firing"; None].
Proof.
  split; [|split; vm_compute; reflexivity].
  eapply (resolved_incident_silences_rule digest fromisoformat stage call "alr-1" key "w1" event_id_40
            ltac:(discriminate) (50 * SECOND) "inc-1" i5 i6 aftermath (after (evaluate 900 99) i9)).
  - apply tables_ok_done; [exact I|exact tables_ok_s4].
  - vm_compute; reflexivity.
  - vm_compute; reflexivity.
  - vm_compute; reflexivity.
  - vm_compute; reflexivity.
  - vm_compute; reflexivity.
  - vm_compute; reflexivity.
  - reflexivity.
  - exact aftermath_life.
  - repeat constructor.
Defined.

(** A cycle over two rules, the first of which has an unknown comparator. *)
Definition broken_rule : AlertRule := rule <| ru_rule_id := "alr-0" |> <| ru_comparator := "~" |>.
Definition t0_broken : alert_tables := t0 <| al_rules ::= <["alr-0" := broken_rule]> |>.
Definition load (r : AlertRule) : prog alert_tables alert_error (list AlertMeasurement) := Ret [seen 95 10].
Definition broken_cycle : prog alert_tables alert_error (list alert_transition) :=
  evaluate_once digest fromisoformat engine load (fun _ _ => 0) (fun _ _ => "x") (10 * SECOND).

(** A rule with an unknown comparator, listed first, keeps the others from being
    evaluated. *)
Lemma cycle_stops_at_failure_witness :
  (exists es, life digest fromisoformat stage call (fun _ _ => False) t0_broken es (alone broken_cycle t0_broken).2 /\
     told es (alone broken_cycle t0_broken).1) /\
  (alone broken_cycle t0_broken).1 = Err (AlertValueError "unsupported alert comparator") /\
  al_states (alone broken_cycle t0_broken).2 = ∅.
Proof.
  split; [|split; vm_compute; reflexivity].
  apply (cycle_stops_at_failure digest fromisoformat stage call (fun _ _ => False) load) with
    (now := fun _ _ => 0) (draw := fun _ _ => "x") (at_ := 10 * SECOND).
  - intros r t o t' H. by apply runs_ret_inv in H as [_ ?].
  - apply alone_runs.
Defined.

(** ** Delivery *)

Definition muted : AlertChannel := channel <| ch_channel_id := "chan-2" |> <| ch_name := "muted" |> <| ch_min_severity := "critical" |>.
Definition t_channels : alert_tables := t0 <| al_channels ::= <["chan-2" := muted]> |>.
Definition environment : alert_env :=
  {| ALERT_BLOCKED_SEVERITIES := ""; ALERT_AUTO_COMMAND_ENVIRONMENTS := "sandbox,staging"; ALERT_WEBHOOK_URL := "";
     ALERT_PROVIDER := LogAlertProvider |}.
Definition request (channels : option (list string)) : AlertRequestedBody :=
  {| ar_cluster_id := "c1"; ar_namespace := "shop"; ar_severity := "warning"; ar_message := "cpu"; ar_reason := "alert rule firing";
     ar_next_command := None; ar_workspace_id := "w1"; ar_application_id := ""; ar_workflow_run_id := ""; ar_binding_id := "";
     ar_environment := "sandbox"; ar_channel_ids := channels |}.
Definition accepts (c : AlertChannel) : http_outcome := Answered 200.

Lemma selected_channels_only_witness :
  exists c, c ∈ list_alert_channels "w1" false t_channels /\ ch_enabled c = true /\ ch_channel_id c ∈ ["chan-1"; "chan-2"] /\
    severity_matches (ch_min_severity c) "warning" = true /\ true = true /\
    (exists code, accepts c = Answered code /\ code < 400) /\
    dispatched_body (request (Some ["chan-1"; "chan-2"])) "ops" "webhook"
      = dispatched_body (request (Some ["chan-1"; "chan-2"])) (ch_name c) "webhook".
Proof.
  apply (selected_channels_only environment (fun _ => true) accepts TimedOut (request (Some ["chan-1"; "chan-2"])) t_channels
    ["chan-1"; "chan-2"]); [reflexivity|]. apply list_elem_of_here.
Defined.

Definition fired : AlertEvent := (_firing_event digest "e1" rule (seen 97 40) 0) <| ae_updated_at := 0 |>.
Definition activation : result alert_error (alert_tables * (AlertEvent * bool)) :=
  activate_alert_rule_event 0 (state_payload digest rule (seen 97 40) 0 (Some 0) None) (_firing_event digest "e1" rule (seen 97 40) 0)
    (Some (fun e => stage_transition texts 0 "evt-1" "now" None (_notification_transition e rule "firing"))) s3.
Definition staged_tables : alert_tables := match activation with Ok (t, _) => t | Err _ => s3 end.

Lemma activation_ok : activation = Ok (staged_tables, (fired, true)).
Proof.
  assert (match activation with Ok (_, x) => x = (fired, true) | Err _ => False end) as H by (vm_compute; reflexivity).
  unfold staged_tables. destruct activation as [[t x]|e]; [by rewrite H|done].
Qed.


(** ** Channels, incidents and the stream *)

Definition draft : AlertChannel := channel <| ch_enabled := false |> <| ch_last_test_status := None |>.
Definition t_draft : alert_tables := empty_alerts <| al_channels := {["chan-1" := draft]} |>.
Definition enabling : channel_payload :=
  {| cp_channel_id := "chan-1"; cp_workspace_id := "w1"; cp_name := "ops"; cp_kind := "webhook"; cp_url := ch_url draft;
     cp_min_severity := "warning"; cp_enabled := true |}.
Definition only_b (url : string) : http_outcome := if String.eqb url "https://hooks.example/b" then Answered 204 else TimedOut.

Lemma untested_url_enabled_witness :
  exists resp t1 c' t2,
    alone (test_alert_channel 0 "sent" "not sent" "unsafe" (fun _ => true) only_b "w1"
             {| ct_channel_id := "chan-1"; ct_url := "https://hooks.example/b"; ct_severity := "warning"; ct_message := "" |}) t_draft
      = (Ok resp, t1) /\
    alone (upsert_alert_channel_route (fun _ => true) "w1" "x" enabling) t1 = (Ok c', t2) /\
    get_alert_channel "w1" "chan-1" t2 = Some c' /\ ch_enabled c' = true /\ ch_url c' = "https://hooks.example/a" /\
    ch_last_test_status c' = Some "passed".
Proof.
  apply (untested_url_enabled 0 "sent" "not sent" "unsafe" (fun _ => true) (fun _ => true) only_b "w1" "x" t_draft draft enabling
    "https://hooks.example/b" 204 "warning" ""); (reflexivity || discriminate || lia).
Defined.

Definition incident : IncidentRecord :=
  {| ir_incident_id := "inc-1"; ir_cluster_id := "c1"; ir_resource_kind := "Pod"; ir_resource_name := "web-1";
     ir_namespace := Some "shop"; ir_symptom := "CrashLoopBackOff"; ir_severity := "high"; ir_first_seen_at := None;
     ir_summary := ""; ir_category := None; ir_workspace_id := "w1" |}.
Definition detected : IncidentDetectedBody :=
  {| id_detected := true; id_workspace_id := ""; id_severity := None; id_incident := Some incident |}.
Definition no_event : AlertEvent := _firing_event digest "" rule (seen 0 0) 0.
Definition incident_event : AlertEvent :=
  match build_incident_alert_event digest isoformat (fun _ => None) 0 detected with Ok e => e | Err _ => no_event end.
Definition recorded : alert_tables :=
  match upsert_incident_alert_event 0 "inc-1" incident_event t0 with Ok (t, _) => t | Err _ => t0 end.
Definition closed : alert_tables := done_op (ResolveIncident 5 "w1" "inc-1") (done_op (Acknowledge 3 "w1" (ae_event_id incident_event) "u1") recorded).

Lemma incident_recorded_once_witness :
  exists y, upsert_incident_alert_event 9 "inc-1" incident_event closed = Ok (closed, y) /\
    ae_incident_id y = Some "inc-1" /\ ae_status y = resolved /\ ae_acknowledged_by y = Some "u1".
Proof.
  eexists. split; [vm_compute; reflexivity|]. split; [|split; reflexivity].
  eapply (incident_recorded_once 0 9 "inc-1" incident_event incident_event t0 recorded closed closed).
  - discriminate.
  - vm_compute; reflexivity.
  - vm_compute; reflexivity.
  - vm_compute; reflexivity.
  - reflexivity.
  - apply tables_ok_t0.
  - vm_compute; reflexivity.
  - etrans; apply (others_once external_is_new); (exact I || (vm_compute; reflexivity)).
  - vm_compute; reflexivity.
Defined.

Definition external (st : AlertEventStatus) : AlertEvent := no_event <| ae_event_id := "am-1" |> <| ae_rule_id := None |> <| ae_status := st |>.
Definition t_external : alert_tables := done_op (UpsertExternal 1 (external firing)) t0.
Definition t_acked : alert_tables := done_op (Acknowledge 2 "w1" "am-1" "u1") t_external.
Definition t_repeated : alert_tables := done_op (UpsertExternal 3 (external firing)) t_acked.

Lemma repeat_undoes_acknowledgement_witness :
  exists y, get_event "w1" "am-1" t_repeated = Some y /\ ae_status y = firing /\ ae_acknowledged_by y = Some "u1" /\
  exists t3 z, acknowledge_alert_event 4 "w1" "am-1" "u2" t_repeated = Ok (t3, Some z) /\
    ae_status z = acked /\ ae_acknowledged_by z = Some "u2" /\ ae_acknowledged_at z = Some 4.
Proof.
  eexists. split; [vm_compute; reflexivity|].
  eapply (repeat_undoes_acknowledgement 2 3 4 "w1" "u1" "u2" _ (external firing) t_external t_acked t_repeated).
  - apply tables_ok_done; [|exact tables_ok_t0]. split; [reflexivity|]. intros old Hold. vm_compute in Hold. discriminate.
  - vm_compute; reflexivity.
  - reflexivity.
  - reflexivity.
  - reflexivity.
  - reflexivity.
  - reflexivity.
  - vm_compute; reflexivity.
  - vm_compute; reflexivity.
Defined.

Lemma alert_stream_current_witness :
  exists j frame e', (j <= 1)%nat /\ alert_event_stream "w1" [] [t_external; t_acked] !! j = Some frame /\ e' ∈ frame /\
    _alert_event_signature e' = ("am-1", 2).
Proof.
  destruct (get_event "w1" "am-1" t_acked) as [e|] eqn:He; [|vm_compute in He; discriminate].
  assert (("am-1", 2) = _alert_event_signature e) as -> by (vm_compute in He; by injection He as <-).
  eapply (alert_stream_current "w1" [t_external; t_acked] 1 t_acked); [reflexivity|]. vm_compute in He. injection He as <-.
  vm_compute. apply list_elem_of_here.
Defined.
End Sample.
