(* ===== verification/Concurrent.v ===== *)
(** Programs of transactions that run concurrently, and a rely-guarantee logic
    for them.

    A [pool] is the tables and the programs in flight.  Programs start at any
    time, take their steps in any order, fail, or are lost with their process;
    the environment changes the tables too.  [triple I R G K p Q] says that [p],
    started when [K] holds, keeps the invariant [I], changes the tables only by
    [G], and returns values that satisfy [Q], as long as the others keep [I] and
    change the tables only by [R].  In a pool of equals [R] is [G].  [zoom] runs a
    program on a part of the tables. *)

From S2P Require Import Prelude Transactions.
From stdpp Require Import relations.

(** Induction on a program: the rest of a transaction is smaller, whatever the
    tables were. *)
Lemma prog_ind_strong {S E A} (P : prog S E A -> Prop) :
  (forall x, P (Ret x)) -> (forall e, P (Raise e)) ->
  (forall f, (forall s s' p, f s = Ok (s', p) -> P p) -> P (Tx f)) -> forall p, P p.
Proof.
  intros Hret Hraise Htx. fix IH 1. intros [x|e|f]; [apply Hret|apply Hraise|].
  apply Htx. intros s s' p Hf. destruct (f s) as [[s2 p2]|e]; [|discriminate].
  injection Hf as _ <-. apply IH.
Qed.

Section Logic.
Context {S E : Type}.
Context (I : S -> Prop) (R G : S -> S -> Prop).

(** [K] stays true when others run. *)
Definition settled (K : S -> Prop) : Prop := stable (fun s s' => R s s' /\ I s') K.

Fixpoint triple {A} (K : S -> Prop) (p : prog S E A) (Q : A -> S -> Prop) : Prop :=
  match p with
  | Ret x => forall s, I s -> K s -> Q x s
  | Raise _ => True
  | Tx f => forall s, I s -> K s ->
      match f s with
      | Ok (s', p') => I s' /\ G s s' /\ exists K', settled K' /\ K' s' /\ triple K' p' Q
      | Err _ => True
      end
  end.

Lemma settled_const (P : Prop) : settled (fun _ => P).
Proof. by intros s s' _. Qed.

Lemma settled_and K K' : settled K -> settled K' -> settled (fun s => K s /\ K' s).
Proof. intros HK HK' s s' HG [??]. split; [by apply (HK s s')|by apply (HK' s s')]. Qed.

Lemma settled_forall {X} (K : X -> S -> Prop) : (forall x, settled (K x)) -> settled (fun s => forall x, K x s).
Proof. intros HK s s' HG H x. by apply (HK x s s'). Qed.

Lemma triple_weaken {A} K K' (p : prog S E A) Q :
  (forall s, I s -> K' s -> K s) -> triple K p Q -> triple K' p Q.
Proof. destruct p as [x| |f]; simpl; auto. intros HK H s HI Hs. apply H; auto. Qed.

(** A precondition that does not depend on the tables. *)
Lemma triple_pure {A} (P : Prop) (p : prog S E A) Q :
  (P -> triple (fun _ => True) p Q) -> triple (fun _ => P) p Q.
Proof. destruct p as [x| |f]; simpl; auto; intros H s HI HP; by apply (H HP). Qed.

Lemma triple_exists {A X} (K : X -> S -> Prop) (p : prog S E A) Q :
  (forall x, triple (K x) p Q) -> triple (fun s => exists x, K x s) p Q.
Proof.
  destruct p as [x| |f]; simpl; auto.
  - intros H s HI [y Hy]. by apply (H y).
  - intros H s HI [y Hy]. by apply (H y).
Qed.

Lemma triple_ret {A} (x : A) (Q : A -> S -> Prop) : triple (Q x) (Ret x) Q.
Proof. by intros s _ H. Qed.

Lemma triple_raise {A} (e : E) K (Q : A -> S -> Prop) : triple K (Raise e) Q.
Proof. done. Qed.

Lemma triple_post {A} K (p : prog S E A) (Q Q' : A -> S -> Prop) :
  (forall x s, I s -> Q x s -> Q' x s) -> triple K p Q -> triple K p Q'.
Proof.
  intros HQ. revert K. induction p as [x|e|f IH] using prog_ind_strong; simpl; auto; intros K H s HI Hs.
  specialize (H s HI Hs). destruct (f s) as [[s' p']|e] eqn:Hf; [|done].
  destruct H as (HI' & HG & K' & HK & Hs' & Hp). split; [done|]. split; [done|].
  exists K'. split; [done|]. split; [done|]. exact (IH s s' p' Hf _ Hp).
Qed.

(** What is settled, and not changed by the program either, stays true along it. *)
Lemma triple_frame {A} K F (p : prog S E A) Q :
  settled F -> stable (fun s s' => G s s' /\ I s') F ->
  triple K p Q -> triple (fun s => K s /\ F s) p (fun x s => Q x s /\ F s).
Proof.
  intros HF HG'. revert K. induction p as [x|e|f IH] using prog_ind_strong; simpl; auto; intros K H s HI [Hs HFs].
  { split; auto. }
  specialize (H s HI Hs). destruct (f s) as [[s' p']|e] eqn:Hf; [|done].
  destruct H as (HI' & HG & K' & HK & Hs' & Hp). split; [done|]. split; [done|].
  exists (fun s => K' s /\ F s). split; [by apply settled_and|]. split; [split; [done|by apply (HG' s s')]|].
  exact (IH s s' p' Hf _ Hp).
Qed.

Lemma triple_bind {A B} K (p : prog S E A) (k : A -> prog S E B) Q Q' :
  (forall x, settled (Q x)) -> triple K p Q -> (forall x, triple (Q x) (k x) Q') -> triple K (p ≫= k) Q'.
Proof.
  intros HQ. unfold mbind, prog_mbind. revert K.
  induction p as [x|e|f IH] using prog_ind_strong; simpl; auto; intros K H Hk.
  - apply (triple_weaken (Q x)); [exact H|apply Hk].
  - intros s HI Hs. specialize (H s HI Hs). destruct (f s) as [[s' p']|e] eqn:Hf; [|done].
    destruct H as (HI' & HG & K' & HK & Hs' & Hp). split; [done|]. split; [done|].
    exists K'. split; [done|]. split; [done|]. by apply (IH s s' p' Hf).
Qed.

Context `{!Reflexive G}.

(** Reading what is true of the tables at that moment and stays true. *)
Lemma triple_read {X} K (f : S -> X) (Q : X -> S -> Prop) :
  (forall x, settled (Q x)) -> (forall s, I s -> K s -> Q (f s) s) -> triple K (read f : prog S E X) Q.
Proof.
  intros HQ H s HI Hs. simpl. split; [done|]. split; [reflexivity|].
  exists (Q (f s)). split; [done|]. split; [by apply H|]. by intros s' _ Hs'.
Qed.

(** One transaction, and what holds after it and stays true. *)
Lemma triple_step {X} K (f : S -> result E (S * X)) (Q : X -> S -> Prop) :
  (forall x, settled (Q x)) ->
  (forall s, I s -> K s -> match f s with Ok (s', x) => I s' /\ G s s' /\ Q x s' | Err _ => True end) ->
  triple K (tx f) Q.
Proof.
  intros HQ H s HI Hs. simpl. specialize (H s HI Hs). destruct (f s) as [[s' x]|e]; [|done].
  destruct H as (HI' & HG & Hq). split; [done|]. split; [done|]. exists (Q x). split; [done|]. split; [done|].
  by intros s2 _ Hs2.
Qed.

(** A handler starts where the body failed; [F] held all along. *)
Lemma triple_catch {A} K (F : S -> Prop) (h : E -> prog S E A) (p : prog S E A) Q :
  settled F -> stable (fun s s' => G s s' /\ I s') F -> (forall s, I s -> K s -> F s) ->
  triple K p Q -> (forall e, triple F (h e) Q) -> triple K (catch h p) Q.
Proof.
  intros HF HFG. revert K. induction p as [x|e|f IH] using prog_ind_strong; simpl; intros K HK Hp Hh.
  - done.
  - apply (triple_weaken F); [done|apply Hh].
  - intros s HI Hs. specialize (Hp s HI Hs). destruct (f s) as [[s' p']|e] eqn:Hf.
    + destruct Hp as (HI' & HG & K' & HK' & Hs' & Hp). split; [done|]. split; [done|].
      exists (fun s => K' s /\ F s). split; [by apply settled_and|].
      split; [split; [done|]; apply (HFG s s'); [done|by apply HK]|].
      apply (IH s s' p' Hf); [by intros ? ? [_ ?]| |done]. apply (triple_weaken K'); [by intros ? ? [? _]|done].
    + split; [done|]. split; [reflexivity|]. exists F. split; [done|]. split; [by apply HK|apply Hh].
Qed.

(** A last transaction. *)
Lemma triple_tx {X} K (f : S -> result E (S * X)) :
  (forall s, I s -> K s -> match f s with Ok (s', _) => I s' /\ G s s' | Err _ => True end) ->
  triple K (tx f) (fun _ _ => True).
Proof.
  intros H s HI Hs. simpl. specialize (H s HI Hs). destruct (f s) as [[s' x]|e]; [|done].
  destruct H as [HI' HG]. split; [done|]. split; [done|]. exists (fun _ => True). by split; [apply settled_const|].
Qed.

Lemma triple_write K (f : S -> result E S) :
  (forall s, I s -> K s -> match f s with Ok s' => I s' /\ G s s' | Err _ => True end) ->
  triple K (write f) (fun _ _ => True).
Proof.
  intros H. apply triple_tx. intros s HI Hs. specialize (H s HI Hs). by destruct (f s).
Qed.
End Logic.

(** A guarantee may be weakened, a rely strengthened. *)
Lemma triple_relations {S E A} (I : S -> Prop) (R R' G G' : S -> S -> Prop) K (p : prog S E A) Q :
  (forall s s', R' s s' -> R s s') -> (forall s s', G s s' -> G' s s') ->
  triple I R G K p Q -> triple I R' G' K p Q.
Proof.
  intros Hr Hg. revert K. induction p as [x|e|f IH] using prog_ind_strong; simpl; auto; intros K H s HI Hs.
  specialize (H s HI Hs). destruct (f s) as [[s' p']|e] eqn:Hf; [|done].
  destruct H as (HI' & HG & K' & HK & Hs' & Hp). split; [done|]. split; [by apply Hg|].
  exists K'. split; [intros s1 s2 [H1 H2]; apply HK; split; [by apply Hr|done]|]. split; [done|]. exact (IH s s' p' Hf _ Hp).
Qed.

(** ** Programs on a part of the tables *)

Section Zoom.
Context {S W E : Type} (get : W -> S) (set : S -> W -> W).

Fixpoint zoom {A} (p : prog S E A) : prog W E A :=
  match p with
  | Ret x => Ret x
  | Raise e => Raise e
  | Tx f => Tx (fun w => match f (get w) with Ok (s, p) => Ok (set s w, zoom p) | Err e => Err e end)
  end.

Context (Hget : forall s w, get (set s w) = s).

Lemma alone_zoom {A} (p : prog S E A) w :
  (alone (zoom p) w).1 = (alone p (get w)).1 /\ get (alone (zoom p) w).2 = (alone p (get w)).2.
Proof.
  revert w. induction p as [x|e|f IH] using prog_ind_strong; intros w; simpl; [done|done|].
  destruct (f (get w)) as [[s p]|e] eqn:Hf; [|done]. destruct (IH _ _ _ Hf (set s w)) as [H1 H2].
  by rewrite Hget in H1, H2.
Qed.

(** The parts of a program, each verified against the whole. *)
Lemma zoom_triple_bind {A B} (J : W -> Prop) (Rw Gw : W -> W -> Prop) K (p : prog S E A) (k : A -> prog S E B) Q Q' :
  (forall x, settled J Rw (Q x)) -> triple J Rw Gw K (zoom p) Q -> (forall x, triple J Rw Gw (Q x) (zoom (k x)) Q') ->
  triple J Rw Gw K (zoom (p ≫= k)) Q'.
Proof.
  intros HQ. unfold mbind, prog_mbind. revert K.
  induction p as [x|e|f IH] using prog_ind_strong; simpl; auto; intros K H Hk.
  - apply (triple_weaken _ _ _ (Q x)); [exact H|apply Hk].
  - intros w HJ Hw. specialize (H w HJ Hw). destruct (f (get w)) as [[s p]|e] eqn:Hf; [|done].
    destruct H as (HJ' & HG' & K' & HK & Hs & Hp). split; [done|]. split; [done|].
    exists K'. split; [done|]. split; [done|]. by apply (IH _ _ _ Hf).
Qed.

Lemma zoom_triple_catch {A} (J : W -> Prop) (Rw Gw : W -> W -> Prop) K (F : W -> Prop) (h : E -> prog S E A)
    (p : prog S E A) Q :
  (forall w, set (get w) w = w) -> settled J Rw F -> stable (fun s s' => Gw s s' /\ J s') F -> (forall w, J w -> Gw w w)
    -> (forall s, J s -> K s -> F s) ->
  triple J Rw Gw K (zoom p) Q -> (forall e, triple J Rw Gw F (zoom (h e)) Q) -> triple J Rw Gw K (zoom (catch h p)) Q.
Proof.
  intros Hset HF HFG Hrefl. revert K. induction p as [x|e|f IH] using prog_ind_strong; simpl; intros K HK Hp Hh.
  - done.
  - apply (triple_weaken _ _ _ F); [done|apply Hh].
  - intros w HJ Hw. specialize (Hp w HJ Hw). destruct (f (get w)) as [[s p']|e] eqn:Hf.
    + destruct Hp as (HJ' & HG & K' & HK' & Hs' & Hp). split; [done|]. split; [done|].
      exists (fun s => K' s /\ F s). split; [by apply settled_and|].
      split; [split; [done|]; apply (HFG w (set s w)); [done|by apply HK]|].
      apply (IH _ s p' Hf); [by intros ? ? [_ ?]| |done]. apply (triple_weaken _ _ _ K'); [by intros ? ? [? _]|done].
    + rewrite Hset. split; [done|]. split; [by apply Hrefl|]. exists F. split; [done|]. split; [by apply HK|apply Hh].
Qed.

Context (I : S -> Prop) (R G : S -> S -> Prop) (J : W -> Prop) (Rw Gw : W -> W -> Prop).
Context (HI : forall w, J w -> I (get w)).
Context (HR : forall w w', Rw w w' -> J w' -> R (get w) (get w')).
Context (HG : forall w s, J w -> I s -> G (get w) s -> J (set s w) /\ Gw w (set s w)).

Lemma zoom_settled K : settled I R K -> settled J Rw (fun w => K (get w)).
Proof. intros HK w w' [Hr Hj] Hw. apply (HK (get w)); [|done]. split; [by apply HR|by apply HI]. Qed.

Lemma triple_zoom {A} K (p : prog S E A) Q :
  triple I R G K p Q -> triple J Rw Gw (fun w => K (get w)) (zoom p) (fun x w => Q x (get w)).
Proof.
  revert K. induction p as [x|e|f IH] using prog_ind_strong; simpl; auto; intros K Hp w Hj Hk.
  specialize (Hp (get w) (HI w Hj) Hk). destruct (f (get w)) as [[s p]|e] eqn:Hf; [|done].
  destruct Hp as (HIs & HGs & K' & HK' & Hs & Hp). destruct (HG w s Hj HIs HGs) as [Hj' Hg]. split; [done|].
  split; [done|]. exists (fun w => K' (get w)). split; [by apply zoom_settled|]. rewrite Hget. split; [done|].
  exact (IH _ _ _ Hf K' Hp).
Qed.
End Zoom.

(** ** Pools *)

Section Pools.
Context {S E : Type}.

(** What a thread computes is not looked at any more. *)
Definition forget {A} (p : prog S E A) : prog S E unit := p ≫= (fun _ => Ret tt).

Record pool : Type := { pl_tables : S; pl_threads : list (prog S E unit) }.

Context (starts : prog S E unit -> Prop) (env : S -> S -> Prop).

Inductive pool_step : pool -> pool -> Prop :=
| pool_start s ps p : starts p -> pool_step {| pl_tables := s; pl_threads := ps |} {| pl_tables := s; pl_threads := ps ++ [p] |}
| pool_run s ps i f s' p :
    ps !! i = Some (Tx f) -> f s = Ok (s', p) ->
    pool_step {| pl_tables := s; pl_threads := ps |} {| pl_tables := s'; pl_threads := <[i := p]> ps |}
| pool_end s ps i : pool_step {| pl_tables := s; pl_threads := ps |} {| pl_tables := s; pl_threads := delete i ps |}
| pool_env s ps s' : env s s' -> pool_step {| pl_tables := s; pl_threads := ps |} {| pl_tables := s'; pl_threads := ps |}.

Context (I : S -> Prop) (G : S -> S -> Prop) `{!Reflexive G}.
Context (Hstarts : forall p, starts p -> triple I G G (fun _ => True) p (fun _ _ => True)).
Context (Henv : forall s s', I s -> env s s' -> I s' /\ G s s').

Definition thread_ok (s : S) (p : prog S E unit) : Prop :=
  exists K, settled I G K /\ K s /\ triple I G G K p (fun _ _ => True).

Definition pool_ok (m : pool) : Prop := I (pl_tables m) /\ Forall (thread_ok (pl_tables m)) (pl_threads m).

Lemma thread_ok_mono s s' p : G s s' -> I s' -> thread_ok s p -> thread_ok s' p.
Proof. intros HG HI (K & HK & Hs & Hp). exists K. split; [done|]. split; [|done]. by apply (HK s s'). Qed.

Lemma pool_step_ok m m' : pool_ok m -> pool_step m m' -> pool_ok m' /\ G (pl_tables m) (pl_tables m').
Proof.
  intros [HI Hps] Hstep. destruct Hstep as [s ps p Hp|s ps i f s' p Hi Hf|s ps i|s ps s' He]; simpl in *.
  - split; [|reflexivity]. split; [done|]. simpl. apply Forall_app. split; [done|]. constructor; [|done].
    exists (fun _ => True). split; [apply settled_const|]. split; [done|]. by apply Hstarts.
  - destruct (Forall_lookup_1 _ _ _ _ Hps Hi) as (K & HK & Hs & Hp). specialize (Hp s HI Hs). rewrite Hf in Hp.
    destruct Hp as (HI' & HG & K' & HK' & Hs' & Hp'). split; [|done]. split; [done|]. simpl.
    apply Forall_insert; [|by exists K'].
    apply (Forall_impl (thread_ok s)); [done|]. intros q. by apply thread_ok_mono.
  - split; [|reflexivity]. split; [done|]. simpl. by apply Forall_delete.
  - destruct (Henv s s' HI He) as [HI' HG]. split; [|done]. split; [done|]. simpl.
    apply (Forall_impl (thread_ok s)); [done|]. intros q. by apply thread_ok_mono.
Qed.

Lemma pool_runs_ok m m' : pool_ok m -> rtc pool_step m m' -> pool_ok m' /\ rtc G (pl_tables m) (pl_tables m').
Proof.
  intros Hm H. revert Hm. induction H as [m|m m1 m2 Hstep _ IH]; intros Hm; [by split|].
  destruct (pool_step_ok _ _ Hm Hstep) as [Hm1 HG]. destruct (IH Hm1) as [Hm2 HG2]. split; [done|]. by eapply rtc_l.
Qed.

Lemma pool_invariant s m : I s -> rtc pool_step {| pl_tables := s; pl_threads := [] |} m -> I (pl_tables m).
Proof. intros HI H. by apply (pool_runs_ok {| pl_tables := s; pl_threads := [] |}) in H as [[??] _]. Qed.
End Pools.

Arguments pool S E : clear implicits.

(** ** A thread alone *)

Lemma alone_catch {S E A} (h : E -> prog S E A) (p : prog S E A) s :
  alone (catch h p) s = match alone p s with (Ok x, s) => (Ok x, s) | (Err e, s) => alone (h e) s end.
Proof.
  revert s. induction p as [x|e|f IH] using prog_ind_strong; intros s; simpl; [done|done|].
  destruct (f s) as [[s1 p]|e] eqn:Hf; [by apply (IH s s1)|done].
Qed.

Section Alone.
Context {S E : Type} (starts : prog S E unit -> Prop) (env : S -> S -> Prop).

Lemma pool_run_alone p : forall s ps,
  rtc (pool_step starts env) {| pl_tables := s; pl_threads := ps ++ [p] |} {| pl_tables := (alone p s).2; pl_threads := ps |}.
Proof.
  assert (Hend : forall q s ps, pool_step starts env {| pl_tables := s; pl_threads := ps ++ [q] |} {| pl_tables := s;
    pl_threads := ps |}).
  { intros q s ps. assert (Hps : delete (length ps) (ps ++ [q]) = ps) by (rewrite delete_middle; apply app_nil_r).
    rewrite <- Hps at 2. apply pool_end. }
  induction p as [x|e|f IH] using prog_ind_strong; intros s ps; simpl.
  - apply rtc_once, Hend.
  - apply rtc_once, Hend.
  - destruct (f s) as [[s' p]|e] eqn:Hf; [|apply rtc_once, Hend].
    eapply rtc_l; [|exact (IH s s' p Hf s' ps)].
    assert (Hi : <[length ps := p]> (ps ++ [Tx f]) = ps ++ [p]).
    { rewrite insert_app_r_alt by lia. by rewrite Nat.sub_diag. }
    rewrite <- Hi. apply (pool_run _ _ _ _ _ f); [|done]. by rewrite lookup_app_r, Nat.sub_diag by lia.
Qed.

(** A thread may start and run to its end while no other takes a step. *)
Lemma pool_alone p s ps :
  starts p ->
  rtc (pool_step starts env) {| pl_tables := s; pl_threads := ps |} {| pl_tables := (alone p s).2; pl_threads := ps |}.
Proof. intros Hp. eapply rtc_l; [by apply (pool_start _ _ s ps p)|]. apply pool_run_alone. Qed.
End Alone.
