(* ===== verification/RecoveryEvidence.v ===== *)
(** What one evidence window says about a recovery
    ([domains/rca/recovery_verification.py], the readers and the checks).

    A window is the JSON an agent sent; what the lifecycle of a plan remembers
    (identities and counters from before the repair) has records of its own.
    Floats are rationals; [python_values] holds the conversions of texts that
    the standard library makes. *)

From S2P Require Import Prelude PyString Json EventStore Outbox AlertStore.
From Stdlib Require Import QArith.QArith.
From stdpp Require Import gmap sets.
#[global] Open Scope Z_scope.

(** ** Reading JSON *)

(** [float(text)] when it is finite, [int(text)], and [datetime.fromisoformat]
    in microseconds, UTC where the text names no zone; [None]: [ValueError]. *)
Class python_values : Type := {
  float_of_text : string -> option Q;
  int_of_text : string -> option Z;
  fromisoformat : string -> option Z;
}.

Definition mapping (v : option json) : odict json := match v with Some (JObj d) => d | _ => [] end.

Definition text (v : option json) : string := match v with Some (JStr s) => strip s | _ => "" end.

(** [text(value) or None]. *)
Definition text_or_none (s : string) : option string := if String.eqb s "" then None else Some s.

Definition is_true (v : option json) : bool := match v with Some (JBool true) => true | _ => false end.

Definition truncate (q : Q) : Z := Z.quot (Qnum q) (Zpos (Qden q)).

Section Readers.
Context `{python_values}.

Definition finite_float (v : option json) : option Q :=
  match v with
  | Some (JInt z) => Some (inject_Z z)
  | Some (JFloat literal) => float_of_text literal
  | Some (JStr s) => float_of_text s
  | _ => None
  end.

Definition nonnegative_int (v : option json) : option Z :=
  let parsed := match v with
                | Some (JInt z) => Some z
                | Some (JFloat literal) => truncate <$> float_of_text literal
                | Some (JStr s) => int_of_text s
                | _ => None
                end in
  z ← parsed; if 0 <=? z then Some z else None.

Definition parse_datetime (v : option json) : option Z :=
  match v with
  | Some (JStr s) => if String.eqb (strip s) "" then None else fromisoformat (str_replace "Z" "+00:00" s)
  | _ => None
  end.

Definition bounded_seconds (value : option Z) (default_ minimum maximum : Z) : Z :=
  match value with
  | Some parsed => if 0 <=? parsed then Z.max minimum (Z.min parsed maximum) else default_
  | None => default_
  end.
End Readers.

(** [==] on JSON values, numbers of different types aside. *)
Fixpoint json_eqb (v w : json) : bool :=
  match v, w with
  | JNull, JNull => true
  | JBool a, JBool b => Bool.eqb a b
  | JInt a, JInt b => a =? b
  | JFloat a, JFloat b | JStr a, JStr b => String.eqb a b
  | JArr l, JArr m =>
      (fix eqb_list l m := match l, m with
                           | [], [] => true
                           | x :: l, y :: m => json_eqb x y && eqb_list l m
                           | _, _ => false
                           end) l m
  | JObj d, JObj e =>
      Nat.eqb (length d) (length e)
      && (fix included d := match d with
                            | [] => true
                            | (k, x) :: d => match dict_get k e with Some y => json_eqb x y | None => false end && included d
                            end) d
  | _, _ => false
  end.

(** ** What the lifecycle remembers *)

Record recovery_target_ref : Type := {
  tg_cluster_id : string; tg_namespace : string; tg_resource_kind : string; tg_resource_name : string;
}.

(** An entry of [protected_baseline], and what is observed of one. *)
Record protected_item : Type := {
  pi_kind : string; pi_namespace : string; pi_name : string; pi_uid : json;
  pi_pod_uids : list string; pi_pod_start_times : list string; pi_restart_count : Z;
}.

Record session_sample : Type := {
  ss_namespace : string; ss_kind : string; ss_name : string; ss_continuity_id : string; ss_pod_uid : string;
  ss_value : Q; ss_sample_timestamp : Q;
}.

Record deployment_view : Type := {
  dv_generation : option Z; dv_observed_generation : option Z; dv_desired_replicas : option Z;
  dv_ready_replicas : option Z; dv_updated_replicas : option Z; dv_available_replicas : option Z;
  dv_unavailable_replicas : option Z; dv_unavailable_replicas_omitted : bool;
}.

(** [verification["before"]]: the alert the repair is for; [ab_measured] are the
    measurements recorded with it, which are only copied into events. *)
Record alert_before : Type := {
  ab_available : bool; ab_alert_event_id : option string; ab_rule_id : option string; ab_rule_name : option string;
  ab_source : option string; ab_subject_key : option string; ab_series_identity : option (odict json);
  ab_observed_value : option Q; ab_threshold : option Q; ab_fired_at : option Z;
  ab_measured : odict json;
}.

(** [verification["expected"]]. *)
Record recovery_expected : Type := {
  ex_failure_ratio_max : option Q; ex_request_rate_baseline : option Q; ex_request_rate_tolerance_ratio : option Q;
  ex_replicas : option Z; ex_failure_ratio_metric_identity : odict string;
  ex_request_rate_metric_identity : odict string; ex_evidence_cadence_seconds : option Z;
  ex_protected_workloads : option Z;
}.

(** [observed_after]. *)
Record observation : Type := {
  ob_failure_ratio : option Q; ob_request_rate : option Q; ob_deployment : option deployment_view;
  ob_protected_workloads : option (list (protected_item * bool));
  ob_protected_active_sessions : option (list session_sample);
}.

(** ** Metric samples *)

Definition STANDARD_FAILURE_RATIO_METRIC : string := "opsia_sli_failure_ratio".
Definition STANDARD_REQUEST_RATE_METRIC : string := "opsia_sli_request_rate".
Definition STANDARD_SLI_ALERT_NAME : string := "OpsiaSliFailureRatioHigh".
Definition CONTINUITY_ACTIVE_SESSIONS_METRIC : string := "opsia_continuity_active_sessions".
Definition CONTINUITY_SAMPLE_MAX_AGE_SECONDS : Z := 30.
Definition STANDARD_SLI_IDENTITY_LABELS : list string :=
  ["namespace"; "resource_kind"; "resource_name"; "service"; "sli"; "symptom"].
Definition RECOVERY_CONTINUITY_LABEL : string := "opsia.dev/recovery-continuity".
Definition RECOVERY_CONTINUITY_PROTECTED_VALUE : string := "protected".
Definition SECOND : Z := 1000000.

(** The samples of a metric; [None]: no list. *)
Definition metric_samples (evidence : odict json) (metric_name : string) : option (list json) :=
  as_list (dict_get "samples" (mapping (dict_get metric_name
    (mapping (dict_get "results" (mapping (dict_get "metrics" evidence))))))).

Definition same_keys (keys keys' : list string) : bool :=
  bool_decide (list_to_set keys = (list_to_set keys' : gset string)).

Definition exact_standard_sli_label_set (labels : odict json) (metric_name : string) : bool :=
  let keys := dict_keys labels in
  same_keys keys STANDARD_SLI_IDENTITY_LABELS
  || same_keys keys ("__name__" :: STANDARD_SLI_IDENTITY_LABELS)
     && String.eqb (text (dict_get "__name__" labels)) metric_name.

Definition metric_identity (labels : odict json) : option (odict string) :=
  let identity := map (fun key => (key, text (dict_get key labels))) STANDARD_SLI_IDENTITY_LABELS in
  if existsb (fun kv => String.eqb kv.2 "") identity then None else Some identity.

Definition metric_labels_match_target (labels : odict json) (target : recovery_target_ref) : bool :=
  String.eqb (text (dict_get "namespace" labels)) (tg_namespace target)
  && String.eqb (casefold (text (dict_get "resource_kind" labels))) (casefold (tg_resource_kind target))
  && String.eqb (text (dict_get "resource_name" labels)) (tg_resource_name target).

Definition identity_differs (identity expected : odict string) : bool :=
  existsb (fun kv => negb (String.eqb (strip (default "" (dict_get kv.1 identity))) (strip kv.2))) expected.

Section Evidence.
Context `{python_values}.

Definition matched_sample (metric_name : string) (target : recovery_target_ref) (expected_identity : odict string)
    (sample : json) : option (Q * odict string) :=
  match sample with
  | JObj sample =>
      let labels := mapping (dict_get "metric" sample) in
      if negb (exact_standard_sli_label_set labels metric_name) then None
      else if negb (metric_labels_match_target labels target) then None
      else
        identity ← metric_identity labels;
        if identity_differs identity expected_identity then None
        else value ← finite_float (dict_get "value" sample); Some (value, identity)
  | _ => None
  end.

Definition metric_sample_with_identity (evidence : odict json) (metric_name : string) (target : recovery_target_ref)
    (expected_identity : odict string) : option (Q * odict string) :=
  samples ← metric_samples evidence metric_name;
  match omap (matched_sample metric_name target expected_identity) samples with
  | [matched] => Some matched
  | _ => None
  end.

Definition metric_sample (evidence : odict json) (metric_name : string) (target : recovery_target_ref)
    (expected_identity : odict string) : option Q :=
  fst <$> metric_sample_with_identity evidence metric_name target expected_identity.

(** ** Workloads *)

Definition workload_snapshots (evidence : odict json) : option (list json) :=
  let metadata := mapping (dict_get "metadata" evidence) in
  match as_list (dict_get "current_workload_snapshots" metadata) with
  | Some snapshots => Some snapshots
  | None => as_list (dict_get "current_workload_snapshots" (mapping (dict_get "change_context" metadata)))
  end.

Definition deployment_of (target : recovery_target_ref) (snapshot : json) : option deployment_view :=
  match snapshot with
  | JObj snapshot =>
      let workload := mapping (dict_get "workload" snapshot) in
      if negb (String.eqb (casefold (text (dict_get "kind" workload))) (casefold (tg_resource_kind target)))
         || negb (String.eqb (text (dict_get "namespace" workload)) (tg_namespace target))
         || negb (String.eqb (text (dict_get "name" workload)) (tg_resource_name target))
      then None
      else
        let status := mapping (dict_get "deployment_status" snapshot) in
        Some {| dv_generation := nonnegative_int (dict_get "generation" workload);
                dv_observed_generation := nonnegative_int (dict_get "observed_generation" status);
                dv_desired_replicas := nonnegative_int (dict_get "desired_replicas" status);
                dv_ready_replicas := nonnegative_int (dict_get "ready_replicas" status);
                dv_updated_replicas := nonnegative_int (dict_get "updated_replicas" status);
                dv_available_replicas := nonnegative_int (dict_get "available_replicas" status);
                dv_unavailable_replicas := nonnegative_int (dict_get "unavailable_replicas" status);
                dv_unavailable_replicas_omitted := is_none (dict_get "unavailable_replicas" status) |}
  | _ => None
  end.

Definition deployment_replicas (evidence : odict json) (target : recovery_target_ref) : option deployment_view :=
  snapshots ← workload_snapshots evidence;
  match omap (deployment_of target) snapshots with [view] => Some view | _ => None end.

Definition protected_identity (p : protected_item) : list string :=
  [casefold (strip (pi_kind p)); strip (pi_namespace p); strip (pi_name p)].

Definition nonempty_texts (key : string) (pods : list (odict json)) : list string :=
  order_by String.leb (base.filter (fun s => s <> "") (map (fun pod => text (dict_get key pod)) pods)).

Definition at_least (value : option Z) (bound : Z) : bool :=
  match value with Some v => bound <=? v | None => false end.

Definition mappings_of (v : option json) : list (odict json) :=
  omap (fun p => match p with JObj p => Some p | _ => None end) (default [] (as_list v)).

(** One snapshot; [expected] are the identities of the baseline. *)
Definition protected_workload_of (target : recovery_target_ref) (expected : option (gset (list string)))
    (snapshot : json) : option (protected_item * bool) :=
  match snapshot with
  | JObj snapshot =>
      let workload := mapping (dict_get "workload" snapshot) in
      let name := text (dict_get "name" workload) in
      let kind := text (dict_get "kind" workload) in
      let ns := text (dict_get "namespace" workload) in
      let labelled key :=
        String.eqb (casefold (text (dict_get RECOVERY_CONTINUITY_LABEL (mapping (dict_get key snapshot)))))
          RECOVERY_CONTINUITY_PROTECTED_VALUE in
      if negb (String.eqb ns (tg_namespace target)) || negb (String.eqb (casefold kind) "deployment") then None
      else if String.eqb (casefold kind) (casefold (tg_resource_kind target)) && String.eqb name (tg_resource_name target)
      then None
      else if match expected with
              | Some ids => negb (bool_decide ([casefold kind; ns; name] ∈ ids))
              | None => negb (labelled "deployment_labels") || negb (labelled "pod_template_labels")
              end then None
      else
        let status := mapping (dict_get "deployment_status" snapshot) in
        let serving_pods := base.filter (fun pod => is_true (dict_get "ready" pod) = true
                                              /\ text (dict_get "deletion_timestamp" pod) = "")
                              (mappings_of (dict_get "pod_statuses" snapshot)) in
        let healthy :=
          match nonnegative_int (dict_get "desired_replicas" status) with
          | Some desired =>
              (0 <? desired)
              && at_least (nonnegative_int (dict_get "ready_replicas" status)) desired
              && at_least (nonnegative_int (dict_get "available_replicas" status)) desired
              && (desired <=? Z.of_nat (length serving_pods))
              && negb (is_true (dict_get "pod_statuses_truncated" snapshot))
          | None => false
          end in
        Some ({| pi_kind := kind; pi_namespace := ns; pi_name := name;
                 pi_uid := default JNull (dict_get "uid" workload);
                 pi_pod_uids := nonempty_texts "uid" serving_pods;
                 pi_pod_start_times := nonempty_texts "start_time" serving_pods;
                 pi_restart_count :=
                   foldr Z.add 0 (map (fun pod => default 0 (nonnegative_int (dict_get "restart_count" pod))) serving_pods) |},
              healthy)
  | _ => None
  end.

(** Tuples of strings, compared as Python compares tuples. *)
Fixpoint texts_leb (a b : list string) : bool :=
  match a, b with
  | [], _ => true
  | _ :: _, [] => false
  | x :: a, y :: b => if String.eqb x y then texts_leb a b else String.leb x y
  end.

Definition workload_order (p q : protected_item * bool) : bool :=
  texts_leb [pi_namespace p.1; pi_kind p.1; pi_name p.1] [pi_namespace q.1; pi_kind q.1; pi_name q.1].

Definition protected_workloads (evidence : odict json) (target : recovery_target_ref)
    (baseline : option (list protected_item)) : option (list (protected_item * bool)) :=
  snapshots ← workload_snapshots evidence;
  let expected := (fun items => list_to_set (map protected_identity items)) <$> baseline in
  Some (order_by workload_order (omap (protected_workload_of target expected) snapshots)).

Definition protected_item_eqb (p q : protected_item) : bool :=
  String.eqb (pi_name p) (pi_name q) && String.eqb (pi_kind p) (pi_kind q)
  && String.eqb (pi_namespace p) (pi_namespace q) && json_eqb (pi_uid p) (pi_uid q)
  && bool_decide (pi_pod_uids p = pi_pod_uids q) && bool_decide (pi_pod_start_times p = pi_pod_start_times q)
  && (pi_restart_count p =? pi_restart_count q).

Fixpoint all_equal {A} (eqb : A -> A -> bool) (l m : list A) : bool :=
  match l, m with
  | [], [] => true
  | x :: l, y :: m => eqb x y && all_equal eqb l m
  | _, _ => false
  end.

Definition protected_workloads_unchanged (baseline : option (list protected_item))
    (current : option (list (protected_item * bool))) : option bool :=
  current ← current;
  match baseline with
  | None | Some [] => None
  | Some items => Some (all_equal protected_item_eqb items current.*1)
  end.

(** ** Active sessions of protected workloads

    A series is named by namespace, kind, name, continuity id and pod uid. *)

Definition session_identity (s : session_sample) : list string :=
  [strip (ss_namespace s); casefold (strip (ss_kind s)); strip (ss_name s); strip (ss_continuity_id s);
   strip (ss_pod_uid s)].

Definition continuity_id_of (identity : list string) : string := default "" (identity !! 3%nat).
Definition pod_uid_of (identity : list string) : string := default "" (identity !! 4%nat).

(** [{identity(item): value(item) for item in items}]. *)
Definition by_identity {A B} (identity : A -> list string) (value : A -> B) (items : list A) : gmap (list string) B :=
  foldl (fun m item => <[identity item := value item]> m) ∅ items.

Definition protected_by_workload (items : list protected_item) : gmap (list string) protected_item :=
  by_identity (fun item => [strip (pi_namespace item); casefold (strip (pi_kind item)); strip (pi_name item)]) id items.

(** No continuity id and no pod twice among the identities. *)
Definition one_series_each {A} (m : gmap (list string) A) : bool :=
  Nat.eqb (size (set_map continuity_id_of (dom m) : gset string)) (size m)
  && Nat.eqb (size (set_map pod_uid_of (dom m) : gset string)) (size m).

(** [datetime.fromtimestamp]: to the microsecond, half to even, in the years 1
    to 9999. *)
Definition round_half_even (q : Q) : Z :=
  let n := Qnum q in let d := Zpos (Qden q) in
  let down := n / d in let rest := 2 * (n mod d) in
  if rest <? d then down else if d <? rest then down + 1 else if Z.even down then down else down + 1.

Definition fromtimestamp (seconds : Q) : option Z :=
  let us := round_half_even (seconds * inject_Z SECOND) in
  if (-62135596800 * SECOND <=? us) && (us <? 253402300800 * SECOND) then Some us else None.

Definition is_integer (q : Q) : bool := Z.rem (Qnum q) (Zpos (Qden q)) =? 0.

Definition Qlt_bool (x y : Q) : bool := negb (Qle_bool y x).

(** What a sample adds to [matches]; [None]: it is skipped. *)
Definition accepted_session_sample (protected : gmap (list string) protected_item)
    (expected_series previous_timestamps : option (gmap (list string) Q)) (evidence_observed_at max_sample_age_seconds : Z)
    (sample : json) : option (list string * (Q * Q)) :=
  match sample with
  | JObj sample =>
      let labels := mapping (dict_get "metric" sample) in
      let workload_identity := [text (dict_get "namespace" labels); casefold (text (dict_get "resource_kind" labels));
                                text (dict_get "resource_name" labels)] in
      let continuity_id := text (dict_get "continuity_id" labels) in
      let pod_uid := text (dict_get "pod_uid" labels) in
      let identity := workload_identity ++ [continuity_id; pod_uid] in
      item ← protected !! workload_identity;
      if String.eqb continuity_id "" || String.eqb pod_uid ""
         || negb (bool_decide (pod_uid ∈ map strip (pi_pod_uids item)))
         || match expected_series with Some m => is_none (m !! identity) | None => false end
      then None
      else
        value ← finite_float (dict_get "value" sample);
        if Qle_bool value 0 || negb (is_integer value) then None
        else
          sample_timestamp ← finite_float (dict_get "timestamp" sample);
          sample_time ← fromtimestamp sample_timestamp;
          if max_sample_age_seconds * SECOND <? Z.abs (evidence_observed_at - sample_time) then None
          else if match previous_timestamps ≫= lookup identity with
                  | Some previous => Qlt_bool sample_timestamp previous
                  | None => false
                  end then None
          else Some (identity, (value, sample_timestamp))
  | _ => None
  end.

Definition add_match (matches : gmap (list string) (list (Q * Q))) (m : list string * (Q * Q)) :=
  <[m.1 := default [] (matches !! m.1) ++ [m.2]]> matches.

Definition session_of (protected : gmap (list string) protected_item) (m : list string * list (Q * Q))
    : option session_sample :=
  match m with
  | ([ns; kind; name; continuity_id; pod_uid], (value, sample_timestamp) :: _) =>
      item ← protected !! [ns; kind; name];
      Some {| ss_namespace := ns; ss_kind := strip (pi_kind item); ss_name := name; ss_continuity_id := continuity_id;
              ss_pod_uid := pod_uid; ss_value := value; ss_sample_timestamp := sample_timestamp |}
  | _ => None
  end.

Definition protected_active_session_series (evidence : odict json) (protected_baseline : option (list protected_item))
    (expected_baseline previous_samples : option (list session_sample)) (evidence_observed_at : option Z)
    (max_sample_age_seconds : option Z) : option (list session_sample) :=
  items ← protected_baseline;
  let protected := protected_by_workload items in
  if bool_decide (items = []) || negb (Nat.eqb (size protected) (length items)) then None else
  let expected_series := by_identity session_identity ss_value <$> expected_baseline in
  let previous_timestamps := by_identity session_identity ss_sample_timestamp <$> previous_samples in
  observed_at ← evidence_observed_at;
  max_age ← max_sample_age_seconds;
  if max_age <=? 0 then None else
  if match expected_series, expected_baseline with
     | Some m, Some baseline =>
         negb (Nat.eqb (size m) (length baseline)) || negb (one_series_each m)
         || match previous_timestamps with Some p => negb (bool_decide (dom p = dom m)) | None => true end
     | _, _ => false
     end then None else
  samples ← metric_samples evidence CONTINUITY_ACTIVE_SESSIONS_METRIC;
  let matches := foldl add_match ∅
    (omap (accepted_session_sample protected expected_series previous_timestamps observed_at max_age) samples) in
  if existsb (fun values => negb (Nat.eqb (length values) 1)) (rows matches) then None else
  if match expected_series with
     | Some m => negb (bool_decide (dom matches = dom m))
     | None => negb (bool_decide (set_map (take 3) (dom matches) = dom protected))
               || negb (Nat.eqb (size matches) (size protected))
     end then None else
  if negb (one_series_each matches) then None else
  Some (omap (session_of protected) (order_by (fun x y => texts_leb x.1 y.1) (map_to_list matches))).

(** The values of a list of samples, if no identity is empty or twice. *)
Definition session_values (items : list session_sample) : option (gmap (list string) Q) :=
  foldl (fun parsed item =>
    parsed ← parsed;
    let identity := session_identity item in
    if existsb (String.eqb "") identity || negb (is_none (parsed !! identity)) then None
    else Some (<[identity := ss_value item]> parsed)) (Some ∅) items.

Definition protected_active_sessions_maintained (baseline current : option (list session_sample)) : option bool :=
  items ← baseline;
  if bool_decide (items = []) then None else
  current ← current;
  before ← session_values items;
  after ← session_values current;
  if negb (bool_decide (dom before = dom after)) then None
  else Some (forallb (fun kv => match (after : gmap (list string) Q) !! kv.1 with
                                | Some value => Qle_bool kv.2 value
                                | None => false
                                end)
               (map_to_list (before : gmap (list string) Q))).

(** ** What a window shows *)

Definition observed_after (evidence : odict json) (target : recovery_target_ref) (expected : recovery_expected)
    (protected_baseline : option (list protected_item))
    (protected_session_baseline previous_session_samples : option (list session_sample)) : observation :=
  {| ob_failure_ratio := metric_sample evidence STANDARD_FAILURE_RATIO_METRIC target
       (ex_failure_ratio_metric_identity expected);
     ob_request_rate := metric_sample evidence STANDARD_REQUEST_RATE_METRIC target
       (ex_request_rate_metric_identity expected);
     ob_deployment := deployment_replicas evidence target;
     ob_protected_workloads := protected_workloads evidence target protected_baseline;
     ob_protected_active_sessions :=
       protected_active_session_series evidence protected_baseline protected_session_baseline
         (match previous_session_samples with None | Some [] => protected_session_baseline | s => s end)
         (parse_datetime (dict_get "window_start" evidence)) (Some CONTINUITY_SAMPLE_MAX_AGE_SECONDS) |}.
End Evidence.

(** ** The alerts of the symptom *)

Definition text_of (o : option string) : string := strip (default "" o).

Definition standard_sli_series_identity (value : option (odict json)) : option (odict string) :=
  metric_identity (default [] value).

Definition alert_matches_target (alert : AlertEvent) (target : recovery_target_ref) : bool :=
  let subject := ae_subject alert in
  String.eqb (text (dict_get "cluster" subject)) (tg_cluster_id target)
  && String.eqb (text (dict_get "namespace" subject)) (tg_namespace target)
  && String.eqb (casefold (text (dict_get "kind" subject))) (casefold (tg_resource_kind target))
  && String.eqb (text (dict_get "name" subject)) (tg_resource_name target).

Definition alert_matches_original_series (alert : AlertEvent) (before : alert_before) (target : recovery_target_ref)
    : bool :=
  let same expected current := String.eqb (text_of expected) "" || String.eqb (text_of current) (text_of expected) in
  let expected_series_identity := standard_sli_series_identity (ab_series_identity before) in
  alert_matches_target alert target
  && (negb (String.eqb (text_of (ab_rule_name before)) STANDARD_SLI_ALERT_NAME)
      || negb (is_none expected_series_identity)
         && bool_decide (standard_sli_series_identity (ae_series_identity alert) = expected_series_identity))
  && same (ab_rule_id before) (ae_rule_id alert)
  && same (ab_rule_name before) (ae_rule_name alert)
  && same (ab_source before) (Some (ae_source alert))
  && same (ab_subject_key before) (Some (ae_subject_key alert)).

(** The loop over the alerts: the original occurrence, and whether another one
    fired since the verification began. *)
Definition see_alert (before : alert_before) (target : recovery_target_ref) (verification_started_at : option Z)
    (seen : option AlertEvent * bool) (alert : AlertEvent) : option AlertEvent * bool :=
  let original_id := text_of (ab_alert_event_id before) in
  if negb (alert_matches_original_series alert before target) then seen
  else if negb (String.eqb original_id "") && String.eqb (strip (ae_event_id alert)) original_id
  then (Some alert, seen.2)
  else match verification_started_at with
       | Some started => if started <=? ae_fired_at alert then (seen.1, true) else seen
       | None => seen
       end.

Definition alert_checks (alerts : list AlertEvent) (before : alert_before) (target : recovery_target_ref)
    (verification_started_at : option Z) : option bool * option bool :=
  let '(original, refired) := foldl (see_alert before target verification_started_at) (None, false) alerts in
  match original with
  | None => (None, if refired then Some false else None)
  | Some e => (Some (bool_decide (ae_status e = resolved) && negb (is_none (ae_resolved_at e))), Some (negb refired))
  end.

(** ** The checks *)

Definition equals (value expected : option Z) : option bool :=
  v ← value; e ← expected; Some (v =? e).

Definition is_value (value : option Z) (n : Z) : bool := bool_decide (value = Some n).

Definition Qabs_near (rate baseline tolerance : Q) : bool :=
  Qle_bool (Qminus rate baseline) (Qmult baseline tolerance) && Qle_bool (Qminus baseline rate) (Qmult baseline tolerance).

Definition verification_checks (after : observation) (alerts : list AlertEvent) (before : alert_before)
    (target : recovery_target_ref) (expected : recovery_expected) (protected_baseline : option (list protected_item))
    (protected_session_baseline : option (list session_sample)) (verification_started_at : option Z)
    : odict (option bool) :=
  let replicas := ex_replicas expected in
  let of_deployment (f : deployment_view -> option Z) := ob_deployment after ≫= f in
  let desired := of_deployment dv_desired_replicas in
  let ready := of_deployment dv_ready_replicas in
  let updated := of_deployment dv_updated_replicas in
  let available := of_deployment dv_available_replicas in
  let unavailable := of_deployment dv_unavailable_replicas in
  let unavailable_omitted := match ob_deployment after with Some d => dv_unavailable_replicas_omitted d | None => false end in
  let generation := of_deployment dv_generation in
  let observed_generation := of_deployment dv_observed_generation in
  let omitted_unavailable_means_zero :=
    unavailable_omitted && is_none unavailable
    && match replicas with
       | Some r => is_value desired r && is_value ready r && is_value updated r && is_value available r
       | None => false
       end
    && match generation with Some g => at_least observed_generation g | None => false end in
  let protected_expected := default 0 (ex_protected_workloads expected) in
  let protected := ob_protected_workloads after in
  let if_protected (check : option bool) : option bool := if 0 <? protected_expected then check else Some true in
  let protected_session_expected := length <$> protected_session_baseline in
  let protected_session_count := length <$> ob_protected_active_sessions after in
  let '(alert_resolved, no_refire) := alert_checks alerts before target verification_started_at in
  [("failure_ratio_below_threshold",
      ratio ← ob_failure_ratio after; maximum ← ex_failure_ratio_max expected; Some (Qle_bool ratio maximum));
   ("request_rate_near_baseline",
      rate ← ob_request_rate after; baseline ← ex_request_rate_baseline expected;
      tolerance ← ex_request_rate_tolerance_ratio expected;
      if Qlt_bool 0 baseline && Qle_bool 0 tolerance && Qlt_bool tolerance 1
      then Some (Qabs_near rate baseline tolerance) else None);
   ("desired_replicas_restored", equals desired replicas);
   ("ready_replicas_restored", equals ready replicas);
   ("updated_replicas_restored", equals updated replicas);
   ("available_replicas_restored", equals available replicas);
   ("unavailable_replicas_zero",
      match unavailable with
      | Some u => Some (u =? 0)
      | None => if omitted_unavailable_means_zero then Some true else None
      end);
   ("deployment_generation_observed", equals observed_generation generation);
   ("protected_workloads_present", if_protected (ws ← protected; Some (protected_expected <=? Z.of_nat (length ws))));
   ("protected_workloads_healthy", if_protected (ws ← protected; Some (forallb snd ws)));
   ("protected_workloads_uninterrupted", if_protected (protected_workloads_unchanged protected_baseline protected));
   ("protected_active_session_series_present",
      if_protected (count ← protected_session_count; n ← protected_session_expected; Some (Nat.eqb count n)));
   ("protected_active_sessions_maintained",
      if_protected (protected_active_sessions_maintained protected_session_baseline (ob_protected_active_sessions after)));
   ("alertmanager_resolved", alert_resolved);
   ("alertmanager_no_refire", no_refire)].
