(* ===== verification/RecoveryVerification.v ===== *)
(** The verdict on a recovery ([evaluate_recovery_evidence] of
    [domains/rca/recovery_verification.py]) and the lifecycle it reads.

    The verdict is a pure function of the lifecycle of the plan, one evidence
    window, the alerts and the time.  The lifecycle is the JSON object the code
    keeps under [payload["lifecycle"]]; its timestamps are microseconds here (the
    code writes ISO strings and parses them back). *)

From S2P Require Import Prelude PyString Json EventStore Outbox AlertStore RecoveryEvidence.
From Stdlib Require Import QArith.QArith.
From coqutil Require Import Datatypes.RecordSettersUsingExistingGetters.
#[global] Open Scope Z_scope.

Arguments RecordSettersUsingExistingGetters.const {E} newValue _ /.

(** ** The lifecycle *)

(** [after] of a decision: the observation and what the verdict adds. *)
Record recovery_after : Type := {
  af_observed : observation; af_checks : odict (option bool); af_observed_at : Z; af_evidence_observed_at : option Z;
  af_evidence_ref : option string;
  (** healthy since, stable for (microseconds), number of windows *)
  af_stability : option (Z * Z * Z);
}.

Record recovery_verification : Type := {
  ve_status : string; ve_started_at : option Z; ve_deadline_at : option Z;
  ve_minimum_seconds : option Z; ve_maximum_seconds : option Z;
  ve_healthy_since : option Z; ve_last_healthy_observed_at : option Z; ve_distinct_evidence_count : option Z;
  ve_last_evidence_key : option string; ve_expected : recovery_expected; ve_before : alert_before;
  ve_target : option recovery_target_ref; ve_protected_baseline : option (list protected_item);
  ve_protected_session_baseline : option (list session_sample); ve_last_session_samples : option (list session_sample);
  ve_last_reason_code : string; ve_last_reason : string; ve_after : option recovery_after; ve_expired_at : option Z;
  ve_retry_attempt : option Z; ve_blockers : list string;
}.

Record recovery_attempt : Type := {
  at_id : string; at_number : Z; at_action_id : string; at_selected_by : string; at_selected_at : Z;
}.

Record recovery_pr : Type := {
  pr_url : string; pr_number : Z; pr_node_id : string; pr_head_ref : string; pr_head_sha : string;
  pr_repo_ref : string; pr_repository_id : string; pr_binding_id : string; pr_application_id : string;
  pr_base_branch : string; pr_manifest_path : string; pr_environment : string; pr_cluster_id : string;
}.

Record recovery_merge : Type := {
  mg_merge_commit_sha : string; mg_merged_at : Z; mg_workflow_run_id : string; mg_binding_id : string;
  mg_application_id : string; mg_cluster_id : string; mg_attempt_id : option string; mg_retry_attempt : option Z;
  mg_deployment_request : odict json; mg_previous_workflow_run_id : option string;
}.

Record recovery_failure : Type := {
  fl_stage : option string; fl_reason_code : string; fl_reason : string; fl_details : odict json;
}.

Record recovery_retry : Type := {
  rr_stage : string; rr_attempt : Z; rr_requested_by : string; rr_requested_at : Z; rr_reason : string;
}.

Record recovery_lifecycle : Type := {
  lc_phase : string; lc_attempt : option recovery_attempt; lc_pr : option recovery_pr;
  lc_verification : option recovery_verification; lc_merge : option recovery_merge;
  lc_failure : option recovery_failure; lc_retry : option recovery_retry; lc_authorization : odict json;
}.

(** What reading an absent object gives. *)
Definition no_expected : recovery_expected :=
  {| ex_failure_ratio_max := None; ex_request_rate_baseline := None; ex_request_rate_tolerance_ratio := None;
     ex_replicas := None; ex_failure_ratio_metric_identity := []; ex_request_rate_metric_identity := [];
     ex_evidence_cadence_seconds := None; ex_protected_workloads := None |}.

Definition no_before : alert_before :=
  {| ab_available := false; ab_alert_event_id := None; ab_rule_id := None; ab_rule_name := None; ab_source := None;
     ab_subject_key := None; ab_series_identity := None; ab_observed_value := None; ab_threshold := None;
     ab_fired_at := None; ab_measured := [] |}.

Definition no_verification : recovery_verification :=
  {| ve_status := ""; ve_started_at := None; ve_deadline_at := None; ve_minimum_seconds := None;
     ve_maximum_seconds := None; ve_healthy_since := None; ve_last_healthy_observed_at := None;
     ve_distinct_evidence_count := None; ve_last_evidence_key := None; ve_expected := no_expected;
     ve_before := no_before; ve_target := None; ve_protected_baseline := None; ve_protected_session_baseline := None;
     ve_last_session_samples := None; ve_last_reason_code := ""; ve_last_reason := ""; ve_after := None;
     ve_expired_at := None; ve_retry_attempt := None; ve_blockers := [] |}.

Definition no_lifecycle : recovery_lifecycle :=
  {| lc_phase := ""; lc_attempt := None; lc_pr := None; lc_verification := None; lc_merge := None; lc_failure := None;
     lc_retry := None; lc_authorization := [] |}.

Definition verification_of (lc : option recovery_lifecycle) : recovery_verification :=
  default no_verification (lc ≫= lc_verification).

(** ** The verdict *)

Definition DEFAULT_MINIMUM_SECONDS : Z := 300.
Definition DEFAULT_MAXIMUM_SECONDS : Z := 600.

Definition verification_deadline (started_at maximum_seconds : Z) : Z := started_at + maximum_seconds * SECOND.

Definition recovery_target (plan_payload : odict json) : recovery_target_ref :=
  let target := mapping (dict_get "target" plan_payload) in
  let selected_id := text (dict_get "recommended_action_id" plan_payload) in
  let candidates := mappings_of (dict_get "candidates" plan_payload) in
  let selected := default [] (find (fun c => String.eqb (text (dict_get "action_id" c)) selected_id) candidates) in
  let draft := mapping (dict_get "draft" selected) in
  let either key := let t := text (dict_get key target) in if String.eqb t "" then text (dict_get key draft) else t in
  {| tg_cluster_id := text (dict_get "cluster_id" target); tg_namespace := either "namespace";
     tg_resource_kind := either "resource_kind"; tg_resource_name := either "resource_name" |}.

Record VerificationDecision : Type := {
  vd_status : string; vd_reason_code : string; vd_reason : string; vd_after : recovery_after;
  vd_healthy_since : option Z; vd_last_healthy_observed_at : option Z; vd_distinct_evidence_count : Z;
  vd_last_evidence_key : option string;
}.

(** The messages of the verdicts. *)
Class verification_texts : Type := {
  tx_duplicate : string; tx_stale : string; tx_unmet : list string -> string; tx_missing : list string -> string;
  tx_expired : string -> string; tx_no_cadence : string; tx_too_short : string; tx_in_progress : Z -> Z -> string;
  tx_verified : Z -> string; tx_waiting : string; tx_restarted : string;
  tx_overdue : string;
}.

(** [math.ceil(minimum_seconds / cadence_seconds)]. *)
Definition ceil_div (a b : Z) : Z := - (- a / b).

Definition minimum_distinct_windows (minimum_seconds cadence_seconds : Z) : Z :=
  Z.max 2 (ceil_div minimum_seconds cadence_seconds + 1).

Definition names_with (value : option bool) (checks : odict (option bool)) : list string :=
  (base.filter (fun kv => kv.2 = value) checks).*1.

Section Verdict.
Context `{python_values} `{verification_texts}.

Definition minimum_seconds_of (v : recovery_verification) : Z :=
  bounded_seconds (ve_minimum_seconds v) DEFAULT_MINIMUM_SECONDS DEFAULT_MINIMUM_SECONDS DEFAULT_MAXIMUM_SECONDS.

(** The first part: what the window shows, and the checks. *)
Definition observe (plan_payload : odict json) (v : recovery_verification) (evidence : odict json)
    (alerts : list AlertEvent) : observation * odict (option bool) :=
  let target := default (recovery_target plan_payload) (ve_target v) in
  let observed := observed_after evidence target (ve_expected v) (ve_protected_baseline v)
                    (ve_protected_session_baseline v) (ve_last_session_samples v) in
  (observed, verification_checks observed alerts (ve_before v) target (ve_expected v) (ve_protected_baseline v)
               (ve_protected_session_baseline v) (ve_started_at v)).

Definition evaluate_recovery_evidence (plan_payload : odict json) (v : recovery_verification) (evidence : odict json)
    (alerts : list AlertEvent) (now : Z) : VerificationDecision :=
  let started_at := ve_started_at v in
  let overdue := match ve_deadline_at v with Some d => d <=? now | None => false end in
  let minimum_seconds := minimum_seconds_of v in
  let evidence_key := text (dict_get "evidence_key" evidence) in
  let evidence_observed_at := parse_datetime (dict_get "window_start" evidence) in
  let '(observed, checks) := observe plan_payload v evidence alerts in
  let after := {| af_observed := observed; af_checks := checks; af_observed_at := now;
                  af_evidence_observed_at := evidence_observed_at; af_evidence_ref := text_or_none evidence_key;
                  af_stability := None |} in
  let previous_key := text_of (ve_last_evidence_key v) in
  let previous_observed_at := ve_last_healthy_observed_at v in
  let distinct_count := default 0 (ve_distinct_evidence_count v) in
  let next_key := match text_or_none evidence_key with Some k => Some k | None => text_or_none previous_key end in
  let unchanged code reason :=
    {| vd_status := "pending"; vd_reason_code := code; vd_reason := reason; vd_after := after;
       vd_healthy_since := ve_healthy_since v; vd_last_healthy_observed_at := previous_observed_at;
       vd_distinct_evidence_count := distinct_count; vd_last_evidence_key := text_or_none previous_key |} in
  let reset status code reason :=
    {| vd_status := status; vd_reason_code := code; vd_reason := reason; vd_after := after; vd_healthy_since := None;
       vd_last_healthy_observed_at := None; vd_distinct_evidence_count := 0; vd_last_evidence_key := next_key |} in
  if negb (String.eqb evidence_key "") && String.eqb evidence_key previous_key then
    unchanged "duplicate_evidence_window" tx_duplicate
  else match evidence_observed_at, started_at with
  | Some observed_at, Some started =>
      if (observed_at <? started) || (now <? observed_at) then unchanged "stale_evidence_window" tx_stale
      else
        let failed_checks := names_with (Some false) checks in
        let missing_checks := names_with None checks in
        if bool_decide (failed_checks <> []) || bool_decide (missing_checks <> []) then
          let reason := if bool_decide (failed_checks <> []) then tx_unmet failed_checks else tx_missing missing_checks in
          let reason_code := if bool_decide (failed_checks <> []) then "verification_regressed"
                             else "verification_evidence_missing" in
          if overdue then reset "failed" "verification_window_expired" (tx_expired reason)
          else reset "pending" reason_code reason
        else
          match ex_evidence_cadence_seconds (ve_expected v) with
          | Some cadence_seconds =>
              if cadence_seconds <=? 0 then reset "pending" "verification_evidence_missing" tx_no_cadence
              else
                let broken := match previous_observed_at with
                              | Some previous =>
                                  let gap := observed_at - previous in
                                  (gap <=? 0) || (3 * cadence_seconds * SECOND <? 2 * gap)
                              | None => false
                              end in
                let healthy_since := if broken then None else ve_healthy_since v in
                let distinct_count := if broken then 0 else distinct_count in
                let stable_from := default observed_at healthy_since in
                let distinct_count := distinct_count + 1 in
                let stable := Z.max 0 (observed_at - stable_from) in
                let verdict status code reason :=
                  {| vd_status := status; vd_reason_code := code; vd_reason := reason;
                     vd_after := after <| af_stability := Some (stable_from, stable, distinct_count) |>;
                     vd_healthy_since := Some stable_from; vd_last_healthy_observed_at := Some observed_at;
                     vd_distinct_evidence_count := distinct_count; vd_last_evidence_key := next_key |} in
                if (stable <? minimum_seconds * SECOND)
                   || (distinct_count <? minimum_distinct_windows minimum_seconds cadence_seconds)
                then if overdue then verdict "failed" "verification_window_expired" tx_too_short
                     else verdict "pending" "stabilization_window_in_progress"
                            (tx_in_progress (stable / SECOND) minimum_seconds)
                else verdict "completed" "recovery_verified" (tx_verified minimum_seconds)
          | None => reset "pending" "verification_evidence_missing" tx_no_cadence
          end
  | _, _ => unchanged "stale_evidence_window" tx_stale
  end.
End Verdict.
