(* ===== verification/RecoveryPlans.v ===== *)
(** The table of recovery plans and its statements
    ([domains/rca/models.py], [repository.py]).

    One definition per method, one transaction each.  [recovery_tables] also hold
    what the recovery worker reads (alerts, evidence windows, workflow runs) and
    the events its transactions stage, in order: the event worker stages what a
    handler yields in the transaction of the handler, the janitor and the routes
    stage in theirs.  The payload of a plan is its immutable part, a JSON object,
    and the lifecycle the code keeps under [payload["lifecycle"]]. *)

From S2P Require Import Prelude PyString Json EventStore Outbox AlertStore RecoveryEvidence RecoveryVerification.
From Stdlib Require Import QArith.QArith.
From stdpp Require Import pretty.
From coqutil Require Import Datatypes.RecordSettersUsingExistingGetters.
#[global] Open Scope Z_scope.

Arguments RecordSettersUsingExistingGetters.const {E} newValue _ /.

(** ** Tables *)

Inductive recovery_status : Type :=
| SELECTION_REQUESTED | SELECTED | PR_OPEN | DEPLOY_PENDING | VERIFICATION_PENDING | COMPLETED | FAILED.

#[export] Instance recovery_status_eq_dec : EqDecision recovery_status.
Proof. solve_decision. Defined.

Definition status_text (s : recovery_status) : string :=
  match s with
  | SELECTION_REQUESTED => "selection_requested" | SELECTED => "selected" | PR_OPEN => "pr_open"
  | DEPLOY_PENDING => "deploy_pending" | VERIFICATION_PENDING => "verification_pending"
  | COMPLETED => "completed" | FAILED => "failed"
  end.

Record RecoveryPlanRecord : Type := {
  rp_id : Z; rp_plan_id : string; rp_workspace_id : string; rp_correlation_id : string; rp_incident_id : string;
  rp_evidence_ref : string; rp_status : recovery_status; rp_selected_action_id : option string;
  rp_selected_by : option string; rp_plan : odict json; rp_lifecycle : option recovery_lifecycle; rp_updated_at : Z;
}.

(** The columns of [workflow_runs] the worker compares. *)
Record workflow_run : Type := {
  wr_workflow_run_id : string; wr_workspace_id : string; wr_binding_id : string; wr_application_id : string;
  wr_cluster_id : string; wr_commit_sha : string; wr_status : string;
}.

(** The events of a recovery. *)
Record RecoveryVerificationStartedBody : Type := {
  vs_plan_id : string; vs_incident_id : string; vs_workflow_run_id : string; vs_started_at : Z; vs_deadline_at : Z;
  vs_expected : recovery_expected; vs_before : alert_before;
}.

Record RecoveryVerificationUpdatedBody : Type := {
  vu_plan_id : string; vu_incident_id : string; vu_status : string; vu_reason_code : string; vu_reason : string;
  vu_evidence_ref : string; vu_before : alert_before; vu_after : recovery_after;
}.

Record RecoveryVerificationFailedBody : Type := {
  vf_plan_id : string; vf_incident_id : string; vf_reason_code : string; vf_reason : string; vf_evidence_ref : string;
  vf_before : alert_before; vf_after : option recovery_after;
}.

Record IncidentResolvedBody : Type := {
  ir_incident_id : string; ir_cluster_id : string; ir_reason : string; ir_evidence_ref : string;
  ir_recovery_plan_id : string; ir_before : alert_before; ir_after : recovery_after;
}.

Inductive recovery_body : Type :=
| VerificationStarted (b : RecoveryVerificationStartedBody)
| VerificationUpdated (b : RecoveryVerificationUpdatedBody)
| VerificationFailed (b : RecoveryVerificationFailedBody)
| IncidentResolved (b : IncidentResolvedBody)
| RcaFollowupRequired (reason_code summary evidence_ref : string)
| RecoveryPrTracked (plan_id incident_id pr_url : string)
| RecoveryPrMerged (plan_id incident_id merge_commit_sha workflow_run_id : string)
| RecoveryRetryRequested (plan_id incident_id retry_stage : string) (attempt : Z)
| GitWebhookReceived (workflow_run_id : string).

Record recovery_event : Type := {
  re_source : string; re_correlation_id : string; re_workspace_id : string; re_body : recovery_body;
}.

(** [rt_windows]: the payloads of the evidence windows, by workspace and key. *)
Record recovery_tables : Type := {
  rt_plans : gmap (string * string) RecoveryPlanRecord;
  rt_plan_seq : Z;
  rt_alerts : alert_tables;
  rt_windows : gmap (string * string) (odict json);
  rt_workflow_runs : gmap string workflow_run;
  rt_staged : list recovery_event;
}.

Inductive recovery_error : Type :=
| RecoveryValueError (message : string)
| MissingField (name : string)
| RecoveryHTTPException (status_code : Z) (detail : string).

Abbreviation recovery_transaction A := (result recovery_error (recovery_tables * A)) (only parsing).

Definition put_plan (r : RecoveryPlanRecord) (t : recovery_tables) : recovery_tables :=
  t <| rt_plans ::= <[(rp_workspace_id r, rp_plan_id r) := r]> |>.

Definition stage_all (events : list recovery_event) (t : recovery_tables) : recovery_tables :=
  t <| rt_staged ::= fun staged => staged ++ events |>.

(** [str(plan[key])]. *)
Definition plan_field (key : string) (plan : odict json) : result recovery_error string :=
  match dict_get key plan with Some (JStr s) => Ok s | _ => Err (MissingField key) end.

(** ** Plans *)

(** [RECOVERY_PLAN_MONOTONIC_STATUSES] and [OPEN_RECOVERY_PLAN_STATUSES]. *)
Definition is_monotonic (s : recovery_status) : bool := negb (bool_decide (s = SELECTION_REQUESTED)).
Definition is_open (s : recovery_status) : bool := bool_decide (s = SELECTION_REQUESTED).

Definition upsert_recovery_plan (now : Z) (correlation_id workspace_id : string) (plan : odict json)
    (status : recovery_status) (selected_action_id selected_by : option string) (t : recovery_tables)
    : recovery_transaction unit :=
  if negb (bool_decide (status = SELECTION_REQUESTED)) && negb (bool_decide (status = SELECTED)) then
    Err (RecoveryValueError ("Unsupported recovery plan status: " +:+ status_text status))
  else
    plan_id ← plan_field "plan_id" plan;
    incident_id ← plan_field "incident_id" plan;
    evidence_ref ← plan_field "evidence_ref" plan;
    let excluded :=
      {| rp_id := rt_plan_seq t; rp_plan_id := plan_id; rp_workspace_id := workspace_id;
         rp_correlation_id := correlation_id; rp_incident_id := incident_id; rp_evidence_ref := evidence_ref;
         rp_status := status; rp_selected_action_id := selected_action_id; rp_selected_by := selected_by;
         rp_plan := plan; rp_lifecycle := None; rp_updated_at := now |} in
    let row := match rt_plans t !! (workspace_id, plan_id) with
               | None => excluded
               | Some old =>
                   let kept := if is_monotonic (rp_status old) then old else excluded in
                   {| rp_id := rp_id old; rp_plan_id := plan_id; rp_workspace_id := workspace_id;
                      rp_correlation_id := correlation_id; rp_incident_id := incident_id; rp_evidence_ref := evidence_ref;
                      rp_status := rp_status kept; rp_selected_action_id := rp_selected_action_id kept;
                      rp_selected_by := rp_selected_by kept; rp_plan := rp_plan kept; rp_lifecycle := rp_lifecycle kept;
                      rp_updated_at := now |}
               end in
    Ok (put_plan row (t <| rt_plan_seq ::= Z.succ |>), tt).

Definition get_recovery_plan (plan_id workspace_id : string) (t : recovery_tables) : option RecoveryPlanRecord :=
  rt_plans t !! (workspace_id, plan_id).

Definition newest_plan (x y : RecoveryPlanRecord) : bool :=
  if rp_updated_at x =? rp_updated_at y then rp_id y <=? rp_id x else rp_updated_at y <? rp_updated_at x.

Definition oldest_plan (x y : RecoveryPlanRecord) : bool :=
  if rp_updated_at x =? rp_updated_at y then rp_id x <=? rp_id y else rp_updated_at x <? rp_updated_at y.

Definition get_recovery_plan_by_correlation (correlation_id workspace_id : string) (t : recovery_tables)
    : option RecoveryPlanRecord :=
  head (order_by newest_plan (base.filter (fun r => rp_correlation_id r = correlation_id /\ rp_workspace_id r = workspace_id)
                                (rows (rt_plans t)))).

(** [attempt_id] is drawn. *)
Definition select_recovery_plan_action_if_open (now : Z) (attempt_id plan_id workspace_id action_id selected_by : string)
    (t : recovery_tables) : recovery_tables * option RecoveryPlanRecord :=
  match rt_plans t !! (workspace_id, plan_id) with
  | Some current =>
      if is_open (rp_status current) then
        let previous := match rp_lifecycle current ≫= lc_attempt with Some a => at_number a | None => 0 end in
        let attempt := {| at_id := "recovery-attempt-" +:+ attempt_id; at_number := Z.max 0 previous + 1;
                          at_action_id := action_id; at_selected_by := selected_by; at_selected_at := now |} in
        let row := current <| rp_status := SELECTED |> <| rp_selected_action_id := Some action_id |>
                     <| rp_selected_by := Some selected_by |>
                     <| rp_lifecycle := Some (no_lifecycle <| lc_phase := "selected" |> <| lc_attempt := Some attempt |>) |>
                     <| rp_updated_at := now |> in
        (put_plan row t, Some row)
      else (t, None)
  | None => (t, None)
  end.

Definition reopen_recovery_plan_action (now : Z) (plan_id workspace_id action_id : string) (t : recovery_tables)
    : recovery_tables * bool :=
  match rt_plans t !! (workspace_id, plan_id) with
  | Some current =>
      if bool_decide (rp_status current = SELECTED) && bool_decide (rp_selected_action_id current = Some action_id) then
        (put_plan (current <| rp_status := SELECTION_REQUESTED |> <| rp_selected_action_id := None |>
                     <| rp_selected_by := None |> <| rp_updated_at := now |>) t, true)
      else (t, false)
  | None => (t, false)
  end.

Definition update_recovery_plan_lifecycle_if_status (now : Z) (plan_id workspace_id : string)
    (expected_statuses : list recovery_status) (status : recovery_status) (lifecycle : recovery_lifecycle)
    (clear_selection : bool) (t : recovery_tables) : recovery_tables * option RecoveryPlanRecord :=
  match rt_plans t !! (workspace_id, plan_id) with
  | Some current =>
      if bool_decide (rp_status current ∈ expected_statuses) then
        let row := current <| rp_status := status |> <| rp_lifecycle := Some lifecycle |> <| rp_updated_at := now |> in
        let row := if clear_selection then row <| rp_selected_action_id := None |> <| rp_selected_by := None |> else row in
        (put_plan row t, Some row)
      else (t, None)
  | None => (t, None)
  end.

(** ** Lookups *)

(** [limit(2)] and exactly one row. *)
Definition only_row (p : RecoveryPlanRecord -> bool) (t : recovery_tables) : option RecoveryPlanRecord :=
  match base.filter (fun r => p r = true) (rows (rt_plans t)) with [r] => Some r | _ => None end.

Record pull_request_identity : Type := {
  pi_pr_url : string; pi_repo_ref : string; pi_base_branch : string; pi_pr_number : Z; pi_pr_node_id : string;
  pi_head_ref : string; pi_head_sha : string; pi_action : string; pi_merged : bool; pi_merge_commit_sha : string;
}.

Definition base_identity_matches (i : pull_request_identity) (r : RecoveryPlanRecord) : bool :=
  bool_decide (rp_status r = PR_OPEN)
  && match rp_lifecycle r ≫= lc_pr with
     | Some pr => String.eqb (pr_url pr) (pi_pr_url i) && String.eqb (lower (pr_repo_ref pr)) (casefold (pi_repo_ref i))
                  && String.eqb (pr_base_branch pr) (pi_base_branch i) && (pr_number pr =? pi_pr_number i)
                  && String.eqb (pr_node_id pr) (pi_pr_node_id i) && String.eqb (pr_head_ref pr) (pi_head_ref i)
     | None => false
     end.

Definition find_open_recovery_plan_for_pull_request_base_identity (i : pull_request_identity) (t : recovery_tables)
    : option RecoveryPlanRecord := only_row (base_identity_matches i) t.

Definition find_open_recovery_plan_for_pull_request (i : pull_request_identity) (t : recovery_tables)
    : option RecoveryPlanRecord :=
  only_row (fun r => base_identity_matches i r
                     && match rp_lifecycle r ≫= lc_pr with
                        | Some pr => String.eqb (pr_head_sha pr) (pi_head_sha i)
                        | None => false
                        end) t.

Definition in_workflow_statuses (s : recovery_status) : bool :=
  bool_decide (s ∈ [DEPLOY_PENDING; VERIFICATION_PENDING; COMPLETED; FAILED]).

Definition get_recovery_plan_for_workflow (workspace_id workflow_run_id binding_id application_id : string)
    (t : recovery_tables) : option RecoveryPlanRecord :=
  only_row (fun r => String.eqb (rp_workspace_id r) workspace_id && in_workflow_statuses (rp_status r)
                     && match rp_lifecycle r ≫= lc_merge with
                        | Some m => String.eqb (mg_workflow_run_id m) workflow_run_id
                                    && String.eqb (mg_binding_id m) binding_id
                                    && String.eqb (mg_application_id m) application_id
                        | None => false
                        end) t.

(** [target["cluster_id"].astext]. *)
Definition cluster_text (plan : odict json) : option string :=
  match dict_get "cluster_id" (mapping (dict_get "target" plan)) with
  | Some (JStr s) => Some s
  | Some JNull | None => None
  | Some v => Some (json_dumps v)
  end.

Definition list_recovery_verification_plans (workspace_id cluster_id : string) (limit : Z) (t : recovery_tables)
    : list RecoveryPlanRecord :=
  take (Z.to_nat (Z.max 1 (Z.min limit 500)))
    (order_by oldest_plan
       (base.filter (fun r => rp_workspace_id r = workspace_id /\ rp_status r = VERIFICATION_PENDING
                         /\ cluster_text (rp_plan r) = Some cluster_id) (rows (rt_plans t)))).

(** ** The janitor *)

Definition deadline_of (r : RecoveryPlanRecord) : option Z := ve_deadline_at (verification_of (rp_lifecycle r)).

Definition is_overdue (now : Z) (r : RecoveryPlanRecord) : bool :=
  bool_decide (rp_status r = VERIFICATION_PENDING)
  && match deadline_of r with Some d => d <=? now | None => false end.

Definition earliest_deadline (x y : RecoveryPlanRecord) : bool :=
  let d r := default 0 (deadline_of r) in
  if d x =? d y then rp_id x <=? rp_id y else d x <? d y.

Section Expire.
Context `{verification_texts}.

Definition expired_verification (now : Z) (v : recovery_verification) : recovery_verification :=
  v <| ve_status := "failed" |> <| ve_last_reason_code := "verification_window_expired" |>
    <| ve_last_reason := tx_overdue |> <| ve_expired_at := Some now |>.

Definition expired_lifecycle (now : Z) (lc : option recovery_lifecycle) : recovery_lifecycle :=
  (default no_lifecycle lc) <| lc_phase := "failed" |>
    <| lc_verification := Some (expired_verification now (verification_of lc)) |>
    <| lc_failure := Some {| fl_stage := None; fl_reason_code := "verification_window_expired"; fl_reason := tx_overdue;
                             fl_details := [] |} |>.

Definition expire_row (now : Z) (r : RecoveryPlanRecord) : RecoveryPlanRecord :=
  r <| rp_status := FAILED |> <| rp_lifecycle := Some (expired_lifecycle now (rp_lifecycle r)) |> <| rp_updated_at := now |>.

Definition expired_event (now : Z) (r : RecoveryPlanRecord) : recovery_event :=
  let v := expired_verification now (verification_of (rp_lifecycle r)) in
  {| re_source := "rca-timeline-janitor"; re_correlation_id := rp_correlation_id r; re_workspace_id := rp_workspace_id r;
     re_body := VerificationFailed
       {| vf_plan_id := rp_plan_id r; vf_incident_id := rp_incident_id r; vf_reason_code := "verification_window_expired";
          vf_reason := tx_overdue; vf_evidence_ref := rp_evidence_ref r; vf_before := ve_before v; vf_after := ve_after v |} |}.

(** Rows another transaction has locked are skipped. *)
Definition overdue_plans (now limit : Z) (locked : RecoveryPlanRecord -> bool) (t : recovery_tables)
    : list RecoveryPlanRecord :=
  take (Z.to_nat (Z.max 1 (Z.min limit 500)))
    (order_by earliest_deadline (base.filter (fun r => is_overdue now r = true /\ locked r = false) (rows (rt_plans t)))).

Definition expire_recovery_verifications (now limit : Z) (locked : RecoveryPlanRecord -> bool) (t : recovery_tables)
    : recovery_tables * list RecoveryPlanRecord :=
  let overdue := overdue_plans now limit locked t in
  let expired := map (expire_row now) overdue in
  (stage_all (map (expired_event now) overdue) (foldl (fun t r => put_plan r t) t expired), expired).
End Expire.
