(* ===== verification/RecoveryWorker.v ===== *)
(** The recovery worker ([services/ai/rca-feedback-worker/app.py]).

    A handler runs in one transaction (READ COMMITTED): what it reads is what
    others committed until then, and a row it writes stays locked until the
    commit.  So a handler is a program whose reads are steps of their own and
    whose writes are one step, its commit, with the events it yields. *)

From S2P Require Import Prelude PyString Json EventStore Outbox Transactions AlertStore.
From S2P Require Import RecoveryEvidence RecoveryVerification RecoveryPlans.
From Stdlib Require Import QArith.QArith.
From coqutil Require Import Datatypes.RecordSettersUsingExistingGetters.
#[global] Open Scope Z_scope.

Arguments RecordSettersUsingExistingGetters.const {E} newValue _ /.

Abbreviation recovery_prog A := (prog recovery_tables recovery_error A) (only parsing).

Definition FEEDBACK_WORKER : string := "rca-feedback-worker".

Definition event_for (source : string) (r : RecoveryPlanRecord) (b : recovery_body) : recovery_event :=
  {| re_source := source; re_correlation_id := rp_correlation_id r; re_workspace_id := rp_workspace_id r; re_body := b |}.

(** A compare-and-set and what is yielded when it took effect. *)
Definition update_and_yield (now : Z) (r : RecoveryPlanRecord) (expected : list recovery_status)
    (status : recovery_status) (lifecycle : recovery_lifecycle) (clear_selection : bool)
    (events : list recovery_event) (t : recovery_tables) : recovery_tables * bool :=
  match update_recovery_plan_lifecycle_if_status now (rp_plan_id r) (rp_workspace_id r) expected status lifecycle
          clear_selection t with
  | (t, Some _) => (stage_all events t, true)
  | (t, None) => (t, false)
  end.

Section Worker.
Context `{python_values} `{verification_texts}.

(** ** Starting a verification *)

Definition workflow_matches (lc : recovery_lifecycle) (w : workflow_run)
    (workspace_id workflow_run_id binding_id application_id : string) : bool :=
  match lc_merge lc with
  | Some m =>
      String.eqb (strip (mg_workflow_run_id m)) workflow_run_id && String.eqb (strip (mg_binding_id m)) binding_id
      && String.eqb (strip (mg_application_id m)) application_id
      && String.eqb (strip (mg_merge_commit_sha m)) (strip (wr_commit_sha w))
      && String.eqb (strip (mg_cluster_id m)) (strip (wr_cluster_id w))
      && String.eqb (strip (wr_workspace_id w)) workspace_id && String.eqb (strip (wr_binding_id w)) binding_id
      && String.eqb (strip (wr_application_id w)) application_id && String.eqb (strip (wr_status w)) "succeeded"
  | None => false
  end.

Definition started_verification (now : Z) (v : recovery_verification) : recovery_verification :=
  let maximum_seconds := match ve_maximum_seconds v with
                         | Some 0 | None => DEFAULT_MAXIMUM_SECONDS
                         | Some m => m
                         end in
  v <| ve_status := "verification_pending" |> <| ve_started_at := Some now |>
    <| ve_deadline_at := Some (verification_deadline now maximum_seconds) |> <| ve_healthy_since := None |>
    <| ve_last_reason_code := "waiting_for_post_deploy_evidence" |> <| ve_last_reason := tx_waiting |>.

(** Also the handler of [WorkflowRunCompletedBody] and [RecoveryPrMergedBody]. *)
Definition start_recovery_verification (now : Z) (workspace_id workflow_run_id binding_id application_id : string)
    : recovery_prog bool :=
  record ← read (get_recovery_plan_for_workflow workspace_id workflow_run_id binding_id application_id);
  match record with
  | Some r =>
      if negb (bool_decide (rp_status r = DEPLOY_PENDING)) then Ret false else
      let lc := default no_lifecycle (rp_lifecycle r) in
      workflow ← read (fun t => rt_workflow_runs t !! workflow_run_id);
      match workflow with
      | Some w =>
          if negb (workflow_matches lc w workspace_id workflow_run_id binding_id application_id) then Ret false else
          let v := started_verification now (verification_of (rp_lifecycle r)) in
          tx (fun t => Ok (update_and_yield now r [DEPLOY_PENDING] VERIFICATION_PENDING
            (lc <| lc_phase := "verification_pending" |> <| lc_verification := Some v |>) false
            [event_for FEEDBACK_WORKER r (VerificationStarted
               {| vs_plan_id := rp_plan_id r; vs_incident_id := rp_incident_id r; vs_workflow_run_id := workflow_run_id;
                  vs_started_at := now; vs_deadline_at := default 0 (ve_deadline_at v); vs_expected := ve_expected v;
                  vs_before := ve_before v |})] t))
      | None => Ret false
      end
  | None => Ret false
  end.

Definition on_recovery_deploy_failed (now : Z) (workspace_id workflow_run_id binding_id application_id reason : string)
    : recovery_prog bool :=
  record ← read (get_recovery_plan_for_workflow workspace_id workflow_run_id binding_id application_id);
  match record with
  | Some r =>
      if negb (bool_decide (rp_status r = DEPLOY_PENDING)) then Ret false else
      let lc := (default no_lifecycle (rp_lifecycle r)) <| lc_phase := "failed" |>
                  <| lc_failure := Some {| fl_stage := None; fl_reason_code := "recovery_deploy_failed"; fl_reason := reason;
                                           fl_details := [("workflow_run_id", JStr workflow_run_id)] |} |> in
      tx (fun t => Ok (update_and_yield now r [DEPLOY_PENDING] FAILED lc false
        [event_for FEEDBACK_WORKER r (VerificationFailed
           {| vf_plan_id := rp_plan_id r; vf_incident_id := rp_incident_id r; vf_reason_code := "recovery_deploy_failed";
              vf_reason := reason; vf_evidence_ref := rp_evidence_ref r;
              vf_before := ve_before (verification_of (Some lc)); vf_after := None |})] t))
  | None => Ret false
  end.

(** ** Judging evidence *)

(** [{str(alert["event_id"]): alert for alert in ...}.values()]. *)
Definition alerts_by_id (alerts : list AlertEvent) : list AlertEvent :=
  (foldl (fun d e => dict_set (ae_event_id e) e d) []
     (base.filter (fun e => ae_event_id e <> "") alerts)).*2.

Definition no_query : event_query :=
  {| eq_from_time := None; eq_to_time := None; eq_rule_id := None; eq_rule_name := None; eq_source := None;
     eq_incident_ids := None; eq_event_ids := None; eq_subject_key := None; eq_severity := None; eq_status := None |}.

Definition original_query (event_id : string) : event_query :=
  {| eq_from_time := None; eq_to_time := None; eq_rule_id := None; eq_rule_name := None; eq_source := None;
     eq_incident_ids := None; eq_event_ids := Some [event_id]; eq_subject_key := None; eq_severity := None;
     eq_status := None |}.

Definition refire_query (started_at : Z) (subject_key : string) : event_query :=
  {| eq_from_time := Some started_at; eq_to_time := None; eq_rule_id := None;
     eq_rule_name := Some STANDARD_SLI_ALERT_NAME; eq_source := Some "alertmanager"; eq_incident_ids := None;
     eq_event_ids := None; eq_subject_key := Some subject_key; eq_severity := None; eq_status := None |}.

Definition alerts_of_record (workspace_id : string) (v : recovery_verification) : recovery_prog (list AlertEvent) :=
  let original_event_id := default "" (ab_alert_event_id (ve_before v)) in
  let subject_key := default "" (ab_subject_key (ve_before v)) in
  match ve_started_at v with
  | Some started_at =>
      if String.eqb original_event_id "" || String.eqb subject_key "" then Ret [] else
      original_alerts ← read (fun t => list_alert_events workspace_id (original_query original_event_id) 1 (rt_alerts t));
      refire_alerts ← read (fun t => list_alert_events workspace_id (refire_query started_at subject_key) 500 (rt_alerts t));
      Ret (alerts_by_id (original_alerts ++ refire_alerts))
  | None => Ret []
  end.

Definition judged_verification (d : VerificationDecision) (v : recovery_verification) : recovery_verification :=
  v <| ve_status := vd_status d |> <| ve_healthy_since := vd_healthy_since d |>
    <| ve_last_healthy_observed_at := vd_last_healthy_observed_at d |>
    <| ve_distinct_evidence_count := Some (vd_distinct_evidence_count d) |>
    <| ve_last_evidence_key := vd_last_evidence_key d |> <| ve_last_reason_code := vd_reason_code d |>
    <| ve_last_reason := vd_reason d |> <| ve_after := Some (vd_after d) |>
    <| ve_last_session_samples ::= fun samples =>
         match ob_protected_active_sessions (af_observed (vd_after d)) with Some s => Some s | None => samples end |>.

Definition target_status (d : VerificationDecision) : recovery_status :=
  if String.eqb (vd_status d) "completed" then COMPLETED
  else if String.eqb (vd_status d) "failed" then FAILED else VERIFICATION_PENDING.

Definition apply_verification_terminal_state (d : VerificationDecision) (evidence_ref : string) (lc : recovery_lifecycle)
    : recovery_lifecycle :=
  match target_status d with
  | FAILED => lc <| lc_failure := Some {| fl_stage := None; fl_reason_code := vd_reason_code d; fl_reason := vd_reason d;
                                          fl_details := [("evidence_ref", JStr evidence_ref)] |} |>
  | COMPLETED => lc <| lc_failure := None |>
  | _ => lc
  end.

Definition judged_lifecycle (d : VerificationDecision) (evidence_ref : string) (r : RecoveryPlanRecord) : recovery_lifecycle :=
  apply_verification_terminal_state d evidence_ref
    ((default no_lifecycle (rp_lifecycle r))
       <| lc_verification := Some (judged_verification d (verification_of (rp_lifecycle r))) |>
       <| lc_phase := status_text (target_status d) |>).

(** A record of the list and the verdict on it. *)
Record judgement : Type := { ju_record : RecoveryPlanRecord; ju_decision : VerificationDecision }.

Definition judged_events (evidence_key : string) (j : judgement) : list recovery_event :=
  let r := ju_record j in
  let d := ju_decision j in
  let v := verification_of (rp_lifecycle r) in
  event_for FEEDBACK_WORKER r (VerificationUpdated
    {| vu_plan_id := rp_plan_id r; vu_incident_id := rp_incident_id r; vu_status := vd_status d;
       vu_reason_code := vd_reason_code d; vu_reason := vd_reason d; vu_evidence_ref := evidence_key;
       vu_before := ve_before v; vu_after := vd_after d |})
  :: match target_status d with
     | FAILED => [event_for FEEDBACK_WORKER r (VerificationFailed
         {| vf_plan_id := rp_plan_id r; vf_incident_id := rp_incident_id r; vf_reason_code := vd_reason_code d;
            vf_reason := vd_reason d; vf_evidence_ref := evidence_key; vf_before := ve_before v;
            vf_after := Some (vd_after d) |})]
     | COMPLETED => [event_for FEEDBACK_WORKER r (IncidentResolved
         {| ir_incident_id := rp_incident_id r;
            ir_cluster_id := tg_cluster_id (default (recovery_target (rp_plan r)) (ve_target v));
            ir_reason := vd_reason d; ir_evidence_ref := evidence_key; ir_recovery_plan_id := rp_plan_id r;
            ir_before := ve_before v; ir_after := vd_after d |})]
     | _ => []
     end.

Definition commit_judgement (now : Z) (evidence_key : string) (t : recovery_tables) (j : judgement) : recovery_tables :=
  (update_and_yield now (ju_record j) [VERIFICATION_PENDING] (target_status (ju_decision j))
     (judged_lifecycle (ju_decision j) evidence_key (ju_record j)) false (judged_events evidence_key j) t).1.

Fixpoint judge_records (workspace_id : string) (evidence : odict json) (now : Z) (records : list RecoveryPlanRecord)
    : recovery_prog (list judgement) :=
  match records with
  | [] => Ret []
  | r :: records =>
      let v := verification_of (rp_lifecycle r) in
      alerts ← alerts_of_record workspace_id v;
      rest ← judge_records workspace_id evidence now records;
      Ret ({| ju_record := r; ju_decision := evaluate_recovery_evidence (rp_plan r) v evidence alerts now |} :: rest)
  end.

Record ClusterEvidenceReceivedBody : Type := { ev_workspace_id : string; ev_cluster_id : string; ev_evidence_key : string }.

(** [now] is the time of the database when the handler asks for it. *)
Definition on_recovery_verification_evidence (now : Z) (evt : ClusterEvidenceReceivedBody) : recovery_prog unit :=
  if String.eqb (ev_evidence_key evt) "" then Ret tt else
  evidence ← read (fun t => rt_windows t !! (ev_workspace_id evt, ev_evidence_key evt));
  match evidence with
  | Some evidence =>
      records ← read (list_recovery_verification_plans (ev_workspace_id evt) (ev_cluster_id evt) 100);
      match records with
      | [] => Ret tt
      | _ =>
          judgements ← judge_records (ev_workspace_id evt) evidence now records;
          write (fun t => Ok (foldl (commit_judgement now (ev_evidence_key evt)) t judgements))
      end
  | None => Ret tt
  end.

(** ** Failures before a deployment *)

Definition on_recovery_safe_pr_failed (now : Z) (correlation_id workspace_id plan_id action_id reason_code reason summary
    evidence_ref : string) (details : odict json) : recovery_prog bool :=
  record ← read (get_recovery_plan_by_correlation correlation_id workspace_id);
  match record with
  | Some r =>
      if negb (String.eqb (strip (rp_plan_id r)) plan_id) || negb (bool_decide (rp_status r = SELECTED))
         || negb (String.eqb (text_of (rp_selected_action_id r)) action_id) then Ret false else
      let lc := (default no_lifecycle (rp_lifecycle r)) <| lc_phase := "failed" |>
                  <| lc_failure := Some {| fl_stage := Some "safe_pr"; fl_reason_code := reason_code; fl_reason := reason;
                                           fl_details := details |} |> in
      tx (fun t => Ok (update_and_yield now r [SELECTED] FAILED lc false
        [event_for FEEDBACK_WORKER r (RcaFollowupRequired reason_code summary evidence_ref)] t))
  | None => Ret false
  end.

(** Reopening after a rejected command. *)
Definition on_recovery_command_rejected (now : Z) (correlation_id workspace_id reason_code reason : string)
    : recovery_prog bool :=
  if String.eqb workspace_id "" then Ret false else
  record ← read (get_recovery_plan_by_correlation correlation_id workspace_id);
  match record with
  | Some r =>
      let action_id := text_of (rp_selected_action_id r) in
      if negb (bool_decide (rp_status r = SELECTED)) || String.eqb (strip (rp_plan_id r)) "" || String.eqb action_id ""
      then Ret false
      else tx (fun t =>
        let '(t, reopened) := reopen_recovery_plan_action now (strip (rp_plan_id r)) workspace_id action_id t in
        Ok (if reopened
            then stage_all [event_for FEEDBACK_WORKER r
                   (RcaFollowupRequired (if String.eqb (strip reason_code) "" then "command_rejected" else strip reason_code)
                      reason (if String.eqb (strip (rp_evidence_ref r)) "" then "unknown" else strip (rp_evidence_ref r)))] t
            else t, reopened))
  | None => Ret false
  end.

End Worker.
