(* ===== verification/RecoveryRoutes.v ===== *)
(** Tracking the pull request of a repair, and retrying one
    ([on_recovery_safe_pr_created] of [services/ai/rca-feedback-worker/app.py],
    [domains/gitops/router.py], [retry_recovery_by_correlation] of
    [domains/rca/router.py]).

    The contract an operator approved is [approved_params], what the code reads
    from the parameters of the approved action with its conversions.  Where the
    code asks for something this library does not model (the binding a plan is
    deployed by, the preflight of an action, digests), the answer is an input. *)

From S2P Require Import Prelude PyString Json EventStore Outbox Transactions AlertStore.
From S2P Require Import RecoveryEvidence RecoveryVerification RecoveryPlans RecoveryWorker.
From Stdlib Require Import QArith.QArith.
From coqutil Require Import Datatypes.RecordSettersUsingExistingGetters.
#[global] Open Scope Z_scope.

Arguments RecordSettersUsingExistingGetters.const {E} newValue _ /.

Section Routes.
Context `{python_values} `{verification_texts}.
(** The source of the events of the routes. *)
Context (source : string).

(** ** The pull request *)

Definition reject_tracked_recovery_pull_request (now : Z) (r : RecoveryPlanRecord) (reason_code reason : string)
    : recovery_prog bool :=
  let lc := (default no_lifecycle (rp_lifecycle r)) <| lc_phase := "failed" |>
              <| lc_failure := Some {| fl_stage := None; fl_reason_code := reason_code; fl_reason := reason; fl_details := [] |} |> in
  tx (fun t => Ok (update_and_yield now r [PR_OPEN] SELECTION_REQUESTED lc true
    [event_for source r (VerificationFailed
       {| vf_plan_id := rp_plan_id r; vf_incident_id := rp_incident_id r; vf_reason_code := reason_code;
          vf_reason := reason; vf_evidence_ref := rp_evidence_ref r; vf_before := ve_before (verification_of (Some lc));
          vf_after := None |})] t)).

(** What the route answers. *)
Inductive pr_answer : Type := NotTracked | Ignored | MergeBlocked (missing : list string) | PrAccepted.

(** What lies outside: the binding the plan is deployed by, the approved
    changes, the image, and the identifier of the merge's workflow run. *)
Record merge_context : Type := {
  mc_target : RecoveryPlanRecord -> bool; mc_changes_approved : RecoveryPlanRecord -> bool; mc_image : string;
  mc_workflow_run_id : string -> string -> string;
  mc_reject_reason : string -> string; mc_deployment_request : RecoveryPlanRecord -> odict json;
}.

Definition after_reject (p : recovery_prog bool) : recovery_prog pr_answer :=
  saved ← p; Ret (if (saved : bool) then PrAccepted else Ignored).

Definition merged_lifecycle (now : Z) (ctx : merge_context) (i : pull_request_identity) (r : RecoveryPlanRecord)
    (pr : recovery_pr) (workflow_run_id : string) : recovery_lifecycle :=
  let lc := default no_lifecycle (rp_lifecycle r) in
  lc <| lc_phase := "deploy_pending" |>
     <| lc_merge := Some {| mg_merge_commit_sha := pi_merge_commit_sha i; mg_merged_at := now;
                            mg_workflow_run_id := workflow_run_id; mg_binding_id := pr_binding_id pr;
                            mg_application_id := pr_application_id pr; mg_cluster_id := pr_cluster_id pr;
                            mg_attempt_id := at_id <$> lc_attempt lc; mg_retry_attempt := Some 0;
                            mg_deployment_request := mc_deployment_request ctx r;
                            mg_previous_workflow_run_id := None |} |>.

Definition handle_tracked_recovery_pull_request (now : Z) (ctx : merge_context) (i : pull_request_identity)
    : recovery_prog pr_answer :=
  let reject now r code := reject_tracked_recovery_pull_request now r code (mc_reject_reason ctx code) in
  base_record ← read (find_open_recovery_plan_for_pull_request_base_identity i);
  match base_record with
  | None => Ret NotTracked
  | Some base_record =>
      if String.eqb (pi_action i) "synchronize" then
        after_reject (reject now base_record "safe_pr_head_changed")
      else if negb (String.eqb (pi_action i) "closed") then Ret Ignored
      else if negb (pi_merged i) then
        after_reject (reject now base_record "safe_pr_closed_without_merge")
      else
        exact_record ← read (find_open_recovery_plan_for_pull_request i);
        match exact_record with
        | None => after_reject (reject now base_record "safe_pr_head_mismatch")
        | Some r =>
            if negb (mc_target ctx r) then
              after_reject (reject now r "recovery_binding_unavailable")
            else
              let v := verification_of (rp_lifecycle r) in
              match base.filter (fun b => b <> "") (ve_blockers v) with
              | [] =>
                  match rp_lifecycle r ≫= lc_pr with
                  | Some pr =>
                      if String.eqb (mc_image ctx) "" || String.eqb (pi_merge_commit_sha i) ""
                         || negb (mc_changes_approved ctx r)
                      then after_reject (reject now r "recovery_deploy_context_incomplete")
                      else
                        let workflow_run_id := mc_workflow_run_id ctx (rp_plan_id r) (pi_merge_commit_sha i) in
                        saved ← tx (fun t => Ok (update_and_yield now r [PR_OPEN] DEPLOY_PENDING
                          (merged_lifecycle now ctx i r pr workflow_run_id) false
                          [event_for source r (RecoveryPrMerged (rp_plan_id r) (rp_incident_id r)
                             (pi_merge_commit_sha i) workflow_run_id);
                           event_for source r (GitWebhookReceived workflow_run_id)] t));
                        Ret (if (saved : bool) then PrAccepted else Ignored)
                  | None => Raise (MissingField "pr")
                  end
              | missing => Ret (MergeBlocked missing)
              end
        end
  end.

(** ** Tracking a new pull request *)

Record SafePrCreatedBody : Type := {
  sp_mode : string; sp_pr_url : string; sp_pr_number : option Z; sp_pr_node_id : string; sp_head_ref : string;
  sp_head_sha : string; sp_repo_ref : string; sp_repository_id : string; sp_binding_id : string;
  sp_application_id : string; sp_base_branch : string; sp_commit_sha : string; sp_manifest_path : string;
  sp_environment : string; sp_workspace_id : string;
}.

(** [verification_window_seconds]; the values of the environment after [int],
    [None] where that fails. *)
Definition _bounded_env_seconds (value : option Z) (default_ lower upper : Z) : Z :=
  Z.max lower (Z.min (default default_ value) upper).

Definition verification_window_seconds (env_minimum env_maximum : option Z) : Z * Z :=
  let minimum := _bounded_env_seconds env_minimum DEFAULT_MINIMUM_SECONDS DEFAULT_MINIMUM_SECONDS DEFAULT_MAXIMUM_SECONDS in
  (minimum, _bounded_env_seconds env_maximum DEFAULT_MAXIMUM_SECONDS minimum DEFAULT_MAXIMUM_SECONDS).

(** [GITHUB_SHA_RE]. *)
Definition is_lower_hex (c : Ascii.ascii) : bool :=
  let n := Ascii.N_of_ascii c in ((48 <=? n) && (n <=? 57) || (97 <=? n) && (n <=? 102))%N.

Definition is_git_sha (s : string) : bool :=
  (40 <=? String.length s)%nat && (String.length s <=? 64)%nat && forallb is_lower_hex (String.list_ascii_of_string s).

Record approved_params : Type := {
  ap_repository_id : string; ap_binding_id : string; ap_application_id : string; ap_repo_ref : string;
  ap_base_branch : string; ap_commit_sha : string; ap_authorized_changes : list json;
  ap_verification_contract : string; ap_failure_ratio_before : option Q;
  ap_failure_ratio_metric_identity : odict json; ap_request_rate_baseline : option Q;
  ap_request_rate_metric_identity : odict json; ap_protected_baseline : list protected_item;
  ap_protected_session_baseline : list session_sample; ap_verification_alert_before : option alert_before;
  ap_expected_replicas : option Z; ap_evidence_cadence_seconds : option Z;
}.

Definition safe_pr_identity_ok (evt : SafePrCreatedBody) (p : approved_params) : bool :=
  String.eqb (sp_mode evt) "github_rest" && String.prefix "https://" (sp_pr_url evt)
  && match sp_pr_number evt with Some n => 0 <? n | None => false end
  && negb (String.eqb (sp_pr_node_id evt) "") && negb (String.eqb (sp_head_ref evt) "") && is_git_sha (sp_head_sha evt)
  && String.eqb (ap_repository_id p) (sp_repository_id evt) && String.eqb (ap_binding_id p) (sp_binding_id evt)
  && String.eqb (ap_application_id p) (sp_application_id evt) && String.eqb (ap_repo_ref p) (sp_repo_ref evt)
  && String.eqb (ap_base_branch p) (sp_base_branch evt) && String.eqb (ap_commit_sha p) (sp_commit_sha evt).

Definition bounded_ratio (value : option Q) (default_ : Q) : Q :=
  match value with
  | Some q => if Qle_bool q 0 then 0%Q else if Qle_bool (1 # 2) q then (1 # 2)%Q else q
  | None => default_
  end.

(** ** The alert before the repair *)

Definition usable_alert (target : recovery_target_ref) (correlation_id incident_id : string)
    (expected_identity : option (odict string)) (alert : AlertEvent) : bool :=
  alert_matches_target alert target
  && (String.eqb (text_of (ae_incident_id alert)) correlation_id || String.eqb (text_of (ae_incident_id alert)) incident_id)
  && String.eqb (casefold (strip (ae_source alert))) "alertmanager"
  && String.eqb (text_of (ae_rule_name alert)) STANDARD_SLI_ALERT_NAME
  && match ae_status alert with
     | resolved => match ae_resolved_at alert with Some r => ae_fired_at alert <=? r | None => false end
     | _ => true
     end
  && match ae_observed_value alert, ae_threshold alert with
     | Some observed, Some threshold => Qlt_bool threshold observed
     | _, _ => false
     end
  && match standard_sli_series_identity (ae_series_identity alert) with
     | Some identity =>
         metric_labels_match_target (map (fun kv => (kv.1, JStr kv.2)) identity) target
         && match expected_identity with Some e => bool_decide (identity = e) | None => true end
     | None => false
     end.

Definition snapshot_of (alert : AlertEvent) : alert_before :=
  {| ab_available := true; ab_alert_event_id := Some (ae_event_id alert); ab_rule_id := ae_rule_id alert;
     ab_rule_name := ae_rule_name alert; ab_source := Some (ae_source alert); ab_subject_key := Some (ae_subject_key alert);
     ab_series_identity := ae_series_identity alert; ab_observed_value := ae_observed_value alert;
     ab_threshold := ae_threshold alert; ab_fired_at := Some (ae_fired_at alert); ab_measured := [] |}.

(** [None]: no or several alerts match; so is an identity that is given but
    incomplete. *)
Definition before_alert_snapshot (alerts : list AlertEvent) (target : recovery_target_ref)
    (correlation_id incident_id : string) (expected_series_identity : option (odict string)) : alert_before :=
  match expected_series_identity with
  | Some e =>
      match standard_sli_series_identity (Some (map (fun kv => (kv.1, JStr kv.2)) e)) with
      | None => no_before
      | Some e =>
          match base.filter (fun a => usable_alert target correlation_id incident_id (Some e) a = true) alerts with
          | [alert] => snapshot_of alert
          | _ => no_before
          end
      end
  | None =>
      match base.filter (fun a => usable_alert target correlation_id incident_id None a = true) alerts with
      | [alert] => snapshot_of alert
      | _ => no_before
      end
  end.

(** ** The lifecycle of an open pull request *)

(** [a or b or c] before [text_value]. *)
Definition truthy_json (v : option json) : bool :=
  match v with
  | None | Some JNull | Some (JBool false) | Some (JInt 0) | Some (JStr "") | Some (JArr []) | Some (JObj []) => false
  | Some _ => true
  end.

Definition selected_recovery_target (payload selected : odict json) : recovery_target_ref :=
  let target := mapping (dict_get "target" payload) in
  let draft := mapping (dict_get "draft" selected) in
  let params := mapping (dict_get "params" draft) in
  let first key :=
    text (if truthy_json (dict_get key params) then dict_get key params
          else if truthy_json (dict_get key draft) then dict_get key draft else dict_get key target) in
  {| tg_cluster_id := first "cluster_id"; tg_namespace := first "namespace"; tg_resource_kind := first "resource_kind";
     tg_resource_name := first "resource_name" |}.

Definition selected_recovery_candidate (r : RecoveryPlanRecord) : option (odict json) :=
  let selected_action_id := text_of (rp_selected_action_id r) in
  if String.eqb selected_action_id "" then None else
  match base.filter (fun c => text (dict_get "action_id" c) = selected_action_id)
          (mappings_of (dict_get "candidates" (rp_plan r))) with
  | [c] => Some c
  | _ => None
  end.

(** What is known when the pull request appears: the collected and the approved
    values. *)
Record pr_baseline : Type := {
  pb_before : alert_before; pb_failure_ratio : option Q; pb_failure_ratio_identity : option (odict string);
  pb_request_rate : option Q; pb_request_rate_identity : option (odict string); pb_cadence : option Z;
}.

Definition requires_continuity (p : approved_params) : bool :=
  String.eqb (ap_verification_contract p) "protected_workload_continuity".

Definition missing_prerequisites (p : approved_params) (b : pr_baseline) : list string :=
  let need (missing : bool) (names : list string) := if missing then names else [] in
  let absent {A} (o : option (odict A)) := match o with None | Some [] => true | _ => false end in
  let positive (o : option Q) := match o with Some q => Qlt_bool 0 q | None => false end in
  order_by String.leb (dedup
    (need (requires_continuity p && (bool_decide (length (ap_protected_baseline p) = 0%nat)
                                     || bool_decide (length (ap_protected_session_baseline p) = 0%nat)))
       ["metadata:current_workload_snapshots"; "metrics:opsia_continuity_active_sessions"]
     ++ need (is_none (pb_failure_ratio b)) ["metrics:opsia_sli_failure_ratio"]
     ++ need (absent (pb_failure_ratio_identity b)) ["metrics:opsia_sli_failure_ratio_identity"]
     ++ need (negb (positive (pb_request_rate b))) ["metrics:opsia_sli_request_rate"]
     ++ need (absent (pb_request_rate_identity b)) ["metrics:opsia_sli_request_rate_identity"]
     ++ need (negb (ab_available (pb_before b)) || is_none (ab_threshold (pb_before b)))
          ["alertmanager:original_exact_alert"]
     ++ need (is_none (ap_expected_replicas p)) ["gitops:approved_replica_baseline"]
     ++ need (bool_decide (length (ap_authorized_changes p) = 0%nat)) ["gitops:approved_change_contract"]
     ++ need (negb (match pb_cadence b with Some c => 0 <? c | None => false end)) ["cluster:evidence_cadence"])).

Definition tracked_lifecycle (evt : SafePrCreatedBody) (p : approved_params) (b : pr_baseline)
    (window : Z * Z) (load_tolerance_ratio : Q) (target : recovery_target_ref) (r : RecoveryPlanRecord)
    : recovery_lifecycle :=
  let blockers := missing_prerequisites p b in
  no_lifecycle
    <| lc_phase := "pr_open" |>
    <| lc_attempt := rp_lifecycle r ≫= lc_attempt |>
    <| lc_pr := Some {| pr_url := sp_pr_url evt; pr_number := default 0 (sp_pr_number evt); pr_node_id := sp_pr_node_id evt;
                        pr_head_ref := sp_head_ref evt; pr_head_sha := sp_head_sha evt; pr_repo_ref := sp_repo_ref evt;
                        pr_repository_id := sp_repository_id evt; pr_binding_id := sp_binding_id evt;
                        pr_application_id := sp_application_id evt; pr_base_branch := sp_base_branch evt;
                        pr_manifest_path := sp_manifest_path evt; pr_environment := sp_environment evt;
                        pr_cluster_id := tg_cluster_id target |} |>
    <| lc_verification := Some
         (no_verification
            <| ve_minimum_seconds := Some window.1 |> <| ve_maximum_seconds := Some window.2 |>
            <| ve_expected := {| ex_failure_ratio_max := ab_threshold (pb_before b);
                                 ex_request_rate_baseline := pb_request_rate b;
                                 ex_request_rate_tolerance_ratio := Some load_tolerance_ratio;
                                 ex_replicas := ap_expected_replicas p;
                                 ex_failure_ratio_metric_identity := default [] (pb_failure_ratio_identity b);
                                 ex_request_rate_metric_identity := default [] (pb_request_rate_identity b);
                                 ex_evidence_cadence_seconds := pb_cadence b;
                                 ex_protected_workloads :=
                                   Some (if requires_continuity p then Z.of_nat (length (ap_protected_baseline p)) else 0) |} |>
            <| ve_before := pb_before b |> <| ve_protected_baseline := Some (ap_protected_baseline p) |>
            <| ve_protected_session_baseline := Some (ap_protected_session_baseline p) |> <| ve_target := Some target |>
            <| ve_status := match blockers with [] => "waiting_for_merge" | _ => "merge_blocked" end |>
            <| ve_blockers := blockers |>) |>
    <| lc_authorization := [("changes", JArr (ap_authorized_changes p))] |>.

(** The environment and the tables read beside the recovery tables. *)
Record pr_context : Type := {
  px_env_minimum : option Z; px_env_maximum : option Z; px_env_tolerance : option Q;
  px_approval : RecoveryPlanRecord -> approved_params; px_evidence : odict json; px_cluster_cadence : string -> option Z;
  px_identity_error : string;
}.

Definition pr_query (correlation_id incident_id : string) : event_query :=
  {| eq_from_time := None; eq_to_time := None; eq_rule_id := None; eq_rule_name := Some STANDARD_SLI_ALERT_NAME;
     eq_source := Some "alertmanager"; eq_incident_ids := Some (base.filter (fun s => s <> "") [correlation_id; incident_id]);
     eq_event_ids := None; eq_subject_key := None; eq_severity := None; eq_status := None |}.

Definition approved_identity (approved : odict json) (collected : option (odict string)) : option (odict string) :=
  match approved with [] => collected | _ => metric_identity approved end.

Definition on_recovery_safe_pr_created (now : Z) (ctx : pr_context) (correlation_id : string) (evt : SafePrCreatedBody)
    : recovery_prog bool :=
  record ← read (get_recovery_plan_by_correlation correlation_id (sp_workspace_id evt));
  match record with
  | Some r =>
      if negb (bool_decide (rp_status r = SELECTED)) then Ret false else
      match selected_recovery_candidate r with
      | Some selected =>
          if negb (String.eqb (text (dict_get "route" selected)) "draft_pr") then Ret false else
          let p := px_approval ctx r in
          if negb (safe_pr_identity_ok evt p) then
            tx (fun t =>
              let '(t, reopened) := reopen_recovery_plan_action now (rp_plan_id r) (sp_workspace_id evt)
                                      (default "" (rp_selected_action_id r)) t in
              Ok (if reopened
                  then stage_all [event_for FEEDBACK_WORKER r (RcaFollowupRequired "safe_pr_identity_incomplete"
                         (px_identity_error ctx)
                         (if String.eqb (rp_evidence_ref r) "" then "unknown" else rp_evidence_ref r))] t
                  else t, reopened))
          else
            let target := selected_recovery_target (rp_plan r) selected in
            let collected name := metric_sample_with_identity (px_evidence ctx) name target [] in
            let ratio := collected STANDARD_FAILURE_RATIO_METRIC in
            let rate := collected STANDARD_REQUEST_RATE_METRIC in
            let ratio_identity := approved_identity (ap_failure_ratio_metric_identity p) (snd <$> ratio) in
            alerts ← read (fun t => list_alert_events (sp_workspace_id evt) (pr_query correlation_id (rp_incident_id r)) 10
                                     (rt_alerts t));
            let before := match ap_verification_alert_before p with
                          | Some b => b
                          | None => before_alert_snapshot alerts target correlation_id (rp_incident_id r) ratio_identity
                          end in
            let b := {| pb_before := before;
                        pb_failure_ratio := match ap_failure_ratio_before p with Some q => Some q | None => fst <$> ratio end;
                        pb_failure_ratio_identity := ratio_identity;
                        pb_request_rate := match ap_request_rate_baseline p with Some q => Some q | None => fst <$> rate end;
                        pb_request_rate_identity := approved_identity (ap_request_rate_metric_identity p) (snd <$> rate);
                        pb_cadence := match ap_evidence_cadence_seconds p with
                                      | Some c => Some c
                                      | None => px_cluster_cadence ctx (tg_cluster_id target)
                                      end |} in
            tx (fun t => Ok (update_and_yield now r [SELECTED] PR_OPEN
              (tracked_lifecycle evt p b (verification_window_seconds (px_env_minimum ctx) (px_env_maximum ctx))
                 (bounded_ratio (px_env_tolerance ctx) (1 # 5)) target r) false
              [event_for FEEDBACK_WORKER r (RecoveryPrTracked (rp_plan_id r) (rp_incident_id r) (sp_pr_url evt))] t))
      | None => Ret false
      end
  | None => Ret false
  end.
End Routes.
