(* ===== verification/RecoveryOperator.v ===== *)
(** What operators do with a plan: select an action, retry a failed stage
    ([domains/rca/router.py]), and the worker that records a new plan
    ([services/ai/select-worker/app.py]). *)

From S2P Require Import Prelude PyString Json EventStore Outbox Transactions AlertStore.
From S2P Require Import RecoveryEvidence RecoveryVerification RecoveryPlans RecoveryWorker.
From Stdlib Require Import QArith.QArith.
From stdpp Require Import pretty.
From coqutil Require Import Datatypes.RecordSettersUsingExistingGetters.
#[global] Open Scope Z_scope.

Arguments RecordSettersUsingExistingGetters.const {E} newValue _ /.

Definition RECOVERY_PLAN_NOT_FOUND : string := "recovery plan not found".
Definition RECOVERY_PLAN_ALREADY_RESOLVED : string := "recovery plan already resolved".
Definition RECOVERY_PLAN_CHANGED : string := "recovery plan changed".
Definition RECOVERY_RETRY_UNAVAILABLE : string := "recovery retry is unavailable".
Definition RECOVERY_RETRY_IDENTITY_INVALID : string := "recovery retry identity is invalid".

(** [on_recovery_planned]: a plan to choose from, or one already chosen. *)
Definition on_recovery_planned (now : Z) (correlation_id workspace_id : string) (plan : odict json)
    (selected : option (string * string)) : recovery_prog unit :=
  tx (match selected with
      | None => upsert_recovery_plan now correlation_id workspace_id plan SELECTION_REQUESTED None None
      | Some (action_id, selected_by) =>
          upsert_recovery_plan now correlation_id workspace_id plan SELECTED (Some action_id) (Some selected_by)
      end).

(** The transaction of [select_recovery_action]. *)
Definition select_recovery_action (now : Z) (attempt_id plan_id workspace_id action_id user_id : string)
    : recovery_prog unit :=
  tx (fun t =>
    match select_recovery_plan_action_if_open now attempt_id plan_id workspace_id action_id user_id t with
    | (t, Some _) => Ok (t, tt)
    | (_, None) => Err (RecoveryHTTPException 409 RECOVERY_PLAN_ALREADY_RESOLVED)
    end).

Section Retry.
Context `{verification_texts}.
Context (source : string).

Definition next_retry (value : option Z) : Z :=
  match value with Some n => if 0 <=? n then n + 1 else 1 | None => 1 end.

Definition recovery_retry_number (value : option Z) : Z := next_retry value.

Definition recovery_selection_attempt_number (lc : recovery_lifecycle) : Z := next_retry (at_number <$> lc_attempt lc).

Definition recovery_workflow_matches (workflow : option workflow_run) (workspace_id workflow_run_id binding_id
    application_id cluster_id commit_sha status : string) : bool :=
  let some s := negb (String.eqb s "") in
  some workflow_run_id && some binding_id && some application_id && some cluster_id && some commit_sha
  && match workflow with
     | Some w =>
         String.eqb (strip (wr_workflow_run_id w)) workflow_run_id && String.eqb (strip (wr_workspace_id w)) workspace_id
         && String.eqb (strip (wr_binding_id w)) binding_id && String.eqb (strip (wr_application_id w)) application_id
         && String.eqb (strip (wr_cluster_id w)) cluster_id && String.eqb (strip (wr_commit_sha w)) commit_sha
         && String.eqb (strip (wr_status w)) status
     | None => false
     end.

Definition merge_matches (r : RecoveryPlanRecord) (m : recovery_merge) (workflow : option workflow_run) (status : string)
    : bool :=
  recovery_workflow_matches workflow (strip (rp_workspace_id r)) (strip (mg_workflow_run_id m)) (strip (mg_binding_id m))
    (strip (mg_application_id m)) (strip (mg_cluster_id m)) (strip (mg_merge_commit_sha m)) status.

(** The stored deployment request, as [GitWebhookReceivedBody.from_body] reads
    it; [None] when it cannot. *)
Record deployment_request : Type := {
  dr_workspace_id : string; dr_correlation_id : string; dr_workflow_run_id : string; dr_commit_sha : string;
  dr_repository_id : string; dr_repo_ref : string; dr_branch : string; dr_binding_id : string;
  dr_application_id : string; dr_cluster_id : string; dr_manifest_path : string; dr_image : string; dr_replicas : Z;
}.

(** Inputs of a retry: the reader of requests, the digest of a retried run, the
    encoding of the new request, and the verdict of the preflight. *)
Record retry_context : Type := {
  rx_request : odict json -> option deployment_request;
  rx_workflow_run_id : string -> string -> Z -> string;
  rx_new_request : odict json -> string -> odict json;
  rx_prepared : RecoveryPlanRecord -> result recovery_error unit;
  rx_attempt_id : string; rx_user_id : string; rx_reason : option string;
}.

Definition request_matches (r : RecoveryPlanRecord) (lc : recovery_lifecycle) (m : recovery_merge)
    (original : deployment_request) : bool :=
  let of_pr (f : recovery_pr -> string) := strip (default "" (f <$> lc_pr lc)) in
  String.eqb (dr_workspace_id original) (strip (rp_workspace_id r))
  && String.eqb (dr_correlation_id original) (strip (rp_correlation_id r))
  && String.eqb (dr_workflow_run_id original) (strip (mg_workflow_run_id m))
  && String.eqb (dr_commit_sha original) (strip (mg_merge_commit_sha m))
  && String.eqb (dr_repository_id original) (of_pr pr_repository_id)
  && String.eqb (dr_repo_ref original) (of_pr pr_repo_ref) && String.eqb (dr_branch original) (of_pr pr_base_branch)
  && String.eqb (dr_binding_id original) (strip (mg_binding_id m))
  && String.eqb (dr_application_id original) (strip (mg_application_id m))
  && String.eqb (dr_cluster_id original) (strip (mg_cluster_id m))
  && String.eqb (dr_manifest_path original) (of_pr pr_manifest_path)
  && negb (String.eqb (strip (dr_image original)) "") && (0 <? dr_replicas original).

(** The new run and its number; [None]: the identity cannot be trusted. *)
Definition deploy_retry_body (ctx : retry_context) (r : RecoveryPlanRecord) (lc : recovery_lifecycle)
    (workflow : option workflow_run) : option (recovery_merge * string * Z) :=
  m ← lc_merge lc;
  if negb (merge_matches r m workflow "failed") then None else
  original ← rx_request ctx (mg_deployment_request m);
  if negb (request_matches r lc m original) then None else
  let attempt := recovery_retry_number (mg_retry_attempt m) in
  Some (m, rx_workflow_run_id ctx (rp_plan_id r) (strip (mg_merge_commit_sha m)) attempt, attempt).

Definition retried (stage : string) (attempt now : Z) (ctx : retry_context) (reason : string) : option recovery_retry :=
  Some {| rr_stage := stage; rr_attempt := attempt; rr_requested_by := rx_user_id ctx; rr_requested_at := now;
          rr_reason := reason |}.

Definition deploy_retry_lifecycle (now : Z) (ctx : retry_context) (reason : string) (lc : recovery_lifecycle)
    (m : recovery_merge) (workflow_run_id : string) (attempt : Z) : recovery_lifecycle :=
  let v := verification_of (Some lc) in
  lc <| lc_failure := None |> <| lc_phase := "deploy_pending" |>
     <| lc_merge := Some (m <| mg_previous_workflow_run_id := Some (strip (mg_workflow_run_id m)) |>
                            <| mg_workflow_run_id := workflow_run_id |>
                            <| mg_deployment_request := rx_new_request ctx (mg_deployment_request m) workflow_run_id |>
                            <| mg_retry_attempt := Some attempt |>) |>
     <| lc_verification := Some
          (v <| ve_status := "waiting_for_deploy" |> <| ve_started_at := None |> <| ve_deadline_at := None |>
             <| ve_healthy_since := None |> <| ve_last_healthy_observed_at := None |>
             <| ve_distinct_evidence_count := Some 0 |> <| ve_last_evidence_key := None |> <| ve_after := None |>) |>
     <| lc_retry := retried "deploy" attempt now ctx reason |>.

Definition verification_retry_lifecycle (now : Z) (ctx : retry_context) (reason : string) (r : RecoveryPlanRecord)
    (lc : recovery_lifecycle) (workflow : option workflow_run) : option (recovery_lifecycle * Z) :=
  m ← lc_merge lc;
  if negb (merge_matches r m workflow "succeeded") then None else
  let v := verification_of (Some lc) in
  let maximum_seconds := match ve_maximum_seconds v with
                         | Some n => if (0 <? n) && (n <=? DEFAULT_MAXIMUM_SECONDS) then n else DEFAULT_MAXIMUM_SECONDS
                         | None => DEFAULT_MAXIMUM_SECONDS
                         end in
  let attempt := recovery_retry_number (ve_retry_attempt v) in
  Some (lc <| lc_failure := None |> <| lc_phase := "verification_pending" |>
           <| lc_verification := Some
                (v <| ve_status := "verification_pending" |> <| ve_started_at := Some now |>
                   <| ve_deadline_at := Some (verification_deadline now maximum_seconds) |>
                   <| ve_healthy_since := None |> <| ve_last_healthy_observed_at := None |>
                   <| ve_distinct_evidence_count := Some 0 |> <| ve_last_evidence_key := None |>
                   <| ve_last_session_samples := ve_protected_session_baseline v |> <| ve_after := None |>
                   <| ve_last_reason_code := "waiting_for_post_deploy_evidence" |> <| ve_last_reason := tx_restarted |>
                   <| ve_retry_attempt := Some attempt |>) |>
           <| lc_retry := retried "verification" attempt now ctx reason |>, attempt).

Definition conflict {A} (detail : string) : recovery_prog A := Raise (RecoveryHTTPException 409 detail).

(** The transaction of a retry: the transition and its events. *)
Definition commit_retry (now : Z) (r : RecoveryPlanRecord) (status : recovery_status) (lc : recovery_lifecycle)
    (stage : string) (attempt : Z) (deploy : list recovery_body) : recovery_prog unit :=
  tx (fun t =>
    match update_and_yield now r [FAILED] status lc false
            (map (event_for source r) (RecoveryRetryRequested (rp_plan_id r) (rp_incident_id r) stage attempt :: deploy)) t with
    | (t, true) => Ok (t, tt)
    | (_, false) => Err (RecoveryHTTPException 409 RECOVERY_RETRY_UNAVAILABLE)
    end).

Definition safe_pr_retry_lifecycle (now : Z) (ctx : retry_context) (action_id reason : string) (attempt : Z)
    : recovery_lifecycle :=
  no_lifecycle <| lc_phase := "selected" |>
    <| lc_attempt := Some {| at_id := "recovery-attempt-" +:+ rx_attempt_id ctx; at_number := attempt;
                             at_action_id := action_id; at_selected_by := rx_user_id ctx; at_selected_at := now |} |>
    <| lc_retry := retried "safe_pr" attempt now ctx reason |>.

Definition retry_reason (ctx : retry_context) (reason_code : string) : string :=
  match rx_reason ctx with
  | None | Some "" => "operator retried " +:+ reason_code
  | Some reason => reason
  end.

Definition retry_recovery_by_correlation (now : Z) (ctx : retry_context) (workspace_id correlation_id expected_plan_id : string)
    : recovery_prog unit :=
  record ← read (get_recovery_plan_by_correlation correlation_id workspace_id);
  match record with
  | None => Raise (RecoveryHTTPException 404 RECOVERY_PLAN_NOT_FOUND)
  | Some r =>
      if negb (String.eqb (strip (rp_plan_id r)) expected_plan_id) then conflict RECOVERY_PLAN_CHANGED
      else if negb (bool_decide (rp_status r = FAILED)) then conflict RECOVERY_RETRY_UNAVAILABLE
      else
        let lc := default no_lifecycle (rp_lifecycle r) in
        let failure_code := strip (default "" (fl_reason_code <$> lc_failure lc)) in
        let reason_code := if String.eqb failure_code "" then strip (ve_last_reason_code (verification_of (Some lc)))
                           else failure_code in
        let reason := retry_reason ctx reason_code in
        let action_id := text_of (rp_selected_action_id r) in
        if String.eqb action_id "" then conflict RECOVERY_RETRY_IDENTITY_INVALID
        else if String.eqb (text_of (lc_failure lc ≫= fl_stage)) "safe_pr" then
          _ ← lift (rx_prepared ctx r);
          let attempt := recovery_selection_attempt_number lc in
          commit_retry now r SELECTED (safe_pr_retry_lifecycle now ctx action_id reason attempt) "safe_pr" attempt []
        else
          let old_workflow_run_id := strip (default "" (mg_workflow_run_id <$> lc_merge lc)) in
          if String.eqb old_workflow_run_id "" then conflict RECOVERY_RETRY_IDENTITY_INVALID
          else
            workflow ← read (fun t => rt_workflow_runs t !! old_workflow_run_id);
            if String.eqb reason_code "recovery_deploy_failed" then
              match deploy_retry_body ctx r lc workflow with
              | Some (m, workflow_run_id, attempt) =>
                  commit_retry now r DEPLOY_PENDING (deploy_retry_lifecycle now ctx reason lc m workflow_run_id attempt)
                    "deploy" attempt [GitWebhookReceived workflow_run_id]
              | None => conflict RECOVERY_RETRY_IDENTITY_INVALID
              end
            else if String.eqb reason_code "verification_window_expired" then
              match verification_retry_lifecycle now ctx reason r lc workflow with
              | Some (retried_lc, attempt) =>
                  commit_retry now r VERIFICATION_PENDING retried_lc "verification" attempt []
              | None => conflict RECOVERY_RETRY_IDENTITY_INVALID
              end
            else conflict RECOVERY_RETRY_UNAVAILABLE
  end.
End Retry.
