(* ===== verification/RecoveryVerdicts.v ===== *)
(** What a verdict does to the streak of healthy windows, and when a healthy
    cluster is declared recovered. *)

From S2P Require Import Prelude PyString Json EventStore Outbox AlertStore.
From S2P Require Import RecoveryEvidence RecoveryVerification RecoveryPlans RecoveryWorker.
From Stdlib Require Import QArith.QArith.
From coqutil Require Import Datatypes.RecordSettersUsingExistingGetters.
#[global] Open Scope Z_scope.

Definition all_met (checks : odict (option bool)) : Prop := Forall (fun kv => kv.2 = Some true) checks.

(** A gap the cadence explains. *)
Definition gap_ok (cadence_seconds earlier later : Z) : Prop :=
  0 < later - earlier /\ 2 * (later - earlier) <= 3 * cadence_seconds * SECOND.

(** Windows, the newest first. *)
Fixpoint linked (cadence_seconds : Z) (ts : list Z) : Prop :=
  match ts with
  | later :: ((earlier :: _) as ts') => gap_ok cadence_seconds earlier later /\ linked cadence_seconds ts'
  | _ => True
  end.

Lemma names_with_nil value checks : names_with value checks = [] -> Forall (fun kv => kv.2 <> value) checks.
Proof.
  unfold names_with. intros H. apply fmap_nil_inv in H. apply Forall_forall. intros kv Hkv Hv.
  assert (Hin : kv ∈ base.filter (fun kv => kv.2 = value) checks) by by apply list_elem_of_filter.
  rewrite H in Hin. by apply not_elem_of_nil in Hin.
Qed.

Lemma all_checks_met checks : names_with (Some false) checks = [] -> names_with None checks = [] -> all_met checks.
Proof.
  intros Hf Hn. apply names_with_nil in Hf. apply names_with_nil in Hn. unfold all_met.
  apply Forall_forall. intros [n [[]|]] Hkv; [done| |].
  - by destruct (proj1 (Forall_forall _ _) Hf _ Hkv).
  - by destruct (proj1 (Forall_forall _ _) Hn _ Hkv).
Qed.

Section Verdicts.
Context `{python_values} `{verification_texts}.

(** A window after which the streak is broken. *)
Definition breaks (v : recovery_verification) (cadence_seconds observed_at : Z) : bool :=
  match ve_last_healthy_observed_at v with
  | Some previous => (observed_at - previous <=? 0) || (3 * cadence_seconds * SECOND <? 2 * (observed_at - previous))
  | None => false
  end.

Definition counted_from (v : recovery_verification) (cadence_seconds observed_at : Z) : Z :=
  default observed_at (if breaks v cadence_seconds observed_at then None else ve_healthy_since v).

Definition counted_windows (v : recovery_verification) (cadence_seconds observed_at : Z) : Z :=
  (if breaks v cadence_seconds observed_at then 0 else default 0 (ve_distinct_evidence_count v)) + 1.

Definition stable_enough (v : recovery_verification) (cadence_seconds observed_at : Z) : bool :=
  let minimum := minimum_seconds_of v in
  (minimum * SECOND <=? Z.max 0 (observed_at - counted_from v cadence_seconds observed_at))
  && (minimum_distinct_windows minimum cadence_seconds <=? counted_windows v cadence_seconds observed_at).

Definition past_deadline (v : recovery_verification) (now : Z) : bool :=
  match ve_deadline_at v with Some d => d <=? now | None => false end.

(** The window counts: it is trusted, every check holds, and the cadence is known. *)
Record counts (plan : odict json) (v : recovery_verification) (evidence : odict json) (alerts : list AlertEvent)
    (now observed_at started_at cadence_seconds : Z) : Prop := {
  c_observed : parse_datetime (dict_get "window_start" evidence) = Some observed_at;
  c_started : ve_started_at v = Some started_at;
  c_window : started_at <= observed_at <= now;
  c_checks : all_met (observe plan v evidence alerts).2;
  c_cadence : ex_evidence_cadence_seconds (ve_expected v) = Some cadence_seconds;
  c_positive : 0 < cadence_seconds;
}.

(** It was not judged just before. *)
Definition new_key (v : recovery_verification) (evidence : odict json) : Prop :=
  text (dict_get "evidence_key" evidence) <> "" ->
  text (dict_get "evidence_key" evidence) <> text_of (ve_last_evidence_key v).

Definition countable (plan : odict json) (v : recovery_verification) (evidence : odict json) (alerts : list AlertEvent)
    (now : Z) : Prop :=
  exists observed_at started_at cadence_seconds, counts plan v evidence alerts now observed_at started_at cadence_seconds.

(** A window is ignored, or ends the streak, or is counted. *)
Inductive verdict (plan : odict json) (v : recovery_verification) (evidence : odict json) (alerts : list AlertEvent)
    (now : Z) (d : VerificationDecision) : Prop :=
| verdict_ignored :
    ~ (countable plan v evidence alerts now /\ new_key v evidence) ->
    vd_status d = "pending" -> vd_healthy_since d = ve_healthy_since v ->
    vd_last_healthy_observed_at d = ve_last_healthy_observed_at v ->
    vd_distinct_evidence_count d = default 0 (ve_distinct_evidence_count v) -> verdict plan v evidence alerts now d
| verdict_reset :
    ~ countable plan v evidence alerts now ->
    vd_status d = (if past_deadline v now then vd_status d else "pending") -> vd_status d <> "completed" ->
    vd_healthy_since d = None -> vd_last_healthy_observed_at d = None -> vd_distinct_evidence_count d = 0 ->
    verdict plan v evidence alerts now d
| verdict_counted observed_at started_at cadence_seconds :
    counts plan v evidence alerts now observed_at started_at cadence_seconds -> new_key v evidence ->
    vd_status d = (if stable_enough v cadence_seconds observed_at then "completed"
                   else if past_deadline v now then "failed" else "pending") ->
    vd_healthy_since d = Some (counted_from v cadence_seconds observed_at) ->
    vd_last_healthy_observed_at d = Some observed_at ->
    vd_distinct_evidence_count d = counted_windows v cadence_seconds observed_at ->
    af_checks (vd_after d) = (observe plan v evidence alerts).2 ->
    af_evidence_observed_at (vd_after d) = Some observed_at -> af_observed_at (vd_after d) = now ->
    verdict plan v evidence alerts now d.

Lemma names_with_met value checks : all_met checks -> value <> Some true -> names_with value checks = [].
Proof.
  intros Hm Hv. unfold names_with. induction Hm as [|kv l Hkv _ IH]; [done|].
  rewrite filter_cons_False; [exact IH|]. congruence.
Qed.

Lemma verdict_of plan v evidence alerts now :
  verdict plan v evidence alerts now (evaluate_recovery_evidence plan v evidence alerts now).
Proof.
  unfold evaluate_recovery_evidence. destruct (observe plan v evidence alerts) as [observed checks] eqn:Hob.
  fold (past_deadline v now).
  destruct (negb (String.eqb (text (dict_get "evidence_key" evidence)) "") && _) eqn:Hdup.
  { apply verdict_ignored; try done. intros [_ Hk]. bool_to_prop. unfold new_key in Hk. by destruct Hk. }
  assert (Hnew : new_key v evidence).
  { intros Hk1 Hk2. apply String.eqb_neq in Hk1. rewrite Hk1, Hk2, String.eqb_refl in Hdup. discriminate. }
  assert (Hno : forall P : Prop, ~ P -> ~ (P /\ new_key v evidence)) by tauto.
  destruct (parse_datetime _) as [t|] eqn:Hp.
  2: { apply verdict_ignored; try done. apply Hno. intros (t & st & c & Hcount). by destruct Hcount; simplify_eq. }
  destruct (ve_started_at v) as [st|] eqn:Hs.
  2: { apply verdict_ignored; try done. apply Hno. intros (t' & st & c & Hcount). by destruct Hcount; simplify_eq. }
  destruct ((t <? st) || (now <? t)) eqn:Hw.
  { apply verdict_ignored; try done. apply Hno. intros (t' & st' & c & Hcount). destruct Hcount; simplify_eq.
    apply orb_true_iff in Hw as [Hw|Hw]; apply Z.ltb_lt in Hw; lia. }
  bool_to_prop.
  destruct (bool_decide (names_with (Some false) checks <> []) || bool_decide (names_with None checks <> [])) eqn:Hc.
  { assert (~ countable plan v evidence alerts now).
    { intros (t' & st' & c & Hcount). destruct Hcount as [_ _ _ Hm _ _]. rewrite Hob in Hm. simpl in Hm.
      rewrite !names_with_met in Hc by done. discriminate. }
    destruct (past_deadline v now) eqn:Ho; by apply verdict_reset; rewrite ?Ho. }
  apply orb_false_iff in Hc as [Hf Hn]. apply bool_decide_eq_false, dec_stable in Hf, Hn.
  destruct (ex_evidence_cadence_seconds _) as [c|] eqn:Hcad.
  2: { apply verdict_reset; try done; [|by destruct (past_deadline v now)].
       intros (t' & st' & c & Hcount). by destruct Hcount; simplify_eq. }
  destruct (c <=? 0) eqn:Hc.
  { apply verdict_reset; try done; [|by destruct (past_deadline v now)].
    intros (t' & st' & c' & Hcount). destruct Hcount; simplify_eq. bool_to_prop. lia. }
  bool_to_prop.
  fold (breaks v c t). fold (counted_from v c t). fold (counted_windows v c t).
  assert (Hcounts : counts plan v evidence alerts now t st c).
  { split; try done. rewrite Hob. by apply all_checks_met. }
  assert (Hst : stable_enough v c t
    = negb ((Z.max 0 (t - counted_from v c t) <? minimum_seconds_of v * SECOND)
            || (counted_windows v c t <? minimum_distinct_windows (minimum_seconds_of v) c))).
  { unfold stable_enough. by rewrite negb_orb, <- !Z.leb_antisym. }
  destruct (_ || _); simpl in Hst; [destruct (past_deadline v now) eqn:Ho|];
    apply (verdict_counted _ _ _ _ _ _ t st c); rewrite ?Hst, ?Ho, ?Hob; done.
Qed.

(** The verdict on a window that counts. *)
Lemma counted_verdict plan v evidence alerts now t st c :
  counts plan v evidence alerts now t st c -> new_key v evidence ->
  let d := evaluate_recovery_evidence plan v evidence alerts now in
  vd_status d = (if stable_enough v c t then "completed" else if past_deadline v now then "failed" else "pending")
  /\ vd_healthy_since d = Some (counted_from v c t) /\ vd_last_healthy_observed_at d = Some t
  /\ vd_distinct_evidence_count d = counted_windows v c t.
Proof.
  intros Hcount Hkey. assert (countable plan v evidence alerts now) by by exists t, st, c. simpl.
  destruct (verdict_of plan v evidence alerts now) as [Hn|Hn|t' st' c' Hcount' _ Hd1 Hd2 Hd3 Hd4]; [tauto|done|].
  by destruct Hcount, Hcount'; simplify_eq.
Qed.

(** C34. A verdict is [completed] exactly when the window is new and trusted, every
    check holds in it, and it extends a streak whose gaps the cadence explains to
    at least the minimum time and the minimum number of windows. *)
Theorem completed_exactly plan v evidence alerts now :
  vd_status (evaluate_recovery_evidence plan v evidence alerts now) = "completed" <->
  new_key v evidence /\ exists t st c, counts plan v evidence alerts now t st c /\ stable_enough v c t = true.
Proof.
  split.
  - intros Hd. destruct (verdict_of plan v evidence alerts now) as [_ Hp|_ _ Hp|t st c Hcount Hk Hp];
      [by rewrite Hd in Hp|done|]. split; [done|]. exists t, st, c. split; [done|]. rewrite Hd in Hp.
    destruct (stable_enough v c t); [done|]. by destruct (past_deadline v now).
  - intros (Hk & t & st & c & Hcount & Hs). destruct (counted_verdict plan v evidence alerts now t st c Hcount Hk) as (H1 & _).
    by rewrite H1, Hs.
Qed.

(** ** Judging one window after the other *)

Record window : Type := { wi_evidence : odict json; wi_alerts : list AlertEvent; wi_now : Z }.

Definition decision (plan : odict json) (v : recovery_verification) (w : window) : VerificationDecision :=
  evaluate_recovery_evidence plan v (wi_evidence w) (wi_alerts w) (wi_now w).

Fixpoint judge_all (plan : odict json) (v : recovery_verification) (ws : list window) : list VerificationDecision :=
  match ws with
  | [] => []
  | w :: ws => decision plan v w :: judge_all plan (judged_verification (decision plan v w) v) ws
  end.

(** Windows of a healthy cluster, one every [cadence_seconds] from [t] on. *)
Fixpoint on_schedule (plan : odict json) (v : recovery_verification) (started_at cadence_seconds t : Z) (ws : list window)
    : Prop :=
  match ws with
  | [] => True
  | w :: ws =>
      counts plan v (wi_evidence w) (wi_alerts w) (wi_now w) t started_at cadence_seconds
      /\ new_key v (wi_evidence w) /\ past_deadline v (wi_now w) = false
      /\ on_schedule plan (judged_verification (decision plan v w) v) started_at cadence_seconds
           (t + cadence_seconds * SECOND) ws
  end.

Definition not_judged (v : recovery_verification) : Prop :=
  ve_healthy_since v = None /\ ve_last_healthy_observed_at v = None /\ default 0 (ve_distinct_evidence_count v) = 0.

(** After [k] windows on schedule, the next expected at [t]. *)
Definition after_windows (v : recovery_verification) (c t k : Z) : Prop :=
  if k =? 0 then not_judged v
  else ve_healthy_since v = Some (t - k * (c * SECOND)) /\ ve_last_healthy_observed_at v = Some (t - c * SECOND)
       /\ default 0 (ve_distinct_evidence_count v) = k.

Lemma ceil_div_spec a b : 0 < b -> a <= b * ceil_div a b < a + b.
Proof. intros Hb. unfold ceil_div. pose proof (Z.div_mod (- a) b). pose proof (Z.mod_pos_bound (- a) b Hb). nia. Qed.

Lemma after_windows_next v c t k :
  0 < c -> 0 <= k -> after_windows v c t k ->
  counted_from v c t = t - k * (c * SECOND) /\ counted_windows v c t = k + 1.
Proof.
  intros Hc Hk Hv. unfold after_windows in Hv. unfold counted_from, counted_windows, breaks.
  destruct (Z.eqb_spec k 0) as [->|Hk0].
  - destruct Hv as (Hh & Hl & Hn). rewrite Hh, Hl, Hn. simpl. lia.
  - destruct Hv as (Hh & Hl & Hn). rewrite Hh, Hl, Hn.
    replace (t - (t - c * SECOND)) with (c * SECOND) by lia.
    assert (Hpos : 0 < c * SECOND) by (unfold SECOND; lia).
    destruct (Z.leb_spec (c * SECOND) 0); [lia|]. simpl.
    destruct (Z.ltb_spec (3 * c * SECOND) (2 * (c * SECOND))); [lia|]. simpl. lia.
Qed.

(** Time is enough when the windows are. *)
Lemma stable_after_windows v c t k :
  0 < c -> 0 <= k -> after_windows v c t k ->
  stable_enough v c t = (minimum_distinct_windows (minimum_seconds_of v) c <=? k + 1).
Proof.
  intros Hc Hk Hv. destruct (after_windows_next v c t k Hc Hk Hv) as [Hf Hn]. unfold stable_enough. rewrite Hf, Hn.
  set (m := minimum_seconds_of v). destruct (Z.leb_spec (minimum_distinct_windows m c) (k + 1)) as [Hle|]; [|by rewrite andb_false_r].
  rewrite andb_true_r. apply Z.leb_le. unfold minimum_distinct_windows in Hle. pose proof (ceil_div_spec m c Hc).
  assert (m <= k * c) by nia. unfold SECOND. lia.
Qed.

Lemma judged_after plan v w started_at c t k :
  0 < c -> 0 <= k -> after_windows v c t k ->
  counts plan v (wi_evidence w) (wi_alerts w) (wi_now w) t started_at c -> new_key v (wi_evidence w) ->
  after_windows (judged_verification (decision plan v w) v) c (t + c * SECOND) (k + 1).
Proof.
  intros Hc Hk Hv Hcount Hkey. destruct (after_windows_next v c t k Hc Hk Hv) as [Hf Hn].
  destruct (counted_verdict plan v _ _ _ t started_at c Hcount Hkey) as (_ & Hh & Hl & Hd).
  fold (decision plan v w) in Hh, Hl, Hd. unfold after_windows. destruct (Z.eqb_spec (k + 1) 0) as [|_]; [lia|].
  simpl. rewrite Hh, Hl, Hd, Hf, Hn. repeat split; f_equal; lia.
Qed.

Lemma judge_all_on_schedule plan started_at c ws : forall v t k,
  0 < c -> 0 <= k -> after_windows v c t k -> on_schedule plan v started_at c t ws ->
  forall i d, judge_all plan v ws !! i = Some d -> k + Z.of_nat i + 1 <= minimum_distinct_windows (minimum_seconds_of v) c ->
  vd_status d = (if k + Z.of_nat i + 1 =? minimum_distinct_windows (minimum_seconds_of v) c then "completed" else "pending").
Proof.
  induction ws as [|w ws IH]; intros v t k Hc Hk Hv Hws i d Hi Hle; [done|].
  destruct Hws as (Hcount & Hkey & Hdl & Hws). simpl in Hi. destruct i as [|i].
  - simpl in Hi. injection Hi as <-.
    destruct (counted_verdict plan v _ _ _ t started_at c Hcount Hkey) as (Hst & _). unfold decision. rewrite Hst, Hdl.
    rewrite (stable_after_windows v c t k Hc Hk Hv). rewrite Z.add_0_r in Hle |- *.
    destruct (Z.leb_spec (minimum_distinct_windows (minimum_seconds_of v) c) (k + 1)), (Z.eqb_spec (k + 1)
      (minimum_distinct_windows (minimum_seconds_of v) c)); done || lia.
  - simpl in Hi. set (v' := judged_verification (decision plan v w) v) in *.
    assert (Hm : minimum_seconds_of v' = minimum_seconds_of v) by done.
    specialize (IH v' (t + c * SECOND) (k + 1) Hc ltac:(lia) ltac:(by eapply judged_after) Hws i d Hi).
    rewrite Hm in IH. replace (k + Z.of_nat (S i) + 1) with (k + 1 + Z.of_nat i + 1) in * by lia. by apply IH.
Qed.

(** C32. Liveness of a recovery: windows of a healthy cluster that arrive at the
    cadence of its policy complete the verification with exactly the
    [max(2, ceil(minimum / cadence) + 1)]-th, and none before. *)
Theorem recovery_completes_on_time plan v started_at c t ws i d :
  not_judged v -> on_schedule plan v started_at c t ws -> 0 < c ->
  judge_all plan v ws !! i = Some d -> Z.of_nat i < minimum_distinct_windows (minimum_seconds_of v) c ->
  vd_status d = (if Z.of_nat i + 1 =? minimum_distinct_windows (minimum_seconds_of v) c then "completed" else "pending").
Proof.
  intros Hv Hws Hc Hi Hlt. apply (judge_all_on_schedule plan started_at c ws v t 0); [done|done|exact Hv|done|done|lia].
Qed.
End Verdicts.
