(* ===== verification/RecoveryRuns.v ===== *)
(** Every writer of the recovery plans, running concurrently.

    A machine is a pool ([Concurrent]) of the handlers of the recovery worker, the
    routes of operators and of pull requests, the janitor and the worker that
    records plans.  The environment writes alerts, evidence windows and workflow
    runs as it likes. *)

From S2P Require Import Prelude PyString Json EventStore Outbox Transactions Concurrent AlertStore AlertService.
From S2P Require Import RecoveryEvidence RecoveryVerification RecoveryPlans RecoveryWorker RecoveryRoutes.
From S2P Require Import RecoveryOperator RecoveryVerdicts.
From Stdlib Require Import QArith.QArith.
From stdpp Require Import relations.
From coqutil Require Import Datatypes.RecordSettersUsingExistingGetters.
#[global] Open Scope Z_scope.

Arguments RecordSettersUsingExistingGetters.const {E} newValue _ /.

Abbreviation plan_key := (string * string)%type (only parsing).
Definition key_of (r : RecoveryPlanRecord) : plan_key := (rp_workspace_id r, rp_plan_id r).

(** ** The life of a plan *)

Definition next_statuses (s : recovery_status) : list recovery_status :=
  match s with
  | SELECTION_REQUESTED => [SELECTION_REQUESTED; SELECTED]
  | SELECTED => [SELECTED; PR_OPEN; SELECTION_REQUESTED; FAILED]
  | PR_OPEN => [PR_OPEN; DEPLOY_PENDING; SELECTION_REQUESTED]
  | DEPLOY_PENDING => [DEPLOY_PENDING; VERIFICATION_PENDING; FAILED]
  | VERIFICATION_PENDING => [VERIFICATION_PENDING; COMPLETED; FAILED]
  | COMPLETED => [COMPLETED]
  | FAILED => [FAILED; SELECTED; DEPLOY_PENDING; VERIFICATION_PENDING]
  end.

(** What one transaction may do to a plan. *)
Definition plan_step (o o' : option RecoveryPlanRecord) : Prop :=
  match o, o' with
  | None, None => True
  | None, Some r' => rp_status r' = SELECTION_REQUESTED \/ rp_status r' = SELECTED
  | Some r, None => False
  | Some r, Some r' =>
      rp_id r' = rp_id r /\ rp_status r' ∈ next_statuses (rp_status r)
      /\ (rp_status r <> SELECTION_REQUESTED -> rp_plan r' = rp_plan r)
      /\ (rp_status r = COMPLETED -> rp_lifecycle r' = rp_lifecycle r)
  end.

Definition moves (t t' : recovery_tables) : Prop :=
  (exists new, rt_staged t' = rt_staged t ++ new) /\ forall k, plan_step (rt_plans t !! k) (rt_plans t' !! k).

(** ** What the published verdicts certify *)

(** A verdict of this plan, published, that found every check true in the window
    observed at [at_], not after the time of the verdict. *)
Definition published_healthy (staged : list recovery_event) (k : plan_key) (at_ : Z) : Prop :=
  exists e b, e ∈ staged /\ re_workspace_id e = k.1 /\ re_body e = VerificationUpdated b /\ vu_plan_id b = k.2
    /\ all_met (af_checks (vu_after b)) /\ af_evidence_observed_at (vu_after b) = Some at_
    /\ at_ <= af_observed_at (vu_after b).

Definition cadence_of (v : recovery_verification) : Z := default 0 (ex_evidence_cadence_seconds (ve_expected v)).

(** The windows (newest first) behind the counters of a verification. *)
Record streak (staged : list recovery_event) (k : plan_key) (v : recovery_verification) (ts : list Z) : Prop := {
  st_published : Forall (published_healthy staged k) ts;
  st_linked : linked (cadence_of v) ts;
  st_newest : head ts = ve_last_healthy_observed_at v;
  st_oldest : last ts = ve_healthy_since v;
  st_count : Z.of_nat (length ts) = default 0 (ve_distinct_evidence_count v);
  st_started : Forall (fun t => exists started, ve_started_at v = Some started /\ started <= t) ts;
}.

Definition has_streak (staged : list recovery_event) (k : plan_key) (v : recovery_verification) : Prop :=
  exists ts, streak staged k v ts.

(** Long enough to complete. *)
Definition certified (staged : list recovery_event) (k : plan_key) (v : recovery_verification) : Prop :=
  exists ts first newest, streak staged k v ts /\ last ts = Some first /\ head ts = Some newest /\ 0 < cadence_of v
    /\ minimum_seconds_of v * SECOND <= newest - first
    /\ minimum_distinct_windows (minimum_seconds_of v) (cadence_of v) <= Z.of_nat (length ts).

Definition state_ok (staged : list recovery_event) (k : plan_key) (status : recovery_status) (v : recovery_verification)
    : Prop :=
  match status with
  | PR_OPEN | DEPLOY_PENDING => not_judged v
  | VERIFICATION_PENDING => has_streak staged k v /\ ve_deadline_at v <> None
  | COMPLETED => certified staged k v
  | _ => True
  end.

Definition plan_ok (staged : list recovery_event) (k : plan_key) (r : RecoveryPlanRecord) : Prop :=
  key_of r = k /\ state_ok staged k (rp_status r) (verification_of (rp_lifecycle r)).

Definition resolves (k : plan_key) (e : recovery_event) : bool :=
  String.eqb (re_workspace_id e) k.1
  && match re_body e with IncidentResolved b => String.eqb (ir_recovery_plan_id b) k.2 | _ => false end.

Definition resolved_count (k : plan_key) (staged : list recovery_event) : nat :=
  length (base.filter (fun e => resolves k e = true) staged).

Definition is_completed (o : option RecoveryPlanRecord) : nat :=
  match o with Some r => if bool_decide (rp_status r = COMPLETED) then 1 else 0 | None => 0 end.

Definition plans_ok (t : recovery_tables) : Prop :=
  (forall k r, rt_plans t !! k = Some r -> plan_ok (rt_staged t) k r)
  /\ forall k, resolved_count k (rt_staged t) = is_completed (rt_plans t !! k).

(** ** The writers *)

Section Machine.
Context `{python_values} `{verification_texts}.

Definition sweep (now limit : Z) (locked : RecoveryPlanRecord -> bool) : recovery_prog (list RecoveryPlanRecord) :=
  tx (fun t => Ok (expire_recovery_verifications now limit locked t)).

Inductive starts : recovery_prog unit -> Prop :=
| starts_plan now c w plan selected : starts (forget (on_recovery_planned now c w plan selected))
| starts_select now a p w action user : starts (forget (select_recovery_action now a p w action user))
| starts_pr now ctx c evt : starts (forget (on_recovery_safe_pr_created now ctx c evt))
| starts_pr_failed now c w p a code reason summary ref details :
    starts (forget (on_recovery_safe_pr_failed now c w p a code reason summary ref details))
| starts_rejected now c w code reason : starts (forget (on_recovery_command_rejected now c w code reason))
| starts_webhook source now ctx i : starts (forget (handle_tracked_recovery_pull_request source now ctx i))
| starts_verification now w run binding app : starts (forget (start_recovery_verification now w run binding app))
| starts_deploy_failed now w run binding app reason :
    starts (forget (on_recovery_deploy_failed now w run binding app reason))
| starts_evidence now evt : starts (forget (on_recovery_verification_evidence now evt))
| starts_retry source now ctx w c p : starts (forget (retry_recovery_by_correlation source now ctx w c p))
| starts_sweep now limit locked : starts (forget (sweep now limit locked)).

Definition env (t t' : recovery_tables) : Prop :=
  rt_plans t' = rt_plans t /\ rt_plan_seq t' = rt_plan_seq t /\ rt_staged t' = rt_staged t.

Definition no_plans (t : recovery_tables) : Prop := rt_plans t = ∅ /\ rt_staged t = [].

Definition reachable (m : pool recovery_tables recovery_error) : Prop :=
  exists t, no_plans t /\ rtc (pool_step starts env) {| pl_tables := t; pl_threads := [] |} m.
End Machine.

(** ** Facts that only grow *)

Lemma streak_grows staged new k v ts : streak staged k v ts -> streak (staged ++ new) k v ts.
Proof.
  intros [Hp Hl Hn Ho Hc Hs]. split; try done. apply (Forall_impl (published_healthy staged k)); [done|].
  intros t (e & b & He & Hrest). exists e, b. split; [set_solver|done].
Qed.

Lemma state_ok_grows staged new k status v : state_ok staged k status v -> state_ok (staged ++ new) k status v.
Proof.
  destruct status; simpl; try done.
  - intros [[ts Hts] Hd]. split; [|done]. exists ts. by apply streak_grows.
  - intros (ts & first & newest & Hts & Hrest). exists ts, first, newest. split; [by apply streak_grows|done].
Qed.

Lemma not_judged_streak staged k v : not_judged v -> has_streak staged k v.
Proof. intros (Hh & Hl & Hc). exists []. split; try done; by rewrite ?Hh, ?Hl, ?Hc. Qed.

Lemma resolved_count_app k l l' : resolved_count k (l ++ l') = (resolved_count k l + resolved_count k l')%nat.
Proof. unfold resolved_count. by rewrite filter_app, length_app. Qed.

Lemma stays_status s : s ∈ next_statuses s.
Proof. destruct s; simpl; set_solver. Qed.

#[export] Instance moves_refl : Reflexive moves.
Proof.
  intros t. split; [exists []; by rewrite app_nil_r|]. intros k. destruct (rt_plans t !! k); simpl; [|done].
  split; [done|]. split; [apply stays_status|done].
Qed.

(** ** One row and its events *)

(** Events that resolve no other plan, and this one exactly when it completes. *)
Definition events_of (k : plan_key) (completes : bool) (events : list recovery_event) : Prop :=
  forall k', resolved_count k' events = if bool_decide (k' = k) && completes then 1%nat else 0%nat.

Lemma no_resolution k events : Forall (fun e => match re_body e with IncidentResolved _ => False | _ => True end) events ->
  events_of k false events.
Proof.
  intros Hev k'. rewrite andb_false_r. unfold resolved_count. rewrite length_zero_iff_nil.
  induction Hev as [|e l He _ IH]; [done|]. rewrite filter_cons_False; [exact IH|].
  unfold resolves. destruct (re_body e); simpl; rewrite ?andb_false_r; try done.
Qed.

(** Replacing the row of a plan and staging its events. *)
Lemma write_row t k cur row events :
  plans_ok t -> rt_plans t !! k = Some cur -> key_of row = k -> plan_step (Some cur) (Some row) ->
  state_ok (rt_staged t ++ events) k (rp_status row) (verification_of (rp_lifecycle row)) ->
  events_of k (bool_decide (rp_status row = COMPLETED) && negb (bool_decide (rp_status cur = COMPLETED))) events ->
  let t' := stage_all events (put_plan row t) in plans_ok t' /\ moves t t'.
Proof.
  intros [Hrows Hcount] Hcur Hkey Hstep Hstate Hev. simpl. unfold stage_all, put_plan. fold (key_of row). rewrite Hkey.
  assert (Hstep' := Hstep). destruct Hstep' as (_ & Hnext & _ & _).
  split; [split|]; simpl.
  - intros k' r. destruct (decide (k' = k)) as [->|Hne].
    + rewrite lookup_insert_eq. intros [= <-]. by split.
    + rewrite lookup_insert_ne by done. intros Hr. destruct (Hrows k' r Hr) as [Hk Hok]. split; [done|].
      by apply state_ok_grows.
  - intros k'. rewrite resolved_count_app, Hev, Hcount. destruct (decide (k' = k)) as [->|Hne].
    + rewrite lookup_insert_eq, Hcur. simpl. rewrite (bool_decide_true (k = k)) by done. simpl.
      destruct (decide (rp_status cur = COMPLETED)) as [Hc|Hc].
      * rewrite Hc in Hnext |- *. simpl in Hnext. apply list_elem_of_singleton in Hnext. by rewrite Hnext.
      * rewrite (bool_decide_false (rp_status cur = COMPLETED)) by done. rewrite andb_true_r. by case_bool_decide.
    + rewrite lookup_insert_ne by done. rewrite (bool_decide_false (k' = k)) by done. simpl. lia.
  - split; [by exists events|]. simpl. intros k'. destruct (decide (k' = k)) as [->|Hne].
    + by rewrite lookup_insert_eq, Hcur.
    + rewrite lookup_insert_ne by done. apply (proj2 (moves_refl t)).
Qed.

Section Writers.
Context `{python_values} `{verification_texts}.

Lemma update_row now r expected status lc clear events t :
  plans_ok t ->
  (forall s, s ∈ expected -> status ∈ next_statuses s /\ s <> COMPLETED) ->
  state_ok (rt_staged t ++ events) (key_of r) status (verification_of (Some lc)) ->
  events_of (key_of r) (bool_decide (status = COMPLETED)) events ->
  let t' := (update_and_yield now r expected status lc clear events t).1 in plans_ok t' /\ moves t t'.
Proof.
  intros Hok Hexp Hstate Hev. cbv zeta. unfold update_and_yield, update_recovery_plan_lifecycle_if_status. fold (key_of r).
  assert (Hsame : plans_ok t /\ moves t t) by (split; [done|apply moves_refl]).
  destruct (rt_plans t !! key_of r) as [cur|] eqn:Hcur; [|exact Hsame].
  destruct (bool_decide (rp_status cur ∈ expected)) eqn:Hin; [|exact Hsame].
  apply bool_decide_eq_true in Hin. destruct (Hexp _ Hin) as [Hnext Hnc]. simpl.
  destruct (proj1 Hok _ _ Hcur) as [Hkey _].
  apply (write_row t (key_of r) cur); try done.
  - by destruct clear.
  - by destruct clear.
  - by destruct clear.
  - rewrite (bool_decide_false (rp_status cur = COMPLETED)), andb_true_r by done. by destruct clear.
Qed.

(** [p], started when [K] holds, keeps the invariant and moves plans as above. *)
Definition safe {A} (K : recovery_tables -> Prop) (p : recovery_prog A) : Prop :=
  triple plans_ok moves moves K p (fun _ _ => True).

(** The same, as a last transaction. *)
Lemma update_triple (K : recovery_tables -> Prop) now r expected status lc clear events :
  (forall s, s ∈ expected -> status ∈ next_statuses s /\ s <> COMPLETED) ->
  events_of (key_of r) (bool_decide (status = COMPLETED)) events ->
  (forall t, plans_ok t -> K t -> state_ok (rt_staged t ++ events) (key_of r) status (verification_of (Some lc))) ->
  safe K (tx (fun t => Ok (update_and_yield now r expected status lc clear events t))).
Proof.
  intros Hexp Hev Hstate. apply triple_tx. intros t Ht HK.
  pose proof (update_row now r expected status lc clear events t Ht Hexp (Hstate t Ht HK) Hev) as Hup.
  by destruct (update_and_yield _ _ _ _ _ _ _ _) as [t' b].
Qed.

(** ** Verdicts and streaks *)

Lemma minimum_at_least v : DEFAULT_MINIMUM_SECONDS <= minimum_seconds_of v.
Proof. unfold minimum_seconds_of, bounded_seconds, DEFAULT_MINIMUM_SECONDS. destruct (ve_minimum_seconds v); [|lia]. destruct (_ <=? _); lia. Qed.

Lemma linked_cons c t ts :
  linked c ts -> (forall l, head ts = Some l -> gap_ok c l t) -> linked c (t :: ts).
Proof. destruct ts as [|l ts]; simpl; [done|]. intros Hl Hg. split; [by apply Hg|done]. Qed.

Lemma breaks_gap v c t l : breaks v c t = false -> ve_last_healthy_observed_at v = Some l -> gap_ok c l t.
Proof. unfold breaks. intros Hb Hl. rewrite Hl in Hb. bool_to_prop. unfold gap_ok. lia. Qed.

Lemma counted_streak staged k v c t st ts :
  streak staged k v ts -> published_healthy staged k t -> cadence_of v = c -> ve_started_at v = Some st -> st <= t ->
  exists ts', Forall (published_healthy staged k) ts' /\ linked c ts' /\ head ts' = Some t
    /\ last ts' = Some (counted_from v c t) /\ Z.of_nat (length ts') = counted_windows v c t
    /\ Forall (fun t => exists started, ve_started_at v = Some started /\ started <= t) ts'.
Proof.
  intros [Hp Hl Hn Ho Hc Hs] Ht <- Hst Hle. unfold counted_from, counted_windows.
  destruct (breaks v (cadence_of v) t) eqn:Hb.
  - exists [t]. repeat split; [by constructor|]. constructor; [by exists st|done].
  - exists (t :: ts). split; [by constructor|]. split.
    { apply linked_cons; [done|]. intros l Hh. apply (breaks_gap v); [done|congruence]. }
    split; [done|]. split; [rewrite last_cons, Ho; by destruct (ve_healthy_since v)|].
    split; [cbn [length]; lia|]. constructor; [by exists st|done].
Qed.

Lemma judged_streak staged k plan v evidence alerts now :
  let d := evaluate_recovery_evidence plan v evidence alerts now in
  has_streak staged k v ->
  (forall t, all_met (af_checks (vd_after d)) -> af_evidence_observed_at (vd_after d) = Some t ->
     t <= af_observed_at (vd_after d) -> published_healthy staged k t) ->
  has_streak staged k (judged_verification d v)
  /\ (vd_status d = "completed" -> certified staged k (judged_verification d v)).
Proof.
  intros d [ts Hts] Hpub. unfold d in *. clear d.
  destruct (verdict_of plan v evidence alerts now) as
    [_ Hst Hh Hl Hn|_ _ Hst Hh Hl Hn|t st c Hcount _ Hst Hh Hl Hn Hchecks Hobs Hnow].
  - split; [|intros Hd; by rewrite Hd in Hst]. exists ts. destruct Hts. split; simpl; rewrite ?Hh, ?Hl, ?Hn; done.
  - split; [|done]. exists []. split; simpl; rewrite ?Hh, ?Hl, ?Hn; done.
  - destruct Hcount as [_ Hstarted Hw Hm Hcad Hc].
    assert (Hcv : cadence_of v = c) by (unfold cadence_of; by rewrite Hcad).
    destruct (counted_streak staged k v c t st ts) as (ts' & H1 & H2 & H3 & H4 & H5 & H6); try done; [|lia|].
    { apply Hpub; [by rewrite Hchecks|done|]. rewrite Hnow. lia. }
    assert (Hts' : streak staged k (judged_verification (evaluate_recovery_evidence plan v evidence alerts now) v) ts').
    { split; simpl; rewrite ?Hh, ?Hl, ?Hn; try done. by rewrite <- Hcv in H2. }
    split; [by exists ts'|]. intros Hd. rewrite Hd in Hst.
    destruct (stable_enough v c t) eqn:Hen; [|by destruct (past_deadline v now)].
    unfold stable_enough in Hen. bool_to_prop. exists ts', (counted_from v c t), t.
    split; [done|]. split; [done|]. split; [done|].
    change (cadence_of (judged_verification _ v)) with (cadence_of v).
    change (minimum_seconds_of (judged_verification _ v)) with (minimum_seconds_of v). rewrite Hcv.
    pose proof (minimum_at_least v). unfold DEFAULT_MINIMUM_SECONDS, SECOND in *. split; [done|]. split; lia.
Qed.
End Writers.
