(* ===== verification/RecoverySafety.v ===== *)
(** Every writer keeps the invariant of the recovery plans; what that means for
    their runs. *)

From S2P Require Import Prelude PyString Json EventStore Outbox Transactions Concurrent AlertStore AlertService.
From S2P Require Import RecoveryEvidence RecoveryVerification RecoveryPlans RecoveryWorker RecoveryRoutes.
From S2P Require Import RecoveryOperator RecoveryVerdicts RecoveryRuns.
From Stdlib Require Import QArith.QArith.
From stdpp Require Import relations.
From coqutil Require Import Datatypes.RecordSettersUsingExistingGetters.
#[global] Open Scope Z_scope.

Arguments RecordSettersUsingExistingGetters.const {E} newValue _ /.

(** ** Rows that were read *)

(** What reading a row tells for good. *)
Definition known (r : RecoveryPlanRecord) (t : recovery_tables) : Prop :=
  state_ok (rt_staged t) (key_of r) (rp_status r) (verification_of (rp_lifecycle r)).

Definition known_opt (o : option RecoveryPlanRecord) (t : recovery_tables) : Prop :=
  match o with Some r => known r t | None => True end.

Lemma settled_known r : settled plans_ok moves (known r).
Proof. intros t t' [[[new Hnew] _] _] Hk. unfold known. rewrite Hnew. by apply state_ok_grows. Qed.

Lemma settled_known_opt o : settled plans_ok moves (known_opt o).
Proof. destruct o; [apply settled_known|by intros ????]. Qed.

Lemma known_lookup t k r : plans_ok t -> rt_plans t !! k = Some r -> known r t.
Proof. intros [Hrows _] Hr. destruct (Hrows k r Hr) as [Hk Hs]. unfold known. by rewrite Hk. Qed.

Lemma rows_lookup (m : gmap (string * string) RecoveryPlanRecord) r : r ∈ rows m -> exists k, m !! k = Some r.
Proof.
  unfold rows. rewrite list_elem_of_fmap. intros ((k & y) & -> & Hk%elem_of_map_to_list). by exists k.
Qed.

Lemma known_rows t r : plans_ok t -> r ∈ rows (rt_plans t) -> known r t.
Proof. intros Ht (k & Hk)%rows_lookup. by eapply known_lookup. Qed.

Lemma known_only_row t p : plans_ok t -> known_opt (only_row p t) t.
Proof.
  intros Ht. unfold only_row. destruct (base.filter _ _) as [|r [|]] eqn:Hf; try done.
  simpl. apply known_rows; [done|]. assert (Hin : r ∈ [r]) by set_solver. rewrite <- Hf in Hin.
  by apply list_elem_of_filter in Hin as [_ ?].
Qed.

Lemma head_elem {A} (l : list A) x : head l = Some x -> x ∈ l.
Proof. destruct l; intros [=]; subst; set_solver. Qed.

Lemma known_by_correlation t c w : plans_ok t -> known_opt (get_recovery_plan_by_correlation c w t) t.
Proof.
  intros Ht. unfold get_recovery_plan_by_correlation. destruct (head _) as [r|] eqn:Hh; [|done].
  apply head_elem, order_by_elem, list_elem_of_filter in Hh as [_ Hr]. by apply known_rows.
Qed.

Lemma workflow_row t w run b a r :
  get_recovery_plan_for_workflow w run b a t = Some r -> exists k, rt_plans t !! k = Some r.
Proof.
  unfold get_recovery_plan_for_workflow, only_row. destruct (base.filter _ _) as [|x [|]] eqn:Hf; try done.
  intros [= ->]. apply rows_lookup. assert (Hin : r ∈ [r]) by set_solver. rewrite <- Hf in Hin.
  by apply list_elem_of_filter in Hin as [_ ?].
Qed.

(** ** Rules for handlers *)

Section Rules.
Context `{python_values} `{verification_texts}.

Lemma safe_forget {A} (p : recovery_prog A) : safe (fun _ => True) p -> safe (fun _ => True) (forget p).
Proof.
  intros Hp. unfold safe, forget. eapply (triple_bind _ _ _ _ _ _ (fun _ _ => True)); [|exact Hp|].
  - intros ?. apply settled_const.
  - intros ? ? _ _. exact I.
Qed.

Lemma safe_ret {A} K (x : A) : safe K (Ret x).
Proof. intros ? _ _. exact I. Qed.

Lemma safe_read {X A} K (f : recovery_tables -> X) (Q : X -> recovery_tables -> Prop) (k : X -> recovery_prog A) :
  (forall x, settled plans_ok moves (Q x)) -> (forall t, plans_ok t -> K t -> Q (f t) t) ->
  (forall x, safe (Q x) (k x)) -> safe K (read f ≫= k).
Proof.
  intros HQ Hf Hk. unfold safe. eapply (triple_bind _ _ _ _ _ _ Q); [done| |done].
  apply triple_read; [apply moves_refl|done|done].
Qed.

(** A read whose answer the proof needs no fact about. *)
Lemma safe_look {X A} K (f : recovery_tables -> X) (k : X -> recovery_prog A) :
  settled plans_ok moves K -> (forall x, safe K (k x)) -> safe K (read f ≫= k).
Proof. intros HK Hk. by apply (safe_read K f (fun _ => K)). Qed.

Lemma safe_weaken {A} K K' (p : recovery_prog A) :
  (forall t, plans_ok t -> K' t -> K t) -> safe K p -> safe K' p.
Proof. apply triple_weaken. Qed.

(** After a last transaction the answer is computed. *)
Lemma safe_then {A B} K (p : recovery_prog A) (g : A -> B) : safe K p -> safe K (p ≫= (fun x => Ret (g x))).
Proof.
  intros Hp. unfold safe. eapply (triple_bind _ _ _ _ _ _ (fun _ _ => True)); [|exact Hp|].
  - intros ?. apply settled_const.
  - intros ? ? _ _. exact I.
Qed.

Lemma safe_step {A} K (f : recovery_tables -> result recovery_error (recovery_tables * A)) :
  (forall t, plans_ok t -> K t -> match f t with Ok (t', _) => plans_ok t' /\ moves t t' | Err _ => True end) -> safe K (tx f).
Proof. apply triple_tx. Qed.

(** ** Statements that write one row *)

Lemma reopen_row now p w a t events :
  plans_ok t -> events_of (w, p) false events ->
  let '(t', reopened) := reopen_recovery_plan_action now p w a t in
  let t' := if reopened then stage_all events t' else t' in plans_ok t' /\ moves t t'.
Proof.
  intros Ht Hev. unfold reopen_recovery_plan_action.
  assert (Hsame : plans_ok t /\ moves t t) by (split; [done|apply moves_refl]).
  destruct (rt_plans t !! (w, p)) as [cur|] eqn:Hcur; [|exact Hsame].
  destruct (bool_decide (rp_status cur = SELECTED) && _) eqn:Hc; [|exact Hsame]. bool_to_prop.
  destruct (proj1 Ht _ _ Hcur) as [Hkey _]. match goal with Hs : rp_status cur = SELECTED |- _ => rename Hs into Hsel end.
  apply (write_row t (w, p) cur); try done.
  - split; [done|]. rewrite Hsel. split; [simpl; set_solver|]. split; [done|discriminate].
Qed.

Lemma new_row t row :
  plans_ok t -> rt_plans t !! key_of row = None -> rp_status row = SELECTION_REQUESTED \/ rp_status row = SELECTED ->
  plans_ok (put_plan row t) /\ moves t (put_plan row t).
Proof.
  intros [Hrows Hcount] Hnone Hst. unfold put_plan. fold (key_of row). split; [split|]; simpl.
  - intros k r. destruct (decide (k = key_of row)) as [->|Hne].
    + rewrite lookup_insert_eq. intros [= <-]. split; [done|]. by destruct Hst as [-> | ->].
    + rewrite lookup_insert_ne by done. apply Hrows.
  - intros k. rewrite Hcount. destruct (decide (k = key_of row)) as [->|Hne].
    + rewrite lookup_insert_eq, Hnone. simpl. by destruct Hst as [-> | ->].
    + by rewrite lookup_insert_ne by done.
  - split; [exists []; by rewrite app_nil_r|]. simpl. intros k. destruct (decide (k = key_of row)) as [->|Hne].
    + by rewrite lookup_insert_eq, Hnone.
    + rewrite lookup_insert_ne by done. apply (proj2 (moves_refl t)).
Qed.

(** A statement without events. *)
Lemma write_quietly t k cur row :
  plans_ok t -> rt_plans t !! k = Some cur -> key_of row = k -> plan_step (Some cur) (Some row) ->
  (rp_status row = COMPLETED -> rp_status cur = COMPLETED) ->
  state_ok (rt_staged t) k (rp_status row) (verification_of (rp_lifecycle row)) ->
  plans_ok (put_plan row t) /\ moves t (put_plan row t).
Proof.
  intros Ht Hcur Hkey Hstep Hc Hs.
  destruct (write_row t k cur row []) as [Hok Hm]; try done.
  - by rewrite app_nil_r.
  - intros k'. destruct (bool_decide (rp_status row = COMPLETED)) eqn:Hr; [|by rewrite andb_false_r].
    apply bool_decide_eq_true, Hc in Hr. rewrite (bool_decide_true (rp_status cur = COMPLETED)) by done. by rewrite andb_false_r.
  - assert (Hid : stage_all [] (put_plan row t) = put_plan row t) by (destruct t as [ps sq al ws wr st];
    cbv -[app put_plan insert]; unfold put_plan; simpl; by rewrite app_nil_r).
    by rewrite Hid in *.
Qed.

Lemma upsert_row now c w plan status a b t :
  plans_ok t ->
  match upsert_recovery_plan now c w plan status a b t with
  | Ok (t', _) => plans_ok t' /\ moves t t'
  | Err _ => True
  end.
Proof.
  intros Ht. unfold upsert_recovery_plan.
  destruct (negb (bool_decide (status = SELECTION_REQUESTED)) && negb (bool_decide (status = SELECTED))) eqn:Hst; [done|].
  assert (Hnew : status = SELECTION_REQUESTED \/ status = SELECTED).
  { apply andb_false_iff in Hst as [Hst|Hst]; bool_to_prop; tauto. }
  destruct (plan_field "plan_id" plan) as [p|]; simpl; [|done].
  destruct (plan_field "incident_id" plan) as [i|]; simpl; [|done].
  destruct (plan_field "evidence_ref" plan) as [e|]; simpl; [|done].
  set (t1 := t <| rt_plan_seq := Z.succ (rt_plan_seq t) |>).
  assert (Ht1 : plans_ok t1) by exact Ht.
  destruct (rt_plans t !! (w, p)) as [old|] eqn:Hold; [|apply (new_row t1); [exact Ht1|exact Hold|exact Hnew]].
  destruct (proj1 Ht _ _ Hold) as [Hkey Hstate].
  apply (write_quietly t1 (w, p) old); try done.
  - split; [done|]. unfold is_monotonic. destruct (decide (rp_status old = SELECTION_REQUESTED)) as [Hs|Hs].
    + rewrite bool_decide_true by done. simpl. rewrite Hs. split; [destruct Hnew as [-> | ->]; set_solver|].
      by split.
    + rewrite bool_decide_false by done. simpl. split; [apply stays_status|done].
  - simpl. destruct (is_monotonic (rp_status old)); simpl; [done|]. destruct Hnew as [-> | ->]; discriminate.
  - simpl. destruct (is_monotonic (rp_status old)); simpl; [exact Hstate|]. by destruct Hnew as [-> | ->].
Qed.

Lemma select_row now attempt p w a user t :
  plans_ok t ->
  let t' := (select_recovery_plan_action_if_open now attempt p w a user t).1 in plans_ok t' /\ moves t t'.
Proof.
  intros Ht. cbv zeta. unfold select_recovery_plan_action_if_open.
  assert (Hsame : plans_ok t /\ moves t t) by (split; [done|apply moves_refl]).
  destruct (rt_plans t !! (w, p)) as [cur|] eqn:Hcur; [|exact Hsame].
  destruct (is_open (rp_status cur)) eqn:Ho; [|exact Hsame]. unfold is_open in Ho. bool_to_prop.
  destruct (proj1 Ht _ _ Hcur) as [Hkey _].
  apply (write_quietly t (w, p) cur); try done. split; [done|]. rewrite Ho. split; [simpl; set_solver|]. by split.
Qed.

(** ** Several rows at once *)

Lemma order_by_perm {A} (before : A -> A -> bool) l : order_by before l ≡ₚ l.
Proof.
  assert (Hins : forall x l, insert_ordered before x l ≡ₚ x :: l).
  { intros x l'. induction l' as [|y l' IH]; simpl; [done|]. destruct (before x y); [done|]. rewrite IH. constructor. }
  unfold order_by. induction l as [|x l IH]; simpl; [done|]. by rewrite Hins, IH.
Qed.

Lemma rows_keys t : plans_ok t -> NoDup (map key_of (rows (rt_plans t))).
Proof.
  intros [Hrows _]. assert (Hk : map key_of (rows (rt_plans t)) = (map_to_list (rt_plans t)).*1).
  { unfold rows. rewrite map_map. apply map_ext_in. intros [k r] Hin. simpl.
    apply list_elem_of_In, elem_of_map_to_list, Hrows in Hin as [Hk _]. done. }
  rewrite Hk. apply NoDup_fst_map_to_list.
Qed.

Lemma sublist_keys (l l' : list RecoveryPlanRecord) : sublist l l' -> NoDup (map key_of l') -> NoDup (map key_of l).
Proof. intros Hs Hn. eapply sublist_NoDup; [exact Hn|]. by apply (fmap_sublist key_of). Qed.

(** Selecting, ordering and cutting keep the keys apart. *)
Lemma selected_keys t (P : RecoveryPlanRecord -> Prop) `{forall r, Decision (P r)} before n :
  plans_ok t -> NoDup (map key_of (take n (order_by before (base.filter P (rows (rt_plans t)))))).
Proof.
  intros Ht. eapply sublist_keys; [apply sublist_take|]. rewrite (order_by_perm before).
  eapply sublist_keys; [apply sublist_filter|]. by apply rows_keys.
Qed.

Lemma fold_rows {X} (f : recovery_tables -> X -> recovery_tables) (key : X -> string * string)
    (P : X -> recovery_tables -> Prop) :
  (forall t x, plans_ok t -> P x t ->
     plans_ok (f t x) /\ moves t (f t x) /\ forall k, k <> key x -> rt_plans (f t x) !! k = rt_plans t !! k) ->
  (forall t x y, key y <> key x -> plans_ok t -> P x t -> P y t -> P y (f t x)) ->
  forall xs t, plans_ok t -> NoDup (map key xs) -> Forall (fun x => P x t) xs ->
  plans_ok (foldl f t xs) /\ moves t (foldl f t xs)
  /\ forall k, k ∉ map key xs -> rt_plans (foldl f t xs) !! k = rt_plans t !! k.
Proof.
  intros Hf HP. induction xs as [|x xs IH]; intros t Ht Hnd Hxs; simpl; [by split; [|split; [apply moves_refl|]]|].
  apply NoDup_cons in Hnd as [Hx Hnd]. apply Forall_cons in Hxs as [HPx Hxs].
  destruct (Hf t x Ht HPx) as (Ht1 & [[new1 Hs1] Hm1] & Hother1).
  assert (Hxs1 : Forall (fun y => P y (f t x)) xs).
  { rewrite Forall_forall in Hxs |- *. intros y Hy. apply HP; [|done|done|by apply Hxs].
    intros Heq. apply Hx. rewrite <- Heq. by apply list_elem_of_fmap_2. }
  destruct (IH (f t x) Ht1 Hnd Hxs1) as (Ht2 & [[new2 Hs2] Hm2] & Hother2).
  split; [done|]. split; [split|].
  - exists (new1 ++ new2). by rewrite Hs2, Hs1, app_assoc.
  - intros k. destruct (decide (k = key x)) as [->|Hne]; [rewrite Hother2 by done; apply Hm1|].
    rewrite <- Hother1 by done. apply Hm2.
  - intros k Hk. apply not_elem_of_cons in Hk as [Hne Hk]. by rewrite Hother2, Hother1.
Qed.

(** ** The janitor *)

Definition expire_one (now : Z) (t : recovery_tables) (r : RecoveryPlanRecord) : recovery_tables :=
  stage_all [expired_event now r] (put_plan (expire_row now r) t).

Lemma stage_all_app l l' t : stage_all l' (stage_all l t) = stage_all (l ++ l') t.
Proof. destruct t as [ps sq al ws wr st]. change (Build_recovery_tables ps sq al ws wr ((st ++ l) ++ l')
  = Build_recovery_tables ps sq al ws wr (st ++ l ++ l')). by rewrite app_assoc. Qed.

Lemma put_stage r l t : put_plan r (stage_all l t) = stage_all l (put_plan r t).
Proof. by destruct t. Qed.

Lemma puts_stage rs l : forall t, foldl (fun t r => put_plan r t) (stage_all l t)
  rs = stage_all l (foldl (fun t r => put_plan r t) t rs).
Proof. induction rs as [|r rs IH]; intros t; simpl; [done|]. by rewrite put_stage, IH. Qed.

Lemma stage_nothing t : stage_all [] t = t.
Proof. destruct t as [ps sq al ws wr st]. change (Build_recovery_tables ps sq al ws wr (st ++ [])
  = Build_recovery_tables ps sq al ws wr st). by rewrite app_nil_r. Qed.

(** The rows of a sweep, one after the other. *)
Lemma expire_as_fold now rs : forall t,
  stage_all (map (expired_event now) rs) (foldl (fun t r => put_plan r t) t (map (expire_row now) rs))
  = foldl (expire_one now) t rs.
Proof.
  induction rs as [|r rs IH]; intros t; simpl; [apply stage_nothing|].
  rewrite <- IH. unfold expire_one. by rewrite puts_stage, stage_all_app.
Qed.

Definition to_expire (r : RecoveryPlanRecord) (t : recovery_tables) : Prop :=
  rt_plans t !! key_of r = Some r /\ rp_status r = VERIFICATION_PENDING.

Lemma other_rows row events t k : k <> key_of row -> rt_plans (stage_all events (put_plan row t)) !! k = rt_plans t !! k.
Proof. intros Hk. unfold stage_all, put_plan. simpl. by apply lookup_insert_ne. Qed.

Lemma expire_one_ok now t r :
  plans_ok t -> to_expire r t ->
  plans_ok (expire_one now t r) /\ moves t (expire_one now t r)
  /\ forall k, k <> key_of r -> rt_plans (expire_one now t r) !! k = rt_plans t !! k.
Proof.
  intros Ht [Hr Hs]. unfold expire_one.
  destruct (write_row t (key_of r) r (expire_row now r) [expired_event now r]) as [Hok Hm]; try done.
  - split; [done|]. rewrite Hs. split; [simpl; set_solver|]. by split.
  - by apply no_resolution; constructor.
  - split; [done|]. split; [done|]. intros k. apply (other_rows (expire_row now r)).
Qed.

Lemma overdue_elem now limit locked t r :
  r ∈ overdue_plans now limit locked t -> r ∈ rows (rt_plans t) /\ is_overdue now r = true /\ locked r = false.
Proof.
  unfold overdue_plans. intros Hr%subseteq_take%order_by_elem%list_elem_of_filter. tauto.
Qed.

Lemma sweep_rows now limit locked t :
  plans_ok t ->
  let t' := (expire_recovery_verifications now limit locked t).1 in plans_ok t' /\ moves t t'.
Proof.
  intros Ht. unfold expire_recovery_verifications. cbv zeta. simpl. rewrite expire_as_fold.
  destruct (fold_rows (expire_one now) key_of to_expire (expire_one_ok now)) with (xs := overdue_plans now limit locked t)
    (t := t)
    as (Hok & Hm & _); try done.
  - intros t1 x y Hne _ _ [Hy Hs]. split; [|done]. unfold expire_one. by rewrite other_rows.
  - by apply selected_keys.
  - apply Forall_forall. intros r (Hr & Ho & _)%overdue_elem. apply rows_lookup in Hr as [k Hk].
    destruct (proj1 Ht _ _ Hk) as [Hkey _]. unfold is_overdue in Ho. apply andb_true_iff in Ho as [Ho _].
    apply bool_decide_eq_true in Ho. split; [by rewrite Hkey|done].
Qed.

(** ** The judge of evidence *)

Definition judged_now (now : Z) (j : judgement) (t : recovery_tables) : Prop :=
  let r := ju_record j in
  let v := verification_of (rp_lifecycle r) in
  has_streak (rt_staged t) (key_of r) v /\ ve_deadline_at v <> None
  /\ exists evidence alerts, ju_decision j = evaluate_recovery_evidence (rp_plan r) v evidence alerts now.

Lemma settled_streak k v : settled plans_ok moves (fun t => has_streak (rt_staged t) k v).
Proof. intros t t' [[[new Hnew] _] _] [ts Hts]. rewrite Hnew. exists ts. by apply streak_grows. Qed.

Lemma settled_judged now j : settled plans_ok moves (judged_now now j).
Proof. intros t t' HG (Hs & Hrest). split; [|done]. by eapply (settled_streak _ _ t t'). Qed.

Lemma judged_lifecycle_verification d ref r :
  verification_of (Some (judged_lifecycle d ref r)) = judged_verification d (verification_of (rp_lifecycle r)).
Proof. unfold judged_lifecycle, apply_verification_terminal_state. by destruct (target_status d). Qed.

Lemma target_completed d : target_status d = COMPLETED <-> vd_status d = "completed".
Proof.
  unfold target_status. destruct (String.eqb_spec (vd_status d) "completed") as [->|Hne]; [done|].
  split; [|done]. by destruct (String.eqb _ _).
Qed.

Lemma resolved_count_cons k e l :
  resolved_count k (e :: l) = ((if resolves k e then 1 else 0) + resolved_count k l)%nat.
Proof.
  unfold resolved_count. destruct (resolves k e) eqn:He; [by rewrite filter_cons_True|].
  rewrite filter_cons_False; [done|congruence].
Qed.

Lemma judged_events_of ref j :
  events_of (key_of (ju_record j)) (bool_decide (target_status (ju_decision j) = COMPLETED)) (judged_events ref j).
Proof.
  intros k'. unfold judged_events. rewrite resolved_count_cons. unfold resolves at 1. simpl. rewrite andb_false_r. simpl.
  destruct (target_status (ju_decision j)) eqn:Hs;
    rewrite ?resolved_count_cons; unfold resolves; simpl; rewrite ?andb_false_r; try done.
  destruct k' as [w p]. unfold key_of. simpl.
  destruct (String.eqb_spec (rp_workspace_id (ju_record j)) w) as [<-|Hw], (String.eqb_spec (rp_plan_id (ju_record j)) p)
    as [<-|Hp];
    simpl; [by rewrite bool_decide_true|rewrite bool_decide_false; [done|congruence]..].
Qed.

Lemma published_judgement ref j staged t :
  all_met (af_checks (vd_after (ju_decision j))) -> af_evidence_observed_at (vd_after (ju_decision j)) = Some t ->
  t <= af_observed_at (vd_after (ju_decision j)) ->
  published_healthy (staged ++ judged_events ref j) (key_of (ju_record j)) t.
Proof. intros Hm Ht Hle. eexists _, _. split; [apply elem_of_app; right; left|]. by split. Qed.

Lemma target_next d s : s = VERIFICATION_PENDING -> target_status d ∈ next_statuses s.
Proof. intros ->. unfold target_status. simpl. repeat case_match; set_solver. Qed.

Lemma update_others now r expected status lc clear events t k :
  plans_ok t -> k <> key_of r ->
  rt_plans (update_and_yield now r expected status lc clear events t).1 !! k = rt_plans t !! k.
Proof.
  intros Ht Hk. unfold update_and_yield, update_recovery_plan_lifecycle_if_status. fold (key_of r).
  destruct (rt_plans t !! key_of r) as [cur|] eqn:Hcur; [|done]. destruct (bool_decide _); [|done].
  destruct (proj1 Ht _ _ Hcur) as [Hkey _]. rewrite <- Hkey in Hk. cbn [fst]. rewrite other_rows; [done|]. by destruct clear.
Qed.

Lemma judgement_state now ref j t :
  judged_now now j t ->
  state_ok (rt_staged t ++ judged_events ref j) (key_of (ju_record j)) (target_status (ju_decision j))
    (judged_verification (ju_decision j) (verification_of (rp_lifecycle (ju_record j)))).
Proof.
  intros (Hstreak & Hdl & ev & al & Hd).
  assert (Hgrown : has_streak (rt_staged t ++ judged_events ref j) (key_of (ju_record j))
    (verification_of (rp_lifecycle (ju_record j))))
    by (destruct Hstreak as [ts Hts]; exists ts; by apply streak_grows).
  destruct (judged_streak _ _ (rp_plan (ju_record j)) _ ev al now Hgrown) as [Hjudged Hcert]; rewrite <- Hd in *.
  { intros u Hm Hu Hle. by apply published_judgement. }
  unfold state_ok. destruct (target_status (ju_decision j)) eqn:Hs; try exact I.
  - unfold target_status in Hs. by repeat case_match.
  - unfold target_status in Hs. by repeat case_match.
  - split; [exact Hjudged|exact Hdl].
  - by apply Hcert, target_completed.
Qed.

Lemma commit_row now ref t j :
  plans_ok t -> judged_now now j t ->
  plans_ok (commit_judgement now ref t j) /\ moves t (commit_judgement now ref t j)
  /\ forall k, k <> key_of (ju_record j) -> rt_plans (commit_judgement now ref t j) !! k = rt_plans t !! k.
Proof.
  intros Ht Hj. apply (judgement_state now ref) in Hj. unfold commit_judgement.
  rewrite <- judged_lifecycle_verification with (ref := ref) in Hj.
  destruct (update_row now (ju_record j) [VERIFICATION_PENDING] (target_status (ju_decision j))
    (judged_lifecycle (ju_decision j) ref (ju_record j)) false (judged_events ref j) t Ht) as [Hok Hm].
  - intros s Hs. apply list_elem_of_singleton in Hs. split; [by apply target_next|by subst].
  - exact Hj.
  - apply judged_events_of.
  - split; [exact Hok|]. split; [exact Hm|]. intros k Hk. by apply update_others.
Qed.

(** What the records of the list are worth while their alerts are read. *)
Definition pending_known (r : RecoveryPlanRecord) (t : recovery_tables) : Prop :=
  let v := verification_of (rp_lifecycle r) in has_streak (rt_staged t) (key_of r) v /\ ve_deadline_at v <> None.

Definition all_pending (rs : list RecoveryPlanRecord) (t : recovery_tables) : Prop := Forall (fun r => pending_known r t) rs.

Lemma settled_all_pending rs : settled plans_ok moves (all_pending rs).
Proof.
  intros t t' HG Hrs. apply (Forall_impl (fun r => pending_known r t)); [done|]. intros r [Hs Hd]. split; [|done].
  by eapply (settled_streak _ _ t t').
Qed.

Definition judged_all (now : Z) (rs : list RecoveryPlanRecord) (js : list judgement) (t : recovery_tables) : Prop :=
  map ju_record js = rs /\ Forall (fun j => judged_now now j t) js.

Lemma settled_judged_all now rs js : settled plans_ok moves (judged_all now rs js).
Proof.
  intros t t' HG [Hr Hjs]. split; [done|]. apply (Forall_impl (fun j => judged_now now j t)); [done|].
  intros j. by apply settled_judged.
Qed.

Lemma safe_alerts_of K w v : settled plans_ok moves K ->
  triple plans_ok moves moves K (alerts_of_record w v) (fun _ => K).
Proof.
  intros HK. unfold alerts_of_record. destruct (ve_started_at v) as [st|]; [|by intros t _ Hk].
  destruct (_ || _); [by intros t _ Hk|].
  eapply (triple_bind _ _ _ _ _ _ (fun _ => K)); [done|apply triple_read; [apply moves_refl|done|done]|]. intros original.
  eapply (triple_bind _ _ _ _ _ _ (fun _ => K)); [done|apply triple_read; [apply moves_refl|done|done]|]. intros refired.
  by intros t _ Hk.
Qed.

Lemma safe_judge_records w ev now rs :
  triple plans_ok moves moves (all_pending rs) (judge_records w ev now rs) (judged_all now rs).
Proof.
  induction rs as [|r rs IH]; simpl; [by intros t _ _|].
  eapply (triple_bind _ _ _ _ _ _ (fun _ => all_pending (r :: rs))); [intros _; apply settled_all_pending| |].
  { apply safe_alerts_of, settled_all_pending. }
  intros alerts.
  eapply (triple_bind _ _ _ _ _ _ (fun js t => judged_all now rs js t /\ pending_known r t)).
  - intros js. apply settled_and; [apply settled_judged_all|]. intros t t' HG [Hs Hd]. split; [|done].
    by eapply (settled_streak _ _ t t').
  - apply (triple_weaken _ _ _ (fun t => all_pending rs t /\ pending_known r t)).
    { intros t _ Hrs. apply Forall_cons in Hrs. by destruct Hrs. }
    apply triple_frame; [| |exact IH];
      (intros t t' HG [Hs Hd]; split; [|done]; by eapply (settled_streak _ _ t t')).
  - intros js t _ [[Hr Hjs] [Hs Hd]]. split; [by simpl; f_equal|]. constructor; [|done].
    split; [done|]. split; [done|]. by eexists _, _.
Qed.

Lemma selected_nodup w c limit t :
  plans_ok t -> NoDup (map key_of (list_recovery_verification_plans w c limit t)).
Proof. apply selected_keys. Qed.

Lemma listed_pending w c limit t : plans_ok t -> all_pending (list_recovery_verification_plans w c limit t) t.
Proof.
  intros Ht. apply Forall_forall. intros r (Hr & Hs)%subseteq_take%order_by_elem%list_elem_of_filter.
  apply (known_rows _ _ Ht) in Hs. unfold known in Hs. destruct Hr as (_ & Hr & _). by rewrite Hr in Hs.
Qed.

Lemma safe_evidence now evt : safe (fun _ => True) (on_recovery_verification_evidence now evt).
Proof.
  unfold on_recovery_verification_evidence. destruct (String.eqb _ _); [apply safe_ret|].
  apply safe_look; [apply settled_const|]. intros [ev|]; [|apply safe_ret].
  apply (safe_read _ _ (fun rs t => all_pending rs t /\ NoDup (map key_of rs))).
  { intros rs. apply settled_and; [apply settled_all_pending|apply settled_const]. }
  { intros t Ht _. split; [by apply listed_pending|by apply selected_nodup]. }
  intros rs. destruct rs as [|r0 rs0] eqn:Hrs; [apply safe_ret|]. rewrite <- Hrs. clear Hrs r0 rs0.
  unfold safe. eapply (triple_bind _ _ _ _ _ _ (fun js t => judged_all now rs js t /\ NoDup (map key_of rs))).
  - intros js. apply settled_and; [apply settled_judged_all|apply settled_const].
  - apply triple_frame; [apply settled_const|by intros t t2 _|apply safe_judge_records].
  - intros js. apply triple_write. intros t Ht [[Hmap Hjs] Hnd].
    destruct (fold_rows (commit_judgement now (ev_evidence_key evt)) (fun j => key_of (ju_record j)) (judged_now now)
      (fun t x => commit_row now _ t x)) with (xs := js) (t := t) as (Hok & Hm & _); try done.
    + intros t1 x y _ Ht1 Hx Hy. destruct (commit_row now (ev_evidence_key evt) t1 x Ht1 Hx) as (Hok1 & Hm1 & _).
      by apply (settled_judged now y t1).
    + by rewrite <- Hmap, map_map in Hnd.
Qed.

(** ** The other handlers *)

Lemma safe_start now w run b a : safe (fun _ => True) (start_recovery_verification now w run b a).
Proof.
  unfold start_recovery_verification. apply (safe_read _ _ known_opt); [apply settled_known_opt| |].
  { intros t Ht _. by apply known_only_row. }
  intros [r|]; [|apply safe_ret]. destruct (negb _) eqn:Hs; [apply safe_ret|]. bool_to_prop.
  apply safe_look; [apply settled_known|]. intros [wr|]; [|apply safe_ret]. destruct (negb _); [apply safe_ret|].
  apply update_triple.
  - intros s Hin. apply list_elem_of_singleton in Hin as ->. by split; [set_solver|].
  - by apply no_resolution; constructor.
  - intros t _ Hk. simpl in Hk. unfold known in Hk. rewrite Hs in Hk. split; [|done]. apply not_judged_streak.
    destruct Hk as (_ & Hl & Hc). done.
Qed.

Lemma safe_deploy_failed now w run b a reason : safe (fun _ => True) (on_recovery_deploy_failed now w run b a reason).
Proof.
  unfold on_recovery_deploy_failed. apply safe_look; [apply settled_const|]. intros [r|]; [|apply safe_ret].
  destruct (negb _); [apply safe_ret|]. apply update_triple; [|by apply no_resolution; constructor|done].
  intros s Hin. apply list_elem_of_singleton in Hin as ->. by split; [set_solver|].
Qed.

Lemma safe_pr_failed now c w p a code reason summary ref details :
  safe (fun _ => True) (on_recovery_safe_pr_failed now c w p a code reason summary ref details).
Proof.
  unfold on_recovery_safe_pr_failed. apply safe_look; [apply settled_const|]. intros [r|]; [|apply safe_ret].
  destruct (_ || _); [apply safe_ret|]. apply update_triple; [|by apply no_resolution; constructor|done].
  intros s Hin. apply list_elem_of_singleton in Hin as ->. by split; [set_solver|].
Qed.

Lemma safe_rejected now c w code reason : safe (fun _ => True) (on_recovery_command_rejected now c w code reason).
Proof.
  unfold on_recovery_command_rejected. destruct (String.eqb _ _); [apply safe_ret|].
  apply safe_look; [apply settled_const|]. intros [r|]; [|apply safe_ret]. destruct (_ || _); [apply safe_ret|].
  apply safe_step. intros t Ht _.
  pose proof (reopen_row now (strip (rp_plan_id r)) w (text_of (rp_selected_action_id r)) t
    [event_for FEEDBACK_WORKER r (RcaFollowupRequired (if String.eqb (strip code) "" then "command_rejected" else strip code)
       reason (if String.eqb (strip (rp_evidence_ref r)) "" then "unknown" else strip (rp_evidence_ref r)))] Ht
    ltac:(by apply no_resolution; constructor)) as Hr.
  by destruct (reopen_recovery_plan_action _ _ _ _ _) as [t' reopened].
Qed.

Lemma safe_planned now c w plan selected : safe (fun _ => True) (on_recovery_planned now c w plan selected).
Proof.
  unfold on_recovery_planned. apply safe_step. intros t Ht _.
  destruct selected as [[a b]|]; by apply upsert_row.
Qed.

Lemma safe_select now a p w action user : safe (fun _ => True) (select_recovery_action now a p w action user).
Proof.
  unfold select_recovery_action. apply safe_step. intros t Ht _.
  pose proof (select_row now a p w action user t Ht) as Hr. cbv zeta in Hr.
  by destruct (select_recovery_plan_action_if_open _ _ _ _ _ _ _) as [t' [r|]].
Qed.

Lemma safe_reject source K now r code reason :
  safe K (reject_tracked_recovery_pull_request source now r code reason).
Proof.
  unfold reject_tracked_recovery_pull_request. apply update_triple; [|by apply no_resolution; constructor|done].
  intros s Hin. apply list_elem_of_singleton in Hin as ->. by split; [set_solver|].
Qed.

Lemma safe_webhook source now ctx i : safe (fun _ => True) (handle_tracked_recovery_pull_request source now ctx i).
Proof.
  unfold handle_tracked_recovery_pull_request.
  assert (Hreject : forall K now r code reason, safe K (after_reject (reject_tracked_recovery_pull_request source now r
    code reason))).
  { intros. unfold after_reject. apply safe_then, safe_reject. }
  apply safe_look; [apply settled_const|]. intros [base|]; [|apply safe_ret].
  destruct (String.eqb _ _); [apply Hreject|]. destruct (negb _); [apply safe_ret|]. destruct (negb _); [apply Hreject|].
  apply (safe_read _ _ (fun o t => known_opt o t /\ match o with Some r => rp_status r = PR_OPEN | None => True end)).
  { intros o. apply settled_and; [apply settled_known_opt|apply settled_const]. }
  { intros t Ht _. split; [by apply known_only_row|]. unfold find_open_recovery_plan_for_pull_request, only_row.
    destruct (base.filter _ _) as [|r [|]] eqn:Hf; try done. assert (Hin : r ∈ [r]) by set_solver. rewrite <- Hf in Hin.
    apply list_elem_of_filter in Hin as [Hin _]. apply andb_true_iff in Hin as [Hin _]. unfold base_identity_matches in Hin.
    apply andb_true_iff in Hin as [Hin _]. by apply bool_decide_eq_true in Hin. }
  intros [r|]; [|apply Hreject]. destruct (negb _); [apply Hreject|].
  destruct (base.filter _ _); [|apply safe_ret]. destruct (rp_lifecycle r ≫= lc_pr) as [pr|]; [|exact I].
  destruct (_ || _); [apply Hreject|]. apply safe_then, update_triple.
  - intros s Hin. apply list_elem_of_singleton in Hin as ->. by split; [set_solver|].
  - by apply no_resolution; repeat constructor.
  - intros t _ [Hk Hs]. simpl in Hk. unfold known in Hk. rewrite Hs in Hk. simpl in Hk |- *.
    unfold merged_lifecycle, verification_of in *. simpl. destruct (rp_lifecycle r); [exact Hk|done].
Qed.

Lemma safe_pr_created now ctx c evt : safe (fun _ => True) (on_recovery_safe_pr_created now ctx c evt).
Proof.
  unfold on_recovery_safe_pr_created. apply safe_look; [apply settled_const|]. intros [r|]; [|apply safe_ret].
  destruct (negb _); [apply safe_ret|]. destruct (selected_recovery_candidate r) as [selected|]; [|apply safe_ret].
  destruct (negb _); [apply safe_ret|]. destruct (negb _).
  - apply safe_step. intros t Ht _.
    pose proof (reopen_row now (rp_plan_id r) (sp_workspace_id evt) (default "" (rp_selected_action_id r)) t
      [event_for FEEDBACK_WORKER r (RcaFollowupRequired "safe_pr_identity_incomplete" (px_identity_error ctx)
         (if String.eqb (rp_evidence_ref r) "" then "unknown" else rp_evidence_ref r))] Ht
      ltac:(by apply no_resolution; constructor)) as Hr.
    by destruct (reopen_recovery_plan_action _ _ _ _ _) as [t' reopened].
  - apply safe_look; [apply settled_const|]. intros alerts. apply update_triple.
    + intros s Hin. apply list_elem_of_singleton in Hin as ->. by split; [set_solver|].
    + by apply no_resolution; constructor.
    + intros t _ _. done.
Qed.

Lemma safe_commit_retry source K now r status lc stage attempt deploy :
  status ∈ next_statuses FAILED -> status <> COMPLETED ->
  Forall (fun b => match b with IncidentResolved _ => False | _ => True end) deploy ->
  (forall t, plans_ok t -> K t -> forall events, state_ok (rt_staged t ++ events) (key_of r)
    status (verification_of (Some lc))) ->
  safe K (commit_retry source now r status lc stage attempt deploy).
Proof.
  intros Hnext Hnc Hdeploy Hstate. unfold commit_retry. apply safe_step. intros t Ht HK.
  set (events := map _ _).
  destruct (update_row now r [FAILED] status lc false events t Ht) as [Hok Hm].
  - intros s Hin. by apply list_elem_of_singleton in Hin as ->.
  - by apply Hstate.
  - rewrite bool_decide_false by done. apply no_resolution. unfold events. constructor; [done|].
    apply Forall_fmap. apply (Forall_impl _ _ _ Hdeploy). done.
  - by destruct (update_and_yield _ _ _ _ _ _ _ _) as [t' []].
Qed.

Lemma deploy_retry_not_judged now ctx reason lc m run attempt :
  not_judged (verification_of (Some (deploy_retry_lifecycle now ctx reason lc m run attempt))).
Proof. by repeat split. Qed.

Lemma verification_retry_judgeable now ctx reason r lc wr lc' n :
  verification_retry_lifecycle now ctx reason r lc wr = Some (lc', n) ->
  not_judged (verification_of (Some lc')) /\ ve_deadline_at (verification_of (Some lc')) <> None.
Proof.
  unfold verification_retry_lifecycle. destruct (lc_merge lc) as [m|]; [|done]. simpl. destruct (negb _); [done|].
  intros [= <- _]. by split.
Qed.

Lemma safe_retry source now ctx w c p : safe (fun _ => True) (retry_recovery_by_correlation source now ctx w c p).
Proof.
  unfold retry_recovery_by_correlation. apply safe_look; [apply settled_const|]. intros [r|]; [|exact I].
  destruct (negb _); [exact I|]. destruct (negb _); [exact I|]. cbv zeta.
  generalize (default no_lifecycle (rp_lifecycle r)). intros lc. destruct (String.eqb (text_of _) ""); [exact I|].
  destruct (String.eqb (text_of _) "safe_pr").
  { destruct (rx_prepared ctx r) as [[]|e]; [|exact I]. apply safe_commit_retry; [set_solver|done|constructor|done]. }
  destruct (String.eqb (strip _) ""); [exact I|].
  apply safe_look; [apply settled_const|]. intros wr. generalize (retry_reason ctx). intros reason.
  destruct (String.eqb _ "recovery_deploy_failed").
  { destruct (deploy_retry_body _ _ _ _) as [[[m run] n]|]; [|exact I].
    apply safe_commit_retry; [set_solver|done|by repeat constructor|]. intros t _ _ events. apply deploy_retry_not_judged. }
  destruct (String.eqb _ "verification_window_expired"); [|exact I].
  destruct (verification_retry_lifecycle _ _ _ _ _ _) as [[lc' n]|] eqn:Hlc; [|exact I].
  apply verification_retry_judgeable in Hlc as [Hv Hd].
  apply safe_commit_retry; [set_solver|done|constructor|]. intros t _ _ events. split; [by apply not_judged_streak|done].
Qed.

Lemma safe_sweep now limit locked : safe (fun _ => True) (sweep now limit locked).
Proof.
  unfold sweep. apply safe_step. intros t Ht _. pose proof (sweep_rows now limit locked t Ht) as Hr. cbv zeta in Hr.
  by destruct (expire_recovery_verifications now limit locked t).
Qed.

(** ** All writers *)

Lemma starts_safe p : starts p -> safe (fun _ => True) p.
Proof.
  intros Hp. destruct Hp; apply safe_forget;
    [apply safe_planned|apply safe_select|apply safe_pr_created|apply safe_pr_failed|apply safe_rejected|apply safe_webhook
    |apply safe_start|apply safe_deploy_failed|apply safe_evidence|apply safe_retry|apply safe_sweep].
Qed.

Lemma env_ok t t' : plans_ok t -> env t t' -> plans_ok t' /\ moves t t'.
Proof.
  intros Ht (Hp & _ & Hs). unfold plans_ok, moves. rewrite Hp, Hs. split; [exact Ht|]. apply (moves_refl t).
Qed.

Lemma no_plans_ok t : no_plans t -> plans_ok t.
Proof.
  intros [Hp Hs]. unfold plans_ok. rewrite Hp, Hs. split; [|done]. intros k r. by rewrite lookup_empty.
Qed.

Lemma reachable_ok m : reachable m -> pool_ok plans_ok moves m.
Proof.
  intros (t & Ht & Hr). eapply (pool_runs_ok starts env plans_ok moves) in Hr as [Hok _]; [done|apply starts_safe|apply env_ok|].
  split; [by apply no_plans_ok|constructor].
Qed.

Lemma reachable_plans m : reachable m -> plans_ok (pl_tables m).
Proof. by intros [? _]%reachable_ok. Qed.

(** C5. A completed recovery is backed by published verdicts, whatever handlers,
    sweeps, retries and webhooks ran at the same time: windows of this plan, each
    found healthy in every check, none before the verification started, with gaps
    of at most one and a half cadences, that span the configured minimum (five
    minutes at least) and are as many as the minimum asks for. *)
Theorem completed_is_certified m k r :
  reachable m -> rt_plans (pl_tables m) !! k = Some r -> rp_status r = COMPLETED ->
  let v := verification_of (rp_lifecycle r) in
  exists started ts first newest,
    ve_started_at v = Some started /\ head ts = Some newest /\ last ts = Some first
    /\ Forall (fun t => started <= t /\ published_healthy (rt_staged (pl_tables m)) k t) ts
    /\ linked (cadence_of v) ts
    /\ DEFAULT_MINIMUM_SECONDS * SECOND <= minimum_seconds_of v * SECOND <= newest - first
    /\ minimum_distinct_windows (minimum_seconds_of v) (cadence_of v) <= Z.of_nat (length ts).
Proof.
  intros Hm Hr Hs. destruct (proj1 (reachable_plans m Hm) k r Hr) as [_ Hstate]. rewrite Hs in Hstate.
  destruct Hstate as (ts & first & newest & [Hp Hl _ _ _ Hst] & Hlast & Hhead & _ & Hspan & Hcount).
  assert (Hin : newest ∈ ts) by by apply head_elem.
  destruct (proj1 (Forall_forall _ _) Hst newest Hin) as (started & Hstarted & _).
  exists started, ts, first, newest. split; [done|]. split; [done|]. split; [done|]. split.
  { apply Forall_forall. intros t Ht. split; [|by apply (proj1 (Forall_forall _ _) Hp)].
    destruct (proj1 (Forall_forall _ _) Hst t Ht) as (started' & Hs' & Hle). congruence. }
  split; [done|]. split; [|done]. split; [|done]. pose proof (minimum_at_least (verification_of (rp_lifecycle r))).
  unfold SECOND. lia.
Qed.

(** C24. An incident is announced as resolved by its plan at most once, and exactly
    when the plan is completed. *)
Theorem incident_resolved_once m k :
  reachable m ->
  resolved_count k (rt_staged (pl_tables m)) = is_completed (rt_plans (pl_tables m) !! k).
Proof. intros Hm. apply (proj2 (reachable_plans m Hm)). Qed.

End Rules.
