(* ===== verification/RecoveryEnds.v ===== *)
(** Verifications end: the janitor's sweeps; and what handlers that judge at the
    same time do to each other. *)

From S2P Require Import Prelude PyString Json EventStore Outbox Transactions Concurrent AlertStore AlertService.
From S2P Require Import RecoveryEvidence RecoveryVerification RecoveryPlans RecoveryWorker RecoveryRoutes.
From S2P Require Import RecoveryOperator RecoveryVerdicts RecoveryRuns RecoverySafety.
From Stdlib Require Import QArith.QArith.
From coqutil Require Import Datatypes.RecordSettersUsingExistingGetters.
#[global] Open Scope Z_scope.

Arguments RecordSettersUsingExistingGetters.const {E} newValue _ /.

Section Ends.
Context `{python_values} `{verification_texts}.

(** ** Sweeps *)

Definition nothing_locked (r : RecoveryPlanRecord) : bool := false.

Fixpoint sweeps (n : nat) (now limit : Z) (t : recovery_tables) : recovery_tables :=
  match n with
  | O => t
  | S n => sweeps n now limit (expire_recovery_verifications now limit nothing_locked t).1
  end.

Definition overdue (now : Z) (t : recovery_tables) : gmap (string * string) RecoveryPlanRecord :=
  base.filter (fun kr => is_overdue now kr.2 = true) (rt_plans t).

Lemma expired_not_overdue now r : is_overdue now (expire_row now r) = false.
Proof. done. Qed.

Lemma overdue_expire_one now t r :
  key_of (expire_row now r) = key_of r -> overdue now (expire_one now t r) = delete (key_of r) (overdue now t).
Proof.
  intros _. unfold overdue, expire_one, stage_all, put_plan. simpl. fold (key_of r).
  rewrite map_filter_insert_False by (simpl; by rewrite expired_not_overdue). by rewrite map_filter_delete.
Qed.

Lemma overdue_size now rs : forall t,
  NoDup (map key_of rs) -> Forall (fun r => is_Some (overdue now t !! key_of r)) rs ->
  size (overdue now (foldl (expire_one now) t rs)) = (size (overdue now t) - length rs)%nat.
Proof.
  induction rs as [|r rs IH]; intros t Hnd Hrs; simpl; [lia|].
  apply NoDup_cons in Hnd as [Hr Hnd]. apply Forall_cons in Hrs as [[x Hx] Hrs].
  rewrite IH; [|done|].
  - rewrite overdue_expire_one by done. rewrite map_size_delete, Hx. simpl. lia.
  - rewrite overdue_expire_one by done. rewrite Forall_forall in Hrs |- *. intros y Hy. rewrite lookup_delete_ne; [by apply Hrs|].
    intros Heq. apply Hr. rewrite Heq. by apply list_elem_of_fmap_2.
Qed.

Lemma overdue_rows now t : length (base.filter (fun r => is_overdue now r = true /\ nothing_locked r = false) (rows (rt_plans t)))
  = size (overdue now t).
Proof.
  unfold overdue, rows. rewrite map_filter_alt, <- (length_map_to_list (list_to_map _)), map_to_list_to_map.
  - generalize (map_to_list (rt_plans t)). intros l. induction l as [|[k r] l IH]; [done|]. rewrite fmap_cons.
    destruct (is_overdue now r) eqn:Hr.
    + rewrite filter_cons_True by done. rewrite (filter_cons_True _ (k, r) l) by done. cbn [length]. f_equal. exact IH.
    + rewrite filter_cons_False by (simpl; intros [? _]; congruence).
      rewrite (filter_cons_False _ (k, r) l) by (simpl; congruence). exact IH.
  - eapply sublist_NoDup; [apply (NoDup_fst_map_to_list (rt_plans t))|]. apply fmap_sublist, sublist_filter.
Qed.

Definition batch (limit : Z) : nat := Z.to_nat (Z.max 1 (Z.min limit 500)).

Lemma sweep_size now limit t :
  plans_ok t ->
  size (overdue now (expire_recovery_verifications now limit nothing_locked t).1) = (size (overdue now t) - batch limit)%nat.
Proof.
  intros Ht. unfold expire_recovery_verifications. cbv zeta. cbn [fst]. rewrite expire_as_fold, overdue_size.
  - unfold overdue_plans. fold (batch limit). rewrite length_take, (Permutation_length (order_by_perm _ _)), overdue_rows. lia.
  - by apply selected_keys.
  - apply Forall_forall. intros r (Hr & Ho & _)%overdue_elem. apply rows_lookup in Hr as [k Hk].
    destruct (proj1 Ht _ _ Hk) as [Hkey _]. exists r. unfold overdue. apply map_lookup_filter_Some. split; [by rewrite Hkey|done].
Qed.

(** What becomes of an overdue row. *)
Definition kept_or_expired (now : Z) (k : string * string) (r : RecoveryPlanRecord) (t : recovery_tables) : Prop :=
  rt_plans t !! k = Some r
  \/ rt_plans t !! k = Some (expire_row now r) /\ expired_event now r ∈ rt_staged t.

Lemma fold_kept now k r rs : forall t,
  kept_or_expired now k r t -> Forall (fun x => key_of x = k -> x = r) rs -> key_of r = k -> NoDup (map key_of rs) ->
  (k ∈ map key_of rs -> rt_plans t !! k = Some r) ->
  kept_or_expired now k r (foldl (expire_one now) t rs).
Proof.
  induction rs as [|x rs IH]; intros t Ht Hrs Hk Hnd Hin; simpl; [done|].
  apply NoDup_cons in Hnd as [Hx Hnd]. apply Forall_cons in Hrs as [Hxr Hrs].
  destruct (decide (key_of x = k)) as [Heq|Hne].
  - assert (x = r) as -> by by apply Hxr. apply IH; try done.
    + right. unfold expire_one, stage_all, put_plan. simpl. fold (key_of r). rewrite Hk, lookup_insert_eq.
      split; [done|]. set_solver.
    + intros Hin'. rewrite <- Heq in Hin'. done.
  - assert (Hsame : rt_plans (expire_one now t x) !! k = rt_plans t !! k) by (apply other_rows; exact (not_eq_sym Hne)).
    apply IH; try done.
    + destruct Ht as [Ht|[Ht Hev]]; [left; by rewrite Hsame|right; rewrite Hsame; split; [done|]].
      unfold expire_one, stage_all, put_plan. simpl. set_solver.
    + intros Hin'. rewrite Hsame. apply Hin. by apply elem_of_cons; right.
Qed.

Lemma sweep_kept now limit t k r :
  plans_ok t -> rt_plans t !! k = Some r \/ (rt_plans t !! k = Some (expire_row now r) /\ expired_event now r ∈ rt_staged t) ->
  key_of r = k ->
  kept_or_expired now k r (expire_recovery_verifications now limit nothing_locked t).1.
Proof.
  intros Ht Hr Hk. unfold expire_recovery_verifications. cbv zeta. cbn [fst]. rewrite expire_as_fold.
  assert (Hover : forall x, x ∈ overdue_plans now limit nothing_locked t -> rt_plans t !! key_of x = Some x /\ is_overdue now x = true).
  { intros x (Hx & Ho & _)%overdue_elem. apply rows_lookup in Hx as [k' Hk']. destruct (proj1 Ht _ _ Hk') as [Hkey _].
    by rewrite Hkey. }
  assert (Hfound : forall x, x ∈ overdue_plans now limit nothing_locked t -> key_of x = k -> rt_plans t !! k = Some r /\ x = r).
  { intros x Hx <-. destruct (Hover x Hx) as [Hlook Ho]. destruct Hr as [Hr|[Hr _]]; [by rewrite Hlook in Hr; simplify_eq|].
    rewrite Hlook in Hr. injection Hr as ->. done. }
  apply fold_kept; try done.
  - apply Forall_forall. intros x Hx Hkx. by apply (Hfound x).
  - by apply selected_keys.
  - intros Hin. apply list_elem_of_fmap in Hin as (x & Hkx & Hx). by apply (Hfound x).
Qed.

(** C31. Verifications end although evidence stops: as many sweeps as there are
    batches of overdue plans leave none, and each of them has failed with its
    failure event staged by the transaction that failed it. *)
Theorem overdue_verifications_end n now limit t k r :
  plans_ok t -> (size (overdue now t) <= n * batch limit)%nat ->
  rt_plans t !! k = Some r -> is_overdue now r = true ->
  overdue now (sweeps n now limit t) = ∅
  /\ rt_plans (sweeps n now limit t) !! k = Some (expire_row now r)
  /\ expired_event now r ∈ rt_staged (sweeps n now limit t).
Proof.
  intros Ht Hsize Hr Ho. destruct (proj1 Ht _ _ Hr) as [Hkey _].
  assert (Hend : overdue now (sweeps n now limit t) = ∅).
  { clear Hr. revert t Ht Hsize. induction n as [|n IH]; intros t Ht Hsize; cbn [sweeps].
    - apply map_size_empty_inv. lia.
    - destruct (sweep_rows now limit nothing_locked t Ht) as [Hok _]. apply IH; [done|]. rewrite sweep_size by done. lia. }
  assert (Hkept : kept_or_expired now k r (sweeps n now limit t)).
  { assert (H1 : kept_or_expired now k r t) by by left. clear Hr Hend Hsize. revert t Ht H1.
    induction n as [|n IH]; intros t Ht H1; cbn [sweeps]; [done|].
    destruct (sweep_rows now limit nothing_locked t Ht) as [Hok _]. apply IH; [done|]. by apply sweep_kept. }
  split; [done|]. destruct Hkept as [Hk|Hk]; [|done]. exfalso.
  assert (Hin : overdue now (sweeps n now limit t) !! k = Some r) by (apply map_lookup_filter_Some; by split).
  rewrite Hend in Hin. by rewrite lookup_empty in Hin.
Qed.

(** ** Judgements made at the same time *)

(** The transition asks only for the status: what the row holds is replaced by
    the judgement of the lifecycle that was read. *)
Lemma judgement_replaces now ref t j cur :
  plans_ok t -> rt_plans t !! key_of (ju_record j) = Some cur -> rp_status cur = VERIFICATION_PENDING ->
  rt_plans (commit_judgement now ref t j) !! key_of (ju_record j)
  = Some (cur <| rp_status := target_status (ju_decision j) |>
              <| rp_lifecycle := Some (judged_lifecycle (ju_decision j) ref (ju_record j)) |> <| rp_updated_at := now |>).
Proof.
  intros Ht Hcur Hs. destruct (proj1 Ht _ _ Hcur) as [Hkey _].
  unfold commit_judgement, update_and_yield, update_recovery_plan_lifecycle_if_status. fold (key_of (ju_record j)). rewrite Hcur.
  rewrite bool_decide_true by (rewrite Hs; set_solver). cbn [fst]. unfold stage_all, put_plan. simpl. fold (key_of cur).
  rewrite Hkey. by rewrite lookup_insert_eq.
Qed.

Lemma judgement_published now ref t j cur :
  plans_ok t -> rt_plans t !! key_of (ju_record j) = Some cur -> rp_status cur = VERIFICATION_PENDING ->
  rt_staged (commit_judgement now ref t j) = rt_staged t ++ judged_events ref j.
Proof.
  intros Ht Hcur Hs. unfold commit_judgement, update_and_yield, update_recovery_plan_lifecycle_if_status.
  fold (key_of (ju_record j)). rewrite Hcur. rewrite bool_decide_true by (rewrite Hs; set_solver). done.
Qed.

(** C35. A regression can be erased.  Two handlers that read a plan before either
    committed (the worker handles eight messages at a time): the verdict of the
    first is published, then the commit of the second leaves the plan as if the
    first had never been made, although a regression is meant to restart the
    stabilization window. *)
Theorem regression_erased now1 ref1 now2 ref2 t j1 j2 cur :
  plans_ok t -> judged_now now1 j1 t -> ju_record j2 = ju_record j1 ->
  rt_plans t !! key_of (ju_record j1) = Some cur -> rp_status cur = VERIFICATION_PENDING ->
  target_status (ju_decision j1) = VERIFICATION_PENDING ->
  let t1 := commit_judgement now1 ref1 t j1 in
  rt_staged (commit_judgement now2 ref2 t1 j2) = rt_staged t ++ judged_events ref1 j1 ++ judged_events ref2 j2
  /\ rt_plans (commit_judgement now2 ref2 t1 j2) !! key_of (ju_record j1)
     = rt_plans (commit_judgement now2 ref2 t j2) !! key_of (ju_record j1).
Proof.
  intros Ht Hj1 Hsame Hcur Hs Ht1. cbv zeta.
  destruct (commit_row now1 ref1 t j1 Ht Hj1) as (Hok & _ & _).
  pose proof (judgement_replaces now1 ref1 t j1 cur Ht Hcur Hs) as Hrow1. rewrite Ht1 in Hrow1.
  set (cur1 := cur <| rp_status := _ |> <| rp_lifecycle := _ |> <| rp_updated_at := _ |>) in Hrow1.
  split.
  - rewrite (judgement_published now2 ref2 _ j2 cur1); [|done|by rewrite Hsame|done].
    rewrite (judgement_published now1 ref1 t j1 cur) by done. by rewrite app_assoc.
  - rewrite <- Hsame in Hrow1, Hcur |- *.
    rewrite (judgement_replaces now2 ref2 _ j2 cur1 Hok Hrow1 eq_refl), (judgement_replaces now2 ref2 t j2 cur Ht Hcur Hs). done.
Qed.

(** A retry can be undone.  A judgement made before a verification expired and
    was retried passes the check of the status and puts the expired attempt back,
    with its deadline: the retried plan is overdue at once. *)
Theorem retried_attempt_overwritten now ref t j cur d :
  plans_ok t -> rt_plans t !! key_of (ju_record j) = Some cur -> rp_status cur = VERIFICATION_PENDING ->
  target_status (ju_decision j) = VERIFICATION_PENDING -> deadline_of (ju_record j) = Some d -> d <= now ->
  exists row, rt_plans (commit_judgement now ref t j) !! key_of (ju_record j) = Some row
    /\ ve_started_at (verification_of (rp_lifecycle row)) = ve_started_at (verification_of (rp_lifecycle (ju_record j)))
    /\ deadline_of row = Some d /\ is_overdue now row = true.
Proof.
  intros Ht Hcur Hs Htarget Hd Hle. eexists. split; [by apply judgement_replaces|]. simpl.
  unfold is_overdue, deadline_of. simpl. rewrite judged_lifecycle_verification, Htarget. simpl.
  split; [done|]. split; [done|]. unfold deadline_of in Hd. rewrite Hd. by apply Z.leb_le.
Qed.
End Ends.
