(* ===== verification/RecoveryScenarios.v ===== *)
(** A recovery from its plan to the verdict, a regression erased by a concurrent
    judge, a retry undone, and the theorems applied to them. *)

From S2P Require Import Prelude PyString Json EventStore Outbox Transactions Concurrent AlertStore.
From S2P Require Import RecoveryEvidence RecoveryVerification RecoveryPlans RecoveryWorker RecoveryRoutes.
From S2P Require Import RecoveryOperator RecoveryVerdicts RecoveryRuns RecoverySafety RecoveryEnds.
From Stdlib Require Import QArith.QArith.
From stdpp Require Import relations pretty.
From coqutil Require Import Datatypes.RecordSettersUsingExistingGetters.
#[global] Open Scope Z_scope.

Arguments RecordSettersUsingExistingGetters.const {E} newValue _ /.

Module Sample.
(** A clock that writes seconds in decimal. *)
Fixpoint decimal (s : string) (n : Z) : Z :=
  match s with
  | EmptyString => n
  | String c s => decimal s (10 * n + (Z.of_N (Ascii.N_of_ascii c) - 48))
  end.

#[export] Instance values : python_values :=
  {| float_of_text := fun _ => None; int_of_text := fun _ => None; fromisoformat := fun s => Some (decimal s 0 * SECOND) |}.

#[export] Instance messages : verification_texts :=
  {| tx_duplicate := "duplicate"; tx_stale := "stale"; tx_unmet := String.concat ","; tx_missing := String.concat ",";
     tx_expired := fun s => "expired: " +:+ s; tx_no_cadence := "no cadence"; tx_too_short := "too short";
     tx_in_progress := fun s m => pretty s +:+ "/" +:+ pretty m; tx_verified := fun m => "verified"; tx_waiting := "waiting";
     tx_restarted := "restarted"; tx_overdue := "overdue" |}.

Definition series : odict json :=
  [("namespace", JStr "shop"); ("resource_kind", JStr "Deployment"); ("resource_name", JStr "api"); ("service", JStr "api");
   ("sli", JStr "availability"); ("symptom", JStr "errors")].

Definition subject : odict json :=
  [("cluster", JStr "c1"); ("namespace", JStr "shop"); ("kind", JStr "Deployment"); ("name", JStr "api")].

Definition alert : AlertEvent :=
  {| ae_event_id := "al-1"; ae_workspace_id := "w1"; ae_rule_id := None; ae_rule_name := Some STANDARD_SLI_ALERT_NAME;
     ae_source := "alertmanager"; ae_severity := "critical"; ae_subject_key := "sk"; ae_subject := subject; ae_fired_at := 0;
     ae_resolved_at := Some (5 * SECOND); ae_status := resolved; ae_observed_value := Some (1 # 2)%Q;
     ae_threshold := Some (1 # 10)%Q; ae_series_identity := Some series; ae_evidence := []; ae_incident_id := Some "inc-1";
     ae_acknowledged_at := None; ae_acknowledged_by := None; ae_promoted_at := None; ae_promoted_by := None;
     ae_updated_at := 0 |}.

Definition plan : odict json :=
  [("plan_id", JStr "plan-1"); ("incident_id", JStr "inc-1"); ("evidence_ref", JStr "ev-0");
   ("target", JObj [("cluster_id", JStr "c1"); ("namespace", JStr "shop"); ("resource_kind", JStr "Deployment");
                    ("resource_name", JStr "api")]);
   ("recommended_action_id", JStr "act-1");
   ("candidates", JArr [JObj [("action_id", JStr "act-1"); ("route", JStr "draft_pr"); ("draft", JObj [])]])].

Definition sample_of (value : Z) : json := JObj [("metric", JObj series); ("value", JInt value)].

(** The evidence of a window: the failure ratio, at a time in seconds. *)
Definition evidence (key at_ : string) (failure_ratio : Z) : odict json :=
  [("evidence_key", JStr key); ("window_start", JStr at_);
   ("metrics", JObj [("results", JObj
      [(STANDARD_FAILURE_RATIO_METRIC, JObj [("samples", JArr [sample_of failure_ratio])]);
       (STANDARD_REQUEST_RATE_METRIC, JObj [("samples", JArr [sample_of 100])])])]);
   ("metadata", JObj [("current_workload_snapshots", JArr [JObj
      [("workload", JObj [("kind", JStr "Deployment"); ("namespace", JStr "shop"); ("name", JStr "api"); ("generation", JInt 3)]);
       ("deployment_status", JObj [("observed_generation", JInt 3); ("desired_replicas", JInt 2); ("ready_replicas", JInt 2);
                                   ("updated_replicas", JInt 2); ("available_replicas", JInt 2)])]])])].

Definition run : workflow_run :=
  {| wr_workflow_run_id := "run-1"; wr_workspace_id := "w1"; wr_binding_id := "b1"; wr_application_id := "a1";
     wr_cluster_id := "c1"; wr_commit_sha := "m1"; wr_status := "succeeded" |}.

Definition windows : gmap (string * string) (odict json) :=
  {[("w1", "e1") := evidence "e1" "20" 0; ("w1", "e2") := evidence "e2" "170" 0; ("w1", "e3") := evidence "e3" "320" 0;
    ("w1", "bad") := evidence "bad" "245" 1]}.

Definition no_bus : tables := {| events := ∅; processing := ∅; outbox := []; outbox_seq := 0; dead_letters := []; dead_letter_seq := 0 |}.

Definition t0 : recovery_tables :=
  {| rt_plans := ∅; rt_plan_seq := 1;
     rt_alerts := {| al_channels := ∅; al_rules := ∅; al_states := ∅; al_events := {["al-1" := alert]}; al_bus := no_bus |};
     rt_windows := windows; rt_workflow_runs := {["run-1" := run]}; rt_staged := [] |}.

Definition head_sha : string := "0123456789012345678901234567890123456789".

Definition pull_request : SafePrCreatedBody :=
  {| sp_mode := "github_rest"; sp_pr_url := "https://github.example/org/repo/pull/7"; sp_pr_number := Some 7;
     sp_pr_node_id := "node"; sp_head_ref := "fix"; sp_head_sha := head_sha; sp_repo_ref := "org/repo";
     sp_repository_id := "repo"; sp_binding_id := "b1"; sp_application_id := "a1"; sp_base_branch := "main";
     sp_commit_sha := "abc"; sp_manifest_path := "m.yaml"; sp_environment := "prod"; sp_workspace_id := "w1" |}.

Definition approved : approved_params :=
  {| ap_repository_id := "repo"; ap_binding_id := "b1"; ap_application_id := "a1"; ap_repo_ref := "org/repo";
     ap_base_branch := "main"; ap_commit_sha := "abc"; ap_authorized_changes := [JObj [("field_path", JStr "spec.replicas")]];
     ap_verification_contract := ""; ap_failure_ratio_before := Some (1 # 2)%Q; ap_failure_ratio_metric_identity := series;
     ap_request_rate_baseline := Some (inject_Z 100); ap_request_rate_metric_identity := series; ap_protected_baseline := [];
     ap_protected_session_baseline := []; ap_verification_alert_before := None; ap_expected_replicas := Some 2;
     ap_evidence_cadence_seconds := Some 150 |}.

Definition pr_ctx : pr_context :=
  {| px_env_minimum := Some 300; px_env_maximum := Some 600; px_env_tolerance := Some (1 # 5)%Q;
     px_approval := fun _ => approved; px_evidence := []; px_cluster_cadence := fun _ => None; px_identity_error := "identity" |}.

Definition merge_ctx : merge_context :=
  {| mc_target := fun _ => true; mc_changes_approved := fun _ => true; mc_image := "img";
     mc_workflow_run_id := fun _ _ => "run-1"; mc_reject_reason := fun code => code; mc_deployment_request := fun _ => [] |}.

Definition merged : pull_request_identity :=
  {| pi_pr_url := sp_pr_url pull_request; pi_repo_ref := "org/repo"; pi_base_branch := "main"; pi_pr_number := 7;
     pi_pr_node_id := "node"; pi_head_ref := "fix"; pi_head_sha := head_sha; pi_action := "closed"; pi_merged := true;
     pi_merge_commit_sha := "m1" |}.

Definition retry_ctx : retry_context :=
  {| rx_request := fun _ => None; rx_workflow_run_id := fun _ _ _ => "run-2"; rx_new_request := fun r _ => r;
     rx_prepared := fun _ => Ok tt; rx_attempt_id := "x"; rx_user_id := "u1"; rx_reason := None |}.

(** The handlers of the life of the plan, at a time in seconds. *)
Definition planned : recovery_prog unit := forget (on_recovery_planned SECOND "inc-1" "w1" plan (Some ("act-1", "auto"))).
Definition opened : recovery_prog unit := forget (on_recovery_safe_pr_created (2 * SECOND) pr_ctx "inc-1" pull_request).
Definition merge : recovery_prog unit := forget (handle_tracked_recovery_pull_request "gateway" (3 * SECOND) merge_ctx merged).
Definition deployed : recovery_prog unit := forget (start_recovery_verification (10 * SECOND) "w1" "run-1" "b1" "a1").
Definition judge (key : string) (seconds : Z) : recovery_prog unit :=
  forget (on_recovery_verification_evidence (seconds * SECOND)
            {| ev_workspace_id := "w1"; ev_cluster_id := "c1"; ev_evidence_key := key |}).
Definition janitor (seconds : Z) : recovery_prog unit := forget (sweep (seconds * SECOND) 100 nothing_locked).
Definition retry (seconds : Z) : recovery_prog unit :=
  forget (retry_recovery_by_correlation "gateway" (seconds * SECOND) retry_ctx "w1" "inc-1" "plan-1").

Definition after (ps : list (recovery_prog unit)) (t : recovery_tables) : recovery_tables :=
  foldl (fun t p => (alone p t).2) t ps.

Definition k1 : string * string := ("w1", "plan-1").
Definition status_of (t : recovery_tables) : option recovery_status := rp_status <$> rt_plans t !! k1.

Definition verifying : recovery_tables := after [planned; opened; merge; deployed] t0.
Definition recovered : recovery_tables := after [judge "e1" 25; judge "e2" 175; judge "e3" 325] verifying.

Example verifying_status : status_of verifying = Some VERIFICATION_PENDING.
Proof. vm_compute. reflexivity. Qed.

Example recovered_status : status_of recovered = Some COMPLETED.
Proof. vm_compute. reflexivity. Qed.

(** ** Reaching these states *)

Lemma after_reachable ps t ts :
  Forall starts ps -> reachable {| pl_tables := t; pl_threads := ts |} -> reachable {| pl_tables := after ps t; pl_threads := ts |}.
Proof.
  intros Hps. revert t. induction Hps as [|p ps Hp _ IH]; intros t Ht; simpl; [done|]. apply IH.
  destruct Ht as (t1 & Hno & Hr). exists t1. split; [done|]. etransitivity; [exact Hr|]. by apply pool_alone.
Qed.

Lemma verifying_reachable : reachable {| pl_tables := verifying; pl_threads := [] |}.
Proof. apply after_reachable; [repeat constructor|]. exists t0. split; [done|]. constructor. Qed.

Lemma after_verifying ps : Forall starts ps -> reachable {| pl_tables := after ps verifying; pl_threads := [] |}.
Proof. intros Hps. by apply after_reachable, verifying_reachable. Qed.

Lemma recovered_reachable : reachable {| pl_tables := recovered; pl_threads := [] |}.
Proof. apply after_verifying. repeat constructor. Qed.

Definition blank : RecoveryPlanRecord :=
  {| rp_id := 0; rp_plan_id := ""; rp_workspace_id := ""; rp_correlation_id := ""; rp_incident_id := ""; rp_evidence_ref := "";
     rp_status := FAILED; rp_selected_action_id := None; rp_selected_by := None; rp_plan := []; rp_lifecycle := None;
     rp_updated_at := 0 |}.

Definition the_plan (t : recovery_tables) : RecoveryPlanRecord := default blank (rt_plans t !! k1).

Lemma the_plan_found t s : status_of t = Some s -> rt_plans t !! k1 = Some (the_plan t) /\ rp_status (the_plan t) = s.
Proof. unfold status_of, the_plan. destruct (rt_plans t !! k1); [|done]. by intros [= <-]. Qed.

(** ** The theorems here *)

Lemma completed_is_certified_witness :
  let r := the_plan recovered in let v := verification_of (rp_lifecycle r) in
  exists started ts first newest,
    ve_started_at v = Some started /\ head ts = Some newest /\ last ts = Some first
    /\ Forall (fun t => started <= t /\ published_healthy (rt_staged recovered) k1 t) ts
    /\ linked (cadence_of v) ts
    /\ DEFAULT_MINIMUM_SECONDS * SECOND <= minimum_seconds_of v * SECOND <= newest - first
    /\ minimum_distinct_windows (minimum_seconds_of v) (cadence_of v) <= Z.of_nat (length ts).
Proof.
  destruct (the_plan_found recovered COMPLETED recovered_status) as [Hr Hs].
  exact (completed_is_certified _ k1 (the_plan recovered) recovered_reachable Hr Hs).
Defined.

Lemma incident_resolved_once_witness :
  resolved_count k1 (rt_staged recovered) = is_completed (rt_plans recovered !! k1)
  /\ is_completed (rt_plans recovered !! k1) = 1%nat.
Proof.
  split; [exact (incident_resolved_once _ k1 recovered_reachable)|]. vm_compute. reflexivity.
Defined.

(** A sweep of the verifying plan, with the thread already started. *)
Definition sweeping : pool recovery_tables recovery_error := {| pl_tables := verifying; pl_threads := [janitor 700] |}.
Definition swept : pool recovery_tables recovery_error :=
  {| pl_tables := (expire_recovery_verifications (700 * SECOND) 100 nothing_locked verifying).1; pl_threads := [Ret tt] |}.

Lemma sweeping_reachable : reachable sweeping.
Proof.
  destruct verifying_reachable as (t & Hno & Hr). exists t. split; [done|]. eapply rtc_r; [exact Hr|].
  apply (pool_start starts env verifying [] (janitor 700)). constructor.
Qed.

Lemma sweep_step : pool_step starts env sweeping swept.
Proof.
  eapply (pool_run starts env verifying [janitor 700] 0 _ _ (Ret tt)); [reflexivity|]. cbv beta.
  by destruct (expire_recovery_verifications (700 * SECOND) 100 nothing_locked verifying).
Qed.


Lemma verifying_overdue : is_overdue (700 * SECOND) (the_plan verifying) = true.
Proof. vm_compute. reflexivity. Qed.

Lemma one_overdue : (size (overdue (700 * SECOND) verifying) <= 1 * batch 100)%nat.
Proof. apply Nat.leb_le. vm_compute. reflexivity. Qed.

Lemma overdue_verifications_end_witness :
  let t := sweeps 1 (700 * SECOND) 100 verifying in
  overdue (700 * SECOND) t = ∅
  /\ rt_plans t !! k1 = Some (expire_row (700 * SECOND) (the_plan verifying))
  /\ expired_event (700 * SECOND) (the_plan verifying) ∈ rt_staged t.
Proof.
  destruct (the_plan_found verifying VERIFICATION_PENDING verifying_status) as [Hr _].
  exact (overdue_verifications_end 1 (700 * SECOND) 100 verifying k1 (the_plan verifying)
    (reachable_plans _ verifying_reachable) one_overdue Hr verifying_overdue).
Defined.

(** ** A regression that leaves no trace in the plan *)

Definition two_windows : recovery_tables := after [judge "e1" 25; judge "e2" 175] verifying.

Definition judgement_on (t : recovery_tables) (e : odict json) (seconds : Z) : judgement :=
  {| ju_record := the_plan t;
     ju_decision := evaluate_recovery_evidence (rp_plan (the_plan t)) (verification_of (rp_lifecycle (the_plan t))) e [alert]
                      (seconds * SECOND) |}.

Definition regressed : judgement := judgement_on two_windows (evidence "bad" "245" 1) 250.
Definition healthy : judgement := judgement_on two_windows (evidence "e3" "320" 0) 325.

Definition after_both : recovery_tables :=
  commit_judgement (325 * SECOND) "e3" (commit_judgement (250 * SECOND) "bad" two_windows regressed) healthy.

Lemma two_windows_reachable : reachable {| pl_tables := two_windows; pl_threads := [] |}.
Proof. apply after_verifying. repeat constructor. Qed.

Lemma two_windows_pending : status_of two_windows = Some VERIFICATION_PENDING.
Proof. vm_compute. reflexivity. Qed.

Lemma judged_on_plan t e seconds :
  plans_ok t -> status_of t = Some VERIFICATION_PENDING -> judged_now (seconds * SECOND) (judgement_on t e seconds) t.
Proof.
  intros Ht Hs. destruct (the_plan_found t _ Hs) as [Hr Hp].
  assert (Hk := known_lookup t k1 _ Ht Hr). unfold known in Hk. rewrite Hp in Hk. destruct Hk as [Hstreak Hd].
  split; [exact Hstreak|]. split; [exact Hd|]. by exists e, [alert].
Qed.

Lemma two_windows_key : key_of (the_plan two_windows) = k1.
Proof.
  destruct (the_plan_found two_windows _ two_windows_pending) as [Hr _].
  by destruct (proj1 (reachable_plans _ two_windows_reachable) _ _ Hr).
Qed.

Lemma judged_record t e seconds : ju_record (judgement_on t e seconds) = the_plan t.
Proof. reflexivity. Qed.

Lemma same_record : ju_record healthy = ju_record regressed.
Proof. unfold healthy, regressed. by rewrite !judged_record. Qed.

Lemma regressed_row t s : status_of t = Some s -> rt_plans t !! key_of (ju_record regressed) = Some (the_plan t).
Proof.
  intros Hs. unfold regressed. rewrite judged_record, two_windows_key. by destruct (the_plan_found t s Hs).
Qed.

Lemma regressed_key : key_of (ju_record regressed) = k1.
Proof. unfold regressed. rewrite judged_record. exact two_windows_key. Qed.

Lemma regressed_pending : target_status (ju_decision regressed) = VERIFICATION_PENDING
  /\ vd_reason_code (ju_decision regressed) = "verification_regressed".
Proof. vm_compute. by split. Qed.

Lemma regression_erased_witness :
  rt_staged after_both = rt_staged two_windows ++ judged_events "bad" regressed ++ judged_events "e3" healthy
  /\ rt_plans after_both !! k1 = rt_plans (commit_judgement (325 * SECOND) "e3" two_windows healthy) !! k1
  /\ status_of after_both = Some COMPLETED.
Proof.
  destruct (the_plan_found two_windows _ two_windows_pending) as [Hr Hs]. assert (Hok := reachable_plans _ two_windows_reachable).
  destruct (regression_erased (250 * SECOND) "bad" (325 * SECOND) "e3" two_windows regressed healthy (the_plan two_windows)
    Hok (judged_on_plan _ _ 250 Hok two_windows_pending) same_record (regressed_row _ _ two_windows_pending) Hs
    (proj1 regressed_pending)) as [Hev Hrows].
  rewrite regressed_key in Hrows.
  split; [exact Hev|]. split; [exact Hrows|]. vm_compute. reflexivity.
Defined.

(** ** A retry that is undone *)

Definition retried : recovery_tables := after [janitor 611; retry 620] two_windows.

Lemma retried_pending : status_of retried = Some VERIFICATION_PENDING.
Proof. vm_compute. reflexivity. Qed.

Lemma retried_reachable : reachable {| pl_tables := retried; pl_threads := [] |}.
Proof. apply after_reachable; [repeat constructor|]. apply two_windows_reachable. Qed.

Lemma stale_deadline : deadline_of (ju_record regressed) = Some (610 * SECOND).
Proof. vm_compute. reflexivity. Qed.

Lemma retried_attempt_overwritten_witness :
  ve_started_at (verification_of (rp_lifecycle (the_plan retried))) = Some (620 * SECOND)
  /\ exists row, rt_plans (commit_judgement (630 * SECOND) "bad" retried regressed) !! key_of (ju_record regressed) = Some row
    /\ ve_started_at (verification_of (rp_lifecycle row)) = ve_started_at (verification_of (rp_lifecycle (ju_record regressed)))
    /\ deadline_of row = Some (610 * SECOND) /\ is_overdue (630 * SECOND) row = true.
Proof.
  split; [vm_compute; reflexivity|].
  destruct (the_plan_found retried _ retried_pending) as [Hr Hs]. assert (Hok := reachable_plans _ retried_reachable).
  exact (retried_attempt_overwritten (630 * SECOND) "bad" retried regressed (the_plan retried) (610 * SECOND)
    Hok (regressed_row _ _ retried_pending) Hs (proj1 regressed_pending) stale_deadline ltac:(unfold SECOND; lia)).
Defined.

(** ** A healthy cluster *)

Definition window_of (key at_ : string) (seconds : Z) : window :=
  {| wi_evidence := evidence key at_ 0; wi_alerts := [alert]; wi_now := seconds * SECOND |}.

Definition healthy_windows : list window := [window_of "e1" "20" 25; window_of "e2" "170" 175; window_of "e3" "320" 325].
Definition fresh : recovery_verification := verification_of (rp_lifecycle (the_plan verifying)).

Lemma healthy_on_schedule : on_schedule plan fresh (10 * SECOND) 150 (20 * SECOND) healthy_windows.
Proof.
  repeat split; try (vm_compute; congruence); apply (bool_decide_unpack _); vm_compute; exact I.
Qed.

Lemma recovery_completes_on_time_witness :
  map vd_status (judge_all plan fresh healthy_windows) = ["pending"; "pending"; "completed"]
  /\ forall d, judge_all plan fresh healthy_windows !! 2%nat = Some d -> vd_status d = "completed".
Proof.
  split; [vm_compute; reflexivity|]. intros d Hd.
  exact (recovery_completes_on_time plan fresh (10 * SECOND) 150 (20 * SECOND) healthy_windows 2 d
    (conj eq_refl (conj eq_refl eq_refl)) healthy_on_schedule eq_refl Hd eq_refl).
Defined.
End Sample.
