(* ===== verification/AgentPolicies.v ===== *)
(** Agent policies: what an agent collects and which objects it keeps in their
    desired state.

    The policy models of [packages/contracts/gateway/requests.py], their merge
    ([packages/contracts/gateway/policy_merge.py]), the rules that keep management
    clusters read-only ([domains/target/management_guard.py]) and the queries the
    server owns ([domains/target/evidence_policy.py], whose presets are the class
    [evidence_presets]: a table of several hundred lines the theorems do not look
    into). *)

From S2P Require Import Prelude PyString Json CommandHandler.
From Stdlib Require Import Ascii.
From coqutil Require Import Datatypes.RecordSettersUsingExistingGetters.
#[global] Open Scope Z_scope.

Arguments RecordSettersUsingExistingGetters.const {E} newValue _ /.

(** ** The models *)

Inductive role : Type := role_management | role_target.
Inductive resource_scope : Type := scope_target_agent | scope_system | scope_user_workload.
Inductive resource_kind : Type := ConfigMap | Deployment.
Inductive resource_action : Type := action_observe | action_apply.

#[export] Instance role_eq_dec : EqDecision role.
Proof. solve_decision. Defined.
#[export] Instance resource_scope_eq_dec : EqDecision resource_scope.
Proof. solve_decision. Defined.
#[export] Instance resource_kind_eq_dec : EqDecision resource_kind.
Proof. solve_decision. Defined.
#[export] Instance resource_action_eq_dec : EqDecision resource_action.
Proof. solve_decision. Defined.

Definition role_text (r : role) : string := match r with role_management => "management" | role_target => "target" end.
Definition scope_text (s : resource_scope) : string :=
  match s with
  | scope_target_agent => "target-agent" | scope_system => "system" | scope_user_workload => "user-workload"
  end.
Definition kind_text (k : resource_kind) : string := match k with ConfigMap => "ConfigMap" | Deployment => "Deployment" end.
Definition action_text (a : resource_action) : string :=
  match a with action_observe => "observe" | action_apply => "apply" end.

Record DesiredResource : Type := {
  dr_resource_id : string; dr_scope : resource_scope; dr_kind : resource_kind; dr_namespace : string;
  dr_name : string; dr_action : resource_action; dr_state : odict json;
}.

Record BootstrapPolicy : Type := { bp_mode : role; bp_resources : list DesiredResource }.
Record DesiredStatePolicy : Type := { ds_resources : list DesiredResource }.

(** The profiles as they are dumped: they are copied, compared and counted. *)
Record SchedulingPolicy : Type := { sp_profiles : list json }.

Record EvidenceProviderPolicy : Type := {
  ep_enabled : bool; ep_interval_seconds : Z; ep_min_workers : Z; ep_max_workers : Z;
  ep_queue_age_target_seconds : Z; ep_queries : list (odict json);
  ep_configuration_revision : option string; ep_configuration_operation_id : option string;
}.

Record EvidenceRuntimePolicy : Type := {
  er_profile : string; er_failure_policy : string; er_max_attempts : Z;
  er_providers : odict EvidenceProviderPolicy;
}.

Record AgentPolicy : Type := {
  ap_cluster_id : string; ap_generation : Z; ap_cluster_role : role; ap_evidence : EvidenceRuntimePolicy;
  ap_bootstrap : BootstrapPolicy; ap_desired_state : DesiredStatePolicy; ap_scheduling : SchedulingPolicy;
}.

Definition DEFAULT_AGENT_POLICY_GENERATION : Z := 1.
Definition DEFAULT_EVIDENCE_INTERVAL_SECONDS : Z := 30.

(** [EvidenceProviderPolicy()]. *)
Definition default_provider : EvidenceProviderPolicy :=
  {| ep_enabled := true; ep_interval_seconds := 8; ep_min_workers := 1; ep_max_workers := 3;
     ep_queue_age_target_seconds := 15; ep_queries := []; ep_configuration_revision := None;
     ep_configuration_operation_id := None |}.

(** What a validator raises. *)
Definition PAIRED_MESSAGE : string := "provider configuration revision and operation identity must be paired".

Definition require_complete_configuration_identity (p : EvidenceProviderPolicy) : result string EvidenceProviderPolicy :=
  match ep_configuration_revision p, ep_configuration_operation_id p with
  | Some _, Some _ | None, None => Ok p
  | _, _ => Err PAIRED_MESSAGE
  end.

(** ** [model_dump] *)

Definition optional_text (o : option string) : json := match o with Some s => JStr s | None => JNull end.

Definition dump_resource (r : DesiredResource) : json :=
  JObj [("resource_id", JStr (dr_resource_id r)); ("scope", JStr (scope_text (dr_scope r)));
        ("kind", JStr (kind_text (dr_kind r))); ("namespace", JStr (dr_namespace r)); ("name", JStr (dr_name r));
        ("action", JStr (action_text (dr_action r))); ("state", JObj (dr_state r))].

Definition dump_provider (p : EvidenceProviderPolicy) : json :=
  JObj [("enabled", JBool (ep_enabled p)); ("interval_seconds", JInt (ep_interval_seconds p));
        ("min_workers", JInt (ep_min_workers p)); ("max_workers", JInt (ep_max_workers p));
        ("queue_age_target_seconds", JInt (ep_queue_age_target_seconds p));
        ("queries", JArr (map JObj (ep_queries p)));
        ("configuration_revision", optional_text (ep_configuration_revision p));
        ("configuration_operation_id", optional_text (ep_configuration_operation_id p))].

Definition dump_evidence (e : EvidenceRuntimePolicy) : json :=
  JObj [("profile", JStr (er_profile e)); ("failure_policy", JStr (er_failure_policy e));
        ("max_attempts", JInt (er_max_attempts e));
        ("providers", JObj (map (fun kp => (kp.1, dump_provider kp.2)) (er_providers e)))].

(** The dump without its generation. *)
Definition policy_without_generation (p : AgentPolicy) : json :=
  JObj [("cluster_id", JStr (ap_cluster_id p)); ("cluster_role", JStr (role_text (ap_cluster_role p)));
        ("evidence", dump_evidence (ap_evidence p));
        ("bootstrap", JObj [("mode", JStr (role_text (bp_mode (ap_bootstrap p))));
                            ("resources", JArr (map dump_resource (bp_resources (ap_bootstrap p))))]);
        ("desired_state", JObj [("resources", JArr (map dump_resource (ds_resources (ap_desired_state p))))]);
        ("scheduling", JObj [("profiles", JArr (sp_profiles (ap_scheduling p)))])].

(** [==] on dumps: dicts compare without their order. *)
Definition same_dump (p q : AgentPolicy) : bool :=
  String.eqb (canonical_dumps json_string (policy_without_generation p))
             (canonical_dumps json_string (policy_without_generation q)).

Lemma same_dump_refl p : same_dump p p = true.
Proof. apply String.eqb_refl. Qed.

(** ** Merging: a validated payload knows which fields it was given *)

Record provider_update : Type := {
  pu_enabled : option bool; pu_interval_seconds : option Z; pu_min_workers : option Z; pu_max_workers : option Z;
  pu_queue_age_target_seconds : option Z; pu_queries : option (list (odict json));
  pu_configuration_revision : option (option string); pu_configuration_operation_id : option (option string);
}.

Record evidence_update : Type := {
  eu_profile : option string; eu_failure_policy : option string; eu_max_attempts : option Z;
  eu_providers : option (odict provider_update);
}.

Record policy_update : Type := {
  pl_cluster_id : option string; pl_generation : option Z; pl_cluster_role : option role;
  pl_evidence : option evidence_update; pl_bootstrap : option BootstrapPolicy;
  pl_desired_state : option DesiredStatePolicy; pl_scheduling : option SchedulingPolicy;
}.

(** A policy that was dumped and validated again: every field is given. *)
Definition all_provider (p : EvidenceProviderPolicy) : provider_update :=
  {| pu_enabled := Some (ep_enabled p); pu_interval_seconds := Some (ep_interval_seconds p);
     pu_min_workers := Some (ep_min_workers p); pu_max_workers := Some (ep_max_workers p);
     pu_queue_age_target_seconds := Some (ep_queue_age_target_seconds p); pu_queries := Some (ep_queries p);
     pu_configuration_revision := Some (ep_configuration_revision p);
     pu_configuration_operation_id := Some (ep_configuration_operation_id p) |}.

Definition all_evidence (e : EvidenceRuntimePolicy) : evidence_update :=
  {| eu_profile := Some (er_profile e); eu_failure_policy := Some (er_failure_policy e);
     eu_max_attempts := Some (er_max_attempts e);
     eu_providers := Some (map (fun kp => (kp.1, all_provider kp.2)) (er_providers e)) |}.

Definition all_fields (p : AgentPolicy) : policy_update :=
  {| pl_cluster_id := Some (ap_cluster_id p); pl_generation := Some (ap_generation p);
     pl_cluster_role := Some (ap_cluster_role p); pl_evidence := Some (all_evidence (ap_evidence p));
     pl_bootstrap := Some (ap_bootstrap p); pl_desired_state := Some (ap_desired_state p);
     pl_scheduling := Some (ap_scheduling p) |}.

Definition merge_provider_policy (base : EvidenceProviderPolicy) (incoming : provider_update)
    : result string EvidenceProviderPolicy :=
  require_complete_configuration_identity
    {| ep_enabled := default (ep_enabled base) (pu_enabled incoming);
       ep_interval_seconds := default (ep_interval_seconds base) (pu_interval_seconds incoming);
       ep_min_workers := default (ep_min_workers base) (pu_min_workers incoming);
       ep_max_workers := default (ep_max_workers base) (pu_max_workers incoming);
       ep_queue_age_target_seconds := default (ep_queue_age_target_seconds base) (pu_queue_age_target_seconds incoming);
       ep_queries := default (ep_queries base) (pu_queries incoming);
       ep_configuration_revision := default (ep_configuration_revision base) (pu_configuration_revision incoming);
       ep_configuration_operation_id :=
         default (ep_configuration_operation_id base) (pu_configuration_operation_id incoming) |}.

Fixpoint merge_providers (base providers : odict EvidenceProviderPolicy) (incoming : odict provider_update)
    : result string (odict EvidenceProviderPolicy) :=
  match incoming with
  | [] => Ok providers
  | (key, update) :: incoming =>
      merged ← merge_provider_policy (default default_provider (dict_get key base)) update;
      merge_providers base (dict_set key merged providers) incoming
  end.

Definition merge_evidence_policy (base : EvidenceRuntimePolicy) (incoming : evidence_update)
    : result string EvidenceRuntimePolicy :=
  providers ← match eu_providers incoming with
              | Some updates => merge_providers (er_providers base) (er_providers base) updates
              | None => Ok (er_providers base)
              end;
  Ok {| er_profile := er_profile base;
        er_failure_policy := default (er_failure_policy base) (eu_failure_policy incoming);
        er_max_attempts := default (er_max_attempts base) (eu_max_attempts incoming); er_providers := providers |}.

Definition merge_agent_policy (base : AgentPolicy) (incoming : policy_update) : result string AgentPolicy :=
  evidence ← match pl_evidence incoming with
             | Some update => merge_evidence_policy (ap_evidence base) update
             | None => Ok (ap_evidence base)
             end;
  Ok {| ap_cluster_id := default (ap_cluster_id base) (pl_cluster_id incoming);
        ap_generation := default DEFAULT_AGENT_POLICY_GENERATION (pl_generation incoming);
        ap_cluster_role := default (ap_cluster_role base) (pl_cluster_role incoming); ap_evidence := evidence;
        ap_bootstrap := default (ap_bootstrap base) (pl_bootstrap incoming);
        ap_desired_state := default (ap_desired_state base) (pl_desired_state incoming);
        ap_scheduling := default (ap_scheduling base) (pl_scheduling incoming) |}.

(** ** Management clusters are read-only *)

Definition KUBERNETES_QUERY_SCOPE_CLUSTER_EVENTS : string := "cluster_events".

Definition no_scheduling : SchedulingPolicy := {| sp_profiles := [] |}.

Definition is_cluster_events (q : odict json) : bool :=
  match dict_get "collection_scope" q with
  | Some (JStr s) => String.eqb s KUBERNETES_QUERY_SCOPE_CLUSTER_EVENTS
  | _ => false
  end.

Definition freeze_management_policy (p : AgentPolicy) : AgentPolicy :=
  let providers := er_providers (ap_evidence p) in
  let providers := match dict_get "kubernetes" providers with
                   | Some k => dict_set "kubernetes"
                                 (k <| ep_queries := base.filter (fun q => is_cluster_events q = false) (ep_queries k) |>)
                                 providers
                   | None => providers
                   end in
  p <| ap_cluster_role := role_management |>
    <| ap_evidence := (ap_evidence p) <| er_profile := "management" |> <| er_providers := providers |> |>
    <| ap_bootstrap := {| bp_mode := role_management; bp_resources := [] |} |>
    <| ap_desired_state := {| ds_resources := [] |} |> <| ap_scheduling := no_scheduling |>.

Definition refresh_management_policy (p : AgentPolicy) : AgentPolicy :=
  let frozen := freeze_management_policy p in
  if same_dump p frozen then p else frozen <| ap_generation := ap_generation p + 1 |>.

Definition desired_resources (p : AgentPolicy) : list DesiredResource :=
  bp_resources (ap_bootstrap p) ++ ds_resources (ap_desired_state p).

(** The same of a payload: a field that was not given is empty. *)
Definition update_resources (u : policy_update) : list DesiredResource :=
  match pl_bootstrap u with Some b => bp_resources b | None => [] end
  ++ match pl_desired_state u with Some d => ds_resources d | None => [] end.

Definition has_write_or_command_policy (u : policy_update) : bool := negb (Nat.eqb (length (update_resources u)) 0).

Definition has_scheduling_policy (u : policy_update) : bool :=
  match pl_scheduling u with Some s => negb (Nat.eqb (length (sp_profiles s)) 0) | None => false end.

Definition management_policy_update_is_forbidden (u : policy_update) : bool :=
  let role_changed := match pl_cluster_role u with Some r => negb (bool_decide (r = role_management)) | None => false end in
  role_changed || has_write_or_command_policy u || has_scheduling_policy u.

(** ** The queries the server owns *)

Definition STANDARD_EVIDENCE_PROFILE : string := "standard".
Definition DEMO_EVIDENCE_PROFILE : string := "demo".
Definition MANAGEMENT_EVIDENCE_PROFILE : string := "management".
Definition DEFAULT_EVIDENCE_FAILURE_POLICY : string := "allow_partial".
Definition DEFAULT_EVIDENCE_JOB_MAX_ATTEMPTS : Z := 3.
Definition EVIDENCE_PROVIDER_KEYS : list string := ["kubernetes"; "metrics"; "logs"; "traces"; "metadata"].
Definition DEFAULT_CLUSTER_ID : string := "default-target-cluster".

(** The preset of a provider: its queries for a cluster, a profile and the
    namespaces the agent may control. *)
Class evidence_presets := {
  evidence_provider_queries : string -> string -> string -> list string -> list (odict json);
}.

Definition query_name (q : odict json) : option string :=
  match dict_get "name" q with Some (JStr n) => Some n | _ => None end.

(** [str(query["name"])] of a preset. *)
Definition preset_name (q : odict json) : string := default "" (query_name q).

(** The rebase both [preserve_server_owned_evidence_queries] and
    [_rebase_provider_queries] do: presets replace their namesakes in place, other
    reserved names go, missing presets are appended. *)
Definition rebase_step (defaults : list (odict json)) (reserved : list string)
    (acc : list (odict json) * list string) (q : odict json) : list (odict json) * list string :=
  let '(rebased, seen_defaults) := acc in
  let defaults_by_name := foldl (fun d dq => dict_set (preset_name dq) dq d) [] defaults in
  match query_name q with
  | Some name =>
      match dict_get name defaults_by_name with
      | Some preset =>
          if bool_decide (name ∈ seen_defaults) then acc else (rebased ++ [preset], seen_defaults ++ [name])
      | None => if bool_decide (name ∈ reserved) then acc else (rebased ++ [q], seen_defaults)
      end
  | None => (rebased ++ [q], seen_defaults)
  end.

Definition rebase_queries (defaults : list (odict json)) (reserved : list string) (queries : list (odict json))
    : list (odict json) :=
  let '(rebased, seen_defaults) := foldl (rebase_step defaults reserved) ([], []) queries in
  rebased ++ base.filter (fun dq => preset_name dq ∉ seen_defaults) defaults.

Section Presets.
Context `{evidence_presets}.

Definition profile_default_query_names : list string :=
  dedup (flat_map (fun profile =>
    flat_map (fun key => map preset_name (evidence_provider_queries key DEFAULT_CLUSTER_ID profile []))
      EVIDENCE_PROVIDER_KEYS) [STANDARD_EVIDENCE_PROFILE; DEMO_EVIDENCE_PROFILE]).

Definition default_evidence_provider_policy (key : string) (interval_seconds : Z) (cluster_id profile : string)
    (control_namespaces : list string) : EvidenceProviderPolicy :=
  let queries := evidence_provider_queries key cluster_id profile control_namespaces in
  {| ep_enabled := negb (Nat.eqb (length queries) 0); ep_interval_seconds := interval_seconds; ep_min_workers := 1;
     ep_max_workers := 2; ep_queue_age_target_seconds := 15; ep_queries := queries;
     ep_configuration_revision := None; ep_configuration_operation_id := None |}.

Definition default_evidence_providers (interval_seconds : Z) (cluster_id profile : string)
    (control_namespaces : list string) : odict EvidenceProviderPolicy :=
  map (fun key => (key, default_evidence_provider_policy key interval_seconds cluster_id profile control_namespaces))
    EVIDENCE_PROVIDER_KEYS.

(** The profile must fit the role ([default_evidence_providers] raises). *)
Definition default_agent_policy (cluster_id : string) (cluster_role : role) (interval_seconds : Z) (bootstrap_mode : role)
    (evidence_profile : option string) (control_namespaces : list string) : result string AgentPolicy :=
  let profile := default (match cluster_role with
                          | role_management => MANAGEMENT_EVIDENCE_PROFILE
                          | role_target => STANDARD_EVIDENCE_PROFILE
                          end) evidence_profile in
  match cluster_role, String.eqb profile MANAGEMENT_EVIDENCE_PROFILE with
  | role_management, false => Err "management clusters require the management evidence profile"
  | role_target, true => Err "target clusters cannot use the management evidence profile"
  | _, _ =>
      Ok {| ap_cluster_id := cluster_id; ap_generation := 1; ap_cluster_role := cluster_role;
            ap_evidence := {| er_profile := profile; er_failure_policy := DEFAULT_EVIDENCE_FAILURE_POLICY;
                              er_max_attempts := DEFAULT_EVIDENCE_JOB_MAX_ATTEMPTS;
                              er_providers := default_evidence_providers interval_seconds cluster_id profile
                                                control_namespaces |};
            ap_bootstrap := {| bp_mode := bootstrap_mode; bp_resources := [] |};
            ap_desired_state := {| ds_resources := [] |}; ap_scheduling := no_scheduling |}
  end.

(** [default_agent_policy(cluster_id=cluster_id)]. *)
Definition plain_policy (cluster_id : string) : AgentPolicy :=
  {| ap_cluster_id := cluster_id; ap_generation := 1; ap_cluster_role := role_target;
     ap_evidence := {| er_profile := STANDARD_EVIDENCE_PROFILE; er_failure_policy := DEFAULT_EVIDENCE_FAILURE_POLICY;
                       er_max_attempts := DEFAULT_EVIDENCE_JOB_MAX_ATTEMPTS;
                       er_providers := default_evidence_providers DEFAULT_EVIDENCE_INTERVAL_SECONDS cluster_id
                                         STANDARD_EVIDENCE_PROFILE [] |};
     ap_bootstrap := {| bp_mode := role_target; bp_resources := [] |};
     ap_desired_state := {| ds_resources := [] |}; ap_scheduling := no_scheduling |}.

Lemma plain_policy_default cluster_id :
  default_agent_policy cluster_id role_target DEFAULT_EVIDENCE_INTERVAL_SECONDS role_target None [] = Ok (plain_policy
    cluster_id).
Proof. reflexivity. Qed.

Definition RCA_TEST_TARGET_ENVIRONMENTS : list string := ["test"; "aws-test"].

Definition evidence_profile_for_registration (cluster_role environment : string) (install_sample_workload : bool) : string :=
  if String.eqb cluster_role MANAGEMENT_CLUSTER_ROLE then MANAGEMENT_EVIDENCE_PROFILE
  else if install_sample_workload || bool_decide (casefold (strip environment) ∈ RCA_TEST_TARGET_ENVIRONMENTS)
  then DEMO_EVIDENCE_PROFILE else STANDARD_EVIDENCE_PROFILE.

(** Presets on one provider of a policy that is being rebased. *)
Definition preserve_provider (profile cluster_id : string) (control_namespaces : list string)
    (providers : odict EvidenceProviderPolicy) (key : string) : odict EvidenceProviderPolicy :=
  let defaults := evidence_provider_queries key cluster_id profile control_namespaces in
  match dict_get key providers with
  | None => dict_set key (default_evidence_provider_policy key DEFAULT_EVIDENCE_INTERVAL_SECONDS cluster_id profile
                            control_namespaces) providers
  | Some p => dict_set key (p <| ep_queries := rebase_queries defaults profile_default_query_names (ep_queries p) |>)
                providers
  end.

Definition preserve_server_owned_evidence_queries (p : AgentPolicy) (cluster_id profile : string)
    (control_namespaces : list string) : AgentPolicy :=
  p <| ap_evidence := (ap_evidence p)
        <| er_profile := profile |>
        <| er_providers := foldl (preserve_provider profile cluster_id control_namespaces)
                             (er_providers (ap_evidence p)) EVIDENCE_PROVIDER_KEYS |> |>.
End Presets.

(** [str(raw or "").replace(",", " ").split()], without repetitions. *)
Definition separator_to_blank (c : Ascii.ascii) : Ascii.ascii :=
  if Ascii.eqb c ","%char || strip_space c then " "%char else c.

Fixpoint blank_separators (s : string) : string :=
  match s with
  | EmptyString => EmptyString
  | String c s => String (separator_to_blank c) (blank_separators s)
  end.

Definition control_namespace_tuple (raw : string) : list string :=
  dedup (base.filter (fun s => s <> "") (split_on " "%char (blank_separators raw))).

Example control_namespaces_ex : control_namespace_tuple "b, a  b,c" = ["b"; "a"; "c"].
Proof. reflexivity. Qed.
