(* ===== verification/PolicyServer.v ===== *)
(** The policies of clusters on the server: their table
    ([domains/target/repository.py]), the routes that write it
    ([domains/target/router.py], [domains/integrations/prometheus.py]) and the
    routes the agents call.

    A route reads and writes in transactions of its own, so it is a program
    ([Transactions.prog]); only the generation, which every write must raise, keeps
    two routes from overwriting each other. *)

From S2P Require Import Prelude PyString Json CommandHandler Transactions AgentPolicies.
From coqutil Require Import Datatypes.RecordSettersUsingExistingGetters.
#[global] Open Scope Z_scope.

Arguments RecordSettersUsingExistingGetters.const {E} newValue _ /.

(** ** Tables *)

(** Workspace and cluster. *)
Abbreviation cluster_key := (string * string)%type (only parsing).

Record registration : Type := { rg_id : Z; rg_status : string; rg_settings : odict json }.

Record desired_component : Type := {
  dc_component : string; dc_namespace : string; dc_version : string; dc_updated_by : option string; dc_spec : odict json;
}.

Record status_report : Type := {
  sr_cluster_id : string; sr_generation : Z; sr_status : string; sr_message : string; sr_details : odict json;
}.

(** [sv_history] lists every policy that was ever stored; no code reads it. *)
Record server : Type := {
  sv_registrations : gmap cluster_key registration;
  sv_policies : gmap cluster_key AgentPolicy;
  sv_desired : gmap cluster_key (list desired_component);
  sv_policy_status : list (string * status_report);
  sv_reconcile_status : list (string * status_report);
  sv_next_id : Z;
  sv_history : list (cluster_key * AgentPolicy);
}.

(** What a route or a task raises. *)
Inductive policy_error : Type :=
| HTTPException (status_code : Z) (detail : string)
| Exception (message : string).

Abbreviation server_prog A := (prog server policy_error A) (only parsing).

Definition GENERATION_MESSAGE : string := "policy generation must be greater than the current generation".

Definition get_cluster_policy (k : cluster_key) (t : server) : option AgentPolicy := sv_policies t !! k.

Definition store_policy (k : cluster_key) (p : AgentPolicy) (t : server) : server :=
  t <| sv_policies ::= <[k := p]> |> <| sv_history ::= fun h => h ++ [(k, p)] |>.

(** The column [generation] repeats the generation of the policy. *)
Definition upsert_cluster_policy (k : cluster_key) (p : AgentPolicy) (t : server) : result string (server * AgentPolicy) :=
  match sv_policies t !! k with
  | Some existing =>
      if ap_generation p <=? ap_generation existing then Err GENERATION_MESSAGE else Ok (store_policy k p t, p)
  | None => Ok (store_policy k p t, p)
  end.

Definition same_details (a b : odict json) : bool :=
  String.eqb (canonical_dumps json_string (JObj a)) (canonical_dumps json_string (JObj b)).

Definition latest_status (k : cluster_key) (rows : list (string * status_report)) : option status_report :=
  snd <$> last (base.filter (fun r => r.1 = k.1 /\ sr_cluster_id r.2 = k.2) rows).

Definition append_agent_status_if_changed (workspace_id : string) (r : status_report)
    (rows : list (string * status_report)) : list (string * status_report) :=
  match latest_status (workspace_id, sr_cluster_id r) rows with
  | Some l =>
      if (sr_generation l =? sr_generation r) && String.eqb (sr_status l) (sr_status r)
         && String.eqb (sr_message l) (sr_message r) && same_details (sr_details l) (sr_details r)
      then rows else rows ++ [(workspace_id, r)]
  | None => rows ++ [(workspace_id, r)]
  end.

Definition save_agent_policy_status (workspace_id : string) (r : status_report) (t : server) : server :=
  t <| sv_policy_status ::= append_agent_status_if_changed workspace_id r |>.

Definition save_agent_reconcile_status (workspace_id : string) (r : status_report) (t : server) : server :=
  t <| sv_reconcile_status ::= append_agent_status_if_changed workspace_id r |>.

(** ** Settings of a registration *)

Definition setting_text (key default : string) (settings : odict json) : string :=
  match dict_get key settings with
  | Some (JStr s) => if String.eqb s "" then default else s
  | _ => default
  end.

Definition setting_bool (key : string) (settings : odict json) : bool :=
  match dict_get key settings with Some (JBool b) => b | _ => false end.

(** The row as [is_management_registration] reads it. *)
Definition registration_row (r : registration) : odict json :=
  [("status", JStr (rg_status r)); ("settings", JObj (rg_settings r))].

Definition is_managed (o : option registration) : bool := is_management_registration (registration_row <$> o).

(** ** Routes of operators *)

Section Routes.
Context `{evidence_presets}.

(** The base of an update, and whether the cluster is a management cluster. *)
Definition base_or_default (cluster_id : string) (o : option AgentPolicy) : AgentPolicy :=
  default (plain_policy cluster_id) o.

Definition is_management (r : option registration) (base : AgentPolicy) : bool :=
  is_managed r || is_management_role (role_text (ap_cluster_role base)).

Definition conflict_on (r : result string (server * AgentPolicy)) : result policy_error (server * AgentPolicy) :=
  match r with Ok x => Ok x | Err message => Err (HTTPException 409 message) end.

Definition raising {A} (r : result string A) : server_prog A :=
  match r with Ok x => Ret x | Err message => Raise (Exception message) end.

(** What the server owns in a policy of a registered target cluster. *)
Definition preserve_registered (cluster_id : string) (r : option registration) (p : AgentPolicy) : AgentPolicy :=
  match r with
  | Some r =>
      let settings := rg_settings r in
      let cluster_role := setting_text "cluster_role" (role_text (ap_cluster_role p)) settings in
      preserve_server_owned_evidence_queries p cluster_id
        (evidence_profile_for_registration cluster_role (setting_text "environment" "" settings)
           (setting_bool "install_sample_workload" settings))
        (control_namespace_tuple (setting_text "control_namespaces" "" settings))
  | None => p
  end.

Definition update_cluster_policy (workspace_id cluster_id : string) (payload : policy_update) : server_prog AgentPolicy :=
  if negb (String.eqb (default DEFAULT_CLUSTER_ID (pl_cluster_id payload)) cluster_id)
  then Raise (HTTPException 409 "cluster_id does not match policy payload") else
  existing ← read (get_cluster_policy (workspace_id, cluster_id));
  let base_policy := base_or_default cluster_id existing in
  registration ← read (fun t => sv_registrations t !! (workspace_id, cluster_id));
  if is_management registration base_policy then
    if management_policy_update_is_forbidden payload then Raise (HTTPException 400 MANAGEMENT_READONLY_CODE) else
    merged_policy ← raising (merge_agent_policy (freeze_management_policy base_policy) payload);
    tx (fun t => conflict_on (upsert_cluster_policy (workspace_id, cluster_id) (freeze_management_policy merged_policy) t))
  else
    merged_policy ← raising (merge_agent_policy base_policy payload);
    tx (fun t => conflict_on (upsert_cluster_policy (workspace_id, cluster_id)
                                (preserve_registered cluster_id registration merged_policy) t)).

Definition update_cluster_scheduling_profiles (workspace_id cluster_id : string) (payload : SchedulingPolicy)
    : server_prog AgentPolicy :=
  existing ← read (get_cluster_policy (workspace_id, cluster_id));
  let base_policy := base_or_default cluster_id existing in
  registration ← read (fun t => sv_registrations t !! (workspace_id, cluster_id));
  if is_management registration base_policy then Raise (HTTPException 400 MANAGEMENT_READONLY_CODE) else
  let merged_policy := base_policy <| ap_generation := ap_generation base_policy + 1 |> <| ap_scheduling := payload |> in
  tx (fun t => conflict_on (upsert_cluster_policy (workspace_id, cluster_id) merged_policy t)).

(** The part of configuring Prometheus that writes the policy: it reads under the lock. *)
Definition PROMETHEUS_POLICY_PROVIDER : string := "metrics".

Definition configured_policy (revision operation_id : string) (base_policy : AgentPolicy) : AgentPolicy :=
  let providers := er_providers (ap_evidence base_policy) in
  let provider := default default_provider (dict_get PROMETHEUS_POLICY_PROVIDER providers) in
  let provider := provider <| ep_configuration_revision := Some revision |>
                           <| ep_configuration_operation_id := Some operation_id |> in
  base_policy <| ap_generation := ap_generation base_policy + 1 |>
              <| ap_evidence := (ap_evidence base_policy)
                   <| er_providers := dict_set PROMETHEUS_POLICY_PROVIDER provider providers |> |>.

Definition configure_prometheus (workspace_id cluster_id revision operation_id : string) : server_prog AgentPolicy :=
  registration ← read (fun t => sv_registrations t !! (workspace_id, cluster_id));
  match registration with
  | None => Raise (HTTPException 404 "cluster registration not found")
  | Some _ =>
      tx (fun t =>
        let base_policy := base_or_default cluster_id (get_cluster_policy (workspace_id, cluster_id) t) in
        conflict_on (upsert_cluster_policy (workspace_id, cluster_id) (configured_policy revision operation_id base_policy) t))
  end.

(** ** Registration *)

(** [tr_other] are the fields the policy does not depend on. *)
Record TargetRegisterRequest : Type := {
  tr_workspace_id : string; tr_cluster_id : string; tr_cluster_role : role; tr_management_base_url : string;
  tr_image : string; tr_environment : string; tr_loki_base_url : string; tr_tempo_base_url : string;
  tr_otel_traces_endpoint : string; tr_evidence_interval_seconds : Z; tr_control_namespaces : string;
  tr_install_node_collector : bool; tr_install_sample_workload : bool; tr_other : odict json;
}.

Definition registration_settings (p : TargetRegisterRequest) : odict json :=
  dict_update (tr_other p)
    [("cluster_role", JStr (role_text (tr_cluster_role p))); ("management_base_url", JStr (tr_management_base_url p));
     ("image", JStr (tr_image p)); ("cluster_id", JStr (tr_cluster_id p)); ("environment", JStr (tr_environment p));
     ("workspace_id", JStr (tr_workspace_id p)); ("loki_base_url", JStr (tr_loki_base_url p));
     ("tempo_base_url", JStr (tr_tempo_base_url p)); ("otel_traces_endpoint", JStr (tr_otel_traces_endpoint p));
     ("evidence_interval_seconds", JInt (tr_evidence_interval_seconds p));
     ("control_namespaces", JStr (tr_control_namespaces p));
     ("install_node_collector", JBool (tr_install_node_collector p));
     ("install_sample_workload", JBool (tr_install_sample_workload p))].

Definition TARGET_NAMESPACE : string := "target".
Definition CLUSTER_AGENT : string := "cluster-agent".
Definition NODE_COLLECTOR : string := "node-collector".

Definition target_desired_components (p : TargetRegisterRequest) : list desired_component :=
  [{| dc_component := CLUSTER_AGENT; dc_namespace := TARGET_NAMESPACE; dc_version := tr_image p; dc_updated_by := None;
      dc_spec := [("deployment", JStr "cluster-agent"); ("management_base_url", JStr (tr_management_base_url p));
                  ("cluster_role", JStr (role_text (tr_cluster_role p)));
                  ("evidence_interval_seconds", JInt (tr_evidence_interval_seconds p));
                  ("loki_base_url", JStr (tr_loki_base_url p)); ("tempo_base_url", JStr (tr_tempo_base_url p));
                  ("otel_traces_endpoint", JStr (tr_otel_traces_endpoint p))] |};
   {| dc_component := NODE_COLLECTOR; dc_namespace := TARGET_NAMESPACE; dc_version := tr_image p; dc_updated_by := None;
      dc_spec := [("enabled", JBool (tr_install_node_collector p)); ("daemonset", JStr "optional-node-collector");
                  ("managed_by", JStr CLUSTER_AGENT)] |}].

(** Rows in the order of their component. *)
Fixpoint put_component (c : desired_component) (rows : list desired_component) : list desired_component :=
  match rows with
  | [] => [c]
  | r :: rows =>
      if String.eqb (dc_component r) (dc_component c) then c :: rows
      else if String.leb (dc_component c) (dc_component r) then c :: r :: rows else r :: put_component c rows
  end.

Definition upsert_target_desired_state (updated_by : option string) (preserve_spec : bool) (rows : list desired_component)
    (c : desired_component) : list desired_component :=
  let kept := if preserve_spec
              then match List.find (fun r => String.eqb (dc_component r) (dc_component c)) rows with
                   | Some r => dc_spec r
                   | None => dc_spec c
                   end
              else dc_spec c in
  put_component (c <| dc_updated_by := updated_by |> <| dc_spec := kept |>) rows.

Definition upsert_target_desired_states (k : cluster_key) (components : list desired_component) (updated_by : option string)
    (preserve_spec : bool) (t : server) : server :=
  t <| sv_desired ::= <[k := foldl (upsert_target_desired_state updated_by preserve_spec)
                               (default [] (sv_desired t !! k)) components]> |>.

Definition registration_policy (p : TargetRegisterRequest) : result string AgentPolicy :=
  policy ← default_agent_policy (tr_cluster_id p) (tr_cluster_role p) (tr_evidence_interval_seconds p) (tr_cluster_role p)
             (Some (evidence_profile_for_registration (role_text (tr_cluster_role p)) (tr_environment p)
                      (tr_install_sample_workload p)))
             (control_namespace_tuple (tr_control_namespaces p));
  Ok (match tr_cluster_role p with role_management => freeze_management_policy policy | role_target => policy end).

(** The transaction of [register_target]. *)
Definition register_target (user_id : string) (p : TargetRegisterRequest) : server_prog unit :=
  let k := (tr_workspace_id p, tr_cluster_id p) in
  write (fun t =>
    match sv_registrations t !! k with
    | Some _ => Err (HTTPException 409 "cluster_id is already registered")
    | None =>
        let t := t <| sv_registrations ::= <[k := {| rg_id := sv_next_id t; rg_status := "pending_install";
                                                     rg_settings := registration_settings p |}]> |>
                   <| sv_next_id ::= Z.succ |> in
        stored ← match get_cluster_policy k t with
                 | Some _ => Ok t
                 | None =>
                     match registration_policy p with
                     | Ok policy => fst <$> conflict_on (upsert_cluster_policy k policy t)
                     | Err message => Err (Exception message)
                     end
                 end;
        Ok (upsert_target_desired_states k (target_desired_components p) (Some user_id) false stored)
    end).

(** ** Routes of the agent *)

(** The identity is the one of the agent's token. *)
Definition agent_policy (workspace_id identity_cluster cluster_id : string) (generation : Z)
    : server_prog (option AgentPolicy) :=
  if negb (String.eqb cluster_id identity_cluster)
  then Raise (HTTPException 403 "cluster_id does not match agent identity") else
  let k := (workspace_id, identity_cluster) in
  stored ← read (get_cluster_policy k);
  match stored with
  | None => Ret None
  | Some policy =>
      registration ← read (fun t => sv_registrations t !! k);
      let refreshed := refresh_management_policy policy in
      served ← (if is_management registration policy && (ap_generation policy <? ap_generation refreshed) then
                  stored ← tx (fun t => match upsert_cluster_policy k refreshed t with
                                        | Ok (t, policy) => Ok (t, Some policy)
                                        | Err _ => Ok (t, None)
                                        end);
                  match stored with
                  | Some policy => Ret (Some policy)
                  | None => read (get_cluster_policy k)
                  end
                else Ret (Some policy));
      Ret (match served with
           | Some policy => if ap_generation policy <=? generation then None else Some policy
           | None => None
           end)
  end.

(** [generation] must be at least 1 (the request is validated), and the identity replaces the cluster. *)
Definition status_route (save : string -> status_report -> server -> server) (workspace_id identity_cluster : string)
    (payload : status_report) : server_prog unit :=
  if sr_generation payload <? 1 then Raise (HTTPException 422 "generation") else
  write (fun t => Ok (save workspace_id (payload <| sr_cluster_id := identity_cluster |>) t)).

Definition agent_policy_status : string -> string -> status_report -> server_prog unit :=
  status_route save_agent_policy_status.
Definition agent_reconcile_status : string -> string -> status_report -> server_prog unit :=
  status_route save_agent_reconcile_status.
End Routes.
