(* ===== verification/PolicyUpgrade.v ===== *)
(** The upgrade of the agents of registered clusters
    ([domains/target/policy_upgrade.py]): a plan per cluster, computed from what one
    query read, and the transaction that applies all plans or none
    ([domains/target/repository.py]).

    The settings of a registration are the dump of a validated request.
    [derive_realtime_gateway_url] parses a URL with the standard library. *)

From S2P Require Import Prelude PyString Json CommandHandler Transactions AgentPolicies PolicyServer.
From Stdlib Require Import Ascii.
From coqutil Require Import Datatypes.RecordSettersUsingExistingGetters.
#[global] Open Scope Z_scope.

Arguments RecordSettersUsingExistingGetters.const {E} newValue _ /.

(** ** Images *)

Definition is_between (lo hi c : ascii) : bool :=
  ((N_of_ascii lo <=? N_of_ascii c) && (N_of_ascii c <=? N_of_ascii hi))%N.
Definition is_lower (c : ascii) : bool := is_between "a"%char "z"%char c.
Definition is_upper (c : ascii) : bool := is_between "A"%char "Z"%char c.
Definition is_digit (c : ascii) : bool := is_between "0"%char "9"%char c.
Definition one_of (s : string) (c : ascii) : bool := existsb (Ascii.eqb c) (String.list_ascii_of_string s).

(** [[A-Za-z0-9._:/-]]. *)
Definition is_image_char (c : ascii) : bool := is_lower c || is_upper c || is_digit c || one_of "._:/-" c.
Definition is_hex_char (c : ascii) : bool := is_digit c || is_between "a"%char "f"%char c.
Definition all_chars (f : ascii -> bool) (s : string) : bool := forallb f (String.list_ascii_of_string s).

Definition IMAGE_MESSAGE : string := "target image must use an immutable sha256 digest".

Definition is_image_digest (s : string) : bool :=
  match split_on "@"%char s with
  | [repository; digest] =>
      negb (String.eqb repository "") && all_chars is_image_char repository
      && String.prefix "sha256:" digest
      && (let hex := String.substring 7 (String.length digest - 7) digest in
          Nat.eqb (String.length hex) 64 && all_chars is_hex_char hex)
  | _ => false
  end.

Definition require_target_image_digest (image : string) : result string string :=
  if is_image_digest (strip image) then Ok (strip image) else Err IMAGE_MESSAGE.

(** ** The request a registration stands for *)

Definition MAX_DYNAMIC_RESOURCE_NAMESPACES : nat := 32.
Definition TARGET_OTEL_TRACES_ENDPOINT : string := "http://opentelemetry-collector.target.svc:4318/v1/traces".

Definition is_label_char (c : ascii) : bool := is_lower c || is_digit c.

(** [[a-z0-9](?:[-a-z0-9]*[a-z0-9])?], at most 63 characters. *)
Definition is_kubernetes_dns_label (s : string) : bool :=
  (String.length s <=? 63)%nat
  && match String.list_ascii_of_string s with
     | [] => false
     | first :: _ as chars =>
         is_label_char first && is_label_char (List.last chars first)
         && forallb (fun c => is_label_char c || Ascii.eqb c "-"%char) chars
     end.

Definition normalize_control_namespaces (value : string) : result string string :=
  let namespaces := dedup (base.filter (fun s => s <> "") (map strip (split_on ","%char value))) in
  if (MAX_DYNAMIC_RESOURCE_NAMESPACES <? length namespaces)%nat then Err "control_namespaces supports at most 32 namespaces"
  else if forallb is_kubernetes_dns_label namespaces then Ok (String.concat "," namespaces)
  else Err "control_namespaces must contain Kubernetes DNS label namespaces".

Section Fields.
Context (settings : odict json).

Definition field_text (key default : string) : result string string :=
  match dict_get key settings with Some (JStr s) => Ok s | None => Ok default | _ => Err ("invalid " +:+ key) end.

Definition field_bool (key : string) (default : bool) : result string bool :=
  match dict_get key settings with Some (JBool b) => Ok b | None => Ok default | _ => Err ("invalid " +:+ key) end.

Definition field_role : result string role :=
  match dict_get "cluster_role" settings with
  | None => Ok role_target
  | Some (JStr s) => if String.eqb s "management" then Ok role_management
                     else if String.eqb s "target" then Ok role_target else Err "invalid cluster_role"
  | _ => Err "invalid cluster_role"
  end.

Definition field_interval : result string Z :=
  match dict_get "evidence_interval_seconds" settings with
  | None => Ok DEFAULT_EVIDENCE_INTERVAL_SECONDS
  | Some (JInt n) => if (1 <=? n) && (n <=? 3600) then Ok n else Err "invalid evidence_interval_seconds"
  | _ => Err "invalid evidence_interval_seconds"
  end.

(** [_sample_workload_requires_explicit_config]. *)
Definition sample_configured (install : bool) : bool :=
  negb install || (negb (String.eqb (setting_text "sample_workload_name" "" settings) "")
                   && negb (String.eqb (setting_text "sample_workload_image" "" settings) "")).
End Fields.

Definition with_otel_default (p : TargetRegisterRequest) : TargetRegisterRequest :=
  match tr_cluster_role p with
  | role_target => if String.eqb (strip (tr_otel_traces_endpoint p)) ""
                   then p <| tr_otel_traces_endpoint := TARGET_OTEL_TRACES_ENDPOINT |> else p
  | role_management => p
  end.

Definition registration_payload (k : cluster_key) (settings : odict json) (target_image : string)
    : result string TargetRegisterRequest :=
  cluster_role ← field_role settings;
  management_base_url ← field_text settings "management_base_url" "";
  environment ← field_text settings "environment" "sandbox";
  loki_base_url ← field_text settings "loki_base_url" "http://loki-gateway.target.svc";
  tempo_base_url ← field_text settings "tempo_base_url" "http://tempo.target.svc:3200";
  otel_traces_endpoint ← field_text settings "otel_traces_endpoint" "";
  evidence_interval_seconds ← field_interval settings;
  raw_namespaces ← field_text settings "control_namespaces" "";
  control_namespaces ← normalize_control_namespaces raw_namespaces;
  install_node_collector ← field_bool settings "install_node_collector" true;
  install_sample_workload ← field_bool settings "install_sample_workload" false;
  if negb (sample_configured settings install_sample_workload) then Err "sample_workload_name and sample_workload_image" else
  Ok (with_otel_default
        {| tr_workspace_id := k.1; tr_cluster_id := k.2; tr_cluster_role := cluster_role;
           tr_management_base_url := management_base_url; tr_image := target_image; tr_environment := environment;
           tr_loki_base_url := loki_base_url; tr_tempo_base_url := tempo_base_url;
           tr_otel_traces_endpoint := otel_traces_endpoint; tr_evidence_interval_seconds := evidence_interval_seconds;
           tr_control_namespaces := control_namespaces; tr_install_node_collector := install_node_collector;
           tr_install_sample_workload := install_sample_workload; tr_other := [] |}).

(** ** Rebasing the queries *)

Definition TEMPO_RECENT_TRACE_QUERY_NAME : string := "cluster_recent_traces".

Definition self_upgrade_compatible_query (q : odict json) : odict json :=
  match dict_get "source" q, query_name q with
  | Some (JStr source), Some name =>
      if String.eqb source "tempo" && String.eqb name TEMPO_RECENT_TRACE_QUERY_NAME
      then dict_pop "step_seconds" (dict_pop "range_seconds" q) else q
  | _, _ => q
  end.

Section Rebase.
Context `{evidence_presets}.

Definition compatible_queries (key cluster_id profile : string) (control_namespaces : list string) : list (odict json) :=
  map self_upgrade_compatible_query (evidence_provider_queries key cluster_id profile control_namespaces).

Definition rebase_provider (interval_seconds : Z) (cluster_id profile : string) (control_namespaces : list string)
    (providers : odict EvidenceProviderPolicy) (key : string) : odict EvidenceProviderPolicy :=
  let defaults := compatible_queries key cluster_id profile control_namespaces in
  match dict_get key providers with
  | None => dict_set key ((default_evidence_provider_policy key interval_seconds cluster_id profile control_namespaces)
                            <| ep_queries := defaults |>) providers
  | Some p => dict_set key (p <| ep_queries := rebase_queries defaults profile_default_query_names (ep_queries p) |>
                              <| ep_enabled := negb (Nat.eqb (length defaults) 0) |>) providers
  end.

Definition rebase_provider_queries (p : AgentPolicy) (interval_seconds : Z) (cluster_id profile : string)
    (control_namespaces : list string) : AgentPolicy :=
  p <| ap_evidence := (ap_evidence p)
        <| er_profile := profile |>
        <| er_providers := foldl (rebase_provider interval_seconds cluster_id profile control_namespaces)
                             (er_providers (ap_evidence p)) EVIDENCE_PROVIDER_KEYS |> |>.
End Rebase.

(** ** The objects of the agent *)

Definition TARGET_RUNTIME_CONFIG_NAME : string := "target-runtime-config".
Definition TARGET_AGENT_IMAGE_KEY : string := "TARGET_AGENT_IMAGE".
Definition NODE_COLLECTOR_IMAGE_KEY : string := "NODE_COLLECTOR_IMAGE".
Definition TARGET_RUNTIME_IMAGE_ANNOTATION : string := "opsia.dev/runtime-image".

Class runtime_urls := { derive_realtime_gateway_url : string -> bool -> string }.

(** [yaml.safe_load(cluster_agent_manifest(payload))]. *)
Definition cluster_agent_manifest `{runtime_urls} (p : TargetRegisterRequest) : odict json :=
  [("apiVersion", JStr "apps/v1"); ("kind", JStr "Deployment");
   ("metadata", JObj [("name", JStr "cluster-agent");
                      ("namespace", JStr (match tr_cluster_role p with
                                          | role_management => "management" | role_target => TARGET_NAMESPACE end))]);
   ("spec", JObj
     [("replicas", JInt 1);
      ("selector", JObj [("matchLabels", JObj [("app", JStr "cluster-agent")])]);
      ("template", JObj
        [("metadata", JObj [("labels", JObj [("app", JStr "cluster-agent")])]);
         ("spec", JObj
           [("priorityClassName", JStr "gitops-control-critical"); ("serviceAccountName", JStr "cluster-agent");
            ("affinity", JObj [("nodeAffinity", JObj
              [("preferredDuringSchedulingIgnoredDuringExecution", JArr
                [JObj [("weight", JInt 50);
                       ("preference", JObj [("matchExpressions", JArr
                         [JObj [("key", JStr "workload-tier"); ("operator", JStr "In");
                                ("values", JArr [JStr "fast-lane"])]])])]])])]);
            ("containers", JArr
              [JObj [("name", JStr "cluster-agent"); ("image", JStr (tr_image p));
                     ("imagePullPolicy", JStr "IfNotPresent");
                     ("command", JArr [JStr "python"; JStr "src/services/target/cluster-agent/app.py"]);
                     ("envFrom", JArr [JObj [("configMapRef", JObj [("name", JStr TARGET_RUNTIME_CONFIG_NAME)])];
                                       JObj [("secretRef", JObj [("name", JStr "target-runtime-secret")])]]);
                     ("env", JArr
                       [JObj [("name", JStr "MANAGEMENT_BASE_URL"); ("value", JStr (tr_management_base_url p))];
                        JObj [("name", JStr "REALTIME_GATEWAY_URL");
                              ("value", JStr (derive_realtime_gateway_url (tr_management_base_url p)
                                 (bool_decide (tr_cluster_role p = role_management))))]]);
                     ("volumeMounts", JArr [JObj [("name", JStr "target-agent-runtime");
                                                  ("mountPath", JStr "/var/lib/target-agent")]])]]);
            ("volumes", JArr [JObj [("name", JStr "target-agent-runtime"); ("emptyDir", JObj [])]])])])])].

Definition is_agent_deployment (r : DesiredResource) : bool :=
  bool_decide (dr_kind r = Deployment) && String.eqb (dr_namespace r) TARGET_NAMESPACE
  && String.eqb (dr_name r) "cluster-agent".

Definition is_runtime_config (r : DesiredResource) : bool :=
  bool_decide (dr_kind r = ConfigMap) && String.eqb (dr_namespace r) TARGET_NAMESPACE
  && String.eqb (dr_name r) TARGET_RUNTIME_CONFIG_NAME.

Definition matching (f : DesiredResource -> bool) (p : AgentPolicy) : list DesiredResource :=
  List.filter f (desired_resources p).

(** [template.setdefault(key, {})] of a dict that must hold a dict. *)
Definition object_or_empty (key message : string) (d : odict json) : result string (odict json) :=
  match dict_get key d with
  | None => Ok []
  | Some (JObj o) => Ok o
  | Some _ => Err message
  end.

Definition annotate_template (image : string) (template : odict json) : result string (odict json) :=
  metadata ← object_or_empty "metadata" "cluster-agent template metadata must be an object" template;
  annotations ← object_or_empty "annotations" "cluster-agent template annotations must be an object" metadata;
  Ok (dict_set "metadata"
        (JObj (dict_set "annotations" (JObj (dict_set TARGET_RUNTIME_IMAGE_ANNOTATION (JStr image) annotations)) metadata))
        template).

Definition is_agent_container (c : json) : bool :=
  match c with
  | JObj fields => match dict_get "name" fields with Some (JStr n) => String.eqb n "cluster-agent" | _ => false end
  | _ => false
  end.

Definition with_image (image : string) (c : json) : json :=
  match c with JObj fields => JObj (dict_set "image" (JStr image) fields) | c => c end.

Definition is_object (v : json) : bool := match v with JObj _ => true | _ => false end.

(** The image of the one container of that name, and the annotation of its template. *)
Definition set_agent_image (image : string) (state : odict json) : result string (odict json) :=
  match dict_get "spec" state with
  | Some (JObj spec) =>
      match dict_get "template" spec with
      | Some (JObj template) =>
          match dict_get "spec" template with
          | Some (JObj pod) =>
              match dict_get "containers" pod with
              | Some (JArr containers) =>
                  if negb (forallb is_object containers) then Err "container is not an object" else
                  if negb (Nat.eqb (length (List.filter is_agent_container containers)) 1)
                  then Err "cluster-agent desired resource container identity is ambiguous" else
                  let containers := map (fun c => if is_agent_container c then with_image image c else c) containers in
                  template ← annotate_template image
                               (dict_set "spec" (JObj (dict_set "containers" (JArr containers) pod)) template);
                  Ok (dict_set "spec" (JObj (dict_set "template" (JObj template) spec)) state)
              | _ => Err "cluster-agent desired resource has no container list"
              end
          | _ => Err "cluster-agent desired resource has no container list"
          end
      | _ => Err "cluster-agent desired resource has no container list"
      end
  | _ => Err "cluster-agent desired resource has no container list"
  end.

Definition map_resources (f : DesiredResource -> DesiredResource) (p : AgentPolicy) : AgentPolicy :=
  p <| ap_bootstrap := (ap_bootstrap p) <| bp_resources ::= map f |> |>
    <| ap_desired_state := (ap_desired_state p) <| ds_resources ::= map f |> |>.

Definition new_agent_deployment (state : odict json) : DesiredResource :=
  {| dr_resource_id := "target-agent-deployment"; dr_scope := scope_target_agent; dr_kind := Deployment;
     dr_namespace := TARGET_NAMESPACE; dr_name := "cluster-agent"; dr_action := action_apply; dr_state := state |}.

(** The new manifest with the annotation; its container has that image already. *)
Definition annotated_manifest `{runtime_urls} (p : TargetRegisterRequest) : result string (odict json) :=
  set_agent_image (tr_image p) (cluster_agent_manifest p).

Definition deployment_resource `{runtime_urls} (p : AgentPolicy) (payload : TargetRegisterRequest) : result string AgentPolicy :=
  match matching is_agent_deployment p with
  | [] =>
      state ← annotated_manifest payload;
      Ok (p <| ap_desired_state := (ap_desired_state p) <| ds_resources ::= fun l => l ++ [new_agent_deployment state] |> |>)
  | [r] =>
      state ← set_agent_image (tr_image payload) (dr_state r);
      Ok (map_resources (fun x => if is_agent_deployment x then x <| dr_state := state |> else x) p)
  | _ => Err "cluster-agent desired resource identity is ambiguous"
  end.

Definition runtime_config (resource_id image : string) : DesiredResource :=
  {| dr_resource_id := resource_id; dr_scope := scope_target_agent; dr_kind := ConfigMap;
     dr_namespace := TARGET_NAMESPACE; dr_name := TARGET_RUNTIME_CONFIG_NAME; dr_action := action_apply;
     dr_state := [("apiVersion", JStr "v1"); ("kind", JStr "ConfigMap");
                  ("metadata", JObj [("name", JStr TARGET_RUNTIME_CONFIG_NAME); ("namespace", JStr TARGET_NAMESPACE)]);
                  ("data", JObj [(TARGET_AGENT_IMAGE_KEY, JStr image); (NODE_COLLECTOR_IMAGE_KEY, JStr image)])] |}.

Definition runtime_config_resource (p : AgentPolicy) (payload : TargetRegisterRequest) : result string AgentPolicy :=
  let others := List.filter (fun r => negb (is_runtime_config r)) in
  let insert resource_id :=
    p <| ap_bootstrap := (ap_bootstrap p)
           <| bp_resources := runtime_config resource_id (tr_image payload) :: others (bp_resources (ap_bootstrap p)) |> |>
      <| ap_desired_state := (ap_desired_state p) <| ds_resources ::= others |> |> in
  match matching is_runtime_config p with
  | [] => Ok (insert "target-runtime-config-images")
  | [existing] =>
      Ok (insert (if String.eqb (dr_resource_id existing) "" then "target-runtime-config-images"
                  else dr_resource_id existing))
  | _ => Err "target runtime config desired resource identity is ambiguous"
  end.

(** ** Plans *)

Definition UPGRADE_ACTOR : string := "target-policy-upgrade".

(** Rows by component, the defaults for missing ones, at the new image. *)
Definition target_desired_state_rows (p : TargetRegisterRequest) (existing : list desired_component) : list desired_component :=
  foldl (fun rows c =>
           let row := default c (List.find (fun r => String.eqb (dc_component r) (dc_component c)) rows) in
           put_component (row <| dc_version := tr_image p |>) rows)
    existing (target_desired_components p).

Record upgrade_candidate : Type := {
  uc_key : cluster_key; uc_registration : registration; uc_policy : option AgentPolicy;
  uc_desired_states : list desired_component;
}.

Record TargetUpgradePlan : Type := {
  pn_registration_id : Z; pn_key : cluster_key; pn_changed : bool; pn_current_generation : Z; pn_next_generation : Z;
  pn_policy : option AgentPolicy; pn_policy_existed : bool; pn_settings_patch : odict json;
  pn_desired_states : list desired_component; pn_skipped_reason : option string;
}.

Definition component_json (c : desired_component) : json :=
  JObj [("component", JStr (dc_component c)); ("namespace", JStr (dc_namespace c)); ("version", JStr (dc_version c));
        ("spec", JObj (dc_spec c))].

(** [==] on the rows; a row that was just added has no [updated_by], like its default. *)
Definition same_rows (a b : list desired_component) : bool :=
  String.eqb (canonical_dumps json_string (JArr (map component_json a)))
             (canonical_dumps json_string (JArr (map component_json b))).

Section Plans.
Context `{evidence_presets} `{runtime_urls}.

Definition skipped_plan (c : upgrade_candidate) (current : AgentPolicy) (reason : string) : TargetUpgradePlan :=
  {| pn_registration_id := rg_id (uc_registration c); pn_key := uc_key c; pn_changed := false;
     pn_current_generation := ap_generation current; pn_next_generation := ap_generation current; pn_policy := None;
     pn_policy_existed := bool_decide (is_Some (uc_policy c)); pn_settings_patch := [];
     pn_desired_states := uc_desired_states c; pn_skipped_reason := Some reason |}.

Definition rebased_policy (c : upgrade_candidate) (current : AgentPolicy) (payload : TargetRegisterRequest)
    : result string AgentPolicy :=
  let rebased := rebase_provider_queries current (tr_evidence_interval_seconds payload) (uc_key c).2
                   (evidence_profile_for_registration (role_text (tr_cluster_role payload)) (tr_environment payload)
                      (tr_install_sample_workload payload))
                   (control_namespace_tuple (tr_control_namespaces payload)) in
  rebased ← runtime_config_resource rebased payload;
  deployment_resource rebased payload.

Definition settings_patch (settings : odict json) (image : string) (payload : TargetRegisterRequest) : odict json :=
  (if String.eqb (setting_text "image" "" settings) image then [] else [("image", JStr image)])
  ++ (if String.eqb (setting_text "otel_traces_endpoint" "" settings) (tr_otel_traces_endpoint payload) then []
      else [("otel_traces_endpoint", JStr (tr_otel_traces_endpoint payload))]).

Definition build_target_upgrade_plan (target_image : string) (c : upgrade_candidate) : result string TargetUpgradePlan :=
  image ← require_target_image_digest target_image;
  let current := base_or_default (uc_key c).2 (uc_policy c) in
  if negb (String.eqb (ap_cluster_id current) (uc_key c).2)
  then Err "stored policy cluster identity does not match registration" else
  let registration_role := cluster_role_from_registration (Some (registration_row (uc_registration c))) in
  if negb (String.eqb registration_role TARGET_CLUSTER_ROLE || String.eqb registration_role MANAGEMENT_CLUSTER_ROLE)
  then Ok (skipped_plan c current "unsupported_cluster_role") else
  if String.eqb registration_role MANAGEMENT_CLUSTER_ROLE || bool_decide (ap_cluster_role current = role_management)
  then Ok (skipped_plan c current "management_cluster") else
  let settings := rg_settings (uc_registration c) in
  payload ← registration_payload (uc_key c) settings image;
  rebased ← rebased_policy c current payload;
  let policy_changed := negb (same_dump rebased current) in
  let patch := settings_patch settings image payload in
  let next_desired_states := target_desired_state_rows payload (uc_desired_states c) in
  let desired_changed := negb (same_rows next_desired_states (uc_desired_states c)) in
  let next_generation := if policy_changed then ap_generation current + 1 else ap_generation current in
  Ok {| pn_registration_id := rg_id (uc_registration c); pn_key := uc_key c;
        pn_changed := policy_changed || negb (Nat.eqb (length patch) 0) || desired_changed;
        pn_current_generation := ap_generation current; pn_next_generation := next_generation;
        pn_policy := Some (if policy_changed then rebased <| ap_generation := next_generation |> else rebased);
        pn_policy_existed := bool_decide (is_Some (uc_policy c)); pn_settings_patch := patch;
        pn_desired_states := next_desired_states; pn_skipped_reason := None |}.

(** ** Applying them *)

Definition upgradable (r : registration) : bool :=
  bool_decide (rg_status r ∈ ["pending_install"; "install_applied"; "install_failed"; "registered"]).

Definition POLICY_CHANGED_MESSAGE : string := "target policy generation changed during upgrade".
Definition REGISTRATION_CHANGED_MESSAGE : string := "target registration changed during upgrade".

Definition is_runtime_component (c : desired_component) : bool :=
  String.eqb (dc_component c) CLUSTER_AGENT || String.eqb (dc_component c) NODE_COLLECTOR.

(** Compare-and-swap on the generation. *)
Definition swap_policy (plan : TargetUpgradePlan) (p : AgentPolicy) (t : server) : result string server :=
  if pn_current_generation plan <? pn_next_generation plan then
    match sv_policies t !! pn_key plan with
    | Some existing =>
        if pn_policy_existed plan && (ap_generation existing =? pn_current_generation plan)
        then Ok (store_policy (pn_key plan) p t) else Err POLICY_CHANGED_MESSAGE
    | None => if pn_policy_existed plan then Err POLICY_CHANGED_MESSAGE else Ok (store_policy (pn_key plan) p t)
    end
  else Ok t.

Definition patch_registration (plan : TargetUpgradePlan) (t : server) : result string server :=
  match pn_settings_patch plan with
  | [] => Ok t
  | patch =>
      match sv_registrations t !! pn_key plan with
      | Some r =>
          if (rg_id r =? pn_registration_id plan) && upgradable r
          then Ok (t <| sv_registrations ::= <[pn_key plan := r <| rg_settings ::= fun s => dict_update s patch |>]> |>)
          else Err REGISTRATION_CHANGED_MESSAGE
      | None => Err REGISTRATION_CHANGED_MESSAGE
      end
  end.

Definition apply_target_runtime_upgrade (plan : TargetUpgradePlan) (t : server) : result string server :=
  match pn_policy plan with
  | Some p =>
      if negb (pn_changed plan) then Ok t else
      t ← swap_policy plan p t;
      t ← patch_registration plan t;
      Ok (upsert_target_desired_states (pn_key plan) (base.filter (fun c => is_runtime_component c = true)
        (pn_desired_states plan))
            (Some UPGRADE_ACTOR) true t)
  | None => Ok t
  end.

Fixpoint apply_plans (plans : list TargetUpgradePlan) (t : server) : result string server :=
  match plans with
  | [] => Ok t
  | plan :: plans => t ← apply_target_runtime_upgrade plan t; apply_plans plans t
  end.

(** ** The service *)

Definition UPGRADE_PAGE_SIZE : nat := 100.

Definition candidate_of (t : server) (kr : cluster_key * registration) : upgrade_candidate :=
  {| uc_key := kr.1; uc_registration := kr.2; uc_policy := sv_policies t !! kr.1;
     uc_desired_states := default [] (sv_desired t !! kr.1) |}.

Fixpoint insert_by_id (kr : cluster_key * registration) (l : list (cluster_key * registration))
    : list (cluster_key * registration) :=
  match l with
  | [] => [kr]
  | x :: l => if rg_id kr.2 <=? rg_id x.2 then kr :: x :: l else x :: insert_by_id kr l
  end.

(** One page: the first registrations after [after_id], with what belongs to them. *)
Definition list_target_runtime_upgrade_candidates (after_id : Z) (limit : nat) (t : server) : list upgrade_candidate :=
  map (candidate_of t)
    (take limit (foldr insert_by_id []
       (base.filter (fun kr => after_id < rg_id kr.2 /\ upgradable kr.2 = true) (map_to_list (sv_registrations t))))).

Record upgrade_report : Type := {
  ur_scanned : nat; ur_changed : nat; ur_applied : nat; ur_skipped : nat; ur_failed : nat; ur_plans : list TargetUpgradePlan;
}.

Definition no_report : upgrade_report :=
  {| ur_scanned := 0; ur_changed := 0; ur_applied := 0; ur_skipped := 0; ur_failed := 0; ur_plans := [] |}.

(** A candidate that cannot be planned is counted and the scan goes on. *)
Definition report_plan (target_image : string) (r : upgrade_report) (c : upgrade_candidate) : upgrade_report :=
  let r := r <| ur_scanned ::= S |> in
  match build_target_upgrade_plan target_image c with
  | Ok plan =>
      let r := if bool_decide (is_Some (pn_skipped_reason plan)) then r <| ur_skipped ::= S |> else r in
      if pn_changed plan then r <| ur_changed ::= S |> <| ur_plans ::= fun l => l ++ [plan] |> else r
  | Err _ => r <| ur_failed ::= S |>
  end.

Definition last_id (after_id : Z) (page : list upgrade_candidate) : Z :=
  foldl (fun n c => Z.max n (rg_id (uc_registration c))) after_id page.

(** Pages until one is empty; [fuel] bounds the pages of one run. *)
Fixpoint scan (fuel : nat) (target_image : string) (after_id : Z) (r : upgrade_report) : server_prog upgrade_report :=
  match fuel with
  | O => Ret r
  | S fuel =>
      page ← read (list_target_runtime_upgrade_candidates after_id UPGRADE_PAGE_SIZE);
      match page with
      | [] => Ret r
      | _ => scan fuel target_image (last_id after_id page) (foldl (report_plan target_image) r page)
      end
  end.

Definition run_upgrade (fuel : nat) (target_image : string) (apply : bool) : server_prog upgrade_report :=
  image ← raising (require_target_image_digest target_image);
  r ← scan fuel image 0 no_report;
  if apply && Nat.eqb (ur_failed r) 0 && negb (Nat.eqb (length (ur_plans r)) 0) then
    tx (fun t => match apply_plans (ur_plans r) t with
                 | Ok t => Ok (t, r <| ur_applied := length (ur_plans r) |>)
                 | Err _ => Ok (t, r <| ur_failed ::= S |>)
                 end)
  else Ret r.
End Plans.
