(* ===== verification/AgentControl.v ===== *)
(** The control loop of the agent ([services/target/cluster-agent/control/]): the
    store on disk ([store.py]), the synchronization with the policy of the server
    ([policy.py]) and the reconciler of desired objects ([reconciler.py]), with the
    policy methods of [agent.py].

    The store, the collector and the scheduler of one process are its state
    [agent]; nothing else happens between two awaits of a task, so what a task does
    there is one step of its program.  What the Kubernetes API, Argo CD, the runtime
    integrations and the network answer are inputs.  The store itself does not
    fail. *)

From S2P Require Import Prelude PyString Json CommandHandler Transactions Concurrent AgentPolicies PolicyServer PolicyUpgrade.
From stdpp Require Import pretty.
From coqutil Require Import Datatypes.RecordSettersUsingExistingGetters.
#[global] Open Scope Z_scope.

Arguments RecordSettersUsingExistingGetters.const {E} newValue _ /.

(** ** State *)

Definition ACTIVE_POLICY_ID : string := "active".
Definition PENDING_RECONCILE_POLICY_ID : string := "pending-reconcile".

Inductive reconcile_status : Type := RECONCILE_APPLIED | RECONCILE_UNCHANGED | RECONCILE_FAILED.

#[export] Instance reconcile_status_eq_dec : EqDecision reconcile_status.
Proof. solve_decision. Defined.

Definition reconcile_status_text (s : reconcile_status) : string :=
  match s with
  | RECONCILE_APPLIED => "applied" | RECONCILE_UNCHANGED => "unchanged" | RECONCILE_FAILED => "failed"
  end.

Record ReconcileResult : Type := {
  rr_resource : DesiredResource; rr_desired_hash : string; rr_status : reconcile_status; rr_message : string;
}.

Inductive kube_verb : Type := KubeObserve | KubeApply.

(** A call of the Kubernetes API the reconciler sent, for a policy of that generation. *)
Record kube_call : Type := { kc_verb : kube_verb; kc_resource : DesiredResource; kc_generation : Z }.

(** Rows of the store, with the time they were written; the queries and the
    schedule of the collector; the calls sent so far. *)
Record agent : Type := {
  ag_policies : gmap string (AgentPolicy * Z);
  ag_results : gmap string (ReconcileResult * Z);
  ag_settings : gmap string (string * Z);
  ag_queries : gmap string (list (odict json));
  ag_schedule : odict (Z * bool * Z);
  ag_calls : list kube_call;
}.

Definition new_agent : agent :=
  {| ag_policies := ∅; ag_results := ∅; ag_settings := ∅; ag_queries := ∅; ag_schedule := []; ag_calls := [] |}.

Record agent_config : Type := {
  ac_workspace_id : string; ac_cluster_id : string; ac_cluster_role : role; ac_argocd : bool;
  ac_default_policy : AgentPolicy;
}.

Abbreviation agent_prog A := (prog agent policy_error A) (only parsing).

(** ** The store *)

(** A row's generation is the one of its policy; the JSON of a policy parses back to it. *)
Definition save_policy (now : Z) (p : AgentPolicy) (a : agent) : agent :=
  let rows := <[ACTIVE_POLICY_ID := (p, now)]> (ag_policies a) in
  a <| ag_policies := match rows !! PENDING_RECONCILE_POLICY_ID with
                      | Some (pending, _) =>
                          if ap_generation pending <=? ap_generation p then delete PENDING_RECONCILE_POLICY_ID rows else rows
                      | None => rows
                      end |>.

Definition save_pending_reconcile_policy (now : Z) (p : AgentPolicy) (a : agent) : agent * bool :=
  let saved := a <| ag_policies ::= <[PENDING_RECONCILE_POLICY_ID := (p, now)]> |> in
  match ag_policies a !! PENDING_RECONCILE_POLICY_ID with
  | Some (pending, _) => if ap_generation pending <=? ap_generation p then (saved, true) else (a, false)
  | None => (saved, true)
  end.

Definition load_policy (a : agent) : option AgentPolicy := fst <$> ag_policies a !! ACTIVE_POLICY_ID.
Definition load_pending_reconcile_policy (a : agent) : option AgentPolicy :=
  fst <$> ag_policies a !! PENDING_RECONCILE_POLICY_ID.

Definition load_reconcile_policy (a : agent) : option AgentPolicy :=
  let active := load_policy a in
  match load_pending_reconcile_policy a with
  | Some pending =>
      match active with
      | Some active => if ap_generation active <? ap_generation pending then Some pending else Some active
      | None => Some pending
      end
  | None => active
  end.

Definition active_generation (a : agent) : Z := default 0 (ap_generation <$> load_policy a).

Definition last_successful_resource_hash (resource_id : string) (a : agent) : option string :=
  match ag_results a !! resource_id with
  | Some (r, _) => match rr_status r with RECONCILE_FAILED => None | _ => Some (rr_desired_hash r) end
  | None => None
  end.

Definition save_reconcile_result (now : Z) (r : ReconcileResult) (a : agent) : agent :=
  a <| ag_results ::= <[dr_resource_id (rr_resource r) := (r, now)]> |>.

Definition SETTING_MESSAGE : string := "runtime setting key and value are required".

Definition save_runtime_setting (now : Z) (key value : string) (a : agent) : result string agent :=
  if String.eqb (strip key) "" || String.eqb (strip value) "" then Err SETTING_MESSAGE
  else Ok (a <| ag_settings ::= <[strip key := (strip value, now)]> |>).

Definition load_runtime_setting (key : string) (a : agent) : option string := fst <$> ag_settings a !! strip key.

(** ** Policy methods of the agent *)

(** The registry of telemetry queries: the source of a provider, and the name a
    query compiles to. *)
Class query_compiler := {
  source_for_provider : string -> option string;
  compile_policy_query_definition : string -> string -> odict json -> result string string;
}.

Definition build_default_policy (cluster_id : string) (cluster_role bootstrap_mode : role) (failure_policy : string)
    (interval_seconds : Z) (worker_counts max_worker_counts : odict Z) (providers : list string) : AgentPolicy :=
  {| ap_cluster_id := cluster_id; ap_generation := DEFAULT_AGENT_POLICY_GENERATION; ap_cluster_role := cluster_role;
     ap_evidence :=
       {| er_profile := match cluster_role with role_management => "management" | role_target => "standard" end;
          er_failure_policy := failure_policy; er_max_attempts := DEFAULT_EVIDENCE_JOB_MAX_ATTEMPTS;
          er_providers := map (fun key =>
            (key, {| ep_enabled := negb (bool_decide (cluster_role = role_management)) || String.eqb key "kubernetes";
                     ep_interval_seconds := interval_seconds; ep_min_workers := default 1 (dict_get key worker_counts);
                     ep_max_workers := default 3 (dict_get key max_worker_counts); ep_queue_age_target_seconds := 15;
                     ep_queries := []; ep_configuration_revision := None; ep_configuration_operation_id := None |}))
            providers |};
     ap_bootstrap := {| bp_mode := bootstrap_mode; bp_resources := [] |};
     ap_desired_state := {| ds_resources := [] |}; ap_scheduling := no_scheduling |}.

Section Agent.
Context `{query_compiler} (sha256_hex : string -> string) (cfg : agent_config).

Fixpoint compile_all (source : string) (queries : list (odict json)) : result string (list string) :=
  match queries with
  | [] => Ok []
  | q :: queries =>
      name ← compile_policy_query_definition source (ac_cluster_id cfg) q;
      names ← compile_all source queries;
      Ok (name :: names)
  end.

Definition register_policy_queries (key : string) (queries : list (odict json)) (a : agent)
    : agent * result string (list string) :=
  match source_for_provider key with
  | None => (a, Ok [])
  | Some source =>
      match compile_all source queries with
      | Ok names => (a <| ag_queries ::= <[source := queries]> |>, Ok names)
      | Err message => (a, Err message)
      end
  end.

Definition provider_policy_for (p base_policy : AgentPolicy) (key : string) : EvidenceProviderPolicy :=
  let own q := dict_get key (er_providers (ap_evidence q)) in
  match own p, own base_policy, own (ac_default_policy cfg) with
  | Some x, _, _ | None, Some x, _ | None, None, Some x => x
  | None, None, None => default_provider <| ep_enabled := false |>
  end.

(** The loop over the providers: the queries of one are replaced before those of the
    next are compiled. *)
Fixpoint apply_providers (p base_policy : AgentPolicy) (keys : list string) (schedule : odict (Z * bool * Z))
    (registered : odict json) (a : agent) : agent * result string (odict (Z * bool * Z) * odict json) :=
  match keys with
  | [] => (a, Ok (schedule, registered))
  | key :: keys =>
      let pp := provider_policy_for p base_policy key in
      match register_policy_queries key (ep_queries pp) a with
      | (a, Ok names) =>
          apply_providers p base_policy keys
            (dict_set key (ep_interval_seconds pp, ep_enabled pp, ep_min_workers pp) schedule)
            (dict_set key (JArr (map JStr names)) registered) a
      | (a, Err message) => (a, Err message)
      end
  end.

Definition enabled_keys (schedule : odict (Z * bool * Z)) : list string :=
  List.filter (fun k => match dict_get k schedule with Some (_, e, _) => e | None => false end) (dict_keys schedule).

Definition applied_details (p : AgentPolicy) (schedule : odict (Z * bool * Z)) (registered : odict json) : odict json :=
  [("generation", JInt (ap_generation p)); ("cluster_role", JStr (role_text (ap_cluster_role p)));
   ("bootstrap_mode", JStr (role_text (bp_mode (ap_bootstrap p))));
   ("enabled_providers", JArr (map JStr (map fst (sort_items (map (fun k => (k, tt)) (enabled_keys schedule))))));
   ("evidence_worker_counts", JObj (map (fun e => (e.1, JInt e.2.2)) schedule));
   ("registered_queries", JObj registered)].

(** [providers] are the keys of the collector at that moment. *)
Definition apply_policy (providers : list string) (p : AgentPolicy) (a : agent) : agent * result string (odict json) :=
  if negb (String.eqb (ap_cluster_id p) (ac_cluster_id cfg))
  then (a, Err ("policy cluster_id does not match agent: " +:+ ap_cluster_id p)) else
  if negb (bool_decide (ap_cluster_role p = ac_cluster_role cfg))
  then (a, Err ("policy cluster_role does not match agent: " +:+ role_text (ap_cluster_role p))) else
  let base_policy := default (ac_default_policy cfg) (load_policy a) in
  match apply_providers p base_policy providers [] [] a with
  | (a, Ok (schedule, registered)) => (a <| ag_schedule := schedule |>, Ok (applied_details p schedule registered))
  | (a, Err message) => (a, Err message)
  end.

(** When the process starts; an exception ends it. *)
Definition apply_stored_or_default (now : Z) (providers : list string) (a : agent) : agent * result string unit :=
  let policy := match load_policy a with
                | Some stored => merge_agent_policy (ac_default_policy cfg) (all_fields stored)
                | None => Ok (ac_default_policy cfg)
                end in
  match policy with
  | Ok policy =>
      match apply_policy providers policy a with
      | (a, Ok _) => (save_policy now policy a, Ok tt)
      | (a, Err message) => (a, Err message)
      end
  | Err message => (a, Err message)
  end.

(** ** The reconciler *)

Definition desired_resource_hash (r : DesiredResource) : string :=
  sha256_hex (canonical_dumps json_string (dump_resource r)).

Definition expected_namespace : string :=
  match ac_cluster_role cfg with role_management => "management" | role_target => "target" end.

Definition json_is (v : json) (o : option json) : bool :=
  match o with
  | Some w => String.eqb (canonical_dumps json_string v) (canonical_dumps json_string w)
  | None => false
  end.

(** [set(fields) == expected]. *)
Definition same_key_set (fields : odict json) (expected : list string) : bool :=
  bool_decide (Forall (fun k => k ∈ expected) (dict_keys fields)) && bool_decide (Forall (fun k => k ∈ dict_keys fields)
    expected).

Definition PATCH_IDENTITY_MESSAGE : string := "target runtime config patch identity is invalid".
Definition PATCH_FIELDS_MESSAGE : string := "target runtime config patch fields are not allowed".
Definition PATCH_LEAF_MESSAGE : string := "target runtime config patch is image-leaf scoped".
Definition PATCH_DIGEST_MESSAGE : string := "target runtime images must use one exact digest".

(** [str(value)] of a value that must look like an image: only a string does. *)
Definition image_text (o : option json) : string := match o with Some (JStr s) => s | _ => "" end.

Definition ensure_runtime_image_patch (r : DesiredResource) : result string unit :=
  let state := dr_state r in
  if negb (json_is (JStr "v1") (dict_get "apiVersion" state) && json_is (JStr "ConfigMap") (dict_get "kind" state)
           && json_is (JObj [("name", JStr TARGET_RUNTIME_CONFIG_NAME); ("namespace", JStr "target")])
                (dict_get "metadata" state))
  then Err PATCH_IDENTITY_MESSAGE else
  if negb (same_key_set state ["apiVersion"; "kind"; "metadata"; "data"]) then Err PATCH_FIELDS_MESSAGE else
  match dict_get "data" state with
  | Some (JObj data) =>
      if negb (same_key_set data [TARGET_AGENT_IMAGE_KEY; NODE_COLLECTOR_IMAGE_KEY]) then Err PATCH_LEAF_MESSAGE else
      target_image ← require_target_image_digest (image_text (dict_get TARGET_AGENT_IMAGE_KEY data));
      collector_image ← require_target_image_digest (image_text (dict_get NODE_COLLECTOR_IMAGE_KEY data));
      if String.eqb target_image collector_image then Ok tt else Err PATCH_DIGEST_MESSAGE
  | _ => Err PATCH_LEAF_MESSAGE
  end.

Definition ensure_allowed (r : DesiredResource) : result string unit :=
  if bool_decide (dr_scope r = scope_user_workload) then Err "user workload reconciliation is not enabled" else
  if negb (String.eqb (dr_namespace r) expected_namespace)
  then Err (role_text (ac_cluster_role cfg) +:+ " agent cannot reconcile namespace " +:+ dr_namespace r) else
  patch ← match dr_kind r with
          | ConfigMap =>
              if negb (String.eqb (dr_name r) "target-agent-policy" || String.eqb (dr_name r) TARGET_RUNTIME_CONFIG_NAME)
              then Err "target-agent configmap control is name-scoped"
              else if String.eqb (dr_name r) TARGET_RUNTIME_CONFIG_NAME then ensure_runtime_image_patch r else Ok tt
          | Deployment => Ok tt
          end;
  match dr_scope r, dr_kind r with
  | scope_target_agent, Deployment =>
      if String.eqb (dr_name r) "cluster-agent" then Ok patch else Err "target-agent deployment control is name-scoped"
  | scope_system, Deployment => Err "system deployment reconciliation is not enabled"
  | _, _ => Ok patch
  end.

Definition store_result (now : Z) (r : ReconcileResult) : agent_prog ReconcileResult :=
  tx (fun a => Ok (save_reconcile_result now r a, r)).

(** Sending a call; the input says what the API answers. *)
Definition send (verb : kube_verb) (generation : Z) (r : DesiredResource) (answer : option string) : agent_prog unit :=
  sent ← write (fun a => Ok (a <| ag_calls ::= fun l => l ++ [{| kc_verb := verb; kc_resource := r;
    kc_generation := generation |}] |>));
  match answer with Some message => Raise (Exception message) | None => Ret sent end.

Definition error_text (e : policy_error) : string := match e with HTTPException _ detail => detail | Exception m => m end.

Definition attempt_resource (now generation : Z) (r : DesiredResource) (answer : option string) : agent_prog ReconcileResult :=
  let desired_hash := desired_resource_hash r in
  let result status message :=
    {| rr_resource := r; rr_desired_hash := desired_hash; rr_status := status; rr_message := message |} in
  match ensure_allowed r with
  | Err message => Raise (Exception message)
  | Ok _ =>
      match dr_action r with
      | action_apply =>
          if ac_argocd cfg then
            sent ← send KubeObserve generation r answer;
            store_result now (result RECONCILE_UNCHANGED "observed (argocd single-writer mode)")
          else
            last ← read (last_successful_resource_hash (dr_resource_id r));
            if bool_decide (last = Some desired_hash)
            then store_result now (result RECONCILE_UNCHANGED "already applied")
            else
              sent ← send KubeApply generation r answer;
              store_result now (result RECONCILE_APPLIED "applied")
      | action_observe =>
          sent ← send KubeObserve generation r answer;
          store_result now (result RECONCILE_UNCHANGED "observed")
      end
  end.

Definition reconcile_resource (now generation : Z) (r : DesiredResource) (answer : option string) : agent_prog ReconcileResult :=
  catch (fun e => store_result now {| rr_resource := r; rr_desired_hash := desired_resource_hash r;
                                      rr_status := RECONCILE_FAILED; rr_message := error_text e |})
        (attempt_resource now generation r answer).

Definition next_status (status : reconcile_status) (r : ReconcileResult) : reconcile_status :=
  match rr_status r with
  | RECONCILE_APPLIED => match status with RECONCILE_FAILED => status | _ => RECONCILE_APPLIED end
  | _ => status
  end.

(** The loop stops at the first failure; [answers] has one answer per resource. *)
Fixpoint reconcile_resources (now generation : Z) (answers : nat -> option string) (resources : list DesiredResource)
    (status : reconcile_status) (results : list ReconcileResult) : agent_prog (reconcile_status * list ReconcileResult) :=
  match resources with
  | [] => Ret (status, results)
  | r :: resources =>
      res ← reconcile_resource now generation r (answers (length results));
      if bool_decide (rr_status res = RECONCILE_FAILED) then Ret (RECONCILE_FAILED, results ++ [res])
      else reconcile_resources now generation answers resources (next_status status res) (results ++ [res])
  end.

Definition result_json (r : ReconcileResult) : json :=
  let d := rr_resource r in
  JObj [("resource_id", JStr (dr_resource_id d)); ("scope", JStr (scope_text (dr_scope d)));
        ("kind", JStr (kind_text (dr_kind d))); ("namespace", JStr (dr_namespace d)); ("name", JStr (dr_name d));
        ("desired_hash", JStr (rr_desired_hash r)); ("status", JStr (reconcile_status_text (rr_status r)));
        ("message", JStr (rr_message r))].

Definition unavailable_collection : json := JObj [("available", JBool false); ("truncated", JBool false); ("items", JArr [])].

(** What the observer adds in the Argo CD mode. *)
Definition observe_argocd (snapshot : result string (odict json)) (status : reconcile_status)
    : reconcile_status * odict json :=
  if ac_argocd cfg then
    match snapshot with
    | Ok argocd =>
        let available := match dict_get "applications" argocd with
                         | Some (JObj applications) => json_is (JBool true) (dict_get "available" applications)
                         | _ => false
                         end in
        if available then (status, [("argocd", JObj argocd)])
        else (RECONCILE_FAILED,
              [("argocd", JObj (dict_set "error" (JStr "Argo CD Application observation unavailable") argocd))])
    | Err message =>
        (RECONCILE_FAILED, [("argocd", JObj [("applications", unavailable_collection); ("rollouts", unavailable_collection);
                                             ("error", JStr message)])])
    end
  else (status, []).

Definition status_of (generation : Z) (status message : string) (details : odict json) : status_report :=
  {| sr_cluster_id := ac_cluster_id cfg; sr_generation := generation; sr_status := status; sr_message := message;
     sr_details := details |}.

Definition reconcile_once (now : Z) (answers : nat -> option string) (snapshot : result string (odict json))
    : agent_prog status_report :=
  policy ← read load_reconcile_policy;
  match policy with
  | None => Ret (status_of 0 "unchanged" "no policy available" [("resources", JArr [])])
  | Some policy =>
      reconciled ← reconcile_resources now (ap_generation policy) answers (desired_resources policy) RECONCILE_UNCHANGED [];
      let '(status, results) := reconciled in
      let '(status, argocd) := observe_argocd snapshot status in
      Ret (status_of (ap_generation policy) (reconcile_status_text status)
             ("reconciled " +:+ pretty (length results) +:+ " resources")
             (("resources", JArr (map result_json results)) :: argocd))
  end.

(** ** The handoff: a policy that cannot be applied by this version of the agent may
    still bring the version that can *)

Definition is_own_deployment (r : DesiredResource) : bool :=
  bool_decide (dr_scope r = scope_target_agent) && bool_decide (dr_kind r = Deployment)
  && String.eqb (dr_name r) CLUSTER_AGENT && bool_decide (dr_action r = action_apply).

Definition target_agent_deployment (p : AgentPolicy) : option DesiredResource :=
  List.find is_own_deployment (desired_resources p).

Definition is_own_config (r : DesiredResource) : bool :=
  bool_decide (dr_scope r = scope_target_agent) && bool_decide (dr_kind r = ConfigMap)
  && String.eqb (dr_name r) TARGET_RUNTIME_CONFIG_NAME && bool_decide (dr_action r = action_apply).

Definition self_upgrade_handoff_policy (active candidate : AgentPolicy) (deployment : DesiredResource) : AgentPolicy :=
  active <| ap_generation := ap_generation candidate |>
         <| ap_bootstrap := {| bp_mode := bp_mode (ap_bootstrap candidate);
                               bp_resources := List.filter is_own_config (bp_resources (ap_bootstrap candidate)) |} |>
         <| ap_desired_state := {| ds_resources := [deployment] |} |>.

Definition stage_desired_state_handoff (now : Z) (active : AgentPolicy) (candidate : option AgentPolicy) (a : agent)
    : agent * option (odict json) :=
  match candidate with
  | None => (a, None)
  | Some candidate =>
      if (ap_generation candidate <=? active_generation a)
         || negb (String.eqb (ap_cluster_id candidate) (ac_cluster_id cfg))
         || negb (bool_decide (ap_cluster_role candidate = ap_cluster_role active))
      then (a, None) else
      match target_agent_deployment candidate with
      | None => (a, None)
      | Some deployment =>
          if bool_decide (desired_resource_hash <$> target_agent_deployment active
                          = Some (desired_resource_hash deployment))
          then (a, None) else
          match save_pending_reconcile_policy now (self_upgrade_handoff_policy active candidate deployment) a with
          | (a, true) => (a, Some [("status", JStr "staged"); ("generation", JInt (ap_generation candidate));
                                   ("resource_id", JStr (dr_resource_id deployment))])
          | (a, false) => (a, None)
          end
      end
  end.
End Agent.

(** ** The agent and the server *)

Record world : Type := { w_server : server; w_agent : agent }.

Abbreviation world_prog A := (prog world policy_error A) (only parsing).

Definition on_server {A} (p : server_prog A) : world_prog A := zoom w_server (fun s w => w <| w_server := s |>) p.
Definition on_agent {A} (p : agent_prog A) : world_prog A := zoom w_agent (fun a w => w <| w_agent := a |>) p.

(** What becomes of a request: it never arrives, it is answered, or its answer is lost. *)
Inductive delivery : Type := Lost | Answered | Unanswered.

Definition NETWORK_MESSAGE : string := "network".

Definition request {A} (d : delivery) (p : server_prog A) : world_prog A :=
  match d with
  | Lost => Raise (Exception NETWORK_MESSAGE)
  | Answered => on_server p
  | Unanswered => done ← on_server p; Raise (Exception NETWORK_MESSAGE)
  end.

Section Sync.
Context `{query_compiler} `{evidence_presets} (sha256_hex : string -> string) (cfg : agent_config).

(** What one synchronization meets: the fate of its three requests, what the
    runtime integrations and the status details answer, the keys of the collector. *)
Record sync_inputs : Type := {
  si_now : Z; si_fetch : delivery; si_report : delivery; si_failure_report : delivery;
  si_runtime : result string (odict json); si_status_details : odict json; si_providers : list string;
}.

Definition report_policy (d : delivery) (generation : Z) (status message : string) (details : odict json) : world_prog unit :=
  request d (agent_policy_status (ac_workspace_id cfg) (ac_cluster_id cfg) (status_of cfg generation status message details)).

Definition runtime_details (i : sync_inputs) : world_prog (odict json) :=
  match si_runtime i with Ok details => Ret details | Err message => Raise (Exception message) end.

Definition active_or_default (a : agent) : AgentPolicy := default (ac_default_policy cfg) (load_policy a).

(** No policy, or none that is newer. *)
Definition sync_unchanged (i : sync_inputs) (generation : Z) : world_prog string :=
  catch (fun e =>
           reported ← report_policy (si_failure_report i) generation "failed" (error_text e) (si_status_details i);
           Ret "failed")
    (details ← runtime_details i;
     reported ← report_policy (si_report i) generation "unchanged" "policy unchanged" (dict_update details (si_status_details i));
     Ret "unchanged").

Definition sync_failed (i : sync_inputs) (active : AgentPolicy) (candidate : option AgentPolicy) (attempted : Z)
    (e : policy_error) : world_prog string :=
  handoff ← on_agent (tx (fun a => Ok (stage_desired_state_handoff sha256_hex cfg (si_now i) active candidate a)));
  let details := match handoff with
                 | Some h => dict_set "desired_state_handoff" (JObj h) (si_status_details i)
                 | None => si_status_details i
                 end in
  reported ← report_policy (si_failure_report i) attempted "failed" (error_text e) details;
  Ret "failed".

(** The provider queries that were replaced stay replaced when a later one fails. *)
Definition apply_and_save (i : sync_inputs) (policy : AgentPolicy) : world_prog (odict json) :=
  details ← runtime_details i;
  applied ← on_agent (tx (fun a => Ok (apply_policy cfg (si_providers i) policy a)));
  match applied with
  | Ok applied =>
      saved ← on_agent (write (fun a => Ok (save_policy (si_now i) policy a)));
      Ret (dict_update (dict_update details applied) (si_status_details i))
  | Err message => Raise (Exception message)
  end.

Definition sync_changed (i : sync_inputs) (incoming : AgentPolicy) : world_prog string :=
  active ← on_agent (read active_or_default);
  match merge_agent_policy active (all_fields incoming) with
  | Err message => sync_failed i active None (ap_generation incoming) (Exception message)
  | Ok policy =>
      catch (sync_failed i active (Some policy) (ap_generation incoming))
        (details ← apply_and_save i policy;
         reported ← report_policy (si_report i) (ap_generation policy) "applied" "policy applied" details;
         Ret "applied")
  end.

Definition sync_once (i : sync_inputs) : world_prog string :=
  generation ← on_agent (read active_generation);
  payload ← request (si_fetch i) (agent_policy (ac_workspace_id cfg) (ac_cluster_id cfg) (ac_cluster_id cfg) generation);
  match payload with
  | None => sync_unchanged i generation
  | Some incoming => sync_changed i incoming
  end.

(** One round of [DesiredStateReconciler.run]. *)
Definition reconcile_and_report (now : Z) (answers : nat -> option string) (snapshot : result string (odict json))
    (d : delivery) : world_prog unit :=
  details ← on_agent (reconcile_once sha256_hex cfg now answers snapshot);
  request d (agent_reconcile_status (ac_workspace_id cfg) (ac_cluster_id cfg) details).
End Sync.
