(* ===== verification/PolicyRuns.v ===== *)
(** The server, an agent and the network as one machine.

    Routes run concurrently in a list of programs, as in a pool ([Concurrent]); the
    agent has two tasks, each a slot that holds one program at a time: the
    synchronization and the reconciler.  A restart of the process ends both; it may
    lose the store (a new pod has an empty volume).  The environment changes
    registrations, but no management cluster becomes a target. *)

From S2P Require Import Prelude PyString Json CommandHandler Transactions Concurrent AgentPolicies PolicyServer PolicyUpgrade AgentControl.
From stdpp Require Import relations.
From coqutil Require Import Datatypes.RecordSettersUsingExistingGetters.
#[global] Open Scope Z_scope.

Arguments RecordSettersUsingExistingGetters.const {E} newValue _ /.

Definition stay_managed (t t' : server) : Prop :=
  forall k, is_managed (sv_registrations t !! k) = true -> is_managed (sv_registrations t' !! k) = true.

(** ** The machine *)

Section Machine.
Context `{query_compiler} `{evidence_presets} `{runtime_urls} (sha256_hex : string -> string) (cfg : agent_config).

Inductive route_starts : server_prog unit -> Prop :=
| starts_update w c payload : route_starts (forget (update_cluster_policy w c payload))
| starts_scheduling w c payload : route_starts (forget (update_cluster_scheduling_profiles w c payload))
| starts_prometheus w c revision operation : route_starts (forget (configure_prometheus w c revision operation))
| starts_register user p : route_starts (forget (register_target user p))
| starts_agent_policy w i c generation : route_starts (forget (agent_policy w i c generation))
| starts_policy_status w c r : route_starts (forget (agent_policy_status w c r))
| starts_reconcile_status w c r : route_starts (forget (agent_reconcile_status w c r))
| starts_upgrade fuel image apply : route_starts (forget (run_upgrade fuel image apply)).

Record machine : Type := {
  m_world : world; m_routes : list (world_prog unit); m_sync : world_prog unit; m_reconcile : world_prog unit;
}.

Definition finished {A} (p : world_prog A) : Prop := match p with Tx _ => False | _ => True end.

(** One step of a program; one that raises in the tables ends. *)
Definition prog_step {A} (w : world) (p : world_prog A) (w' : world) (p' : world_prog A) : Prop :=
  match p with
  | Tx f => match f w with Ok (w1, p1) => w' = w1 /\ p' = p1 | Err e => w' = w /\ p' = Raise e end
  | _ => False
  end.

Definition env_server (t t' : server) : Prop :=
  stay_managed t t' /\ sv_policies t' = sv_policies t /\ sv_history t' = sv_history t.

(** The state a new process of the agent finds. *)
Definition restarted (lost : bool) (a : agent) : agent :=
  if lost then new_agent <| ag_calls := ag_calls a |> else a <| ag_queries := ∅ |> <| ag_schedule := [] |>.

Inductive machine_step : machine -> machine -> Prop :=
| route_start w ps s r p : route_starts p ->
    machine_step (Build_machine w ps s r) (Build_machine w (ps ++ [on_server p]) s r)
| route_run w ps s r i p w' p' : ps !! i = Some p -> prog_step w p w' p' ->
    machine_step (Build_machine w ps s r) (Build_machine w' (<[i := p']> ps) s r)
| route_end w ps s r i : machine_step (Build_machine w ps s r) (Build_machine w (delete i ps) s r)
| sync_start w ps s r i : finished s ->
    machine_step (Build_machine w ps s r) (Build_machine w ps (forget (sync_once sha256_hex cfg i)) r)
| sync_run w ps s r w' s' : prog_step w s w' s' -> machine_step (Build_machine w ps s r) (Build_machine w' ps s' r)
| reconcile_start w ps s r now answers snapshot d : finished r ->
    machine_step (Build_machine w ps s r)
      (Build_machine w ps s (reconcile_and_report sha256_hex cfg now answers snapshot d))
| reconcile_run w ps s r w' r' : prog_step w r w' r' -> machine_step (Build_machine w ps s r) (Build_machine w' ps s r')
| restart w ps s r lost now providers a : apply_stored_or_default cfg now providers (restarted lost (w_agent w)) = (a, Ok tt) ->
    machine_step (Build_machine w ps s r) (Build_machine (w <| w_agent := a |>) ps (Ret tt) (Ret tt))
| setting w ps s r now key value a : save_runtime_setting now key value (w_agent w) = Ok a ->
    machine_step (Build_machine w ps s r) (Build_machine (w <| w_agent := a |>) ps s r)
| environment w ps s r t : env_server (w_server w) t ->
    machine_step (Build_machine w ps s r) (Build_machine (w <| w_server := t |>) ps s r).

(** Nothing stored yet; the agent has not started. *)
Definition no_policies (t : server) : Prop := sv_policies t = ∅ /\ sv_history t = [].

Definition started (t : server) : machine :=
  Build_machine {| w_server := t; w_agent := new_agent |} [] (Ret tt) (Ret tt).

Definition reachable_from (t : server) (m : machine) : Prop := rtc machine_step (started t) m.
End Machine.

(** ** Stored policies *)

Record server_ok (t : server) : Prop := {
  so_recorded : forall k p, sv_policies t !! k = Some p -> (k, p) ∈ sv_history t;
  so_newest : forall k p, (k, p) ∈ sv_history t ->
    exists q, sv_policies t !! k = Some q /\ (ap_generation p < ap_generation q \/ p = q);
  so_unique : forall k p q, (k, p) ∈ sv_history t -> (k, q) ∈ sv_history t -> ap_generation p = ap_generation q -> p = q;
}.

(** What every step of the server respects: a management cluster stays one, what was stored is not forgotten, and a stored policy only gives way to one of
    a higher generation. *)
Definition server_moves (t t' : server) : Prop :=
  stay_managed t t'
  /\ (forall x, x ∈ sv_history t -> x ∈ sv_history t')
  /\ forall k p, sv_policies t !! k = Some p ->
       exists q, sv_policies t' !! k = Some q /\ (ap_generation p < ap_generation q \/ p = q).

Lemma server_moves_trans t1 t2 t3 : server_moves t1 t2 -> server_moves t2 t3 -> server_moves t1 t3.
Proof.
  intros (A1 & A2 & A3) (B1 & B2 & B3). split; [intros k Hk; by apply B1, A1|]. split; [intros x Hx; by apply B2, A2|].
  intros k p Hp. destruct (A3 _ _ Hp) as (q & Hq & L1). destruct (B3 _ _ Hq) as (r & Hr & L2).
  exists r. split; [done|]. destruct L1 as [?|<-], L2 as [?|<-]; auto; left; lia.
Qed.

#[export] Instance server_moves_refl : Reflexive server_moves.
Proof. intros t. split; [by intros k|]. split; [done|]. intros k p Hp. exists p. auto. Qed.

Definition quiet (p : AgentPolicy) : Prop := desired_resources p = [].

(** A management cluster, from its registration on. *)
Definition read_only (k : cluster_key) (t : server) : Prop :=
  is_managed (sv_registrations t !! k) = true /\ forall p, (k, p) ∈ sv_history t -> quiet p.

(** ** Writes *)

Lemma store_policy_ok k p t :
  server_ok t -> (forall q, sv_policies t !! k = Some q -> ap_generation q < ap_generation p) ->
  server_ok (store_policy k p t) /\ server_moves t (store_policy k p t).
Proof.
  intros [Hrec Hnew Huniq] Hgen.
  assert (Hold : forall q, (k, q) ∈ sv_history t -> ap_generation q < ap_generation p).
  { intros q Hq. destruct (Hnew k q Hq) as (r & Hr & Hle). pose proof (Hgen r Hr). destruct Hle as [?|<-]; lia. }
  unfold store_policy. split; [split|split; [|split]]; simpl.
  - intros k' p'. destruct (decide (k' = k)) as [->|Hne].
    + rewrite lookup_insert_eq. intros [= <-]. set_solver.
    + rewrite lookup_insert_ne by done. intros Hp. apply Hrec in Hp. set_solver.
  - intros k' p' [Hp|Hp%list_elem_of_singleton]%elem_of_app.
    + destruct (decide (k' = k)) as [->|Hne].
      * exists p. rewrite lookup_insert_eq. split; [done|]. left. by apply Hold.
      * destruct (Hnew k' p' Hp) as (q & Hq & Hle). exists q. by rewrite lookup_insert_ne.
    + injection Hp as -> ->. exists p. rewrite lookup_insert_eq. auto.
  - intros k' p' q' Hp Hq Heq. apply elem_of_app in Hp, Hq. rewrite !list_elem_of_singleton in Hp, Hq.
    destruct Hp as [Hp|Hp], Hq as [Hq|Hq]; simplify_eq; [by eapply Huniq| | |done].
    + apply Hold in Hp. lia.
    + apply Hold in Hq. lia.
  - by intros k2.
  - set_solver.
  - intros k' p' Hp. destruct (decide (k' = k)) as [->|Hne].
    + exists p. rewrite lookup_insert_eq. split; [done|]. left. by apply Hgen.
    + exists p'. rewrite lookup_insert_ne by done. auto.
Qed.

Lemma policy_upsert_ok k p t t' q :
  server_ok t -> upsert_cluster_policy k p t = Ok (t', q) ->
  t' = store_policy k p t /\ q = p /\ server_ok t' /\ server_moves t t'.
Proof.
  unfold upsert_cluster_policy. intros Ht H.
  assert (Hs : (forall q, sv_policies t !! k = Some q -> ap_generation q < ap_generation p) ->
               server_ok (store_policy k p t) /\ server_moves t (store_policy k p t)) by (by apply store_policy_ok).
  destruct (sv_policies t !! k) as [old|] eqn:Hold.
  - destruct (_ <=? _) eqn:Hle; [done|]. bool_to_prop. injection H as <- <-. split; [done|]. split; [done|].
    apply Hs. intros r [= <-]. lia.
  - injection H as <- <-. split; [done|]. split; [done|]. by apply Hs.
Qed.

(** Steps that leave policies and roles alone. *)
Lemma moves_same t t' :
  server_ok t -> sv_policies t' = sv_policies t -> sv_history t' = sv_history t ->
  stay_managed t t' -> server_ok t' /\ server_moves t t'.
Proof.
  intros [Hrec Hnew Huniq] Hp Hh Hr. split.
  - split; rewrite ?Hh, ?Hp; done.
  - split; [done|]. rewrite Hh, Hp. split; [done|]. intros k p Hk. exists p. auto.
Qed.
