(* ===== verification/PolicyRoutes.v ===== *)
(** Every route of the server, and the upgrade service, keeps the stored policies in
    order ([server_ok]), moves them forward ([server_moves]) and leaves management
    clusters read-only. *)

From S2P Require Import Prelude PyString Json CommandHandler Transactions Concurrent AgentPolicies PolicyServer PolicyUpgrade.
From S2P Require Import AgentControl PolicyRuns.
From stdpp Require Import relations.
From coqutil Require Import Datatypes.RecordSettersUsingExistingGetters.
#[global] Open Scope Z_scope.

Arguments RecordSettersUsingExistingGetters.const {E} newValue _ /.

Section Routes.
Context `{presets : evidence_presets} `{urls : runtime_urls}.

(** When [frozen], the cluster [k0] is a management cluster. *)
Context (frozen : Prop) (k0 : cluster_key).

Definition tables_ok (t : server) : Prop := server_ok t /\ (frozen -> read_only k0 t).

Definition safe {A} (K : server -> Prop) (p : server_prog A) (Q : A -> server -> Prop) : Prop :=
  triple tables_ok server_moves server_moves K p Q.

Definition stored (k : cluster_key) (p : AgentPolicy) (t : server) : Prop := (k, p) ∈ sv_history t.

Lemma settled_stored k p : settled tables_ok server_moves (stored k p).
Proof. intros t t' [Hm _]. apply Hm. Qed.

(** A write of one policy. *)
Lemma store_tables_ok k p t :
  tables_ok t -> (forall q, sv_policies t !! k = Some q -> ap_generation q < ap_generation p) ->
  (frozen -> k = k0 -> quiet p) -> tables_ok (store_policy k p t) /\ server_moves t (store_policy k p t).
Proof.
  intros [Ht Hf] Hgen Hq. destruct (store_policy_ok k p t Ht Hgen) as [H1 H2]. split; [|done]. split; [done|].
  intros Hfz. destruct (Hf Hfz) as [Hr Hh]. split; [done|]. simpl. intros q [Hin|Hin%list_elem_of_singleton]%elem_of_app.
  - by apply Hh.
  - injection Hin as -> ->. by apply Hq.
Qed.

Lemma upsert_tables_ok k p t :
  tables_ok t -> (frozen -> k = k0 -> quiet p) ->
  match upsert_cluster_policy k p t with
  | Ok (t', q) => q = p /\ tables_ok t' /\ server_moves t t' /\ stored k p t'
  | Err _ => True
  end.
Proof.
  intros Ht Hq. destruct (upsert_cluster_policy k p t) as [[t' q]|e] eqn:E; [|done].
  assert (Hg : forall r, sv_policies t !! k = Some r -> ap_generation r < ap_generation p).
  { intros r Hr. unfold upsert_cluster_policy in E. rewrite Hr in E.
    destruct (_ <=? _) eqn:Hle; [done|]. bool_to_prop. lia. }
  destruct (policy_upsert_ok _ _ _ _ _ (proj1 Ht) E) as (-> & -> & _). split; [done|].
  destruct (store_tables_ok k p t Ht Hg Hq). split; [done|]. split; [done|]. unfold stored. simpl. set_solver.
Qed.

Lemma upsert_safe (K : server -> Prop) k (f : server -> AgentPolicy) :
  (forall t, tables_ok t -> K t -> frozen -> k = k0 -> quiet (f t)) ->
  safe K (tx (fun t => conflict_on (upsert_cluster_policy k (f t) t))) (fun _ _ => True).
Proof.
  intros Hq. apply triple_tx. intros t Ht HK. pose proof (upsert_tables_ok k (f t) t Ht (Hq t Ht HK)) as Hu.
  destruct (upsert_cluster_policy _ _ _) as [[t' q]|e]; simpl; [|done]. by destruct Hu as (_ & ? & ? & _).
Qed.

(** A step that writes no policy. *)
Lemma same_tables_ok t t' :
  tables_ok t -> sv_policies t' = sv_policies t -> sv_history t' = sv_history t -> stay_managed t t' ->
  tables_ok t' /\ server_moves t t'.
Proof.
  intros [Ht Hro] Hp Hh Hr. destruct (moves_same t t' Ht Hp Hh Hr) as [H1 H2]. split; [|done]. split; [done|].
  intros Hf. destruct (Hro Hf) as [Hm Hq]. split; [by apply Hr|by rewrite Hh].
Qed.

Lemma write_same_safe (K : server -> Prop) (f : server -> server) :
  (forall t, sv_policies (f t) = sv_policies t /\ sv_history (f t) = sv_history t
             /\ sv_registrations (f t) = sv_registrations t) ->
  safe K (write (fun t => Ok (f t))) (fun _ _ => True).
Proof.
  intros Hf. apply triple_write. intros t Ht _. destruct (Hf t) as (Hp & Hh & Hr).
  apply same_tables_ok; try done. intros k. by rewrite Hr.
Qed.

Lemma route_forget {A} K (p : server_prog A) Q : safe K p Q -> safe K (forget p) (fun _ _ => True).
Proof.
  intros Hp. unfold safe, forget. eapply (triple_bind _ _ _ _ _ _ (fun _ _ => True)); [|eapply triple_post; [|exact Hp]; done|].
  - intros _. apply settled_const.
  - by intros _ t _ _.
Qed.

(** A read whose result is only looked at. *)
Lemma route_look {A X} (f : server -> X) (P : X -> Prop) (k : X -> server_prog A) Q :
  (forall t, tables_ok t -> P (f t)) -> (forall x, P x -> safe (fun _ => True) (k x) Q) ->
  safe (fun _ => True) (read f ≫= k) Q.
Proof.
  intros Hf Hk. unfold safe. eapply (triple_bind _ _ _ _ _ _ (fun x _ => P x)).
  - intros x. apply settled_const.
  - apply triple_read; [apply server_moves_refl|intros x; apply settled_const|]. intros t Ht _. by apply Hf.
  - intros x. by apply triple_pure, Hk.
Qed.

Lemma safe_raising {A B} (r : result string A) (k : A -> server_prog B) Q :
  (forall x, r = Ok x -> safe (fun _ => True) (k x) Q) -> safe (fun _ => True) (raising r ≫= k) Q.
Proof. destruct r as [x|e]; intros Hk; [by apply Hk|done]. Qed.

Lemma quiet_frozen p : quiet (freeze_management_policy p).
Proof. reflexivity. Qed.

Lemma quiet_plain c : quiet (plain_policy c).
Proof. reflexivity. Qed.

Lemma managed_read k t : tables_ok t -> frozen -> k = k0 -> is_managed (sv_registrations t !! k) = true.
Proof. intros [_ Hro] Hf ->. by apply Hro. Qed.

(** ** Routes *)

Lemma safe_update w c payload : safe (fun _ => True) (update_cluster_policy w c payload) (fun _ _ => True).
Proof.
  unfold update_cluster_policy. destruct (negb _); [done|].
  apply (route_look _ (fun _ => True)); [done|]. intros existing _.
  apply (route_look _ (fun r => frozen -> (w, c) = k0 -> is_managed r = true)); [intros t; apply managed_read|].
  intros r Hr. destruct (is_management r _) eqn:Hm.
  - destruct (management_policy_update_is_forbidden _); [done|]. apply safe_raising. intros merged _.
    apply upsert_safe. intros _ _ _ _ _. apply quiet_frozen.
  - apply safe_raising. intros merged _. apply upsert_safe. intros _ _ _ Hf Hk. unfold is_management in Hm.
    by rewrite (Hr Hf Hk) in Hm.
Qed.

Lemma safe_scheduling w c payload : safe (fun _ => True) (update_cluster_scheduling_profiles w c payload) (fun _ _ => True).
Proof.
  unfold update_cluster_scheduling_profiles. apply (route_look _ (fun _ => True)); [done|]. intros existing _.
  apply (route_look _ (fun r => frozen -> (w, c) = k0 -> is_managed r = true)); [intros t; apply managed_read|].
  intros r Hr. destruct (is_management r _) eqn:Hm; [done|]. apply upsert_safe. intros _ _ _ Hf Hk.
  unfold is_management in Hm. by rewrite (Hr Hf Hk) in Hm.
Qed.

Lemma current_quiet k t p : tables_ok t -> frozen -> k = k0 -> sv_policies t !! k = Some p -> quiet p.
Proof. intros [Ht Hro] Hf -> Hp. apply (Hro Hf). by apply (so_recorded _ Ht). Qed.

Lemma safe_prometheus w c revision operation :
  safe (fun _ => True) (configure_prometheus w c revision operation) (fun _ _ => True).
Proof.
  unfold configure_prometheus. apply (route_look _ (fun _ => True)); [done|]. intros [r|] _; [|done].
  apply (upsert_safe _ (w, c) (fun t => configured_policy revision operation
           (base_or_default c (get_cluster_policy (w, c) t)))).
  intros t Ht _ Hf Hk. unfold get_cluster_policy, base_or_default.
  destruct (sv_policies t !! (w, c)) as [p|] eqn:Hp; [exact (current_quiet _ _ _ Ht Hf Hk Hp)|exact (quiet_plain c)].
Qed.

Lemma safe_register user p : safe (fun _ => True) (register_target user p) (fun _ _ => True).
Proof.
  unfold register_target. apply triple_write. intros t Ht _. set (k := (tr_workspace_id p, tr_cluster_id p)).
  destruct (sv_registrations t !! k) as [r|] eqn:Hr; [done|].
  set (t1 := t <| sv_registrations ::= _ |> <| sv_next_id ::= _ |>).
  assert (Hk : frozen -> k <> k0).
  { intros Hf E. destruct (proj2 Ht Hf) as [Hm _]. rewrite <- E, Hr in Hm. done. }
  assert (Hnone : is_managed (sv_registrations t !! k) = false) by (by rewrite Hr).
  destruct (same_tables_ok t t1 Ht eq_refl eq_refl) as [Ht1 Hm1].
  { intros k' Hk'. unfold t1. simpl. rewrite lookup_insert_ne; [done|]. intros <-. congruence. }
  assert (Hend : forall t2, tables_ok t2 -> server_moves t1 t2 ->
    let t' := upsert_target_desired_states k (target_desired_components p) (Some user) false t2 in
    tables_ok t' /\ server_moves t t').
  { intros t2 Ht2 Hm2 t'. destruct (same_tables_ok t2 t' Ht2 eq_refl eq_refl) as [Ht' Hm']; [by intros k'|].
    split; [done|]. by apply (server_moves_trans _ t1), (server_moves_trans _ t2). }
  destruct (get_cluster_policy k t1) as [q|] eqn:Hq; [by apply Hend|].
  destruct (registration_policy p) as [policy|e]; [|done].
  pose proof (upsert_tables_ok k policy t1 Ht1 (fun Hf E => False_rect _ (Hk Hf E))) as Hu.
  destruct (upsert_cluster_policy k policy t1) as [[t2 q2]|e] eqn:Eu; simpl; [|done].
  destruct Hu as (_ & Ht2 & Hm2 & _). by apply Hend.
Qed.

(** What is served was stored and is newer than what the agent has. *)
Definition served (k : cluster_key) (generation : Z) (o : option AgentPolicy) (t : server) : Prop :=
  match o with Some p => stored k p t /\ generation < ap_generation p | None => True end.

Definition stored_opt (k : cluster_key) (o : option AgentPolicy) (t : server) : Prop :=
  match o with Some p => stored k p t | None => True end.

Lemma settled_stored_opt k o : settled tables_ok server_moves (stored_opt k o).
Proof. destruct o; [apply settled_stored|apply settled_const]. Qed.

Lemma settled_served k generation o : settled tables_ok server_moves (served k generation o).
Proof. destruct o; [apply settled_and; [apply settled_stored|apply settled_const]|apply settled_const]. Qed.

Lemma current_stored k t : tables_ok t -> stored_opt k (get_cluster_policy k t) t.
Proof.
  intros [Ht _]. unfold get_cluster_policy, stored_opt. destruct (sv_policies t !! k) as [p|] eqn:Hp; [|done].
  by apply (so_recorded _ Ht).
Qed.

Lemma safe_read_policy k (K : server -> Prop) : safe K (read (get_cluster_policy k)) (stored_opt k).
Proof.
  apply triple_read; [apply server_moves_refl|intros o; apply settled_stored_opt|]. intros t Ht _. by apply current_stored.
Qed.

Lemma quiet_refreshed p : quiet p -> quiet (refresh_management_policy p).
Proof. unfold refresh_management_policy. by destruct (same_dump _ _). Qed.

(** Storing the refreshed policy, or reading what was stored meanwhile. *)
Lemma safe_refresh k p : safe (stored k p)
  (stored ← tx (fun t => match upsert_cluster_policy k (refresh_management_policy p) t with
                         | Ok (t, policy) => Ok (t, Some policy)
                         | Err _ => Ok (t, None)
                         end);
   match stored with Some policy => Ret (Some policy) | None => read (get_cluster_policy k) end) (stored_opt k).
Proof.
  eapply (triple_bind _ _ _ _ _ _ (stored_opt k)); [intros o; apply settled_stored_opt| |].
  - intros t Ht Hp. assert (Hq : frozen -> k = k0 -> quiet (refresh_management_policy p)).
    { intros Hf ->. apply quiet_refreshed. by apply (proj2 Ht Hf). }
    pose proof (upsert_tables_ok k _ t Ht Hq) as Hu.
    destruct (upsert_cluster_policy _ _ _) as [[t' q]|e]; cbv beta iota.
    + destruct Hu as (-> & Ht' & Hm & Hs). split; [done|]. split; [done|].
    exists (stored_opt k (Some (refresh_management_policy p))).
      split; [apply settled_stored_opt|]. split; [done|]. by intros t2 _ Hs2.
    + split; [done|]. split; [apply server_moves_refl|]. exists (fun _ => True). split; [apply settled_const|]. by split.
  - intros [q|]; [by intros t _ Hs|]. apply safe_read_policy.
Qed.

Lemma safe_agent_policy w i c generation :
  safe (fun _ => True) (agent_policy w i c generation) (served (w, i) generation).
Proof.
  unfold agent_policy. destruct (negb _); [done|].
  eapply (triple_bind _ _ _ _ _ _ (stored_opt (w, i))); [intros o; apply settled_stored_opt|apply safe_read_policy|].
  intros [p|]; [|by intros t _ _].
  eapply (triple_bind _ _ _ _ _ _ (fun _ => stored (w, i) p)); [intros _; apply settled_stored| |].
  { apply triple_read; [apply server_moves_refl|intros _; apply settled_stored|done]. }
  intros r. eapply (triple_bind _ _ _ _ _ _ (stored_opt (w, i))); [intros o; apply settled_stored_opt| |].
  - destruct (is_management r p && _); [apply safe_refresh|]. by intros t _ Hp.
  - intros [q|] t _ Hq; simpl; [|done]. destruct (_ <=? _) eqn:Hle; [done|]. bool_to_prop. by split.
Qed.

Lemma safe_policy_status w c r : safe (fun _ => True) (agent_policy_status w c r) (fun _ _ => True).
Proof. unfold agent_policy_status, status_route. destruct (_ <? _); [done|]. by apply write_same_safe. Qed.

Lemma safe_reconcile_status w c r : safe (fun _ => True) (agent_reconcile_status w c r) (fun _ _ => True).
Proof. unfold agent_reconcile_status, status_route. destruct (_ <? _); [done|]. by apply write_same_safe. Qed.

(** ** The upgrade *)

(** What a plan promises: it raises the generation by one, and plans nothing for a
    management cluster. *)
Definition plan_ok (plan : TargetUpgradePlan) : Prop :=
  match pn_policy plan with
  | Some p => (pn_current_generation plan < pn_next_generation plan -> ap_generation p = pn_next_generation plan)
              /\ (frozen -> pn_key plan <> k0)
              /\ dict_get "cluster_role" (pn_settings_patch plan) = None
  | None => True
  end.

Definition candidate_ok (c : upgrade_candidate) : Prop := frozen -> uc_key c = k0 -> is_managed (Some (uc_registration c)) = true.

Lemma built_plan_ok image c plan : candidate_ok c -> build_target_upgrade_plan image c = Ok plan -> plan_ok plan.
Proof.
  unfold build_target_upgrade_plan. intros Hc H. destruct (require_target_image_digest image) as [im|]; [|done].
  cbn [mbind result_bind] in H. destruct (negb (String.eqb (ap_cluster_id _) _)); [done|].
  set (registration_role := cluster_role_from_registration _) in H.
  destruct (negb _); [by injection H as <-|].
  destruct (_ || _) eqn:Hm; [by injection H as <-|]. apply orb_false_iff in Hm as [Hrole _].
  destruct (registration_payload _ _ _) as [payload|]; [|done]. cbn [mbind result_bind] in H.
  destruct (rebased_policy _ _ _) as [rebased|]; [|done]. cbn [mbind result_bind] in H. injection H as <-.
  unfold plan_ok. simpl. split; [|split].
  - destruct (negb (same_dump _ _)); simpl; [done|lia].
  - intros Hf Hk. specialize (Hc Hf Hk).
    assert (E : is_managed (Some (uc_registration c)) = String.eqb registration_role MANAGEMENT_CLUSTER_ROLE) by done.
    congruence.
  - clear. unfold settings_patch. destruct (String.eqb (setting_text "image" _ _) _),
    (String.eqb (setting_text "otel_traces_endpoint" _ _) _); reflexivity.
Qed.

Lemma insert_by_id_elem x y (l : list (cluster_key * registration)) : x ∈ insert_by_id y l -> x = y \/ x ∈ l.
Proof. induction l as [|z l IH]; simpl; [set_solver|]. destruct (_ <=? _); set_solver. Qed.

Lemma by_id_elem x (l : list (cluster_key * registration)) : x ∈ foldr insert_by_id [] l -> x ∈ l.
Proof. induction l as [|y l IH]; simpl; [done|]. intros [->|Hx]%insert_by_id_elem; [left|right; auto]. Qed.

Lemma candidate_registered after limit t c :
  c ∈ list_target_runtime_upgrade_candidates after limit t -> sv_registrations t !! uc_key c = Some (uc_registration c).
Proof.
  unfold list_target_runtime_upgrade_candidates. intros Hc. apply list_elem_of_fmap in Hc as ([k r] & -> & Hin).
  apply subseteq_take, by_id_elem, list_elem_of_filter in Hin as [_ Hin]. by apply elem_of_map_to_list in Hin.
Qed.

Lemma candidates_ok after limit t : tables_ok t -> Forall candidate_ok (list_target_runtime_upgrade_candidates after limit t).
Proof.
  intros Ht. apply Forall_forall. intros c Hc Hf Hk. apply candidate_registered in Hc. rewrite Hk in Hc.
  destruct (proj2 Ht Hf) as [Hm _]. by rewrite Hc in Hm.
Qed.

Lemma report_plan_ok image r c : candidate_ok c -> Forall plan_ok (ur_plans r)
  -> Forall plan_ok (ur_plans (report_plan image r c)).
Proof.
  intros Hc Hr. unfold report_plan. destruct (build_target_upgrade_plan image c) as [plan|e] eqn:Hb; [|done].
  apply (built_plan_ok _ _ _ Hc) in Hb. destruct (bool_decide _), (pn_changed plan); simpl; try done;
    apply Forall_app; (split; [done|by constructor]).
Qed.

Lemma report_plans_ok image page r :
  Forall candidate_ok page -> Forall plan_ok (ur_plans r) -> Forall plan_ok (ur_plans (foldl (report_plan image) r page)).
Proof. intros Hp. revert r. induction Hp as [|c page Hc _ IH]; intros r Hr; simpl; [done|]. by apply IH, report_plan_ok. Qed.

Lemma safe_scan fuel image after r :
  Forall plan_ok (ur_plans r) -> safe (fun _ => True) (scan fuel image after r) (fun r _ => Forall plan_ok (ur_plans r)).
Proof.
  revert after r. induction fuel as [|fuel IH]; intros after r Hr; cbn [scan]; [by intros t _ _|].
  apply (route_look (list_target_runtime_upgrade_candidates after UPGRADE_PAGE_SIZE)
    (Forall candidate_ok)); [intros t; apply candidates_ok|]. intros page Hp.
  destruct page as [|c page]; [by intros t _ _|]. by apply IH, report_plans_ok.
Qed.

Lemma swap_tables_ok plan p t t' :
  plan_ok plan -> pn_policy plan = Some p -> tables_ok t -> swap_policy plan p t = Ok t' -> tables_ok t' /\ server_moves t t'.
Proof.
  unfold plan_ok, swap_policy. intros Hp Hpol Ht H. rewrite Hpol in Hp. destruct Hp as (Hg & Hk & _).
  destruct (_ <? _) eqn:Hlt; [|injection H as <-; split; [done|apply server_moves_refl]]. bool_to_prop. specialize (Hg Hlt).
  assert (Hq : frozen -> pn_key plan = k0 -> quiet p) by (intros Hf E; by destruct (Hk Hf)).
  destruct (sv_policies t !! pn_key plan) as [old|] eqn:Hold.
  - destruct (_ && _) eqn:Hc; [|done]. injection H as <-. apply andb_true_iff in Hc as [_ Hc]. bool_to_prop.
    apply store_tables_ok; try done. intros q Hq2. rewrite Hold in Hq2. injection Hq2 as <-. lia.
  - destruct (pn_policy_existed plan); [done|]. injection H as <-. apply store_tables_ok; try done.
    intros q Hq2. by rewrite Hold in Hq2.
Qed.

(** The patch changes the image and an endpoint, not the role. *)
Lemma patch_tables_ok plan t t' :
  dict_get "cluster_role" (pn_settings_patch plan) = None -> tables_ok t -> patch_registration plan t = Ok t' ->
  tables_ok t' /\ server_moves t t'.
Proof.
  unfold patch_registration. intros Hp Ht Hres. assert (Hrefl : tables_ok t /\ server_moves t t) by (by split;
    [|apply server_moves_refl]).
  destruct (pn_settings_patch plan) as [|e patch] eqn:Hpatch; [by injection Hres as <-|].
  set (changes := e :: patch) in *. clearbody changes.
  destruct (sv_registrations t !! pn_key plan) as [r|] eqn:Hr; [|done].
  destruct (_ && _); [|done]. injection Hres as <-.
  apply same_tables_ok; [done|done|done|]. intros k Hk. simpl.
  destruct (decide (k = pn_key plan)) as [->|Hne]; [|by rewrite lookup_insert_ne].
  rewrite lookup_insert_eq. rewrite Hr in Hk. revert Hk.
  unfold is_managed, is_management_registration. simpl. by rewrite dict_get_update_other.
Qed.

Lemma apply_tables_ok plan t t' :
  plan_ok plan -> tables_ok t -> apply_target_runtime_upgrade plan t = Ok t' -> tables_ok t' /\ server_moves t t'.
Proof.
  unfold apply_target_runtime_upgrade. intros Hp Ht Hres. destruct (pn_policy plan) as [p|] eqn:Hpol;
    [|injection Hres as <-; by split; [|apply server_moves_refl]].
  destruct (negb _); [injection Hres as <-; by split; [|apply server_moves_refl]|].
  apply result_bind_inv in Hres as (t1 & H1 & Hres). apply result_bind_inv in Hres as (t2 & H2 & Hres). injection Hres as <-.
  destruct (swap_tables_ok _ _ _ _ Hp Hpol Ht H1) as [Ht1 Hm1]. unfold plan_ok in Hp. rewrite Hpol in Hp.
  destruct (patch_tables_ok _ _ _ (proj2 (proj2 Hp)) Ht1 H2) as [Ht2 Hm2].
  destruct (same_tables_ok t2 (upsert_target_desired_states (pn_key plan)
    (base.filter (fun c => is_runtime_component c = true) (pn_desired_states plan)) (Some UPGRADE_ACTOR) true t2) Ht2
    eq_refl eq_refl) as [Ht3 Hm3]; [by intros k|].
  split; [done|]. by apply (server_moves_trans _ t1), (server_moves_trans _ t2).
Qed.

Lemma apply_plans_ok plans : forall t t',
  Forall plan_ok plans -> tables_ok t -> apply_plans plans t = Ok t' -> tables_ok t' /\ server_moves t t'.
Proof.
  induction plans as [|plan plans IH]; simpl; intros t t' Hp Ht Hres;
    [injection Hres as <-; by split; [|apply server_moves_refl]|].
  apply Forall_cons in Hp as [Hp Hps]. apply result_bind_inv in Hres as (t1 & H1 & Hres).
  destruct (apply_tables_ok _ _ _ Hp Ht H1) as [Ht1 Hm1]. destruct (IH _ _ Hps Ht1 Hres) as [Ht2 Hm2].
  split; [done|]. by apply (server_moves_trans _ t1).
Qed.

Lemma safe_upgrade fuel image apply : safe (fun _ => True) (run_upgrade fuel image apply) (fun _ _ => True).
Proof.
  unfold run_upgrade. apply safe_raising. intros im _.
  eapply (triple_bind _ _ _ _ _ _ (fun r _ => Forall plan_ok (ur_plans r))); [intros r; apply settled_const|by apply safe_scan|].
  intros r. apply triple_pure. intros Hr. destruct (_ && _); [|by intros t _ _]. apply triple_tx. intros t Ht _.
  destruct (apply_plans (ur_plans r) t) as [t'|e] eqn:Ha; [by eapply apply_plans_ok|].
  by split; [|apply server_moves_refl].
Qed.

(** Every route that may start. *)
Lemma route_safe p : route_starts p -> safe (fun _ => True) p (fun _ _ => True).
Proof.
  destruct 1; eapply route_forget; [apply safe_update|apply safe_scheduling|apply safe_prometheus|apply safe_register
    |apply safe_agent_policy|apply safe_policy_status|apply safe_reconcile_status|apply safe_upgrade].
Qed.
End Routes.
