(* ===== verification/PolicySafety.v ===== *)
(** What every run of the server and an agent guarantees.

    The invariant [world_ok] ties what the agent keeps on disk, and the calls it
    sent, to the policies the server stored.  Each task is verified against what the
    others may do: only the synchronization writes policies on the agent, only the
    reconciler sends calls. *)

From S2P Require Import Prelude PyString Json CommandHandler Transactions Concurrent AgentPolicies PolicyServer PolicyUpgrade.
From S2P Require Import AgentControl PolicyRuns PolicyRoutes.
From stdpp Require Import relations.
From coqutil Require Import Datatypes.RecordSettersUsingExistingGetters.
#[global] Open Scope Z_scope.

Arguments RecordSettersUsingExistingGetters.const {E} newValue _ /.

Section Safety.
Context `{compiler : query_compiler} `{presets : evidence_presets} `{urls : runtime_urls}.
Context (sha256_hex : string -> string) (cfg : agent_config) (frozen : Prop).

Let k0 : cluster_key := (ac_workspace_id cfg, ac_cluster_id cfg).

(** The default policy of an agent asks for no object. *)
Context (Hdefault : quiet (ac_default_policy cfg)).

(** ** The invariant *)

(** [p] asks for the objects of the stored policy of its generation. *)
Definition carries (t : server) (p : AgentPolicy) : Prop :=
  exists q, stored k0 q t /\ ap_generation p = ap_generation q /\ ap_bootstrap p = ap_bootstrap q
    /\ ap_desired_state p = ap_desired_state q.

Definition is_default (p : AgentPolicy) : Prop := ap_generation p = ap_generation (ac_default_policy cfg) /\ quiet p.

(** Objects of the stored policy of a generation. *)
Definition wanted (t : server) (generation : Z) (resources : list DesiredResource) : Prop :=
  forall r, r ∈ resources -> exists q, stored k0 q t /\ ap_generation q = generation /\ r ∈ desired_resources q.

Definition authorized (t : server) (c : kube_call) : Prop :=
  wanted t (kc_generation c) [kc_resource c] /\ ensure_allowed cfg (kc_resource c) = Ok tt
  /\ (kc_verb c = KubeApply -> dr_action (kc_resource c) = action_apply /\ ac_argocd cfg = false).

Record agent_ok (t : server) (a : agent) : Prop := {
  ao_active : forall p, load_policy a = Some p -> is_default p \/ carries t p;
  ao_pending : forall p, load_pending_reconcile_policy a = Some p ->
    wanted t (ap_generation p) (desired_resources p) /\ active_generation a < ap_generation p;
  ao_calls : Forall (authorized t) (ag_calls a);
}.

Definition world_ok (w : world) : Prop := tables_ok frozen k0 (w_server w) /\ agent_ok (w_server w) (w_agent w).

(** ** Who may do what *)

Definition route_moves (w w' : world) : Prop := server_moves (w_server w) (w_server w') /\ w_agent w' = w_agent w.
Definition others_of_route (w w' : world) : Prop := server_moves (w_server w) (w_server w').

Definition sync_moves (w w' : world) : Prop :=
  server_moves (w_server w) (w_server w') /\ ag_calls (w_agent w') = ag_calls (w_agent w)
  /\ active_generation (w_agent w) <= active_generation (w_agent w').
Definition others_of_sync (w w' : world) : Prop :=
  server_moves (w_server w) (w_server w') /\ ag_policies (w_agent w') = ag_policies (w_agent w).

Definition reconcile_moves : world -> world -> Prop := others_of_sync.

#[global] Instance route_moves_refl : Reflexive route_moves.
Proof. intros w. split; [apply server_moves_refl|done]. Qed.
#[global] Instance sync_moves_refl : Reflexive sync_moves.
Proof. intros w. split; [apply server_moves_refl|done]. Qed.
#[global] Instance reconcile_moves_refl : Reflexive reconcile_moves.
Proof. intros w. split; [apply server_moves_refl|done]. Qed.

(** Facts about stored policies only grow. *)
Lemma wanted_moves t t' generation resources : server_moves t t' -> wanted t generation resources -> wanted t' generation
  resources.
Proof. intros (_ & Hm & _) Hw r Hr. destruct (Hw r Hr) as (q & Hq & Hrest). exists q. split; [by apply Hm|done]. Qed.

Lemma agent_ok_moves t t' a : server_moves t t' -> agent_ok t a -> agent_ok t' a.
Proof.
  intros Hm [Ha Hp Hc]. split.
  - intros p Hl. destruct (Ha p Hl) as [?|(q & Hq & Hrest)]; [by left|right]. exists q. split; [by apply Hm|done].
  - intros p Hl. destruct (Hp p Hl) as [Hw Hlt]. split; [by eapply wanted_moves|done].
  - eapply Forall_impl; [exact Hc|]. intros c [Hw Hrest]. split; [by eapply wanted_moves|done].
Qed.

(** What depends on the policies and the calls of the agent only. *)
Lemma agent_ok_same t a a' :
  ag_policies a' = ag_policies a -> ag_calls a' = ag_calls a -> agent_ok t a -> agent_ok t a'.
Proof.
  intros Hp Hc [H1 H2 H3]. unfold active_generation, load_policy, load_pending_reconcile_policy in *.
  split; unfold active_generation, load_policy, load_pending_reconcile_policy; rewrite ?Hp, ?Hc; done.
Qed.

Lemma world_server_moves w s :
  world_ok w -> tables_ok frozen k0 s -> server_moves (w_server w) s ->
  world_ok (w <| w_server := s |>) /\ route_moves w (w <| w_server := s |>).
Proof. intros [Ht Ha] Hs Hm. split; [split; [done|]; by eapply agent_ok_moves|by split]. Qed.

Lemma server_set s w : w_server (w <| w_server := s |>) = s.
Proof. reflexivity. Qed.

(** A route, run on the world. *)
Lemma on_server_triple {A} (R G : world -> world -> Prop) K (p : server_prog A) Q :
  (forall w w', R w w' -> server_moves (w_server w) (w_server w')) -> (forall w w', route_moves w w' -> G w w') ->
  safe frozen k0 K p Q -> triple world_ok R G (fun w => K (w_server w)) (on_server p) (fun x w => Q x (w_server w)).
Proof.
  intros HR HG Hp. apply (triple_relations _ R R route_moves G); [done|done|].
  apply (triple_zoom w_server (fun s w => w <| w_server := s |>) server_set (tables_ok frozen k0) server_moves
    server_moves); [by intros w []|auto| |done].
  intros w s Hw Hs Hm. by apply world_server_moves.
Qed.

Lemma request_triple {A} (R G : world -> world -> Prop) d K (p : server_prog A) Q :
  (forall w w', R w w' -> server_moves (w_server w) (w_server w')) -> (forall w w', route_moves w w' -> G w w') ->
  (forall x, settled (tables_ok frozen k0) server_moves (Q x)) ->
  safe frozen k0 K p Q -> triple world_ok R G (fun w => K (w_server w)) (request d p) (fun x w => Q x (w_server w)).
Proof.
  intros HR HG HQ Hp. destruct d; simpl; [done|by apply on_server_triple|].
  eapply (triple_bind _ _ _ _ _ _ (fun x w => Q x (w_server w))); [|by apply on_server_triple|done].
  intros x w w' [Hr Hw']. apply (HQ x (w_server w)). split; [by apply HR|apply Hw'].
Qed.

(** One step of the agent. *)
Lemma on_agent_step {X} (R G : world -> world -> Prop) (K : world -> Prop) (f : agent -> result policy_error (agent * X)) Q :
  (forall x, settled world_ok R (Q x)) ->
  (forall w, world_ok w -> K w ->
     match f (w_agent w) with
     | Ok (a, x) => agent_ok (w_server w) a /\ G w (w <| w_agent := a |>) /\ Q x (w <| w_agent := a |>)
     | Err _ => True
     end) ->
  triple world_ok R G K (on_agent (tx f)) Q.
Proof.
  intros HQ H w Hw HK. simpl. specialize (H w Hw HK). destruct (f (w_agent w)) as [[a x]|e]; [|done].
  destruct H as (Ha & HG & Hq). split; [split; [apply Hw|done]|]. split; [done|].
  exists (Q x). split; [done|]. split; [done|]. by intros w2 _ Hw2.
Qed.

Lemma on_agent_read {X} (R G : world -> world -> Prop) (K : world -> Prop) (f : agent -> X) (Q : X -> world -> Prop) :
  (forall w, G w w) -> (forall x, settled world_ok R (Q x)) -> (forall w, world_ok w -> K w -> Q (f (w_agent w)) w) ->
  triple world_ok R G K (on_agent (read f)) Q.
Proof.
  intros HG HQ H. apply on_agent_step; [done|]. intros w Hw HK. split; [apply Hw|]. destruct w; simpl.
  split; [apply HG|by apply (H _ Hw HK)].
Qed.

(** ** What the agent stores *)

Lemma merge_all_fields base p m :
  merge_agent_policy base (all_fields p) = Ok m ->
  ap_generation m = ap_generation p /\ ap_bootstrap m = ap_bootstrap p /\ ap_desired_state m = ap_desired_state p.
Proof. unfold merge_agent_policy. intros (e & _ & Hm)%result_bind_inv. by injection Hm as <-. Qed.

Lemma load_saved now p a : load_policy (save_policy now p a) = Some p.
Proof.
  unfold save_policy, load_policy. simpl. rewrite lookup_insert_ne by done.
  destruct (ag_policies a !! PENDING_RECONCILE_POLICY_ID) as [[q n]|]; [destruct (_ <=? _)|];
    by rewrite ?lookup_delete_ne, lookup_insert_eq by done.
Qed.

Lemma pending_saved now p a q :
  load_pending_reconcile_policy (save_policy now p a) = Some q ->
  load_pending_reconcile_policy a = Some q /\ ap_generation p < ap_generation q.
Proof.
  unfold save_policy, load_pending_reconcile_policy. simpl. rewrite lookup_insert_ne by done.
  destruct (ag_policies a !! PENDING_RECONCILE_POLICY_ID) as [[r n]|] eqn:Hp.
  - destruct (_ <=? _) eqn:Hle; [by rewrite lookup_delete_eq|]. bool_to_prop. rewrite lookup_insert_ne, Hp by done.
    simpl. intros [= ->]. by split.
  - by rewrite lookup_insert_ne, Hp by done.
Qed.

Lemma save_policy_ok t now p a : agent_ok t a -> is_default p \/ carries t p -> agent_ok t (save_policy now p a).
Proof.
  intros [Ha Hp Hc] Hnew. split.
  - intros q. rewrite load_saved. by intros [= <-].
  - intros q [Hq Hlt]%pending_saved. destruct (Hp q Hq) as [Hw _]. split; [done|].
    unfold active_generation. by rewrite load_saved.
  - done.
Qed.

Lemma wanted_carries t p : carries t p -> wanted t (ap_generation p) (desired_resources p).
Proof.
  intros (q & Hq & Hg & Hb & Hd) r Hr. exists q. split; [done|]. split; [done|]. unfold desired_resources in *.
  by rewrite <- Hb, <- Hd.
Qed.

Lemma handoff_resources active candidate deployment r :
  target_agent_deployment candidate = Some deployment ->
  r ∈ desired_resources (self_upgrade_handoff_policy active candidate deployment) -> r ∈ desired_resources candidate.
Proof.
  unfold target_agent_deployment, desired_resources. simpl. intros [Hin _]%find_some Hr. apply list_elem_of_In in Hin.
  apply elem_of_app in Hr as [Hr|Hr%list_elem_of_singleton]; [|by subst].
  apply elem_of_app. left. apply list_elem_of_In, filter_In in Hr as [Hr _]. by apply list_elem_of_In.
Qed.

Lemma handoff_ok t now active candidate a :
  agent_ok t a -> (forall c, candidate = Some c -> carries t c) ->
  let a' := (stage_desired_state_handoff sha256_hex cfg now active candidate a).1 in
  agent_ok t a' /\ ag_calls a' = ag_calls a /\ active_generation a' = active_generation a.
Proof.
  intros Ha Hc. unfold stage_desired_state_handoff. destruct candidate as [c|]; [|done].
  destruct (_ || _) eqn:Hguard; [done|]. apply orb_false_iff in Hguard as [Hguard _]. apply orb_false_iff in Hguard as [Hle _].
  bool_to_prop. destruct (target_agent_deployment c) as [d|] eqn:Hd; [|done]. destruct (bool_decide _); [done|].
  unfold save_pending_reconcile_policy.
  set (a' := a <| ag_policies ::= _ |>).
  assert (Ha' : agent_ok t a' /\ ag_calls a' = ag_calls a /\ active_generation a' = active_generation a).
  { assert (Hl : load_policy a' = load_policy a) by (unfold load_policy, a'; simpl; by rewrite lookup_insert_ne).
    assert (Hg : active_generation a' = active_generation a) by (unfold active_generation; by rewrite Hl).
    split; [|by split]. destruct Ha as [H1 H2 H3]. split.
    - intros p. rewrite Hl. apply H1.
    - intros p. rewrite Hg. unfold load_pending_reconcile_policy, a'. simpl. rewrite lookup_insert_eq. intros [= <-].
      split; [|simpl; lia]. intros r Hr. apply (handoff_resources _ _ _ _ Hd) in Hr.
      by apply (wanted_carries _ _ (Hc c eq_refl)).
    - done. }
  destruct (ag_policies a !! PENDING_RECONCILE_POLICY_ID) as [[q n]|]; [destruct (_ <=? _)|]; done.
Qed.

(** ** The synchronization *)

Definition sync_triple {A} (K : world -> Prop) (p : world_prog A) (Q : A -> world -> Prop) : Prop :=
  triple world_ok others_of_sync sync_moves K p Q.

(** What the synchronization knows: the policy it received was stored, and is newer
    than the active one. *)
Definition received (incoming : AgentPolicy) (w : world) : Prop := stored k0 incoming (w_server w).
Definition newer (incoming : AgentPolicy) (w : world) : Prop := active_generation (w_agent w) < ap_generation incoming.

Lemma settled_received p : settled world_ok others_of_sync (received p).
Proof. intros w w' [[Hm _] _]. apply Hm. Qed.

Lemma settled_newer p : settled world_ok others_of_sync (newer p).
Proof. intros w w' [[_ Hp] _]. unfold newer, active_generation, load_policy. by rewrite Hp. Qed.

Lemma kept_received p : stable (fun w w' => sync_moves w w' /\ world_ok w') (received p).
Proof. intros w w' [[Hm _] _]. apply Hm. Qed.

Lemma report_sync (K : world -> Prop) d generation status message details :
  sync_triple K (report_policy cfg d generation status message details) (fun _ _ => True).
Proof.
  apply (triple_weaken _ _ _ (fun _ => True)); [done|]. unfold report_policy.
  apply (request_triple _ _ d (fun _ => True) _ (fun _ _ => True)); [by intros w w' [? _]| |intros x; apply settled_const|
    apply safe_policy_status].
  intros w w' [Hm Ha]. split; [done|]. by rewrite Ha.
Qed.

Lemma reported (K : world -> Prop) d generation status message details s :
  sync_triple K (reported ← report_policy cfg d generation status message details; Ret s : world_prog string) (fun _ _ => True).
Proof.
  eapply (triple_bind _ _ _ _ _ _ (fun _ _ => True)); [intros _; apply settled_const|apply report_sync|by intros _ w _ _].
Qed.

Lemma runtime_sync (K : world -> Prop) i :
  settled world_ok others_of_sync K -> sync_triple K (runtime_details i) (fun _ => K).
Proof. intros HK. unfold runtime_details. destruct (si_runtime i); [by intros w _ Hw|done]. Qed.

Lemma sync_unchanged_ok i generation : sync_triple (fun _ => True) (sync_unchanged cfg i generation) (fun _ _ => True).
Proof.
  unfold sync_unchanged. apply (triple_catch _ _ _ _ (fun _ => True)); [apply settled_const|done|done| |].
  - eapply (triple_bind _ _ _ _ _ _ (fun _ _ => True)); [intros _; apply settled_const|by apply runtime_sync, settled_const|].
    intros details. apply reported.
  - intros e. apply reported.
Qed.

Lemma sync_failed_ok i active candidate incoming attempted e :
  (forall c, candidate = Some c -> exists base, merge_agent_policy base (all_fields incoming) = Ok c) ->
  sync_triple (received incoming) (sync_failed sha256_hex cfg i active candidate attempted e) (fun _ _ => True).
Proof.
  intros Hc. unfold sync_failed.
  eapply (triple_bind _ _ _ _ _ _ (fun _ _ => True)); [intros _; apply settled_const| |intros h; apply reported].
  apply on_agent_step; [intros x; apply settled_const|]. intros w Hw Hin.
  pose proof (handoff_ok (w_server w) (si_now i) active candidate (w_agent w) (proj2 Hw)) as Hh.
  destruct (stage_desired_state_handoff _ _ _ _ _ _) as [a h]. simpl in Hh. destruct Hh as (Ha & Hcalls & Hgen).
  - intros c Hcand. destruct (Hc c Hcand) as [base Hm]. destruct (merge_all_fields _ _ _ Hm) as (Hg & Hb & Hd).
    by exists incoming.
  - split; [done|]. split; [|done]. split; [apply server_moves_refl|]. split; [done|]. simpl. lia.
Qed.

Lemma apply_providers_same p base keys : forall schedule registered a,
  let a' := (apply_providers cfg p base keys schedule registered a).1 in
  ag_policies a' = ag_policies a /\ ag_calls a' = ag_calls a.
Proof.
  induction keys as [|key keys IH]; intros schedule registered a; simpl; [done|].
  assert (Hr : ag_policies (register_policy_queries cfg key (ep_queries (provider_policy_for cfg p base key)) a).1 = ag_policies a
    /\ ag_calls (register_policy_queries cfg key (ep_queries (provider_policy_for cfg p base key)) a).1 = ag_calls a).
  { unfold register_policy_queries. destruct (source_for_provider key); [|done]. by destruct (compile_all _ _ _). }
  destruct (register_policy_queries _ _ _ _) as [a1 [names|m]]; simpl in Hr; [|done].
  destruct Hr as [<- <-]. apply IH.
Qed.

Lemma apply_policy_same providers p a :
  let a' := (apply_policy cfg providers p a).1 in ag_policies a' = ag_policies a /\ ag_calls a' = ag_calls a.
Proof.
  unfold apply_policy. destruct (negb _); [done|]. destruct (negb _); [done|].
  pose proof (apply_providers_same p (default (ac_default_policy cfg) (load_policy a)) providers [] [] a) as Hs.
  by destruct (apply_providers _ _ _ _ _ _ _) as [a1 [[schedule registered]|m]].
Qed.

Lemma same_policies_moves a w :
  ag_policies a = ag_policies (w_agent w) -> ag_calls a = ag_calls (w_agent w) -> sync_moves w (w <| w_agent := a |>).
Proof.
  intros Hp Hc. split; [apply server_moves_refl|]. split; [done|]. unfold active_generation, load_policy. simpl. by rewrite Hp.
Qed.

Definition offered (incoming : AgentPolicy) (w : world) : Prop := received incoming w /\ newer incoming w.

Lemma settled_offered p : settled world_ok others_of_sync (offered p).
Proof. apply settled_and; [apply settled_received|apply settled_newer]. Qed.

Lemma merged_carries base incoming policy w :
  merge_agent_policy base (all_fields incoming) = Ok policy -> received incoming w -> carries (w_server w) policy.
Proof. intros (Hg & Hb & Hd)%merge_all_fields Hr. by exists incoming. Qed.

Lemma apply_and_save_ok i base incoming policy :
  merge_agent_policy base (all_fields incoming) = Ok policy ->
  sync_triple (offered incoming) (apply_and_save cfg i policy) (fun _ _ => True).
Proof.
  intros Hm. unfold apply_and_save.
  eapply (triple_bind _ _ _ _ _ _ (fun _ => offered incoming)); [intros _; apply settled_offered|apply runtime_sync,
    settled_offered|].
  intros details. eapply (triple_bind _ _ _ _ _ _ (fun _ => offered incoming)); [intros _; apply settled_offered| |].
  - apply on_agent_step; [intros _; apply settled_offered|]. intros w Hw [Hr Hn].
    destruct (apply_policy_same (si_providers i) policy (w_agent w)) as [Hp Hc].
    destruct (apply_policy _ _ _ _) as [a x]. simpl in Hp, Hc.
    split; [by apply (agent_ok_same _ (w_agent w)), Hw|]. split; [by apply same_policies_moves|]. split; [done|].
    unfold newer, active_generation, load_policy in *. simpl. by rewrite Hp.
  - intros [applied|e]; [|done].
    eapply (triple_bind _ _ _ _ _ _ (fun _ _ => True)); [intros _; apply settled_const| |by intros _ w _ _].
    apply on_agent_step; [intros _; apply settled_const|]. intros w Hw [Hr Hn].
    destruct (merge_all_fields _ _ _ Hm) as [Hg _].
    split; [apply save_policy_ok; [apply Hw|right; by eapply merged_carries]|]. split; [|done].
    split; [apply server_moves_refl|]. split; [done|]. unfold newer in Hn. unfold active_generation at 2. simpl.
    rewrite load_saved. simpl. lia.
Qed.

Lemma sync_changed_ok i incoming : sync_triple (offered incoming) (sync_changed sha256_hex cfg i incoming) (fun _ _ => True).
Proof.
  unfold sync_changed.
  eapply (triple_bind _ _ _ _ _ _ (fun _ => offered incoming)); [intros _; apply settled_offered| |].
  { apply on_agent_read; [apply sync_moves_refl|intros _; apply settled_offered|done]. }
  intros active. destruct (merge_agent_policy active (all_fields incoming)) as [policy|e] eqn:Hm.
  - apply (triple_catch _ _ _ _ (received incoming)); [apply settled_received|apply kept_received|by intros w _ [? _]| |].
    + eapply (triple_bind _ _ _ _ _ _ (fun _ _ => True)); [intros _; apply settled_const|by eapply apply_and_save_ok|].
      intros details. apply reported.
    + intros e. apply sync_failed_ok. intros c [= <-]. by exists active.
  - apply (triple_weaken _ _ _ (received incoming)); [by intros w _ [? _]|]. by apply sync_failed_ok.
Qed.

Definition generation_is (g : Z) (w : world) : Prop := active_generation (w_agent w) = g.

Lemma settled_generation g : settled world_ok others_of_sync (generation_is g).
Proof. intros w w' [[_ Hp] _]. unfold generation_is, active_generation, load_policy. by rewrite Hp. Qed.

Lemma sync_once_ok i : sync_triple (fun _ => True) (sync_once sha256_hex cfg i) (fun _ _ => True).
Proof.
  unfold sync_once. eapply (triple_bind _ _ _ _ _ _ generation_is); [apply settled_generation| |].
  { apply on_agent_read; [apply sync_moves_refl|apply settled_generation|done]. }
  intros g. eapply (triple_bind _ _ _ _ _ _ (fun o w => served k0 g o (w_server w) /\ generation_is g w)).
  - intros o. apply settled_and; [|apply settled_generation]. intros w w' [[Hm _] [Ht _]].
  apply (settled_served frozen k0). by split.
  - apply (triple_relations _ others_of_sync _ route_moves); [done| |].
    { intros w w' [Hm Ha]. split; [done|]. by rewrite Ha. }
    apply (triple_weaken _ _ _ (fun w => True /\ generation_is g w)); [done|]. apply triple_frame; [apply settled_generation| |].
    { intros w w' [[_ Ha] _]. unfold generation_is. by rewrite Ha. }
    apply (request_triple _ _ _ (fun _ => True)); [by intros w w' [? _]|done|intros o; apply settled_served|].
    apply safe_agent_policy.
  - intros [incoming|].
    + apply (triple_weaken _ _ _ (offered incoming)); [|apply sync_changed_ok]. intros w _ [[Hs Hlt] Hg].
      split; [exact Hs|]. unfold newer. by rewrite Hg.
    + apply (triple_weaken _ _ _ (fun _ => True)); [done|]. apply sync_unchanged_ok.
Qed.

(** ** The reconciler *)

Definition others_of_reconcile (w w' : world) : Prop := server_moves (w_server w) (w_server w').

Definition control_triple {A} (K : world -> Prop) (p : agent_prog A) (Q : A -> world -> Prop) : Prop :=
  triple world_ok others_of_reconcile reconcile_moves K (on_agent p) Q.

(** What the reconciler knows: the objects still to come are those of a stored policy. *)
Definition asked (generation : Z) (resources : list DesiredResource) (w : world) : Prop :=
  wanted (w_server w) generation resources.

Lemma settled_asked generation resources : settled world_ok others_of_reconcile (asked generation resources).
Proof. intros w w' [Hm _]. by apply wanted_moves. Qed.

Lemma kept_asked generation resources : stable (fun w w' => reconcile_moves w w' /\ world_ok w') (asked generation resources).
Proof. intros w w' [[Hm _] _]. by apply wanted_moves. Qed.

Lemma agent_set a w : w_agent (w <| w_agent := a |>) = a.
Proof. reflexivity. Qed.

Lemma control_bind {A B} K (p : agent_prog A) (k : A -> agent_prog B) Q Q' :
  (forall x, settled world_ok others_of_reconcile (Q x)) -> control_triple K p Q -> (forall x, control_triple (Q x) (k x) Q') ->
  control_triple K (p ≫= k) Q'.
Proof. apply zoom_triple_bind. Qed.

Lemma store_result_ok generation resources now r :
  control_triple (asked generation resources) (store_result now r) (fun _ => asked generation resources).
Proof.
  apply on_agent_step; [intros _; apply settled_asked|]. intros w [_ Hw] Hk.
  split; [by apply (agent_ok_same _ (w_agent w))|]. split; [split; [apply server_moves_refl|done]|done].
Qed.

Lemma send_ok generation resources verb r answer :
  r ∈ resources -> ensure_allowed cfg r = Ok tt -> (verb = KubeApply -> dr_action r = action_apply /\ ac_argocd cfg = false) ->
  control_triple (asked generation resources) (send verb generation r answer) (fun _ => asked generation resources).
Proof.
  intros Hr Hallow Hverb. unfold send. apply (control_bind _ _ _ (fun _ => asked generation resources)); [intros _;
    apply settled_asked| |].
  - apply on_agent_step; [intros _; apply settled_asked|]. intros w [_ Hw] Hk. destruct Hw as [H1 H2 H3]. split; [|done].
    split; [done|done|]. apply Forall_app. split; [done|]. constructor; [|done]. split; [|done].
    intros r' ->%list_elem_of_singleton. by apply Hk.
  - intros x. destruct answer; [done|]. by intros w _ Hk.
Qed.

Lemma attempt_ok now generation resources r answer :
  r ∈ resources ->
  control_triple (asked generation resources) (attempt_resource sha256_hex cfg now generation r answer)
    (fun _ => asked generation resources).
Proof.
  intros Hr. unfold attempt_resource. destruct (ensure_allowed cfg r) as [[]|m] eqn:Hallow; [|done].
  assert (Hobserve : forall res, control_triple (asked generation resources)
    (sent ← send KubeObserve generation r answer; store_result now res) (fun _ => asked generation resources)).
  { intros res. apply (control_bind _ _ _ (fun _ => asked generation resources)); [intros _;
    apply settled_asked|by apply send_ok|].
    intros _. apply store_result_ok. }
  destruct (dr_action r) eqn:Hact; [apply Hobserve|].
  destruct (ac_argocd cfg) eqn:Hargo; [apply Hobserve|].
  apply (control_bind _ _ _ (fun _ => asked generation resources)); [intros _; apply settled_asked| |].
  { apply on_agent_read; [apply reconcile_moves_refl|intros _; apply settled_asked|done]. }
  intros last. destruct (bool_decide _); [apply store_result_ok|].
  apply (control_bind _ _ _ (fun _ => asked generation resources)); [intros _; apply settled_asked|by apply send_ok|].
  intros _. apply store_result_ok.
Qed.

Lemma reconcile_resource_ok now generation resources r answer :
  r ∈ resources ->
  control_triple (asked generation resources) (reconcile_resource sha256_hex cfg now generation r answer)
    (fun _ => asked generation resources).
Proof.
  intros Hr. unfold reconcile_resource.
  apply (zoom_triple_catch _ _ world_ok others_of_reconcile reconcile_moves _ (asked generation resources)).
  - by intros [].
  - apply settled_asked.
  - apply kept_asked.
  - intros w _. apply reconcile_moves_refl.
  - done.
  - by apply attempt_ok.
  - intros e. apply store_result_ok.
Qed.

Lemma reconcile_resources_ok now generation answers all resources : forall status results,
  resources ⊆ all ->
  control_triple (asked generation all) (reconcile_resources sha256_hex cfg now generation answers resources status
    results) (fun _ _ => True).
Proof.
  induction resources as [|r resources IH]; intros status results Hin; cbn [reconcile_resources]; [by intros w _ _|].
  apply (control_bind _ _ _ (fun _ => asked generation all)); [intros _; apply settled_asked|apply reconcile_resource_ok;
    set_solver|].
  intros res. destruct (bool_decide _); [by intros w _ _|]. apply IH. set_solver.
Qed.

(** The policy the reconciler works on. *)
Definition asked_policy (o : option AgentPolicy) (w : world) : Prop :=
  match o with Some p => asked (ap_generation p) (desired_resources p) w | None => True end.

Lemma settled_asked_policy o : settled world_ok others_of_reconcile (asked_policy o).
Proof. destruct o; [apply settled_asked|apply settled_const]. Qed.

Lemma active_asked w p : world_ok w -> load_policy (w_agent w) = Some p -> asked_policy (Some p) w.
Proof.
  intros [_ [Ha _ _]] Hp. destruct (Ha p Hp) as [[_ Hq]|Hc]; [|by apply wanted_carries].
  intros r. rewrite Hq. intros Hr. by apply not_elem_of_nil in Hr.
Qed.

Lemma load_reconcile_asked w : world_ok w -> asked_policy (load_reconcile_policy (w_agent w)) w.
Proof.
  intros Hw. unfold load_reconcile_policy.
  destruct (load_pending_reconcile_policy (w_agent w)) as [q|] eqn:Hq; destruct (load_policy (w_agent w)) as [p|] eqn:Hp.
  - destruct (_ <? _); [by apply (ao_pending _ _ (proj2 Hw))|by apply active_asked].
  - by apply (ao_pending _ _ (proj2 Hw)).
  - by apply active_asked.
  - done.
Qed.

Lemma reconcile_once_ok now answers snapshot :
  control_triple (fun _ => True) (reconcile_once sha256_hex cfg now answers snapshot) (fun _ _ => True).
Proof.
  unfold reconcile_once. apply (control_bind _ _ _ asked_policy); [apply settled_asked_policy| |].
  { apply on_agent_read; [apply reconcile_moves_refl|apply settled_asked_policy|]. intros w Hw _. by apply load_reconcile_asked. }
  intros [p|]; [|by intros w _ _].
  apply (control_bind _ _ _ (fun _ _ => True)); [intros _; apply settled_const|by apply reconcile_resources_ok|].
  intros [status results]. destruct (observe_argocd _ _ _). by intros w _ _.
Qed.

Lemma reconcile_and_report_ok now answers snapshot d :
  triple world_ok others_of_reconcile reconcile_moves (fun _ => True) (reconcile_and_report sha256_hex cfg now answers snapshot d)
    (fun _ _ => True).
Proof.
  unfold reconcile_and_report. eapply (triple_bind _ _ _ _ _ _ (fun _ _ => True)); [intros _;
    apply settled_const|apply reconcile_once_ok|].
  intros report. apply (request_triple _ _ d (fun _ => True) _ (fun _ _ => True)); [done| |intros x;
    apply settled_const|apply safe_reconcile_status].
  intros w w' [Hm Ha]. split; [done|]. by rewrite Ha.
Qed.

(** ** Restarts *)

Lemma restarted_ok t lost a : agent_ok t a -> agent_ok t (restarted lost a).
Proof.
  intros Ha. destruct lost; simpl; [|by apply (agent_ok_same _ a)]. destruct Ha as [_ _ Hc]. split; [| |done].
  - intros p. by unfold load_policy.
  - intros p. by unfold load_pending_reconcile_policy.
Qed.

Lemma apply_stored_ok t now providers a a' :
  agent_ok t a -> apply_stored_or_default cfg now providers a = (a', Ok tt) ->
  agent_ok t a' /\ ag_calls a' = ag_calls a
  /\ active_generation a' = default (ap_generation (ac_default_policy cfg)) (ap_generation <$> load_policy a).
Proof.
  intros Ha. unfold apply_stored_or_default. destruct (match load_policy a with Some _ => _ | None => _ end)
    as [p|e] eqn:Hp; [|done].
  destruct (apply_policy_same providers p a) as [Hpol Hcalls].
  destruct (apply_policy cfg providers p a) as [a1 [details|e]]; simpl in Hpol, Hcalls; [|done]. intros [= <-].
  assert (Hgen : ap_generation p = default (ap_generation (ac_default_policy cfg)) (ap_generation <$> load_policy a)
                 /\ (is_default p \/ carries t p)).
  { destruct (load_policy a) as [q|] eqn:Hq.
    - destruct (merge_all_fields _ _ _ Hp) as (Hg & Hb & Hd). split; [done|].
      destruct (ao_active _ _ Ha q Hq) as [[Hdg Hquiet]|(r & Hr & Hrest)]; [left|right].
      + split; [by rewrite Hg|]. unfold quiet, desired_resources in *. by rewrite Hb, Hd.
      + exists r. by rewrite Hg, Hb, Hd.
    - injection Hp as <-. split; [done|]. left. by split. }
  destruct Hgen as [Hgen Hnew]. split; [apply save_policy_ok; [by apply (agent_ok_same _ a)|done]|]. split; [done|].
  unfold active_generation. rewrite load_saved. simpl. done.
Qed.
End Safety.
