(* ===== verification/PolicyEnds.v ===== *)
(** The machine of [PolicyRuns] keeps the invariant of [PolicySafety]: what the agent
    may ask of its cluster, which policies it may hold, and what the server does with
    the policy of a registration. *)

From S2P Require Import Prelude PyString Json CommandHandler Transactions Concurrent AgentPolicies PolicyServer PolicyUpgrade.
From S2P Require Import AgentControl PolicyRuns PolicyRoutes PolicySafety.
From stdpp Require Import relations.
From coqutil Require Import Datatypes.RecordSettersUsingExistingGetters.
#[global] Open Scope Z_scope.

Arguments RecordSettersUsingExistingGetters.const {E} newValue _ /.

Section Ends.
Context `{compiler : query_compiler} `{presets : evidence_presets} `{urls : runtime_urls}.
Context (sha256_hex : string -> string) (cfg : agent_config).

Let k0 : cluster_key := (ac_workspace_id cfg, ac_cluster_id cfg).

(** ** Tasks *)

Section Invariant.
Context (frozen : Prop) (Hdefault : quiet (ac_default_policy cfg)).

Abbreviation ok := (world_ok cfg frozen).

(** A program somewhere in its run. *)
Definition task_ok (R G : world -> world -> Prop) (w : world) (p : world_prog unit) : Prop :=
  exists K, settled ok R K /\ K w /\ triple ok R G K p (fun _ _ => True).

Lemma task_start R G w p : triple ok R G (fun _ => True) p (fun _ _ => True) -> task_ok R G w p.
Proof. intros Hp. exists (fun _ => True). split; [apply settled_const|done]. Qed.

Lemma task_mono (R G : world -> world -> Prop) w w' p : R w w' -> ok w' -> task_ok R G w p -> task_ok R G w' p.
Proof. intros Hr Hw (K & HK & Hk & Hp). exists K. split; [done|]. split; [by apply (HK w)|done]. Qed.

Lemma task_run R G w p w' p' :
  Reflexive G -> ok w -> task_ok R G w p -> prog_step w p w' p' -> ok w' /\ G w w' /\ task_ok R G w' p'.
Proof.
  intros HG Hw (K & HK & Hk & Hp) Hs. destruct p as [x|e|f]; [done|done|]. simpl in Hs. specialize (Hp w Hw Hk).
  destruct (f w) as [[w1 p1]|e].
  - destruct Hs as [-> ->]. destruct Hp as (Hw' & Hg & K' & Hrest). split; [done|]. split; [done|]. by exists K'.
  - destruct Hs as [-> ->]. split; [done|]. split; [apply HG|]. exists (fun _ => True). split; [apply settled_const|done].
Qed.

Record machine_ok (m : machine) : Prop := {
  mo_world : ok (m_world m);
  mo_routes : Forall (task_ok others_of_reconcile route_moves (m_world m)) (m_routes m);
  mo_sync : task_ok others_of_sync sync_moves (m_world m) (m_sync m);
  mo_reconcile : task_ok others_of_reconcile reconcile_moves (m_world m) (m_reconcile m);
}.

Lemma routes_mono w w' ps : others_of_reconcile w w' -> ok w' ->
  Forall (task_ok others_of_reconcile route_moves w) ps -> Forall (task_ok others_of_reconcile route_moves w') ps.
Proof. intros Hm Hw Hps. eapply Forall_impl; [exact Hps|]. intros p. by apply task_mono. Qed.

(** A step that leaves the policies of the agent alone disturbs nobody. *)
Lemma machine_ok_mono w w' ps s r : others_of_sync w w' -> ok w' -> machine_ok (Build_machine w ps s r) ->
  machine_ok (Build_machine w' ps s r).
Proof.
  intros Hm Hw [_ Hps Hs Hr]. split; simpl in *; [done| | |].
  - eapply routes_mono; [apply Hm|done..].
  - by eapply task_mono.
  - eapply task_mono; [apply Hm|done..].
Qed.

Lemma idle_ok R G w : task_ok R G w (Ret tt).
Proof. by apply task_start. Qed.

Lemma route_moves_others w w' : route_moves w w' -> others_of_sync w w'.
Proof. intros [Hm Ha]. split; [done|by rewrite Ha]. Qed.

Lemma route_task p w : route_starts p -> task_ok others_of_reconcile route_moves w (on_server p).
Proof.
  intros Hp. apply task_start. apply (on_server_triple cfg frozen _ _ (fun _ => True) p (fun _ _ => True)); [done|done|].
  by apply route_safe.
Qed.

Lemma sync_task i w : task_ok others_of_sync sync_moves w (forget (sync_once sha256_hex cfg i)).
Proof.
  apply task_start. unfold forget. eapply (triple_bind _ _ _ _ _ _ (fun _ _ => True)); [intros _;
    apply settled_const|apply sync_once_ok|].
  by intros _ w' _ _.
Qed.

(** What a step of the machine does to the world. *)
Definition world_moves (w w' : world) : Prop :=
  server_moves (w_server w) (w_server w')
  /\ (active_generation (w_agent w) <= active_generation (w_agent w')
      \/ exists now providers, apply_stored_or_default cfg now providers (restarted true (w_agent w)) = (w_agent w', Ok tt)).

Lemma same_policies_world w w' : others_of_sync w w' -> world_moves w w'.
Proof. intros [Hm Hp]. split; [done|]. left. unfold active_generation, load_policy. by rewrite Hp. Qed.

Lemma environment_ok t t' : tables_ok frozen k0 t -> env_server t t' -> tables_ok frozen k0 t' /\ server_moves t t'.
Proof. intros Ht (Hr & Hp & Hh). by apply same_tables_ok. Qed.

Lemma setting_same now key value a a' :
  save_runtime_setting now key value a = Ok a' -> ag_policies a' = ag_policies a /\ ag_calls a' = ag_calls a.
Proof. unfold save_runtime_setting. destruct (_ || _); [done|]. by intros [= <-]. Qed.

Lemma restart_ok w lost now providers a :
  0 <= ap_generation (ac_default_policy cfg) -> ok w ->
  apply_stored_or_default cfg now providers (restarted lost (w_agent w)) = (a, Ok tt) ->
  ok (w <| w_agent := a |>) /\ world_moves w (w <| w_agent := a |>).
Proof.
  intros Hgen [Ht Ha] Hs. pose proof (restarted_ok cfg (w_server w) lost (w_agent w) Ha) as Hr.
  destruct (apply_stored_ok cfg Hdefault _ _ _ _ _ Hr Hs) as (Ha' & _ & Hg). split; [by split|].
  split; [apply server_moves_refl|]. destruct lost; [right; by exists now, providers|left].
  unfold active_generation at 1. simpl. rewrite Hg. simpl. unfold load_policy. simpl.
  destruct (ag_policies (w_agent w) !! ACTIVE_POLICY_ID); simpl; lia.
Qed.

Lemma machine_step_ok m m' :
  0 <= ap_generation (ac_default_policy cfg) -> machine_ok m -> machine_step sha256_hex cfg m m' ->
  machine_ok m' /\ world_moves (m_world m) (m_world m').
Proof.
  intros Hgen Hm Hstep.
  assert (Hstill : forall w, world_moves w w) by (intros w; by apply same_policies_world).
  destruct Hstep as [w ps s r p Hp|w ps s r i p w' p' Hi Hs|w ps s r i|w ps s r i Hf|w ps s r w' s' Hs|w ps s r now
    answers snapshot d Hf
    |w ps s r w' r' Hs|w ps s r lost now providers a Ha|w ps s r now key value a Ha|w ps s r t Ht]; simpl.
  - split; [|done]. destruct Hm. split; try done. apply Forall_app. split; [done|]. constructor; [by apply route_task|done].
  - destruct (task_run _ _ _ _ _ _ _ (mo_world _ Hm) (Forall_lookup_1 _ _ _ _ (mo_routes _ Hm) Hi) Hs) as (Hw & Hg & Hp').
    apply route_moves_others in Hg. split; [|by apply same_policies_world].
    destruct (machine_ok_mono _ _ _ _ _ Hg Hw Hm) as [H1 H2 H3 H4]. split; try done. by apply Forall_insert.
  - split; [|done]. destruct Hm. split; try done. by apply Forall_delete.
  - split; [|done]. destruct Hm. split; try done. apply sync_task.
  - destruct (task_run _ _ _ _ _ _ _ (mo_world _ Hm) (mo_sync _ Hm) Hs) as (Hw & Hg & Hs').
    destruct Hg as (Hg & Hc & Hgen'). split; [|split; [done|by left]]. destruct Hm as [_ Hps _ Hr].
    split; [done|by eapply routes_mono|done|by eapply task_mono].
  - split; [|done]. destruct Hm. split; try done. by apply task_start, reconcile_and_report_ok.
  - destruct (task_run _ _ _ _ _ _ _ (mo_world _ Hm) (mo_reconcile _ Hm) Hs) as (Hw & Hg & Hr').
    split; [|by apply same_policies_world]. by destruct (machine_ok_mono _ _ _ _ _ Hg Hw Hm).
  - destruct (restart_ok _ _ _ _ _ Hgen (mo_world _ Hm) Ha) as [Hw Hg]. split; [|done]. destruct Hm as [_ Hps _ _].
    split; [done|by eapply routes_mono; [apply Hg| |]|apply idle_ok|apply idle_ok].
  - destruct (setting_same _ _ _ _ _ Ha) as [Hp Hc]. assert (Hg : others_of_sync w (w <| w_agent := a |>)) by (by split).
    split; [|by apply same_policies_world]. apply (machine_ok_mono w); [done| |done].
    destruct (mo_world _ Hm) as [H1 H2]. split; [done|]. by apply (agent_ok_same _ _ (w_agent w)).
  - destruct (mo_world _ Hm) as [H1 H2]. destruct (environment_ok _ _ H1 Ht) as [H3 H4].
    destruct (world_server_moves cfg frozen w t) as [Hw Hg]; [by split|done|done|]. apply route_moves_others in Hg.
    split; [by apply (machine_ok_mono w)|by apply same_policies_world].
Qed.

Lemma started_ok t : tables_ok frozen k0 t -> machine_ok (started t).
Proof.
  intros Ht. split; simpl; [split; [done|]|constructor|apply idle_ok|apply idle_ok]. split; [| |constructor].
  - intros p. by unfold load_policy.
  - intros p. by unfold load_pending_reconcile_policy.
Qed.

Lemma machine_reachable_ok t m :
  0 <= ap_generation (ac_default_policy cfg) -> tables_ok frozen k0 t -> reachable_from sha256_hex cfg t m -> machine_ok m.
Proof.
  intros Hgen Ht Hr. assert (Hm : machine_ok (started t)) by (by apply started_ok). revert Hm. unfold reachable_from in Hr.
  induction Hr as [m|m m1 m2 Hstep _ IH]; intros Hm; [done|]. apply IH. by eapply machine_step_ok.
Qed.
End Invariant.

Lemma empty_tables_ok frozen t : no_policies t -> (frozen -> is_managed (sv_registrations t !! k0) = true)
  -> tables_ok frozen k0 t.
Proof.
  intros [Hp Hh] Hm. split.
  - split; rewrite ?Hp, ?Hh; intros *; set_solver.
  - intros Hf. split; [by apply Hm|]. rewrite Hh. set_solver.
Qed.

Lemma reachable_frozen (frozen : Prop) t m :
  quiet (ac_default_policy cfg) -> 0 <= ap_generation (ac_default_policy cfg) -> no_policies t ->
  (frozen -> is_managed (sv_registrations t !! k0) = true) -> reachable_from sha256_hex cfg t m -> machine_ok frozen m.
Proof. intros Hq Hgen Ht Hm Hr. eapply machine_reachable_ok; [done|done| |done]. by apply empty_tables_ok. Qed.

(** ** What the agent may ask of its cluster *)

Definition one_image (image : string) (r : DesiredResource) : Prop :=
  exists data, dict_get "data" (dr_state r) = Some (JObj data)
    /\ (forall key, key ∈ dict_keys data -> key = TARGET_AGENT_IMAGE_KEY \/ key = NODE_COLLECTOR_IMAGE_KEY)
    /\ strip (image_text (dict_get TARGET_AGENT_IMAGE_KEY data)) = image
    /\ strip (image_text (dict_get NODE_COLLECTOR_IMAGE_KEY data)) = image.

(** The objects of the allowlist: the deployment of the agent, its policy, and the
    images of the runtime, by digest. *)
Inductive allowed_object (r : DesiredResource) : Prop :=
| allowed_agent : dr_kind r = Deployment -> dr_name r = "cluster-agent" -> dr_scope r = scope_target_agent -> allowed_object r
| allowed_policy : dr_kind r = ConfigMap -> dr_name r = "target-agent-policy" -> allowed_object r
| allowed_images image : dr_kind r = ConfigMap -> dr_name r = TARGET_RUNTIME_CONFIG_NAME -> is_image_digest image = true ->
    one_image image r -> allowed_object r.

Lemma same_key_set_keys fields expected key : same_key_set fields expected = true -> key ∈ dict_keys fields -> key ∈ expected.
Proof.
  unfold same_key_set. intros [H _]%andb_true_iff Hk. apply bool_decide_eq_true_1 in H.
  rewrite Forall_forall in H. by apply H.
Qed.

Lemma image_patch_spec r : ensure_runtime_image_patch r = Ok tt -> exists image,
  is_image_digest image = true /\ one_image image r.
Proof.
  unfold ensure_runtime_image_patch. destruct (negb _); [done|]. destruct (negb _); [done|].
  destruct (dict_get "data" (dr_state r)) as [[]|] eqn:Hd; try done.
  destruct (negb (same_key_set _ [TARGET_AGENT_IMAGE_KEY; _])) eqn:Hkeys; [done|]. apply negb_false_iff in Hkeys.
  intros (i1 & H1 & (i2 & H2 & H)%result_bind_inv)%result_bind_inv. unfold require_target_image_digest in H1, H2.
  destruct (is_image_digest _) eqn:D1 in H1; [|done]. destruct (is_image_digest _) eqn:D2 in H2; [|done].
  injection H1 as <-. injection H2 as <-. destruct (String.eqb _ _) eqn:He in H; [|done]. apply String.eqb_eq in He.
  eexists. split; [exact D1|]. eexists. split; [exact Hd|]. split; [|by split].
  intros key Hk. pose proof (same_key_set_keys _ _ _ Hkeys Hk). set_solver.
Qed.

Lemma ensure_allowed_spec r :
  ensure_allowed cfg r = Ok tt -> dr_namespace r = expected_namespace cfg /\ dr_scope r <> scope_user_workload /\
    allowed_object r.
Proof.
  unfold ensure_allowed. destruct (bool_decide _) eqn:Hs; [done|]. apply bool_decide_eq_false_1 in Hs.
  destruct (negb _) eqn:Hn; [done|]. apply negb_false_iff, String.eqb_eq in Hn. intros (x & Hk & H)%result_bind_inv.
  split; [done|]. split; [done|]. destruct (dr_kind r) eqn:Hkind; destruct (dr_scope r) eqn:Hscope; try done.
  all: try (destruct (negb _) eqn:Hname in Hk; [done|]).
  all: try (destruct (String.eqb _ _) eqn:Hagent in H; [apply String.eqb_eq in Hagent; by apply allowed_agent|done]).
  all: apply negb_false_iff, orb_true_iff in Hname; destruct (String.eqb (dr_name r) TARGET_RUNTIME_CONFIG_NAME)
    eqn:Hr in Hk, Hname.
  all: try (destruct Hname as [Hname|?]; [|done]; apply String.eqb_eq in Hname; by apply allowed_policy).
  all: apply String.eqb_eq in Hr; destruct x; apply image_patch_spec in Hk as (image & Hd & Hi); by eapply allowed_images.
Qed.

(** C3. Every call the agent sent to the API of its cluster, in any run of the server
    and the agent with lost requests, answers and processes, is for an object of a
    policy the server stored for this cluster, under the generation the agent names;
    the object is in the namespace of the agent and in the allowlist; and it is a
    write only when the policy says [apply] and Argo CD is not the writer. *)
Theorem kubernetes_calls_authorized t m c :
  quiet (ac_default_policy cfg) -> 0 <= ap_generation (ac_default_policy cfg) -> no_policies t ->
  reachable_from sha256_hex cfg t m -> c ∈ ag_calls (w_agent (m_world m)) ->
  (exists p, (k0, p) ∈ sv_history (w_server (m_world m)) /\ ap_generation p = kc_generation c
     /\ kc_resource c ∈ desired_resources p)
  /\ dr_namespace (kc_resource c) = expected_namespace cfg /\ dr_scope (kc_resource c) <> scope_user_workload
  /\ allowed_object (kc_resource c)
  /\ (kc_verb c = KubeApply -> dr_action (kc_resource c) = action_apply /\ ac_argocd cfg = false).
Proof.
  intros Hq Hgen Ht Hr Hc. destruct (reachable_frozen False t m Hq Hgen Ht (fun f => match f with end) Hr) as [[_ Ha] _ _ _].
  pose proof (ao_calls _ _ _ Ha) as Hcalls. rewrite Forall_forall in Hcalls. destruct (Hcalls c Hc) as (Hw & Hallow & Hverb).
  destruct (Hw (kc_resource c)) as (p & Hp & Hg & Hin); [set_solver|].
  destruct (ensure_allowed_spec _ Hallow) as (Hn & Hs & Ho). split; [by exists p|done].
Qed.


(** C21. Generations order policies: the server never stores two policies of a cluster
    under one generation, the last stored one is the newest, and a step replaces a
    stored policy only by a newer one; the agent's active generation never falls while
    its store survives, and a staged handoff is newer than the active policy. *)
Theorem policy_generations t m m' :
  quiet (ac_default_policy cfg) -> 0 <= ap_generation (ac_default_policy cfg) -> no_policies t ->
  reachable_from sha256_hex cfg t m -> machine_step sha256_hex cfg m m' ->
  let server := w_server (m_world m) in
  let server' := w_server (m_world m') in
  let agent := w_agent (m_world m) in
  let agent' := w_agent (m_world m') in
  (forall k p q, (k, p) ∈ sv_history server -> (k, q) ∈ sv_history server -> ap_generation p = ap_generation q -> p = q)
  /\ (forall k p, (k, p) ∈ sv_history server ->
        exists q, sv_policies server !! k = Some q /\ ap_generation p <= ap_generation q)
  /\ (forall k p, sv_policies server !! k = Some p ->
        exists q, sv_policies server' !! k = Some q /\ (ap_generation p < ap_generation q \/ q = p))
  /\ (active_generation agent <= active_generation agent'
      \/ exists now providers, apply_stored_or_default cfg now providers (restarted true agent) = (agent', Ok tt))
  /\ (forall p, load_pending_reconcile_policy agent = Some p -> active_generation agent < ap_generation p).
Proof.
  intros Hq Hgen Ht Hr Hs. pose proof (reachable_frozen False t m Hq Hgen Ht (fun f => match f with end) Hr) as Hm.
  destruct (machine_step_ok False Hq _ _ Hgen Hm Hs) as [_ [(_ & _ & Hkeep) Hactive]].
  destruct Hm as [[[[_ Hnew Huniq] _] Ha] _ _ _]. split; [exact Huniq|]. split; [|split; [|split; [exact Hactive|]]].
  - intros k p Hp. destruct (Hnew k p Hp) as (q & Hq' & Hle). exists q. split; [done|]. destruct Hle as [?|<-]; lia.
  - intros k p Hp. destruct (Hkeep k p Hp) as (q & Hq' & Hle). exists q. split; [done|]. destruct Hle as [?|<-]; auto.
  - intros p Hp. by apply (ao_pending _ _ _ Ha).
Qed.

(** ** The policy of a registration *)

Lemma registered_generation p policy : registration_policy p = Ok policy -> ap_generation policy = 1.
Proof.
  unfold registration_policy. intros (q & Hd & H)%result_bind_inv. unfold default_agent_policy in Hd.
  assert (Hq : ap_generation q = 1).
  { destruct (tr_cluster_role p), (String.eqb _ _) in Hd; try done; by injection Hd as <-. }
  destruct (tr_cluster_role p); by injection H as <-.
Qed.

Lemma target_registration p id status :
  tr_cluster_role p = role_target ->
  is_managed (Some {| rg_id := id; rg_status := status; rg_settings := registration_settings p |}) = false.
Proof.
  intros Hr. assert (Hd : dict_get "cluster_role" (registration_settings p) = Some (JStr "target")).
  { unfold registration_settings, dict_update. simpl. rewrite !dict_get_set_ne by done. rewrite dict_get_set_eq. by rewrite Hr. }
  unfold is_managed, is_management_registration. simpl. unfold cluster_role_from_settings. by rewrite Hd.
Qed.

(** What a first registration leaves. *)
Lemma registered_row user p t t' :
  (tr_workspace_id p, tr_cluster_id p) = k0 -> tr_cluster_role p = role_target -> sv_policies t !! k0 = None ->
  alone (register_target user p) t = (Ok tt, t') ->
  exists policy r, sv_policies t' !! k0 = Some policy /\ ap_generation policy = 1 /\ sv_registrations t' !! k0 = Some r
    /\ is_managed (Some r) = false /\ ap_cluster_role policy = role_target.
Proof.
  intros Hk Hrole Hnone. unfold register_target. rewrite Hk. simpl.
  destruct (sv_registrations t !! k0); [done|]. unfold get_cluster_policy. simpl. rewrite Hnone.
  destruct (registration_policy p) as [policy|e] eqn:Hp; [|done]. unfold upsert_cluster_policy. simpl. rewrite Hnone. simpl.
  intros [= <-]. eexists policy, _. simpl. rewrite !lookup_insert_eq. split; [done|]. split; [by eapply registered_generation|].
  split; [done|]. split; [by apply target_registration|].
  unfold registration_policy in Hp. rewrite Hrole in Hp. apply result_bind_inv in Hp as (q & Hd & Hq). injection Hq as <-.
  unfold default_agent_policy in Hd. destruct (String.eqb _ _) in Hd; [done|]. by injection Hd as <-.
Qed.

(** Programs that leave the agent alone. *)
Definition keeps_agent {A} (p : world_prog A) : Prop := forall w, w_agent (alone p w).2 = w_agent w.

Lemma kept_bind {A B} (p : world_prog A) (k : A -> world_prog B) :
  keeps_agent p -> (forall x, keeps_agent (k x)) -> keeps_agent (p ≫= k).
Proof.
  intros Hp Hk w. rewrite alone_bind. specialize (Hp w). destruct (alone p w) as [[x|e] w1]; simpl in Hp; [|done].
  by rewrite (Hk x w1).
Qed.

Lemma kept_catch {A} (h : policy_error -> world_prog A) p :
  keeps_agent p -> (forall e, keeps_agent (h e)) -> keeps_agent (catch h p).
Proof.
  intros Hp Hh w. rewrite alone_catch. specialize (Hp w). destruct (alone p w) as [[x|e] w1]; simpl in Hp; [done|].
  by rewrite (Hh e w1).
Qed.

Lemma keeps_server {A} (p : server_prog A) : keeps_agent (on_server p).
Proof.
  induction p as [x|e|f IH] using prog_ind_strong; intros w; simpl; [done|done|].
  destruct (f (w_server w)) as [[s p]|e] eqn:Hf; [|done]. by rewrite (IH _ _ _ Hf).
Qed.

Lemma keeps_request {A} d (p : server_prog A) : keeps_agent (request d p).
Proof. destruct d; simpl; [done|apply keeps_server|]. apply kept_bind; [apply keeps_server|done]. Qed.

Lemma keeps_report d generation status message details (s : string) :
  keeps_agent (reported ← report_policy cfg d generation status message details; Ret s : world_prog string).
Proof. apply kept_bind; [apply keeps_request|done]. Qed.

Lemma keeps_unchanged i generation : keeps_agent (sync_unchanged cfg i generation).
Proof.
  apply kept_catch; [|intros e; apply keeps_report].
  apply kept_bind; [unfold runtime_details; by destruct (si_runtime i)|intros details; apply keeps_report].
Qed.

(** A fetch that finds nothing newer ends the synchronization without a change. *)
Lemma nothing_served i t a :
  alone (agent_policy (ac_workspace_id cfg) (ac_cluster_id cfg) (ac_cluster_id cfg) (active_generation a)) t = (Ok None, t) ->
  w_agent (alone (sync_once sha256_hex cfg i) {| w_server := t; w_agent := a |}).2 = a.
Proof.
  intros Hs. unfold sync_once. rewrite alone_bind. simpl. rewrite alone_bind.
  set (w := {| w_server := t; w_agent := a |}). change (w <| w_agent := a |>) with w. set (p := agent_policy _ _ _ _) in *.
  pose proof (alone_zoom w_server (fun s w => w <| w_server := s |>) server_set p w) as [Hv _].
  pose proof (keeps_server p w) as Hk. fold (on_server p) in Hv. change (w_server w) with t in Hv. rewrite Hs in Hv. simpl in Hv.
  destruct (si_fetch i); simpl; [done| |].
  - destruct (alone (on_server p) w) as [r w1]. simpl in Hv, Hk. subst r. by rewrite keeps_unchanged.
  - pose proof (keeps_request Unanswered p w) as Hr. simpl in Hr. rewrite alone_bind in *.
    destruct (alone (on_server p) w) as [r w1]. simpl in Hv. by subst r.
Qed.

(** C37. The policy a registration stores does not reach an agent that starts afterwards
    from an empty store: its generation is the one of the agent's own default policy,
    so the synchronization is told that nothing is new, whatever it meets. *)
Theorem registration_policy_unseen user p t t' now providers a i :
  (tr_workspace_id p, tr_cluster_id p) = k0 -> tr_cluster_role p = role_target ->
  sv_policies t !! k0 = None -> alone (register_target user p) t = (Ok tt, t') ->
  ap_generation (ac_default_policy cfg) = DEFAULT_AGENT_POLICY_GENERATION ->
  apply_stored_or_default cfg now providers new_agent = (a, Ok tt) ->
  is_Some (sv_policies t' !! k0)
  /\ w_agent (alone (sync_once sha256_hex cfg i) {| w_server := t'; w_agent := a |}).2 = a.
Proof.
  intros Hk Hrole Hnone Hreg Hdef Hstart.
  destruct (registered_row _ _ _ _ Hk Hrole Hnone Hreg) as (policy & r & Hp & Hg & Hr & Hm & Hpr).
  split; [by rewrite Hp|]. apply nothing_served.
  assert (Ha : active_generation a = 1).
  { unfold apply_stored_or_default in Hstart. change (load_policy new_agent) with (@None AgentPolicy) in Hstart.
    cbv beta iota in Hstart. destruct (apply_policy cfg providers (ac_default_policy cfg) new_agent) as [a1 [d|e]]; [|done].
    injection Hstart as <-. unfold active_generation. rewrite load_saved. simpl. by rewrite Hdef. }
  assert (Hp' : get_cluster_policy (ac_workspace_id cfg, ac_cluster_id cfg) t' = Some policy) by exact Hp.
  assert (Hr' : sv_registrations t' !! (ac_workspace_id cfg, ac_cluster_id cfg) = Some r) by exact Hr.
  rewrite Ha. unfold agent_policy. rewrite String.eqb_refl. simpl. rewrite Hp'. simpl. rewrite Hr'.
  unfold is_management. rewrite Hm, Hpr. simpl. by rewrite Hg.
Qed.
End Ends.
