(* ===== verification/PolicyReconcile.v ===== *)
(** Passes of the reconciler: what one pass leaves on disk, and why the next one has
    nothing to write. *)

From S2P Require Import Prelude PyString Json CommandHandler Transactions Concurrent AgentPolicies PolicyServer PolicyUpgrade.
From S2P Require Import AgentControl.
From stdpp Require Import relations.
From coqutil Require Import Datatypes.RecordSettersUsingExistingGetters.
#[global] Open Scope Z_scope.

Arguments RecordSettersUsingExistingGetters.const {E} newValue _ /.

Section Passes.
Context (sha256_hex : string -> string) (cfg : agent_config).

Abbreviation hash := (desired_resource_hash sha256_hex).

(** The store says that [r] was brought to its desired state. *)
Definition settled_resource (a : agent) (r : DesiredResource) : Prop :=
  last_successful_resource_hash (dr_resource_id r) a = Some (hash r).

Definition observes (c : kube_call) : Prop := kc_verb c = KubeObserve.

(** ** One object *)

Record resource_spec (r : DesiredResource) (answer : option string) (a : agent) (res : ReconcileResult) (a' : agent) : Prop := {
  rs_policies : ag_policies a' = ag_policies a;
  rs_calls : exists l, ag_calls a' = ag_calls a ++ l /\ (settled_resource a r -> Forall observes l);
  rs_frame : forall id, id <> dr_resource_id r -> last_successful_resource_hash id a' = last_successful_resource_hash id a;
  rs_done : rr_status res <> RECONCILE_FAILED -> settled_resource a' r;
  rs_applied : rr_status res = RECONCILE_APPLIED -> ~ settled_resource a r;
  rs_succeeds : ensure_allowed cfg r = Ok tt -> answer = None -> rr_status res <> RECONCILE_FAILED;
}.

Lemma saved_hash now res a :
  last_successful_resource_hash (dr_resource_id (rr_resource res)) (save_reconcile_result now res a)
  = match rr_status res with RECONCILE_FAILED => None | _ => Some (rr_desired_hash res) end.
Proof. unfold last_successful_resource_hash, save_reconcile_result. simpl. by rewrite lookup_insert_eq. Qed.

Lemma saved_other now res a id :
  id <> dr_resource_id (rr_resource res) ->
  last_successful_resource_hash id (save_reconcile_result now res a) = last_successful_resource_hash id a.
Proof. intros Hid. unfold last_successful_resource_hash, save_reconcile_result. simpl. by rewrite lookup_insert_ne by done. Qed.

(** Every branch stores a result of [r], after the calls [l]. *)
Lemma stored_spec r answer now a a1 res l :
  ag_policies a1 = ag_policies a -> ag_results a1 = ag_results a -> ag_calls a1 = ag_calls a ++ l ->
  (settled_resource a r -> Forall observes l) -> rr_resource res = r -> rr_desired_hash res = hash r ->
  (rr_status res = RECONCILE_APPLIED -> ~ settled_resource a r) ->
  (ensure_allowed cfg r = Ok tt -> answer = None -> rr_status res <> RECONCILE_FAILED) ->
  resource_spec r answer a res (save_reconcile_result now res a1).
Proof.
  intros Hp Hr Hc Hl Hres Hh Happ Hok.
  assert (Hsame : forall id, last_successful_resource_hash id a1 = last_successful_resource_hash id a)
    by (intros id; unfold last_successful_resource_hash; by rewrite Hr).
  split; [done|by exists l| | |done|done].
  - intros id Hid. rewrite saved_other by (by rewrite Hres). apply Hsame.
  - intros Hs. unfold settled_resource. rewrite <- Hres at 1. rewrite saved_hash, Hh. by destruct (rr_status res).
Qed.

Definition result_of (r : DesiredResource) (status : reconcile_status) (message : string) : ReconcileResult :=
  {| rr_resource := r; rr_desired_hash := hash r; rr_status := status; rr_message := message |}.

Lemma resource_alone now generation r answer a :
  exists res a', alone (reconcile_resource sha256_hex cfg now generation r answer) a = (Ok res, a')
    /\ resource_spec r answer a res a'.
Proof.
  unfold reconcile_resource. rewrite alone_catch. unfold attempt_resource.
  assert (Hsent : forall verb status message, (verb = KubeApply -> ~ settled_resource a r) ->
    status <> RECONCILE_FAILED -> (status = RECONCILE_APPLIED -> ~ settled_resource a r) ->
    exists res a', match alone (sent ← send verb generation r answer; store_result now (result_of r status message)) a with
                   | (Ok x, s) => (Ok x, s)
                   | (Err e, s) => alone (store_result now (result_of r RECONCILE_FAILED (error_text e))) s
                   end = (Ok res, a') /\ resource_spec r answer a res a').
  { intros verb status message Hverb Hst Happ. rewrite alone_bind. unfold send. rewrite alone_bind. simpl.
    set (l := [{| kc_verb := verb; kc_resource := r; kc_generation := generation |}]).
    assert (Hl : settled_resource a r -> Forall observes l).
    { intros Hs. constructor; [|done]. destruct verb; [done|by destruct (Hverb eq_refl)]. }
    destruct answer as [m|]; simpl; do 2 eexists; (split; [reflexivity|]); by eapply (stored_spec _ _ _ _ _ _ l). }
  destruct (ensure_allowed cfg r) as [x|m] eqn:Hallow.
  2: { do 2 eexists. split; [reflexivity|]. eapply (stored_spec _ _ _ a a _ []); try done; [by rewrite app_nil_r|].
  by rewrite Hallow. }
  destruct (dr_action r); [by apply Hsent|]. destruct (ac_argocd cfg); [by apply Hsent|].
  rewrite alone_bind. simpl. destruct (bool_decide _) eqn:Hlast.
  - do 2 eexists. split; [reflexivity|]. eapply (stored_spec _ _ _ a a _ []); try done. by rewrite app_nil_r.
  - apply bool_decide_eq_false_1 in Hlast. by apply Hsent.
Qed.

(** ** A pass *)

Record pass_spec (resources : list DesiredResource) (answers : nat -> option string) (a : agent)
  (status0 status : reconcile_status)
    (a' : agent) : Prop := {
  ps_policies : ag_policies a' = ag_policies a;
  ps_calls : exists l, ag_calls a' = ag_calls a ++ l /\ (Forall (settled_resource a) resources -> Forall observes l);
  ps_frame : forall id, id ∉ map dr_resource_id resources -> last_successful_resource_hash id a' =
    last_successful_resource_hash id a;
  ps_done : status <> RECONCILE_FAILED -> Forall (settled_resource a') resources;
  ps_unchanged : Forall (settled_resource a) resources -> status <> RECONCILE_FAILED -> status = status0;
  ps_succeeds : Forall (fun r => ensure_allowed cfg r = Ok tt) resources -> (forall n, answers n = None) ->
    status <> RECONCILE_FAILED;
}.

Lemma settled_frame a a' r resources :
  dr_resource_id r ∉ map dr_resource_id resources ->
  (forall id, id <> dr_resource_id r -> last_successful_resource_hash id a' = last_successful_resource_hash id a) ->
  Forall (settled_resource a) resources -> Forall (settled_resource a') resources.
Proof.
  intros Hr Hf. rewrite !Forall_forall. intros H r' Hr'. unfold settled_resource. rewrite Hf; [by apply H|].
  intros Heq. apply Hr. rewrite <- Heq. apply list_elem_of_fmap. by exists r'.
Qed.

Lemma next_status_ok status res : status <> RECONCILE_FAILED -> next_status status res <> RECONCILE_FAILED.
Proof. unfold next_status. by destruct (rr_status res), status. Qed.

Lemma resources_alone now generation answers resources : forall status0 results0 a,
  NoDup (map dr_resource_id resources) -> status0 <> RECONCILE_FAILED ->
  exists status results a', alone (reconcile_resources sha256_hex cfg now generation answers resources status0 results0) a
                            = (Ok (status, results), a') /\ pass_spec resources answers a status0 status a'.
Proof.
  induction resources as [|r resources IH]; intros status0 results0 a Hnd Hst; cbn [reconcile_resources].
  { do 3 eexists. split; [reflexivity|]. split; try done. exists []. split; [by rewrite app_nil_r|done]. }
  apply NoDup_cons in Hnd as [Hr Hnd]. rewrite alone_bind.
  destruct (resource_alone now generation r (answers (length results0)) a) as (res & a1 & -> & H1).
  destruct H1 as [Hp1 (l1 & Hc1 & Hl1) Hf1 Hd1 Ha1 Hs1].
  destruct (bool_decide _) eqn:Hfail; [apply bool_decide_eq_true_1 in Hfail|apply bool_decide_eq_false_1 in Hfail].
  - do 3 eexists. split; [reflexivity|]. split; try done.
    + exists l1. split; [done|]. intros [Hs _]%Forall_cons. by apply Hl1.
    + intros id Hid. apply Hf1. set_solver.
    + intros [Hal _]%Forall_cons Hn. by destruct (Hs1 Hal (Hn _)).
  - destruct (IH (next_status status0 res) (results0 ++ [res]) a1 Hnd (next_status_ok _ _ Hst))
    as (status & results & a2 & -> & H2).
    destruct H2 as [Hp2 (l2 & Hc2 & Hl2) Hf2 Hd2 Hu2 Hs2].
    do 3 eexists. split; [reflexivity|]. split.
    + by rewrite Hp2.
    + exists (l1 ++ l2). split; [by rewrite Hc2, Hc1, app_assoc|]. intros [Hs Hss]%Forall_cons. apply Forall_app.
      split; [by apply Hl1|]. apply Hl2. by eapply settled_frame.
    + intros id Hid. rewrite Hf2 by set_solver. apply Hf1. set_solver.
    + intros Hok. constructor; [|by apply Hd2]. unfold settled_resource. rewrite Hf2 by done. by apply Hd1.
    + intros [Hs Hss]%Forall_cons Hok. rewrite Hu2; [|by eapply settled_frame|done]. unfold next_status.
      destruct (rr_status res) eqn:E; try done. by destruct (Ha1 eq_refl).
    + intros [_ Hal]%Forall_cons Hn. by apply Hs2.
Qed.

Lemma status_text_failed s : reconcile_status_text s = "failed" <-> s = RECONCILE_FAILED.
Proof. by destruct s. Qed.

Lemma observed_failed snapshot s : (observe_argocd cfg snapshot s).1 <> RECONCILE_FAILED -> s <> RECONCILE_FAILED.
Proof.
  unfold observe_argocd. destruct (ac_argocd cfg); [|done]. destruct snapshot; [|done]. by destruct (dict_get _ _)
    as [[]|]; repeat case_match.
Qed.

(** A pass over a policy. *)
Lemma once_alone now answers snapshot a p :
  load_reconcile_policy a = Some p -> NoDup (map dr_resource_id (desired_resources p)) ->
  exists report status a', alone (reconcile_once sha256_hex cfg now answers snapshot) a = (Ok report, a')
    /\ sr_generation report = ap_generation p
    /\ sr_status report = reconcile_status_text (observe_argocd cfg snapshot status).1
    /\ load_reconcile_policy a' = Some p
    /\ pass_spec (desired_resources p) answers a RECONCILE_UNCHANGED status a'.
Proof.
  intros Hp Hnd. unfold reconcile_once. rewrite alone_bind. simpl. rewrite Hp, alone_bind.
  destruct (resources_alone now (ap_generation p) answers (desired_resources p) RECONCILE_UNCHANGED [] a Hnd)
    as (status & results & a' & -> & Hs); [done|].
  destruct (observe_argocd cfg snapshot status) as [st argocd] eqn:Ho. eexists _, status, a'.
  split; [reflexivity|]. split; [done|]. split; [by rewrite Ho|]. split; [|done].
  destruct Hs as [Hpol _ _ _ _ _]. unfold load_reconcile_policy, load_policy, load_pending_reconcile_policy in *. by rewrite Hpol.
Qed.

(** C28. The reconciler converges: a pass always reports; after a pass that did not
    fail the next one only observes, whatever the API answers; and when the objects
    are allowed and the API accepts the calls, a pass does not fail and the next one
    reports that nothing changed. *)
Theorem reconcile_converges now answers snapshot a p :
  load_reconcile_policy a = Some p -> NoDup (map dr_resource_id (desired_resources p)) ->
  exists report a1, alone (reconcile_once sha256_hex cfg now answers snapshot) a = (Ok report, a1)
    /\ sr_generation report = ap_generation p
    /\ (sr_status report <> "failed" -> forall now2 answers2 snapshot2,
          exists l, ag_calls (alone (reconcile_once sha256_hex cfg now2 answers2 snapshot2)
            a1).2 = ag_calls a1 ++ l /\ Forall observes l)
    /\ (Forall (fun r => ensure_allowed cfg r = Ok tt) (desired_resources p) -> (forall n, answers n = None) ->
        ac_argocd cfg = false ->
        sr_status report <> "failed"
        /\ forall now2 snapshot2, exists report2 a2,
             alone (reconcile_once sha256_hex cfg now2 answers snapshot2) a1 = (Ok report2, a2)
               /\ sr_status report2 = "unchanged").
Proof.
  intros Hp Hnd. destruct (once_alone now answers snapshot a p Hp Hnd) as (report & status & a1 & Hrun & Hg & Hs & Hp1 & H1).
  exists report, a1. split; [done|]. split; [done|]. split.
  - intros Hok now2 answers2 snapshot2. destruct (once_alone now2 answers2 snapshot2 a1 p Hp1 Hnd)
    as (r2 & s2 & a2 & -> & _ & _ & _ & H2).
    destruct (ps_calls _ _ _ _ _ _ H2) as (l & Hc & Hl). exists l. split; [done|]. apply Hl, (ps_done _ _ _ _ _ _ H1).
    apply (observed_failed snapshot). intros E. apply Hok. by rewrite Hs, status_text_failed.
  - intros Hal Hans Hargo.
    assert (Hobs : forall snap s, (observe_argocd cfg snap s).1 = s) by (intros snap s; unfold observe_argocd; by rewrite Hargo).
    pose proof (ps_succeeds _ _ _ _ _ _ H1 Hal Hans) as Hok. split; [by rewrite Hs, Hobs, status_text_failed|].
    intros now2 snapshot2. destruct (once_alone now2 answers snapshot2 a1 p Hp1 Hnd) as (r2 & s2 & a2 & Hrun2 & _ & Hs2 & _ & H2).
    exists r2, a2. split; [done|]. rewrite Hs2, Hobs.
    rewrite (ps_unchanged _ _ _ _ _ _ H2 (ps_done _ _ _ _ _ _ H1 Hok) (ps_succeeds _ _ _ _ _ _ H2 Hal Hans)). done.
Qed.
End Passes.
