(* ===== verification/PolicyRebase.v ===== *)
(** Rebasing a policy on a new image: the presets of its providers, the runtime
    config and the deployment of the agent.  Doing it twice is doing it once. *)

From S2P Require Import Prelude PyString Json CommandHandler Transactions AgentPolicies PolicyServer PolicyUpgrade.
From coqutil Require Import Datatypes.RecordSettersUsingExistingGetters.
#[global] Open Scope Z_scope.

Arguments RecordSettersUsingExistingGetters.const {E} newValue _ /.

(** ** Queries *)

Section Rebase.
Context (defaults : list (odict json)) (reserved : list string).

(** Presets have names, all different. *)
Definition presets_distinct (defaults : list (odict json)) : Prop :=
  NoDup (map preset_name defaults) /\ Forall (fun q => is_Some (query_name q)) defaults.

Context (Hdefaults : presets_distinct defaults).

Let by_name : odict (odict json) := foldl (fun d dq => dict_set (preset_name dq) dq d) [] defaults.

Lemma by_name_list : by_name = map (fun q => (preset_name q, q)) defaults.
Proof.
  assert (H : forall qs acc, NoDup (map preset_name qs) -> (forall q, q ∈ qs -> preset_name q ∉ dict_keys acc) ->
            foldl (fun d dq => dict_set (preset_name dq) dq d) acc qs = acc ++ map (fun q => (preset_name q, q)) qs).
  { induction qs as [|q qs IH]; intros acc Hnd Hacc; csimpl; [by rewrite app_nil_r|].
    apply NoDup_cons in Hnd as [Hq Hnd]. rewrite dict_set_new by (apply Hacc; set_solver). rewrite IH;
      [by rewrite <- app_assoc|done|].
    intros q' Hq'. unfold dict_keys. rewrite fmap_app, elem_of_app. intros [Hk|Hk]; [apply (Hacc q'); set_solver|].
    csimpl in Hk. apply list_elem_of_singleton in Hk. apply Hq. rewrite <- Hk. apply list_elem_of_fmap. by exists q'. }
  apply (H defaults []); [apply Hdefaults|]. intros q _. apply not_elem_of_nil.
Qed.

Lemma by_name_wf : dict_wf by_name.
Proof. rewrite by_name_list. unfold dict_wf, dict_keys. rewrite <- list_fmap_compose. apply Hdefaults. Qed.

Lemma by_name_get n q : dict_get n by_name = Some q <-> q ∈ defaults /\ preset_name q = n.
Proof.
  split.
  - intros H%dict_get_Some_elem. rewrite by_name_list in H. by apply list_elem_of_fmap in H as (q' & [= -> ->] & H).
  - intros [Hq <-]. apply dict_elem_get; [apply by_name_wf|]. rewrite by_name_list. apply list_elem_of_fmap. by exists q.
Qed.

Lemma preset_named q : q ∈ defaults -> query_name q = Some (preset_name q).
Proof.
  destruct Hdefaults as [_ H]. rewrite Forall_forall in H. intros Hq. destruct (H q Hq) as [n Hn]. unfold preset_name.
  by rewrite Hn.
Qed.

Definition preset_of (q : odict json) : option string :=
  match query_name q with Some n => n ← Some n; _ ← dict_get n by_name; Some n | None => None end.

Definition preset_names (l : list (odict json)) : list string := omap preset_of l.

Lemma preset_of_default q : q ∈ defaults -> preset_of q = Some (preset_name q).
Proof. intros Hq. unfold preset_of. rewrite (preset_named q Hq). simpl. by rewrite (proj2 (by_name_get _ q)
  (conj Hq eq_refl)). Qed.

(** A query the rebase leaves where it is. *)
Definition kept (q : odict json) : Prop :=
  match query_name q with
  | Some n => match dict_get n by_name with Some p => q = p | None => n ∉ reserved end
  | None => True
  end.

Lemma kept_default q : q ∈ defaults -> kept q.
Proof. intros Hq. unfold kept. rewrite (preset_named q Hq). by rewrite (proj2 (by_name_get _ q) (conj Hq eq_refl)). Qed.

(** A list of such queries, no preset twice, is its own rebase up to missing presets. *)
Lemma steps_kept l : forall acc seen,
  Forall kept l -> NoDup (seen ++ preset_names l) ->
  foldl (rebase_step defaults reserved) (acc, seen) l = (acc ++ l, seen ++ preset_names l).
Proof.
  induction l as [|q l IH]; intros acc seen Hl Hnd; csimpl; [by rewrite !app_nil_r|].
  apply Forall_cons in Hl as [Hq Hl]. unfold kept in Hq. unfold preset_names, preset_of in *. csimpl in *.
  change (foldl (fun d dq => dict_set (preset_name dq) dq d) [] defaults) with by_name.
  destruct (query_name q) as [n|]; [|by rewrite IH, <- app_assoc].
  simpl in *. destruct (dict_get n by_name) as [p|]; csimpl in *.
  - subst p. assert (Hn : n ∉ seen) by (apply NoDup_app in Hnd as (_ & Hnd & _); set_solver).
    rewrite bool_decide_eq_false_2 by done. rewrite IH; [by rewrite <- !app_assoc|done|by rewrite <- app_assoc].
  - rewrite bool_decide_eq_false_2 by done. rewrite IH; [by rewrite <- app_assoc|done|done].
Qed.

(** Whatever the queries were, the steps produce such a list. *)
Lemma steps_produce l : forall acc,
  Forall kept acc -> NoDup (preset_names acc) ->
  let r := foldl (rebase_step defaults reserved) (acc, preset_names acc) l in
  Forall kept r.1 /\ NoDup (preset_names r.1) /\ r.2 = preset_names r.1.
Proof.
  induction l as [|q l IH]; intros acc Hacc Hnd; csimpl; [done|].
  change (foldl (fun d dq => dict_set (preset_name dq) dq d) [] defaults) with by_name.
  assert (Happ : forall q', preset_names (acc ++ [q']) = preset_names acc ++ preset_names [q'])
    by (intros q'; unfold preset_names; by rewrite omap_app).
  assert (Hplain : forall q', kept q' -> preset_names [q'] = [] ->
    let r := foldl (rebase_step defaults reserved) (acc ++ [q'], preset_names acc) l in
    Forall kept r.1 /\ NoDup (preset_names r.1) /\ r.2 = preset_names r.1).
  { intros q' Hk Hn. specialize (IH (acc ++ [q'])). rewrite Happ, Hn, app_nil_r in IH. apply IH; [|done].
  apply Forall_app. by repeat constructor. }
  destruct (query_name q) as [n|] eqn:Hq.
  2: { apply Hplain; [unfold kept|unfold preset_names, preset_of; csimpl]; by rewrite Hq. }
  destruct (dict_get n by_name) as [p|] eqn:Hp.
  - case_bool_decide as Hn; [by apply IH|]. pose proof (proj1 (by_name_get n p) Hp) as [Hin Hpn].
    assert (Hpn' : preset_names [p] = [n]) by (unfold preset_names; csimpl; by rewrite (preset_of_default p Hin), Hpn).
    specialize (IH (acc ++ [p])). rewrite Happ, Hpn' in IH. apply IH.
    + apply Forall_app. split; [done|]. constructor; [by apply kept_default|done].
    + apply NoDup_app. split; [done|]. split; [set_solver|]. apply NoDup_singleton.
  - case_bool_decide as Hn; [by apply IH|]. apply Hplain; [unfold kept|unfold preset_names, preset_of; csimpl];
    rewrite Hq; simpl; by rewrite Hp.
Qed.

Lemma preset_names_defaults l : l ⊆ defaults -> preset_names l = map preset_name l.
Proof.
  unfold preset_names. induction l as [|q l IH]; intros Hl; csimpl; [done|]. rewrite (preset_of_default q) by set_solver. csimpl.
  by rewrite IH by set_solver.
Qed.

Lemma rebase_idempotent queries :
  rebase_queries defaults reserved (rebase_queries defaults reserved queries) = rebase_queries defaults reserved queries.
Proof.
  unfold rebase_queries at 2 3. pose proof (steps_produce queries [] (Forall_nil_2 _) (NoDup_nil_2)) as H. simpl in H.
  unfold preset_names in H at 1. simpl in H.
  destruct (foldl _ ([], []) queries) as [l seen]. simpl in H. destruct H as (Hk & Hnd & ->).
  set (missing := base.filter _ defaults).
  assert (Hm : missing ⊆ defaults) by (intros q [_ Hq]%list_elem_of_filter; done).
  assert (Hnames : preset_names (l ++ missing) = preset_names l ++ map preset_name missing).
  { rewrite <- (preset_names_defaults missing Hm). unfold preset_names. by rewrite omap_app. }
  assert (Hnd' : NoDup (preset_names (l ++ missing))).
  { rewrite Hnames. apply NoDup_app. split; [done|]. split.
    - intros n Hn (q & -> & Hq)%list_elem_of_fmap. by apply list_elem_of_filter in Hq as [Hq _].
    - eapply sublist_NoDup; [exact (proj1 Hdefaults)|]. apply fmap_sublist, sublist_filter. }
  unfold rebase_queries. rewrite steps_kept; [|apply Forall_app; split; [done|]|done].
  - simpl. rewrite filter_none; [apply app_nil_r|]. apply Forall_forall. intros q Hq Hn. apply Hn. rewrite Hnames.
    destruct (decide (preset_name q ∈ preset_names l)) as [Hin|Hin]; [set_solver|]. apply elem_of_app. right.
    apply list_elem_of_fmap. exists q. split; [done|]. by apply list_elem_of_filter.
  - apply Forall_forall. intros q Hq. apply kept_default. by apply Hm.
Qed.
End Rebase.

(** ** Providers *)

Section Providers.
Context `{presets : evidence_presets}.

Lemma compatible_name q : query_name (self_upgrade_compatible_query q) = query_name q.
Proof.
  unfold self_upgrade_compatible_query. destruct (dict_get "source" q) as [[]|]; try done. destruct (query_name q)
    as [n|] eqn:Hn; [|done].
  case_match; [|by rewrite Hn]. unfold query_name in *. by rewrite !dict_get_pop_ne.
Qed.

Lemma compatible_distinct key cluster_id profile namespaces :
  presets_distinct (evidence_provider_queries key cluster_id profile namespaces) ->
  presets_distinct (compatible_queries key cluster_id profile namespaces).
Proof.
  unfold presets_distinct, compatible_queries. intros [Hnd Hn]. split.
  - rewrite <- list_fmap_compose. erewrite list_fmap_ext; [exact Hnd|]. intros i q _. simpl. unfold preset_name.
  by rewrite compatible_name.
  - rewrite Forall_fmap. eapply Forall_impl; [exact Hn|]. intros q Hq. simpl. by rewrite compatible_name.
Qed.

Context (interval : Z) (cluster_id profile : string) (namespaces : list string).
Context (Hpresets : forall key, presets_distinct (evidence_provider_queries key cluster_id profile namespaces)).

Abbreviation step := (rebase_provider interval cluster_id profile namespaces).

Definition rebased_provider (key : string) (o : option EvidenceProviderPolicy) : EvidenceProviderPolicy :=
  let defaults := compatible_queries key cluster_id profile namespaces in
  match o with
  | None => (default_evidence_provider_policy key interval cluster_id profile namespaces) <| ep_queries := defaults |>
  | Some p => p <| ep_queries := rebase_queries defaults profile_default_query_names (ep_queries p) |>
                <| ep_enabled := negb (Nat.eqb (length defaults) 0) |>
  end.

Lemma step_spec providers key : step providers key = dict_set key (rebased_provider key (dict_get key providers)) providers.
Proof. unfold rebase_provider, rebased_provider. by destruct (dict_get key providers). Qed.

(** Presets alone are their own rebase. *)
Lemma rebase_presets defaults reserved : presets_distinct defaults -> rebase_queries defaults reserved defaults = defaults.
Proof.
  intros Hd. assert (E : rebase_queries defaults reserved [] = defaults).
  { unfold rebase_queries. simpl. induction defaults as [|q l IH]; [done|].
  rewrite filter_cons_True by (apply not_elem_of_nil). f_equal.
    apply IH. destruct Hd as [H1 H2]. apply NoDup_cons in H1 as [_ H1]. apply Forall_cons in H2 as [_ H2]. by split. }
  pose proof (rebase_idempotent defaults reserved Hd []) as Hi. by rewrite E in Hi.
Qed.

Lemma rebased_provider_fixed key o : rebased_provider key (Some (rebased_provider key o)) = rebased_provider key o.
Proof.
  pose proof (compatible_distinct key cluster_id profile namespaces (Hpresets key)) as Hd. unfold rebased_provider.
  destruct o as [p|]; simpl.
  - by rewrite (rebase_idempotent _ _ Hd).
  - rewrite (rebase_presets _ _ Hd). unfold compatible_queries. rewrite length_map. unfold default_evidence_provider_policy. done.
Qed.

Lemma steps_get keys : forall providers key, key ∉ keys -> dict_get key (foldl step providers keys) = dict_get key providers.
Proof.
  induction keys as [|k keys IH]; intros providers key Hk; simpl; [done|]. rewrite IH by set_solver.
  rewrite step_spec. apply dict_get_set_ne. set_solver.
Qed.

Lemma steps_rebased keys : forall providers key, NoDup keys -> key ∈ keys ->
  dict_get key (foldl step providers keys) = Some (rebased_provider key (dict_get key providers)).
Proof.
  induction keys as [|k keys IH]; intros providers key Hnd Hk; [by apply not_elem_of_nil in Hk|]. simpl.
  apply NoDup_cons in Hnd as [Hn Hnd]. apply elem_of_cons in Hk as [->|Hk].
  - rewrite steps_get by done. by rewrite step_spec, dict_get_set_eq.
  - rewrite IH by done. rewrite step_spec, dict_get_set_ne; [done|]. set_solver.
Qed.

Lemma steps_fixed keys providers : NoDup keys -> foldl step (foldl step providers keys) keys = foldl step providers keys.
Proof.
  intros Hnd. set (P := foldl step providers keys).
  assert (H : forall l, l ⊆ keys -> foldl step P l = P); [|by apply H].
  induction l as [|key l IH]; intros Hl; simpl; [done|].
  assert (E : step P key = P); [|rewrite E; apply IH; set_solver].
  rewrite step_spec. unfold P. rewrite (steps_rebased keys providers key Hnd) by set_solver.
  rewrite rebased_provider_fixed. apply dict_set_same. apply steps_rebased; [done|set_solver].
Qed.

(** What the rebase makes of the evidence of a policy. *)
Definition rebased_evidence (e : EvidenceRuntimePolicy) : EvidenceRuntimePolicy :=
  e <| er_profile := profile |> <| er_providers := foldl step (er_providers e) EVIDENCE_PROVIDER_KEYS |>.

Lemma rebase_fixed p e : ap_evidence p = rebased_evidence e -> rebase_provider_queries p interval cluster_id profile
  namespaces = p.
Proof.
  assert (Hnd : NoDup EVIDENCE_PROVIDER_KEYS) by (apply (bool_decide_unpack _); by vm_compute). revert Hnd.
  unfold rebase_provider_queries, rebased_evidence. generalize EVIDENCE_PROVIDER_KEYS. intros keys Hnd He.
  destruct p as [c g r ev b d s]. simpl in He. subst ev. simpl. by rewrite steps_fixed.
Qed.
End Providers.

(** ** Images *)

Lemma with_image_idem image c : with_image image (with_image image c) = with_image image c.
Proof. destruct c; try done. simpl. by rewrite dict_set_set. Qed.

Lemma agent_container_image image c : is_agent_container (with_image image c) = is_agent_container c.
Proof. destruct c; try done. simpl. by rewrite dict_get_set_ne. Qed.

Lemma object_image image c : is_object (with_image image c) = is_object c.
Proof. by destruct c. Qed.

Definition moved (image : string) (containers : list json) : list json :=
  map (fun c => if is_agent_container c then with_image image c else c) containers.

Lemma moved_idem image l : moved image (moved image l) = moved image l.
Proof.
  unfold moved. rewrite map_map. apply map_ext. intros c. destruct (is_agent_container c) eqn:E; [|by rewrite E].
  by rewrite agent_container_image, E, with_image_idem.
Qed.

Lemma moved_objects image l : forallb is_object (moved image l) = forallb is_object l.
Proof. induction l as [|c l IH]; simpl; [done|]. rewrite IH. f_equal. case_match; [apply object_image|done]. Qed.

Lemma moved_count image l : length (List.filter is_agent_container (moved image l)) = length (List.filter is_agent_container l).
Proof.
  induction l as [|c l IH]; simpl; [done|]. destruct (is_agent_container c) eqn:E; rewrite ?agent_container_image, E;
    simpl; by rewrite IH.
Qed.

Lemma annotate_spec image t t' :
  annotate_template image t = Ok t' -> dict_get "spec" t' = dict_get "spec" t /\ annotate_template image t' = Ok t'.
Proof.
  unfold annotate_template. intros (m & Hm & (a & Ha & H)%result_bind_inv)%result_bind_inv. injection H as <-.
  split; [by apply dict_get_set_ne|]. unfold object_or_empty. rewrite dict_get_set_eq. cbn [mbind result_bind].
  rewrite dict_get_set_eq. cbn [mbind result_bind]. by rewrite !dict_set_set.
Qed.

(** The containers of a deployment. *)
Definition state_containers (state : odict json) : option (list json) :=
  match dict_get "spec" state with
  | Some (JObj spec) => match dict_get "template" spec with
                        | Some (JObj template) => match dict_get "spec" template with
                                                  | Some (JObj pod) => match dict_get "containers" pod with
                                                                       | Some (JArr l) => Some l
                                                                       | _ => None
                                                                       end
                                                  | _ => None
                                                  end
                        | _ => None
                        end
  | _ => None
  end.

Lemma set_image_spec image s s' :
  set_agent_image image s = Ok s' ->
  set_agent_image image s' = Ok s'
  /\ exists l, state_containers s' = Some (moved image l) /\ length (List.filter is_agent_container l) = 1%nat.
Proof.
  unfold set_agent_image at 1. destruct (dict_get "spec" s) as [[| | | | | |spec]|] eqn:H1; try done.
  destruct (dict_get "template" spec) as [[| | | | | |template]|] eqn:H2; try done.
  destruct (dict_get "spec" template) as [[| | | | | |pod]|] eqn:H3; try done.
  destruct (dict_get "containers" pod) as [[| | | | |l|]|] eqn:H4; try done.
  destruct (negb (forallb _ _)) eqn:Hobj; [done|]. destruct (negb (Nat.eqb _ _)) eqn:Hcount; [done|].
  intros (t' & Ht & H)%result_bind_inv. injection H as <-. fold (moved image l) in Ht.
  destruct (annotate_spec _ _ _ Ht) as [Hspec Hfix]. rewrite dict_get_set_eq in Hspec. split.
  - unfold set_agent_image. rewrite !dict_get_set_eq, Hspec, dict_get_set_eq. rewrite moved_objects, Hobj, moved_count, Hcount.
    fold (moved image (moved image l)). rewrite moved_idem, dict_set_set.
    rewrite (dict_set_same "spec" _ t' Hspec), Hfix. cbn [mbind result_bind]. by rewrite !dict_set_set.
  - exists l. split; [|by apply Nat.eqb_eq, negb_false_iff].
    unfold state_containers. by rewrite !dict_get_set_eq, Hspec, dict_get_set_eq.
Qed.

(** ** Objects *)

Section Objects.
Context `{urls : runtime_urls}.

Abbreviation not_config := (fun r => negb (is_runtime_config r)).

(** The objects the upgrade leaves: its config first, no other one, and one agent
    deployment at the image. *)
Record upgraded (image : string) (p : AgentPolicy) : Prop := {
  ug_config : exists id l, bp_resources (ap_bootstrap p) = runtime_config id image :: l /\ id <> "" /\ forallb not_config
    l = true;
  ug_others : forallb not_config (ds_resources (ap_desired_state p)) = true;
  ug_deployment : exists r, matching is_agent_deployment p = [r] /\ set_agent_image image (dr_state r) = Ok (dr_state r)
    /\ exists l, state_containers (dr_state r) = Some (moved image l) /\ length (List.filter is_agent_container l) = 1%nat;
}.

Lemma filter_all {X} (f : X -> bool) l : forallb f l = true -> List.filter f l = l.
Proof. induction l as [|x l IH]; simpl; [done|]. intros [-> Hl]%andb_true_iff. by rewrite IH. Qed.

Lemma filter_not {X} (f : X -> bool) l : forallb (fun x => negb (f x)) l = true -> List.filter f l = [].
Proof. induction l as [|x l IH]; simpl; [done|]. intros [Hx Hl]%andb_true_iff. apply negb_true_iff in Hx. by rewrite Hx, IH. Qed.

Lemma forallb_filter {X} (f : X -> bool) l : forallb f (List.filter f l) = true.
Proof. induction l as [|x l IH]; simpl; [done|]. destruct (f x) eqn:E; simpl; by rewrite ?E. Qed.

Lemma is_config id image : is_runtime_config (runtime_config id image) = true.
Proof. reflexivity. Qed.

Lemma config_fixed p payload : upgraded (tr_image payload) p -> runtime_config_resource p payload = Ok p.
Proof.
  destruct p as [c g r e [m b] [d] s]. intros [(id & l & Hb & Hid & Hl) Hd _]. simpl in *. subst b.
  unfold runtime_config_resource, matching, desired_resources. simpl.
  rewrite List.filter_app, (filter_not _ _ Hl), (filter_not _ _ Hd). simpl. rewrite (filter_all _ _ Hl).
  replace (String.eqb id "") with false by (symmetry; by apply String.eqb_neq).
  transitivity (Ok (Build_AgentPolicy c g r e (Build_BootstrapPolicy m (runtime_config id (tr_image payload) :: l))
    (Build_DesiredStatePolicy (List.filter not_config d)) s) : result string AgentPolicy); [reflexivity|].
  by rewrite (filter_all _ _ Hd).
Qed.

Lemma map_matching (f : DesiredResource -> DesiredResource) l :
  (forall r, r ∈ List.filter is_agent_deployment l -> f r = r) -> (forall r, is_agent_deployment r = false -> f r = r)
    -> map f l = l.
Proof.
  intros H1 H2. induction l as [|r l IH]; simpl in *; [done|]. destruct (is_agent_deployment r) eqn:E.
  - rewrite H1, IH; [done| |set_solver]. intros r' Hr'. apply H1. set_solver.
  - by rewrite (H2 r E), IH.
Qed.

Lemma deployment_fixed p payload : upgraded (tr_image payload) p -> deployment_resource p payload = Ok p.
Proof.
  intros [_ _ (r & Hm & Hs & _)]. unfold deployment_resource. rewrite Hm, Hs. cbn [mbind result_bind]. f_equal.
  set (f := fun x => _). unfold matching, desired_resources in Hm. rewrite List.filter_app in Hm.
  assert (Hf : forall x, x ∈ [r] -> f x = x).
  { intros x ->%list_elem_of_singleton. unfold f. case_match; [|done]. by destruct r. }
  assert (Hn : forall x, is_agent_deployment x = false -> f x = x) by (intros x Hx; unfold f; by rewrite Hx).
  rewrite <- Hm in Hf. destruct p as [c g ro e [m b] [d] s]. simpl in Hf.
  transitivity (Build_AgentPolicy c g ro e (Build_BootstrapPolicy m (map f b)) (Build_DesiredStatePolicy (map f d)) s);
    [reflexivity|].
  rewrite (map_matching f b), (map_matching f d); set_solver.
Qed.

(** A matching deployment is no config, and the other way round. *)
Lemma deployment_not_config r : is_agent_deployment r = true -> is_runtime_config r = false.
Proof. unfold is_agent_deployment, is_runtime_config. by destruct (dr_kind r). Qed.

(** Fields the upgrade of the objects does not touch. *)
Definition same_policy (p q : AgentPolicy) : Prop :=
  ap_cluster_id q = ap_cluster_id p /\ ap_generation q = ap_generation p /\ ap_cluster_role q = ap_cluster_role p
  /\ ap_evidence q = ap_evidence p.

Definition configured (image : string) (p : AgentPolicy) : Prop :=
  (exists id l, bp_resources (ap_bootstrap p) = runtime_config id image :: l /\ id <> "" /\ forallb not_config l = true)
  /\ forallb not_config (ds_resources (ap_desired_state p)) = true.

Lemma config_produces p payload q :
  runtime_config_resource p payload = Ok q -> same_policy p q /\ configured (tr_image payload) q.
Proof.
  unfold runtime_config_resource. destruct (matching is_runtime_config p) as [|x [|y l]]; [| |done]; intros [= <-];
    (split; [done|]);
    (split; [|apply (forallb_filter not_config)]); do 2 eexists; (split; [reflexivity|]); (split;
      [|apply (forallb_filter not_config)]).
  - done.
  - destruct (String.eqb (dr_resource_id x) "") eqn:E; [done|]. by apply String.eqb_neq.
Qed.

Lemma map_not_config (f : DesiredResource -> DesiredResource) l :
  (forall r, is_runtime_config (f r) = is_runtime_config r) -> forallb not_config (map f l) = forallb not_config l.
Proof. intros Hf. induction l as [|r l IH]; simpl; [done|]. by rewrite Hf, IH. Qed.

Lemma map_filter_deployment (f : DesiredResource -> DesiredResource) l :
  (forall r, is_agent_deployment (f r) = is_agent_deployment r) ->
  List.filter is_agent_deployment (map f l) = map f (List.filter is_agent_deployment l).
Proof. intros Hf. induction l as [|r l IH]; simpl; [done|]. rewrite Hf. destruct (is_agent_deployment r); simpl;
  by rewrite IH. Qed.

Lemma map_resources_spec f p :
  bp_resources (ap_bootstrap (map_resources f p)) = map f (bp_resources (ap_bootstrap p))
  /\ ds_resources (ap_desired_state (map_resources f p)) = map f (ds_resources (ap_desired_state p))
  /\ same_policy p (map_resources f p).
Proof. done. Qed.

Lemma deployment_produces p payload q :
  configured (tr_image payload) p -> deployment_resource p payload = Ok q -> same_policy p q /\ upgraded (tr_image payload) q.
Proof.
  intros [(id & l & Hb & Hid & Hl) Hd]. unfold deployment_resource.
  destruct (matching is_agent_deployment p) as [|r [|y rest]] eqn:Hm; [| |done]; intros (state & Hs & H)%result_bind_inv;
    injection H as <-.
  - destruct (set_image_spec _ _ _ Hs) as [Hfix Hl2]. split; [done|]. split.
    + by exists id, l.
    + simpl. rewrite forallb_app, Hd. done.
    + exists (new_agent_deployment state). split; [|by split]. unfold matching, desired_resources in *. simpl.
      rewrite app_assoc, List.filter_app, Hm. done.
  - destruct (set_image_spec _ _ _ Hs) as [Hfix Hl2]. set (f := fun x => _).
    assert (Hdep : forall x, is_agent_deployment (f x) = is_agent_deployment x) by (intros x; unfold f;
      by destruct (is_agent_deployment x) eqn:E).
    assert (Hcfg : forall x, is_runtime_config (f x) = is_runtime_config x) by (intros x; unfold f; by case_match).
    destruct (map_resources_spec f p) as (Hb' & Hd' & Hsame). split; [exact Hsame|]. split.
    + exists id, (map f l). rewrite Hb', Hb. split; [done|]. split; [done|]. by rewrite map_not_config.
    + by rewrite Hd', map_not_config.
    + exists (f r). unfold matching, desired_resources in *. rewrite Hb', Hd', <- map_app, map_filter_deployment, Hm by done.
      split; [done|]. assert (Hr : is_agent_deployment r = true).
      { assert (Hin : List.In r (List.filter is_agent_deployment (bp_resources (ap_bootstrap p)
        ++ ds_resources (ap_desired_state p)))) by (rewrite Hm; by left).
        by apply filter_In in Hin as [_ ?]. }
      unfold f. rewrite Hr. by split.
Qed.
End Objects.
