(* ===== verification/PolicyPlans.v ===== *)
(** Plans of the upgrade: applying one leaves nothing to plan, and what it plans is what
    the agent accepts. *)

From S2P Require Import Prelude PyString Json CommandHandler Transactions AgentPolicies PolicyServer PolicyUpgrade.
From S2P Require Import AgentControl PolicyRebase.
From Stdlib Require Import Sorted.
From coqutil Require Import Datatypes.RecordSettersUsingExistingGetters.
#[global] Open Scope Z_scope.

Arguments RecordSettersUsingExistingGetters.const {E} newValue _ /.

(** ** Settings *)

Section Settings.
Context (k : cluster_key) (image : string).

Lemma patch_keys settings payload key :
  key <> "image" -> key <> "otel_traces_endpoint" -> dict_get key (settings_patch settings image payload) = None.
Proof.
  intros H1 H2. unfold settings_patch. destruct (String.eqb _ image), (String.eqb _ (tr_otel_traces_endpoint payload)); simpl;
    by rewrite ?decide_False by done.
Qed.

Lemma patched_other settings payload key :
  key <> "image" -> key <> "otel_traces_endpoint" ->
  dict_get key (dict_update settings (settings_patch settings image payload)) = dict_get key settings.
Proof. intros H1 H2. apply dict_get_update_other. by apply patch_keys. Qed.

Lemma patched_image settings payload :
  setting_text "image" "" (dict_update settings (settings_patch settings image payload)) = image.
Proof.
  unfold settings_patch. destruct (String.eqb (setting_text "image" "" settings) image) eqn:E.
  - apply String.eqb_eq in E. transitivity (setting_text "image" "" settings); [|done]. unfold setting_text at 1.
    rewrite dict_get_update_other; [done|]. by destruct (String.eqb _ _).
  - assert (Hi : dict_get "image" (dict_update settings ([("image", JStr image)]
        ++ (if String.eqb (setting_text "otel_traces_endpoint" "" settings) (tr_otel_traces_endpoint payload) then []
            else [("otel_traces_endpoint", JStr (tr_otel_traces_endpoint payload))]))) = Some (JStr image)).
    { unfold dict_update. destruct (String.eqb _ (tr_otel_traces_endpoint payload)); simpl;
      rewrite ?dict_get_set_ne by done; apply dict_get_set_eq. }
    unfold setting_text at 1. rewrite Hi. destruct (String.eqb image "") eqn:Ei; [by apply String.eqb_eq in Ei|done].
Qed.

Lemma setting_text_get key d settings settings' :
  dict_get key settings' = dict_get key settings -> setting_text key d settings' = setting_text key d settings.
Proof. unfold setting_text. by intros ->. Qed.

Lemma patched_otel settings payload :
  let settings' := dict_update settings (settings_patch settings image payload) in
  setting_text "otel_traces_endpoint" "" settings' = tr_otel_traces_endpoint payload
  /\ (dict_get "otel_traces_endpoint" settings' = dict_get "otel_traces_endpoint" settings
      \/ dict_get "otel_traces_endpoint" settings' = Some (JStr (tr_otel_traces_endpoint payload))).
Proof.
  intros settings'. subst settings'. unfold settings_patch.
  destruct (String.eqb (setting_text "otel_traces_endpoint" "" settings) (tr_otel_traces_endpoint payload)) eqn:E.
  - rewrite app_nil_r. assert (Hg : dict_get "otel_traces_endpoint" (dict_update settings
      (if String.eqb (setting_text "image" "" settings) image then [] else [("image", JStr image)]))
        = dict_get "otel_traces_endpoint" settings).
    { apply dict_get_update_other. by destruct (String.eqb _ image). }
    split; [|by left]. apply String.eqb_eq in E. by rewrite (setting_text_get _ _ _ _ Hg).
  - assert (Hg : dict_get "otel_traces_endpoint" (dict_update settings
      ((if String.eqb (setting_text "image" "" settings) image then [] else [("image", JStr image)])
       ++ [("otel_traces_endpoint", JStr (tr_otel_traces_endpoint payload))])) = Some (JStr (tr_otel_traces_endpoint payload))).
    { unfold dict_update. destruct (String.eqb _ image); simpl; apply dict_get_set_eq. }
    split; [|by right]. unfold setting_text at 1. rewrite Hg. destruct (String.eqb _ "") eqn:Ei; [|done].
    by apply String.eqb_eq in Ei.
Qed.

(** The registration stands for the same request after the patch. *)
Lemma payload_patched settings payload :
  registration_payload k settings image = Ok payload ->
  registration_payload k (dict_update settings (settings_patch settings image payload)) image = Ok payload.
Proof.
  destruct (patched_otel settings payload) as [_ Hotel]. revert Hotel.
  set (settings' := dict_update _ _). intros Hotel.
  assert (Hother : forall key, key <> "image" -> key <> "otel_traces_endpoint" -> dict_get key settings' = dict_get key settings)
    by (intros key; apply patched_other).
  unfold registration_payload, field_role, field_text, field_interval, field_bool, sample_configured, setting_text.
  rewrite (Hother "cluster_role"), (Hother "management_base_url"), (Hother "environment"), (Hother "loki_base_url"),
    (Hother "tempo_base_url"), (Hother "evidence_interval_seconds"), (Hother "control_namespaces"),
      (Hother "install_node_collector"),
    (Hother "install_sample_workload"), (Hother "sample_workload_name"), (Hother "sample_workload_image") by done.
  destruct Hotel as [Hotel|Hotel]; [by rewrite Hotel|]. rewrite Hotel. clear.
  repeat match goal with |- mbind _ ?m = Ok payload -> _ => destruct m as [?|?]; cbn [mbind result_bind]; [|done] end.
  destruct (negb _); [done|]. intros [= <-]. f_equal. unfold with_otel_default. simpl.
  match goal with r : role |- _ => destruct r end; simpl; [done|].
  match goal with |- context [String.eqb (strip ?x) ""] => is_var x; destruct (String.eqb (strip x) "") eqn:E end; simpl; [done|].
  by rewrite E.
Qed.
End Settings.

(** ** Rows of the components *)

Section Rows.

Abbreviation name := dc_component.

Definition row_before (a b : desired_component) : Prop := String.leb (name a) (name b) = true /\ name a <> name b.

(** Rows in the order of their names, as the table returns them. *)
Definition rows_ordered : list desired_component -> Prop := StronglySorted row_before.

Definition find_row (n : string) (rows : list desired_component) : option desired_component :=
  List.find (fun r => String.eqb (name r) n) rows.

Lemma row_before_trans a b c : row_before a b -> row_before b c -> row_before a c.
Proof.
  intros [H1 H2] [H3 H4]. split; [by eapply leb_trans|]. intros E. apply H2. apply String.leb_antisym; [done|]. by rewrite E.
Qed.

Lemma put_head_before r c rows : row_before r c -> Forall (row_before r) rows -> Forall (row_before r) (put_component c rows).
Proof.
  intros Hc. induction rows as [|x rows IH]; simpl; intros Hr; [by constructor|]. apply Forall_cons in Hr as [Hx Hr].
  destruct (String.eqb _ _); [by constructor|]. destruct (String.leb _ _); constructor; auto.
Qed.

Lemma put_ordered c rows : rows_ordered rows -> rows_ordered (put_component c rows).
Proof.
  unfold rows_ordered. induction 1 as [|r rows Hs IH Hr]; simpl; [by repeat constructor|].
  destruct (String.eqb (name r) (name c)) eqn:E.
  - apply String.eqb_eq in E. constructor; [done|]. eapply Forall_impl; [exact Hr|]. intros x [H1 H2].
    split; [by rewrite <- E|by rewrite <- E].
  - apply String.eqb_neq in E. destruct (String.leb (name c) (name r)) eqn:Hle.
    + assert (Hc : row_before c r) by (split; [done|by intros ?; apply E]). constructor; [by constructor|]. constructor; [done|].
      eapply Forall_impl; [exact Hr|]. intros x. by apply row_before_trans.
    + constructor; [exact IH|]. apply put_head_before; [|done]. split; [|done].
      destruct (String.leb_total (name r) (name c)); [done|congruence].
Qed.

Lemma find_put_eq c rows : find_row (name c) (put_component c rows) = Some c.
Proof.
  unfold find_row. induction rows as [|r rows IH]; simpl; [by rewrite String.eqb_refl|].
  destruct (String.eqb (name r) (name c)) eqn:E; simpl; [by rewrite String.eqb_refl|].
  destruct (String.leb _ _); simpl; [by rewrite String.eqb_refl|by rewrite E].
Qed.

Lemma find_put_ne n c rows : n <> name c -> find_row n (put_component c rows) = find_row n rows.
Proof.
  intros Hn. assert (Hc : String.eqb (name c) n = false) by (by apply String.eqb_neq; intros <-).
  unfold find_row. induction rows as [|r rows IH]; simpl; [by rewrite Hc|].
  destruct (String.eqb (name r) (name c)) eqn:E; simpl.
  - apply String.eqb_eq in E. by rewrite E, Hc.
  - destruct (String.leb _ _); simpl; [by rewrite Hc|by rewrite IH].
Qed.

Lemma put_same rows c : rows_ordered rows -> find_row (name c) rows = Some c -> put_component c rows = rows.
Proof.
  unfold rows_ordered, find_row. induction 1 as [|r rows Hs IH Hr]; simpl; [done|].
  destruct (String.eqb (name r) (name c)) eqn:E; [by intros [= ->]|]. intros Hf. rewrite IH by done.
  destruct (String.leb (name c) (name r)) eqn:Hle; [|done]. apply find_some in Hf as [Hin _]. apply list_elem_of_In in Hin.
  rewrite Forall_forall in Hr. destruct (Hr c Hin) as [H1 H2]. destruct H2. by apply String.leb_antisym.
Qed.

Lemma find_name n rows r : find_row n rows = Some r -> name r = n.
Proof. unfold find_row. intros [_ H]%find_some. by apply String.eqb_eq. Qed.

Abbreviation at_image p row := (row <| dc_version := tr_image p |>).

(** The row of a component in the plan. *)
Definition planned_row (p : TargetRegisterRequest) (rows : list desired_component) (c : desired_component) : desired_component :=
  at_image p (default c (find_row (name c) rows)).

Lemma planned_name p rows c : name (planned_row p rows c) = name c.
Proof. unfold planned_row. simpl. destruct (find_row _ _) eqn:E; [by apply find_name in E|done]. Qed.

Lemma planned_rows p existing :
  target_desired_state_rows p existing =
    foldl (fun rows c => put_component (planned_row p rows c) rows) existing (target_desired_components p).
Proof. reflexivity. Qed.

Lemma find_ordered rows r : rows_ordered rows -> r ∈ rows -> find_row (name r) rows = Some r.
Proof.
  unfold rows_ordered, find_row. induction 1 as [|x rows Hs IH Hx]; intros Hr; [by apply not_elem_of_nil in Hr|]. simpl.
  apply elem_of_cons in Hr as [->|Hr]; [by rewrite String.eqb_refl|].
  rewrite Forall_forall in Hx. destruct (Hx r Hr) as [_ Hne]. destruct (String.eqb (name x) (name r)) eqn:E; [|by apply IH].
  by apply String.eqb_eq in E.
Qed.

Lemma plans_ordered p cs : forall rows, rows_ordered rows -> rows_ordered (foldl (fun rows c => put_component (planned_row
  p rows c) rows) rows cs).
Proof. induction cs as [|c cs IH]; intros rows Hr; simpl; [done|]. by apply IH, put_ordered. Qed.

(** Every component has its row, at the image. *)
Definition moved_row (p : TargetRegisterRequest) (rows : list desired_component) (n : string) : Prop :=
  exists row, find_row n rows = Some row /\ dc_version row = tr_image p.

Lemma plans_moved p cs : forall rows n,
  n ∈ map name cs \/ moved_row p rows n -> moved_row p (foldl (fun rows c => put_component (planned_row p rows c) rows)
    rows cs) n.
Proof.
  induction cs as [|c cs IH]; intros rows n Hn; simpl; [destruct Hn as [Hn|Hn]; [by apply not_elem_of_nil in Hn|done]|].
  apply IH. destruct (decide (n = name c)) as [->|Hne].
  - right. exists (planned_row p rows c). split; [|done]. rewrite <- (planned_name p rows c) at 1. apply find_put_eq.
  - destruct Hn as [Hn|(row & Hf & Hv)]; [left; csimpl in Hn; set_solver|right]. exists row. split; [|done].
    by rewrite find_put_ne by (by rewrite planned_name).
Qed.

(** Rows that are planned again stay as they are. *)
Lemma plans_fixed p cs rows :
  rows_ordered rows -> (forall n, n ∈ map name cs -> moved_row p rows n) ->
  foldl (fun rows c => put_component (planned_row p rows c) rows) rows cs = rows.
Proof.
  intros Hr. induction cs as [|c cs IH]; intros Hm; simpl; [done|].
  destruct (Hm (name c)) as (row & Hf & Hv); [csimpl; set_solver|].
  assert (E : planned_row p rows c = row) by (unfold planned_row; rewrite Hf; simpl; rewrite <- Hv; by destruct row).
  rewrite E, put_same; [|done|by rewrite (find_name _ _ _ Hf)]. apply IH. intros n Hn. apply Hm. csimpl. set_solver.
Qed.

(** The upserts of the transaction. *)
Lemma upserts_ordered actor l : forall rows, rows_ordered rows -> rows_ordered (foldl (upsert_target_desired_state actor
  true) rows l).
Proof. induction l as [|c l IH]; intros rows Hr; simpl; [done|]. by apply IH, put_ordered. Qed.

Lemma upserts_moved p actor l : forall rows n,
  (forall r, r ∈ l -> name r = n -> dc_version r = tr_image p) -> (exists r, r ∈ l /\ name r = n) \/ moved_row p rows n ->
  moved_row p (foldl (upsert_target_desired_state actor true) rows l) n.
Proof.
  induction l as [|c l IH]; intros rows n Hv Hn; simpl.
  { destruct Hn as [(r & Hr & _)|Hn]; [by apply not_elem_of_nil in Hr|done]. }
  apply IH; [intros r Hr; apply Hv; set_solver|]. unfold upsert_target_desired_state. set (c' := _ <| dc_spec := _ |>).
  assert (Hc' : name c' = name c /\ dc_version c' = dc_version c) by done. destruct Hc' as [Hname Hver].
  destruct (decide (n = name c)) as [->|Hne].
  - right. exists c'. rewrite Hver. split; [rewrite <- Hname; apply find_put_eq|]. apply Hv; [set_solver|done].
  - destruct Hn as [(r & Hr & <-)|(row & Hf & Hrow)].
    + apply elem_of_cons in Hr as [->|Hr]; [done|]. left. by exists r.
    + right. exists row. split; [|done]. by rewrite find_put_ne by (by rewrite Hname).
Qed.

Lemma component_names p : map name (target_desired_components p) = [CLUSTER_AGENT; NODE_COLLECTOR].
Proof. reflexivity. Qed.

(** What the transaction stores needs no further plan. *)
Lemma rows_settle p actor existing :
  rows_ordered existing ->
  let planned := base.filter (fun c => is_runtime_component c = true) (target_desired_state_rows p existing) in
  let stored := foldl (upsert_target_desired_state actor true) existing planned in
  rows_ordered stored /\ target_desired_state_rows p stored = stored.
Proof.
  intros He planned stored. assert (Hs : rows_ordered stored) by (by apply upserts_ordered). split; [done|].
  rewrite planned_rows. apply plans_fixed; [done|]. intros n Hn. rewrite component_names in Hn.
  assert (Hp : rows_ordered (target_desired_state_rows p existing)) by (rewrite planned_rows; by apply plans_ordered).
  destruct (plans_moved p (target_desired_components p) existing n) as (row & Hf & Hv); [left; by rewrite component_names|].
  rewrite <- planned_rows in Hf. apply upserts_moved.
  - intros r [_ Hr]%list_elem_of_filter Hrn. pose proof (find_ordered _ _ Hp Hr) as Hf2. rewrite Hrn in Hf2. congruence.
  - left. exists row. split; [|by apply find_name in Hf]. apply list_elem_of_filter. split.
    + apply find_name in Hf. unfold is_runtime_component. rewrite Hf. set_unfold in Hn. by destruct Hn as [->|[->|[]]].
    + unfold find_row in Hf. apply find_some in Hf as [Hin _]. by apply list_elem_of_In.
Qed.
End Rows.

(** ** What is planned *)

Section Planned.
Context `{presets : evidence_presets} `{urls : runtime_urls}.

(** A plan that is applied, read by its parts. *)
Lemma plan_inv image c plan :
  build_target_upgrade_plan image c = Ok plan ->
  (pn_policy plan = None /\ pn_changed plan = false)
  \/ exists im payload rebased,
    let current := base_or_default (uc_key c).2 (uc_policy c) in
    let settings := rg_settings (uc_registration c) in
    let moved := negb (same_dump rebased current) in
    require_target_image_digest image = Ok im /\ String.eqb (ap_cluster_id current) (uc_key c).2 = true
    /\ cluster_role_from_registration (Some (registration_row (uc_registration c))) = TARGET_CLUSTER_ROLE
    /\ ap_cluster_role current = role_target
    /\ registration_payload (uc_key c) settings im = Ok payload /\ rebased_policy c current payload = Ok rebased
    /\ pn_key plan = uc_key c /\ pn_policy_existed plan = bool_decide (is_Some (uc_policy c))
    /\ pn_registration_id plan = rg_id (uc_registration c)
    /\ pn_settings_patch plan = settings_patch settings im payload
    /\ pn_desired_states plan = target_desired_state_rows payload (uc_desired_states c)
    /\ pn_current_generation plan = ap_generation current
    /\ pn_next_generation plan = (if moved then ap_generation current + 1 else ap_generation current)
    /\ pn_policy plan = Some (if moved then rebased <| ap_generation := ap_generation current + 1 |> else rebased).
Proof.
  unfold build_target_upgrade_plan. intros (im & Him & H)%result_bind_inv.
  destruct (negb (String.eqb (ap_cluster_id _) _)) eqn:Hid; [done|]. apply negb_false_iff in Hid.
  destruct (negb (_ || _)) eqn:Hrole; [injection H as <-; by left|]. apply negb_false_iff, orb_true_iff in Hrole.
  destruct (_ || _) eqn:Hmgmt in H; [injection H as <-; by left|]. apply orb_false_iff in Hmgmt as [Hm1 Hm2].
  destruct Hrole as [Hrole|Hrole]; [|congruence]. apply String.eqb_eq in Hrole. apply bool_decide_eq_false_1 in Hm2.
  apply result_bind_inv in H as (payload & Hpay & H). apply result_bind_inv in H as (rebased & Hreb & H). injection H as <-.
  right. exists im, payload, rebased. repeat (split; [done|]). split; [by destruct (ap_cluster_role _)|].
  repeat (split; [done|]). simpl. by destruct (negb (same_dump _ _)).
Qed.

Lemma digest_stripped image im : require_target_image_digest image = Ok im -> require_target_image_digest im = Ok im.
Proof.
  unfold require_target_image_digest. destruct (is_image_digest (strip image)) eqn:E; [|done]. intros [= <-].
  by rewrite strip_idem, E.
Qed.

Lemma config_allowed cfg id image im :
  ac_cluster_role cfg = role_target -> require_target_image_digest image = Ok im -> ensure_allowed cfg (runtime_config id
    im) = Ok tt.
Proof.
  intros Hr Him%digest_stripped. unfold ensure_allowed, expected_namespace. rewrite Hr. simpl.
  unfold ensure_runtime_image_patch. simpl. rewrite Him. cbn [mbind result_bind]. by rewrite String.eqb_refl.
Qed.

Lemma new_deployment_allowed cfg state : ac_cluster_role cfg = role_target -> ensure_allowed cfg (new_agent_deployment
  state) = Ok tt.
Proof. intros Hr. unfold ensure_allowed, expected_namespace. by rewrite Hr. Qed.

Lemma payload_image k settings image payload : registration_payload k settings image = Ok payload -> tr_image payload = image.
Proof.
  unfold registration_payload. repeat (intros (? & _ & H)%result_bind_inv; revert H). destruct (negb _); [done|]. intros [= <-].
  unfold with_otel_default. simpl. by repeat case_match.
Qed.

(** Removing configs removes no deployment. *)
Lemma deployments_left l :
  List.filter is_agent_deployment (List.filter (fun r => negb (is_runtime_config r)) l) = List.filter is_agent_deployment l.
Proof.
  induction l as [|r l IH]; simpl; [done|]. destruct (is_agent_deployment r) eqn:E.
  - rewrite (deployment_not_config _ E). simpl. by rewrite E, IH.
  - destruct (negb _); simpl; by rewrite ?E.
Qed.

Lemma config_deployments p payload q :
  runtime_config_resource p payload = Ok q -> matching is_agent_deployment q = matching is_agent_deployment p.
Proof.
  unfold runtime_config_resource. destruct (matching is_runtime_config p) as [|x [|y l]]; [| |done]; intros [= <-];
    unfold matching, desired_resources; simpl; by rewrite !List.filter_app, !deployments_left.
Qed.

Lemma added_deployment p payload q :
  deployment_resource p payload = Ok q -> matching is_agent_deployment p = [] ->
  exists state, matching is_agent_deployment q = [new_agent_deployment state].
Proof.
  unfold deployment_resource. intros H Hm. rewrite Hm in H. apply result_bind_inv in H as (state & _ & H). injection H as <-.
  exists state. unfold matching, desired_resources in *. simpl. by rewrite app_assoc, List.filter_app, Hm.
Qed.

(** C36. What the upgrade plans is what the agents accept: a planned policy asks for the
    runtime config at the image, which passes the allowlist of every target agent, and
    for exactly one deployment of the agent, whose one agent container has the image;
    a deployment the plan itself adds passes the allowlist too.  The generation rises
    by one exactly when the policy changes. *)
Theorem upgrade_plan_accepted image key r t plan p :
  build_target_upgrade_plan image (candidate_of t (key, r)) = Ok plan -> pn_policy plan = Some p ->
  let current := base_or_default key.2 (sv_policies t !! key) in
  exists im id d containers, require_target_image_digest image = Ok im
    /\ runtime_config id im ∈ desired_resources p /\ matching is_agent_deployment p = [d]
    /\ state_containers (dr_state d) = Some (moved im containers) /\ length (List.filter is_agent_container containers) = 1%nat
    /\ (forall cfg, ac_cluster_role cfg = role_target ->
          ensure_allowed cfg (runtime_config id im) = Ok tt
          /\ (matching is_agent_deployment current = [] -> ensure_allowed cfg d = Ok tt))
    /\ (ap_generation p = ap_generation current + 1 /\ same_dump p current = false
        \/ ap_generation p = ap_generation current /\ same_dump p current = true).
Proof.
  intros Hplan Hp current.
  destruct (plan_inv _ _ _ Hplan) as [[? _]|(im & payload & rebased & Him & _ & _ & _ & Hpay & Hreb & _ & _ & _ & _ & _ &
    _ & _ & Hpol)];
    [congruence|]. simpl in *. fold current in Hreb, Hpol. rewrite Hp in Hpol. injection Hpol as Hpol.
  pose proof (payload_image _ _ _ _ Hpay) as Hi. unfold rebased_policy in Hreb.
  apply result_bind_inv in Hreb as (q & Hconf & Hdep). destruct (config_produces _ _ _ Hconf) as [(_ & Hg1 & _) Hcfg].
  destruct (deployment_produces _ _ _ Hcfg Hdep) as [(_ & Hg2 & _) Hup]. simpl in Hg1.
  assert (Hsame : upgraded im p /\ matching is_agent_deployment p = matching is_agent_deployment rebased)
    by (rewrite Hi in Hup; destruct Hup; subst p; by case_match).
  destruct Hsame as [[(id & l & Hb & _) _ (d & Hd & _ & containers & Hc & Hone)] Hmatch].
  exists im, id, d, containers. split; [done|]. split.
  { unfold desired_resources. rewrite Hb. set_solver. }
  do 3 (split; [done|]). split.
  - intros cfg Hcfgrole. split; [by eapply config_allowed|]. intros Hnone.
    destruct (added_deployment _ _ _ Hdep) as [state Hs]; [by rewrite (config_deployments _ _ _ Hconf)|].
    rewrite <- Hmatch, Hd in Hs. injection Hs as ->. by apply new_deployment_allowed.
  - subst p. destruct (same_dump rebased current) eqn:Hsd; simpl; [right|left]; (split; [by rewrite ?Hg2|]); exact Hsd.
Qed.
End Planned.

(** ** A second plan *)

Section Settled.
Context `{presets : evidence_presets} `{urls : runtime_urls}.
Context (Hpresets : forall key cluster_id profile namespaces,
  presets_distinct (evidence_provider_queries key cluster_id profile namespaces)).

(** The policy of a plan, whatever its generation, is its own rebase. *)
Lemma rebased_fixed c c' current payload rebased generation :
  uc_key c' = uc_key c -> rebased_policy c current payload = Ok rebased ->
  let next := rebased <| ap_generation := generation |> in
  rebased_policy c' next payload = Ok next /\ ap_cluster_id rebased = ap_cluster_id current
  /\ ap_cluster_role rebased = ap_cluster_role current /\ upgraded (tr_image payload) rebased.
Proof.
  intros Hk. unfold rebased_policy. rewrite Hk.
  set (profile := evidence_profile_for_registration _ _ _). set (namespaces := control_namespace_tuple _).
  set (first := rebase_provider_queries _ _ _ _ _). intros (p & Hconf & Hdep)%result_bind_inv.
  destruct (config_produces _ _ _ Hconf) as [(Hc1 & _ & Hr1 & He1) Hcfg].
  destruct (deployment_produces _ _ _ Hcfg Hdep) as [(Hc2 & _ & Hr2 & He2) Hup].
  set (next := rebased <| ap_generation := generation |>).
  assert (Hnext : upgraded (tr_image payload) next) by (destruct Hup; by split).
  split; [|by rewrite Hc2, Hc1, Hr2, Hr1].
  rewrite (rebase_fixed _ _ _ _ (fun key => Hpresets key (uc_key c).2 profile namespaces) next (ap_evidence current)).
  - rewrite (config_fixed _ _ Hnext). cbn [mbind result_bind]. by apply deployment_fixed.
  - unfold next. simpl. by rewrite He2, He1.
Qed.

Definition patched (plan : TargetUpgradePlan) (r : registration) : registration :=
  r <| rg_settings ::= fun s => dict_update s (pn_settings_patch plan) |>.

(** What a changed plan leaves in the tables. *)
Lemma applied_tables plan p r t t' :
  pn_policy plan = Some p -> pn_changed plan = true -> sv_registrations t !! pn_key plan = Some r ->
  apply_target_runtime_upgrade plan t = Ok t' ->
  sv_registrations t' !! pn_key plan = Some (patched plan r)
  /\ sv_policies t' !! pn_key plan = (if pn_current_generation plan <? pn_next_generation plan then Some p else
    sv_policies t !! pn_key plan)
  /\ sv_desired t' !! pn_key plan
     = Some (foldl (upsert_target_desired_state (Some UPGRADE_ACTOR) true) (default [] (sv_desired t !! pn_key plan))
               (base.filter (fun c => is_runtime_component c = true) (pn_desired_states plan))).
Proof.
  unfold apply_target_runtime_upgrade. intros -> -> Hr. cbn [negb].
  intros (t1 & H1 & (t2 & H2 & H)%result_bind_inv)%result_bind_inv. injection H as <-.
  assert (A : sv_registrations t1 = sv_registrations t /\ sv_desired t1 = sv_desired t
    /\ sv_policies t1 !! pn_key plan = (if pn_current_generation plan <? pn_next_generation plan then Some p else
      sv_policies t !! pn_key plan)).
  { unfold swap_policy in H1. destruct (_ <? _); [|by injection H1 as <-].
    assert (Hst : t1 = store_policy (pn_key plan) p t)
      by (destruct (sv_policies t !! pn_key plan); repeat case_match; simplify_eq; done).
    subst t1. simpl. by rewrite lookup_insert_eq. }
  destruct A as (A1 & A2 & A3). unfold patch_registration in H2. unfold patched.
  destruct (pn_settings_patch plan) as [|e patch] eqn:Hp.
  - injection H2 as <-. simpl. rewrite lookup_insert_eq, A2. split; [|by split]. rewrite A1, Hr. by destruct r.
  - rewrite A1, Hr in H2. destruct (_ && _); [|done]. injection H2 as <-. simpl. rewrite !lookup_insert_eq, A2. by split.
Qed.

Lemma settings_patched settings im payload :
  settings_patch (dict_update settings (settings_patch settings im payload)) im payload = [].
Proof.
  unfold settings_patch at 1. rewrite patched_image. rewrite (proj1 (patched_otel im settings payload)).
  by rewrite !String.eqb_refl.
Qed.

(** C17. The upgrade is idempotent: once a plan of a registration was applied, planning
    the same image again for what the tables now hold finds nothing to change, neither
    in the policy nor in the registration nor in the rows of its components. *)
Theorem upgrade_settles image key r t t' plan :
  sv_registrations t !! key = Some r -> rows_ordered (default [] (sv_desired t !! key)) ->
  build_target_upgrade_plan image (candidate_of t (key, r)) = Ok plan -> apply_target_runtime_upgrade plan t = Ok t' ->
  exists r' plan', sv_registrations t' !! key = Some r'
    /\ build_target_upgrade_plan image (candidate_of t' (key, r')) = Ok plan' /\ pn_changed plan' = false.
Proof.
  intros Hr Hrows Hplan Happ. destruct (pn_changed plan) eqn:Hchanged.
  2: { assert (t' = t) as -> by (unfold apply_target_runtime_upgrade in Happ; rewrite Hchanged in Happ;
    destruct (pn_policy plan); by injection Happ as <-).
       by exists r, plan. }
  destruct (plan_inv _ _ _ Hplan) as [[_ ?]|(im & payload & rebased & Him & Hid & Hrole & Hcr & Hpay & Hreb & Hkey & _ & _
    & Hpatch & Hds & Hcur & Hnext & Hpol)];
    [congruence|]. simpl in *. set (current := base_or_default key.2 (sv_policies t !! key)) in *.
  rewrite <- Hkey in Hr. destruct (applied_tables _ _ _ _ _ Hpol Hchanged Hr Happ) as (Hr' & Hp' & Hd').
  rewrite Hkey in Hr', Hp', Hd'.
  rewrite Hcur, Hnext in Hp'. rewrite Hds in Hd'. clear Hplan Happ. exists (patched plan r).
  set (c' := candidate_of t' (key, patched plan r)). set (current' := base_or_default key.2 (sv_policies t' !! key)).
  assert (Hrebased : exists rebased', rebased_policy c' current' payload = Ok rebased' /\ same_dump rebased' current' = true
    /\ ap_cluster_id current' = ap_cluster_id current /\ ap_cluster_role current' = ap_cluster_role current).
  { destruct (rebased_fixed (candidate_of t (key, r)) c' current payload rebased (ap_generation current + 1) eq_refl Hreb)
    as (Hfix & Hi & Hro & _).
    destruct (same_dump rebased current) eqn:Hsame; simpl in Hp'.
    - rewrite Z.ltb_irrefl in Hp'. unfold current'. rewrite Hp'. by exists rebased.
    - replace (ap_generation current <? ap_generation current + 1) with true in Hp' by (symmetry; apply Z.ltb_lt; lia).
      unfold current'. rewrite Hp'. simpl. eexists. split; [exact Hfix|]. split; [apply same_dump_refl|].
      by rewrite <- Hi, <- Hro. }
  destruct Hrebased as (rebased' & Hreb' & Hsame & Hi & Hro).
  assert (Hset : rg_settings (patched plan r) = dict_update (rg_settings r) (settings_patch (rg_settings r) im payload))
    by (unfold patched; simpl; by rewrite Hpatch).
  assert (Hrole' : cluster_role_from_registration (Some (registration_row (patched plan r))) = TARGET_CLUSTER_ROLE).
  { rewrite <- Hrole. unfold cluster_role_from_registration, registration_row. simpl. rewrite Hpatch.
  unfold cluster_role_from_settings.
    by rewrite patched_other. }
  destruct (rows_settle payload (Some UPGRADE_ACTOR) _ Hrows) as [_ Hfixed].
  eexists. split; [exact Hr'|]. unfold build_target_upgrade_plan. rewrite Him. cbn [mbind result_bind].
  change (uc_key c') with key. change (uc_policy c') with (sv_policies t' !! key). fold current'.
  change (uc_registration c') with (patched plan r). change (uc_desired_states c') with (default [] (sv_desired t' !! key)).
  rewrite Hi, Hid, Hrole', Hro, Hcr, Hset. cbn [negb orb]. change (String.eqb TARGET_CLUSTER_ROLE TARGET_CLUSTER_ROLE) with true.
  change (String.eqb TARGET_CLUSTER_ROLE MANAGEMENT_CLUSTER_ROLE) with false. cbn [negb orb].
  rewrite bool_decide_eq_false_2 by done. rewrite (payload_patched key im _ _ Hpay). cbn [mbind result_bind].
  rewrite Hreb'. cbn [mbind result_bind]. split; [reflexivity|]. simpl.
  rewrite Hsame, settings_patched, Hd'. simpl. rewrite Hfixed. unfold same_rows. by rewrite String.eqb_refl.
Qed.

End Settled.
