(* ===== verification/PolicyScenarios.v ===== *)
(** A cluster from its registration through an upgrade of its agent, and the theorems
    applied to it. *)

From S2P Require Import Prelude PyString Json CommandHandler Transactions Concurrent AgentPolicies PolicyServer PolicyUpgrade.
From S2P Require Import AgentControl PolicyRuns PolicyRoutes PolicySafety PolicyEnds PolicyReconcile PolicyRebase PolicyPlans.
From Stdlib Require Import Sorted.
From stdpp Require Import relations.
From coqutil Require Import Datatypes.RecordSettersUsingExistingGetters.
#[global] Open Scope Z_scope.

Arguments RecordSettersUsingExistingGetters.const {E} newValue _ /.

(** ** Tasks that run without interruption *)

Section Uninterrupted.
Context `{compiler : query_compiler} `{presets : evidence_presets} `{urls : runtime_urls} (sha256_hex : string -> string)
  (cfg : agent_config).

Abbreviation machine_runs := (rtc (machine_step sha256_hex cfg)).

(** The place of a program in the machine. *)
Lemma runs_alone {A} (place : world -> world_prog A -> machine) :
  (forall w p w' p', prog_step w p w' p' -> machine_step sha256_hex cfg (place w p) (place w' p')) ->
  forall p w, exists p', finished p' /\ machine_runs (place w p) (place (alone p w).2 p').
Proof.
  intros Hplace p. induction p as [x|e|f IH] using prog_ind_strong; intros w; simpl; [by exists (Ret x)|by exists (Raise e)|].
  destruct (f w) as [[w1 p1]|e] eqn:Hf.
  - destruct (IH _ _ _ Hf w1) as (p' & Hp' & Hr). exists p'. split; [done|]. eapply rtc_l; [|exact Hr].
    apply Hplace. simpl. by rewrite Hf.
  - exists (Raise e). split; [done|]. apply rtc_once, Hplace. simpl. by rewrite Hf.
Qed.

Lemma route_alone p w s r : route_starts p ->
  machine_runs (Build_machine w [] s r) (Build_machine (alone (on_server p) w).2 [] s r).
Proof.
  intros Hp. eapply rtc_l; [by apply (route_start _ _ w [] s r p)|]. simpl.
  destruct (runs_alone (fun w p => Build_machine w [p] s r)) with (p := on_server p) (w := w) as (p' & _ & Hr).
  - intros w1 p1 w2 p2 Hs. by apply (route_run _ _ w1 [p1] s r 0 p1 w2 p2).
  - eapply rtc_r; [exact Hr|]. apply (route_end _ _ _ [p'] s r 0).
Qed.

Lemma sync_alone i w ps s r : finished s ->
  exists s', finished s' /\ machine_runs (Build_machine w ps s r)
    (Build_machine (alone (forget (sync_once sha256_hex cfg i)) w).2 ps s' r).
Proof.
  intros Hf. destruct (runs_alone (fun w p => Build_machine w ps p r)) with (p := forget (sync_once sha256_hex cfg i))
    (w := w) as (s' & Hs' & Hr).
  - intros w1 p1 w2 p2 Hs. by apply sync_run.
  - exists s'. split; [done|]. eapply rtc_l; [by apply sync_start|exact Hr].
Qed.

Lemma reconcile_alone now answers snapshot d w ps s r : finished r ->
  exists r', finished r' /\ machine_runs (Build_machine w ps s r)
    (Build_machine (alone (reconcile_and_report sha256_hex cfg now answers snapshot d) w).2 ps s r').
Proof.
  intros Hf. destruct (runs_alone (fun w p => Build_machine w ps s p))
    with (p := reconcile_and_report sha256_hex cfg now answers snapshot d) (w := w) as (r' & Hr' & Hr).
  - intros w1 p1 w2 p2 Hs. by apply reconcile_run.
  - exists r'. split; [done|]. eapply rtc_l; [by apply reconcile_start|exact Hr].
Qed.
End Uninterrupted.

(** ** One cluster *)

Module Cluster.
#[export] Instance compiler : query_compiler :=
  {| source_for_provider := fun key => if String.eqb key "metrics" then Some "prometheus" else None;
     compile_policy_query_definition := fun _ _ q => match query_name q with Some n => Ok n |
       None => Err "query has no name" end |}.

#[export] Instance presets : evidence_presets :=
  {| evidence_provider_queries := fun key cluster_id profile namespaces =>
       if String.eqb key "metrics" then [[("source", JStr "prometheus"); ("name", JStr "target_pod_info")]]
       else if String.eqb key "kubernetes" then [[("source", JStr "kubernetes"); ("name", JStr "target_namespace_snapshot")]]
       else [] |}.

#[export] Instance urls : runtime_urls := {| derive_realtime_gateway_url := fun url _ => url |}.

Definition hash (s : string) : string := s.

Definition cfg : agent_config :=
  {| ac_workspace_id := "w1"; ac_cluster_id := "c1"; ac_cluster_role := role_target; ac_argocd := false;
     ac_default_policy := build_default_policy "c1" role_target role_target "allow_partial" 30 [] [] ["kubernetes"; "metrics"] |}.

Definition empty_server : server :=
  {| sv_registrations := ∅; sv_next_id := 1; sv_policies := ∅; sv_history := []; sv_policy_status := [];
    sv_reconcile_status := [];
     sv_desired := ∅ |}.

Definition request_of (cluster_role : role) : TargetRegisterRequest :=
  {| tr_workspace_id := "w1"; tr_cluster_id := "c1"; tr_cluster_role := cluster_role; tr_management_base_url := "http://m";
     tr_image := "r/agent:1"; tr_environment := "sandbox"; tr_loki_base_url := ""; tr_tempo_base_url := "";
     tr_otel_traces_endpoint := ""; tr_evidence_interval_seconds := 30; tr_control_namespaces := "shop";
     tr_install_node_collector := true; tr_install_sample_workload := false; tr_other := [] |}.

Definition image : string := "r/agent@sha256:0123456789abcdef0123456789abcdef0123456789abcdef0123456789abcdef".

Definition inputs : sync_inputs :=
  {| si_now := 10; si_fetch := Answered; si_report := Answered; si_failure_report := Lost; si_runtime := Ok [];
     si_status_details := []; si_providers := ["kubernetes"; "metrics"] |}.

Definition after {A} (p : world_prog A) (w : world) : world := (alone p w).2.
Definition booted (w : world) : world :=
  w <| w_agent := (apply_stored_or_default cfg 1 ["kubernetes"; "metrics"] (restarted false (w_agent w))).1 |>.

Definition w0 : world := {| w_server := empty_server; w_agent := new_agent |}.
Definition registered : world := after (on_server (forget (register_target "u1" (request_of role_target)))) w0.
Definition started_agent : world := booted registered.
Definition upgraded_server : world := after (on_server (forget (run_upgrade 2 image true))) started_agent.
Definition synced : world := after (forget (sync_once hash cfg inputs)) upgraded_server.
Definition reconciled : world := after (reconcile_and_report hash cfg 20 (fun _ => None) (Ok []) Answered) synced.

Example calls_ex : map (fun c => (kc_verb c, dr_name (kc_resource c), kc_generation c)) (ag_calls (w_agent reconciled))
  = [(KubeApply, "target-runtime-config", 2); (KubeApply, "cluster-agent", 2)].
Proof. vm_compute. reflexivity. Qed.

Lemma boot w ps s r :
  (apply_stored_or_default cfg 1 ["kubernetes"; "metrics"] (restarted false (w_agent w))).2 = Ok tt ->
  machine_step hash cfg (Build_machine w ps s r) (Build_machine (booted w) ps (Ret tt) (Ret tt)).
Proof.
  intros Ho. unfold booted. destruct (apply_stored_or_default _ _ _ _) as [a o] eqn:E. simpl in Ho. subst o.
  by apply (restart hash cfg w ps s r false 1 ["kubernetes"; "metrics"] a).
Qed.

Lemma registered_runs : rtc (machine_step hash cfg) (started empty_server) (Build_machine registered [] (Ret tt) (Ret tt)).
Proof. exact (route_alone hash cfg _ w0 (Ret tt) (Ret tt) (starts_register "u1" (request_of role_target))). Qed.

Lemma started_runs : rtc (machine_step hash cfg) (started empty_server) (Build_machine started_agent [] (Ret tt) (Ret tt)).
Proof. eapply rtc_r; [exact registered_runs|]. apply boot. vm_compute. reflexivity. Qed.

Lemma upgraded_runs : rtc (machine_step hash cfg) (started empty_server) (Build_machine upgraded_server [] (Ret tt) (Ret tt)).
Proof. etrans; [exact started_runs|]. exact (route_alone hash cfg _ started_agent (Ret tt) (Ret tt)
  (starts_upgrade 2 image true)). Qed.

(** The machine after the reconciler's pass is reachable. *)
Lemma reconciled_reachable : exists s r, reachable_from hash cfg empty_server (Build_machine reconciled [] s r).
Proof.
  destruct (sync_alone hash cfg inputs upgraded_server [] (Ret tt) (Ret tt) I) as (s & Hs & Hsync).
  destruct (reconcile_alone hash cfg 20 (fun _ => None) (Ok []) Answered synced [] s (Ret tt) I) as (r & Hr & Hrec).
  exists s, r. unfold reachable_from. etrans; [exact upgraded_runs|]. etrans; [exact Hsync|exact Hrec].
Qed.

Definition first_call : kube_call := {| kc_verb := KubeApply;
  kc_resource := runtime_config "target-runtime-config-images" image; kc_generation := 2 |}.

Lemma default_quiet : quiet (ac_default_policy cfg).
Proof. reflexivity. Qed.

Lemma first_call_sent : first_call ∈ ag_calls (w_agent reconciled).
Proof. apply (list_elem_of_lookup_2 _ 0). vm_compute. reflexivity. Qed.

Lemma kubernetes_calls_authorized_witness :
  exists m, reachable_from hash cfg empty_server m /\ first_call ∈ ag_calls (w_agent (m_world m))
    /\ (exists p, (("w1", "c1"), p) ∈ sv_history (w_server (m_world m)) /\ ap_generation p = 2)
    /\ allowed_object (kc_resource first_call).
Proof.
  destruct reconciled_reachable as (s & r & Hr). exists (Build_machine reconciled [] s r). split; [exact Hr|]. split;
    [exact first_call_sent|].
  destruct (kubernetes_calls_authorized hash cfg empty_server _ first_call default_quiet ltac:(done) ltac:(by split)
    Hr first_call_sent)
    as ((p & Hp & Hg & _) & _ & _ & Ho & _).
  split; [by exists p|exact Ho].
Defined.

(** A management cluster whose operator puts a policy. *)
Definition managed_server : server := (alone (register_target "u1" (request_of role_management)) empty_server).2 <|
  sv_policies := ∅ |> <| sv_history := [] |>.
Definition managed_update : policy_update := all_fields (freeze_management_policy (plain_policy "c1") <| ap_generation := 3 |>).
Definition managed_world : world :=
  after (on_server (forget (update_cluster_policy "w1" "c1" managed_update))) {| w_server := managed_server;
    w_agent := new_agent |}.

Example managed_ex : map (fun kp => (kp.1, ap_generation kp.2)) (sv_history (w_server managed_world)) = [(("w1", "c1"), 3)].
Proof. vm_compute. reflexivity. Qed.

Lemma managed_runs : reachable_from hash cfg managed_server (Build_machine managed_world [] (Ret tt) (Ret tt)).
Proof. exact (route_alone hash cfg _ {| w_server := managed_server; w_agent := new_agent |} (Ret tt) (Ret tt)
  (starts_update "w1" "c1" managed_update)). Qed.


Lemma policy_generations_witness :
  exists m m', reachable_from hash cfg empty_server m /\ machine_step hash cfg m m'
    /\ (active_generation (w_agent (m_world m)) <= active_generation (w_agent (m_world m'))
        \/ exists now providers, apply_stored_or_default cfg now providers (restarted true (w_agent (m_world m)))
          = (w_agent (m_world m'), Ok tt)).
Proof.
  pose proof (boot registered [] (Ret tt) (Ret tt) ltac:(by vm_compute)) as Hstep.
  do 2 eexists. split; [exact registered_runs|]. split; [exact Hstep|].
  destruct (policy_generations hash cfg empty_server _ _ default_quiet ltac:(done) ltac:(by split) registered_runs Hstep)
    as (_ & _ & _ & H & _).
  exact H.
Defined.

Definition registered_server : server := (alone (register_target "u1" (request_of role_target)) empty_server).2.
Definition first_agent : agent := (apply_stored_or_default cfg 1 ["kubernetes"; "metrics"] new_agent).1.

Lemma server_registered : alone (register_target "u1" (request_of role_target)) empty_server = (Ok tt, registered_server).
Proof. unfold registered_server. apply injective_projections; [vm_compute|]; reflexivity. Qed.

Lemma agent_started : apply_stored_or_default cfg 1 ["kubernetes"; "metrics"] new_agent = (first_agent, Ok tt).
Proof. unfold first_agent. apply injective_projections; [|vm_compute]; reflexivity. Qed.

Lemma registration_policy_unseen_witness :
  alone (register_target "u1" (request_of role_target)) empty_server = (Ok tt, registered_server)
  /\ apply_stored_or_default cfg 1 ["kubernetes"; "metrics"] new_agent = (first_agent, Ok tt)
  /\ w_agent (alone (sync_once hash cfg inputs) {| w_server := registered_server; w_agent := first_agent |}).2 = first_agent.
Proof.
  split; [exact server_registered|]. split; [exact agent_started|].
  exact (proj2 (registration_policy_unseen hash cfg "u1" (request_of role_target) empty_server _ 1 ["kubernetes";
    "metrics"] _ inputs
    eq_refl eq_refl eq_refl server_registered eq_refl agent_started)).
Defined.

(** The agent after its synchronization, before its pass. *)
Definition synced_policy : AgentPolicy := default (plain_policy "c1") (load_policy (w_agent synced)).

Lemma synced_loaded : load_reconcile_policy (w_agent synced) = Some synced_policy.
Proof. vm_compute. reflexivity. Qed.

Lemma synced_distinct : NoDup (map dr_resource_id (desired_resources synced_policy)).
Proof. apply (bool_decide_unpack _). vm_compute. exact I. Qed.

Definition allows (r : DesiredResource) : bool := match ensure_allowed cfg r with Ok _ => true | Err _ => false end.

Lemma synced_allowed : Forall (fun r => ensure_allowed cfg r = Ok tt) (desired_resources synced_policy).
Proof.
  assert (Ha : forallb allows (desired_resources synced_policy) = true) by (vm_compute; reflexivity).
  revert Ha. generalize (desired_resources synced_policy). intros l Ha. rewrite forallb_forall in Ha. apply Forall_forall.
  intros r Hr.
  specialize (Ha r (proj1 (list_elem_of_In _ _) Hr)). unfold allows in Ha. destruct (ensure_allowed cfg r) as [[]|];
    [done|discriminate].
Qed.

Lemma reconcile_converges_witness :
  exists report a1, alone (reconcile_once hash cfg 20 (fun _ => None) (Ok [])) (w_agent synced) = (Ok report, a1)
    /\ sr_status report <> "failed"
    /\ exists report2 a2, alone (reconcile_once hash cfg 30 (fun _ => None) (Ok [])) a1 = (Ok report2, a2)
      /\ sr_status report2 = "unchanged".
Proof.
  destruct (reconcile_converges hash cfg 20 (fun _ => None) (Ok []) (w_agent synced) synced_policy synced_loaded synced_distinct)
    as (report & a1 & Hrun & _ & _ & Hall).
  exists report, a1. split; [exact Hrun|]. destruct (Hall synced_allowed (fun _ => eq_refl) eq_refl) as [Hs Hnext].
  split; [exact Hs|]. exact (Hnext 30 (Ok [])).
Defined.

Lemma presets_ok key cluster_id profile namespaces : presets_distinct (evidence_provider_queries key cluster_id profile
  namespaces).
Proof.
  unfold presets_distinct. simpl. destruct (String.eqb key "metrics"); [|destruct (String.eqb key "kubernetes")]; simpl;
    (split; [repeat constructor; set_solver|repeat constructor; by eexists]).
Qed.

Definition key : cluster_key := ("w1", "c1").
Definition target_registration : registration :=
  default {| rg_id := 0; rg_status := ""; rg_settings := [] |} (sv_registrations (w_server registered) !! key).
Definition first_plan : TargetUpgradePlan :=
  match build_target_upgrade_plan image (candidate_of (w_server registered) (key, target_registration)) with
  | Ok plan => plan
  | Err _ => skipped_plan (candidate_of (w_server registered) (key, target_registration)) (plain_policy "c1") "failed"
  end.

Lemma upgrade_settles_witness :
  exists t' r' plan', apply_target_runtime_upgrade first_plan (w_server registered) = Ok t' /\ pn_changed first_plan = true
    /\ build_target_upgrade_plan image (candidate_of t' (key, r')) = Ok plan' /\ pn_changed plan' = false.
Proof.
  destruct (apply_target_runtime_upgrade first_plan (w_server registered)) as [t'|e] eqn:Ha; [|vm_compute in Ha; discriminate Ha].
  destruct (upgrade_settles presets_ok image key target_registration (w_server registered) t' first_plan)
    as (r' & plan' & _ & H1 & H2).
  - vm_compute. reflexivity.
  - vm_compute. repeat constructor; discriminate.
  - vm_compute. reflexivity.
  - exact Ha.
  - exists t', r', plan'. split; [reflexivity|]. split; [vm_compute; reflexivity|]. by split.
Defined.

Lemma upgrade_plan_accepted_witness :
  exists p id d, pn_policy first_plan = Some p /\ runtime_config id image ∈ desired_resources p
    /\ matching is_agent_deployment p = [d] /\ ensure_allowed cfg d = Ok tt.
Proof.
  destruct (pn_policy first_plan) as [p|] eqn:Hp; [|vm_compute in Hp; discriminate Hp].
  destruct (upgrade_plan_accepted image key target_registration (w_server registered) first_plan p)
    as (im & id & d & l & Him & Hc & Hd & _ & _ & Hok & _).
  - vm_compute. reflexivity.
  - exact Hp.
  - assert (im = image) as -> by (vm_compute in Him; injection Him as <-; reflexivity). exists p, id, d. split;
    [reflexivity|]. split; [exact Hc|]. split; [exact Hd|].
    apply (Hok cfg eq_refl). vm_compute. reflexivity.
Defined.
End Cluster.
